(* ===== verification/_CoqProject ===== *)
-Q . S2P
Prelude.v
Bytes.v
Durations.v
Lifecycle.v
FIFO.v
ClassQueue.v
AlarmTumble.v
PadStack.v
Digest.v
RotationFilter.v
RouteSchedule.v
RotationVerify.v
ToolProxy.v
KnownState.v
Net.v
DurationText.v
Url.v
UrlText.v
UrlQuery.v
MockRedirect.v
Targets.v
Auth.v
Hurl.v
Safety.v
Faults.v
Rpc.v
Handshake.v
Config.v
Engine.v
Runs.v
Alerts.v
Hosted.v
ServerManager.v
ConfigValidate.v
SelfRefs.v
Discovery.v
Meta.v
OneShot.v
DynamicConfig.v
Registry.v
Slots.v
Health.v
Serve.v
SelfDescription.v
Facade.v
Reseed.v
Skills.v
Commands.v
Status.v
Federation.v
FedCluster.v
Ui.v
ServeMesh.v
OpsRuntime.v
Mdns.v
Telemetry.v
