(* ===== verification/Prelude.v ===== *)
(** * A verification of smoke-alarm's state machines

    smoke-alarm watches MCP and HTTP targets, remembers when each was healthy,
    raises alerts on regressions, shows what it knows on a health server and
    shares it with the other instances of a federation; its [mcp_faults] package
    holds the queues, the honeypot routes and the rotation protocol its fault
    experiments are built from. This library translates those parts from Go into
    executable definitions and proves what they promise.

    ** Files

    - [Prelude]: machine words, the clock, the functions of Go's [strings] the
      code uses, and the monad every stateful method is written in.
    - [Bytes]: byte strings: searching, cutting, trimming, reversal.
    - [DurationText], [UrlQuery]: that a printed duration reads back, and the
      queries of [net/url].
    - [Durations]: [time.Duration.String], [ParseDuration], RFC 3339 and
      [federation/util.go].
    - [Lifecycle]: the managed update ([ops/update.go]): the protocol of stop,
      deploy, start, verify, commit and roll back, its journal and version files.
    - [FIFO], [ClassQueue]: the bounded queues ([mcp_faults/fifo.go],
      [class_queue.go]). A run keeps the books balanced and the order of arrival;
      a critical arrival displaces bulk work only.
    - [AlarmTumble]: the conditional rotation chain ([alarm_tumble.go]), with its
      wrap-around; refused alarms are inert.
    - [PadStack]: pads, pending requests, route keys and verdicts
      ([pad_stack.go], [route_key.go], [verdict.go]).
    - [Digest]: SHA-1, SHA-256, HMAC, FNV-1a, written out and tested on vectors.
    - [RotationFilter]: the Bloom filter ([rotation_filter.go]) refines the set of
      positions its members hash to.
    - [RouteSchedule]: epochs and prefixes ([rotation_schedule.go]).
    - [RotationVerify]: rotation claims, replicas, verdicts and commits
      ([rotation_verify.go], [rotation_commit.go]).
    - [ToolProxy]: the honeypot routes ([tool_proxy.go]): what a proxy accepts,
      logs and prices, over every sequence of method calls.
    - [KnownState]: the baseline store ([knownstate/store.go]): what it keeps is a
      summary of the whole history of observations, and a save is all or nothing.
    - [Net]: [net.SplitHostPort], [ParseIP], [filepath.Clean] and the address
      helpers of [federation], [config/selfrefs.go], [mdns]; [netbind.Listen].
    - [Url], [UrlText]: [net/url]: parsing, printing, resolving references; what
      is printed parses back to the same URL.
    - [Targets]: the vocabulary of checks and the validation of a target
      ([targets/targets.go]).
    - [Auth]: secret resolvers and the headers of a request
      ([auth/provider.go]); the chain stops at the first secret or hard error.
    - [Hurl]: the hurl executor ([pkg/hurl/hurl.go]), which fails closed.
    - [Safety]: the tests run before the protocol ([safety/hurl.go]).
    - [Faults]: failure modes and the profiles that inject them
      ([mcp_faults/failures.go], [injection.go]): a profile's seed is constant
      over a window of five seconds and differs between windows.
    - [Rpc]: JSON-RPC over a pipe ([engine/stdio_prober.go],
      [mcp_handshake.go]): bounded lines, frames, responses matched by id.
    - [Handshake]: the HTTP and stdio probers ([engine/engine.go],
      [stdio_prober.go]): which surface is healthy, degraded or unhealthy.
    - [Config]: the schema of the configuration and its defaults
      ([config/config.go]); filling them in twice changes nothing.
    - [ConfigValidate]: validation and loading: what a configuration that loads
      promises, and what it still needs for the engine to start.
    - [Engine]: compiling the targets, one check from the safety stage to the
      alert, and reloads ([engine/engine.go]); what a check makes of a finding and
      of the baseline, and what holds after any checks and reloads.
    - [Runs]: the goroutines of the engine as a step relation: starts, reloads,
      cancellations and probes in flight in any order follow the steps of
      [Engine], no one waits for ever, and a stopped engine is quiet.
    - [Alerts]: the log and desktop sinks and their group ([alerts/notifier.go],
      [config.go]): what a sink shows, to whom it is sent, and that no text can
      inject a script.
    - [Hosted]: the hosted MCP server ([hosted/server.go]): sessions, counters,
      the event ring, the caller line over any interleaving of listeners, and
      what the program's own prober finds when it probes this server.
    - [ServerManager]: the manager of honeypot servers
      ([engine/mcp_server_manager.go]), over the tool proxies: when a server is
      evicted, and in which order servers are ranked.
    - [SelfRefs]: following listeners that moved ([config/selfrefs.go]).
    - [Discovery]: targets found in the configuration, the environment, on local
      ports and in llms.txt documents ([discovery/discovery.go]); each endpoint is
      reported once, by its first source.
    - [Meta]: the meta-configuration ([meta/generator.go]) and the [gen-meta]
      command: what it writes is valid and can be read back into the target.
    - [MockRedirect]: the mock OAuth redirect ([auth/mock_redirect.go]): a link it
      builds brings its parameters to its handler.
    - [OneShot]: the check commands ([cmd/ocd-smoke-alarm/main.go]): they compile a
      target as the engine does, and what an exit without an error means.
    - [DynamicConfig]: discovery records written to disk
      ([dynamicconfig/persistence.go]), under names that stay in the directory.
    - [Registry]: federation membership ([federation/registry.go],
      [isotopes.go]) and its events.
    - [Slots]: claiming a local slot ([federation/slots.go]) and its lock file.
    - [Health]: the health server ([health/server.go], [listeners.go]).
    - [Serve]: the serving process ([main.go], [listeners.go]): the overrides of the
      flags, the runtime lock, the listeners' ports, and the steps of engine and
      health server: whatever their order, the health view follows the engine.
    - [SelfDescription]: the document the health server gives of its process
      ([health/selfdescription.go]) and the Gherkin features it registers
      ([features_loader.go]): surfaces are described where they are bound.
    - [Facade]: the instance other programs embed ([pkg/smokealarm/smokealarm.go]),
      made of [Engine], [Runs], [Health] and [Serve]: an instance that checks itself
      checks where it serves, and a reload is taken whole or not at all.
    - [Reseed]: the cache reseeder ([cmd/synapse-cache-reseed]): a dry run writes
      nothing, each input is accounted for, and a call ends after three attempts.
    - [Skills]: the skill files of a project ([skills/skills.go]): which are found,
      which are valid, and the report made of them.
    - [Commands]: [validate], [discover], [dynamic-config] and the [ops] commands
      ([main.go]), over [Discovery], [DynamicConfig] and [Serve]: what is persisted is
      shown, a reload reaches the process [serve] runs, a stop ends.
    - [Status]: rendering peers' statuses ([federation/status.go]) against the
      interface [StatusSink], which the health server implements.
    - [Federation]: the introducer's handlers and the follower
      ([federation/server.go], [client.go]), built from [Registry], [Health] and
      [Status].
    - [FedCluster]: followers' requests against the introducer, in any order and
      with losses ([federation/client.go]): only holders of the secret are in the
      cluster, and an alert on one alarm is shown by the others.
    - [Ui]: the terminal dashboard ([ui/ui.go]): what it lists and counts; it never
      panics and its refresh goes on.
    - [ServeMesh]: the federation as [serve] wires it ([main.go],
      [federation/isotopes.go]), over [Slots], [Federation] and [Health]: trust
      follows membership at the introducer, and a set-up that fails holds nothing.
    - [OpsRuntime]: the runtime of [ops] ([ops/runtime.go]): its lock, its start, its
      health loop and its goroutines; a foreground run ends and reports what failed.
    - [Mdns]: the advertiser ([mdns/advertiser.go]): what is on the air is the
      configured service, and the end of the context withdraws it.
    - [Telemetry]: the metrics ([telemetry/telemetry.go]): what each counter sums.

    ** How the code is read

    A struct is a [Record], a method a program of the monad [M S] over the
    receiver's state [S]. The programs thread the state and a tick; every reading
    of the clock and every draw of entropy takes the value an environment [Env]
    gives for the tick, so a theorem that holds for every environment holds for
    every behaviour of the clock. Most methods hold a mutex from beginning to end
    and are therefore one program; where the interleaving is the point (the slot
    lock file, the engine's loops, the serving process) it is a step relation. Errors are values of an option, a sum or an
    error type; texts that format a value are shortened where noted.

    A [time.Time] is a count of nanoseconds from Go's zero time, a
    [time.Duration] a count of nanoseconds. [int64] and [uint64] arithmetic wraps
    ([wrap_i64], [wrap_u64]) where a value can leave the range; counters that only
    count method calls are unbounded. A Go map is a [gmap]; where the code ranges
    over one, the order is an argument and the theorems quantify over it. Case
    folding is on ASCII. JSON is read and written by Go: a handler takes the
    decoded body, or [None] when it does not decode.

    Code outside the repository is a parameter: the [isotope] module's
    verification and keyring ([Health], Section [Trust]) and its agent state
    ([ServerManager.AgentState], a class with the laws the manager relies on),
    the draws of [math/rand] ([Faults]), the operating system's
    answers to [bind] ([Net.Listen]) and to file operations ([KnownState.Faults],
    [Slots.OS], [DynamicConfig.OS]), what discovery asks of the environment and
    the network ([Discovery.Surroundings]), the commands and the disk of an update
    ([Lifecycle.Host]), what a one-shot check meets ([OneShot.Surface]), the hurl command and HTTP clients ([Hurl.Host],
    [Safety.SafetyHost], [Handshake.Network]), a child process
    ([Handshake.Child]), the desktop ([Alerts.Platform]), the YAML decoder
    ([ConfigValidate], Section [Validation]) and secrets ([Auth.Secrets]), the files
    a generator writes ([Meta.MetaOS]), the walk over a directory of features
    ([SelfDescription.WalkEntry]), the skill directories ([Skills.SkillFiles]), the
    processes and the shell ([Commands.Processes]), and the server, the YAML and the JSON reader of the
    reseeder ([Reseed]). The
    recursions are structural except for string scanning, where the fuel is the
    length of the string, and for the waits of an update ([Lifecycle.poll]) and of
    [ops stop] ([Commands.await_stop]), whose ends depend on the clock:
    [Execute_returns] and [cmdOpsStop_ends] say that some fuel is enough.

    ** What is not modelled

    Serving and calling HTTP, starting processes, and the loops and goroutines
    that call the methods above, except those of the engine ([Runs]; there too a
    check is one program, and takes effect when it ends), the follower's
    ([FedCluster]), the dashboard's ([Ui]) and the runtime's ([OpsRuntime]);
    the export of metrics, the [Details] of check results, logging,
    files written only to be looked at, the float-valued estimates of the Bloom
    filter, and the step definitions and test servers of the feature tests. *)

From Stdlib Require Import ZArith Lia Ascii.
From stdpp Require Import base tactics list gmap strings pretty sorting relations.

#[export] Set Default Goal Selector "!".

Declare Scope go_scope.
Delimit Scope go_scope with go.

(** ** Machine integers

    Go's [int] and [int64] are 64-bit two's complement on every platform the
    program supports; [uint64] wraps modulo 2^64. *)
Section Words.
Open Scope Z_scope.

Definition two63 : Z := 9223372036854775808.
Definition two64 : Z := 18446744073709551616.

Definition wrap_i64 (z : Z) : Z := (z + two63) mod two64 - two63.
Definition wrap_u64 (z : Z) : Z := z mod two64.

Definition in_i64 (z : Z) : Prop := - two63 ≤ z < two63.
Definition in_u64 (z : Z) : Prop := 0 ≤ z < two64.

#[global] Instance in_i64_dec z : Decision (in_i64 z).
Proof. unfold in_i64. apply _. Defined.
#[global] Instance in_u64_dec z : Decision (in_u64 z).
Proof. unfold in_u64. apply _. Defined.

Lemma wrap_i64_id z : in_i64 z → wrap_i64 z = z.
Proof.
  unfold in_i64, wrap_i64, two63, two64. intros H.
  rewrite Z.mod_small; lia.
Qed.

Lemma wrap_i64_range z : in_i64 (wrap_i64 z).
Proof.
  unfold in_i64, wrap_i64, two63, two64.
  pose proof (Z.mod_pos_bound (z + 9223372036854775808) 18446744073709551616).
  lia.
Qed.

Lemma wrap_i64_over z :
  two63 ≤ z < two63 + two64 → wrap_i64 z = z - two64.
Proof.
  unfold wrap_i64, two63, two64. intros H.
  rewrite <- (Z.mod_unique (z + 9223372036854775808) 18446744073709551616
    1 (z + 9223372036854775808 - 18446744073709551616)); lia.
Qed.

Lemma wrap_u64_range z : in_u64 (wrap_u64 z).
Proof. unfold in_u64, wrap_u64. apply Z.mod_pos_bound. unfold two64. lia. Qed.

Lemma wrap_u64_id z : in_u64 z → wrap_u64 z = z.
Proof. unfold in_u64, wrap_u64. intros. by apply Z.mod_small. Qed.
End Words.

(** ** Time

    A [time.Time] is its distance in nanoseconds from Go's zero instant, so
    [IsZero] is equality with 0; the monotonic reading is not represented. A
    [time.Duration] is an [int64] count of nanoseconds, and [Time.Sub]
    saturates at the ends of that range. *)
Abbreviation Time := Z (only parsing).
Abbreviation Duration := Z (only parsing).

Section Clock.
Open Scope Z_scope.

Definition zeroTime : Time := 0.
Definition IsZero (t : Time) : bool := t =? 0.
Definition Before (a b : Time) : bool := a <? b.
Definition After (a b : Time) : bool := b <? a.
Definition TimeEqual (a b : Time) : bool := a =? b.
Definition TimeAdd (t : Time) (d : Duration) : Time := t + d.
Definition TimeSub (a b : Time) : Duration := Z.max (- two63) (Z.min (two63 - 1) (a - b)).

Definition Second : Duration := 1000000000.
Definition Minute : Duration := 60 * Second.

Lemma TimeSub_range a b : in_i64 (TimeSub a b).
Proof. unfold in_i64, TimeSub, two63. lia. Qed.

Lemma TimeSub_exact a b : in_i64 (a - b) → TimeSub a b = a - b.
Proof. unfold in_i64, TimeSub, two63. lia. Qed.

Lemma TimeSub_self a : TimeSub a a = 0.
Proof. unfold TimeSub, two63. lia. Qed.

Lemma TimeSub_mono a a' b : a ≤ a' → TimeSub a b ≤ TimeSub a' b.
Proof. unfold TimeSub. lia. Qed.
End Clock.

(** ** Strings

    A Go string is a sequence of bytes, which is what [string] is. The
    [strings] package functions the program calls are written on bytes.
    [ToLower] and [ToUpper] fold the ASCII letters: they agree with Go on
    ASCII text, and the program compares the result with ASCII literals. *)
Section Strings.
Definition byte_of (n : N) : string := String (ascii_of_N n) "".

Fixpoint string_map (f : ascii → ascii) (s : string) : string :=
  match s with
  | "" => ""
  | String c r => String (f c) (string_map f r)
  end.

Definition lower_ascii (c : ascii) : ascii :=
  let n := N_of_ascii c in
  if (65 <=? n)%N && (n <=? 90)%N then ascii_of_N (n + 32) else c.
Definition upper_ascii (c : ascii) : ascii :=
  let n := N_of_ascii c in
  if (97 <=? n)%N && (n <=? 122)%N then ascii_of_N (n - 32) else c.

Definition ToLower : string → string := string_map lower_ascii.
Definition ToUpper : string → string := string_map upper_ascii.
Definition EqualFold (a b : string) : bool := bool_decide (ToLower a = ToLower b).

Definition HasPrefix (s p : string) : bool := String.prefix p s.

Fixpoint sdrop (n : nat) (s : string) : string :=
  match n, s with
  | 0, _ => s
  | S n, String _ r => sdrop n r
  | S _, "" => ""
  end.
Fixpoint stake (n : nat) (s : string) : string :=
  match n, s with
  | S n, String c r => String c (stake n r)
  | _, _ => ""
  end.

Definition TrimPrefix (s p : string) : string :=
  if HasPrefix s p then sdrop (String.length p) s else s.

Definition HasSuffix (s p : string) : bool := HasPrefix (String.rev s) (String.rev p).
Definition TrimSuffix (s p : string) : string :=
  if HasSuffix s p then stake (String.length s - String.length p) s else s.

Fixpoint Contains (s sub : string) : bool :=
  HasPrefix s sub ||
  match s with "" => false | String _ r => Contains r sub end.

(** The UTF-8 encodings of the runes [unicode.IsSpace] accepts. *)
Definition space_runes : list string :=
  map byte_of [9; 10; 11; 12; 13; 32]%N
  ++ map (λ n, byte_of 194 +:+ byte_of n) [133; 160]%N
  ++ [byte_of 225 +:+ byte_of 154 +:+ byte_of 128]
  ++ map (λ n, byte_of 226 +:+ byte_of 128 +:+ byte_of n)
       [128; 129; 130; 131; 132; 133; 134; 135; 136; 137; 138; 168; 169; 175]%N
  ++ [byte_of 226 +:+ byte_of 129 +:+ byte_of 159]
  ++ [byte_of 227 +:+ byte_of 128 +:+ byte_of 128].

Fixpoint trim_runes (runes : list string) (fuel : nat) (s : string) : string :=
  match fuel with
  | 0 => s
  | S fuel =>
      match find (HasPrefix s) runes with
      | Some e => trim_runes runes fuel (sdrop (String.length e) s)
      | None => s
      end
  end.

Definition TrimLeftSpace (s : string) : string :=
  trim_runes space_runes (String.length s) s.
Definition TrimRightSpace (s : string) : string :=
  String.rev (trim_runes (map String.rev space_runes) (String.length s) (String.rev s)).
Definition TrimSpace (s : string) : string := TrimRightSpace (TrimLeftSpace s).

(** The test the program writes as [strings.TrimSpace(s) == ""]. *)
Definition blank (s : string) : bool := bool_decide (TrimSpace s = "").

Fixpoint Join (l : list string) (sep : string) : string :=
  match l with
  | [] => ""
  | [x] => x
  | x :: r => x +:+ sep +:+ Join r sep
  end.

Fixpoint split_go (sep : ascii) (cur : string) (s : string) : list string :=
  match s with
  | "" => [String.rev cur]
  | String c r =>
      if bool_decide (c = sep) then String.rev cur :: split_go sep "" r
      else split_go sep (String c cur) r
  end.
(** [strings.Split] for a separator of one byte. *)
Definition Split (s : string) (sep : ascii) : list string := split_go sep "" s.

Fixpoint replacer_go (pairs : list (string * string)) (skip : nat) (s : string) : string :=
  match s with
  | "" => ""
  | String c r =>
      match skip with
      | S k => replacer_go pairs k r
      | 0 =>
          match find (λ p, HasPrefix s p.1) pairs with
          | Some (old, new) => new +:+ replacer_go pairs (String.length old - 1) r
          | None => String c (replacer_go pairs 0 r)
          end
      end
  end.
(** [strings.NewReplacer(pairs...).Replace(s)] for non-empty old strings:
    at each position the first pair that matches wins. *)
Definition Replacer (pairs : list (string * string)) (s : string) : string :=
  replacer_go pairs 0 s.
Definition ReplaceAll (s old new : string) : string := Replacer [(old, new)] s.

(** [strconv.Itoa] and the [%d] verb. *)
Definition Itoa (z : Z) : string := pretty z.

Definition sort_strings (l : list string) : list string := merge_sort String.le l.

(** A string equality test as the boolean Go computes. *)
Definition streq (a b : string) : bool := bool_decide (a = b).
Definition mem (x : string) (l : list string) : bool := existsb (streq x) l.
End Strings.

Infix "=s" := streq (at level 70, no associativity) : go_scope.
Open Scope go_scope.

Lemma streq_true a b : streq a b = true ↔ a = b.
Proof. unfold streq. by rewrite bool_decide_eq_true. Qed.
Lemma streq_false a b : streq a b = false ↔ a ≠ b.
Proof. unfold streq. by rewrite bool_decide_eq_false. Qed.
Lemma streq_refl a : streq a a = true.
Proof. by apply streq_true. Qed.

Lemma mem_true x l : mem x l = true ↔ x ∈ l.
Proof.
  unfold mem. rewrite existsb_exists. setoid_rewrite streq_true.
  rewrite list_elem_of_In. split; [intros (y & ? & ->); done|by exists x].
Qed.

Lemma slength_app (s t : string) : String.length (s +:+ t) = (String.length s + String.length t)%nat.
Proof.
  induction s as [|c s IH]; [done|].
  change (S (String.length (s +:+ t)) = S (String.length s + String.length t)). by rewrite IH.
Qed.

Lemma sapp_assoc (a b c : string) : (a +:+ b) +:+ c = a +:+ (b +:+ c).
Proof.
  induction a as [|x a IH]; [done|].
  change (String x ((a +:+ b) +:+ c) = String x (a +:+ (b +:+ c))). by rewrite IH.
Qed.

Lemma sapp_nil_r (s : string) : s +:+ "" = s.
Proof. induction s as [|c s IH]; [done|]. change (String c (s +:+ "") = String c s). by rewrite IH. Qed.

Lemma sapp_inj_length (a b c d : string) :
  String.length a = String.length b → a +:+ c = b +:+ d → a = b ∧ c = d.
Proof.
  revert b. induction a as [|x a IH]; intros [|y b] Hl Heq; try done.
  change (String x (a +:+ c) = String y (b +:+ d)) in Heq. injection Heq as -> Heq.
  injection Hl as Hl. by destruct (IH b Hl Heq) as [-> ->].
Qed.

Lemma HasPrefix_spec s p : HasPrefix s p = true ↔ ∃ t, s = p +:+ t.
Proof.
  unfold HasPrefix. revert s. induction p as [|c p IH]; intros s; cbn.
  - split; [intros _; by exists s|]. intros _. by destruct s.
  - destruct s as [|d s]; cbn.
    { split; [done|]. by intros [t Ht]. }
    destruct (ascii_dec c d) as [->|Hne].
    + rewrite IH. split.
      * intros [t ->]. by exists t.
      * intros [t Ht]. exists t. change (String d s = String d (p +:+ t)) in Ht. congruence.
    + split; [done|]. intros [t Ht].
      change (String d s = String c (p +:+ t)) in Ht. congruence.
Qed.

Lemma HasPrefix_app p t : HasPrefix (p +:+ t) p = true.
Proof. apply HasPrefix_spec. eauto. Qed.

Lemma Contains_spec s sub : Contains s sub = true ↔ ∃ a b, s = a +:+ sub +:+ b.
Proof.
  induction s as [|c s IH].
  - cbn [Contains]. rewrite orb_false_r, HasPrefix_spec. split.
    + intros [t Ht]. exists "", t. done.
    + intros (a & b & Hab). exists b. destruct a; [done|]. discriminate.
  - cbn [Contains]. rewrite orb_true_iff, IH, HasPrefix_spec. split.
    + intros [[t Ht]|(a & b & ->)].
      * exists "", t. done.
      * exists (String c a), b. done.
    + intros (a & b & Hab). destruct a as [|d a].
      * left. by exists b.
      * right. change (String c s = String d (a +:+ sub +:+ b)) in Hab.
        exists a, b. congruence.
Qed.

Example TrimSpace_ex : TrimSpace (byte_of 9 +:+ " a b" +:+ byte_of 194 +:+ byte_of 160) = "a b".
Proof. reflexivity. Qed.
Example Split_ex : Split "honeypot_ab_tool" "_" = ["honeypot"; "ab"; "tool"].
Proof. reflexivity. Qed.
Example ReplaceAll_ex : ReplaceAll "a Bearer b" "Bearer " "Bearer ****" = "a Bearer ****b".
Proof. reflexivity. Qed.

(** Sorting returns a permutation, in byte order, that depends only on the
    elements: it is what makes a map iterated in any order deterministic. *)
Lemma sort_strings_perm l : sort_strings l ≡ₚ l.
Proof. apply merge_sort_Permutation. Qed.
Lemma sort_strings_sorted l : StronglySorted String.le (sort_strings l).
Proof. apply StronglySorted_merge_sort; apply _. Qed.
Lemma sort_strings_ext l l' : l ≡ₚ l' → sort_strings l = sort_strings l'.
Proof.
  intros Hp. apply (StronglySorted_unique String.le); [apply sort_strings_sorted..|].
  by rewrite !sort_strings_perm.
Qed.

(** A byte that does not occur on the left of a separator makes the separator
    unambiguous. *)
Fixpoint has_byte (c : ascii) (s : string) : bool :=
  match s with
  | "" => false
  | String d r => bool_decide (c = d) || has_byte c r
  end.

Lemma sep_inj c s1 : ∀ s2 t1 t2,
  has_byte c s1 = false → has_byte c s2 = false →
  s1 +:+ String c t1 = s2 +:+ String c t2 → s1 = s2 ∧ t1 = t2.
Proof.
  induction s1 as [|d s1 IH]; intros [|e s2] t1 t2 H1 H2 Heq.
  - change (String c t1 = String c t2) in Heq. by simplify_eq.
  - change (String c t1 = String e (s2 +:+ String c t2)) in Heq. simplify_eq.
    cbn in H2. by rewrite bool_decide_eq_true_2 in H2.
  - change (String d (s1 +:+ String c t1) = String c t2) in Heq. simplify_eq.
    cbn in H1. by rewrite bool_decide_eq_true_2 in H1.
  - change (String d (s1 +:+ String c t1) = String e (s2 +:+ String c t2)) in Heq.
    simplify_eq. cbn in H1, H2. apply orb_false_iff in H1 as [_ H1], H2 as [_ H2].
    destruct (IH s2 t1 t2 H1 H2) as [-> ->]; done.
Qed.

(** ** [sort.Slice]

    It is not stable: all it promises is the same elements, in an order no element
    of which is less than one before it. [R] is "not less than". *)
Class SliceSort {A : Type} (R : relation A) (sort : list A → list A) := {
  slice_sort_perm l : sort l ≡ₚ l;
  slice_sort_sorted l : StronglySorted R (sort l);
}.

#[global] Instance merge_sort_slice {A} (R : relation A) `{!∀ x y, Decision (R x y), !Total R, !Transitive R} :
  SliceSort R (merge_sort R).
Proof. split; intros l; [apply merge_sort_Permutation|by apply (StronglySorted_merge_sort R)]. Qed.

(** ** Transition systems *)
Lemma rtc_invariant {S : Type} (R : relation S) (I : S → Prop) :
  (∀ s s', I s → R s s' → I s') → ∀ s s', rtc R s s' → I s → I s'.
Proof. intros Hstep s s' Hrtc. induction Hrtc; eauto. Qed.

(** ** Automation

    [go_cases] splits a goal (or an equation) on the conditions of the code's
    [if]s and [switch]es and turns boolean tests into propositions. *)
Create HintDb go discriminated.

Ltac go_bools :=
  repeat match goal with
  | H : _ && _ = true |- _ => apply andb_true_iff in H as [? ?]
  | H : _ || _ = false |- _ => apply orb_false_iff in H as [? ?]
  | H : negb _ = true |- _ => apply negb_true_iff in H
  | H : negb _ = false |- _ => apply negb_false_iff in H
  | H : streq _ _ = true |- _ => apply streq_true in H
  | H : streq _ _ = false |- _ => apply streq_false in H
  | H : bool_decide _ = true |- _ => apply bool_decide_eq_true in H
  | H : bool_decide _ = false |- _ => apply bool_decide_eq_false in H
  | H : (_ <? _)%Z = true |- _ => apply Z.ltb_lt in H
  | H : (_ <? _)%Z = false |- _ => apply Z.ltb_ge in H
  | H : (_ <=? _)%Z = true |- _ => apply Z.leb_le in H
  | H : (_ <=? _)%Z = false |- _ => apply Z.leb_gt in H
  | H : (_ =? _)%Z = true |- _ => apply Z.eqb_eq in H
  | H : (_ =? _)%Z = false |- _ => apply Z.eqb_neq in H
  | H : (_ <? _)%nat = true |- _ => apply Nat.ltb_lt in H
  | H : (_ <? _)%nat = false |- _ => apply Nat.ltb_ge in H
  | H : (_ <=? _)%nat = true |- _ => apply Nat.leb_le in H
  | H : (_ <=? _)%nat = false |- _ => apply Nat.leb_gt in H
  end.

Ltac go_cases := repeat (case_match; simplify_eq/=); go_bools; simplify_eq/=.

#[export] Hint Resolve streq_refl wrap_i64_range TimeSub_range : go.

(** ** Programs that read the clock

    A method that reads [time.Now] (or its clock seam) or draws from
    [crypto/rand] more than once sees a different value each time. [Env] is the
    outside world as the sequences of values it will return; [tick] counts the
    reads. A program is a state transformer over the receiver's fields. *)
Record Env := mkEnv {
  env_clock : nat → Time;
  env_nonce : nat → string;
}.

Definition M (S A : Type) : Type := Env → nat → S → A * nat * S.

Section Programs.
Context {S : Type}.

#[global] Instance M_ret : MRet (M S) := λ A a env tick s, (a, tick, s).
#[global] Instance M_bind : MBind (M S) := λ A B f m env tick s,
  let '(a, tick', s') := m env tick s in f a env tick' s'.

Definition get : M S S := λ env tick s, (s, tick, s).
Definition modify (f : S → S) : M S unit := λ env tick s, (tt, tick, f s).
Definition clock : M S Time := λ env tick s, (env_clock env tick, 1 + tick, s).
Definition draw : M S string := λ env tick s, (env_nonce env tick, 1 + tick, s).

(** An instant at which the outside world is asked something: what it answers is a
    function of the instant. *)
Definition moment : M S nat := λ env tick s, (tick, 1 + tick, s).

Definition run {A} (m : M S A) (env : Env) (tick : nat) (s : S) : A * nat * S :=
  m env tick s.
Definition result {A} (m : M S A) (env : Env) (tick : nat) (s : S) : A := (m env tick s).1.1.
Definition ticks {A} (m : M S A) (env : Env) (tick : nat) (s : S) : nat := (m env tick s).1.2.
Definition state {A} (m : M S A) (env : Env) (tick : nat) (s : S) : S := (m env tick s).2.

(** What holds of the result, the reads made and the state a program leaves.
    The equations below execute a program symbolically. *)
Definition wp {A} (m : M S A) (env : Env) (tick : nat) (s : S)
  (Q : A → nat → S → Prop) : Prop :=
  let '(a, tick', s') := m env tick s in Q a tick' s'.

Lemma wp_ret env tick s A (a : A) Q : wp (mret a) env tick s Q = Q a tick s.
Proof. done. Qed.
Lemma wp_bind env tick s A B (m : M S A) (f : A → M S B) Q :
  wp (m ≫= f) env tick s Q = wp m env tick s (λ a tick s, wp (f a) env tick s Q).
Proof. unfold wp, mbind, M_bind. by destruct (m env tick s) as [[a t] s']. Qed.
Lemma wp_get env tick s Q : wp get env tick s Q = Q s tick s.
Proof. done. Qed.
Lemma wp_modify env tick s f Q : wp (modify f) env tick s Q = Q tt tick (f s).
Proof. done. Qed.
Lemma wp_clock env tick s Q :
  wp clock env tick s Q = Q (env_clock env tick) (1 + tick) s.
Proof. done. Qed.
Lemma wp_draw env tick s Q :
  wp draw env tick s Q = Q (env_nonce env tick) (1 + tick) s.
Proof. done. Qed.
Lemma wp_moment env tick s Q : wp moment env tick s Q = Q tick (1 + tick) s.
Proof. done. Qed.
Lemma wp_mono env tick s A (m : M S A) (Q Q' : A → nat → S → Prop) :
  wp m env tick s Q → (∀ a t s', Q a t s' → Q' a t s') → wp m env tick s Q'.
Proof. unfold wp. destruct (m env tick s) as [[a t] s']. eauto. Qed.
Lemma wp_intro env tick s A (m : M S A) (Q : A → nat → S → Prop) :
  (∀ a t s', Q a t s') → wp m env tick s Q.
Proof. unfold wp. destruct (m env tick s) as [[a t] s']. eauto. Qed.
Lemma wp_run env tick s A (m : M S A) (Q : A → nat → S → Prop) :
  wp m env tick s Q ↔ Q (result m env tick s) (ticks m env tick s) (state m env tick s).
Proof. unfold wp, result, ticks, state. by destruct (m env tick s) as [[a t] s']. Qed.
End Programs.

(** A program on a part of the state. *)
Definition zoom {S T A : Type} (part : S → T) (put : T → S → S) (m : M T A) : M S A :=
  λ env tick s, let '(a, tick, t) := m env tick (part s) in (a, tick, put t s).

Lemma wp_zoom {S T A : Type} (part : S → T) (put : T → S → S) (m : M T A) env tick s Q :
  wp (zoom part put m) env tick s Q = wp m env tick (part s) (λ a t x, Q a t (put x s)).
Proof. unfold wp, zoom. by destruct (m env tick (part s)) as [[a t] x]. Qed.

(** Symbolic execution to the next call of a named program. *)
Ltac wp_go :=
  repeat first
    [ rewrite wp_bind | rewrite wp_ret | rewrite wp_get | rewrite wp_modify
    | rewrite wp_clock | rewrite wp_draw | rewrite wp_moment ].

(** ** Frames

    What a program leaves alone: [keeps f m] says that [m] does not change [f] of
    the state. [keeps_go] proves it from the program's text. *)
Definition keeps {S A T : Type} (f : S → T) (m : M S A) : Prop := ∀ env tick s, f (state m env tick s) = f s.

Section Frames.
Context {S T : Type} (f : S → T).

Lemma keeps_ret A (a : A) : keeps f (mret a : M S A).
Proof. done. Qed.
Lemma keeps_bind A B (m : M S A) (g : A → M S B) : keeps f m → (∀ a, keeps f (g a)) → keeps f (m ≫= g).
Proof.
  intros Hm Hg env tick s. specialize (Hm env tick s). revert Hm. unfold state, mbind, M_bind.
  destruct (m env tick s) as [[a t] s']. intros <-. apply (Hg a env t s').
Qed.
Lemma keeps_get : keeps f get.
Proof. done. Qed.
Lemma keeps_clock : keeps f clock.
Proof. done. Qed.
Lemma keeps_draw : keeps f draw.
Proof. done. Qed.
Lemma keeps_moment : keeps f moment.
Proof. done. Qed.
Lemma keeps_modify g : (∀ s, f (g s) = f s) → keeps f (modify g).
Proof. intros H env tick s. apply H. Qed.
Lemma keeps_wp A (m : M S A) env tick s (Q : A → nat → S → Prop) :
  keeps f m → (∀ a t s', f s' = f s → Q a t s') → wp m env tick s Q.
Proof. intros Hm HQ. apply wp_run, HQ, Hm. Qed.
End Frames.
#[export] Hint Resolve keeps_ret keeps_get keeps_clock keeps_draw keeps_moment : go.

(** What a program maintains: an invariant of the state. *)
Definition maintains {S A : Type} (I : S → Prop) (m : M S A) : Prop := ∀ env tick s, I s → I (state m env tick s).

Section Invariants.
Context {S : Type} (I : S → Prop).

Lemma maintains_ret A (a : A) : maintains I (mret a : M S A).
Proof. by intros env tick s. Qed.
Lemma maintains_bind A B (m : M S A) (g : A → M S B) :
  maintains I m → (∀ a, maintains I (g a)) → maintains I (m ≫= g).
Proof.
  intros Hm Hg env tick s Hs. specialize (Hm env tick s Hs). revert Hm. unfold state, mbind, M_bind.
  destruct (m env tick s) as [[a t] s']. apply (Hg a env t s').
Qed.
Lemma maintains_get : maintains I get.
Proof. by intros env tick s. Qed.
Lemma maintains_clock : maintains I clock.
Proof. by intros env tick s. Qed.
Lemma maintains_moment : maintains I moment.
Proof. by intros env tick s. Qed.
Lemma maintains_modify g : (∀ s, I s → I (g s)) → maintains I (modify g).
Proof. intros H env tick s. apply H. Qed.
Lemma maintains_wp A (m : M S A) env tick s : maintains I m → I s → wp m env tick s (λ _ _ s', I s').
Proof. intros Hm Hs. by apply wp_run, Hm. Qed.
End Invariants.
#[export] Hint Resolve maintains_ret maintains_get maintains_clock maintains_moment : go.

Ltac maintains_go :=
  repeat first [ progress intros | solve [eauto 3 with go] | apply maintains_bind | case_match ].

Ltac keeps_go :=
  repeat first
    [ progress intros | apply keeps_bind | solve [eauto with go] | apply keeps_modify; intros; reflexivity | case_match ].

(** The clock seam the program's tests use: time stands still. *)
Definition frozen (t : Time) (nonce : string) : Env :=
  mkEnv (λ _, t) (λ _, nonce).

(** A clock that never runs backwards. *)
Definition monotone (env : Env) : Prop :=
  ∀ i j, i ≤ j → (env_clock env i ≤ env_clock env j)%Z.

Lemma frozen_monotone t n : monotone (frozen t n).
Proof. by intros i j _. Qed.
