(* ===== verification/Bytes.v ===== *)
(** * Byte strings

    Lemmas on the strings of the prelude: bytes that occur or do not, what is taken
    and dropped, trimming, and predicates that hold of every byte. *)

From Stdlib Require Import ZArith NArith Lia Ascii.
From stdpp Require Import base tactics strings.
From stdpp Require Import list.
From S2P Require Import Prelude.

Fixpoint all_bytes (p : ascii → bool) (s : string) : bool :=
  match s with "" => true | String c r => p c && all_bytes p r end.

(** ** Bytes that occur *)

Lemma has_byte_app c s t : has_byte c (s +:+ t) = has_byte c s || has_byte c t.
Proof.
  induction s as [|d s IH]; [done|].
  change (bool_decide (c = d) || has_byte c (s +:+ t) = bool_decide (c = d) || has_byte c s || has_byte c t).
  by rewrite IH, orb_assoc.
Qed.

Lemma has_byte_rev_app c s t : has_byte c (String.rev_app s t) = has_byte c s || has_byte c t.
Proof.
  revert t. induction s as [|d s IH]; intros t; [done|]. cbn [String.rev_app has_byte]. rewrite IH. cbn.
  by destruct (bool_decide _), (has_byte c s).
Qed.
Lemma has_byte_rev c s : has_byte c (String.rev s) = has_byte c s.
Proof. unfold String.rev. by rewrite has_byte_rev_app, orb_false_r. Qed.

Lemma sdrop_app (s t : string) : sdrop (String.length s) (s +:+ t) = t.
Proof. induction s as [|c s IH]; [by destruct t|]. exact IH. Qed.

Lemma sdrop_app_S (s t : string) c : sdrop (S (String.length s)) (s +:+ String c t) = t.
Proof. induction s as [|d s IH]; [by destruct t|]. exact IH. Qed.

Lemma stake_app (s t : string) : stake (String.length s) (s +:+ t) = s.
Proof.
  induction s as [|c s IH]; [by destruct t|].
  change (String c (stake (String.length s) (s +:+ t)) = String c s). by rewrite IH.
Qed.

(** ** Prefixes and suffixes *)

Lemma stake_sdrop n s : stake n s +:+ sdrop n s = s.
Proof.
  revert s. induction n as [|n IH]; intros [|c s]; try done.
  change (String c (stake n s +:+ sdrop n s) = String c s). by rewrite IH.
Qed.

Lemma length_stake n s : String.length (stake n s) = (n `min` String.length s)%nat.
Proof. revert s. induction n as [|n IH]; intros [|c s]; cbn; [done..|]. by rewrite IH. Qed.

Lemma length_sdrop n s : String.length (sdrop n s) = (String.length s - n)%nat.
Proof. revert s. induction n as [|n IH]; intros [|c s]; cbn; [done..|]. by rewrite IH. Qed.

Lemma stake_app_le n a t : (n ≤ String.length a)%nat → stake n (a +:+ t) = stake n a.
Proof.
  revert a. induction n as [|n IH]; intros [|c a] H; cbn in H; try done; [lia|].
  change (String c (stake n (a +:+ t)) = String c (stake n a)). by rewrite IH by lia.
Qed.

Lemma stake_app_ge n a t :
  (String.length a ≤ n)%nat → stake n (a +:+ t) = a +:+ stake (n - String.length a) t.
Proof.
  revert n. induction a as [|c a IH]; intros n H; [by rewrite Nat.sub_0_r|].
  destruct n as [|n]; cbn in H; [lia|].
  change (String c (stake n (a +:+ t)) = String c (a +:+ stake (n - String.length a) t)).
  by rewrite IH by lia.
Qed.

Lemma stake_all n s : (String.length s ≤ n)%nat → stake n s = s.
Proof.
  revert s. induction n as [|n IH]; intros [|c s] H; cbn in *; try done; [lia|].
  by rewrite IH by lia.
Qed.

Lemma sdrop_app_le n a t : (n ≤ String.length a)%nat → sdrop n (a +:+ t) = sdrop n a +:+ t.
Proof.
  revert a. induction n as [|n IH]; intros [|c a] H; cbn in H; try done; [lia|].
  change (sdrop n (a +:+ t) = sdrop n a +:+ t). by rewrite IH by lia.
Qed.

Lemma has_byte_split n c s :
  has_byte c s = false → has_byte c (stake n s) = false ∧ has_byte c (sdrop n s) = false.
Proof. rewrite <- (stake_sdrop n s) at 1. rewrite has_byte_app. by intros [? ?]%orb_false_iff. Qed.

Lemma cut_byte c s : has_byte c s = false ∨ ∃ a b, s = a +:+ String c b ∧ has_byte c a = false.
Proof.
  induction s as [|d s [IH|(a & b & -> & Ha)]]; [by left|..].
  all: destruct (decide (c = d)) as [<-|Hne]; [right; eexists "", _; by split; [reflexivity|]|].
  - left. cbn. by rewrite bool_decide_eq_false_2.
  - right. exists (String d a), b. split; [done|]. cbn. by rewrite bool_decide_eq_false_2.
Qed.

(** ** Reversal *)

Lemma rev_app_spec s t u : String.rev_app (s +:+ t) u = String.rev_app t (String.rev_app s u).
Proof.
  revert u. induction s as [|c s IH]; intros u; [done|].
  change (String.rev_app (s +:+ t) (String c u) = String.rev_app t (String.rev_app s (String c u))).
  apply IH.
Qed.
Lemma rev_app_rev s u : String.rev_app s u = String.rev s +:+ u.
Proof.
  revert u. induction s as [|c s IH]; intros u; [done|].
  unfold String.rev. change (String.rev_app s (String c u) = String.rev_app s (String c "") +:+ u).
  rewrite !IH. by rewrite sapp_assoc.
Qed.
Lemma srev_app s t : String.rev (s +:+ t) = String.rev t +:+ String.rev s.
Proof. unfold String.rev at 1. by rewrite rev_app_spec, rev_app_rev. Qed.
Lemma srev_involutive s : String.rev (String.rev s) = s.
Proof.
  induction s as [|c s IH]; [done|].
  change (String c s) with (String c "" +:+ s). by rewrite !srev_app, IH.
Qed.
Lemma length_srev s : String.length (String.rev s) = String.length s.
Proof.
  induction s as [|d s IH]; [done|]. change (String d s) with (String d "" +:+ s).
  rewrite srev_app, !slength_app, IH. cbn. lia.
Qed.

Lemma sapp_inj_r a b c : a +:+ c = b +:+ c → a = b.
Proof.
  intros H. assert (String.length a = String.length b) as Hl.
  { apply (f_equal String.length) in H. rewrite !slength_app in H. lia. }
  by apply sapp_inj_length in H as [-> _].
Qed.

(** ** Trimming *)

(** Trimming keeps a byte that none of the trimmed runes holds. *)
Lemma trim_runes_keeps c runes fuel s :
  Forall (λ r, has_byte c r = false) runes → has_byte c s = true → has_byte c (trim_runes runes fuel s) = true.
Proof.
  intros Hr. revert s. induction fuel as [|fuel IH]; intros s Hs; [done|]. cbn.
  destruct (find (HasPrefix s) runes) as [e|] eqn:He; [|done].
  apply find_some in He as [Hin (t & ->)%HasPrefix_spec].
  rewrite sdrop_app. apply IH. rewrite has_byte_app in Hs.
  rewrite Forall_forall in Hr. by rewrite Hr in Hs by by apply list_elem_of_In.
Qed.

Lemma trim_runes_suffix runes fuel s : ∃ p, s = p +:+ trim_runes runes fuel s.
Proof.
  revert s. induction fuel as [|fuel IH]; intros s; [by exists ""|]. cbn.
  destruct (find (HasPrefix s) runes) as [e|] eqn:He; [|by exists ""].
  apply find_some in He as [_ (t & ->)%HasPrefix_spec]. rewrite sdrop_app. destruct (IH t) as [p Hp].
  exists (e +:+ p). by rewrite sapp_assoc, <- Hp.
Qed.

(** ** Predicates on every byte *)

Lemma all_bytes_app p s t : all_bytes p (s +:+ t) = all_bytes p s && all_bytes p t.
Proof.
  induction s as [|c s IH]; [done|].
  change (p c && all_bytes p (s +:+ t) = p c && all_bytes p s && all_bytes p t). by rewrite IH, andb_assoc.
Qed.

Lemma all_bytes_rev p s : all_bytes p (String.rev s) = all_bytes p s.
Proof.
  induction s as [|c s IH]; [done|]. change (String c s) with (String c "" +:+ s).
  rewrite srev_app, !all_bytes_app, IH. apply andb_comm.
Qed.

Lemma all_bytes_mono (p q : ascii → bool) s :
  (∀ c, p c = true → q c = true) → all_bytes p s = true → all_bytes q s = true.
Proof.
  intros H. induction s as [|c s IH]; [done|]. cbn. intros [Hc Hs]%andb_true_iff.
  by rewrite (H c Hc), IH.
Qed.

Lemma all_bytes_no_byte p c s : p c = false → all_bytes p s = true → has_byte c s = false.
Proof.
  intros Hp. induction s as [|d s IH]; [done|]. cbn. intros [Hd Hs]%andb_true_iff. rewrite IH by done.
  rewrite orb_false_r. apply bool_decide_eq_false. by intros ->; rewrite Hp in Hd.
Qed.

Lemma all_bytes_trim_runes p runes fuel s : all_bytes p s = true → all_bytes p (trim_runes runes fuel s) = true.
Proof.
  destruct (trim_runes_suffix runes fuel s) as [a Ha]. rewrite Ha at 1. rewrite all_bytes_app.
  by intros [_ ?]%andb_true_iff.
Qed.
#[export] Hint Resolve all_bytes_trim_runes : go.

(** A string none of whose bytes a rune holds is not trimmed. *)
Lemma trim_runes_id runes fuel s : Forall (λ r, r ≠ "") runes →
  (∀ c r, s = String c r → Forall (λ r, has_byte c r = false) runes) → trim_runes runes fuel s = s.
Proof.
  intros Hne Hs. destruct fuel as [|fuel]; [done|]. cbn. destruct (find (HasPrefix s) runes) as [e|] eqn:He; [|done].
  apply find_some in He as [Hin%list_elem_of_In (t & Ht)%HasPrefix_spec]. rewrite Forall_forall in Hne.
  specialize (Hne _ Hin). destruct e as [|c e]; [done|]. specialize (Hs c (e +:+ t) Ht). rewrite Forall_forall in Hs.
  specialize (Hs _ Hin). cbn in Hs. by rewrite bool_decide_true in Hs.
Qed.

Lemma TrimSpace_id p s : (∀ c, p c = true → Forall (λ r, has_byte c r = false) space_runes) →
  all_bytes p s = true → TrimSpace s = s.
Proof.
  intros Hp Hs. assert (∀ c r s, all_bytes p s = true → s = String c r → p c = true) as Hc.
  { intros c r s' H ->. cbn in H. by apply andb_true_iff in H as [? _]. }
  unfold TrimSpace, TrimRightSpace, TrimLeftSpace.
  rewrite (trim_runes_id space_runes) by first [by repeat constructor|intros c r E; by eapply Hp, Hc].
  rewrite (trim_runes_id (map String.rev space_runes)); [apply srev_involutive|by repeat constructor|].
  intros c r E. apply Forall_fmap. eapply Forall_impl; [eapply Hp, (Hc c r); [|exact E]; by rewrite all_bytes_rev|].
  intros x. cbn. by rewrite has_byte_rev.
Qed.

(** A byte that no space holds makes a string that is not blank. *)
Lemma keeps_not_blank c s : Forall (λ r, has_byte c r = false) space_runes → has_byte c s = true → blank s = false.
Proof.
  intros Hl Hc. unfold blank. apply bool_decide_eq_false. intros H.
  assert (has_byte c (TrimSpace s) = true); [|by rewrite H in *].
  unfold TrimSpace, TrimRightSpace, TrimLeftSpace. rewrite has_byte_rev.
  apply trim_runes_keeps; [|rewrite has_byte_rev; by apply trim_runes_keeps].
  apply Forall_fmap. eapply Forall_impl; [exact Hl|]. intros r. cbn. by rewrite has_byte_rev.
Qed.

(** Trimming leaves nothing to trim. *)
Lemma trim_runes_done runes : Forall (λ r, r ≠ "") runes → ∀ fuel s, (String.length s ≤ fuel)%nat →
  find (HasPrefix (trim_runes runes fuel s)) runes = None.
Proof.
  intros Hne. assert (find (HasPrefix "") runes = None) as Hempty.
  { destruct (find _ runes) as [e|] eqn:He; [|done]. exfalso. apply find_some in He as [Hin%list_elem_of_In (t & Ht)%HasPrefix_spec].
    rewrite Forall_forall in Hne. specialize (Hne _ Hin). by destruct e. }
  induction fuel as [|fuel IH]; intros s Hs; cbn [trim_runes].
  { destruct s; [done|]. cbn in Hs. lia. }
  destruct (find (HasPrefix s) runes) as [e|] eqn:He; [|done]. apply IH.
  apply find_some in He as [Hin%list_elem_of_In (t & ->)%HasPrefix_spec]. rewrite Forall_forall in Hne. specialize (Hne _ Hin).
  rewrite sdrop_app. rewrite slength_app in Hs. destruct e; [done|]. cbn [String.length] in Hs. lia.
Qed.

Lemma trim_runes_stop runes fuel s : find (HasPrefix s) runes = None → trim_runes runes fuel s = s.
Proof. destruct fuel as [|fuel]; cbn [trim_runes]; [done|]. by intros ->. Qed.

Lemma find_prefix_none runes a b : find (HasPrefix (a +:+ b)) runes = None → find (HasPrefix a) runes = None.
Proof.
  intros H. destruct (find (HasPrefix a) runes) as [e|] eqn:He; [|done]. exfalso. apply find_some in He as [Hin (t & ->)%HasPrefix_spec].
  pose proof (find_none _ _ H e Hin) as Hn. rewrite sapp_assoc, HasPrefix_app in Hn. done.
Qed.

Lemma TrimSpace_idem s : TrimSpace (TrimSpace s) = TrimSpace s.
Proof.
  unfold TrimSpace at 1. assert (TrimLeftSpace (TrimSpace s) = TrimSpace s) as ->.
  { unfold TrimLeftSpace at 1. apply trim_runes_stop. unfold TrimSpace, TrimRightSpace.
    set (l := TrimLeftSpace s). destruct (trim_runes_suffix (map String.rev space_runes) (String.length l) (String.rev l)) as [a Ha].
    apply (find_prefix_none _ _ (String.rev a)). rewrite <- srev_app, <- Ha, srev_involutive. unfold l, TrimLeftSpace.
    apply trim_runes_done; [by repeat constructor|done]. }
  unfold TrimSpace, TrimRightSpace at 1. unfold TrimRightSpace. rewrite srev_involutive. f_equal. apply trim_runes_stop, trim_runes_done; [by repeat constructor|].
  assert (∀ t, String.length (String.rev t) = String.length t) as Hl.
  { intros t. induction t as [|c t IH]; [done|]. change (String c t) with (String c "" +:+ t). rewrite srev_app, !slength_app, IH. cbn. lia. }
  by rewrite Hl.
Qed.

(** ** What occurs in a string *)

Lemma Join_occurs x l : x ∈ l → Contains (Join l "") x = true.
Proof.
  intros Hx. apply Contains_spec. induction l as [|y l IH]; [by apply elem_of_nil in Hx|].
  apply elem_of_cons in Hx as [->|Hx].
  - exists "", (match l with [] => "" | _ => Join l "" end). destruct l; cbn [Join]; [by rewrite sapp_nil_r|done].
  - destruct (IH Hx) as (a & b & Hj). exists (y +:+ a), b. destruct l as [|z l]; [by apply elem_of_nil in Hx|].
    change (Join (y :: z :: l) "") with (y +:+ "" +:+ Join (z :: l) ""). rewrite Hj. by rewrite sapp_assoc.
Qed.
Lemma Contains_trans a b c : Contains a b = true → Contains b c = true → Contains a c = true.
Proof.
  rewrite !Contains_spec. intros (x & y & ->) (u & v & ->). exists (x +:+ u), (v +:+ y). by rewrite !sapp_assoc.
Qed.

Lemma Contains_app_r a b s : Contains b s = true → Contains (a +:+ b) s = true.
Proof. rewrite !Contains_spec. intros (x & y & ->). exists (a +:+ x), y. by rewrite sapp_assoc. Qed.

(** ** Case *)

Lemma lower_ascii_idem c : lower_ascii (lower_ascii c) = lower_ascii c.
Proof. destruct c as [[] [] [] [] [] [] [] []]; vm_compute; reflexivity. Qed.
Lemma ToLower_idem s : ToLower (ToLower s) = ToLower s.
Proof. unfold ToLower. induction s as [|c s IH]; [done|]. cbn. by rewrite lower_ascii_idem, IH. Qed.

Lemma ToLower_app s t : ToLower (s +:+ t) = ToLower s +:+ ToLower t.
Proof.
  unfold ToLower. induction s as [|c s IH]; [done|].
  change (String (lower_ascii c) (string_map lower_ascii (s +:+ t)) = String (lower_ascii c) (string_map lower_ascii s +:+ string_map lower_ascii t)).
  by rewrite IH.
Qed.

Lemma has_byte_all c s : has_byte c s = negb (all_bytes (λ d, negb (bool_decide (c = d))) s).
Proof. induction s as [|d s IH]; [done|]. cbn. rewrite IH. by destruct (bool_decide (c = d)), (all_bytes _ s). Qed.
