(* ===== verification/Durations.v ===== *)
(** * Printing and parsing durations

    [time.Duration.String], [time.ParseDuration] and the helpers of
    [internal/federation/util.go]. *)

From Stdlib Require Import ZArith Lia Ascii.
From stdpp Require Import base tactics strings pretty.
From stdpp Require Import list.
From S2P Require Import Prelude.

Open Scope Z_scope.

(** ** [time.Duration.String] *)

(** The fraction [.ddd] of [v / 10^prec] without trailing zeros ([fmtFrac]). *)
Fixpoint fmt_frac (prec : nat) (v : Z) (print : bool) (acc : string) : string :=
  match prec with
  | O => if print then String "." acc else acc
  | S prec =>
      let digit := v mod 10 in
      let print := print || negb (digit =? 0) in
      fmt_frac prec (v / 10) print
        (if print then Itoa digit +:+ acc else acc)
  end.

Definition Duration_String (d : Duration) : string :=
  let u := Z.abs d in
  let neg := if d <? 0 then "-" else "" in
  if u =? 0 then "0s"
  else if u <? 1000 then neg +:+ Itoa u +:+ "ns"
  else if u <? 1000000 then
    neg +:+ Itoa (u / 1000) +:+ fmt_frac 3 u false "" +:+ byte_of 194 +:+ byte_of 181 +:+ "s"
  else if u <? Second then neg +:+ Itoa (u / 1000000) +:+ fmt_frac 6 u false "" +:+ "ms"
  else
    let secs := u / Second in
    let mins := secs / 60 in
    let hours := mins / 60 in
    neg +:+ (if hours >? 0 then Itoa hours +:+ "h" else "")
      +:+ (if mins >? 0 then Itoa (mins mod 60) +:+ "m" else "")
      +:+ Itoa (secs mod 60) +:+ fmt_frac 9 u false "" +:+ "s".

Example Duration_String_ex :
  map Duration_String [0; 1; 1500; 1500000; Second; 90 * Second; 3600 * Second + 500000000] =
  ["0s"; "1ns"; "1.5" +:+ byte_of 194 +:+ byte_of 181 +:+ "s"; "1.5ms"; "1s"; "1m30s"; "1h0m0.5s"].
Proof. vm_compute. reflexivity. Qed.

(** [d.Truncate(m)] *)
Definition Truncate (d m : Duration) : Duration := if m <=? 0 then d else d - Z.rem d m.

(** ** [Time.Format(time.RFC3339)] in UTC

    The civil date of a day count, from the days since 1 March of year 0. *)
Definition civil (t : Time) : Z * Z * Z :=
  let z := t / (86400 * Second) + 306 in
  let era := z / 146097 in
  let doe := z mod 146097 in
  let yoe := (doe - doe / 1460 + doe / 36524 - doe / 146096) / 365 in
  let doy := doe - (365 * yoe + yoe / 4 - yoe / 100) in
  let mp := (5 * doy + 2) / 153 in
  let day := doy - (153 * mp + 2) / 5 + 1 in
  let month := if mp <? 10 then mp + 3 else mp - 9 in
  (yoe + era * 400 + (if month <=? 2 then 1 else 0), month, day).

Fixpoint zeros (n : nat) : string := match n with O => "" | S n => String "0" (zeros n) end.
(** [%0wd] for a non-negative number. *)
Definition pad (w : nat) (z : Z) : string :=
  let s := Itoa z in zeros (w - String.length s) +:+ s.

Definition RFC3339 (t : Time) : string :=
  let '(y, m, d) := civil t in
  let s := (t / Second) mod 86400 in
  pad 4 y +:+ "-" +:+ pad 2 m +:+ "-" +:+ pad 2 d +:+ "T" +:+ pad 2 (s / 3600) +:+ ":"
    +:+ pad 2 (s / 60 mod 60) +:+ ":" +:+ pad 2 (s mod 60) +:+ "Z".

Example RFC3339_ex :
  map RFC3339 [0; 62135596800 * Second; 63844934399 * Second; 63844934400 * Second] =
  ["0001-01-01T00:00:00Z"; "1970-01-01T00:00:00Z"; "2024-03-01T23:59:59Z"; "2024-03-02T00:00:00Z"].
Proof. vm_compute. reflexivity. Qed.

(** [Format("20060102-150405")] *)
Definition compact_time (t : Time) : string :=
  let '(y, m, d) := civil t in
  let s := (t / Second) mod 86400 in
  pad 4 y +:+ pad 2 m +:+ pad 2 d +:+ "-" +:+ pad 2 (s / 3600) +:+ pad 2 (s / 60 mod 60) +:+ pad 2 (s mod 60).

(** The times [encoding/json] can write: RFC 3339 has four-digit years. Year 0
    begins 366 days before Go's zero instant and year 10000 3652059 days after it. *)
Definition Day : Duration := 86400 * Second.
Definition rfc3339_time (t : Time) : bool := (-366 * Day <=? t) && (t <? 3652059 * Day).

(** [time.RFC3339Nano]: the fraction of the second without trailing zeros. *)
Definition RFC3339Nano (t : Time) : string :=
  let s := RFC3339 t in
  let n := t mod Second in
  let frac := if n =? 0 then ""
              else "." +:+ String.rev (trim_runes ["0"] 9 (String.rev (pad 9 n))) in
  stake (String.length s - 1) s +:+ frac +:+ "Z".

Example RFC3339Nano_ex :
  map RFC3339Nano [62135596800 * Second; 62135596800 * Second + 1; 62135596800 * Second + 120000000] =
  ["1970-01-01T00:00:00Z"; "1970-01-01T00:00:00.000000001Z"; "1970-01-01T00:00:00.12Z"].
Proof. vm_compute. reflexivity. Qed.

(** ** [time.ParseDuration] *)

Definition is_digit (c : ascii) : bool := (48 <=? Z.of_N (N_of_ascii c)) && (Z.of_N (N_of_ascii c) <=? 57).
Definition digit_val (c : ascii) : Z := Z.of_N (N_of_ascii c) - 48.

(** [leadingInt]: the digits read, [None] on overflow. *)
Fixpoint leadingInt (x : Z) (s : string) : option (Z * string) :=
  match s with
  | "" => Some (x, "")
  | String c r =>
      if negb (is_digit c) then Some (x, s)
      else if x >? two63 / 10 then None
      else
        let x := x * 10 + digit_val c in
        if x >? two63 then None else leadingInt x r
  end.

(** [leadingFraction]: the digits and their scale; digits past the range of
    [int64] are dropped. *)
Fixpoint leadingFraction (x scale : Z) (overflow : bool) (s : string) : Z * Z * string :=
  match s with
  | "" => (x, scale, "")
  | String c r =>
      if negb (is_digit c) then (x, scale, s)
      else if overflow then leadingFraction x scale overflow r
      else if x >? (two63 - 1) / 10 then leadingFraction x scale true r
      else
        let y := x * 10 + digit_val c in
        if y >? two63 then leadingFraction x scale true r
        else leadingFraction y (scale * 10) overflow r
  end.

(** The unit is what comes before the next digit or dot. *)
Fixpoint cut_unit (s : string) : string * string :=
  match s with
  | "" => ("", "")
  | String c r =>
      if is_digit c || bool_decide (c = "."%char) then ("", s)
      else let '(u, r) := cut_unit r in (String c u, r)
  end.

Definition unit_map : list (string * Z) :=
  [("ns", 1); ("us", 1000); (byte_of 194 +:+ byte_of 181 +:+ "s", 1000);
   (byte_of 206 +:+ byte_of 188 +:+ "s", 1000); ("ms", 1000000); ("s", Second);
   ("m", Minute); ("h", 60 * Minute)].

(** One number and its unit, in nanoseconds. Go adds the fraction in floating
    point; this is the exact value rounded down. *)
Definition parse_component (s : string) : option (Z * string) :=
  match s with
  | "" => None
  | String c _ =>
      if negb (is_digit c || bool_decide (c = "."%char)) then None
      else
        vi ← leadingInt 0 s;
        let '(v, s1) := vi in
        let pre := negb (s1 =s s) in
        let '(f, scale, s2, post) :=
          match s1 with
          | String "." r => let '(f, scale, r') := leadingFraction 0 1 false r in (f, scale, r', negb (r' =s r))
          | _ => (0, 1, s1, false)
          end in
        if negb pre && negb post then None
        else
          let '(u, s3) := cut_unit s2 in
          match find (λ p, p.1 =s u) unit_map with
          | None => None
          | Some (_, unit) =>
              if v >? two63 / unit then None
              else
                let v := v * unit + f * unit / scale in
                if v >? two63 then None else Some (v, s3)
          end
  end.

(** Every component takes at least one byte, so the length of the text bounds
    the loop. *)
Fixpoint parse_components (fuel : nat) (d : Z) (s : string) : option Z :=
  if s =s "" then Some d
  else
    match fuel with
    | O => None
    | S fuel =>
        vs ← parse_component s;
        let '(v, s) := vs in
        if d + v >? two63 then None else parse_components fuel (d + v) s
    end.

Definition ParseDuration (s : string) : option Duration :=
  let '(neg, s) :=
    match s with
    | String "-" r => (true, r)
    | String "+" r => (false, r)
    | _ => (false, s)
    end in
  if s =s "0" then Some 0
  else if s =s "" then None
  else
    d ← parse_components (String.length s) 0 s;
    if neg : bool then Some (wrap_i64 (- d))
    else if d >? two63 - 1 then None else Some d.

Example ParseDuration_ex :
  map ParseDuration ["90s"; "1h2m3.5s"; "-1.5ms"; "0"; ""; "5"; "1x"; ".s"; "9223372036854775808ns"; "-9223372036854775808ns"] =
  [Some (90 * Second); Some (3723500000000); Some (-1500000); Some 0; None; None; None; None; None; Some (- two63)].
Proof. vm_compute. reflexivity. Qed.

(** ** Helpers ([internal/federation/util.go]) *)

Definition durationOrDefault (raw : string) (fallback : Duration) : Duration :=
  let raw := TrimSpace raw in
  if raw =s "" then fallback
  else
    match ParseDuration raw with
    | Some d => if d <=? 0 then fallback else d
    | None => fallback
    end.

Definition clampDuration (val minD maxD : Duration) : Duration :=
  if (minD >? 0) && (val <? minD) then minD
  else if (maxD >? 0) && (val >? maxD) then maxD
  else val.

(** ** Facts *)

Lemma digit_val_nonneg c : is_digit c = true → 0 ≤ digit_val c.
Proof. unfold is_digit, digit_val. intros H. go_bools. lia. Qed.

Lemma leadingInt_nonneg t : ∀ x y r, 0 ≤ x → leadingInt x t = Some (y, r) → 0 ≤ y.
Proof.
  induction t as [|c t IH]; intros x y r Hx; cbn; [by intros [= <- _]|].
  destruct (is_digit c) eqn:E; cbn [negb]; [|by intros [= <- _]].
  destruct (x >? _); [done|]. destruct (_ >? two63); [done|].
  apply IH. apply digit_val_nonneg in E. lia.
Qed.

Lemma leadingFraction_pos t : ∀ x scale o,
  0 ≤ x → 0 < scale →
  0 ≤ (leadingFraction x scale o t).1.1 ∧ 0 < (leadingFraction x scale o t).1.2.
Proof.
  induction t as [|c t IH]; intros x scale o Hx Hs; cbn [leadingFraction]; [done|].
  destruct (is_digit c) eqn:E; cbn [negb]; [|done]. apply digit_val_nonneg in E.
  destruct o; [by apply IH|]. destruct (x >? _); [by apply IH|].
  destruct (_ >? two63); [by apply IH|]. apply IH; lia.
Qed.

Lemma unit_map_pos u n p : find (λ p, p.1 =s u) unit_map = Some (n, p) → 0 < p.
Proof.
  intros [Hin _]%find_some. cbn in Hin. unfold Minute, Second in Hin.
  repeat destruct Hin as [Hin|Hin]; simplify_eq; lia.
Qed.

Lemma parse_component_nonneg s v r : parse_component s = Some (v, r) → 0 ≤ v.
Proof.
  unfold parse_component. destruct s as [|c s]; [done|]. destruct (negb _); [done|].
  destruct (leadingInt 0 (String c s)) as [[v0 s1]|] eqn:Hi; [|done].
  apply leadingInt_nonneg in Hi; [|done]. cbn [mbind option_bind].
  destruct (match s1 with String "." r0 => _ | _ => _ end) as [[[f sc] s2] post] eqn:Hfr.
  assert (0 ≤ f ∧ 0 < sc) as [Hf Hsc].
  { assert (∀ t, let '(f, scale, r') := leadingFraction 0 1 false t in 0 ≤ f ∧ 0 < scale) as H.
    { intros t. destruct (leadingFraction_pos t 0 1 false) as [? ?]; [lia..|].
      by destruct (leadingFraction 0 1 false t) as [[? ?] ?]. }
    destruct s1 as [|[[] [] [] [] [] [] [] []] s1]; simplify_eq; try lia.
    specialize (H s1). destruct (leadingFraction 0 1 false s1) as [[? ?] ?]. by simplify_eq. }
  destruct (negb _ && _); [done|]. destruct (cut_unit s2) as [u s3].
  destruct (find _ unit_map) as [[un unit]|] eqn:Hu; [|done]. apply unit_map_pos in Hu.
  destruct (v0 >? _); [done|]. destruct (_ >? two63); [done|]. intros [= <- _].
  assert (0 ≤ f * unit / sc) by (apply Z.div_pos; nia). nia.
Qed.

Lemma parse_components_range fuel : ∀ d s x,
  0 ≤ d ≤ two63 → parse_components fuel d s = Some x → 0 ≤ x ≤ two63.
Proof.
  induction fuel as [|fuel IH]; intros d s x Hd; cbn [parse_components].
  - destruct (streq s ""); [by intros [= <-]|done].
  - destruct (streq s ""); [by intros [= <-]|].
    destruct (parse_component s) as [[v r]|] eqn:Hv; [|done]. cbn [mbind option_bind].
    apply parse_component_nonneg in Hv.
    destruct (Z.gtb_spec (d + v) two63); [done|]. apply IH. lia.
Qed.

(** A parsed duration is an [int64]. *)
Lemma ParseDuration_range s d : ParseDuration s = Some d → in_i64 d.
Proof.
  unfold ParseDuration.
  destruct (match s with String "-" r => (true, r) | String "+" r => (false, r) | _ => (false, s) end)
    as [neg t].
  destruct (streq t "0"); [intros [= <-]; unfold in_i64, two63; lia|].
  destruct (streq t ""); [done|].
  destruct (parse_components _ 0 t) as [x|] eqn:Hp; [|done]. cbn [mbind option_bind].
  pose proof (parse_components_range _ 0 t x ltac:(unfold two63; lia) Hp).
  destruct neg; [intros [= <-]; apply wrap_i64_range|].
  destruct (Z.gtb_spec x (two63 - 1)); [done|]. intros [= <-]. unfold in_i64. lia.
Qed.

(** A duration that is defaulted is positive when its default is, and a clamped
    one is within its bounds. *)
Lemma durationOrDefault_positive raw fallback : 0 < fallback → 0 < durationOrDefault raw fallback.
Proof.
  intros H. unfold durationOrDefault. destruct (streq _ _); [done|].
  destruct (ParseDuration _) as [d|]; [|done]. destruct (Z.leb_spec d 0); done.
Qed.

Lemma clampDuration_bounds val minD maxD :
  0 < minD ≤ maxD → minD ≤ clampDuration val minD maxD ≤ maxD.
Proof.
  intros H. unfold clampDuration.
  destruct (Z.gtb_spec minD 0); [|lia]. destruct (Z.ltb_spec val minD); cbn; [lia|].
  destruct (Z.gtb_spec maxD 0); [|lia]. destruct (Z.gtb_spec val maxD); cbn; lia.
Qed.
