(* ===== verification/Lifecycle.v ===== *)
(** * Unattended updates ([internal/ops/update.go])

    Stop, deploy, start, verify, commit, and a rollback when the new version does
    not come up. The commands, the deployment and the network are a [Host] whose
    answers depend on the instant they are asked at; the run keeps the files, the
    journal on disk and in the result, and a log of what was done to the runtime.
    An error is its text, without the paths and outputs formatted into it. The
    polling loop takes its fuel as an argument: [Execute_returns] says how much is
    enough. *)

From Stdlib Require Import ZArith Lia Ascii.
From stdpp Require Import base tactics strings gmap.
From stdpp Require Import list.
From S2P Require Import Prelude Bytes Durations.

Open Scope Z_scope.
Open Scope go_scope.

(** ** Data *)

Record Plan := mkPlan {
  LockFilePath : string;
  JournalPath : string;
  CurrentVersionPath : string;
  PreviousVersionPath : string;
  StopCommand : string;
  StartCommand : string;
  VerifyCommand : string;
  RollbackCommand : string;
  HealthURL : string;
  ReadyURL : string;
  RequireReady : bool;
  GracefulStopTimeout : Duration;
  StartTimeout : Duration;
  VerifyTimeout : Duration;
  PollInterval : Duration;
}.

(** [Rollback] is the hook's error at an instant; [None] is no hook. *)
Record DeployResult := mkDeploy {
  dep_NewVersion : string;
  dep_Rollback : option (nat → option string);
}.

Record JournalEntry := mkEntry {
  je_Timestamp : Time;
  je_Step : string;
  je_Status : string;
  je_Message : string;
  je_Meta : list (string * string);
}.

Record UpdateResult := mkUpdate {
  upd_StartedAt : Time;
  upd_FinishedAt : Time;
  upd_OldVersion : string;
  upd_NewVersion : string;
  upd_RolledBack : bool;
  upd_Committed : bool;
  upd_FailureReason : string;
  upd_JournalEntries : list JournalEntry;
}.

(** [Ran] is a command with its success, [Polled] the end of a wait for a URL. *)
Inductive Event :=
  | Ran (command : string) (ok : bool)
  | Deployed (ok : bool)
  | Hooked (ok : bool)
  | Polled (url : string) (ok : bool).

(** What one run sees and changes. *)
Record Run := mkRun {
  files : gmap string string;
  journal : list JournalEntry;
  entries : list JournalEntry;
  log : list Event;
}.

(** The world outside: an error is its text. A failed write of a version file can
    leave it truncated. *)
Record Host := mkHost {
  command : string → nat → option string;
  deploy : option (nat → DeployResult + string);
  http_get : string → nat → Z + string;
  cancelled : nat → bool;
  pid : Z;
  lock_mkdir : nat → option string;
  lock_open : nat → option string;
  lock_remove_fails : nat → bool;
  journal_fails : nat → bool;
  read_fails : nat → bool;
  version_write : nat → option (string * bool);
}.

(** The result and the errors joined into the error returned; [None] is a run that
    is out of fuel. *)
Abbreviation outcome := (option (UpdateResult * list string)).

(** ** Construction *)

Definition positive_or (d fallback : Duration) : Duration := if d <=? 0 then fallback else d.
Definition NewLifecycleController (p : Plan) : Plan :=
  {| p with
     PollInterval := positive_or (PollInterval p) Second;
     GracefulStopTimeout := positive_or (GracefulStopTimeout p) (20 * Second);
     StartTimeout := positive_or (StartTimeout p) (60 * Second);
     VerifyTimeout := positive_or (VerifyTimeout p) (60 * Second) |}.

Section Controller.
Context (io : Host) (p : Plan).

Definition set_files (f : gmap string string → gmap string string) : M Run unit :=
  modify (λ r, {| r with files := f (files r) |}).
Definition did (e : Event) : M Run unit := modify (λ r, {| r with log := log r ++ [e] |}).
Definition asked {A} (f : nat → A) : M Run A := n ← moment; mret (f n).
Definition is_ok (err : option string) : bool := match err with None => true | Some _ => false end.

(** ** Journal and files *)

Definition writeJournal (e : JournalEntry) : M Run unit :=
  bad ← asked (journal_fails io);
  modify (λ r, if blank (JournalPath p) || bad || negb (rfc3339_time (je_Timestamp e)) then r
               else {| r with journal := journal r ++ [e] |}).

Definition appendJournal (step status msg : string) (meta : list (string * string)) : M Run unit :=
  now ← clock;
  let e := mkEntry now step status msg meta in
  _ ← modify (λ r, {| r with entries := entries r ++ [e] |});
  writeJournal e.

(** The version in a file; [None] is a read error. *)
Definition readTrimmed (path : string) : M Run (option string) :=
  if blank path then mret (Some "")
  else
    bad ← asked (read_fails io);
    r ← get;
    mret (if bad : bool then None else TrimSpace <$> files r !! path).

Definition writeTrimmed (path value : string) : M Run (option string) :=
  if blank path then mret None
  else
    err ← asked (version_write io);
    match err with
    | Some (text, truncated) =>
        _ ← set_files (λ fs, if truncated : bool then <[path := ""]> fs else fs);
        mret (Some text)
    | None =>
        _ ← set_files (<[path := TrimSpace value +:+ byte_of 10]>);
        mret None
    end.

Definition inferVersion : M Run string :=
  v ← (if blank (CurrentVersionPath p) then mret None else readTrimmed (CurrentVersionPath p));
  match v with
  | Some v => if v =s "" then now ← clock; mret (compact_time now) else mret ("next-of-" +:+ v)
  | None => now ← clock; mret (compact_time now)
  end.

Definition acquireLock : M Run (option string) :=
  let lockPath := TrimSpace (LockFilePath p) in
  if lockPath =s "" then mret None
  else
    bad ← asked (lock_mkdir io);
    match bad with
    | Some text => mret (Some ("create lock dir: " +:+ text))
    | None =>
        bad ← asked (lock_open io);
        r ← get;
        if bool_decide (is_Some (files r !! lockPath)) then mret (Some "acquire lock: file exists")
        else match bad with
             | Some text => mret (Some ("acquire lock: " +:+ text))
             | None => _ ← set_files (<[lockPath := Itoa (pid io) +:+ byte_of 10]>); mret None
             end
    end.

Definition unlock : M Run unit :=
  let lockPath := TrimSpace (LockFilePath p) in
  if lockPath =s "" then mret tt
  else bad ← asked (lock_remove_fails io); set_files (λ fs, if bad : bool then fs else delete lockPath fs).

(** ** Commands and probes *)

(** A command, under the error of the context it was given. *)
Definition run_command (cmd : string) : M Run (option string) :=
  err ← asked (command io cmd);
  _ ← did (Ran cmd (is_ok err));
  mret err.

Definition ctx_error (deadline : Time) : M Run (option string) :=
  now ← clock;
  stop ← asked (cancelled io);
  mret (if stop : bool then Some "context canceled"
        else if deadline <=? now then Some "context deadline exceeded" else None).

(** [httpIs200] *)
Definition httpIs200 (url : string) : M Run (bool + string) :=
  answer ← asked (http_get io url);
  mret (match answer with inl status => inl (status =? 200) | inr e => inr e end).

Definition last_error (answer : bool + string) (e : string) : string :=
  match answer with inr err => e +:+ "; last_error=" +:+ err | inl _ => e end.

(** The loop; the second look at the context is the [select]. [None] is out of
    fuel. *)
Fixpoint poll (fuel : nat) (deadline : Time) (url : string) : M Run (option (option string)) :=
  match fuel with
  | O => mret None
  | S fuel =>
      answer ← httpIs200 url;
      match answer with
      | inl true => mret (Some None)
      | _ =>
          err ← ctx_error deadline;
          match err with
          | Some e => mret (Some (Some (last_error answer e)))
          | None =>
              err ← ctx_error deadline;
              match err with
              | Some e => mret (Some (Some (last_error answer e)))
              | None => poll fuel deadline url
              end
          end
      end
  end.

Definition waitHTTP200 (fuel : nat) (deadline : Time) (rawURL : string) : M Run (option (option string)) :=
  let reqURL := TrimSpace rawURL in
  if reqURL =s "" then mret (Some (Some "empty URL"))
  else
    res ← poll fuel deadline reqURL;
    _ ← match res with Some err => did (Polled reqURL (is_ok err)) | None => mret tt end;
    mret res.

(** A wait under a name for its error, when it is configured. *)
Definition wait_for (what : string) (configured : bool) (fuel : nat) (deadline : Time) (url : string)
  : M Run (option (option string)) :=
  if negb configured then mret (Some None)
  else
    res ← waitHTTP200 fuel deadline url;
    mret (match res with Some (Some e) => Some (Some (what +:+ " verification failed: " +:+ e)) | _ => res end).

Definition verify (fuel : nat) : M Run (option (option string)) :=
  now ← clock;
  let deadline := now + positive_or (VerifyTimeout p) (60 * Second) in
  res ← wait_for "health" (negb (blank (HealthURL p))) fuel deadline (HealthURL p);
  match res with
  | Some None => wait_for "readiness" (RequireReady p && negb (blank (ReadyURL p))) fuel deadline (ReadyURL p)
  | _ => mret res
  end.

(** ** Rollback *)

(** [errors.Join] *)
Definition join_errors (errs : list string) : string := Join errs (byte_of 10).

(** A command of the plan, when it is set, with a prefix for its error. *)
Definition optional_step (what cmd : string) : M Run (list string) :=
  let cmd := TrimSpace cmd in
  if cmd =s "" then mret []
  else
    err ← run_command cmd;
    mret (match err with Some e => [what +:+ " failed: " +:+ e] | None => [] end).

Definition run_hook (d : DeployResult) : M Run (list string) :=
  match dep_Rollback d with
  | None => mret []
  | Some hook =>
      err ← asked hook;
      _ ← did (Hooked (is_ok err));
      mret (match err with Some e => ["deploy rollback hook failed: " +:+ e] | None => [] end)
  end.

Definition rollback (d : DeployResult) (oldVersion : string) : M Run (list string) :=
  _ ← appendJournal "rollback" "started" "" [("old_version", oldVersion)];
  e1 ← optional_step "rollback stop" (StopCommand p);
  e2 ← run_hook d;
  e3 ← optional_step "rollback command" (RollbackCommand p);
  e4 ← optional_step "restart previous runtime" (StartCommand p);
  match e1 ++ e2 ++ e3 ++ e4 with
  | [] => _ ← appendJournal "rollback" "ok" "" []; mret []
  | errs => _ ← appendJournal "rollback" "failed" (join_errors errs) []; mret errs
  end.

(** ** [Execute] *)

Definition finish (res : UpdateResult) (reason : string) (errs : list string) : M Run outcome :=
  now ← clock;
  mret (Some ({| res with upd_FinishedAt := now; upd_FailureReason := reason |}, errs)).

(** A command of the plan between its journal entries; its error. *)
Definition guarded_command (step cmd : string) : M Run (option string) :=
  let cmd := TrimSpace cmd in
  if cmd =s "" then mret None
  else
    _ ← appendJournal step "started" cmd [];
    err ← run_command cmd;
    match err with
    | Some e => _ ← appendJournal step "failed" e []; mret (Some e)
    | None => _ ← appendJournal step "ok" "" []; mret None
    end.

Definition rolled_back (res : UpdateResult) (reason err : string) (d : DeployResult) (oldVersion : string) : M Run outcome :=
  rb ← rollback d oldVersion;
  finish {| res with upd_RolledBack := bool_decide (rb = []) |} reason (err :: rb).

Definition commit (res : UpdateResult) (oldVersion : string) : M Run outcome :=
  _ ← appendJournal "commit" "started" "" [];
  err ← (if oldVersion =s "" then mret None else writeTrimmed (PreviousVersionPath p) oldVersion);
  err ← match err with Some e => mret (Some e) | None => writeTrimmed (CurrentVersionPath p) (upd_NewVersion res) end;
  match err with
  | Some e => _ ← appendJournal "commit" "failed" e []; finish res "COMMIT_FAILED" [e]
  | None =>
      _ ← appendJournal "commit" "ok" "" [("old_version", oldVersion); ("new_version", upd_NewVersion res)];
      finish {| res with upd_Committed := true |} "" []
  end.

Definition verify_step (fuel : nat) : M Run (option (option string)) :=
  res ← verify fuel;
  match res with
  | Some None =>
      if blank (VerifyCommand p) then mret (Some None) else err ← run_command (VerifyCommand p); mret (Some err)
  | _ => mret res
  end.

Definition start_and_verify (fuel : nat) (res : UpdateResult) (d : DeployResult) (oldVersion : string) : M Run outcome :=
  err ← guarded_command "start" (StartCommand p);
  match err with
  | Some e => rolled_back res "START_FAILED" e d oldVersion
  | None =>
      _ ← appendJournal "verify" "started" "" [];
      v ← verify_step fuel;
      match v with
      | None => mret None
      | Some (Some e) =>
          _ ← appendJournal "verify" "failed" e [];
          rolled_back res "VERIFY_FAILED" e d oldVersion
      | Some None => _ ← appendJournal "verify" "ok" "" []; commit res oldVersion
      end
  end.

Definition deploy_step : M Run (DeployResult + string) :=
  v ← inferVersion;
  match deploy io with
  | None => mret (inl (mkDeploy v None))
  | Some step =>
      res ← asked step;
      _ ← did (Deployed (match res with inl _ => true | inr _ => false end));
      match res with
      | inr e => mret (inr e)
      | inl d => if blank (dep_NewVersion d) then v ← inferVersion; mret (inl {| d with dep_NewVersion := v |}) else mret (inl d)
      end
  end.

Definition update (fuel : nat) (res : UpdateResult) : M Run outcome :=
  oldVersion ← readTrimmed (CurrentVersionPath p);
  let oldVersion := default "" oldVersion in
  let res := {| res with upd_OldVersion := oldVersion |} in
  err ← guarded_command "stop" (StopCommand p);
  match err with
  | Some e => finish res "STOP_TIMEOUT" [e]
  | None =>
      _ ← appendJournal "deploy" "started" "" [];
      d ← deploy_step;
      match d with
      | inr e => _ ← appendJournal "deploy" "failed" e []; finish res "DEPLOY_FAILED" [e]
      | inl d =>
          let res := {| res with upd_NewVersion := dep_NewVersion d |} in
          _ ← appendJournal "deploy" "ok" "new version prepared" [("new_version", upd_NewVersion res)];
          start_and_verify fuel res d oldVersion
      end
  end.

Definition Execute (fuel : nat) : M Run outcome :=
  started ← clock;
  let res := mkUpdate started 0 "" "" false false "" [] in
  _ ← appendJournal "acquire_lock" "started" "" [];
  err ← acquireLock;
  out ← match err with
        | Some e => _ ← appendJournal "acquire_lock" "failed" e []; finish res "LOCK_CONTENTION" [e]
        | None =>
            _ ← appendJournal "acquire_lock" "ok" "" [];
            out ← update fuel res;
            _ ← unlock;
            mret out
        end;
  r ← get;
  mret ('(res, errs) ← out; Some ({| res with upd_JournalEntries := entries r |}, errs)).

End Controller.

(** ** What a program does

    [does m Q] says what [m] appends to the log and to the journal, and what it
    makes of the files. The journal on disk gets what the result's journal gets,
    less what cannot be written. *)

Abbreviation mark := (string * string)%type.
Definition mark_of (e : JournalEntry) : mark := (je_Step e, je_Status e).
Abbreviation effect A := (A → list Event → list mark → gmap string string → gmap string string → Prop).

Section Effects.
Context (io : Host) (p : Plan).

Definition durable (env : Env) : Prop :=
  blank (JournalPath p) = false ∧ ∀ n, journal_fails io n = false ∧ rfc3339_time (env_clock env n) = true.
Definition written (env : Env) (es js : list JournalEntry) : Prop := js `sublist_of` es ∧ (durable env → js = es).

Definition leaves (env : Env) (r r' : Run) (l : list Event) (ms : list mark) : Prop :=
  log r' = log r ++ l ∧
  ∃ es js, ms = map mark_of es ∧ entries r' = entries r ++ es ∧ journal r' = journal r ++ js ∧ written env es js.

Definition does {A} (m : M Run A) (Q : effect A) : Prop :=
  ∀ env tick r, wp m env tick r (λ a _ r', ∃ l ms, Q a l ms (files r) (files r') ∧ leaves env r r' l ms).

Lemma leaves_nil env r r' : log r' = log r → entries r' = entries r → journal r' = journal r → leaves env r r' [] [].
Proof.
  intros Hl He Hj. split; [by rewrite app_nil_r|]. exists [], []. rewrite !app_nil_r. by split_and!.
Qed.

Lemma does_ret {A} (a : A) (Q : effect A) : (∀ fs, Q a [] [] fs fs) → does (mret a) Q.
Proof. intros HQ env tick r. wp_go. exists [], []. split; [apply HQ|]. by apply leaves_nil. Qed.

Lemma leaves_app env r r1 r2 l1 l2 m1 m2 :
  leaves env r r1 l1 m1 → leaves env r1 r2 l2 m2 → leaves env r r2 (l1 ++ l2) (m1 ++ m2).
Proof.
  intros (Hl1 & es1 & js1 & -> & He1 & Hj1 & Hs1 & Hd1) (Hl2 & es2 & js2 & -> & He2 & Hj2 & Hs2 & Hd2).
  split; [by rewrite Hl2, Hl1, app_assoc|].
  exists (es1 ++ es2), (js1 ++ js2). rewrite map_app, He2, He1, Hj2, Hj1, !app_assoc. split_and!; try done.
  split; [by apply sublist_app|]. intros Hd. by rewrite Hd1, Hd2.
Qed.

(** A step, and the rest of the program under what the step did. *)
Lemma does_bind {A B} (m : M Run A) (f : A → M Run B) (P : effect A) (Q : effect B) :
  does m P →
  (∀ a l1 m1 f0 f1, P a l1 m1 f0 f1 → does (f a) (λ b l2 m2 f1' f2, f1' = f1 → Q b (l1 ++ l2) (m1 ++ m2) f0 f2)) →
  does (m ≫= f) Q.
Proof.
  intros Hm Hf env tick r. wp_go. eapply wp_mono; [apply Hm|]. intros a t1 r1 (l1 & m1 & HP & H1).
  eapply wp_mono; [by eapply Hf|]. intros b t2 r2 (l2 & m2 & HQ & H2). exists (l1 ++ l2), (m1 ++ m2).
  split; [by apply HQ|]. by eapply leaves_app.
Qed.

Lemma does_weaken {A} (m : M Run A) (P Q : effect A) :
  does m P → (∀ a l ms f0 f1, P a l ms f0 f1 → Q a l ms f0 f1) → does m Q.
Proof.
  intros Hm HQ env tick r. eapply wp_mono; [apply Hm|]. intros a t r' (l & ms & HP & H). exists l, ms. split; [by apply HQ|done].
Qed.

(** What only reads. *)
Definition reads {A} (m : M Run A) : Prop := does m (λ _ l ms f0 f1, l = [] ∧ ms = [] ∧ f1 = f0).
Lemma asked_reads {A} (f : nat → A) : reads (asked f).
Proof. intros env tick r. unfold asked. wp_go. exists [], []. split; [done|]. by apply leaves_nil. Qed.
Lemma clock_reads : reads clock.
Proof. intros env tick r. wp_go. exists [], []. split; [done|]. by apply leaves_nil. Qed.
Lemma get_reads : reads get.
Proof. intros env tick r. wp_go. exists [], []. split; [done|]. by apply leaves_nil. Qed.

Lemma does_reads {A B} (m : M Run A) (f : A → M Run B) (Q : effect B) : reads m → (∀ a, does (f a) Q) → does (m ≫= f) Q.
Proof.
  intros Hm Hf. eapply does_bind; [exact Hm|]. intros a l1 m1 f0 f1 (-> & -> & ->).
  eapply does_weaken; [apply Hf|]. by intros b l ms f1 f2 HQ ->.
Qed.

Lemma does_did {B} e (m : M Run B) (Q : effect B) :
  does m (λ b l ms f0 f1, Q b (e :: l) ms f0 f1) → does (did e ≫= λ _, m) Q.
Proof.
  intros Hm. eapply (does_bind _ _ (λ _ l ms f0 f1, l = [e] ∧ ms = [] ∧ f1 = f0)).
  - intros env tick r. unfold did. wp_go. exists [e], []. split; [done|]. split; [done|]. exists [], [].
    cbn. rewrite !app_nil_r. by split_and!.
  - intros a l1 m1 f0 f1 (-> & -> & ->). eapply does_weaken; [exact Hm|]. by intros b l ms f1 f2 HQ ->.
Qed.

Lemma does_files {B} f (m : M Run B) (Q : effect B) :
  does m (λ b l ms f1 f2, ∀ f0, f1 = f f0 → Q b l ms f0 f2) → does (set_files f ≫= λ _, m) Q.
Proof.
  intros Hm. eapply (does_bind _ _ (λ _ l ms f0 f1, l = [] ∧ ms = [] ∧ f1 = f f0)).
  - intros env tick r. unfold set_files. wp_go. exists [], []. split; [done|]. by apply leaves_nil.
  - intros a l1 m1 f0 f1 (-> & -> & ->). eapply does_weaken; [exact Hm|]. intros b l ms f1 f2 HQ ->. by apply HQ.
Qed.

Lemma does_journal {B} step status msg meta (m : M Run B) (Q : effect B) :
  does m (λ b l ms f0 f1, Q b l ((step, status) :: ms) f0 f1) →
  does (appendJournal io p step status msg meta ≫= λ _, m) Q.
Proof.
  intros Hm. eapply (does_bind _ _ (λ _ l ms f0 f1, l = [] ∧ ms = [(step, status)] ∧ f1 = f0)).
  - intros env tick r. unfold appendJournal, writeJournal, asked. wp_go. set (e := mkEntry _ _ _ _ _).
    exists [], [(step, status)]. destruct (blank (JournalPath p) || journal_fails io _ || negb _) eqn:Hb; cbn;
      (split; [done|]; split; [by rewrite app_nil_r|]).
    + exists [e], []. rewrite !app_nil_r. split_and!; try done. split; [apply sublist_nil_l|]. intros [Hp Hd].
      rewrite Hp in Hb. destruct (Hd tick) as [_ Ht]. destruct (Hd (1 + tick)%nat) as [Hf _].
      subst e. cbn [je_Timestamp] in Hb. by rewrite Hf, Ht in Hb.
    + exists [e], [e]. by split_and!.
  - intros a l1 m1 f0 f1 (-> & -> & ->). eapply does_weaken; [exact Hm|]. by intros b l ms f1 f2 HQ ->.
Qed.

(** ** The protocol of an update *)

(** A command of the plan: run, or not set. *)
Definition ran (cmd : string) (ok : bool) (l : list Event) : Prop :=
  if blank cmd then ok = true ∧ l = [] else l = [Ran (TrimSpace cmd) ok].
Definition bracket (step : string) (ok : bool) : list mark := [(step, "started"); (step, if ok then "ok" else "failed")].
Definition bracketed (step cmd : string) (ok : bool) : list mark := if blank cmd then [] else bracket step ok.

Definition hooked (ok : bool) (l : list Event) : Prop := (ok = true ∧ l = []) ∨ l = [Hooked ok].
Definition deployed (ok : bool) (l : list Event) : Prop :=
  match deploy io with Some _ => l = [Deployed ok] | None => ok = true ∧ l = [] end.

(** A wait for a URL: it answered 200, or the time was over. *)
Definition waited (configured : bool) (url : string) (ok : bool) (l : list Event) : Prop :=
  if configured then l = [Polled (TrimSpace url) ok] else ok = true ∧ l = [].
Definition health_wait : bool → list Event → Prop := waited (negb (blank (HealthURL p))) (HealthURL p).
Definition ready_wait : bool → list Event → Prop := waited (RequireReady p && negb (blank (ReadyURL p))) (ReadyURL p).

Inductive verified : bool → list Event → Prop :=
  | not_healthy l : health_wait false l → verified false l
  | not_ready l1 l2 : health_wait true l1 → ready_wait false l2 → verified false (l1 ++ l2)
  | checked ok l1 l2 : health_wait true l1 → ready_wait true l2 → blank (VerifyCommand p) = false →
      verified ok (l1 ++ l2 ++ [Ran (VerifyCommand p) ok])
  | unchecked l1 l2 : health_wait true l1 → ready_wait true l2 → blank (VerifyCommand p) = true → verified true (l1 ++ l2).

(** Every step of a rollback is tried, whatever the others did. *)
Inductive undone : bool → list Event → Prop :=
  | undo o1 o2 o3 o4 l1 l2 l3 l4 :
      ran (StopCommand p) o1 l1 → hooked o2 l2 → ran (RollbackCommand p) o3 l3 → ran (StartCommand p) o4 l4 →
      undone (o1 && o2 && o3 && o4) (l1 ++ l2 ++ l3 ++ l4).

(** What is done, the journal of it, the reason of the failure and whether a
    rollback went through. *)
Inductive follows : list Event → list mark → string → bool → Prop :=
  | locked_out : follows [] (bracket "acquire_lock" false) "LOCK_CONTENTION" false
  | stop_failed l : ran (StopCommand p) false l →
      follows l (bracket "acquire_lock" true ++ bracketed "stop" (StopCommand p) false) "STOP_TIMEOUT" false
  | deploy_failed l1 l2 : ran (StopCommand p) true l1 → deployed false l2 →
      follows (l1 ++ l2)
        (bracket "acquire_lock" true ++ bracketed "stop" (StopCommand p) true ++ bracket "deploy" false) "DEPLOY_FAILED" false
  | start_failed l1 l2 l3 l4 ok : ran (StopCommand p) true l1 → deployed true l2 → ran (StartCommand p) false l3 → undone ok l4 →
      follows (l1 ++ l2 ++ l3 ++ l4)
        (bracket "acquire_lock" true ++ bracketed "stop" (StopCommand p) true ++ bracket "deploy" true ++
         bracketed "start" (StartCommand p) false ++ bracket "rollback" ok) "START_FAILED" ok
  | verify_failed l1 l2 l3 l4 l5 ok : ran (StopCommand p) true l1 → deployed true l2 → ran (StartCommand p) true l3 →
      verified false l4 → undone ok l5 →
      follows (l1 ++ l2 ++ l3 ++ l4 ++ l5)
        (bracket "acquire_lock" true ++ bracketed "stop" (StopCommand p) true ++ bracket "deploy" true ++
         bracketed "start" (StartCommand p) true ++ bracket "verify" false ++ bracket "rollback" ok) "VERIFY_FAILED" ok
  | brought_up l1 l2 l3 l4 ok : ran (StopCommand p) true l1 → deployed true l2 → ran (StartCommand p) true l3 → verified true l4 →
      follows (l1 ++ l2 ++ l3 ++ l4)
        (bracket "acquire_lock" true ++ bracketed "stop" (StopCommand p) true ++ bracket "deploy" true ++
         bracketed "start" (StartCommand p) true ++ bracket "verify" true ++ bracket "commit" ok)
        (if ok : bool then "" else "COMMIT_FAILED") false.

(** ** The steps *)

Lemma does_command cmd : does (run_command io cmd) (λ err l ms f0 f1, l = [Ran cmd (is_ok err)] ∧ ms = [] ∧ f1 = f0).
Proof. unfold run_command. apply does_reads; [apply asked_reads|]. intros err. apply does_did. by apply does_ret. Qed.

Lemma blank_spec s : blank s = (TrimSpace s =s "").
Proof. done. Qed.

Lemma does_guarded step cmd : does (guarded_command io p step cmd) (λ err l ms f0 f1,
  ran cmd (is_ok err) l ∧ ms = bracketed step cmd (is_ok err) ∧ f1 = f0).
Proof.
  unfold guarded_command, ran, bracketed. rewrite blank_spec. destruct (TrimSpace cmd =s ""); [by apply does_ret|].
  apply does_journal. eapply does_bind; [apply does_command|]. intros err l1 m1 f0 f1 (-> & -> & ->).
  destruct err as [e|]; apply does_journal, does_ret; by intros fs ->.
Qed.

Lemma does_optional what cmd : does (optional_step io what cmd) (λ errs l ms f0 f1,
  ran cmd (bool_decide (errs = [])) l ∧ ms = [] ∧ f1 = f0).
Proof.
  unfold optional_step, ran. rewrite blank_spec. destruct (TrimSpace cmd =s ""); [by apply does_ret|].
  eapply does_bind; [apply does_command|]. intros err l1 m1 f0 f1 (-> & -> & ->).
  destruct err as [e|]; apply does_ret; by intros fs ->.
Qed.

Lemma does_hook d : does (run_hook d) (λ errs l ms f0 f1, hooked (bool_decide (errs = [])) l ∧ ms = [] ∧ f1 = f0).
Proof.
  unfold run_hook, hooked. destruct (dep_Rollback d) as [hook|]; [|apply does_ret; intros; split_and!; [by left|done..]].
  apply does_reads; [apply asked_reads|]. intros err. apply does_did, does_ret. intros fs.
  destruct err; (split; [by right|done]).
Qed.

Lemma does_rollback d old : does (rollback io p d old) (λ errs l ms f0 f1,
  undone (bool_decide (errs = [])) l ∧ ms = bracket "rollback" (bool_decide (errs = [])) ∧ f1 = f0).
Proof.
  unfold rollback. apply does_journal.
  eapply does_bind; [apply does_optional|]. intros e1 l1 m1 f0 f1 (H1 & -> & ->).
  eapply does_bind; [apply does_hook|]. intros e2 l2 m2 f2 f1 (H2 & -> & ->).
  eapply does_bind; [apply does_optional|]. intros e3 l3 m3 f3 f1 (H3 & -> & ->).
  eapply does_bind; [apply does_optional|]. intros e4 l4 m4 f4 f1 (H4 & -> & ->).
  assert (undone (bool_decide (e1 ++ e2 ++ e3 ++ e4 = [])) (l1 ++ l2 ++ l3 ++ l4)) as Hu.
  { replace (bool_decide (e1 ++ e2 ++ e3 ++ e4 = [])) with
      (bool_decide (e1 = []) && bool_decide (e2 = []) && bool_decide (e3 = []) && bool_decide (e4 = [])).
    - by constructor.
    - by destruct e1, e2, e3, e4. }
  revert Hu. generalize (e1 ++ e2 ++ e3 ++ e4). intros errs Hu.
  destruct errs; apply does_journal, does_ret; intros fs -> -> -> ->; by rewrite app_nil_r.
Qed.

Lemma reads_ret {A} (a : A) : reads (mret a : M Run A).
Proof. by apply does_ret. Qed.
Lemma reads_bind {A B} (m : M Run A) (f : A → M Run B) : reads m → (∀ a, reads (f a)) → reads (m ≫= f).
Proof. intros. by apply does_reads. Qed.
#[local] Hint Resolve asked_reads clock_reads get_reads reads_ret : go.
Ltac reads_go := repeat first [progress intros | solve [eauto 3 with go] | apply reads_bind | case_match].

Lemma poll_reads fuel deadline url : reads (poll io fuel deadline url).
Proof. induction fuel as [|fuel IH]; cbn [poll]; unfold httpIs200, ctx_error; reads_go. Qed.

(** What a step that may run out of fuel does when it returns. *)
Definition returns (P : option string → list Event → Prop) : effect (option (option string)) :=
  λ res l ms f0 f1, ∀ err, res = Some err → P err l ∧ ms = [] ∧ f1 = f0.

Lemma does_wait what configured fuel deadline url : (configured = true → blank url = false) →
  does (wait_for io what configured fuel deadline url) (returns (λ err, waited configured url (is_ok err))).
Proof.
  intros Hc. unfold wait_for, waitHTTP200, waited, returns. destruct configured; cbn [negb].
  2: { apply does_ret. by intros fs err [= <-]. }
  assert (TrimSpace url =s "" = false) as -> by (rewrite <- blank_spec; by apply Hc).
  eapply (does_bind _ _ (λ res l ms f0 f1, ∀ err, res = Some err → l = [Polled (TrimSpace url) (is_ok err)] ∧ ms = [] ∧ f1 = f0)).
  - apply does_reads; [apply poll_reads|]. intros [err|]; [apply does_did, does_ret; by intros fs err' [= <-]|].
    apply does_reads; [apply reads_ret|]. intros []. by apply does_ret.
  - intros res l ms f0 f1 Hres. apply does_ret. intros fs -> err. rewrite !app_nil_r.
    destruct res as [[e|]|]; [|..]; intros [= <-]; by apply (Hres _ eq_refl).
Qed.

Lemma does_verify fuel : does (verify_step io p fuel) (returns (λ err, verified (is_ok err))).
Proof.
  unfold verify_step, verify.
  eapply (does_bind _ _ (returns (λ err l, (∃ e, err = Some e ∧ verified false l) ∨
    (err = None ∧ ∃ l1 l2, l = l1 ++ l2 ∧ health_wait true l1 ∧ ready_wait true l2)))).
  - apply does_reads; [apply clock_reads|]. intros now. eapply does_bind; [by apply does_wait; intros ?%negb_true_iff|].
    intros res l1 m1 f0 f1 H1. destruct res as [[e|]|].
    + destruct (H1 _ eq_refl) as (Hw & -> & ->). apply does_ret. intros fs -> err [= <-]. rewrite !app_nil_r.
      split_and!; try done. left. exists e. split; [done|]. by constructor.
    + destruct (H1 _ eq_refl) as (Hw & -> & ->). eapply does_weaken.
      { apply does_wait. intros [_ ?%negb_true_iff]%andb_true_iff. done. }
      intros res l2 m2 f0' f2 H2 -> err ->. destruct (H2 _ eq_refl) as (Hw2 & -> & ->). split_and!; try done.
      destruct err as [e|]; [left; exists e; split; [done|]; by constructor|]. right. split; [done|]. by exists l1, l2.
    + apply does_ret. by intros fs -> err.
  - intros res l m f0 f1 H. destruct res as [[e|]|].
    + destruct (H _ eq_refl) as ([(e' & _ & Hv)|[? _]] & -> & ->); [|done]. apply does_ret. intros fs -> err [= <-].
      by rewrite !app_nil_r.
    + destruct (H _ eq_refl) as ([(e' & ? & _)|(_ & l1 & l2 & -> & H1 & H2)] & -> & ->); [done|].
      destruct (blank (VerifyCommand p)) eqn:Hb.
      * apply does_ret. intros fs -> err [= <-]. rewrite !app_nil_r. split_and!; [by constructor|done..].
      * eapply does_bind; [apply does_command|]. intros err l3 m3 f1 f2 (-> & -> & ->). apply does_ret.
        intros fs -> -> err' [= <-]. rewrite app_nil_r, <- app_assoc. split_and!; [by constructor|done..].
    + apply does_ret. by intros fs -> err.
Qed.

Lemma does_finish res reason errs (Q : effect outcome) :
  (∀ now fs, Q (Some ({| res with upd_FinishedAt := now; upd_FailureReason := reason |}, errs)) [] [] fs fs) →
  does (finish res reason errs) Q.
Proof. intros HQ. unfold finish. apply does_reads; [apply clock_reads|]. intros now. by apply does_ret. Qed.

(** ** The version files *)

Definition set_version (path v : string) (fs : gmap string string) : gmap string string :=
  if blank path then fs else <[path := TrimSpace v +:+ byte_of 10]> fs.

(** The path is the only one written, and a failed write leaves it as it was or
    empty. *)
Definition write_effect (path v : string) (err : option string) (f0 f1 : gmap string string) : Prop :=
  match err with
  | None => f1 = set_version path v f0
  | Some _ => blank path = false ∧ (f1 = f0 ∨ f1 = <[path := ""]> f0)
  end.

Lemma does_write path v : does (writeTrimmed io path v) (λ err l ms f0 f1, l = [] ∧ ms = [] ∧ write_effect path v err f0 f1).
Proof.
  unfold writeTrimmed, write_effect, set_version. destruct (blank path) eqn:Hb; [by apply does_ret|].
  apply does_reads; [apply asked_reads|]. intros [[text truncated]|]; apply does_files, does_ret; intros fs f0 ->; split_and!; try done.
  destruct truncated; [by right|by left].
Qed.

(** What an update makes of the version files. *)
Definition versions (res : UpdateResult) (f0 f1 : gmap string string) : Prop :=
  let previous := if upd_OldVersion res =s "" then f0 else set_version (PreviousVersionPath p) (upd_OldVersion res) f0 in
  if upd_Committed res then f1 = set_version (CurrentVersionPath p) (upd_NewVersion res) previous
  else if upd_FailureReason res =s "COMMIT_FAILED" then
    ∃ err, (upd_OldVersion res ≠ "" ∧ write_effect (PreviousVersionPath p) (upd_OldVersion res) (Some err) f0 f1) ∨
           write_effect (CurrentVersionPath p) (upd_NewVersion res) (Some err) previous f1
  else f1 = f0.

(** An update commits exactly when nothing failed. *)
Definition consistent (res : UpdateResult) (errs : list string) : Prop :=
  (upd_Committed res = true ↔ upd_FailureReason res = "") ∧ (errs = [] ↔ upd_FailureReason res = "").

Definition same_versions (res res' : UpdateResult) : Prop :=
  upd_OldVersion res' = upd_OldVersion res ∧ upd_NewVersion res' = upd_NewVersion res.

Lemma does_commit res old : upd_OldVersion res = old → upd_Committed res = false → upd_RolledBack res = false →
  does (commit io p res old) (λ o l ms f0 f1, ∃ res' errs ok, o = Some (res', errs) ∧ l = [] ∧ ms = bracket "commit" ok ∧
    upd_FailureReason res' = (if ok : bool then "" else "COMMIT_FAILED") ∧ upd_RolledBack res' = false ∧
    consistent res' errs ∧ same_versions res res' ∧ versions res' f0 f1).
Proof.
  intros Hold Hc Hr. unfold commit. apply does_journal.
  eapply (does_bind _ _ (λ err l ms f0 f1, l = [] ∧ ms = [] ∧
    if old =s "" then err = None ∧ f1 = f0 else write_effect (PreviousVersionPath p) old err f0 f1)).
  { destruct (old =s ""); [by apply does_ret|apply does_write]. }
  intros err l1 m1 f0 f1 (-> & -> & H1).
  eapply (does_bind _ _ (λ err' l ms g0 g1, l = [] ∧ ms = [] ∧ match err with
    | Some e => err' = Some e ∧ g1 = g0
    | None => write_effect (CurrentVersionPath p) (upd_NewVersion res) err' g0 g1 end)).
  { destruct err; [by apply does_ret|apply does_write]. }
  intros err' l2 m2 g0 g1 (-> & -> & H2). destruct err' as [e|].
  - apply does_journal, does_finish. intros now fs -> ->.
    eexists _, _, false. split; [reflexivity|]. unfold consistent, same_versions, versions. cbn. rewrite Hc, Hold. split_and!; try done.
    exists e. destruct err as [e'|].
    + left. destruct H2 as [_ ->]. destruct (old =s "") eqn:Ho; [by destruct H1|]. apply streq_false in Ho. by split.
    + right. destruct (old =s ""); [|by rewrite <- H1]. by destruct H1 as [_ <-].
  - apply does_journal, does_finish. intros now fs -> ->.
    eexists _, _, true. split; [reflexivity|]. unfold consistent, same_versions, versions. cbn. rewrite Hold. split_and!; try done.
    destruct err; [by destruct H2|]. cbn in H2. rewrite H2. destruct (old =s ""); [by destruct H1 as [_ ->]|]. by rewrite H1.
Qed.

Lemma does_rolled_back res reason err d old : reason ≠ "" → reason ≠ "COMMIT_FAILED" → upd_Committed res = false →
  does (rolled_back io p res reason err d old) (λ o l ms f0 f1, ∃ res' errs, o = Some (res', errs) ∧
    undone (upd_RolledBack res') l ∧ ms = bracket "rollback" (upd_RolledBack res') ∧ upd_FailureReason res' = reason ∧
    consistent res' errs ∧ same_versions res res' ∧ versions res' f0 f1).
Proof.
  intros Hr Hr' Hc. unfold rolled_back. eapply does_bind; [apply does_rollback|]. intros rb l1 m1 f0 f1 (Hu & -> & ->).
  apply does_finish. intros now fs ->. rewrite !app_nil_r. eexists _, _. split; [reflexivity|].
  unfold consistent, same_versions, versions. cbn. rewrite Hc. apply streq_false in Hr' as ->. by split_and!.
Qed.

(** The part of [follows] after the deployment. *)
Lemma does_start fuel res d old : upd_OldVersion res = old → upd_Committed res = false → upd_RolledBack res = false →
  does (start_and_verify io p fuel res d old) (λ o l ms f0 f1, ∀ res' errs, o = Some (res', errs) →
    (∀ l1 l2, ran (StopCommand p) true l1 → deployed true l2 →
      follows (l1 ++ l2 ++ l)
        (bracket "acquire_lock" true ++ bracketed "stop" (StopCommand p) true ++ bracket "deploy" true ++ ms)
        (upd_FailureReason res') (upd_RolledBack res')) ∧
    consistent res' errs ∧ same_versions res res' ∧ versions res' f0 f1).
Proof.
  intros Hold Hc Hr. unfold start_and_verify. eapply does_bind; [apply does_guarded|]. intros err l3 m3 f0 f1 (H3 & -> & ->).
  destruct err as [e|]; cbn [is_ok] in *.
  { eapply does_weaken; [by apply does_rolled_back|]. intros o l ms f1 f2 (res' & errs & -> & Hu & -> & Hre & Hrest) -> ?? [= <- <-].
    split; [|exact Hrest]. intros l1 l2 H1 H2. rewrite Hre. by constructor. }
  apply does_journal. eapply does_bind; [apply does_verify|]. intros v l4 m4 f0' f1 H4. destruct v as [[e|]|].
  - destruct (H4 _ eq_refl) as (Hv & -> & ->). apply does_journal. eapply does_weaken; [by apply does_rolled_back|].
    intros o l ms f1 f2 (res' & errs & -> & Hu & -> & Hre & Hrest) -> -> ?? [= <- <-]. split; [|exact Hrest].
    intros l1 l2 H1 H2. rewrite Hre. by constructor.
  - destruct (H4 _ eq_refl) as (Hv & -> & ->). apply does_journal. eapply does_weaken; [by apply does_commit|].
    intros o l ms f1 f2 (res' & errs & ok & -> & -> & -> & Hre & Hro & Hrest) -> -> ?? [= <- <-]. split; [|exact Hrest].
    intros l1 l2 H1 H2. rewrite Hre, Hro, app_nil_r. by constructor.
  - apply does_ret. by intros fs -> -> res' errs.
Qed.

(** ** The whole update *)

Lemma does_get : does get (λ r l ms f0 f1, l = [] ∧ ms = [] ∧ f1 = f0 ∧ files r = f0).
Proof. intros env tick r. wp_go. exists [], []. split; [done|]. by apply leaves_nil. Qed.

(** The version read from a file: what the file holds, or nothing. *)
Definition version_read (path v : string) (fs : gmap string string) : Prop :=
  v = "" ∨ Some v = TrimSpace <$> fs !! path.

Lemma does_read path : does (readTrimmed io path) (λ v l ms f0 f1,
  l = [] ∧ ms = [] ∧ f1 = f0 ∧ version_read path (default "" v) f0 ∧
  ((∀ n, read_fails io n = false) → blank path = false → v = TrimSpace <$> f0 !! path)).
Proof.
  unfold readTrimmed. destruct (blank path); [apply does_ret; intros; split_and!; by try left|].
  eapply (does_bind _ _ (λ bad l ms f0 f1, l = [] ∧ ms = [] ∧ f1 = f0 ∧ ((∀ n, read_fails io n = false) → bad = false))).
  { intros env tick r. unfold asked. wp_go. exists [], []. split; [by split_and!|]. by apply leaves_nil. }
  intros bad l ms f0 f1 (-> & -> & -> & Hb). eapply does_bind; [apply does_get|]. intros r l ms f1 f2 (-> & -> & -> & <-).
  apply does_ret. intros fs -> ->. split_and!; try done.
  - destruct bad; [by left|]. unfold version_read. destruct (f0 !! path); [by right|by left].
  - intros H _. by rewrite Hb.
Qed.

Lemma compact_not_blank t : blank (compact_time t) = false.
Proof.
  unfold compact_time. destruct (civil t) as [[y m] d]. apply (keeps_not_blank "-"); [by repeat constructor|].
  rewrite !has_byte_app. cbn. by rewrite !orb_true_r.
Qed.

Lemma does_infer : does (inferVersion io p) (λ v l ms f0 f1, l = [] ∧ ms = [] ∧ f1 = f0 ∧ blank v = false).
Proof.
  unfold inferVersion. apply does_reads.
  - destruct (blank _); [apply reads_ret|]. eapply does_weaken; [apply does_read|]. by intros v l ms f0 f1 (? & ? & ? & _).
  - intros v. assert (does (now ← clock; mret (compact_time now)) (λ v l ms f0 f1, l = [] ∧ ms = [] ∧ f1 = f0 ∧ blank v = false)) as Hc.
    { apply does_reads; [apply clock_reads|]. intros now. apply does_ret. intros fs. split_and!; try done. apply compact_not_blank. }
    destruct v as [v|]; [|done]. destruct (v =s ""); [done|]. apply does_ret. intros fs. split_and!; try done.
    apply (keeps_not_blank "-"); [by repeat constructor|done].
Qed.

Lemma does_deploy : does (deploy_step io p) (λ d l ms f0 f1, ms = [] ∧ f1 = f0 ∧
  match d with inl d => deployed true l ∧ blank (dep_NewVersion d) = false | inr _ => deployed false l end).
Proof.
  unfold deploy_step, deployed. eapply does_bind; [apply does_infer|]. intros v l m f0 f1 (-> & -> & -> & Hv).
  destruct (deploy io) as [step|]; [|by apply does_ret; intros fs ->].
  apply does_reads; [apply asked_reads|]. intros res. apply does_did. destruct res as [d|e]; [|by apply does_ret; intros fs ->].
  destruct (blank (dep_NewVersion d)) eqn:Hb; [|by apply does_ret; intros fs ->].
  eapply does_bind; [apply does_infer|]. intros v' l m f1 f2 (-> & -> & -> & Hv'). by apply does_ret; intros fs -> ->.
Qed.

(** What an update promises of its result. *)
Definition promised (res : UpdateResult) (errs : list string) (f0 f1 : gmap string string) : Prop :=
  consistent res errs ∧ versions res f0 f1 ∧ version_read (CurrentVersionPath p) (upd_OldVersion res) f0 ∧
  (upd_Committed res = true → blank (upd_NewVersion res) = false).

Lemma does_update fuel res : upd_Committed res = false → upd_RolledBack res = false →
  does (update io p fuel res) (λ o l ms f0 f1, ∀ res' errs, o = Some (res', errs) →
    follows l (bracket "acquire_lock" true ++ ms) (upd_FailureReason res') (upd_RolledBack res') ∧ promised res' errs f0 f1).
Proof.
  intros Hc Hr. unfold update. eapply does_bind; [apply does_read|]. intros v l m f0 f1 (-> & -> & -> & Hv & _).
  eapply does_bind; [apply does_guarded|]. intros err l1 m1 f1 f2 (H1 & -> & ->). destruct err as [e|]; cbn [is_ok] in *.
  { apply does_finish. intros now fs -> -> res' errs [= <- <-]. cbn. rewrite !app_nil_r, Hr. split; [by constructor|].
    unfold promised, consistent, versions. cbn. by rewrite Hc. }
  apply does_journal. eapply does_bind; [apply does_deploy|]. intros [d|e] l2 m2 f2 f3 (-> & -> & Hd).
  - apply does_journal. eapply does_weaken; [by apply does_start|]. intros o l ms f3 f4 Ho -> -> -> res' errs ->.
    destruct Hd as [Hd Hb]. destruct (Ho _ _ eq_refl) as (Hf & Hcon & [Hold Hnew] & Hver). cbn in Hold, Hnew.
    split; [by apply Hf|]. split_and!; try done; [by rewrite Hold|by rewrite Hnew].
  - apply does_journal, does_finish. intros now fs -> -> -> res' errs [= <- <-]. cbn. rewrite !app_nil_r, Hr. split; [by constructor|].
    unfold promised, consistent, versions. cbn. by rewrite Hc.
Qed.

(** ** The lock *)

Definition lock_path : string := TrimSpace (LockFilePath p).
Definition locked (f0 f1 : gmap string string) : Prop :=
  if lock_path =s "" then f1 = f0 else f0 !! lock_path = None ∧ f1 = <[lock_path := Itoa (pid io) +:+ byte_of 10]> f0.
Definition unlocked (f0 f1 : gmap string string) : Prop :=
  (∀ n, lock_remove_fails io n = false) → f1 = if lock_path =s "" then f0 else delete lock_path f0.

Lemma does_acquire : does (acquireLock io p) (λ err l ms f0 f1, l = [] ∧ ms = [] ∧
  match err with Some _ => f1 = f0 | None => locked f0 f1 end).
Proof.
  unfold acquireLock, locked, lock_path. destruct (_ =s ""); [by apply does_ret|].
  apply does_reads; [apply asked_reads|]. intros [text|]; [by apply does_ret|].
  apply does_reads; [apply asked_reads|]. intros bad. eapply does_bind; [apply does_get|]. intros r l m f0 f1 (-> & -> & -> & <-).
  destruct (bool_decide _) eqn:Hb; [by apply does_ret; intros fs ->|]. apply bool_decide_eq_false, eq_None_not_Some in Hb.
  destruct bad; [by apply does_ret; intros fs ->|]. by apply does_files, does_ret; intros fs f0 -> ->.
Qed.

Lemma does_unlock : does (unlock io p) (λ _ l ms f0 f1, l = [] ∧ ms = [] ∧ unlocked f0 f1).
Proof.
  unfold unlock, unlocked, lock_path. destruct (_ =s ""); [by apply does_ret|].
  intros env tick r. unfold asked, set_files. wp_go. exists [], []. split; [|by apply leaves_nil]. split_and!; try done.
  intros H. by rewrite H.
Qed.

Lemma follows_past_lock l ms reason rb : follows l (bracket "acquire_lock" true ++ ms) reason rb → reason ≠ "LOCK_CONTENTION".
Proof. intros H. inversion H; try done. by destruct ok. Qed.

Lemma does_Execute fuel : does (Execute io p fuel) (λ o l ms f0 f1, ∀ res errs, o = Some (res, errs) →
  follows l ms (upd_FailureReason res) (upd_RolledBack res) ∧
  if upd_FailureReason res =s "LOCK_CONTENTION" then errs ≠ [] ∧ upd_Committed res = false ∧ upd_OldVersion res = "" ∧ f1 = f0
  else ∃ g0 g1, locked f0 g0 ∧ promised res errs g0 g1 ∧ unlocked g1 f1).
Proof.
  unfold Execute. apply does_reads; [apply clock_reads|]. intros started. apply does_journal.
  eapply does_bind; [apply does_acquire|]. intros err l1 m1 f0 f1 (-> & -> & Hl). destruct err as [e|].
  - subst f1. eapply (does_bind _ _ (λ o l ms f0 f1, ∃ now, o = Some (mkUpdate started now "" "" false false "LOCK_CONTENTION" [], [e]) ∧
      l = [] ∧ ms = [("acquire_lock", "failed")] ∧ f1 = f0)).
    { apply does_journal, does_finish. intros now fs. exists now. by split_and!. }
    intros o l m g0 g1 (now & -> & -> & -> & ->). apply does_reads; [apply get_reads|]. intros r. apply does_ret.
    intros fs -> -> res errs [= <- <-]. cbn. split; [by constructor|]. by split_and!.
  - eapply (does_bind _ _ (λ o l ms f0' f1', f0' = f1 → ∀ res errs, o = Some (res, errs) →
      ∃ ms' g, ms = ("acquire_lock", "ok") :: ms' ∧
      follows l (bracket "acquire_lock" true ++ ms') (upd_FailureReason res) (upd_RolledBack res) ∧ promised res errs f1 g ∧ unlocked g f1')).
    { apply does_journal. eapply does_bind; [by apply does_update|]. intros o l m g0 g1 Ho.
      eapply does_bind; [apply does_unlock|]. intros [] l2 m2 g2 g3 (-> & -> & Hu). apply does_ret. intros fs -> -> -> res errs ->.
      destruct (Ho _ _ eq_refl) as [Hf Hp]. exists m, g1. rewrite !app_nil_r. by split_and!. }
    intros o l m g0 g1 Ho. apply does_reads; [apply get_reads|]. intros r. apply does_ret. intros fs -> -> res errs Hres.
    destruct o as [[res' errs']|]; [|done]. injection Hres as <- <-. destruct (Ho eq_refl _ _ eq_refl) as (ms' & g & -> & Hf & Hp & Hu).
    cbn. rewrite app_nil_r. split; [by rewrite app_nil_r|].
    pose proof (follows_past_lock _ _ _ _ Hf) as Hne. apply streq_false in Hne as ->. by exists f1, g.
Qed.

End Effects.

(** ** Runs *)

Section Theorems.
Context (io : Host) (p : Plan).

Definition fresh (fs : gmap string string) (js : list JournalEntry) (l : list Event) : Run := mkRun fs js [] l.

(** The result carries the journal of the run. *)
Lemma Execute_entries fuel env tick r : wp (Execute io p fuel) env tick r (λ o _ r', ∀ res errs, o = Some (res, errs) →
  upd_JournalEntries res = entries r').
Proof.
  unfold Execute. wp_go. apply wp_intro. intros _ t1 r1. wp_go. apply wp_intro. intros err t2 r2. wp_go.
  apply wp_intro. intros o t3 r3. wp_go.
  intros res errs H. destruct o as [[res' errs']|]; [|done]. by injection H as <- <-.
Qed.

Lemma Execute_run fuel env tick fs js l0 res errs : result (Execute io p fuel) env tick (fresh fs js l0) = Some (res, errs) →
  let r' := state (Execute io p fuel) env tick (fresh fs js l0) in ∃ l js',
    log r' = l0 ++ l ∧ journal r' = js ++ js' ∧ written io p env (upd_JournalEntries res) js' ∧
    follows io p l (map mark_of (upd_JournalEntries res)) (upd_FailureReason res) (upd_RolledBack res) ∧
    if upd_FailureReason res =s "LOCK_CONTENTION" then errs ≠ [] ∧ upd_Committed res = false ∧ upd_OldVersion res = "" ∧ files r' = fs
    else ∃ g0 g1, locked io p fs g0 ∧ promised p res errs g0 g1 ∧ unlocked io p g1 (files r').
Proof.
  pose proof (does_Execute io p fuel env tick (fresh fs js l0)) as Hd. pose proof (Execute_entries fuel env tick (fresh fs js l0)) as He.
  unfold wp, result, state in *. destruct (Execute io p fuel env tick (fresh fs js l0)) as [[o t] r']. cbn. intros ->.
  destruct Hd as (l & ms & H & Hl & es & js' & -> & Hes & Hjs & Hw). cbn in Hl, Hes, Hjs. rewrite (He _ _ eq_refl), Hes.
  exists l, js'. destruct (H _ _ eq_refl). by split_and!.
Qed.


Lemma follows_locked_out l ms rb : follows io p l ms "LOCK_CONTENTION" rb → l = [].
Proof. intros H. inversion H; [done|..]. by destruct ok. Qed.

Lemma set_version_lock path v x f : lock_path p ≠ path →
  set_version path v (<[lock_path p := x]> f) = <[lock_path p := x]> (set_version path v f).
Proof. intros Hp. unfold set_version. destruct (blank path); [done|]. by apply insert_insert_ne. Qed.
Lemma set_version_other path v f q : q ≠ path → set_version path v f !! q = f !! q.
Proof. intros Hq. unfold set_version. destruct (blank path); [done|]. by apply lookup_insert_ne. Qed.

(** Taking the lock and giving it back leaves no trace in the files. *)
Lemma versions_unlock res x f g : lock_path p ≠ CurrentVersionPath p → lock_path p ≠ PreviousVersionPath p →
  f !! lock_path p = None → versions p res (<[lock_path p := x]> f) g → versions p res f (delete (lock_path p) g).
Proof.
  intros Hc Hp Hf. assert (∀ g : gmap string string, g !! lock_path p = None → delete (lock_path p) (<[lock_path p := x]> g) = g) as Hd.
  { intros g' Hg. by rewrite delete_insert_id. }
  assert (∀ path v err f g, lock_path p ≠ path → f !! lock_path p = None →
    write_effect path v (Some err) (<[lock_path p := x]> f) g → write_effect path v (Some err) f (delete (lock_path p) g)) as Hw.
  { intros path v err f' g' Hpath Hf' (Hb & [-> | ->]); (split; [done|]); [left; by apply Hd|right].
    rewrite insert_insert_ne by done. apply Hd. by rewrite lookup_insert_ne. }
  unfold versions. set (old := if upd_OldVersion res =s "" then <[lock_path p := x]> f else _).
  assert (old = <[lock_path p := x]> (if upd_OldVersion res =s "" then f else set_version (PreviousVersionPath p) (upd_OldVersion res) f)) as ->.
  { subst old. destruct (_ =s ""); [done|]. by rewrite set_version_lock. }
  assert ((if upd_OldVersion res =s "" then f else set_version (PreviousVersionPath p) (upd_OldVersion res) f) !! lock_path p = None) as Hold.
  { destruct (_ =s ""); [done|]. by rewrite set_version_other. }
  revert Hold. generalize (if upd_OldVersion res =s "" then f else set_version (PreviousVersionPath p) (upd_OldVersion res) f). intros old' Hold.
  destruct (upd_Committed res).
  - intros ->. rewrite set_version_lock by done. apply Hd. by rewrite set_version_other.
  - destruct (_ =s "COMMIT_FAILED"); [|by intros ->; apply Hd].
    intros (err & [[Ho Hg]|Hg]); exists err; [left; split; [done|]|right]; by apply Hw.
Qed.

(** The version files follow the update. When the lock has a file of its own
    that can be removed, an update that commits leaves the new version, never
    blank, in the current file and the version it replaced in the previous one; one
    that fails changes neither, unless the commit itself could not be written; no
    other file changes, so the lock is free again. A lock that is held stops the
    update before it starts. *)
Theorem Execute_versions (fuel : nat) (env : Env) (tick : nat) (fs : gmap string string) (js : list JournalEntry)
    (l0 : list Event) (res : UpdateResult) (errs : list string)
    (Hres : result (Execute io p fuel) env tick (fresh fs js l0) = Some (res, errs)) (Hrm : ∀ n, lock_remove_fails io n = false)
    (Hcur : lock_path p ≠ CurrentVersionPath p) (Hprev : lock_path p ≠ PreviousVersionPath p) :
  let r' := state (Execute io p fuel) env tick (fresh fs js l0) in
  versions p res fs (files r') ∧ version_read (CurrentVersionPath p) (upd_OldVersion res) fs ∧
  (upd_Committed res = true → blank (upd_NewVersion res) = false) ∧
  (lock_path p ≠ "" → is_Some (fs !! lock_path p) → upd_FailureReason res = "LOCK_CONTENTION" ∧ log r' = l0).
Proof.
  intros r'. destruct (Execute_run _ _ _ _ _ _ _ _ Hres) as (l & js' & Hl & _ & _ & Hf & Hc). fold r' in Hl, Hc. destruct (upd_FailureReason res =s "LOCK_CONTENTION") eqn:Hr.
  - apply streq_true in Hr. rewrite Hr in *. apply follows_locked_out in Hf as ->. destruct Hc as (He & Hc & Hold & ->).
    rewrite app_nil_r in Hl. unfold versions. rewrite Hc, Hr, Hold. split_and!; by try left.
  - destruct Hc as (g0 & g1 & Hlk & (_ & Hv & Hold & Hnew) & Hu). specialize (Hu Hrm). unfold locked in Hlk.
    destruct (lock_path p =s "") eqn:Hlp.
    + apply streq_true in Hlp. subst g0. rewrite Hu. by split_and!.
    + destruct Hlk as [Hnone ->]. rewrite Hu. split_and!; [by eapply versions_unlock| |done|].
      * unfold version_read in *. by rewrite lookup_insert_ne in Hold.
      * intros _ [x Hx]. by rewrite Hnone in Hx.
Qed.

(** ** Enough fuel *)

Definition returned {A} (o : option A) (_ : nat) (_ : Run) : Prop := is_Some o.

(** What holds of a program once its fuel is large enough. *)
Definition eventually {A} (m : nat → M Run A) (env : Env) (tick : nat) (r : Run) (Q : A → nat → Run → Prop) : Prop :=
  ∃ n, ∀ fuel, (n < fuel)%nat → wp (m fuel) env tick r Q.

Lemma eventually_bind {A B} (m : M Run A) (f : nat → A → M Run B) env tick r Q :
  (∀ a t r', eventually (λ fuel, f fuel a) env t r' Q) → eventually (λ fuel, m ≫= f fuel) env tick r Q.
Proof.
  intros Hf. destruct (m env tick r) as [[a t] r'] eqn:Hm. destruct (Hf a t r') as [n Hn]. exists n. intros fuel Hfuel.
  wp_go. unfold wp at 1. rewrite Hm. by apply Hn.
Qed.

Lemma eventually_then {A B} (m : nat → M Run A) (f : nat → A → M Run B) env tick r P Q :
  eventually m env tick r P → (∀ fuel a t r', P a t r' → wp (f fuel a) env t r' Q) →
  eventually (λ fuel, m fuel ≫= f fuel) env tick r Q.
Proof.
  intros [n Hm] Hf. exists n. intros fuel Hfuel. wp_go. eapply wp_mono; [by apply Hm|]. intros a t r' HP. by apply Hf.
Qed.

Lemma eventually_now {A} (m : M Run A) env tick r Q : wp m env tick r Q → eventually (λ _, m) env tick r Q.
Proof. intros H. by exists 0%nat. Qed.

Lemma ctx_error_cases deadline env tick r (Q : option string → nat → Run → Prop) :
  (∀ e, Q (Some e) (2 + tick)%nat r) → (env_clock env tick < deadline → Q None (2 + tick)%nat r) →
  wp (ctx_error io deadline) env tick r Q.
Proof.
  intros Hs Hn. unfold ctx_error, asked. wp_go. destruct (cancelled io _); [apply Hs|].
  destruct (deadline <=? _) eqn:Hd; [apply Hs|]. apply Hn. lia.
Qed.

(** A wait is over when the clock has passed the deadline for good. *)
Lemma poll_returns url deadline env n fuel : (∀ m, (n ≤ m)%nat → deadline ≤ env_clock env m) →
  ∀ tick r, (0 < fuel)%nat → (n < tick + fuel)%nat → wp (poll io fuel deadline url) env tick r returned.
Proof.
  intros Hn. induction fuel as [|fuel IH]; intros tick r Hpos Hfuel; [lia|]. cbn [poll]. unfold httpIs200, asked. wp_go.
  assert (∀ answer, wp (err ← ctx_error io deadline; match err with
      | Some e => mret (Some (Some (last_error answer e)))
      | None => err ← ctx_error io deadline; match err with
          | Some e => mret (Some (Some (last_error answer e)))
          | None => poll io fuel deadline url end end) env (1 + tick) r returned) as Hrest.
  { intros answer. wp_go. apply ctx_error_cases; [intros; by eexists|]. intros Hlt. wp_go.
    apply ctx_error_cases; [intros; by eexists|]. intros _.
    assert (1 + tick < n)%nat by (destruct (decide (n ≤ 1 + tick)%nat) as [H%Hn|]; lia). apply IH; lia. }
  destruct (http_get io url tick) as [status|e]; [destruct (status =? 200)|]; [by eexists|apply Hrest..].
Qed.

(** The clock leaves every instant behind. *)
Definition clock_passes (env : Env) : Prop := ∀ t, ∃ n, ∀ m, (n ≤ m)%nat → t ≤ env_clock env m.

Lemma wait_returns what configured deadline url env n fuel : (∀ m, (n ≤ m)%nat → deadline ≤ env_clock env m) →
  ∀ tick r, (n < fuel)%nat → wp (wait_for io what configured fuel deadline url) env tick r returned.
Proof.
  intros Hn tick r Hfuel. unfold wait_for, waitHTTP200. destruct (negb configured); [by eexists|].
  destruct (_ =s ""); [by eexists|]. wp_go. eapply wp_mono; [apply (poll_returns _ _ _ n); [done|lia..]|].
  intros res t r' [err ->]. wp_go. apply wp_intro. intros _ t' r''. wp_go. destruct err; by eexists.
Qed.

Lemma verify_returns env tick r : clock_passes env → eventually (verify_step io p) env tick r returned.
Proof.
  intros Hc. unfold verify_step, verify. apply (eventually_then (λ fuel, now ← clock; _) _ _ _ _ returned).
  - destruct (Hc (env_clock env tick + positive_or (VerifyTimeout p) (60 * Second))) as [n Hn]. exists n. intros fuel Hfuel.
    wp_go. eapply wp_mono; [by apply (wait_returns _ _ _ _ _ n)|]. intros res t r' [[e|] ->]; [by eexists|].
    by apply (wait_returns _ _ _ _ _ n).
  - intros fuel res t r' [[e|] ->]; [by eexists|]. destruct (blank _); [by eexists|]. wp_go. apply wp_intro. intros. by eexists.
Qed.

Lemma finish_returns res reason errs env tick r : wp (finish res reason errs) env tick r returned.
Proof. unfold finish. wp_go. by eexists. Qed.

Lemma rolled_back_returns res reason err d old env tick r : wp (rolled_back io p res reason err d old) env tick r returned.
Proof. unfold rolled_back. wp_go. apply wp_intro. intros. apply finish_returns. Qed.

Lemma commit_returns res old env tick r : wp (commit io p res old) env tick r returned.
Proof.
  unfold commit. wp_go. apply wp_intro. intros _ t1 r1. wp_go. apply wp_intro. intros err t2 r2. wp_go.
  apply wp_intro. intros [e|] t3 r3; wp_go; apply wp_intro; intros; apply finish_returns.
Qed.

Lemma start_returns res d old env tick r : clock_passes env →
  eventually (λ fuel, start_and_verify io p fuel res d old) env tick r returned.
Proof.
  intros Hc. unfold start_and_verify. apply eventually_bind. intros [e|] t1 r1.
  { apply eventually_now, rolled_back_returns. }
  apply eventually_bind. intros _ t2 r2. eapply (eventually_then (verify_step io p)); [by apply verify_returns|].
  intros fuel v t3 r3 [[e|] ->]; wp_go; apply wp_intro; intros; [apply rolled_back_returns|apply commit_returns].
Qed.

Lemma update_returns res env tick r : clock_passes env → eventually (λ fuel, update io p fuel res) env tick r returned.
Proof.
  intros Hc. unfold update. apply eventually_bind. intros v t1 r1. apply eventually_bind. intros [e|] t2 r2.
  { apply eventually_now, finish_returns. }
  apply eventually_bind. intros _ t3 r3. apply eventually_bind. intros [d|e] t4 r4; apply eventually_bind; intros _ t5 r5.
  - by apply start_returns.
  - apply eventually_now, finish_returns.
Qed.

(** C16: an update ends. When the clock leaves every instant behind, some amount of
    fuel is enough for [Execute] to return a result, however long the health and
    readiness checks fail. *)
Theorem Execute_returns (env : Env) (tick : nat) (r : Run) (Hclock : clock_passes env) :
  ∃ n, ∀ fuel, (n < fuel)%nat → is_Some (result (Execute io p fuel) env tick r).
Proof.
  enough (eventually (Execute io p) env tick r returned) as [n Hn].
  { exists n. intros fuel Hfuel. specialize (Hn fuel Hfuel). by apply wp_run in Hn. }
  unfold Execute. apply eventually_bind. intros started t1 r1. apply eventually_bind. intros _ t2 r2.
  apply eventually_bind. intros err t3 r3. eapply (eventually_then (λ fuel, match err with Some e => _ | None => _ end) _ _ _ _ returned).
  - destruct err as [e|].
    + apply eventually_now. wp_go. apply wp_intro. intros. apply finish_returns.
    + apply eventually_bind. intros _ t4 r4. eapply eventually_then; [by apply update_returns|].
      intros fuel o t5 r5 Ho. wp_go. apply wp_intro. intros. exact Ho.
  - intros fuel o t4 r4 [[res errs] ->]. wp_go. by eexists.
Qed.

End Theorems.

(** ** A concrete update *)

Definition ex_plan : Plan := NewLifecycleController
  (mkPlan "/run/u.lock" "/var/u.log" "/var/cur" "/var/prev" "systemctl stop a" "systemctl start a" "a check" " "
     "http://h/healthz" "http://h/readyz" true 0 0 (3 * Second) 0).

(** A host where the commands of [bad] fail and the health check answers [status]. *)
Definition ex_host (bad : list string) (deployment : DeployResult + string) (status : Z) : Host :=
  mkHost (λ cmd _, if mem cmd bad then Some "exit status 1" else None) (Some (λ _, deployment)) (λ _ _, inl status)
    (λ _, false) 7 (λ _, None) (λ _, None) (λ _, false) (λ _, false) (λ _, false) (λ _, None).

Definition ex_deploy : DeployResult + string := inl (mkDeploy "1.1.0" (Some (λ _, None))).
Definition ex_files : gmap string string := {["/var/cur" := "1.0.0" +:+ byte_of 10]}.
Definition ex_env : Env := mkEnv (λ n, Z.of_nat n * Second) (λ _, "").
Definition ex_run (io : Host) : outcome * nat * Run := run (Execute io ex_plan 20) ex_env 0 (mkRun ex_files [] [] []).

Lemma ex_clock : clock_passes ex_env.
Proof. intros t. exists (Z.to_nat t). intros m Hm. cbn. unfold Second. lia. Qed.

Lemma Execute_returns_witness : ∃ n, ∀ fuel, (n < fuel)%nat →
  is_Some (result (Execute (ex_host [] ex_deploy 503) ex_plan fuel) ex_env 0 (mkRun ex_files [] [] [])).
Proof. apply (Execute_returns (ex_host [] ex_deploy 503) ex_plan ex_env 0 (mkRun ex_files [] [] []) ex_clock). Defined.

Definition ex_summary (r : outcome * nat * Run) :=
  let '(o, _, r) := r in
  ((λ o, (upd_FailureReason o.1, upd_RolledBack o.1, upd_Committed o.1)) <$> o, log r, map_to_list (files r)).

Example ex_committed : ex_summary (ex_run (ex_host [] ex_deploy 200)) =
  (Some ("", false, true),
   [Ran "systemctl stop a" true; Deployed true; Ran "systemctl start a" true; Polled "http://h/healthz" true;
    Polled "http://h/readyz" true; Ran "a check" true],
   [("/var/cur", "1.1.0" +:+ byte_of 10); ("/var/prev", "1.0.0" +:+ byte_of 10)]).
Proof. vm_compute. reflexivity. Qed.

(** A version that does not come up is rolled back, and the old one started. *)
Example ex_rolled_back : ex_summary (ex_run (ex_host [] ex_deploy 503)) =
  (Some ("VERIFY_FAILED", true, false),
   [Ran "systemctl stop a" true; Deployed true; Ran "systemctl start a" true; Polled "http://h/healthz" false;
    Ran "systemctl stop a" true; Hooked true; Ran "systemctl start a" true],
   [("/var/cur", "1.0.0" +:+ byte_of 10)]).
Proof. vm_compute. reflexivity. Qed.

Definition ex_result (io : Host) : UpdateResult * list string :=
  default (mkUpdate 0 0 "" "" false false "" [], []) (ex_run io).1.1.


Lemma Execute_versions_witness :
  let io := ex_host [] ex_deploy 200 in
  let res := (ex_result io).1 in
  let r' := state (Execute io ex_plan 20) ex_env 0 (fresh ex_files [] []) in
  versions ex_plan res ex_files (files r') ∧ version_read (CurrentVersionPath ex_plan) (upd_OldVersion res) ex_files ∧
  (upd_Committed res = true → blank (upd_NewVersion res) = false) ∧
  (lock_path ex_plan ≠ "" → is_Some (ex_files !! lock_path ex_plan) → upd_FailureReason res = "LOCK_CONTENTION" ∧ log r' = []).
Proof.
  apply (Execute_versions (ex_host [] ex_deploy 200) ex_plan 20 ex_env 0 ex_files [] [] _ (ex_result (ex_host [] ex_deploy 200)).2).
  - vm_compute. reflexivity.
  - done.
  - done.
  - done.
Defined.

(** ** Examples *)

(** A failed deployment leaves the runtime stopped: it is neither rolled back nor
    started again. *)
Example failed_deploy_stays_stopped : ex_summary (ex_run (ex_host [] (inr "disk full") 200)) =
  (Some ("DEPLOY_FAILED", false, false), [Ran "systemctl stop a" true; Deployed false],
   [("/var/cur", "1.0.0" +:+ byte_of 10)]).
Proof. vm_compute. reflexivity. Qed.

(** A version file that cannot be written leaves the new version running under the
    name of the old one. *)
Example failed_commit_keeps_running :
  let host := ex_host [] ex_deploy 200 in
  let io := {| host with version_write := λ _, Some ("disk full", true) |} in
  ex_summary (ex_run io) =
  (Some ("COMMIT_FAILED", false, false),
   [Ran "systemctl stop a" true; Deployed true; Ran "systemctl start a" true; Polled "http://h/healthz" true;
    Polled "http://h/readyz" true; Ran "a check" true],
   [("/var/cur", "1.0.0" +:+ byte_of 10); ("/var/prev", "")]).
Proof. vm_compute. reflexivity. Qed.

(** Without a hook and a rollback command the version that failed is started again,
    and the update is reported as rolled back. *)
Example nothing_undone_is_rolled_back : ex_summary (ex_run (ex_host [] (inl (mkDeploy "1.1.0" None)) 503)) =
  (Some ("VERIFY_FAILED", true, false),
   [Ran "systemctl stop a" true; Deployed true; Ran "systemctl start a" true; Polled "http://h/healthz" false;
    Ran "systemctl stop a" true; Ran "systemctl start a" true],
   [("/var/cur", "1.0.0" +:+ byte_of 10)]).
Proof. vm_compute. reflexivity. Qed.
