(* ===== verification/FIFO.v ===== *)
(** * Bounded FIFO queue ([internal/mcp_faults/fifo.go])

    A queue with a fixed capacity and one drop policy, with the accounting the
    alarm reads from it: how many items were pushed, served and dropped, how
    deep the queue ever got, and which identities ever occupied a slot. *)

From Stdlib Require Import ZArith Lia.
From stdpp Require Import base tactics list gmap strings.
From stdpp Require Import list.
From S2P Require Import Prelude.

Open Scope Z_scope.

(** ** Data *)

Inductive DropPolicy := DropNewest | DropOldest.

Record FIFO := mkFIFO {
  capacity : Z;
  policy : DropPolicy;
  items : list string;
  dropped : Z;
  pushed : Z;
  served : Z;
  highMark : Z;
  observed : gmap string bool;
}.

(** ** Operations *)

Definition NewFIFO (capacity : Z) (policy : DropPolicy) : FIFO :=
  let capacity := if capacity <? 1 then 1 else capacity in
  mkFIFO capacity policy [] 0 0 0 0 ∅.

Definition FIFO_Len (f : FIFO) : Z := Z.of_nat (length (items f)).
Definition FIFO_Capacity (f : FIFO) : Z := capacity f.
Definition FIFO_HighWater (f : FIFO) : Z := highMark f.
Definition FIFO_Dropped (f : FIFO) : Z := dropped f.
Definition FIFO_Observed (f : FIFO) (id : string) : bool := default false (observed f !! id).

Definition noteHighMark (f : FIFO) : FIFO :=
  if FIFO_Len f >? highMark f
  then mkFIFO (capacity f) (policy f) (items f) (dropped f) (pushed f) (served f)
         (FIFO_Len f) (observed f)
  else f.

(** The accepting tail shared by both branches of [Push]: the new queue
    contents, the identity marked observed, the high-water mark refreshed. *)
Definition FIFO_accept (f : FIFO) (its : list string) (id : string) : FIFO :=
  noteHighMark
    (mkFIFO (capacity f) (policy f) (its ++ [id]) (dropped f) (pushed f) (served f)
       (highMark f) (<[id := true]> (observed f))).

Definition FIFO_Push (f : FIFO) (id : string) : FIFO * bool :=
  let f := mkFIFO (capacity f) (policy f) (items f) (dropped f) (pushed f + 1) (served f)
             (highMark f) (observed f) in
  if FIFO_Len f <? capacity f then (FIFO_accept f (items f) id, true)
  else
    let f := mkFIFO (capacity f) (policy f) (items f) (dropped f + 1) (pushed f) (served f)
               (highMark f) (observed f) in
    match policy f with
    | DropOldest => (FIFO_accept f (drop 1 (items f)) id, true)
    | DropNewest => (f, false)
    end.

Definition FIFO_Pop (f : FIFO) : FIFO * option string :=
  match items f with
  | [] => (f, None)
  | id :: rest =>
      (mkFIFO (capacity f) (policy f) rest (dropped f) (pushed f) (served f + 1)
         (highMark f) (observed f), Some id)
  end.

Fixpoint contains_item (l : list string) (id : string) : bool :=
  match l with
  | [] => false
  | item :: r => if streq item id then true else contains_item r id
  end.
Definition FIFO_Contains (f : FIFO) (id : string) : bool := contains_item (items f) id.

Fixpoint position_from (l : list string) (i : Z) (id : string) : Z :=
  match l with
  | [] => -1
  | item :: r => if streq item id then i else position_from r (i + 1) id
  end.
Definition FIFO_Position (f : FIFO) (id : string) : Z := position_from (items f) 0 id.

(** ** Runs *)

Inductive FIFO_op := OpPush (id : string) | OpPop.

(** One operation, with the item it accepted and the item it served. *)
Definition FIFO_step (f : FIFO) (op : FIFO_op) : FIFO * list string * list string :=
  match op with
  | OpPush id => let '(f', ok) := FIFO_Push f id in (f', if ok then [id] else [], [])
  | OpPop => let '(f', out) := FIFO_Pop f in (f', [], option_list out)
  end.

Fixpoint FIFO_run (f : FIFO) (ops : list FIFO_op) : FIFO * list string * list string :=
  match ops with
  | [] => (f, [], [])
  | op :: ops =>
      let '(f1, a1, o1) := FIFO_step f op in
      let '(f2, a2, o2) := FIFO_run f1 ops in
      (f2, a1 ++ a2, o1 ++ o2)
  end.

(** ** Invariant *)

Record FIFO_ok (f : FIFO) : Prop := {
  ok_capacity : 1 ≤ capacity f;
  ok_len : FIFO_Len f ≤ highMark f;
  ok_high : highMark f ≤ capacity f;
  ok_account : pushed f = served f + dropped f + FIFO_Len f;
  ok_nonneg : 0 ≤ served f ∧ 0 ≤ dropped f;
  ok_observed : ∀ id, id ∈ items f → FIFO_Observed f id = true;
}.

Lemma contains_item_spec l id : contains_item l id = true ↔ id ∈ l.
Proof.
  induction l as [|x l IH]; cbn.
  - split; [done|]. by intros ?%not_elem_of_nil.
  - rewrite elem_of_cons, <- IH. destruct (streq x id) eqn:E; go_bools; [by split; auto|].
    split; [by right|]. by intros [?|?].
Qed.

Lemma observed_insert f its id id' :
  FIFO_Observed (FIFO_accept f its id) id' = (streq id id' || FIFO_Observed f id').
Proof.
  unfold FIFO_Observed, FIFO_accept, noteHighMark.
  destruct (_ >? _); cbn; rewrite lookup_insert;
    case_decide; unfold streq; [by rewrite bool_decide_eq_true_2| |
      by rewrite bool_decide_eq_true_2|]; by rewrite bool_decide_eq_false_2.
Qed.

Lemma accept_fields f its id :
  let g := FIFO_accept f its id in
  capacity g = capacity f ∧ policy g = policy f ∧ items g = its ++ [id] ∧
  dropped g = dropped f ∧ pushed g = pushed f ∧ served g = served f ∧
  highMark g = Z.max (highMark f) (Z.of_nat (length its) + 1).
Proof.
  unfold FIFO_accept, noteHighMark, FIFO_Len. cbn.
  rewrite length_app. cbn [length].
  destruct (Z.gtb_spec (Z.of_nat (length its + 1)) (highMark f)); cbn; repeat split; lia.
Qed.

Lemma accept_ok f its id :
  1 ≤ capacity f → highMark f ≤ capacity f → 0 ≤ served f → 0 ≤ dropped f →
  Z.of_nat (length its) < capacity f →
  pushed f = served f + dropped f + Z.of_nat (length its) + 1 →
  (∀ x, x ∈ its → FIFO_Observed f x = true) →
  FIFO_ok (FIFO_accept f its id).
Proof.
  intros Hc Hh Hs Hd Hl Ha Ho.
  destruct (accept_fields f its id) as (Ec & Ep & Ei & Ed & Eq & Es & Em).
  constructor; unfold FIFO_Len; rewrite ?Ec, ?Ei, ?Ed, ?Eq, ?Es, ?Em, ?length_app;
    cbn [length]; try lia.
  intros x. rewrite elem_of_app, list_elem_of_singleton, observed_insert.
  intros [Hx| ->]; [by rewrite (Ho x Hx), orb_true_r|by rewrite streq_refl].
Qed.

Lemma NewFIFO_ok c p : FIFO_ok (NewFIFO c p).
Proof.
  unfold NewFIFO. destruct (Z.ltb_spec c 1); constructor; unfold FIFO_Len; cbn; try lia;
    by intros id ?%not_elem_of_nil.
Qed.

Lemma Push_ok f id : FIFO_ok f → FIFO_ok (FIFO_Push f id).1.
Proof.
  intros [Hc Hl Hh Ha [Hs Hd] Ho]. unfold FIFO_Push, FIFO_Len in *. cbn.
  destruct (Z.ltb_spec (Z.of_nat (length (items f))) (capacity f)) as [Hlt|Hge]; cbn.
  - apply accept_ok; cbn; auto; lia.
  - destruct (policy f); cbn.
    + constructor; unfold FIFO_Len; cbn; auto; lia.
    + assert (length (items f) = S (length (drop 1 (items f)))) as Hlen.
      { rewrite length_drop. lia. }
      apply accept_ok; cbn; auto; try lia.
      intros x Hx. apply Ho. destruct (items f); set_solver.
Qed.

Lemma Pop_ok f : FIFO_ok f → FIFO_ok (FIFO_Pop f).1.
Proof.
  intros Hok. unfold FIFO_Pop. destruct (items f) as [|x r] eqn:E; [done|].
  destruct Hok as [Hc Hl Hh Ha [Hs Hd] Ho].
  unfold FIFO_Len in *. rewrite E in *. cbn [length fst] in *.
  constructor; unfold FIFO_Len; cbn; try lia.
  intros y Hy. apply Ho. by right.
Qed.

#[export] Hint Resolve NewFIFO_ok Push_ok Pop_ok : go.

Lemma step_ok f op : FIFO_ok f → FIFO_ok (FIFO_step f op).1.1.
Proof.
  intros H. destruct op as [id|]; cbn.
  - pose proof (Push_ok f id H). by destruct (FIFO_Push f id).
  - pose proof (Pop_ok f H). by destruct (FIFO_Pop f).
Qed.

Lemma run_ok ops : ∀ f, FIFO_ok f → FIFO_ok (FIFO_run f ops).1.1.
Proof.
  induction ops as [|op ops IH]; intros f H; cbn; [done|].
  pose proof (step_ok f op H). destruct (FIFO_step f op) as [[f1 a1] o1].
  specialize (IH f1 H0). by destruct (FIFO_run f1 ops) as [[f2 a2] o2].
Qed.

(** One step of the queue moves items from the accepted sequence to the served
    one without reordering; only [DropOldest] may lose the head in between. *)
Lemma step_order f op :
  FIFO_ok f →
  let '(f', acc, out) := FIFO_step f op in
  policy f' = policy f ∧
  out ++ items f' `sublist_of` items f ++ acc ∧
  (policy f = DropNewest → out ++ items f' = items f ++ acc).
Proof.
  intros Hok. destruct op as [id|]; cbn.
  - unfold FIFO_Push, FIFO_Len; cbn. destruct (_ <? _); cbn.
    + destruct (accept_fields (mkFIFO (capacity f) (policy f) (items f) (dropped f)
        (pushed f + 1) (served f) (highMark f) (observed f)) (items f) id)
        as (_ & -> & -> & _). done.
    + destruct (policy f) eqn:Ep; cbn.
      * by rewrite app_nil_r.
      * destruct (accept_fields (mkFIFO (capacity f) DropOldest (items f) (dropped f + 1)
          (pushed f + 1) (served f) (highMark f) (observed f)) (drop 1 (items f)) id)
          as (_ & -> & -> & _). cbn.
        split; [done|]. split; [|done].
        apply sublist_app; [|done]. apply sublist_drop.
  - unfold FIFO_Pop. destruct (items f) as [|x r] eqn:E; cbn; rewrite ?E, ?app_nil_r; done.
Qed.

(** ** Properties *)

(** Whatever sequence of pushes and pops a queue built by [NewFIFO] goes
    through, its depth and its high-water mark never exceed the capacity, the
    books balance (every push was served, dropped or is still queued), and
    every queued identity is recorded as observed. *)
Theorem FIFO_run_invariant (c : Z) (p : DropPolicy) (ops : list FIFO_op) :
  let f := (FIFO_run (NewFIFO c p) ops).1.1 in
  FIFO_Len f ≤ FIFO_HighWater f ≤ FIFO_Capacity f ∧
  pushed f = served f + FIFO_Dropped f + FIFO_Len f ∧
  (∀ id, FIFO_Contains f id = true → FIFO_Observed f id = true).
Proof.
  destruct (run_ok ops (NewFIFO c p)) as [Hc Hl Hh Ha _ Ho]; [auto with go|].
  split; [done|]. split; [done|].
  intros id Hin. apply Ho. by apply contains_item_spec.
Qed.

(** The queue is first-in first-out. The items served over any run, followed
    by those still queued, are a subsequence in order of the items that were
    queued at the start followed by those accepted; under [DropNewest] nothing
    accepted is ever lost, so the two sequences are equal. *)
Theorem FIFO_run_order (f : FIFO) (ops : list FIFO_op) :
  FIFO_ok f →
  let '(f', accepted, out) := FIFO_run f ops in
  out ++ items f' `sublist_of` items f ++ accepted ∧
  (policy f = DropNewest → out ++ items f' = items f ++ accepted).
Proof.
  revert f. induction ops as [|op ops IH]; intros f Hok; cbn; [by rewrite app_nil_r|].
  pose proof (step_order f op Hok) as Hs. pose proof (step_ok f op Hok) as Hok1.
  destruct (FIFO_step f op) as [[f1 a1] o1]. destruct Hs as (Hp & Hsub & Heq).
  specialize (IH f1 Hok1). destruct (FIFO_run f1 ops) as [[f2 a2] o2].
  destruct IH as [IHsub IHeq]. rewrite <- !app_assoc, !(app_assoc (items f)). split.
  - trans (o1 ++ items f1 ++ a2); [by apply sublist_app|].
    rewrite app_assoc. by apply sublist_app.
  - intros Hn. rewrite IHeq by congruence. rewrite app_assoc. by rewrite Heq.
Qed.

Lemma FIFO_run_order_witness :
  FIFO_ok (NewFIFO 2 DropOldest) ∧
  let ops := [OpPush "a"; OpPush "b"; OpPush "c"; OpPop] in
  let '(f', accepted, out) := FIFO_run (NewFIFO 2 DropOldest) ops in
  out ++ items f' `sublist_of` items (NewFIFO 2 DropOldest) ++ accepted ∧
  (policy (NewFIFO 2 DropOldest) = DropNewest →
     out ++ items f' = items (NewFIFO 2 DropOldest) ++ accepted).
Proof. split; [apply NewFIFO_ok|apply FIFO_run_order, NewFIFO_ok]. Defined.

Example FIFO_run_ex :
  let '(f', accepted, out) :=
    FIFO_run (NewFIFO 2 DropOldest) [OpPush "a"; OpPush "b"; OpPush "c"; OpPop] in
  (items f', accepted, out) = (["c"], ["a"; "b"; "c"], ["b"]).
Proof. vm_compute. reflexivity. Qed.

(** [Position] and [Contains] agree, and a position names the slot the item
    occupies: a present item is at the index returned and at no earlier one. *)
Theorem FIFO_Position_spec (f : FIFO) (id : string) :
  (FIFO_Contains f id = false → FIFO_Position f id = -1) ∧
  (FIFO_Contains f id = true →
     ∃ i : nat, FIFO_Position f id = Z.of_nat i ∧ items f !! i = Some id ∧
       ∀ j, (j < i)%nat → items f !! j ≠ Some id).
Proof.
  unfold FIFO_Contains, FIFO_Position.
  assert (∀ k, (contains_item (items f) id = false → position_from (items f) k id = -1) ∧
    (contains_item (items f) id = true →
     ∃ i : nat, position_from (items f) k id = k + Z.of_nat i ∧ items f !! i = Some id ∧
       ∀ j, (j < i)%nat → items f !! j ≠ Some id)) as H; [|apply (H 0)].
  induction (items f) as [|x l IH]; intros k; cbn; [done|].
  destruct (streq x id) eqn:E; go_bools.
  - subst. split; [done|]. intros _. exists 0%nat. split; [lia|]. split; [done|]. lia.
  - destruct (IH (k + 1)) as [IH1 IH2]. split; [done|]. intros Hc.
    destruct (IH2 Hc) as (i & Hi & Hl & Hj). exists (S i). split; [lia|]. split; [done|].
    intros [|j] Hlt; cbn; [congruence|]. apply Hj. lia.
Qed.
