(* ===== verification/ClassQueue.v ===== *)
(** * Class-aware bounded queue ([internal/mcp_faults/class_queue.go])

    A bounded queue that knows the criticality of what it holds: a critical
    arrival at a full queue displaces the newest bulk entry, and the most
    critical entry is served first. *)

From Stdlib Require Import ZArith Lia.
From stdpp Require Import base tactics list gmap strings countable.
From stdpp Require Import list.
From S2P Require Import Prelude.

Open Scope Z_scope.

(** ** Data *)

Inductive Class := Critical | Interactive | Bulk.

#[global] Instance Class_eq_dec : EqDecision Class.
Proof. solve_decision. Defined.

(** The [iota] value of a class; the code orders classes by it. *)
Definition class_int (c : Class) : Z :=
  match c with Critical => 0 | Interactive => 1 | Bulk => 2 end.

#[global] Instance Class_countable : Countable Class.
Proof.
  apply (inj_countable' (λ c, match c with Critical => 0%nat | Interactive => 1%nat | Bulk => 2%nat end)
    (λ n, match n with O => Critical | 1%nat => Interactive | _ => Bulk end)).
  by intros [].
Defined.

Definition Class_String (c : Class) : string :=
  match c with Critical => "critical" | Interactive => "interactive" | Bulk => "bulk" end.

Record ClassedItem := mkItem { ID : string; item_class : Class }.

Record ClassedFIFO := mkClassed {
  capacity : Z;
  protect : bool;
  items : list ClassedItem;
  dropped : gmap Class Z;
  served : gmap Class Z;
  evicted : Z;
}.

(** ** Operations *)

Definition NewClassedFIFO (capacity : Z) (protectCritical : bool) : ClassedFIFO :=
  let capacity := if capacity <? 1 then 1 else capacity in
  mkClassed capacity protectCritical [] ∅ ∅ 0.

(** [m[c]++] on a Go map of counters. *)
Definition count_incr (c : Class) (m : gmap Class Z) : gmap Class Z :=
  <[c := default 0 (m !! c) + 1]> m.

(** [append(l[:i], l[i+1:]...)] *)
Definition remove_at {A} (i : nat) (l : list A) : list A := take i l ++ drop (S i) l.

(** The loop [for i := len(items)-1; i >= 0; i--] of [Push]: the last index
    below [n] that holds a bulk entry. *)
Fixpoint find_bulk (l : list ClassedItem) (n : nat) : option nat :=
  match n with
  | O => None
  | S i =>
      match l !! i with
      | Some it => if decide (item_class it = Bulk) then Some i else find_bulk l i
      | None => find_bulk l i
      end
  end.

Definition ClassedFIFO_Push (q : ClassedFIFO) (id : string) (class : Class) : ClassedFIFO * bool :=
  let refuse := (mkClassed (capacity q) (protect q) (items q) (count_incr class (dropped q))
                   (served q) (evicted q), false) in
  if Z.of_nat (length (items q)) <? capacity q then
    (mkClassed (capacity q) (protect q) (items q ++ [mkItem id class]) (dropped q) (served q)
       (evicted q), true)
  else if bool_decide (class = Critical) && protect q then
    match find_bulk (items q) (length (items q)) with
    | Some i =>
        (mkClassed (capacity q) (protect q) (remove_at i (items q) ++ [mkItem id class])
           (dropped q) (served q) (evicted q + 1), true)
    | None => refuse
    end
  else refuse.

(** The loop of [Pop]: scan [l], the suffix of [items] from index [i], keeping
    the index of the smallest class seen so far. *)
Fixpoint best_from (its l : list ClassedItem) (i best : nat) : nat :=
  match l with
  | [] => best
  | item :: r =>
      match its !! best with
      | Some b =>
          if class_int (item_class item) <? class_int (item_class b)
          then best_from its r (S i) i else best_from its r (S i) best
      | None => best_from its r (S i) best
      end
  end.

Definition ClassedFIFO_Pop (q : ClassedFIFO) : ClassedFIFO * option ClassedItem :=
  match items q with
  | [] => (q, None)
  | _ =>
      let best := best_from (items q) (items q) 0 0 in
      match items q !! best with
      | Some item =>
          (mkClassed (capacity q) (protect q) (remove_at best (items q)) (dropped q)
             (count_incr (item_class item) (served q)) (evicted q), Some item)
      | None => (q, None)
      end
  end.

Definition ClassedFIFO_Len (q : ClassedFIFO) : Z := Z.of_nat (length (items q)).
Definition ClassedFIFO_Dropped (q : ClassedFIFO) (c : Class) : Z := default 0 (dropped q !! c).
Definition ClassedFIFO_Served (q : ClassedFIFO) (c : Class) : Z := default 0 (served q !! c).
Definition ClassedFIFO_Evicted (q : ClassedFIFO) : Z := evicted q.

(** ** Runs *)

Inductive Classed_op := OpPush (id : string) (c : Class) | OpPop.

Definition Classed_step (q : ClassedFIFO) (op : Classed_op) : ClassedFIFO :=
  match op with
  | OpPush id c => (ClassedFIFO_Push q id c).1
  | OpPop => (ClassedFIFO_Pop q).1
  end.

Definition Classed_run : ClassedFIFO → list Classed_op → ClassedFIFO := foldl Classed_step.

(** How many items of class [c] are queued, and how many [ops] push. *)
Definition of_class (c : Class) (l : list ClassedItem) : list ClassedItem :=
  filter (λ it, item_class it = c) l.
Definition queued (c : Class) (q : ClassedFIFO) : Z := Z.of_nat (length (of_class c (items q))).
Definition pushed_class (op : Classed_op) : option Class :=
  match op with OpPush _ c => Some c | OpPop => None end.
Definition pushes (c : Class) (ops : list Classed_op) : Z :=
  Z.of_nat (length (filter (λ op, pushed_class op = Some c) ops)).

(** ** Lemmas *)

Lemma remove_at_split {A} (l : list A) i x :
  l !! i = Some x → l = take i l ++ x :: drop (S i) l.
Proof. intros H. symmetry. by apply take_drop_middle. Qed.

Lemma length_remove_at {A} (l : list A) i x :
  l !! i = Some x → length l = S (length (remove_at i l)).
Proof.
  intros H. rewrite (remove_at_split l i x H) at 1. unfold remove_at.
  rewrite !length_app. cbn [length]. lia.
Qed.

Lemma remove_at_filter (P : ClassedItem → Prop) `{∀ x, Decision (P x)} l i x :
  l !! i = Some x → ¬ P x → filter P (remove_at i l) = filter P l.
Proof.
  intros Hl Hx. rewrite (remove_at_split l i x Hl) at 2. unfold remove_at.
  rewrite !filter_app, filter_cons_False by done. done.
Qed.

Lemma remove_at_of_class c l i x :
  l !! i = Some x →
  length (of_class c l) =
    ((if decide (item_class x = c) then 1 else 0) + length (of_class c (remove_at i l)))%nat.
Proof.
  intros Hl. rewrite (remove_at_split l i x Hl) at 1. unfold remove_at, of_class.
  rewrite !filter_app, !length_app, filter_cons. case_decide; cbn [length]; lia.
Qed.

Lemma find_bulk_Some l n i :
  find_bulk l n = Some i →
  (i < n)%nat ∧ ∃ it, l !! i = Some it ∧ item_class it = Bulk ∧
  ∀ j it', (i < j < n)%nat → l !! j = Some it' → item_class it' ≠ Bulk.
Proof.
  induction n as [|n IH]; cbn; [done|]. intros H.
  assert (find_bulk l n = Some i →
    (∀ it', l !! n = Some it' → item_class it' ≠ Bulk) →
    (i < S n)%nat ∧ ∃ it, l !! i = Some it ∧ item_class it = Bulk ∧
    ∀ j it', (i < j < S n)%nat → l !! j = Some it' → item_class it' ≠ Bulk) as Hrec.
  { intros Hf Hn. destruct (IH Hf) as (Hlt & it & Hit & Hb & Hlast).
    split; [lia|]. exists it. split; [done|]. split; [done|].
    intros j it' Hj Hj'. destruct (decide (j = n)) as [->|]; [eauto|].
    eapply (Hlast j); [lia|done]. }
  destruct (l !! n) as [it|] eqn:E; [|apply Hrec; [done|]; by intros].
  case_decide as Hb; simplify_eq.
  - split; [lia|]. exists it. split; [done|]. split; [done|]. lia.
  - apply Hrec; [done|]. by intros it' [= <-].
Qed.

Lemma find_bulk_None l n :
  find_bulk l n = None → ∀ j it, (j < n)%nat → l !! j = Some it → item_class it ≠ Bulk.
Proof.
  induction n as [|n IH]; cbn; [lia|]. intros H j it Hj Hl.
  destruct (decide (j = n)) as [->|Hne].
  - rewrite Hl in H. by case_decide.
  - destruct (l !! n); [case_decide; [done|]|]; eapply IH; try done; lia.
Qed.

Lemma best_from_spec its : ∀ l i best b,
  its = take i its ++ l → (i ≤ length its)%nat → (best ≤ i)%nat →
  (best < length its)%nat → its !! best = Some b →
  (∀ j x, (j < i)%nat → its !! j = Some x →
     class_int (item_class b) ≤ class_int (item_class x) ∧
     ((j < best)%nat → class_int (item_class b) < class_int (item_class x))) →
  ∃ b', its !! best_from its l i best = Some b' ∧
    ∀ j x, its !! j = Some x →
      class_int (item_class b') ≤ class_int (item_class x) ∧
      ((j < best_from its l i best)%nat → class_int (item_class b') < class_int (item_class x)).
Proof.
  induction l as [|y l IH]; intros i best b Hsplit Hi Hbi Hbest Hb Hinv; cbn.
  - exists b. split; [done|]. intros j x Hx. apply (Hinv j x); [|done].
    apply lookup_lt_Some in Hx. rewrite Hsplit, app_nil_r, length_take in Hx. lia.
  - assert (its !! i = Some y) as Hy.
    { rewrite Hsplit, lookup_app_r; rewrite length_take; [|lia].
      by replace (i - i `min` length its)%nat with 0%nat by lia. }
    assert (its = take (S i) its ++ l) as Hsplit'.
    { rewrite (take_S_r its i y Hy), <- app_assoc. cbn. done. }
    pose proof (lookup_lt_Some _ _ _ Hy) as Hlt.
    rewrite Hb. destruct (Z.ltb_spec (class_int (item_class y)) (class_int (item_class b))) as [Hc|Hc].
    + apply (IH (S i) i y); [done|lia|lia|done|done|]. intros j x Hj Hx.
      destruct (decide (j = i)) as [->|Hne]; [simplify_eq; split; [lia|lia]|].
      destruct (Hinv j x) as [H1 H2]; [lia|done|]. split; [lia|]. lia.
    + apply (IH (S i) best b); [done|lia|lia|done|done|]. intros j x Hj Hx.
      destruct (decide (j = i)) as [->|Hne].
      * simplify_eq. split; lia.
      * apply (Hinv j x); [lia|done].
Qed.

Lemma best_from_0 its :
  its ≠ [] →
  ∃ b, its !! best_from its its 0 0 = Some b ∧
    ∀ j x, its !! j = Some x →
      class_int (item_class b) ≤ class_int (item_class x) ∧
      ((j < best_from its its 0 0)%nat → class_int (item_class b) < class_int (item_class x)).
Proof.
  intros Hne. destruct its as [|a its]; [done|].
  apply (best_from_spec (a :: its) (a :: its) 0 0 a); cbn; try done; lia.
Qed.

Lemma count_incr_lookup c c' m :
  default 0 (count_incr c m !! c') = default 0 (m !! c') + (if decide (c = c') then 1 else 0).
Proof. unfold count_incr. rewrite lookup_insert. case_decide; subst; cbn; lia. Qed.

Lemma queued_app c its it :
  Z.of_nat (length (of_class c (its ++ [it]))) =
  Z.of_nat (length (of_class c its)) + (if decide (item_class it = c) then 1 else 0).
Proof.
  unfold of_class. rewrite filter_app, length_app, filter_cons. case_decide; cbn; lia.
Qed.

Ltac queue_simpl :=
  cbn [fst snd capacity protect items dropped served evicted item_class ID].

(** The bulk entries displaced so far count once against [Bulk]. *)
Definition displaced (c : Class) (q : ClassedFIFO) : Z :=
  if decide (c = Bulk) then evicted q else 0.

(** What a class's books add up to. *)
Definition accounted (c : Class) (q : ClassedFIFO) : Z :=
  queued c q + ClassedFIFO_Served q c + ClassedFIFO_Dropped q c + displaced c q.

Lemma Push_accounted q id k c :
  accounted c (ClassedFIFO_Push q id k).1 =
  accounted c q + (if decide (k = c) then 1 else 0).
Proof.
  unfold accounted, queued, displaced, ClassedFIFO_Served, ClassedFIFO_Dropped, ClassedFIFO_Push.
  destruct (_ <? _); queue_simpl; [rewrite queued_app; queue_simpl; lia|].
  destruct (_ && _); queue_simpl; [|rewrite count_incr_lookup; lia].
  destruct (find_bulk _ _) as [i|] eqn:E; queue_simpl; [|rewrite count_incr_lookup; lia].
  apply find_bulk_Some in E as (_ & it & Hit & Hb & _).
  rewrite queued_app, (remove_at_of_class c _ _ _ Hit), Hb. queue_simpl.
  repeat case_decide; try congruence; lia.
Qed.

Lemma Pop_accounted q c : accounted c (ClassedFIFO_Pop q).1 = accounted c q.
Proof.
  unfold ClassedFIFO_Pop. destruct (items q) as [|a its] eqn:Eits; [done|].
  destruct (best_from_0 (a :: its)) as (b & Hb & _); [done|].
  rewrite Hb. unfold accounted, queued, displaced, ClassedFIFO_Served, ClassedFIFO_Dropped.
  rewrite Eits, (remove_at_of_class c _ _ _ Hb). queue_simpl.
  rewrite count_incr_lookup. repeat case_decide; lia.
Qed.

Lemma Push_len q id k :
  ClassedFIFO_Len q ≤ capacity q →
  ClassedFIFO_Len (ClassedFIFO_Push q id k).1 ≤ capacity (ClassedFIFO_Push q id k).1 ∧
  capacity (ClassedFIFO_Push q id k).1 = capacity q.
Proof.
  unfold ClassedFIFO_Len, ClassedFIFO_Push. intros H.
  destruct (Z.ltb_spec (Z.of_nat (length (items q))) (capacity q)); cbn.
  - rewrite length_app; cbn; lia.
  - destruct (_ && _); cbn; [|lia]. destruct (find_bulk _ _) as [i|] eqn:E; cbn; [|lia].
    apply find_bulk_Some in E as (_ & it & Hit & _).
    apply length_remove_at in Hit. rewrite length_app; cbn; lia.
Qed.

Lemma Pop_len q :
  ClassedFIFO_Len q ≤ capacity q →
  ClassedFIFO_Len (ClassedFIFO_Pop q).1 ≤ capacity (ClassedFIFO_Pop q).1 ∧
  capacity (ClassedFIFO_Pop q).1 = capacity q.
Proof.
  unfold ClassedFIFO_Len, ClassedFIFO_Pop. intros H.
  destruct (items q) as [|a its] eqn:Eits; cbn [fst]; [by rewrite Eits|].
  destruct (best_from_0 (a :: its)) as (b & Hb & _); [done|].
  rewrite Hb. apply length_remove_at in Hb. cbn in *. lia.
Qed.

Lemma pushes_cons c op ops :
  pushes c (op :: ops) = (if decide (pushed_class op = Some c) then 1 else 0) + pushes c ops.
Proof. unfold pushes. rewrite filter_cons. case_decide; cbn [length]; lia. Qed.

Lemma run_accounted c ops : ∀ q, accounted c (Classed_run q ops) = accounted c q + pushes c ops.
Proof.
  induction ops as [|op ops IH]; intros q.
  { unfold pushes, Classed_run. cbn [foldl filter list_filter length]. lia. }
  change (Classed_run q (op :: ops)) with (Classed_run (Classed_step q op) ops).
  rewrite IH, pushes_cons.
  destruct op as [id k|]; cbn [Classed_step pushed_class];
    rewrite ?Push_accounted, ?Pop_accounted; repeat case_decide; try congruence; lia.
Qed.

Lemma run_len ops : ∀ q,
  ClassedFIFO_Len q ≤ capacity q →
  ClassedFIFO_Len (Classed_run q ops) ≤ capacity (Classed_run q ops) ∧
  capacity (Classed_run q ops) = capacity q.
Proof.
  induction ops as [|op ops IH]; intros q H; [done|].
  assert (ClassedFIFO_Len (Classed_step q op) ≤ capacity (Classed_step q op) ∧
    capacity (Classed_step q op) = capacity q) as [H1 H2].
  { destruct op; [by apply Push_len|by apply Pop_len]. }
  destruct (IH _ H1) as [H3 H4]. cbn in *. split; [done|]. etrans; eauto.
Qed.

(** ** Properties *)

(** Protection of critical work. With the protecting discipline, a critical
    arrival is refused only by a full queue that holds no bulk entry at all;
    no push of any class ever removes a queued critical or interactive entry
    (the non-bulk entries keep their order), and an admitted arrival is the new
    tail of the queue. *)
Theorem ClassedFIFO_Push_protects (q : ClassedFIFO) (id : string) (k : Class) :
  let '(q', ok) := ClassedFIFO_Push q id k in
  (ok = false → protect q = true → k = Critical →
     capacity q ≤ ClassedFIFO_Len q ∧ of_class Bulk (items q) = []) ∧
  (ok = true → ∃ kept, items q' = kept ++ [mkItem id k] ∧
     filter (λ it, item_class it ≠ Bulk) kept = filter (λ it, item_class it ≠ Bulk) (items q)) ∧
  (ok = false → items q' = items q).
Proof.
  unfold ClassedFIFO_Push, ClassedFIFO_Len.
  destruct (Z.ltb_spec (Z.of_nat (length (items q))) (capacity q)) as [Hlt|Hfull].
  { split; [done|]. split; [|done]. intros _. by exists (items q). }
  destruct (bool_decide (k = Critical) && protect q) eqn:Hc; cbn.
  - destruct (find_bulk _ _) as [i|] eqn:E.
    + split; [done|]. split; [|done]. intros _. eexists. split; [done|].
      apply find_bulk_Some in E as (_ & it & Hit & Hb & _).
      apply (remove_at_filter _ _ _ it); [done|]. by intros Hn.
    + split; [|done]. intros _ _ _. split; [done|].
      destruct (of_class Bulk (items q)) as [|it r] eqn:F; [done|]. exfalso.
      assert (it ∈ of_class Bulk (items q)) as Hin by (rewrite F; left).
      apply list_elem_of_filter in Hin as [Hb Hin].
      apply list_elem_of_lookup in Hin as [j Hj].
      exact (find_bulk_None _ _ E j it (lookup_lt_Some _ _ _ Hj) Hj Hb).
  - split; [|done]. intros _ Hp ->. by rewrite Hp, bool_decide_eq_true_2 in Hc.
Qed.

(** [Pop] serves the most critical entry, and among equally critical ones
    the oldest: nothing left in the queue is more critical, nothing that was
    ahead of it was as critical, and the rest keeps its order. *)
Theorem ClassedFIFO_Pop_spec (q : ClassedFIFO) :
  match ClassedFIFO_Pop q with
  | (q', None) => items q = [] ∧ q' = q
  | (q', Some item) =>
      ∃ before after, items q = before ++ item :: after ∧ items q' = before ++ after ∧
        (∀ x, x ∈ before → class_int (item_class item) < class_int (item_class x)) ∧
        (∀ x, x ∈ after → class_int (item_class item) ≤ class_int (item_class x)) ∧
        ClassedFIFO_Served q' (item_class item) = ClassedFIFO_Served q (item_class item) + 1
  end.
Proof.
  unfold ClassedFIFO_Pop. destruct (items q) as [|a its] eqn:Eits; [done|].
  destruct (best_from_0 (a :: its)) as (b & Hb & Hmin); [done|].
  rewrite Hb. set (n := best_from (a :: its) (a :: its) 0 0) in *.
  exists (take n (a :: its)), (drop (S n) (a :: its)).
  split; [by apply remove_at_split|]. split; [done|]. split; [|split].
  - intros x Hx. apply list_elem_of_lookup in Hx as [j Hj].
    apply lookup_take_Some in Hj as [Hj Hlt]. by apply (Hmin j x).
  - intros x Hx. apply list_elem_of_lookup in Hx as [j Hj].
    rewrite lookup_drop in Hj. by apply (Hmin (S n + j)%nat x).
  - unfold ClassedFIFO_Served. cbn [served]. rewrite count_incr_lookup.
    by rewrite decide_True.
Qed.

(** Over any run from an empty queue the depth stays within the capacity and
    every class's books balance: each push of the class is still queued, was
    served, was refused, or (bulk only) was displaced by a critical arrival. *)
Theorem Classed_run_conservation (cap : Z) (prot : bool) (ops : list Classed_op) (c : Class) :
  let q := Classed_run (NewClassedFIFO cap prot) ops in
  ClassedFIFO_Len q ≤ Z.max 1 cap ∧
  pushes c ops = queued c q + ClassedFIFO_Served q c + ClassedFIFO_Dropped q c +
                 (if decide (c = Bulk) then ClassedFIFO_Evicted q else 0).
Proof.
  cbn zeta. split.
  - assert (ClassedFIFO_Len (NewClassedFIFO cap prot) ≤ capacity (NewClassedFIFO cap prot) ∧
      capacity (NewClassedFIFO cap prot) = Z.max 1 cap) as [H0 H1].
    { unfold NewClassedFIFO, ClassedFIFO_Len. destruct (Z.ltb_spec cap 1); cbn; lia. }
    destruct (run_len ops _ H0). lia.
  - pose proof (run_accounted c ops (NewClassedFIFO cap prot)) as H.
    assert (accounted c (NewClassedFIFO cap prot) = 0) as H0.
    { unfold accounted, displaced, ClassedFIFO_Served, ClassedFIFO_Dropped, queued. cbn.
      rewrite lookup_empty. by case_decide. }
    rewrite H0 in H. unfold accounted, displaced in H. unfold ClassedFIFO_Evicted. lia.
Qed.
