(* ===== verification/AlarmTumble.v ===== *)
(** * Conditional rotation chain ([internal/mcp_faults/alarm_tumble.go])

    One ingress's alarm chain: an accepted alarm advances it, a refused alarm
    changes only the refusal counters. All counters are Go [int]s and the chain
    is an [int64]; increments and the skew wrap as they do in Go. *)

From Stdlib Require Import ZArith Lia.
From stdpp Require Import base tactics strings.
From stdpp Require Import list.
From S2P Require Import Prelude.

Open Scope Z_scope.

(** ** Data *)

Inductive AlarmKind := PlainAlias | Isotoped.

#[global] Instance AlarmKind_eq_dec : EqDecision AlarmKind.
Proof. solve_decision. Defined.

Definition AlarmKind_String (k : AlarmKind) : string :=
  if decide (k = Isotoped) then "isotoped" else "plain-alias".

Record AlarmTumble := mkTumble {
  name : string;
  chain : Z;
  tolerance : Z;
  accepted : Z;
  refused : Z;
  rotated : Z;
  tooNew : Z;
}.

(** ** Operations *)

Definition NewAlarmTumble (name : string) (tolerance : Z) : AlarmTumble :=
  let tolerance := if tolerance <? 0 then 0 else tolerance in
  mkTumble name 0 tolerance 0 0 0 0.

Definition incr (n : Z) : Z := wrap_i64 (n + 1).

Definition allowed (t : AlarmTumble) (kind : AlarmKind) : Z :=
  if decide (kind = PlainAlias) then 0 else tolerance t.

Definition AlarmTumble_Offer (t : AlarmTumble) (ref : Z) (kind : AlarmKind)
  : AlarmTumble * bool * Z :=
  let skew := wrap_i64 (chain t - ref) in
  if skew <? 0 then
    (mkTumble (name t) (chain t) (tolerance t) (accepted t) (incr (refused t)) (rotated t)
       (incr (tooNew t)), false, skew)
  else if skew >? allowed t kind then
    (mkTumble (name t) (chain t) (tolerance t) (accepted t) (incr (refused t)) (rotated t)
       (tooNew t), false, skew)
  else
    (mkTumble (name t) (incr (chain t)) (tolerance t) (incr (accepted t)) (refused t)
       (incr (rotated t)) (tooNew t), true, skew).

(** ** Runs: the alarms offered in order, with the verdicts they got. *)

Definition alarm : Type := Z * AlarmKind.

Definition offer (t : AlarmTumble) (a : alarm) : AlarmTumble :=
  (AlarmTumble_Offer t a.1 a.2).1.1.
Definition accepts (t : AlarmTumble) (a : alarm) : bool :=
  (AlarmTumble_Offer t a.1 a.2).1.2.

Definition offers : AlarmTumble → list alarm → AlarmTumble := foldl offer.

(** The sublist of alarms that were accepted. *)
Fixpoint well_behaved (t : AlarmTumble) (l : list alarm) : list alarm :=
  match l with
  | [] => []
  | a :: l => if accepts t a then a :: well_behaved (offer t a) l else well_behaved (offer t a) l
  end.

(** The verdicts, in order. *)
Fixpoint verdicts (t : AlarmTumble) (l : list alarm) : list bool :=
  match l with
  | [] => []
  | a :: l => accepts t a :: verdicts (offer t a) l
  end.

(** ** Invariant *)

Record tumble_ok (t : AlarmTumble) : Prop := {
  chain_accepted : chain t = accepted t;
  chain_rotated : chain t = rotated t;
  chain_range : in_i64 (chain t);
  tolerance_nonneg : 0 ≤ tolerance t < two63;
}.

Lemma NewAlarmTumble_ok n tol : tol < two63 → tumble_ok (NewAlarmTumble n tol).
Proof.
  intros H. unfold NewAlarmTumble. destruct (Z.ltb_spec tol 0); constructor; cbn;
    unfold in_i64, two63 in *; lia.
Qed.

Lemma Offer_ok t ref k : tumble_ok t → tumble_ok (AlarmTumble_Offer t ref k).1.1.
Proof.
  intros [H1 H2 H3 H4]. unfold AlarmTumble_Offer.
  destruct (_ <? 0); [|destruct (_ >? _)]; constructor; cbn; try done; unfold incr;
    [congruence..|apply wrap_i64_range].
Qed.

Lemma offers_ok l : ∀ t, tumble_ok t → tumble_ok (offers t l).
Proof. induction l as [|a l IH]; intros t H; cbn; [done|]. apply IH, Offer_ok, H. Qed.

#[export] Hint Resolve NewAlarmTumble_ok Offer_ok offers_ok : go.

Lemma allowed_range t k : tumble_ok t → 0 ≤ allowed t k < two63.
Proof. intros [_ _ _ H]. unfold allowed, two63 in *. case_decide; lia. Qed.

(** What an alarm can observe of the ingress. *)
Definition same_route (t t' : AlarmTumble) : Prop :=
  chain t = chain t' ∧ tolerance t = tolerance t'.

#[global] Instance same_route_equiv : Equivalence same_route.
Proof.
  split; unfold same_route.
  - by intros t.
  - by intros t t' [-> ->].
  - by intros t t' t'' [-> ->].
Qed.

#[global] Instance accepts_proper : Proper (same_route ==> eq ==> eq) accepts.
Proof.
  intros t t' [Hc Ht] a _ <-. unfold accepts, AlarmTumble_Offer, allowed. rewrite Hc, Ht.
  by destruct (_ <? 0); [|destruct (_ >? _)].
Qed.

#[global] Instance offer_proper : Proper (same_route ==> eq ==> same_route) offer.
Proof.
  intros t t' [Hc Ht] a _ <-. unfold offer, AlarmTumble_Offer, same_route, allowed.
  rewrite Hc, Ht. by destruct (_ <? 0); [|destruct (_ >? _)].
Qed.

#[global] Instance offers_proper : Proper (same_route ==> eq ==> same_route) offers.
Proof.
  intros t t' Ht l _ <-. revert t t' Ht. induction l as [|a l IH]; intros t t' Ht; cbn; [done|].
  apply IH. by rewrite Ht.
Qed.

Lemma refused_inert t a : accepts t a = false → same_route (offer t a) t.
Proof.
  unfold accepts, offer, same_route, AlarmTumble_Offer.
  by destruct (_ <? 0); [|destruct (_ >? _)].
Qed.

Lemma verdicts_ext l : ∀ t t', same_route t t' → verdicts t l = verdicts t' l.
Proof.
  induction l as [|a l IH]; intros t t' H; cbn; [done|].
  rewrite (IH (offer t a) (offer t' a)) by (by rewrite H). by rewrite H.
Qed.

Lemma verdicts_well_behaved l : ∀ t,
  verdicts t (well_behaved t l) = repeat true (length (well_behaved t l)) ∧
  same_route (offers t l) (offers t (well_behaved t l)).
Proof.
  induction l as [|a l IH]; intros t; cbn; [done|].
  destruct (IH (offer t a)) as [IHv IHs]. destruct (accepts t a) eqn:E; cbn.
  - rewrite E, IHv. done.
  - apply refused_inert in E. assert (∀ l', same_route (offers (offer t a) l') (offers t l')) as Ho.
    { intros l'. by rewrite E. }
    rewrite (verdicts_ext _ t (offer t a)) by done. split; [done|]. by rewrite IHs, Ho.
Qed.

(** ** Properties *)

(** [Offer] accepts exactly the alarms that name the current chain, or (for
    an isotoped alarm) one at most [tolerance] rotations behind it, for every
    int64 reference: the skew is computed with wrap-around, and no reference,
    however negative or large, is accepted because the subtraction overflowed.
    Acceptance advances the chain by exactly one; refusal leaves the chain, the
    accepted and the rotated counters alone. *)
Theorem AlarmTumble_Offer_spec (t : AlarmTumble) (ref : Z) (kind : AlarmKind) :
  tumble_ok t → 0 ≤ chain t → in_i64 ref →
  let '(t', ok, _) := AlarmTumble_Offer t ref kind in
  (ok = true ↔ 0 ≤ chain t - ref ≤ allowed t kind) ∧
  (ok = true → chain t' = incr (chain t) ∧ accepted t' = chain t' ∧ rotated t' = chain t') ∧
  (ok = false → chain t' = chain t ∧ accepted t' = accepted t ∧ rotated t' = rotated t ∧
     refused t' = incr (refused t)).
Proof.
  intros Hok Hc Hr. pose proof (allowed_range t kind Hok) as Ha.
  destruct Hok as [H1 H2 [_ H3] _].
  assert (wrap_i64 (chain t - ref) = chain t - ref ∨
    (wrap_i64 (chain t - ref) < 0 ∧ two63 ≤ chain t - ref)) as Hw.
  { destruct (decide (chain t - ref < two63)).
    - left. apply wrap_i64_id. unfold in_i64, two63 in *. lia.
    - right. rewrite wrap_i64_over; unfold in_i64, two63, two64 in *; lia. }
  unfold AlarmTumble_Offer. destruct (Z.ltb_spec (wrap_i64 (chain t - ref)) 0) as [Hn|Hn].
  { split; [split; [done|]|done]. unfold two63 in *. lia. }
  destruct Hw as [Hw|[? _]]; [|lia]. rewrite Hw in *.
  destruct (Z.gtb_spec (chain t - ref) (allowed t kind)); cbn.
  - split; [split; [done|lia]|done].
  - split; [split; [lia|done]|]. split; [|done]. intros _. rewrite <- H1, <- H2. done.
Qed.

Lemma AlarmTumble_Offer_spec_witness :
  tumble_ok (NewAlarmTumble "a" 1) ∧
  let '(t', ok, _) := AlarmTumble_Offer (NewAlarmTumble "a" 1) (- two63) Isotoped in
  (ok = true ↔ 0 ≤ chain (NewAlarmTumble "a" 1) - - two63 ≤ allowed (NewAlarmTumble "a" 1) Isotoped) ∧
  (ok = true → chain t' = incr (chain (NewAlarmTumble "a" 1)) ∧ accepted t' = chain t' ∧
     rotated t' = chain t') ∧
  (ok = false → chain t' = chain (NewAlarmTumble "a" 1) ∧
     accepted t' = accepted (NewAlarmTumble "a" 1) ∧
     rotated t' = rotated (NewAlarmTumble "a" 1) ∧
     refused t' = incr (refused (NewAlarmTumble "a" 1))).
Proof.
  assert (tumble_ok (NewAlarmTumble "a" 1)) as H by (apply NewAlarmTumble_ok; unfold two63; lia).
  split; [exact H|]. apply (AlarmTumble_Offer_spec _ _ _ H); [cbn; lia|].
  unfold in_i64, two63. lia.
Defined.

(** A flood is inert. Deleting every refused alarm from any sequence of
    alarms leaves all the remaining ones accepted and the chain where it was:
    spam can neither advance the chain nor change the fate of a well-behaved
    alarm. *)
Theorem AlarmTumble_flood_inert (t : AlarmTumble) (l : list alarm) :
  verdicts t (well_behaved t l) = repeat true (length (well_behaved t l)) ∧
  chain (offers t l) = chain (offers t (well_behaved t l)).
Proof. destruct (verdicts_well_behaved l t) as [Hv [Hc _]]. done. Qed.

(** The documented precondition "tolerance must be 0 or 1" is not enforced:
    the constructor clamps negative tolerances only, so a chain built with any
    non-negative tolerance accepts an isotoped alarm exactly that far behind. *)
Lemma NewAlarmTumble_unbounded_tolerance (n : string) (tol : Z) :
  0 ≤ tol < two63 →
  tolerance (NewAlarmTumble n tol) = tol ∧
  accepts (NewAlarmTumble n tol) (- tol, Isotoped) = true.
Proof.
  intros Ht. unfold NewAlarmTumble, accepts, AlarmTumble_Offer, allowed. cbn.
  destruct (Z.ltb_spec tol 0) as [?|_]; [lia|].
  cbn [chain tolerance]. split; [done|]. rewrite decide_False by done. cbn [fst snd].
  replace (0 - - tol) with tol by lia.
  rewrite (wrap_i64_id tol) by (unfold in_i64, two63 in *; lia).
  destruct (Z.ltb_spec tol 0); [lia|]. destruct (Z.gtb_spec tol tol); [lia|done].
Qed.
