(* ===== verification/PadStack.v ===== *)
(** * Pads, pending requests, route keys and verdicts

    ([internal/mcp_faults/pad_stack.go], [route_key.go], [verdict.go]) A request
    accumulates pads in the order the layers emitted them; an accepted request
    waits in a queue until a slower resolver decides whether to trust it. *)

From Stdlib Require Import ZArith Lia Ascii.
From stdpp Require Import base tactics strings pretty.
From stdpp Require Import list.
From S2P Require Import Prelude.

Open Scope Z_scope.

(** ** Route keys *)

Record RouteKey := mkRouteKey { Address : string; Claimant : string; Epoch : Z }.

#[global] Instance RouteKey_eq_dec : EqDecision RouteKey.
Proof. solve_decision. Defined.

Definition RouteKey_String (k : RouteKey) : string :=
  Address k +:+ "@" +:+ Claimant k +:+ "#" +:+ Itoa (Epoch k).

Definition RouteKey_Matches (k other : RouteKey) : bool := bool_decide (k = other).

(** ** Pads *)

Record Pad := mkPad { Layer : string; Queue : string; Seq : Z; pad_ID : string }.

#[global] Instance Pad_eq_dec : EqDecision Pad.
Proof. solve_decision. Defined.

Record PadStack := mkPadStack { pads : list Pad }.

Definition PadStack_Push (s : PadStack) (pad : Pad) : PadStack * Pad :=
  let pad := mkPad (Layer pad) (Queue pad) (Z.of_nat (length (pads s))) (pad_ID pad) in
  (mkPadStack (pads s ++ [pad]), pad).

Definition PadStack_Top (s : PadStack) : option Pad := last (pads s).
Definition PadStack_Len (s : PadStack) : Z := Z.of_nat (length (pads s)).
Definition PadStack_Pads (s : PadStack) : list Pad := pads s.

Definition PadStack_Truncate (s : PadStack) (n : Z) : PadStack :=
  let n := if n <? 0 then 0 else n in
  let n := if n >? PadStack_Len s then PadStack_Len s else n in
  mkPadStack (take (Z.to_nat n) (pads s)).

Fixpoint pads_equal (a b : list Pad) : bool :=
  match a, b with
  | x :: a, y :: b => if decide (x = y) then pads_equal a b else false
  | _, _ => true
  end.
Definition PadStack_Equal (s other : PadStack) : bool :=
  if bool_decide (length (pads s) = length (pads other)) then pads_equal (pads s) (pads other)
  else false.

Definition PadStack_pushes : PadStack → list Pad → PadStack :=
  foldl (λ s p, (PadStack_Push s p).1).

(** ** Pending requests *)

Record Pending := mkPending {
  Key : RouteKey;
  Call : string;
  Stack : PadStack;
  N : Z;
  Answer : bool;
  AcceptedAt : Time;
}.

Record PendingQueue := mkPendingQueue { pending : list Pending }.

Definition PendingQueue_Enqueue (q : PendingQueue) (p : Pending) : PendingQueue :=
  mkPendingQueue (pending q ++ [p]).
Definition PendingQueue_Len (q : PendingQueue) : Z := Z.of_nat (length (pending q)).
Definition PendingQueue_Unresolved (q : PendingQueue) : Z := Z.of_nat (length (pending q)).

Definition PendingQueue_Verify (q : PendingQueue) (resolve : Pending → bool)
  : PendingQueue * (Z * Z) :=
  (mkPendingQueue [],
   foldl (λ '(trusted, untrusted) item,
     if resolve item then (trusted + 1, untrusted) else (trusted, untrusted + 1))
     (0, 0) (pending q)).

(** ** Verdicts *)

Definition VerdictTrusted : string := "trusted".
Definition VerdictUntrusted : string := "untrusted".
Definition VerdictUnexamined : string := "unexamined".

Definition Classify (admitted trusted : bool) : string :=
  if negb admitted then VerdictUnexamined
  else if trusted then VerdictTrusted
  else VerdictUntrusted.

Definition Verdict_Resolved (v : string) : bool := negb (streq v VerdictUnexamined).

(** ** Lemmas *)

(** Every pad sits at the position it was given. *)
Definition well_numbered (s : PadStack) : Prop :=
  ∀ i p, pads s !! i = Some p → Seq p = Z.of_nat i.

Lemma Push_well_numbered s p : well_numbered s → well_numbered (PadStack_Push s p).1.
Proof.
  unfold well_numbered. intros H i q. cbn. rewrite lookup_app.
  destruct (pads s !! i) eqn:E; [intros [= <-]; eauto|].
  apply lookup_ge_None in E. intros Hq. apply list_lookup_singleton_Some in Hq as [Hi <-].
  cbn. lia.
Qed.

Lemma pushes_well_numbered ps : ∀ s, well_numbered s → well_numbered (PadStack_pushes s ps).
Proof. induction ps as [|p ps IH]; intros s H; cbn; [done|]. by apply IH, Push_well_numbered. Qed.

Lemma PadStack_pushes_cons s p ps :
  PadStack_pushes s (p :: ps) = PadStack_pushes (PadStack_Push s p).1 ps.
Proof. done. Qed.

Lemma length_pushes ps : ∀ s, length (pads (PadStack_pushes s ps)) = (length (pads s) + length ps)%nat.
Proof.
  induction ps as [|p ps IH]; intros s; [cbn; lia|].
  rewrite PadStack_pushes_cons, IH. cbn. rewrite length_app. cbn. lia.
Qed.

Lemma pushes_prefix ps : ∀ s, pads s `prefix_of` pads (PadStack_pushes s ps).
Proof.
  induction ps as [|p ps IH]; intros s; [done|]. rewrite PadStack_pushes_cons.
  trans (pads (PadStack_Push s p).1); [by eexists|apply IH].
Qed.

Lemma pushes_app s ps qs :
  PadStack_pushes s (ps ++ qs) = PadStack_pushes (PadStack_pushes s ps) qs.
Proof. apply foldl_app. Qed.

Lemma Truncate_take s n : PadStack_Truncate s n = mkPadStack (take (Z.to_nat n) (pads s)).
Proof.
  unfold PadStack_Truncate, PadStack_Len. f_equal.
  destruct (Z.ltb_spec n 0);
    [destruct (Z.gtb_spec 0 (Z.of_nat (length (pads s))))
    |destruct (Z.gtb_spec n (Z.of_nat (length (pads s))))];
    try lia; try (by replace (Z.to_nat n) with 0%nat by lia); [|done].
  by rewrite !take_ge by lia.
Qed.

Lemma take_pushes ps m s :
  take (length (pads s) + m) (pads (PadStack_pushes s ps)) =
  pads (PadStack_pushes s (take m ps)).
Proof.
  rewrite <- (take_drop m ps) at 1. rewrite pushes_app.
  destruct (pushes_prefix (drop m ps) (PadStack_pushes s (take m ps))) as [k Hk].
  rewrite Hk. pose proof (length_pushes (take m ps) s) as Hl. rewrite length_take in Hl.
  destruct (decide (m ≤ length ps)%nat).
  - rewrite take_app_le, take_ge by lia. done.
  - rewrite drop_ge in Hk by lia. assert (k = []) as ->.
    { apply (f_equal length) in Hk. rewrite length_app in Hk. destruct k; cbn in *; [done|lia]. }
    rewrite app_nil_r, take_ge by lia. done.
Qed.

Lemma pads_equal_spec a : ∀ b, length a = length b → pads_equal a b = true ↔ a = b.
Proof.
  induction a as [|x a IH]; intros [|y b] Hl; cbn; simplify_eq/=; [done|].
  case_decide as Hxy; [subst; rewrite IH by done|]; split; congruence.
Qed.

Lemma verify_fold (resolve : Pending → bool) (l : list Pending) : ∀ t u,
  foldl (λ '(trusted, untrusted) item,
     if resolve item then (trusted + 1, untrusted) else (trusted, untrusted + 1)) (t, u) l =
  (t + Z.of_nat (length (filter (λ p : Pending, resolve p = true) l)),
   u + Z.of_nat (length (filter (λ p : Pending, resolve p = false) l))).
Proof.
  induction l as [|p l IH]; intros t u; [cbn; f_equal; lia|].
  cbn [foldl]. rewrite !filter_cons. destruct (resolve p) eqn:E; rewrite IH;
    [rewrite decide_True, decide_False by done|rewrite decide_False, decide_True by done];
    cbn [length]; f_equal; lia.
Qed.

(** ** Properties *)

(** Pressure truncates, it does not subtract. Cutting a run of pushes to its
    first [n] pads gives exactly the stack a quieter run would have produced by
    pushing the first [n] pads only, positions included; and every pad of such a
    stack carries its own position. *)
Theorem PadStack_Truncate_quiet_run (ps : list Pad) (n : Z) :
  PadStack_Truncate (PadStack_pushes (mkPadStack []) ps) n =
    PadStack_pushes (mkPadStack []) (take (Z.to_nat n) ps) ∧
  (∀ i p, pads (PadStack_Truncate (PadStack_pushes (mkPadStack []) ps) n) !! i = Some p →
     Seq p = Z.of_nat i).
Proof.
  rewrite Truncate_take, (take_pushes ps (Z.to_nat n) (mkPadStack []) :
    take (Z.to_nat n) _ = _).
  assert (∀ t, mkPadStack (pads t) = t) as -> by (by intros []).
  split; [done|]. by apply pushes_well_numbered.
Qed.

(** Two stacks are [Equal] exactly when they are the same sequence of pads,
    order and repetitions included. *)
Theorem PadStack_Equal_iff (s t : PadStack) : PadStack_Equal s t = true ↔ s = t.
Proof.
  destruct s as [a], t as [b]. unfold PadStack_Equal. cbn.
  case_bool_decide as Hl.
  - rewrite pads_equal_spec by done. naive_solver.
  - split; [done|]. intros [= ->]. done.
Qed.

(** Draining the queue gives every accepted request exactly one verdict: the
    two counts are the requests the resolver trusted and those it did not, they
    add up to what was unresolved, and nothing stays queued. *)
Theorem PendingQueue_Verify_spec (q : PendingQueue) (resolve : Pending → bool) :
  let '(q', (trusted, untrusted)) := PendingQueue_Verify q resolve in
  PendingQueue_Unresolved q' = 0 ∧
  trusted + untrusted = PendingQueue_Unresolved q ∧
  trusted = Z.of_nat (length (filter (λ p,
    Classify true (resolve p) = VerdictTrusted) (pending q))).
Proof.
  unfold PendingQueue_Verify. rewrite (verify_fold resolve (pending q) 0 0).
  split; [done|]. unfold PendingQueue_Unresolved. split.
  - rewrite !Z.add_0_l. induction (pending q) as [|p l IH]; [done|].
    rewrite !filter_cons. destruct (resolve p); cbn [length];
      [rewrite decide_True, decide_False by done|rewrite decide_False, decide_True by done];
      cbn [length]; lia.
  - rewrite Z.add_0_l. do 2 f_equal. apply list_filter_iff. intros p.
    unfold Classify. destruct (resolve p); naive_solver.
Qed.

(** The rendered key identifies the route whenever the address carries no
    ["@"] and the claimant no ["#"]: two such keys with the same rendering are
    the same (address, claimant, epoch) triple. *)
Theorem RouteKey_String_inj (k l : RouteKey) :
  has_byte "@" (Address k) = false → has_byte "@" (Address l) = false →
  has_byte "#" (Claimant k) = false → has_byte "#" (Claimant l) = false →
  RouteKey_String k = RouteKey_String l → RouteKey_Matches k l = true.
Proof.
  intros Ha Hb Hc Hd Heq. destruct k as [a c e], l as [b d f]. unfold RouteKey_String in Heq.
  cbn in *. apply (sep_inj "@"%char) in Heq as [-> Heq]; [|done..].
  apply (sep_inj "#"%char) in Heq as [-> Heq]; [|done..].
  apply (inj _) in Heq as ->. by apply bool_decide_eq_true.
Qed.

Lemma RouteKey_String_inj_witness :
  RouteKey_String (mkRouteKey "honeypot_1_" "proxy" (-3)) = "honeypot_1_@proxy#-3" ∧
  RouteKey_Matches (mkRouteKey "honeypot_1_" "proxy" (-3))
    (mkRouteKey "honeypot_1_" "proxy" (-3)) = true.
Proof.
  split; [reflexivity|]. by apply RouteKey_String_inj.
Defined.

(** Without that condition distinct keys collide. *)
Example RouteKey_String_collision :
  RouteKey_String (mkRouteKey "a@b" "c" 0) = RouteKey_String (mkRouteKey "a" "b@c" 0).
Proof. reflexivity. Qed.
