(* ===== verification/Digest.v ===== *)
(** * Digests

    The standard-library digests the program derives identities from: SHA-256
    ([crypto/sha256]), SHA-1 ([crypto/sha1]), HMAC ([crypto/hmac]), 64-bit FNV-1a
    ([hash/fnv]) and the
    hexadecimal rendering of their output. They are executable, and checked
    here against published test vectors. *)

From Stdlib Require Import ZArith NArith Lia Ascii.
From stdpp Require Import base tactics strings.
From stdpp Require Import list.
From S2P Require Import Prelude.

Open Scope N_scope.

(** ** Bytes *)

Fixpoint bytes_of_string (s : string) : list N :=
  match s with
  | "" => []
  | String c r => N_of_ascii c :: bytes_of_string r
  end.

Fixpoint string_of_bytes (l : list N) : string :=
  match l with
  | [] => ""
  | b :: r => String (ascii_of_N b) (string_of_bytes r)
  end.

(** [binary.BigEndian.PutUint64]/[PutUint32]: [n] bytes, most significant first. *)
Fixpoint big_endian (n : nat) (w : N) : list N :=
  match n with
  | O => []
  | S k => N.shiftr w (8 * N.of_nat k) mod 256 :: big_endian k w
  end.

Definition of_big_endian (l : list N) : N := fold_left (λ acc b, acc * 256 + b) l 0.

(** ** SHA-256 *)

Definition w32 (x : N) : N := x mod 4294967296.
Definition rotr (n x : N) : N := N.lor (N.shiftr x n) (w32 (N.shiftl x (32 - n))).

Definition sha_k : list N := [
  1116352408; 1899447441; 3049323471; 3921009573; 961987163; 1508970993; 2453635748; 2870763221;
  3624381080; 310598401; 607225278; 1426881987; 1925078388; 2162078206; 2614888103; 3248222580;
  3835390401; 4022224774; 264347078; 604807628; 770255983; 1249150122; 1555081692; 1996064986;
  2554220882; 2821834349; 2952996808; 3210313671; 3336571891; 3584528711; 113926993; 338241895;
  666307205; 773529912; 1294757372; 1396182291; 1695183700; 1986661051; 2177026350; 2456956037;
  2730485921; 2820302411; 3259730800; 3345764771; 3516065817; 3600352804; 4094571909; 275423344;
  430227734; 506948616; 659060556; 883997877; 958139571; 1322822218; 1537002063; 1747873779;
  1955562222; 2024104815; 2227730452; 2361852424; 2428436474; 2756734187; 3204031479; 3329325298].

Definition sha_init : list N := [
  1779033703; 3144134277; 1013904242; 2773480762; 1359893119; 2600822924; 528734635; 1541459225].

Fixpoint chunks (n : nat) (fuel : nat) (l : list N) : list (list N) :=
  match fuel with
  | O => []
  | S fuel => match l with [] => [] | _ => take n l :: chunks n fuel (drop n l) end
  end.

Definition sha_pad (msg : list N) : list N :=
  let len := length msg in
  let zeros := ((119 - len mod 64) mod 64)%nat in
  msg ++ [128] ++ repeat 0 zeros ++ big_endian 8 (8 * N.of_nat len).

(** The message schedule: [acc] holds the words so far, newest first. *)
Fixpoint sha_schedule (n : nat) (acc : list N) : list N :=
  match n with
  | O => rev acc
  | S n =>
      let w := λ i, nth i acc 0 in
      let s0 := N.lxor (N.lxor (rotr 7 (w 14%nat)) (rotr 18 (w 14%nat))) (N.shiftr (w 14%nat) 3) in
      let s1 := N.lxor (N.lxor (rotr 17 (w 1%nat)) (rotr 19 (w 1%nat))) (N.shiftr (w 1%nat) 10) in
      sha_schedule n (w32 (w 15%nat + s0 + w 6%nat + s1) :: acc)
  end.

Definition sha_round (st : list N) (kw : N * N) : list N :=
  match st with
  | [a; b; c; d; e; f; g; h] =>
      let s1 := N.lxor (N.lxor (rotr 6 e) (rotr 11 e)) (rotr 25 e) in
      let ch := N.lxor (N.land e f) (N.land (N.lxor e 4294967295) g) in
      let t1 := h + s1 + ch + kw.1 + kw.2 in
      let s0 := N.lxor (N.lxor (rotr 2 a) (rotr 13 a)) (rotr 22 a) in
      let maj := N.lxor (N.lxor (N.land a b) (N.land a c)) (N.land b c) in
      [w32 (t1 + s0 + maj); a; b; c; w32 (d + t1); e; f; g]
  | _ => st
  end.

Definition sha_block (h : list N) (block : list N) : list N :=
  let words := map of_big_endian (chunks 4 16 block) in
  let sched := sha_schedule 48 (rev words) in
  let st := fold_left sha_round (combine sha_k sched) h in
  map (λ p, w32 (p.1 + p.2)) (combine h st).

(** [sha256.Sum256], on bytes. *)
Definition sha256_bytes (msg : list N) : list N :=
  let padded := sha_pad msg in
  let h := fold_left sha_block (chunks 64 (length padded) padded) sha_init in
  concat (map (big_endian 4) h).

(** ** SHA-1 *)

Definition sha1_init : list N := [1732584193; 4023233417; 2562383102; 271733878; 3285377520].

(** The function and the constant of a round. *)
Definition sha1_fk (t : nat) (b c d : N) : N * N :=
  if (t <? 20)%nat then (N.lxor (N.land b c) (N.land (N.lxor b 4294967295) d), 1518500249)
  else if (t <? 40)%nat then (N.lxor (N.lxor b c) d, 1859775393)
  else if (t <? 60)%nat then (N.lxor (N.lxor (N.land b c) (N.land b d)) (N.land c d), 2400959708)
  else (N.lxor (N.lxor b c) d, 3395469782).

Fixpoint sha1_schedule (n : nat) (acc : list N) : list N :=
  match n with
  | O => rev acc
  | S n =>
      let w := λ i, nth i acc 0 in
      sha1_schedule n (rotr 31 (N.lxor (N.lxor (w 2%nat) (w 7%nat)) (N.lxor (w 13%nat) (w 15%nat))) :: acc)
  end.

Definition sha1_round (st : list N) (tw : nat * N) : list N :=
  match st with
  | [a; b; c; d; e] =>
      let fk := sha1_fk tw.1 b c d in
      [w32 (rotr 27 a + fk.1 + e + fk.2 + tw.2); a; rotr 2 b; c; d]
  | _ => st
  end.

Definition sha1_block (h : list N) (block : list N) : list N :=
  let sched := sha1_schedule 64 (rev (map of_big_endian (chunks 4 16 block))) in
  map (λ p, w32 (p.1 + p.2)) (combine h (fold_left sha1_round (combine (seq 0 80) sched) h)).

(** [sha1.Sum], on bytes. *)
Definition sha1_bytes (msg : list N) : list N :=
  let padded := sha_pad msg in
  concat (map (big_endian 4) (fold_left sha1_block (chunks 64 (length padded) padded) sha1_init)).

(** ** HMAC-SHA-256 (64-byte blocks) *)
Definition hmac_bytes (key msg : list N) : list N :=
  let key := if (64 <? length key)%nat then sha256_bytes key else key in
  let key := key ++ repeat 0 (64 - length key) in
  let ipad := map (N.lxor 54) key in
  let opad := map (N.lxor 92) key in
  sha256_bytes (opad ++ sha256_bytes (ipad ++ msg)).

(** ** Hexadecimal *)
Definition hex_digit (n : N) : ascii := ascii_of_N (if n <? 10 then n + 48 else n + 87).

Fixpoint hex (l : list N) : string :=
  match l with
  | [] => ""
  | b :: r => String (hex_digit (b / 16)) (String (hex_digit (b mod 16)) (hex r))
  end.

(** [hex.EncodeToString(sha256(s))] *)
Definition sha256_hex (s : string) : string := hex (sha256_bytes (bytes_of_string s)).

Definition sha1_hex (s : string) : string := hex (sha1_bytes (bytes_of_string s)).

(** ** FNV-1a, 64 bits *)
Definition fnv64a (s : string) : Z :=
  Z.of_N (fold_left (λ h b, (N.lxor h b * 1099511628211) mod 18446744073709551616)
    (bytes_of_string s) 14695981039346656037).

(** ** Test vectors *)
Example sha256_abc :
  sha256_hex "abc" = "ba7816bf8f01cfea414140de5dae2223b00361a396177a9cb410ff61f20015ad".
Proof. vm_compute. reflexivity. Qed.
Example sha256_56 :
  sha256_hex "abcdbcdecdefdefgefghfghighijhijkijkljklmklmnlmnomnopnopq" =
  "248d6a61d20638b8e5c026930c3e6039a33ce45964ff2167f6ecedd419db06c1".
Proof. vm_compute. reflexivity. Qed.
Example sha1_abc : sha1_hex "abc" = "a9993e364706816aba3e25717850c26c9cd0d89d".
Proof. vm_compute. reflexivity. Qed.
Example sha1_56 :
  sha1_hex "abcdbcdecdefdefgefghfghighijhijkijkljklmklmnlmnomnopnopq" = "84983e441c3bd26ebaae4aa1f95129e5e54670f1".
Proof. vm_compute. reflexivity. Qed.
Example hmac_jefe :
  hex (hmac_bytes (bytes_of_string "Jefe") (bytes_of_string "what do ya want for nothing?")) =
  "5bdcc146bf60754e6a042426089575c75a003f089d2739839dec58b964ec3843".
Proof. vm_compute. reflexivity. Qed.
Example fnv64a_a : fnv64a "a" = 12638187200555641996%Z.
Proof. vm_compute. reflexivity. Qed.

(** ** Facts about the renderings *)

Lemma hex_no_byte c l :
  (N_of_ascii c < 48 ∨ 57 < N_of_ascii c < 97 ∨ 102 < N_of_ascii c) →
  Forall (λ b, b < 256) l → has_byte c (hex l) = false.
Proof.
  intros Hc. induction 1 as [|b l Hb _ IH]; cbn; [done|].
  assert (∀ n, n < 16 → bool_decide (c = hex_digit n) = false) as Hd.
  { intros n Hn. apply bool_decide_eq_false. intros ->. revert Hc. unfold hex_digit.
    destruct (N.ltb_spec n 10); rewrite N_ascii_embedding by lia; lia. }
  rewrite !Hd, IH; [done| |].
  - apply N.mod_upper_bound. lia.
  - apply N.Div0.div_lt_upper_bound. lia.
Qed.

Lemma big_endian_bytes n w : Forall (λ b, b < 256) (big_endian n w).
Proof. induction n; cbn; constructor; [|done]. apply N.mod_upper_bound. lia. Qed.

Lemma sha256_bytes_range m : Forall (λ b, b < 256) (sha256_bytes m).
Proof.
  unfold sha256_bytes. apply Forall_concat, Forall_map, Forall_true. intros w.
  apply big_endian_bytes.
Qed.

Lemma fnv64a_range s : in_u64 (fnv64a s).
Proof.
  unfold fnv64a, in_u64, two64.
  assert (∀ l h, h < 18446744073709551616 →
    fold_left (λ h b, (N.lxor h b * 1099511628211) mod 18446744073709551616) l h
      < 18446744073709551616) as H.
  { induction l as [|b l IH]; intros h Hh; cbn; [done|]. apply IH, N.mod_upper_bound. lia. }
  specialize (H (bytes_of_string s) 14695981039346656037). lia.
Qed.

#[global] Opaque sha256_bytes hmac_bytes fnv64a.
