(* ===== verification/RotationFilter.v ===== *)
(** * Bloom filter of rotations ([internal/mcp_faults/rotation_filter.go])

    The committers share the rotations of an epoch as a Bloom filter. An
    operation that indexes the bit array out of range panics in Go; the model
    returns [None] there and the theorems show it does not happen. The two
    float-valued estimates ([TheoryFalsePositive], [BitsPerItem]) and the budget
    helper [BitsForFalseAdmission] are not modelled. *)

From Stdlib Require Import ZArith Lia.
From stdpp Require Import base tactics strings gmap numbers.
From stdpp Require Import list.
From S2P Require Import Prelude Digest.

Open Scope Z_scope.

(** ** Data *)

Record RotationFilter := mkFilter {
  bits : list Z;  (* uint64 words *)
  m : Z;          (* bit count *)
  k : Z;          (* hash count *)
  n : Z;          (* inserted items *)
}.

(** ** Sizing

    [math.Round(float64(bitsPerItem) * math.Ln2)] in IEEE double precision: the
    double nearest to ln 2 is [6243314768165359 * 2^-53]; the product is rounded
    to 53 significant bits, ties to even, and then to the nearest integer, ties
    away from zero. *)
Definition round53 (x : Z) : Z :=
  let e := Z.max 0 (Z.log2 x + 1 - 53) in
  let u := 2 ^ e in
  let q := x / u in
  let r := x mod u in
  if (2 * r <? u) || ((2 * r =? u) && Z.even q) then q * u else (q + 1) * u.

Definition ln2_53 : Z := 6243314768165359.
Definition round_times_ln2 (bitsPerItem : Z) : Z :=
  (round53 (bitsPerItem * ln2_53) + 2 ^ 52) / 2 ^ 53.

Definition NewRotationFilter (capacity bitsPerItem : Z) : RotationFilter :=
  let capacity := if capacity <? 1 then 1 else capacity in
  let bitsPerItem := if bitsPerItem <? 1 then 1 else bitsPerItem in
  let m := wrap_i64 (capacity * bitsPerItem) in
  let k := round_times_ln2 bitsPerItem in
  let k := if k <? 1 then 1 else k in
  mkFilter (replicate (Z.to_nat (Z.quot (wrap_i64 (m + 63)) 64)) 0) m k 0.

(** The bit count fits an [int]; past that the allocation would overflow. *)
Definition sizes_fit (capacity bitsPerItem : Z) : Prop :=
  Z.max 1 capacity * Z.max 1 bitsPerItem < two63 - 63.

(** ** Operations *)

Definition hashes (id : string) : Z * Z :=
  (fnv64a id, Z.lor (fnv64a ("salt:" +:+ id)) 1).

(** The position probed by hash [i]: [(h1 + uint64(i)*h2) % uint64(f.m)]. *)
Definition probe (f : RotationFilter) (id : string) (i : Z) : Z :=
  let '(h1, h2) := hashes id in
  wrap_u64 (h1 + wrap_u64 (i * h2)) mod m f.

Definition filter_set (f : RotationFilter) (bit : Z) : option RotationFilter :=
  let i := Z.to_nat (bit / 64) in
  w ← bits f !! i;
  Some (mkFilter (<[i := Z.lor w (Z.shiftl 1 (bit mod 64))]> (bits f)) (m f) (k f) (n f)).

Definition filter_test (f : RotationFilter) (bit : Z) : option bool :=
  w ← bits f !! Z.to_nat (bit / 64);
  Some (negb (Z.land w (Z.shiftl 1 (bit mod 64)) =? 0)).

Fixpoint add_probes (f : RotationFilter) (id : string) (js : list Z) : option RotationFilter :=
  match js with
  | [] => Some f
  | i :: js => f' ← filter_set f (probe f id i); add_probes f' id js
  end.

Definition RotationFilter_Add (f : RotationFilter) (id : string) : option RotationFilter :=
  f' ← add_probes f id (seqZ 0 (k f));
  Some (mkFilter (bits f') (m f') (k f') (n f' + 1)).

Fixpoint test_probes (f : RotationFilter) (id : string) (js : list Z) : option bool :=
  match js with
  | [] => Some true
  | i :: js =>
      b ← filter_test f (probe f id i);
      if negb b then Some false else test_probes f id js
  end.

Definition RotationFilter_Present (f : RotationFilter) (id : string) : option bool :=
  test_probes f id (seqZ 0 (k f)).

Definition RotationFilter_Len (f : RotationFilter) : Z := n f.
Definition RotationFilter_Hashes (f : RotationFilter) : Z := k f.

Fixpoint add_all (f : RotationFilter) (ids : list string) : option RotationFilter :=
  match ids with
  | [] => Some f
  | id :: ids => f' ← RotationFilter_Add f id; add_all f' ids
  end.

(** ** Invariant *)

(** The bit array covers the [m] addressable bits. *)
Definition filter_ok (f : RotationFilter) : Prop :=
  0 < m f ∧ m f ≤ 64 * Z.of_nat (length (bits f)).

(** The filter is empty but for the positions in [s]. *)
Definition represents (f : RotationFilter) (s : gset Z) : Prop :=
  ∀ b, 0 ≤ b < m f → filter_test f b = Some (bool_decide (b ∈ s)).

(** The positions an identity is hashed to. *)
Definition probes (f : RotationFilter) (id : string) : gset Z :=
  list_to_set (probe f id <$> seqZ 0 (k f)).

Lemma NewRotationFilter_ok cap bpi : sizes_fit cap bpi → filter_ok (NewRotationFilter cap bpi).
Proof.
  unfold sizes_fit, filter_ok, NewRotationFilter. cbn [m bits]. rewrite length_replicate.
  replace (if cap <? 1 then 1 else cap) with (Z.max 1 cap)
    by (destruct (Z.ltb_spec cap 1); lia).
  replace (if bpi <? 1 then 1 else bpi) with (Z.max 1 bpi)
    by (destruct (Z.ltb_spec bpi 1); lia).
  set (c := Z.max 1 cap). set (b := Z.max 1 bpi). intros Hfit.
  assert (0 < c * b) by nia.
  rewrite !wrap_i64_id by (rewrite ?wrap_i64_id; unfold in_i64, two63 in *; lia).
  rewrite Z.quot_div_nonneg by lia. split; [done|].
  rewrite Z2Nat.id by (apply Z.div_pos; lia).
  pose proof (Z.div_mod (c * b + 63) 64). pose proof (Z.mod_pos_bound (c * b + 63) 64). lia.
Qed.

Lemma word_test w i : 0 ≤ i → negb (Z.land w (Z.shiftl 1 i) =? 0) = Z.testbit w i.
Proof.
  intros Hi. assert (Z.land w (Z.shiftl 1 i) = if Z.testbit w i then 2 ^ i else 0) as ->.
  { rewrite Z.shiftl_1_l. apply Z.bits_inj'. intros j Hj. rewrite Z.land_spec, Z.pow2_bits_eqb by done.
    destruct (Z.eqb_spec i j) as [->|Hne].
    - destruct (Z.testbit w j) eqn:E; [by rewrite Z.pow2_bits_true|by rewrite Z.bits_0].
    - rewrite andb_false_r. destruct (Z.testbit w i); [by rewrite Z.pow2_bits_false|by rewrite Z.bits_0]. }
  pose proof (Z.pow_pos_nonneg 2 i). destruct (Z.testbit w i); [|done].
  destruct (Z.eqb_spec (2 ^ i) 0); [lia|done].
Qed.

Lemma word_set w i j :
  0 ≤ i → 0 ≤ j → Z.testbit (Z.lor w (Z.shiftl 1 i)) j = (i =? j) || Z.testbit w j.
Proof.
  intros Hi Hj. rewrite Z.lor_spec, Z.shiftl_1_l, Z.pow2_bits_eqb by done. apply orb_comm.
Qed.

Lemma bit_index f b : filter_ok f → 0 ≤ b < m f → is_Some (bits f !! Z.to_nat (b / 64)).
Proof.
  intros [Hm Hl] Hb. apply lookup_lt_is_Some.
  pose proof (Z.div_mod b 64). pose proof (Z.mod_pos_bound b 64).
  pose proof (Z.div_pos b 64). lia.
Qed.

Lemma filter_set_spec f b :
  filter_ok f → 0 ≤ b < m f →
  ∃ f', filter_set f b = Some f' ∧ filter_ok f' ∧ m f' = m f ∧ k f' = k f ∧ n f' = n f ∧
    ∀ s, represents f s → represents f' ({[b]} ∪ s).
Proof.
  intros Hok Hb. destruct (bit_index f b Hok Hb) as [w Hw].
  unfold filter_set. rewrite Hw. cbn. eexists. split; [done|].
  split. { destruct Hok. split; cbn [m bits]; [done|]. by rewrite length_insert. }
  split; [done|]. split; [done|]. split; [done|].
  intros s Hs c Hc. cbn [m] in Hc. specialize (Hs c Hc). revert Hs. unfold filter_test. cbn [bits].
  pose proof (Z.div_mod b 64). pose proof (Z.mod_pos_bound b 64).
  pose proof (Z.div_mod c 64). pose proof (Z.mod_pos_bound c 64).
  pose proof (Z.div_pos b 64). pose proof (Z.div_pos c 64).
  destruct (decide (b / 64 = c / 64)) as [Hd|Hd].
  - rewrite <- Hd, Hw, list_lookup_insert_eq by (eapply lookup_lt_Some, Hw). cbn.
    rewrite !word_test, word_set by lia. intros [= ->]. f_equal.
    destruct (Z.eqb_spec (b mod 64) (c mod 64)).
    + assert (b = c) as -> by lia. symmetry. apply bool_decide_eq_true. set_solver.
    + cbn. apply bool_decide_ext. assert (b ≠ c) by congruence. set_solver.
  - rewrite list_lookup_insert_ne by lia. intros Hs. rewrite Hs. f_equal.
    apply bool_decide_ext. assert (b ≠ c) by congruence. set_solver.
Qed.

Arguments probe : simpl never.

Lemma probe_range f id i : 0 < m f → 0 ≤ probe f id i < m f.
Proof. intros H. unfold probe. cbn. by apply Z.mod_pos_bound. Qed.

Lemma probe_same f g id i : m f = m g → probe f id i = probe g id i.
Proof. unfold probe. by intros ->. Qed.

Lemma add_probes_spec js id : ∀ f,
  filter_ok f →
  ∃ f', add_probes f id js = Some f' ∧ filter_ok f' ∧ m f' = m f ∧ k f' = k f ∧ n f' = n f ∧
    ∀ s, represents f s → represents f' (list_to_set (probe f id <$> js) ∪ s).
Proof.
  induction js as [|i js IH]; intros f Hok; cbn [add_probes].
  - exists f. repeat (split; [done|]). intros s Hs. cbn. by rewrite (left_id_L ∅ (∪)).
  - destruct (filter_set_spec f (probe f id i)) as (f1 & -> & Hok1 & Hm & Hk & Hn & Hs1);
      [done|apply probe_range, Hok|].
    destruct (IH f1 Hok1) as (f2 & Ha & Hok2 & Hm2 & Hk2 & Hn2 & Hs2). cbn.
    exists f2. split; [done|]. split; [done|]. split; [congruence|]. split; [congruence|].
    split; [congruence|]. intros s Hs. specialize (Hs2 _ (Hs1 s Hs)). cbn.
    replace ({[probe f id i]} ∪ list_to_set (probe f id <$> js) ∪ s)
      with (list_to_set (probe f1 id <$> js) ∪ ({[probe f id i]} ∪ s)); [done|].
    rewrite (list_fmap_ext (probe f1 id) (probe f id) js);
      [set_solver|intros; by apply probe_same].
Qed.

Lemma Add_spec f id :
  filter_ok f →
  ∃ f', RotationFilter_Add f id = Some f' ∧ filter_ok f' ∧ m f' = m f ∧ k f' = k f ∧
    n f' = n f + 1 ∧ ∀ s, represents f s → represents f' (probes f id ∪ s).
Proof.
  intros Hok. unfold RotationFilter_Add.
  destruct (add_probes_spec (seqZ 0 (k f)) id f Hok) as (f1 & -> & Hok1 & Hm & Hk & Hn & Hs).
  cbn. eexists. split; [done|]. split; [done|]. split; [done|]. split; [done|].
  split; [cbn; lia|]. exact Hs.
Qed.

Lemma test_probes_spec f id s js :
  filter_ok f → represents f s →
  test_probes f id js = Some (bool_decide (list_to_set (C:=gset Z) (probe f id <$> js) ⊆ s)).
Proof.
  intros Hok Hs. induction js as [|i js IH]; cbn [test_probes].
  - f_equal. symmetry. apply bool_decide_eq_true. set_solver.
  - rewrite (Hs (probe f id i)) by (apply probe_range, Hok). cbn [mbind option_bind].
    cbn [fmap list_fmap list_to_set].
    destruct (decide (probe f id i ∈ s)) as [Hin|Hin];
      [rewrite (bool_decide_eq_true_2 _ Hin)|rewrite (bool_decide_eq_false_2 _ Hin)]; cbn [negb].
    + rewrite IH. f_equal. apply bool_decide_ext. set_solver.
    + f_equal. symmetry. apply bool_decide_eq_false. set_solver.
Qed.

Lemma New_represents cap bpi :
  sizes_fit cap bpi → represents (NewRotationFilter cap bpi) ∅.
Proof.
  intros Hfit b Hb. unfold filter_test.
  destruct (bit_index _ b (NewRotationFilter_ok cap bpi Hfit) Hb) as [w Hw]. rewrite Hw. cbn.
  assert (w = 0) as ->.
  { apply list_elem_of_lookup_2 in Hw. cbn [NewRotationFilter bits] in Hw.
    by apply elem_of_replicate in Hw as [-> _]. }
  by rewrite Z.land_0_l.
Qed.

Lemma add_all_spec ids : ∀ f s,
  filter_ok f → represents f s →
  ∃ f', add_all f ids = Some f' ∧ filter_ok f' ∧ m f' = m f ∧ k f' = k f ∧
    n f' = n f + Z.of_nat (length ids) ∧
    represents f' (⋃ (probes f <$> ids) ∪ s).
Proof.
  induction ids as [|id ids IH]; intros f s Hok Hs; cbn [add_all].
  - exists f. repeat (split; [done|]). split; [cbn; lia|]. cbn. by rewrite (left_id_L ∅ (∪)).
  - destruct (Add_spec f id Hok) as (f1 & -> & Hok1 & Hm & Hk & Hn & Hs1).
    destruct (IH f1 _ Hok1 (Hs1 s Hs)) as (f2 & Ha & Hok2 & Hm2 & Hk2 & Hn2 & Hs2). cbn.
    exists f2. split; [done|]. split; [done|]. split; [congruence|]. split; [congruence|].
    split; [lia|]. cbn.
    assert (probes f1 <$> ids = probes f <$> ids) as Hp.
    { apply list_fmap_ext. intros _ x _. unfold probes. rewrite Hk.
      f_equal. apply list_fmap_ext. intros. by apply probe_same. }
    rewrite Hp in Hs2. by rewrite (union_assoc_L _ _ s), (union_comm_L _ (probes f id)) in Hs2.
Qed.

(** ** Properties *)

(** A Bloom filter of any size, filled with any sequence of identities,
    never indexes its bit array out of range and answers every membership query
    exactly as the set of probed positions would: [Present id] is true if and
    only if every position [id] hashes to was set by some inserted identity. *)
Theorem RotationFilter_refines_probe_set (cap bpi : Z) (ids : list string) (id : string) :
  sizes_fit cap bpi →
  ∃ f, add_all (NewRotationFilter cap bpi) ids = Some f ∧
    RotationFilter_Len f = Z.of_nat (length ids) ∧
    RotationFilter_Present f id =
      Some (bool_decide (probes f id ⊆ ⋃ (probes f <$> ids))).
Proof.
  intros Hfit. destruct (add_all_spec ids _ ∅ (NewRotationFilter_ok cap bpi Hfit) (New_represents cap bpi Hfit))
    as (f & Ha & Hok & Hm & Hk & Hn & Hs).
  exists f. split; [done|]. split; [rewrite <- (Z.add_0_l (Z.of_nat _)); done|].
  unfold RotationFilter_Present. rewrite (test_probes_spec f id _ _ Hok Hs).
  f_equal. apply bool_decide_ext. rewrite (right_id_L ∅ (∪)).
  assert (probes (NewRotationFilter cap bpi) <$> ids = probes f <$> ids) as ->; [|done].
  apply list_fmap_ext. intros _ x _. unfold probes. rewrite Hk.
  f_equal. apply list_fmap_ext. intros. by apply probe_same.
Qed.

Lemma RotationFilter_refines_probe_set_witness :
  sizes_fit 4 10 ∧
  ∃ f, add_all (NewRotationFilter 4 10) ["a"; "b"] = Some f ∧
    RotationFilter_Len f = Z.of_nat (length ["a"; "b"]) ∧
    RotationFilter_Present f "c" =
      Some (bool_decide (probes f "c" ⊆ ⋃ (probes f <$> ["a"; "b"]))).
Proof.
  assert (sizes_fit 4 10) as F by reflexivity. split; [exact F|].
  exact (RotationFilter_refines_probe_set 4 10 ["a"; "b"] "c" F).
Defined.

(** No false negatives. Once a rotation was added, every later query for it
    answers true, whatever was added before or after. *)
Theorem RotationFilter_no_false_negative (cap bpi : Z) (ids : list string) (id : string) :
  sizes_fit cap bpi → id ∈ ids →
  ∃ f, add_all (NewRotationFilter cap bpi) ids = Some f ∧
    RotationFilter_Present f id = Some true.
Proof.
  intros Hfit Hin.
  destruct (add_all_spec ids _ ∅ (NewRotationFilter_ok cap bpi Hfit) (New_represents cap bpi Hfit))
    as (f & Ha & Hok & Hm & Hk & Hn & Hs).
  exists f. split; [done|]. unfold RotationFilter_Present.
  rewrite (test_probes_spec f id _ _ Hok Hs). f_equal. apply bool_decide_eq_true.
  assert (probes f id ∈ probes (NewRotationFilter cap bpi) <$> ids) as Hp.
  { apply list_elem_of_fmap. exists id. split; [|done]. unfold probes. rewrite Hk.
    f_equal. apply list_fmap_ext. intros. by apply probe_same. }
  intros b Hb. apply elem_of_union_l, elem_of_union_list. eexists. split; [exact Hp|done].
Qed.

Lemma RotationFilter_no_false_negative_witness :
  sizes_fit 4 10 ∧ "b" ∈ ["a"; "b"] ∧
  ∃ f, add_all (NewRotationFilter 4 10) ["a"; "b"] = Some f ∧
    RotationFilter_Present f "b" = Some true.
Proof.
  assert ("b" ∈ ["a"; "b"]) as H by set_solver. assert (sizes_fit 4 10) as F by reflexivity.
  split; [exact F|]. split; [exact H|].
  exact (RotationFilter_no_false_negative 4 10 ["a"; "b"] "b" F H).
Defined.

Example NewRotationFilter_ex :
  let f := NewRotationFilter 100 10 in (m f, k f, length (bits f)) = (1000, 7, 16%nat).
Proof. vm_compute. reflexivity. Qed.
