(* ===== verification/RouteSchedule.v ===== *)
(** * Pre-planned route rotation ([internal/mcp_faults/rotation_schedule.go])

    A route prefix is a function of an instance nonce and an epoch; epochs
    follow each other every [Period] from [Origin]. Epoch arithmetic is on
    [int64] and wraps as in Go. *)

From Stdlib Require Import ZArith NArith Lia Ascii.
From stdpp Require Import base tactics strings.
From stdpp Require Import list.
From S2P Require Import Prelude Digest.

Open Scope Z_scope.

(** ** Data *)

Record RouteSchedule := mkSchedule {
  Nonce : string;
  Base : Z;
  Origin : Time;
  Period : Duration;
}.

Definition RetiredEpochWindow : Z := 8.

Record RetiredRoute := mkRetired {
  ret_Epoch : Z;
  ret_Prefix : string;
  RetiredAt : Time;
}.

(** ** Operations *)

Definition NewRouteSchedule (nonce : string) (origin : Time) (period : Duration) : RouteSchedule :=
  mkSchedule nonce 0 origin period.

Definition Schedule_Valid (s : RouteSchedule) : bool :=
  (0 <? Z.of_nat (String.length (Nonce s))) && (Period s >? 0).

Definition EpochAt (s : RouteSchedule) (now : Time) : Z :=
  if negb (Schedule_Valid s) || Before now (Origin s) then Base s
  else wrap_i64 (Base s + Z.quot (TimeSub now (Origin s)) (Period s)).

Definition EpochEnd (s : RouteSchedule) (epoch : Z) : Time :=
  if negb (Schedule_Valid s) then Origin s
  else TimeAdd (Origin s) (wrap_i64 (wrap_i64 (epoch - Base s + 1) * Period s)).

Definition PrefixAt (s : RouteSchedule) (epoch : Z) : string :=
  if bool_decide (Nonce s = "") then ""
  else
    let counter := big_endian 8 (Z.to_N (wrap_u64 epoch)) in
    let sum := hmac_bytes (bytes_of_string (Nonce s)) counter in
    "honeypot_" +:+ hex (take 4 sum) +:+ "_".

(** ** Facts *)

(** The schedule never leaves the range of [int64] between its origin and
    epoch [e]. *)
Definition in_schedule_range (s : RouteSchedule) (e : Z) : Prop :=
  in_i64 (Base s) ∧ Base s ≤ e ∧ in_i64 (e - Base s + 1) ∧
  (e - Base s + 1) * Period s < two63.

Lemma Schedule_Valid_period s : Schedule_Valid s = true → 0 < Period s.
Proof. unfold Schedule_Valid. intros H. go_bools. by apply Z.gtb_lt. Qed.

Lemma EpochEnd_exact s e :
  Schedule_Valid s = true → in_schedule_range s e →
  EpochEnd s e = Origin s + (e - Base s + 1) * Period s.
Proof.
  intros Hv (Hb & He & Hw & Hr). unfold EpochEnd. rewrite Hv. cbn. unfold TimeAdd.
  pose proof (Schedule_Valid_period s Hv) as Hp.
  rewrite (wrap_i64_id (e - Base s + 1)) by done. rewrite wrap_i64_id; [done|].
  unfold in_i64, two63 in *. nia.
Qed.

Lemma hmac_bytes_length key msg : length (hmac_bytes key msg) = 32%nat.
Proof.
  Transparent hmac_bytes sha256_bytes. unfold hmac_bytes. cbv zeta.
  assert (∀ m, length (sha256_bytes m) = 32%nat) as H; [|apply H].
  intros m. unfold sha256_bytes. cbv zeta.
  set (blocks := chunks 64 _ _). clearbody blocks.
  assert (∀ h, length h = 8%nat → length (fold_left sha_block blocks h) = 8%nat) as Hl.
  { induction blocks as [|b bs IH]; intros h Hh; [done|]. cbn [fold_left]. apply IH.
    assert (∀ st kw, length st = 8%nat → length (sha_round st kw) = 8%nat) as Hr.
    { intros st kw Hst. do 8 (destruct st as [|? st]; [done|]). by destruct st. }
    assert (∀ kws st, length st = 8%nat → length (fold_left sha_round kws st) = 8%nat) as Hrs.
    { induction kws as [|kw kws IHk]; intros st Hst; [done|]. by apply IHk, Hr. }
    unfold sha_block. cbv zeta. rewrite length_map, length_combine, Hrs, Hh by done. done. }
  specialize (Hl sha_init eq_refl).
  destruct (fold_left sha_block blocks sha_init) as
    [|? [|? [|? [|? [|? [|? [|? [|? [|? ?]]]]]]]]]; try done.
Qed.
#[global] Opaque hmac_bytes sha256_bytes.

Lemma hex_length l : String.length (hex l) = (2 * length l)%nat.
Proof. induction l as [|b l IH]; cbn; [done|]. rewrite IH. lia. Qed.

(** A derived prefix always has the width of the drawn prefix it replaces. *)
Lemma PrefixAt_length s e : Nonce s ≠ "" → String.length (PrefixAt s e) = 18%nat.
Proof.
  intros Hn. unfold PrefixAt. rewrite bool_decide_eq_false_2 by done.
  rewrite !slength_app, hex_length, length_take, hmac_bytes_length. done.
Qed.

Lemma PrefixAt_nonempty s e : Nonce s ≠ "" → PrefixAt s e ≠ "".
Proof. intros Hn He. pose proof (PrefixAt_length s e Hn) as H. by rewrite He in H. Qed.

Lemma PrefixAt_contains_underscore s e t :
  Nonce s ≠ "" → Contains (PrefixAt s e +:+ t) "_" = true.
Proof.
  intros Hn. apply Contains_spec. unfold PrefixAt. rewrite bool_decide_eq_false_2 by done.
  exists "honeypot", (hex (take 4 (hmac_bytes (bytes_of_string (Nonce s))
    (big_endian 8 (Z.to_N (wrap_u64 e))))) +:+ "_" +:+ t).
  set (h := hex _). clearbody h.
  by rewrite !sapp_assoc.
Qed.

(** Strings of one length that begin the same call are the same string. *)
Lemma HasPrefix_same_length p q t :
  String.length p = String.length q → HasPrefix (p +:+ t) q = true → p = q.
Proof.
  intros Hl [u Hu]%HasPrefix_spec. revert q u Hl Hu.
  induction p as [|c p IH]; intros [|d q] u Hl Hu; try done.
  change (String c (p +:+ t) = String d (q +:+ u)) in Hu. injection Hu as -> Hu.
  f_equal. eapply IH; [|exact Hu]. by injection Hl.
Qed.

(** ** Properties *)

(** The clock and the boundaries agree. On a valid schedule, as long as the
    arithmetic stays inside [int64], the epoch current at [now] is at most [e]
    exactly when [now] is before the end of [e]; so epoch [e] is current exactly
    between the end of its predecessor and its own end. *)
Theorem EpochAt_EpochEnd (s : RouteSchedule) (e : Z) (now : Time) :
  Schedule_Valid s = true → in_schedule_range s e →
  in_i64 (now - Origin s) → in_i64 (Base s + (now - Origin s)) →
  (EpochAt s now ≤ e ↔ now < EpochEnd s e).
Proof.
  intros Hv Hr Hn Hn2. rewrite EpochEnd_exact by done.
  destruct Hr as (Hb & He & Hw & Hr). pose proof (Schedule_Valid_period s Hv) as Hp.
  unfold EpochAt. rewrite Hv. cbn. unfold Before.
  destruct (Z.ltb_spec now (Origin s)) as [Hlt|Hge].
  { split; [nia|]. lia. }
  rewrite TimeSub_exact by done. set (d := now - Origin s) in *.
  assert (0 ≤ d) by (subst d; lia).
  rewrite Z.quot_div_nonneg by lia.
  assert (0 ≤ d / Period s ≤ d) as Hq.
  { split; [by apply Z.div_pos|]. apply Z.div_le_upper_bound; nia. }
  rewrite wrap_i64_id by (unfold in_i64 in *; lia).
  pose proof (Z.div_mod d (Period s)) as Hdm.
  pose proof (Z.mod_pos_bound d (Period s) Hp) as Hm.
  split; intros H1.
  - subst d. nia.
  - enough (d / Period s < e - Base s + 1) by lia.
    apply Z.div_lt_upper_bound; [done|]. subst d. nia.
Qed.

Lemma EpochAt_EpochEnd_witness :
  let s := NewRouteSchedule "k" 100 5 in
  Schedule_Valid s = true ∧ in_schedule_range s 2 ∧ (EpochAt s 113 ≤ 2 ↔ 113 < EpochEnd s 2).
Proof.
  assert (Schedule_Valid (NewRouteSchedule "k" 100 5) = true) as Hv by reflexivity.
  assert (in_schedule_range (NewRouteSchedule "k" 100 5) 2) as Hr.
  { unfold in_schedule_range, in_i64, two63. cbn. lia. }
  split; [exact Hv|]. split; [exact Hr|].
  apply (EpochAt_EpochEnd _ 2 113 Hv Hr); unfold in_i64, two63; cbn; lia.
Defined.
