(* ===== verification/RotationVerify.v ===== *)
(** * Rotation claims and commits

    ([internal/mcp_faults/rotation_verify.go], [rotation_commit.go]) The mirror
    checks a node's rotation claim against the route identity it derives and the
    rotation it observed itself; the committer applies that check to every store
    of a route, and each store checks the commit against its own record. The
    [ToolProxy] methods at the end of [rotation_verify.go] are in [ToolProxy.v]. *)

From Stdlib Require Import ZArith NArith Lia Ascii.
From stdpp Require Import base tactics strings pretty gmap sorting.
From stdpp Require Import list.
From S2P Require Import Prelude Durations Digest.

Open Scope Z_scope.

(** ** Policy *)

Definition DefaultGraceWindow : Duration := 1 * Second.

Record RotationPolicy := mkPolicy { MaxGrace : Duration }.

Definition DefaultRotationPolicy : RotationPolicy := mkPolicy DefaultGraceWindow.

Definition EffectiveGrace (p : RotationPolicy) (claimed : Duration) : Duration :=
  if claimed <=? 0 then 0
  else if claimed >? MaxGrace p then MaxGrace p
  else claimed.

(** ** Claims and route identities *)

Record RotationClaim := mkClaim {
  NodeID : string;
  RotatedAt : Time;
  claim_Grace : Duration;
  claim_Prefix : string;
  claim_RouteID : string;
}.

Record RouteRef := mkRef { Scope : string; Tool : string }.

#[global] Instance RouteRef_eq_dec : EqDecision RouteRef.
Proof. solve_decision. Defined.

(** [fmt.Fprintf(hash, "%d:%s|", len(s), s)] *)
Definition writeField (s : string) : string :=
  Itoa (Z.of_nat (String.length s)) +:+ ":" +:+ s +:+ "|".

(** What [ID] feeds to the hash. *)
Definition route_encoding (r : RouteRef) (policy : RotationPolicy) : string :=
  writeField "route" +:+ writeField (Scope r) +:+ writeField (Tool r)
    +:+ writeField (Duration_String (MaxGrace policy)).

Definition RouteRef_ID (r : RouteRef) (policy : RotationPolicy) : string :=
  sha256_hex (route_encoding r policy).

(** ** Replicas *)

Record RouteRegistry := mkRegistry { replicas : gmap string (gset string) }.

Definition NewRouteRegistry : RouteRegistry := mkRegistry ∅.

Definition RouteRegistry_Register (r : RouteRegistry) (ref : RouteRef) (policy : RotationPolicy)
  (nodeID : string) : RouteRegistry :=
  let id := RouteRef_ID ref policy in
  mkRegistry (<[id := {[nodeID]} ∪ default ∅ (replicas r !! id)]> (replicas r)).

(** A nil registry means no replica policy is configured. *)
Definition RouteRegistry_Authorized (r : option RouteRegistry) (ref : RouteRef)
  (policy : RotationPolicy) (nodeID : string) : bool :=
  match r with
  | None => true
  | Some r => bool_decide (nodeID ∈ default ∅ (replicas r !! RouteRef_ID ref policy))
  end.

(** The map is iterated, so the result is in no particular order. *)
Definition RouteRegistry_Replicas (r : option RouteRegistry) (ref : RouteRef)
  (policy : RotationPolicy) : gset string :=
  match r with
  | None => ∅
  | Some r => default ∅ (replicas r !! RouteRef_ID ref policy)
  end.

(** ** Verification *)

Definition RotationAnnounced : string := "announced".
Definition RotationUnannounced : string := "unannounced-rotation".
Definition RotationMismatched : string := "mismatched-rotation".
Definition RotationOverclaimedGrace : string := "overclaimed-grace".
Definition RotationClaimedWithoutRotate : string := "claimed-without-rotation".
Definition RotationIdentityMismatch : string := "identity-mismatch".
Definition RotationUnauthorizedReplica : string := "unauthorized-replica".

Record RotationVerdict := mkVerdict {
  verdict_State : string;
  verdict_Grace : Duration;
  Observed : Time;
  Claimed : Time;
  verdict_RouteID : string;
}.

Definition VerifyRotation (requested : RouteRef) (registry : option RouteRegistry)
  (observedAt : Time) (claim : option RotationClaim) (policy : RotationPolicy)
  : RotationVerdict :=
  let routeID := RouteRef_ID requested policy in
  if IsZero observedAt then
    match claim with
    | Some c => mkVerdict RotationClaimedWithoutRotate 0 observedAt (RotatedAt c) routeID
    | None => mkVerdict RotationUnannounced 0 zeroTime zeroTime routeID
    end
  else
    match claim with
    | Some c =>
        if negb (streq (claim_RouteID c) routeID) then
          mkVerdict RotationIdentityMismatch 0 observedAt (RotatedAt c) routeID
        else if negb (RouteRegistry_Authorized registry requested policy (NodeID c)) then
          mkVerdict RotationUnauthorizedReplica 0 observedAt (RotatedAt c) routeID
        else if negb (TimeEqual (RotatedAt c) observedAt) then
          mkVerdict RotationMismatched (EffectiveGrace policy (claim_Grace c)) observedAt
            (RotatedAt c) routeID
        else if claim_Grace c >? MaxGrace policy then
          mkVerdict RotationOverclaimedGrace (EffectiveGrace policy (claim_Grace c)) observedAt
            (RotatedAt c) routeID
        else
          mkVerdict RotationAnnounced (EffectiveGrace policy (claim_Grace c)) observedAt
            (RotatedAt c) routeID
    | None =>
        mkVerdict RotationUnannounced (EffectiveGrace policy (MaxGrace policy)) observedAt
          zeroTime routeID
    end.

(** ** Commits *)

Record Rejection := mkRejection { rej_NodeID : string; rej_State : string; rej_Grace : Duration }.

Record RotationCommit := mkCommit {
  CommittedBy : string;
  At : Time;
  commit_RouteID : string;
  Rotations : gmap string Time;
  commit_Grace : Duration;
  Rejected : list Rejection;
}.

Definition Commit_Accepted (c : RotationCommit) (nodeID : string) : bool :=
  bool_decide (is_Some (Rotations c !! nodeID)).

Definition CommitAgrees : string := "agrees".
Definition CommitInventedRotation : string := "committed-without-store-observation".
Definition CommitMismatchedRotation : string := "committed-different-rotation".
Definition CommitOmittedRotation : string := "omitted-observed-rotation".

Definition Commit_Check (c : RotationCommit) (nodeID : string) (storeSaw : Time) : bool * string :=
  match Rotations c !! nodeID with
  | Some committed =>
      if IsZero storeSaw then (false, CommitInventedRotation)
      else if negb (TimeEqual committed storeSaw) then (false, CommitMismatchedRotation)
      else (true, CommitAgrees)
  | None =>
      if negb (IsZero storeSaw) then (false, CommitOmittedRotation)
      else (true, CommitAgrees)
  end.

(** The body of the loop over the sorted nodes; the state is the commit being
    built and [graceSet]. *)
Definition commit_node (ref : RouteRef) (policy : RotationPolicy) (observed : gmap string Time)
  (claims : gmap string RotationClaim) (st : RotationCommit * bool) (node : string)
  : RotationCommit * bool :=
  let '(c, graceSet) := st in
  let verdict := VerifyRotation ref None (default zeroTime (observed !! node)) (claims !! node) policy in
  if negb (streq (verdict_State verdict) RotationAnnounced) then
    (mkCommit (CommittedBy c) (At c) (commit_RouteID c) (Rotations c) (commit_Grace c)
       (Rejected c ++ [mkRejection node (verdict_State verdict) (verdict_Grace verdict)]), graceSet)
  else
    let rotations := <[node := Observed verdict]> (Rotations c) in
    if negb graceSet || (verdict_Grace verdict <? commit_Grace c) then
      (mkCommit (CommittedBy c) (At c) (commit_RouteID c) rotations (verdict_Grace verdict)
         (Rejected c), true)
    else
      (mkCommit (CommittedBy c) (At c) (commit_RouteID c) rotations (commit_Grace c)
         (Rejected c), graceSet).

(** [order] is the order in which Go happens to iterate the map [observed]; the
    nodes are sorted before use. *)
Definition Commit (ref : RouteRef) (committedBy : string) (at_ : Time) (policy : RotationPolicy)
  (observed : gmap string Time) (claims : gmap string RotationClaim) (order : list string)
  : RotationCommit :=
  let nodes := sort_strings order in
  (foldl (commit_node ref policy observed claims)
     (mkCommit committedBy at_ (RouteRef_ID ref policy) ∅ 0 [], false) nodes).1.

(** ** Facts *)

(** A printed natural number holds no colon. *)
Lemma pretty_N_go_no_colon n s :
  has_byte ":" s = false → has_byte ":" (pretty_N_go n s) = false.
Proof.
  revert s. induction (N.lt_wf_0 n) as [n _ IH]; intros s Hs.
  destruct (decide (0 < n)%N) as [Hn|Hn].
  - rewrite pretty_N_go_step by done. apply IH; [by apply N.div_lt|].
    cbn [has_byte]. rewrite Hs, orb_false_r. apply bool_decide_eq_false.
    unfold pretty_N_char. by repeat case_match.
  - assert (n = 0%N) as -> by lia. by rewrite pretty_N_go_0.
Qed.

Lemma Itoa_no_colon (n : nat) : has_byte ":" (Itoa (Z.of_nat n)) = false.
Proof.
  destruct n as [|n]; [done|].
  change (Itoa (Z.of_nat (S n))) with (pretty_N (N.pos (Pos.of_succ_nat n))).
  unfold pretty_N. destruct (decide _); [done|]. by apply pretty_N_go_no_colon.
Qed.

(** A length-prefixed field can be cut off the front of a string in one way
    only. *)
Lemma writeField_inj s1 s2 t1 t2 :
  writeField s1 +:+ t1 = writeField s2 +:+ t2 → s1 = s2 ∧ t1 = t2.
Proof.
  unfold writeField. rewrite !sapp_assoc. intros Heq.
  destruct (sep_inj ":" (Itoa (Z.of_nat (String.length s1)))
    (Itoa (Z.of_nat (String.length s2))) (s1 +:+ String "|" t1) (s2 +:+ String "|" t2)
    (Itoa_no_colon _) (Itoa_no_colon _) Heq) as [Hlen Hrest].
  apply (inj pretty) in Hlen.
  destruct (sapp_inj_length s1 s2 _ _ ltac:(lia) Hrest) as [-> Ht].
  split; [done|]. by injection Ht.
Qed.

Lemma EffectiveGrace_bounds p d :
  0 ≤ MaxGrace p → 0 ≤ EffectiveGrace p d ≤ MaxGrace p.
Proof. intros Hp. unfold EffectiveGrace. repeat case_match; go_bools; lia. Qed.

(** The node is verified as announced. *)
Definition announced (ref : RouteRef) (policy : RotationPolicy) (observed : gmap string Time)
  (claims : gmap string RotationClaim) (node : string) : bool :=
  streq (verdict_State (VerifyRotation ref None (default zeroTime (observed !! node))
    (claims !! node) policy)) RotationAnnounced.

(** The verdict of the committer on a node. *)
Definition commit_verdict (ref : RouteRef) (policy : RotationPolicy) (observed : gmap string Time)
  (claims : gmap string RotationClaim) (node : string) : RotationVerdict :=
  VerifyRotation ref None (default zeroTime (observed !! node)) (claims !! node) policy.

Lemma VerifyRotation_Observed ref reg o c p : Observed (VerifyRotation ref reg o c p) = o.
Proof. unfold VerifyRotation, IsZero. by repeat (case_match; go_bools; subst; cbn). Qed.

(** What the fold has built after the nodes [ns]. *)
Lemma commit_fold ref policy observed claims ns c g :
  let r := (foldl (commit_node ref policy observed claims) (c, g) ns).1 in
  (∀ n, Rotations r !! n =
     if mem n ns && announced ref policy observed claims n
     then Some (default zeroTime (observed !! n)) else Rotations c !! n) ∧
  Rejected r = Rejected c ++
    map (λ n, let v := commit_verdict ref policy observed claims n in
              mkRejection n (verdict_State v) (verdict_Grace v))
        (filter (λ n, announced ref policy observed claims n = false) ns) ∧
  CommittedBy r = CommittedBy c ∧ At r = At c ∧ commit_RouteID r = commit_RouteID c.
Proof.
  revert c g. induction ns as [|n ns IH]; intros c g.
  { cbn. rewrite app_nil_r. done. }
  cbn [foldl]. destruct (commit_node ref policy observed claims (c, g) n) as [c' g'] eqn:Hc.
  destruct (IH c' g') as (Hrot & Hrej & Hby & Hat & Hid). clear IH. cbv zeta in *.
  rewrite Hrej, Hby, Hat, Hid. setoid_rewrite Hrot. clear Hrej Hby Hat Hid Hrot.
  unfold commit_node in Hc. fold (commit_verdict ref policy observed claims n) in Hc.
  change (streq (verdict_State (commit_verdict ref policy observed claims n)) RotationAnnounced)
    with (announced ref policy observed claims n) in Hc.
  assert (∀ b, (if announced ref policy observed claims n then b else Rotations c) =
    Rotations c' → b = <[n := default zeroTime (observed !! n)]> (Rotations c) →
    ∀ m, (if mem m ns && announced ref policy observed claims m
      then Some (default zeroTime (observed !! m)) else Rotations c' !! m) =
    (if mem m (n :: ns) && announced ref policy observed claims m
      then Some (default zeroTime (observed !! m)) else Rotations c !! m)) as Hlook.
  { intros b Hb -> m. unfold mem. cbn [existsb]. fold (mem m ns). rewrite <- Hb.
    destruct (streq m n) eqn:Hmn; go_bools; subst; cbn [orb].
    - destruct (announced ref policy observed claims n) eqn:Ha; rewrite ?andb_true_r, ?andb_false_r;
        cbn [andb]; [|done]. rewrite lookup_insert_eq. by destruct (mem n ns).
    - destruct (announced ref policy observed claims n); [|done].
      by rewrite lookup_insert_ne by congruence. }
  destruct (announced ref policy observed claims n) eqn:Ha; cbn [negb] in Hc.
  - rewrite filter_cons_False by congruence.
    assert (Observed (commit_verdict ref policy observed claims n) =
      default zeroTime (observed !! n)) as Hobs by apply VerifyRotation_Observed.
    rewrite Hobs in Hc. destruct (negb g || _); simplify_eq; cbn in *; eauto 10.
  - rewrite filter_cons_True by done. simplify_eq. cbn in *. rewrite <- app_assoc. eauto 10.
Qed.

(** The grace built so far is that of some accepted node and no larger than any
    of them, once there is one. *)
Definition grace_inv (ref : RouteRef) (policy : RotationPolicy) (observed : gmap string Time)
  (claims : gmap string RotationClaim) (ns : list string) (st : RotationCommit * bool) : Prop :=
  let accepted := filter (λ n, announced ref policy observed claims n = true) ns in
  let grace n := verdict_Grace (commit_verdict ref policy observed claims n) in
  (st.2 = true ↔ accepted ≠ []) ∧
  (accepted = [] → commit_Grace st.1 = 0) ∧
  (∀ n, n ∈ accepted → commit_Grace st.1 ≤ grace n) ∧
  (accepted ≠ [] → ∃ n, n ∈ accepted ∧ commit_Grace st.1 = grace n).

Lemma commit_fold_grace ref policy observed claims by_ t id ns :
  grace_inv ref policy observed claims ns
    (foldl (commit_node ref policy observed claims) (mkCommit by_ t id ∅ 0 [], false) ns).
Proof.
  induction ns as [|n ns IH] using rev_ind.
  { unfold grace_inv. cbn. split; [done|]. split; [done|]. split; [|done].
    intros n Hn. by apply elem_of_nil in Hn. }
  rewrite foldl_app. cbn [foldl].
  destruct (foldl _ _ ns) as [c g]. unfold grace_inv in *. cbv zeta in *.
  rewrite filter_app. destruct IH as (Hg & H0 & Hle & Hex). cbn [fst snd] in *.
  unfold commit_node. fold (commit_verdict ref policy observed claims n).
  change (streq (verdict_State (commit_verdict ref policy observed claims n)) RotationAnnounced)
    with (announced ref policy observed claims n).
  destruct (announced ref policy observed claims n) eqn:Ha; cbn [negb].
  - rewrite (filter_cons_True _ _ []) by done. cbn [filter list_filter].
    set (acc := filter _ ns) in *. set (v := commit_verdict ref policy observed claims n) in *.
    assert (acc ++ [n] ≠ []) as Hne by (by destruct acc).
    assert (∀ k, k ∈ acc ++ [n] → k ∈ acc ∨ k = n) as Hin by set_solver.
    assert (n ∈ acc ++ [n]) as Hn by set_solver.
    destruct (negb g || (verdict_Grace v <? commit_Grace c)) eqn:Hc; cbn [fst snd commit_Grace].
    + split; [done|]. split; [done|]. split; [|intros _; by exists n].
      intros k [Hk| ->]%Hin; [|done]. apply orb_true_iff in Hc as [Hc|Hc]; go_bools.
      * subst g. destruct Hg as [_ Hg].
        assert (acc ≠ []) by (intros E; rewrite E in Hk; by apply elem_of_nil in Hk).
        by discriminate Hg.
      * specialize (Hle k Hk). subst v. lia.
    + go_bools. destruct Hg as [Hg _]. specialize (Hg ltac:(by destruct g)).
      split; [split; [done|by destruct g]|]. split; [done|]. split.
      * intros k [Hk| ->]%Hin; [by apply Hle|]. subst v. lia.
      * intros _. destruct (Hex Hg) as (k & Hk & ->). exists k. set_solver.
  - rewrite (filter_cons_False _ _ []) by congruence. cbn [filter list_filter].
    rewrite app_nil_r. eauto 10.
Qed.

(** The nodes of a map in iteration order, sorted: each once, and only those. *)
Lemma sorted_nodes {A} (m : gmap string A) order :
  order ≡ₚ (map_to_list m).*1 →
  NoDup (sort_strings order) ∧ ∀ n, n ∈ sort_strings order ↔ is_Some (m !! n).
Proof.
  intros Hp. rewrite sort_strings_perm, Hp. split; [apply NoDup_fst_map_to_list|].
  intros n. rewrite sort_strings_perm, Hp, list_elem_of_fmap. split.
  - intros ([k x] & -> & Hin). apply elem_of_map_to_list in Hin. by exists x.
  - intros [x Hx]. exists (n, x). by rewrite elem_of_map_to_list.
Qed.

Lemma filter_map_count (ns : list string) (f : string → Rejection) (n : string) (P : string → bool) :
  (∀ k, rej_NodeID (f k) = k) → NoDup ns →
  length (filter (λ r, rej_NodeID r = n) (map f (filter (λ k, P k = false) ns))) =
  if bool_decide (n ∈ ns) && negb (P n) then 1%nat else 0%nat.
Proof.
  intros Hf. induction ns as [|k ns IH]; intros Hnd; [done|].
  apply NoDup_cons in Hnd as [Hk Hnd]. specialize (IH Hnd).
  destruct (P k) eqn:HP.
  - rewrite filter_cons_False by congruence. rewrite IH.
    destruct (decide (n = k)) as [->|Hne].
    + rewrite HP, !andb_false_r. done.
    + rewrite (bool_decide_ext (n ∈ k :: ns) (n ∈ ns)) by (rewrite elem_of_cons; tauto). done.
  - rewrite filter_cons_True by done. cbn [map].
    destruct (decide (n = k)) as [->|Hne].
    + rewrite filter_cons_True by apply Hf. cbn [length]. rewrite IH.
      rewrite bool_decide_eq_false_2 by done.
      rewrite bool_decide_eq_true_2 by apply list_elem_of_here. by rewrite HP.
    + rewrite filter_cons_False by (rewrite Hf; congruence). rewrite IH.
      rewrite (bool_decide_ext (n ∈ k :: ns) (n ∈ ns)) by (rewrite elem_of_cons; tauto). done.
Qed.

Lemma Commit_Rotations ref by_ t policy (observed : gmap string Time) claims order n :
  order ≡ₚ (map_to_list observed).*1 →
  Rotations (Commit ref by_ t policy observed claims order) !! n =
  (o ← observed !! n; if announced ref policy observed claims n then Some o else None).
Proof.
  intros Hp. destruct (sorted_nodes observed order Hp) as [_ Hin]. unfold Commit.
  destruct (commit_fold ref policy observed claims (sort_strings order)
    (mkCommit by_ t (RouteRef_ID ref policy) ∅ 0 []) false) as (Hrot & _).
  rewrite Hrot. cbn [Rotations]. rewrite lookup_empty.
  destruct (observed !! n) as [o|] eqn:Ho; cbn [default mbind option_bind].
  - assert (mem n (sort_strings order) = true) as ->; [|done].
    apply mem_true, Hin. by rewrite Ho.
  - destruct (mem n (sort_strings order)) eqn:Hm; [|done].
    apply mem_true, Hin in Hm. rewrite Ho in Hm. by destruct Hm.
Qed.

(** ** Properties *)

(** The route identity fixes the route. Two routes hash the same bytes
    only if scope, tool and the printed grace bound are the same, whatever
    separators a scope or a tool name holds. *)
Theorem route_encoding_inj (r r' : RouteRef) (p p' : RotationPolicy) :
  route_encoding r p = route_encoding r' p' →
  r = r' ∧ Duration_String (MaxGrace p) = Duration_String (MaxGrace p').
Proof.
  unfold route_encoding. intros Heq.
  apply writeField_inj in Heq as [_ Heq]. apply writeField_inj in Heq as [Hs Heq].
  apply writeField_inj in Heq as [Ht Heq].
  rewrite <- (sapp_nil_r (writeField (Duration_String (MaxGrace p)))),
    <- (sapp_nil_r (writeField (Duration_String (MaxGrace p')))) in Heq.
  apply writeField_inj in Heq as [Hd _]. split; [|done]. destruct r, r'; cbn in *; congruence.
Qed.

Lemma route_encoding_inj_witness :
  mkRef "a|b" "c" = mkRef "a|b" "c" ∧ Duration_String (MaxGrace (mkPolicy 1000000000)) = Duration_String (MaxGrace DefaultRotationPolicy).
Proof.
  apply (route_encoding_inj (mkRef "a|b" "c") (mkRef "a|b" "c") (mkPolicy 1000000000) DefaultRotationPolicy).
  reflexivity.
Defined.

(** A rotation is announced only on evidence. The verdict is [announced]
    exactly when the mirror saw a rotation itself and the claim names the route
    the mirror derives, comes from an authorised replica, carries the time the
    mirror observed and asks for no more grace than the policy allows. *)
Theorem VerifyRotation_announced (ref : RouteRef) (reg : option RouteRegistry) (observedAt : Time)
  (claim : option RotationClaim) (policy : RotationPolicy) :
  verdict_State (VerifyRotation ref reg observedAt claim policy) = RotationAnnounced ↔
  observedAt ≠ zeroTime ∧
  ∃ c, claim = Some c ∧ claim_RouteID c = RouteRef_ID ref policy ∧
    RouteRegistry_Authorized reg ref policy (NodeID c) = true ∧
    RotatedAt c = observedAt ∧ claim_Grace c ≤ MaxGrace policy.
Proof.
  unfold VerifyRotation, IsZero, zeroTime, TimeEqual.
  destruct (Z.eqb_spec observedAt 0) as [->|Ho].
  { destruct claim; (split; [done|]); intros [? _]; done. }
  destruct claim as [c|]; [|split; [done|]; by intros (_ & ? & ? & _)].
  destruct (streq (claim_RouteID c) _) eqn:Hid; cbn [negb];
    [|split; [done|]; intros (_ & ? & ? & ? & _); go_bools; congruence].
  destruct (RouteRegistry_Authorized reg ref policy (NodeID c)) eqn:Ha; cbn [negb];
    [|split; [done|]; intros (_ & ? & ? & _ & ? & _); congruence].
  destruct (Z.eqb_spec (RotatedAt c) observedAt) as [Hr|Hr]; cbn [negb];
    [|split; [done|]; intros (_ & ? & ? & _ & _ & ? & _); congruence].
  destruct (Z.gtb_spec (claim_Grace c) (MaxGrace policy)) as [Hg|Hg].
  - split; [done|]. intros (_ & ? & ? & _ & _ & _ & ?). simplify_eq. lia.
  - split; [|done]. intros _. split; [done|]. exists c. go_bools. eauto 10.
Qed.

(** No claim buys more grace than the mirror's policy, and none without a
    rotation the mirror saw: the verdict's grace is within [0, MaxGrace], it is
    zero when nothing was observed and whenever the claim is for another route
    or from a node that is no replica of it. *)
Theorem VerifyRotation_Grace (ref : RouteRef) (reg : option RouteRegistry) (observedAt : Time)
  (claim : option RotationClaim) (policy : RotationPolicy) :
  0 ≤ MaxGrace policy →
  let v := VerifyRotation ref reg observedAt claim policy in
  0 ≤ verdict_Grace v ≤ MaxGrace policy ∧
  (verdict_Grace v ≠ 0 → observedAt ≠ zeroTime ∧
     ∀ c, claim = Some c → claim_RouteID c = RouteRef_ID ref policy ∧
       RouteRegistry_Authorized reg ref policy (NodeID c) = true).
Proof.
  intros Hp. cbv zeta. pose proof (EffectiveGrace_bounds policy) as Hb.
  unfold VerifyRotation, IsZero, zeroTime.
  destruct (Z.eqb_spec observedAt 0) as [->|Ho]; [by destruct claim|].
  destruct claim as [c|]; [|cbn; split; [by apply Hb|]; done].
  destruct (streq (claim_RouteID c) _) eqn:Hid; cbn [negb]; [|by cbn].
  destruct (RouteRegistry_Authorized reg ref policy (NodeID c)) eqn:Ha; cbn [negb]; [|by cbn].
  go_bools.
  assert (observedAt ≠ 0 ∧ ∀ c0, Some c = Some c0 → claim_RouteID c0 = RouteRef_ID ref policy ∧
    RouteRegistry_Authorized reg ref policy (NodeID c0) = true) as Hall.
  { split; [done|]. intros c0 [= <-]. done. }
  repeat case_match; cbn; (split; [by apply Hb|done]).
Qed.

Lemma VerifyRotation_Grace_witness :
  let v := VerifyRotation (mkRef "a" "t") None 7 None DefaultRotationPolicy in
  0 ≤ verdict_Grace v ≤ MaxGrace DefaultRotationPolicy ∧
  (verdict_Grace v ≠ 0 → 7 ≠ zeroTime ∧
     ∀ c, None = Some c → claim_RouteID c = RouteRef_ID (mkRef "a" "t") DefaultRotationPolicy ∧
       RouteRegistry_Authorized None (mkRef "a" "t") DefaultRotationPolicy (NodeID c) = true).
Proof. apply (VerifyRotation_Grace (mkRef "a" "t") None 7 None DefaultRotationPolicy). unfold DefaultRotationPolicy, DefaultGraceWindow, Second. cbn. lia. Defined.

(** A commit accounts for every store exactly once and does not depend on
    map order. For the nodes of [observed] in any iteration order, the commit is
    the same; a node is accepted with the rotation the committer observed when
    its verdict is [announced], and is rejected with its verdict otherwise; the
    grace is the least of the accepted nodes' graces, or zero. *)
Theorem Commit_spec (ref : RouteRef) (by_ : string) (t : Time) (policy : RotationPolicy)
  (observed : gmap string Time) (claims : gmap string RotationClaim) (order : list string) :
  order ≡ₚ (map_to_list observed).*1 →
  let c := Commit ref by_ t policy observed claims order in
  let accepted n := announced ref policy observed claims n in
  let verdict := commit_verdict ref policy observed claims in
  c = Commit ref by_ t policy observed claims (map_to_list observed).*1 ∧
  commit_RouteID c = RouteRef_ID ref policy ∧
  (∀ n, Rotations c !! n =
     (o ← observed !! n; if accepted n then Some o else None)) ∧
  (∀ n, length (filter (λ r, rej_NodeID r = n) (Rejected c)) =
     if bool_decide (is_Some (observed !! n)) && negb (accepted n) then 1%nat else 0%nat) ∧
  (∀ r, r ∈ Rejected c → rej_State r = verdict_State (verdict (rej_NodeID r)) ∧
     rej_Grace r = verdict_Grace (verdict (rej_NodeID r))) ∧
  (∀ n, Commit_Accepted c n = true → commit_Grace c ≤ verdict_Grace (verdict n)) ∧
  (Rotations c = ∅ → commit_Grace c = 0) ∧
  (Rotations c ≠ ∅ → ∃ n, Commit_Accepted c n = true ∧ commit_Grace c = verdict_Grace (verdict n)).
Proof.
  intros Hp. cbv zeta. destruct (sorted_nodes observed order Hp) as [Hnd Hin].
  split. { unfold Commit. by rewrite (sort_strings_ext _ _ Hp). }
  pose proof (Commit_Rotations ref by_ t policy observed claims order) as HR.
  assert (∀ n, Commit_Accepted (Commit ref by_ t policy observed claims order) n = true ↔
    n ∈ filter (λ n, announced ref policy observed claims n = true) (sort_strings order)) as Hacc.
  { intros n. unfold Commit_Accepted. rewrite bool_decide_eq_true, HR by done.
    rewrite list_elem_of_filter, Hin.
    unfold is_Some.
    destruct (observed !! n); cbn; destruct (announced _ _ _ _ n); cbn; naive_solver. }
  split_and!; unfold Commit in *;
    destruct (commit_fold ref policy observed claims (sort_strings order)
      (mkCommit by_ t (RouteRef_ID ref policy) ∅ 0 []) false) as (Hrot & Hrej & Hby & Hat & Hid);
    pose proof (commit_fold_grace ref policy observed claims by_ t (RouteRef_ID ref policy)
      (sort_strings order)) as (Hg & H0 & Hle & Hex);
    set (r := (foldl _ _ _).1) in *.
  - done.
  - intros n. by apply HR.
  - intros n. rewrite Hrej. cbn [Rejected app].
    rewrite (filter_map_count _ _ _ (announced ref policy observed claims)) by done.
    by rewrite (bool_decide_ext _ _ (Hin n)).
  - intros x. rewrite Hrej. cbn [Rejected app]. intros Hx.
    apply list_elem_of_In, in_map_iff in Hx as (n & <- & _). done.
  - intros n Hn%Hacc. by apply Hle.
  - intros HE. apply H0. destruct (filter _ _) as [|n l] eqn:Hf; [done|].
    assert (Commit_Accepted r n = true) as Ha by (apply Hacc; left).
    unfold Commit_Accepted in Ha. rewrite HE in Ha. done.
  - intros HE. destruct Hex as (n & Hn & Heq); [|exists n; by rewrite Hacc].
    intros Hf. rewrite Hf in Hacc. apply HE, map_empty. intros n.
    destruct (Rotations r !! n) eqn:Hr; [|done]. exfalso.
    eapply not_elem_of_nil, Hacc. unfold Commit_Accepted. rewrite Hr. done.
Qed.

Lemma Commit_spec_witness :
  ["b"; "a"] ≡ₚ (map_to_list (<["a" := 5]> {["b" := 0]} : gmap string Time)).*1 ∧
  (let ref := mkRef "a" "t" in let policy := DefaultRotationPolicy in
   let observed := <["a" := 5]> {["b" := 0]} : gmap string Time in
   let claims := {["a" := mkClaim "a" 5 7 "p" (RouteRef_ID ref policy)]} in
   let c := Commit ref "m" 9 policy observed claims ["b"; "a"] in
   commit_Grace c = 7 ∧ Rotations c !! "a" = Some 5 ∧
   commit_Grace c ≤ verdict_Grace (commit_verdict ref policy observed claims "a")).
Proof.
  assert (["b"; "a"] ≡ₚ (map_to_list (<["a" := 5]> {["b" := 0]} : gmap string Time)).*1) as Hp.
  { vm_compute. apply perm_swap || apply Permutation_refl. }
  split; [exact Hp|]. cbv zeta.
  split; [vm_compute; reflexivity|]. split; [vm_compute; reflexivity|].
  apply (Commit_spec (mkRef "a" "t") "m" 9 DefaultRotationPolicy _
    {["a" := mkClaim "a" 5 7 "p" (RouteRef_ID (mkRef "a" "t") DefaultRotationPolicy)]} _ Hp).
  vm_compute. reflexivity.
Defined.

(** A store vets a commit against its own record. It agrees exactly when
    the commit holds the rotation the store saw for the node, or holds none and
    the store saw none. *)
Theorem Commit_Check_agrees (c : RotationCommit) (nodeID : string) (storeSaw : Time) :
  ((Commit_Check c nodeID storeSaw).1 = true ↔
     Rotations c !! nodeID = if IsZero storeSaw then None else Some storeSaw) ∧
  ((Commit_Check c nodeID storeSaw).1 = true ↔ (Commit_Check c nodeID storeSaw).2 = CommitAgrees).
Proof.
  unfold Commit_Check, IsZero, TimeEqual.
  destruct (Rotations c !! nodeID) as [o|]; destruct (Z.eqb_spec storeSaw 0) as [->|Hs]; cbn;
    try (split; split; done).
  destruct (Z.eqb_spec o storeSaw) as [->|Hne]; cbn; split; split; done || congruence.
Qed.
