(* ===== verification/ToolProxy.v ===== *)
(** * Honeypot routes ([internal/mcp_faults/tool_proxy.go])

    A [ToolProxy] presents a tool under a prefix that moves with the rotation
    schedule, keeps a bounded ledger of the prefixes it left, attributes calls to
    the skills it stamped and prices what it cannot attribute. The [ToolProxy]
    methods of [rotation_verify.go] ([RouteID], [Ref], [AdoptLedger],
    [Announcement]) are here too. A method holds the proxy's mutex, so it is one
    program; every reading of the clock is a separate draw. The honeypot's
    [fmt.Printf] trace and the two [String] renderings are not modelled. *)

From Stdlib Require Import ZArith Lia Ascii.
From stdpp Require Import base tactics strings gmap relations.
From stdpp Require Import list.
From S2P Require Import Prelude RouteSchedule PadStack RotationVerify.

Open Scope Z_scope.

(** ** Data *)

Record SkillRoute := mkSkill {
  sk_Name : string;
  sk_Stamp : string;
  sk_Prefix : string;
  sk_Epoch : Z;
  sk_Burned : bool;
  sk_BurnedAt : Time;
}.

Record InvalidToolCall := mkInvalidCall {
  ic_CallName : string;
  ic_ExpectedPrefix : string;
  ic_ActualPrefix : string;
  ic_LikelyFuzzed : bool;
  ic_Timestamp : Time;
  ic_Source : string;
  ic_Skill : string;
  ic_Epoch : Z;
  ic_CallEpoch : Z;
}.

Record ToolProxy := mkToolProxy {
  ProxyID : string;
  ToolName : string;
  tp_Scope : string;
  tp_Prefix : string;
  tp_Schedule : RouteSchedule;
  tp_Epoch : Z;
  Retired : list RetiredRoute;
  InvalidCalls : list InvalidToolCall;
  HoneypotMode : bool;
  SuspicionLevel : Z;
  Skills : list SkillRoute;
  tp_Rotations : Z;
  LastRotation : Time;
  GraceWindow : Duration;
  tp_CreatedAt : Time;
}.

Definition burnedSkillCost : Z := 2.
Definition ClusterRotationPeriod : Duration := 5 * Second.
Definition epochSkewTolerance : Z := 1.

(** [t.UnixNano()], the Unix epoch being 62135596800 s after Go's zero instant. *)
Definition UnixNano (t : Time) : Z := wrap_i64 (t - 62135596800 * Second).

(** ** Construction *)

(** [now] and [nonce] are what [time.Now] and [newNonce] return. *)
Definition NewToolProxy (now : Time) (nonce : string) (toolName : string) (honeypotMode : bool)
  : ToolProxy :=
  let schedule := NewRouteSchedule nonce now ClusterRotationPeriod in
  mkToolProxy ("proxy_" +:+ toolName +:+ "_" +:+ Itoa (UnixNano now)) toolName ""
    (PrefixAt schedule 0) schedule 0 [] [] honeypotMode 1 [] 0 zeroTime 0 now.

(** ** Grace *)

Definition ToolProxy_grace (tp : ToolProxy) : Duration :=
  let claimed := GraceWindow tp in
  let claimed := if claimed <=? 0 then DefaultGraceWindow else claimed in
  EffectiveGrace DefaultRotationPolicy claimed.

Definition withinGrace (burnedAt : Time) : M ToolProxy bool :=
  now ← clock;
  tp ← get;
  mret (TimeSub now burnedAt <=? ToolProxy_grace tp).

(** ** Rotation *)

Definition ensureSchedule : M ToolProxy unit :=
  tp ← get;
  if Schedule_Valid (tp_Schedule tp) then mret tt
  else
    nonce ← draw;
    origin ← clock;
    modify (λ tp, {| tp with
      tp_Schedule := mkSchedule nonce (tp_Epoch tp) origin ClusterRotationPeriod |}).

Definition burn_skill (at_ : Time) (s : SkillRoute) : SkillRoute :=
  if sk_Burned s then s else {| s with sk_Burned := true; sk_BurnedAt := at_ |}.

Definition burnSkillsAt (at_ : Time) : M ToolProxy Z :=
  tp ← get;
  let burned := Z.of_nat (length (filter (λ s, sk_Burned s = false) (Skills tp))) in
  _ ← modify (λ tp, {| tp with Skills := map (burn_skill at_) (Skills tp) |});
  mret burned.

(** Appending to the ledger keeps its last [RetiredEpochWindow] entries. *)
Definition retire (ledger : list RetiredRoute) (r : RetiredRoute) : list RetiredRoute :=
  let ledger := ledger ++ [r] in
  let over := Z.of_nat (length ledger) - RetiredEpochWindow in
  if over >? 0 then drop (Z.to_nat over) ledger else ledger.

(** The assignments of [rotateTo] once the stamps are burned. *)
Definition open_epoch (target : Z) (closedAt at_ : Time) (tp : ToolProxy) : ToolProxy :=
  {| tp with
     Retired := if bool_decide (tp_Prefix tp = "") then Retired tp
                else retire (Retired tp) (mkRetired (tp_Epoch tp) (tp_Prefix tp) closedAt);
     tp_Epoch := target;
     tp_Prefix := PrefixAt (tp_Schedule tp) target;
     tp_Rotations := tp_Rotations tp + 1;
     LastRotation := at_;
     tp_Schedule := mkSchedule (Nonce (tp_Schedule tp)) target at_ (Period (tp_Schedule tp)) |}.

Definition rotateTo (target : Z) (closedAt : Time) : M ToolProxy Z :=
  _ ← ensureSchedule;
  at_ ← clock;
  let closedAt := if IsZero closedAt || After closedAt at_ then at_ else closedAt in
  burned ← burnSkillsAt closedAt;
  _ ← modify (open_epoch target closedAt at_);
  mret burned.

Definition syncEpoch : M ToolProxy unit :=
  tp ← get;
  if negb (Schedule_Valid (tp_Schedule tp)) then mret tt
  else
    now ← clock;
    let scheduled := EpochAt (tp_Schedule tp) now in
    if scheduled >? tp_Epoch tp then
      _ ← rotateTo scheduled (EpochEnd (tp_Schedule tp) (tp_Epoch tp));
      mret tt
    else mret tt.

Definition Rotate : M ToolProxy Z :=
  tp ← get;
  now ← clock;
  rotateTo (wrap_i64 (tp_Epoch tp + 1)) now.

Definition BurnSkills : M ToolProxy Z :=
  now ← clock;
  burnSkillsAt now.

(** ** Names *)

Definition prefixedToolName : M ToolProxy string :=
  _ ← syncEpoch;
  tp ← get;
  mret (tp_Prefix tp +:+ ToolName tp).

Definition PrefixedToolName : M ToolProxy string := prefixedToolName.

Definition ToolProxy_PrefixAt (tp : ToolProxy) (epoch : Z) : string := PrefixAt (tp_Schedule tp) epoch.

Definition Key : M ToolProxy RouteKey :=
  _ ← syncEpoch;
  tp ← get;
  mret (mkRouteKey (tp_Prefix tp) (ProxyID tp) (tp_Epoch tp)).

Definition IssueSkill (name : string) : M ToolProxy string :=
  stamp ← prefixedToolName;
  _ ← modify (λ tp, {| tp with
    Skills := Skills tp ++ [mkSkill name stamp (tp_Prefix tp) (tp_Epoch tp) false zeroTime] |});
  mret stamp.

(** ** Attribution *)

(** Newest first. *)
Definition retiredRoute (tp : ToolProxy) (callName : string) : option RetiredRoute :=
  find (λ r, negb (streq (ret_Prefix r) "") && HasPrefix callName (ret_Prefix r))
    (reverse (Retired tp)).

Definition aheadRoute (tp : ToolProxy) (callName : string) : Z * string :=
  if negb (Schedule_Valid (tp_Schedule tp)) then (-1, "")
  else
    match find (λ ahead,
      let prefix := PrefixAt (tp_Schedule tp) (wrap_i64 (tp_Epoch tp + ahead)) in
      negb (streq prefix "") && HasPrefix callName prefix) (seqZ 1 epochSkewTolerance) with
    | Some ahead => (wrap_i64 (tp_Epoch tp + ahead), "ahead-route-epoch")
    | None => (-1, "")
    end.

(** The stamped skill a call names, and whether it names the exact stamp. *)
Definition attribute (tp : ToolProxy) (callName : string) : option (SkillRoute * bool) :=
  match find (λ c, streq (sk_Stamp c) callName) (Skills tp) with
  | Some c => Some (c, true)
  | None =>
      c ← find (λ c, negb (streq (sk_Prefix c) "") && HasPrefix callName (sk_Prefix c)) (Skills tp);
      Some (c, false)
  end.

Definition extractPrefix (callName : string) : string :=
  match Split callName "_" with
  | p :: _ :: _ => p +:+ "_"
  | _ => ""
  end.

Definition sourceFromCall (callName expectedToolName : string) : string :=
  if callName =s expectedToolName then "direct"
  else if Contains callName "honeypot" || Contains callName "_" then "fuzz"
  else "other".

Definition callSource (tp : ToolProxy) (callName attributed : string) (direct : bool)
  (reason : string) : string :=
  if negb (attributed =s "") then "skill"
  else if (reason =s "stale-route-epoch") || (reason =s "ahead-route-epoch") then "stale"
  else if direct then "direct"
  else sourceFromCall callName (ToolName tp).

(** ** Validation *)

(** A stage of [ValidateCall] either accepts the call or hands on the reason, the
    skill it was attributed to and the epoch of its prefix. *)
Inductive stage :=
  | Accept
  | Suspect (reason attributed : string) (callEpoch : Z).

Definition attribution_stage (callName : string) : M ToolProxy stage :=
  tp ← get;
  match attribute tp callName with
  | Some (skill, exact) =>
      if negb (sk_Burned skill) then
        mret (Suspect "skill-route-mismatch" (sk_Name skill) (sk_Epoch skill))
      else if exact then
        inGrace ← withinGrace (sk_BurnedAt skill);
        if inGrace : bool then mret Accept
        else mret (Suspect "burned-skill-route" (sk_Name skill) (sk_Epoch skill))
      else mret (Suspect "burned-skill-route" (sk_Name skill) (sk_Epoch skill))
  | None => mret (Suspect "" "" (-1))
  end.

Definition retired_stage (callName attributed : string) (callEpoch : Z) : M ToolProxy stage :=
  tp ← get;
  match retiredRoute tp callName with
  | Some retired =>
      if callName =s (ret_Prefix retired +:+ ToolName tp) then
        inGrace ← withinGrace (RetiredAt retired);
        if inGrace : bool then mret Accept
        else mret (Suspect "stale-route-epoch" attributed (ret_Epoch retired))
      else mret (Suspect "stale-route-epoch" attributed (ret_Epoch retired))
  | None => mret (Suspect "" attributed callEpoch)
  end.

(** What the call's shape says once attribution and the ledgers have spoken:
    the final reason, and the two likelihoods. *)
Definition shape_stage (tp : ToolProxy) (callName attributed reason : string)
  : string * bool * bool :=
  let likelyDirect := (callName =s ToolName tp) && (attributed =s "") in
  let reason := if likelyDirect then "direct-call-to-tool-bypasses-proxy" else reason in
  let likelyFuzzed := (reason =s "") && Contains callName "_" in
  let reason := if likelyFuzzed then "fuzzed-or-wrong-prefix" else reason in
  let reason := if (reason =s "") && negb (Contains callName "_")
                then "unprefixed-malformed" else reason in
  (reason, likelyFuzzed, likelyDirect).

(** The log entry of a suspicious call. *)
Definition log_entry (tp : ToolProxy) (callName attributed reason : string)
  (likelyFuzzed likelyDirect : bool) (callEpoch : Z) (now : Time) : InvalidToolCall :=
  mkInvalidCall callName (tp_Prefix tp) (extractPrefix callName) likelyFuzzed now
    (callSource tp callName attributed likelyDirect reason) attributed (tp_Epoch tp) callEpoch.

Definition log_call (callName attributed reason : string) (callEpoch : Z)
  : M ToolProxy (bool * string) :=
  tp ← get;
  let '(callEpoch, reason) :=
    if reason =s "" then aheadRoute tp callName else (callEpoch, reason) in
  let '(reason, likelyFuzzed, likelyDirect) := shape_stage tp callName attributed reason in
  now ← clock;
  _ ← modify (λ tp, {| tp with InvalidCalls := InvalidCalls tp ++
        [log_entry tp callName attributed reason likelyFuzzed likelyDirect callEpoch now] |});
  mret (false, reason).

Definition ValidateCall (callName : string) : M ToolProxy (bool * string) :=
  _ ← syncEpoch;
  expected ← prefixedToolName;
  if callName =s expected then mret (true, "")
  else
    st ← attribution_stage callName;
    match st with
    | Accept => mret (true, "")
    | Suspect reason attributed callEpoch =>
        st ← (if reason =s "" then retired_stage callName attributed callEpoch
              else mret (Suspect reason attributed callEpoch));
        match st with
        | Accept => mret (true, "")
        | Suspect reason attributed callEpoch => log_call callName attributed reason callEpoch
        end
    end.

Definition InvalidCount (tp : ToolProxy) : Z := Z.of_nat (length (InvalidCalls tp)).

(** ** Metrics *)

Record ToolProxyMetrics := mkToolProxyMetrics {
  tpm_ProxyID : string;
  tpm_ToolName : string;
  tpm_Prefix : string;
  tpm_Epoch : Z;
  tpm_Rotations : Z;
  TotalInvalid : Z;
  FuzzAttempts : Z;
  DirectCalls : Z;
  SkillRouteCalls : Z;
  StaleRouteCalls : Z;
  WrongPrefix : Z;
  Distance42i : Z;
  tpm_HoneypotMode : bool;
  tpm_SuspicionLevel : Z;
}.

Definition count_calls (f : InvalidToolCall → bool) (calls : list InvalidToolCall) : Z :=
  Z.of_nat (length (filter (λ c, f c = true) calls)).

Definition GetInvalidCallMetrics (tp : ToolProxy) : ToolProxyMetrics :=
  let calls := InvalidCalls tp in
  let totalInvalid := Z.of_nat (length calls) in
  let fuzzAttempts := count_calls ic_LikelyFuzzed calls in
  let directCalls := count_calls (λ c, ic_Source c =s "direct") calls in
  let skillRouteCalls := count_calls (λ c, ic_Source c =s "skill") calls in
  let staleRouteCalls := count_calls (λ c, ic_Source c =s "stale") calls in
  let distanceCost := 0 in
  let distanceCost := if fuzzAttempts >? 0 then distanceCost + fuzzAttempts * 8 else distanceCost in
  let distanceCost := if directCalls >? 0 then distanceCost + directCalls * 24 else distanceCost in
  let attributable := skillRouteCalls + staleRouteCalls in
  let distanceCost :=
    if attributable >? 0 then distanceCost + attributable * burnedSkillCost else distanceCost in
  let rest := totalInvalid - fuzzAttempts - directCalls - skillRouteCalls - staleRouteCalls in
  let distanceCost := if rest >? 0 then distanceCost + rest * 16 else distanceCost in
  mkToolProxyMetrics (ProxyID tp) (ToolName tp) (tp_Prefix tp) (tp_Epoch tp) (tp_Rotations tp)
    totalInvalid fuzzAttempts directCalls skillRouteCalls staleRouteCalls rest distanceCost
    (HoneypotMode tp) (SuspicionLevel tp).

(** ** Failover and announcement ([rotation_verify.go]) *)

Definition ToolProxy_Ref (tp : ToolProxy) : RouteRef := mkRef (tp_Scope tp) (ToolName tp).

Definition ToolProxy_RouteID (tp : ToolProxy) : string :=
  RouteRef_ID (ToolProxy_Ref tp) DefaultRotationPolicy.

(** [from] is the predecessor's ledger and its last rotation, read under its own
    lock; [None] is a nil predecessor. *)
Definition adopt_skill (st : list SkillRoute * Z) (candidate : SkillRoute) : list SkillRoute * Z :=
  let '(skills, adopted) := st in
  if existsb (λ s, streq (sk_Stamp s) (sk_Stamp candidate)) skills then (skills, adopted)
  else (skills ++ [candidate], adopted + 1).

Definition AdoptLedger (from : option ToolProxy) (tp : ToolProxy) : ToolProxy * Z :=
  match from with
  | None => (tp, 0)
  | Some from =>
      let '(skills, adopted) := foldl adopt_skill (Skills tp, 0) (Skills from) in
      ({| tp with
          Skills := skills;
          LastRotation := if After (LastRotation from) (LastRotation tp)
                          then LastRotation from else LastRotation tp |}, adopted)
  end.

Definition Announcement (tp : ToolProxy) : option RotationClaim :=
  if IsZero (LastRotation tp) then None
  else Some (mkClaim (ProxyID tp) (LastRotation tp) (ToolProxy_grace tp) (tp_Prefix tp)
    (ToolProxy_RouteID tp)).

(** ** Clusters *)

Record ToolProxyCluster := mkCluster {
  Proxies : gmap string ToolProxy;
  TotalInvalidCalls : Z;
  AttackDetected : bool;
  SuspiciousTools : list string;
  tpc_CreatedAt : Time;
}.

(** Each proxy reads the clock and draws its nonce in turn; a repeated name
    replaces the proxy made before. *)
Fixpoint make_proxies (toolNames : list string) (honeypotMode : bool)
  (proxies : gmap string ToolProxy) : M ToolProxyCluster (gmap string ToolProxy) :=
  match toolNames with
  | [] => mret proxies
  | toolName :: rest =>
      now ← clock;
      nonce ← draw;
      make_proxies rest honeypotMode (<[toolName := NewToolProxy now nonce toolName honeypotMode]> proxies)
  end.

Definition NewToolProxyCluster (toolNames : list string) (honeypotMode : bool)
  : M ToolProxyCluster unit :=
  now ← clock;
  proxies ← make_proxies toolNames honeypotMode ∅;
  modify (λ _, mkCluster proxies 0 false [] now).

(** Run a proxy's method on the proxy the cluster holds under a name. *)
Definition on_proxy {A} (toolName : string) (proxy : ToolProxy) (m : M ToolProxy A)
  : M ToolProxyCluster A := λ env tick tpc,
  let '(a, tick, proxy) := m env tick proxy in
  (a, tick, {| tpc with Proxies := <[toolName := proxy]> (Proxies tpc) |}).

Definition noMetrics : ToolProxyMetrics := mkToolProxyMetrics "" "" "" 0 0 0 0 0 0 0 0 0 false 0.

(** The counters the cluster keeps after [proxy] has handled a call of
    [toolName]. *)
Definition cluster_record (toolName : string) (isCorrect : bool) (proxy : ToolProxy)
  (tpc : ToolProxyCluster) : ToolProxyCluster :=
  let recorded := InvalidCount proxy in
  let hit := negb isCorrect && (recorded >? 3) in
  {| tpc with
     TotalInvalidCalls := TotalInvalidCalls tpc + recorded;
     AttackDetected := if hit then true else AttackDetected tpc;
     SuspiciousTools := if hit then SuspiciousTools tpc ++ [toolName] else SuspiciousTools tpc |}.

Definition ValidateToolCall (toolName callName : string)
  : M ToolProxyCluster (bool * string * ToolProxyMetrics) :=
  tpc ← get;
  match Proxies tpc !! toolName with
  | None => mret (false, "unknown-tool",
      {| noMetrics with tpm_ToolName := toolName; Distance42i := 32 |})
  | Some proxy =>
      r ← on_proxy toolName proxy (ValidateCall callName);
      tpc ← get;
      let proxy := default proxy (Proxies tpc !! toolName) in
      _ ← modify (cluster_record toolName r.1 proxy);
      mret (r.1, r.2, if negb r.1 then GetInvalidCallMetrics proxy else noMetrics)
  end.

Record ClusterHoneypotMetrics := mkClusterMetrics {
  TotalTools : Z;
  chm_TotalInvalidCalls : Z;
  TotalDistance42i : Z;
  chm_AttackDetected : bool;
  chm_SuspiciousTools : list string;
  ToolMetrics : gmap string ToolProxyMetrics;
}.

Definition sumZ (l : list Z) : Z := foldr Z.add 0 l.

(** The sums over the map do not depend on its iteration order. *)
Definition GetClusterMetrics (tpc : ToolProxyCluster) : ClusterHoneypotMetrics :=
  let toolStatus := GetInvalidCallMetrics <$> Proxies tpc in
  let all := (map_to_list toolStatus).*2 in
  mkClusterMetrics (Z.of_nat (size (Proxies tpc)))
    (sumZ (map TotalInvalid all)) (sumZ (map Distance42i all))
    (AttackDetected tpc) (SuspiciousTools tpc) toolStatus.

(** ** Facts: rotation *)

(** The prefix of an epoch depends on the schedule's nonce alone. *)
Definition prefix_of (nonce : string) (epoch : Z) : string :=
  PrefixAt (mkSchedule nonce 0 0 0) epoch.

Lemma PrefixAt_prefix_of s e : PrefixAt s e = prefix_of (Nonce s) e.
Proof. done. Qed.

(** The state after a rotation whose instants have been read. *)
Definition rotated (target : Z) (closedAt at_ : Time) (tp : ToolProxy) : ToolProxy :=
  open_epoch target closedAt at_ {| tp with Skills := map (burn_skill closedAt) (Skills tp) |}.

(** A closure is never dated in the future. *)
Definition closing (closedAt at_ : Time) : Time :=
  if IsZero closedAt || After closedAt at_ then at_ else closedAt.

Definition active_skills (tp : ToolProxy) : Z :=
  Z.of_nat (length (filter (λ s, sk_Burned s = false) (Skills tp))).

Lemma wp_rotateTo target closedAt env tick tp Q :
  Schedule_Valid (tp_Schedule tp) = true →
  wp (rotateTo target closedAt) env tick tp Q =
  Q (active_skills tp) (1 + tick)%nat
    (rotated target (closing closedAt (env_clock env tick)) (env_clock env tick) tp).
Proof.
  intros Hv. unfold rotateTo, ensureSchedule, burnSkillsAt. wp_go. rewrite Hv. by wp_go.
Qed.

Lemma wp_syncEpoch env tick tp Q :
  Schedule_Valid (tp_Schedule tp) = true →
  let now := env_clock env tick in
  let scheduled := EpochAt (tp_Schedule tp) now in
  wp syncEpoch env tick tp Q =
  if scheduled >? tp_Epoch tp then
    let at_ := env_clock env (1 + tick) in
    Q tt (2 + tick)%nat
      (rotated scheduled (closing (EpochEnd (tp_Schedule tp) (tp_Epoch tp)) at_) at_ tp)
  else Q tt (1 + tick)%nat tp.
Proof.
  intros Hv. cbv zeta. unfold syncEpoch. wp_go. rewrite Hv. cbn [negb]. wp_go.
  destruct (_ >? _); [|by wp_go]. wp_go. by rewrite wp_rotateTo.
Qed.

Lemma retire_spec ledger r :
  Z.of_nat (length (retire ledger r)) ≤ RetiredEpochWindow ∧
  ∃ k, retire ledger r = drop k ledger ++ [r].
Proof.
  unfold retire. rewrite length_app. cbn [length].
  destruct (Z.gtb_spec (Z.of_nat (length ledger + 1) - RetiredEpochWindow) 0) as [H|H].
  - split; [rewrite length_drop, length_app; cbn [length]; unfold RetiredEpochWindow in *; lia|].
    eexists. apply drop_app_le. unfold RetiredEpochWindow in *. lia.
  - split; [rewrite length_app; cbn [length]; lia|]. by exists 0%nat.
Qed.

(** ** Facts: the invariant of a route *)

(** Fuzz is a reading of last resort: an entry counted as fuzz has no other
    source. *)
Definition entry_ok (c : InvalidToolCall) : Prop :=
  ic_LikelyFuzzed c = true → ic_Source c = "fuzz".

Record route_ok (nonce : string) (tp : ToolProxy) : Prop := {
  ro_nonce : Nonce (tp_Schedule tp) = nonce;
  ro_valid : Schedule_Valid (tp_Schedule tp) = true;
  ro_base : Base (tp_Schedule tp) = tp_Epoch tp;
  ro_prefix : tp_Prefix tp = prefix_of nonce (tp_Epoch tp);
  ro_window : Z.of_nat (length (Retired tp)) ≤ RetiredEpochWindow;
  ro_retired : Forall (λ r, ret_Prefix r = prefix_of nonce (ret_Epoch r)) (Retired tp);
  ro_calls : Forall entry_ok (InvalidCalls tp);
}.

(** A stamp is the tool's name under the prefix of the epoch it was issued in,
    and it is active only while that epoch is. *)
Definition skill_ok (nonce : string) (tp : ToolProxy) (s : SkillRoute) : Prop :=
  sk_Prefix s = prefix_of nonce (sk_Epoch s) ∧ sk_Stamp s = sk_Prefix s +:+ ToolName tp ∧
  (sk_Burned s = false → sk_Epoch s = tp_Epoch tp).

Definition skills_ok (nonce : string) (tp : ToolProxy) : Prop :=
  Forall (skill_ok nonce tp) (Skills tp).

Lemma route_ok_nonce nonce tp : route_ok nonce tp → nonce ≠ "".
Proof.
  intros H E. pose proof (ro_valid _ _ H) as Hv. unfold Schedule_Valid in Hv.
  by rewrite (ro_nonce _ _ H), E in Hv.
Qed.

Lemma prefix_of_length nonce e : nonce ≠ "" → String.length (prefix_of nonce e) = 18%nat.
Proof. intros H. by apply PrefixAt_length. Qed.

Lemma rotated_ok nonce target closedAt at_ tp :
  route_ok nonce tp → route_ok nonce (rotated target closedAt at_ tp).
Proof.
  intros [Hn Hv Hb Hp Hw Hr Hc]. split; cbn; try done.
  - by rewrite PrefixAt_prefix_of, Hn.
  - case_bool_decide; [done|]. apply retire_spec.
  - case_bool_decide; [done|].
    destruct (retire_spec (Retired tp) (mkRetired (tp_Epoch tp) (tp_Prefix tp) closedAt)) as [_ [i ->]].
    apply Forall_app. split; [by apply Forall_drop|]. by repeat constructor.
Qed.

Lemma rotated_skills_ok nonce target closedAt at_ tp :
  skills_ok nonce tp → skills_ok nonce (rotated target closedAt at_ tp).
Proof.
  unfold skills_ok, skill_ok, rotated, open_epoch. cbn. intros H. apply Forall_map.
  eapply Forall_impl; [exact H|]. intros s (Hp & Hs & Hb). unfold burn_skill.
  destruct (sk_Burned s) eqn:E; cbn; [|done]. by rewrite E.
Qed.

(** What every operation keeps. *)
Definition both_ok (nonce : string) (tp : ToolProxy) : Prop := route_ok nonce tp ∧ skills_ok nonce tp.

Lemma wp_syncEpoch_ok nonce env tick tp (Q : unit → nat → ToolProxy → Prop) :
  route_ok nonce tp →
  (∀ tick' tp', route_ok nonce tp' → (skills_ok nonce tp → skills_ok nonce tp') →
     ToolName tp' = ToolName tp → GraceWindow tp' = GraceWindow tp →
     InvalidCalls tp' = InvalidCalls tp → tp_Epoch tp ≤ tp_Epoch tp' →
     Q tt tick' tp') →
  wp syncEpoch env tick tp Q.
Proof.
  intros Hok HQ. rewrite wp_syncEpoch by apply (ro_valid _ _ Hok). cbv zeta.
  destruct (Z.gtb_spec (EpochAt (tp_Schedule tp) (env_clock env tick)) (tp_Epoch tp)) as [H|H].
  - apply HQ; try done; [by apply rotated_ok|by apply rotated_skills_ok|]. cbn. lia.
  - apply HQ; done.
Qed.

(** ** Facts: validation *)

(** The call names a burned stamp whose rotation is within grace at some instant
    the program reads. *)
Definition stamp_in_grace (env : Env) (tp : ToolProxy) (callName : string) : Prop :=
  ∃ s i, s ∈ Skills tp ∧ sk_Stamp s = callName ∧ sk_Burned s = true ∧
    TimeSub (env_clock env i) (sk_BurnedAt s) ≤ ToolProxy_grace tp.

(** The call names the tool under a retired prefix that is within grace. *)
Definition ledger_in_grace (env : Env) (tp : ToolProxy) (callName : string) : Prop :=
  ∃ r i, r ∈ Retired tp ∧ callName = ret_Prefix r +:+ ToolName tp ∧
    TimeSub (env_clock env i) (RetiredAt r) ≤ ToolProxy_grace tp.

(** What a stage that does not change the route may answer. *)
Definition stage_ok (P : Prop) (st : stage) : Prop :=
  match st with
  | Accept => P
  | Suspect reason attributed _ => reason = "" → attributed = ""
  end.

Lemma find_Some_elem {A} (f : A → bool) l x : find f l = Some x → x ∈ l ∧ f x = true.
Proof. intros H%find_some. by rewrite list_elem_of_In. Qed.

Lemma wp_attribution_stage callName env tick tp Q :
  (∀ st tick', stage_ok (stamp_in_grace env tp callName) st → Q st tick' tp) →
  wp (attribution_stage callName) env tick tp Q.
Proof.
  intros HQ. unfold attribution_stage. wp_go.
  destruct (attribute tp callName) as [[s exact]|] eqn:Ha; [|wp_go; by apply HQ].
  destruct (sk_Burned s) eqn:Hb; cbn [negb]; [|wp_go; by apply HQ].
  destruct exact; [|wp_go; by apply HQ].
  unfold withinGrace. wp_go.
  destruct (Z.leb_spec (TimeSub (env_clock env tick) (sk_BurnedAt s)) (ToolProxy_grace tp)) as [Hg|Hg];
    wp_go; apply HQ; [|done].
  unfold attribute in Ha. destruct (find _ (Skills tp)) as [c|] eqn:Hf.
  - simplify_eq. apply find_Some_elem in Hf as [Hin Heq]. apply streq_true in Heq.
    exists s, tick. done.
  - by destruct (find (λ c, _ && _) (Skills tp)).
Qed.

Lemma wp_retired_stage callName attributed ce env tick tp Q :
  attributed = "" →
  (∀ st tick', stage_ok (ledger_in_grace env tp callName) st → Q st tick' tp) →
  wp (retired_stage callName attributed ce) env tick tp Q.
Proof.
  intros -> HQ. unfold retired_stage. wp_go.
  destruct (retiredRoute tp callName) as [r|] eqn:Hr; [|wp_go; by apply HQ].
  destruct (streq callName _) eqn:Heq; [|wp_go; by apply HQ].
  unfold withinGrace. wp_go.
  destruct (Z.leb_spec (TimeSub (env_clock env tick) (RetiredAt r)) (ToolProxy_grace tp)) as [Hg|Hg];
    wp_go; apply HQ; [|done].
  unfold retiredRoute in Hr. apply find_Some_elem in Hr as [Hin _].
  apply streq_true in Heq. exists r, tick. by rewrite elem_of_reverse in Hin.
Qed.

Lemma shape_stage_spec tp callName attributed reason :
  let '(reason', fuzzed, direct) := shape_stage tp callName attributed reason in
  reason' ≠ "" ∧
  (fuzzed = true → direct = false ∧ reason = "" ∧ reason' = "fuzzed-or-wrong-prefix" ∧
     Contains callName "_" = true ∧ (attributed = "" → callName ≠ ToolName tp)).
Proof.
  unfold shape_stage.
  destruct (streq callName (ToolName tp)) eqn:Hn; destruct (streq attributed "") eqn:Ha;
    destruct (streq reason "") eqn:Hr; destruct (Contains callName "_") eqn:Hc;
    cbn; rewrite ?Hr; cbn; rewrite ?Hr; cbn; go_bools; (split; [done|]); intros Hf;
    (discriminate Hf || (split_and!; try done; congruence)).
Qed.

Lemma wp_log_call callName attributed reason ce env tick tp Q :
  (reason = "" → attributed = "") →
  (∀ reason' entry tick', entry_ok entry → ic_CallName entry = callName → reason' ≠ "" →
     Q (false, reason') tick' {| tp with InvalidCalls := InvalidCalls tp ++ [entry] |}) →
  wp (log_call callName attributed reason ce) env tick tp Q.
Proof.
  intros Hra HQ. unfold log_call. wp_go.
  destruct (if reason =s "" then aheadRoute tp callName else (ce, reason)) as [ce' r1] eqn:He.
  assert (r1 = "" → attributed = "") as Hra'.
  { destruct (streq reason "") eqn:Hr; go_bools; [by intros _; apply Hra|].
    simplify_eq. exact Hra. }
  pose proof (shape_stage_spec tp callName attributed r1) as Hsp.
  destruct (shape_stage tp callName attributed r1) as [[r2 fuzzed] direct].
  destruct Hsp as [Hne Hf]. wp_go. apply HQ; [|done..].
  intros Hfz. cbn in Hfz |- *. destruct (Hf Hfz) as (-> & Hr1 & -> & Hcont & Hneq).
  specialize (Hra' Hr1). specialize (Hneq Hra'). unfold callSource, sourceFromCall.
  rewrite Hra'. cbn. rewrite Hcont, orb_true_r.
  rewrite (proj2 (streq_false _ _) Hneq). done.
Qed.

(** Everything a validation does: the route moves by the clock alone, and a call
    is either accepted, and then it is the current name, or a burned stamp or a
    retired name within grace; or it is logged once. *)
Lemma wp_ValidateCall nonce callName env tick tp Q :
  route_ok nonce tp →
  (∀ tick' tp', route_ok nonce tp' → (skills_ok nonce tp → skills_ok nonce tp') →
     ToolName tp' = ToolName tp → GraceWindow tp' = GraceWindow tp → tp_Epoch tp ≤ tp_Epoch tp' →
     InvalidCalls tp' = InvalidCalls tp →
     callName = tp_Prefix tp' +:+ ToolName tp' ∨ stamp_in_grace env tp' callName ∨
       ledger_in_grace env tp' callName → Q (true, "") tick' tp') →
  (∀ tick' tp' reason entry, route_ok nonce tp' → (skills_ok nonce tp → skills_ok nonce tp') →
     ToolName tp' = ToolName tp → GraceWindow tp' = GraceWindow tp → tp_Epoch tp ≤ tp_Epoch tp' →
     InvalidCalls tp' = InvalidCalls tp ++ [entry] → ic_CallName entry = callName →
     reason ≠ "" → Q (false, reason) tick' tp') →
  wp (ValidateCall callName) env tick tp Q.
Proof.
  intros Hok HA HS. unfold ValidateCall, prefixedToolName. wp_go.
  eapply wp_syncEpoch_ok; [exact Hok|]. intros t1 tp1 Hok1 Hsk1 Htn1 Hgw1 Hic1 Hep1.
  wp_go. eapply wp_syncEpoch_ok; [exact Hok1|]. intros t2 tp2 Hok2 Hsk2 Htn2 Hgw2 Hic2 Hep2.
  wp_go. assert (InvalidCalls tp2 = InvalidCalls tp) as Hic by congruence.
  assert (ToolName tp2 = ToolName tp) as Htn by congruence.
  assert (GraceWindow tp2 = GraceWindow tp) as Hgw by congruence.
  assert (tp_Epoch tp ≤ tp_Epoch tp2) as Hep by lia.
  assert (skills_ok nonce tp → skills_ok nonce tp2) as Hsk by auto.
  clear Hok1 Hsk1 Htn1 Hgw1 Hic1 Hep1 Hsk2 Htn2 Hgw2 Hic2 Hep2.
  destruct (streq callName _) eqn:Hexp; [apply streq_true in Hexp; wp_go; by apply HA; auto|].
  assert (∀ r a ce t, (r = "" → a = "") → wp (log_call callName a r ce) env t tp2 Q) as Hlog.
  { intros r a ce t Hra. apply wp_log_call; [done|]. intros r' e t' Hent Hcn Hr'.
    eapply (HS _ _ r' e); try done; cbn; [|by rewrite Hic].
    destruct Hok2. split; try done. cbn. apply Forall_app; eauto. }
  wp_go. apply wp_attribution_stage. intros [|r a ce] t3 Hst; cbn in Hst.
  { wp_go. by apply HA; auto. }
  wp_go. destruct (streq r "") eqn:Hr; [|wp_go; by apply Hlog].
  apply streq_true in Hr. apply wp_retired_stage; [by apply Hst|].
  intros [|r' a' ce'] t4 Hst'; cbn in Hst'; wp_go; [by apply HA; auto|by apply Hlog].
Qed.

(** ** The route as a transition system *)

Inductive proxy_op :=
  | OpKey
  | OpPrefixedToolName
  | OpIssueSkill (name : string)
  | OpBurnSkills
  | OpRotate
  | OpValidateCall (callName : string).

Definition run_op (op : proxy_op) : M ToolProxy unit :=
  match op with
  | OpKey => _ ← Key; mret tt
  | OpPrefixedToolName => _ ← PrefixedToolName; mret tt
  | OpIssueSkill name => _ ← IssueSkill name; mret tt
  | OpBurnSkills => _ ← BurnSkills; mret tt
  | OpRotate => _ ← Rotate; mret tt
  | OpValidateCall callName => _ ← ValidateCall callName; mret tt
  end.

(** One method call, whatever the clock and the entropy source return. *)
Inductive proxy_step (tp : ToolProxy) : ToolProxy → Prop :=
  | proxy_step_op op env tick : proxy_step tp (state (run_op op) env tick tp).

Lemma burn_skills_ok nonce at_ tp :
  skills_ok nonce tp →
  skills_ok nonce {| tp with Skills := map (burn_skill at_) (Skills tp) |}.
Proof.
  unfold skills_ok. cbn. intros H. apply Forall_map. eapply Forall_impl; [exact H|].
  intros s (Hp & Hs & Hb). unfold burn_skill, skill_ok in *.
  destruct (sk_Burned s) eqn:E; cbn; [|done]. by rewrite E.
Qed.

Lemma run_op_ok nonce op env tick tp :
  both_ok nonce tp → both_ok nonce (state (run_op op) env tick tp).
Proof.
  intros [Hok Hsk].
  enough (wp (run_op op) env tick tp (λ _ _ tp', both_ok nonce tp')) as H by by rewrite wp_run in H.
  destruct op; cbn [run_op]; unfold Key, PrefixedToolName, IssueSkill, BurnSkills, Rotate,
    prefixedToolName, burnSkillsAt; wp_go.
  - eapply wp_syncEpoch_ok; [exact Hok|]. intros ?? Hok' Hsk' _ _ _ _. wp_go. split; auto.
  - eapply wp_syncEpoch_ok; [exact Hok|]. intros ?? Hok' Hsk' _ _ _ _. wp_go. split; auto.
  - eapply wp_syncEpoch_ok; [exact Hok|]. intros ? tp' Hok' Hsk' _ _ _ _. wp_go.
    split; [by destruct Hok'|]. unfold skills_ok. cbn. apply Forall_app.
    split; [by apply Hsk'|]. repeat constructor. cbn. by apply (ro_prefix _ _ Hok').
  - split; [by destruct Hok|]. by apply burn_skills_ok.
  - rewrite wp_rotateTo by apply (ro_valid _ _ Hok). wp_go.
    split; [by apply rotated_ok|by apply rotated_skills_ok].
  - eapply wp_ValidateCall; [exact Hok|..]; intros; wp_go; split; auto.
Qed.

Lemma NewToolProxy_ok now nonce toolName hm :
  nonce ≠ "" → both_ok nonce (NewToolProxy now nonce toolName hm).
Proof.
  intros Hn. split; [|by apply Forall_nil].
  split; cbn; try done; [|by apply Forall_nil..].
  unfold Schedule_Valid. cbn. by destruct nonce.
Qed.

(** ** Properties *)



(** C9: a validation decides and records consistently. If it accepts, the call
    is the tool under the prefix now in force, or an exact burned stamp or a
    retired prefix whose closing is within grace at an instant the method reads,
    and nothing is logged; if it refuses, it gives a reason and logs exactly one
    entry, for this call. The tool never goes back to an earlier epoch. *)
Theorem ValidateCall_spec (nonce callName : string) (env : Env) (tick : nat) (tp : ToolProxy) :
  route_ok nonce tp →
  let '(ok, reason) := result (ValidateCall callName) env tick tp in
  let tp' := state (ValidateCall callName) env tick tp in
  tp_Epoch tp ≤ tp_Epoch tp' ∧
  (ok = true → reason = "" ∧ InvalidCalls tp' = InvalidCalls tp ∧
     (callName = tp_Prefix tp' +:+ ToolName tp' ∨ stamp_in_grace env tp' callName ∨
      ledger_in_grace env tp' callName)) ∧
  (ok = false → reason ≠ "" ∧
     ∃ entry, InvalidCalls tp' = InvalidCalls tp ++ [entry] ∧ ic_CallName entry = callName).
Proof.
  intros Hok.
  assert (wp (ValidateCall callName) env tick tp (λ r _ tp', let '(ok, reason) := r in
    tp_Epoch tp ≤ tp_Epoch tp' ∧
    (ok = true → reason = "" ∧ InvalidCalls tp' = InvalidCalls tp ∧
       (callName = tp_Prefix tp' +:+ ToolName tp' ∨ stamp_in_grace env tp' callName ∨
        ledger_in_grace env tp' callName)) ∧
    (ok = false → reason ≠ "" ∧
       ∃ entry, InvalidCalls tp' = InvalidCalls tp ++ [entry] ∧ ic_CallName entry = callName))) as H.
  { eapply wp_ValidateCall; [exact Hok|..]; intros; (split; [done|]); (split; [|eauto]); done. }
  by rewrite wp_run in H.
Qed.

Lemma ValidateCall_spec_witness :
  route_ok "k" (NewToolProxy 3 "k" "tool" false) ∧
  let '(ok, reason) := result (ValidateCall "tool") (frozen 9 "n") 0 (NewToolProxy 3 "k" "tool" false) in
  let tp' := state (ValidateCall "tool") (frozen 9 "n") 0 (NewToolProxy 3 "k" "tool" false) in
  tp_Epoch (NewToolProxy 3 "k" "tool" false) ≤ tp_Epoch tp' ∧
  (ok = true → reason = "" ∧ InvalidCalls tp' = InvalidCalls (NewToolProxy 3 "k" "tool" false) ∧
     ("tool" = tp_Prefix tp' +:+ ToolName tp' ∨ stamp_in_grace (frozen 9 "n") tp' "tool" ∨
      ledger_in_grace (frozen 9 "n") tp' "tool")) ∧
  (ok = false → reason ≠ "" ∧
     ∃ entry, InvalidCalls tp' = InvalidCalls (NewToolProxy 3 "k" "tool" false) ++ [entry] ∧
       ic_CallName entry = "tool").
Proof.
  assert (route_ok "k" (NewToolProxy 3 "k" "tool" false)) as Hok.
  { apply NewToolProxy_ok. discriminate. }
  split; [exact Hok|]. apply (ValidateCall_spec "k" "tool" (frozen 9 "n") 0 _ Hok).
Defined.

(** A name handed out at the epoch in force, and the instants at which it must
    still work: the epoch is open, or closed no longer ago than the grace. *)
Definition still_good (t : Time) (tp : ToolProxy) : Prop :=
  EpochAt (tp_Schedule tp) t ≤ tp_Epoch tp ∨
  TimeSub t (EpochEnd (tp_Schedule tp) (tp_Epoch tp)) ≤ ToolProxy_grace tp.

Lemma grace_bounds tp : 0 < ToolProxy_grace tp ≤ DefaultGraceWindow.
Proof.
  unfold ToolProxy_grace, EffectiveGrace, DefaultRotationPolicy, DefaultGraceWindow, Second.
  cbn [MaxGrace]. repeat case_match; go_bools; lia.
Qed.

Lemma EpochAt_at_origin nonce base t period :
  in_i64 base → EpochAt (mkSchedule nonce base t period) t = base.
Proof.
  intros Hb. unfold EpochAt. cbn [Base Origin Period]. case_match; [done|].
  apply orb_false_iff in H as [H _]. unfold Schedule_Valid in H. cbn in H.
  assert (period ≠ 0) by (intros ->; by rewrite andb_false_r in H).
  rewrite TimeSub_self, Z.quot_0_l, Z.add_0_r by done. by apply wrap_i64_id.
Qed.

Lemma EpochAt_in_i64 s now : Base s < EpochAt s now → in_i64 (EpochAt s now).
Proof. unfold EpochAt. case_match; [lia|]. intros _. apply wrap_i64_range. Qed.

(** Attribution of the name under the prefix that was just retired. *)
Lemma attribute_retired nonce target closedAt at_ tp :
  route_ok nonce tp → skills_ok nonce tp →
  Forall (λ s, sk_Burned s = true → sk_Prefix s ≠ tp_Prefix tp) (Skills tp) →
  let tp' := rotated target closedAt at_ tp in
  match attribute tp' (tp_Prefix tp +:+ ToolName tp) with
  | Some (s, exact) => exact = true ∧ sk_Burned s = true ∧ sk_BurnedAt s = closedAt
  | None => True
  end.
Proof.
  intros Hok Hsk Hnb tp'. pose proof (route_ok_nonce _ _ Hok) as Hne.
  assert (∀ c, c ∈ Skills tp' → String.length (sk_Prefix c) = String.length (tp_Prefix tp) ∧
    sk_Stamp c = sk_Prefix c +:+ ToolName tp ∧
    (sk_Prefix c = tp_Prefix tp → sk_Burned c = true ∧ sk_BurnedAt c = closedAt)) as Hall.
  { intros c Hc. subst tp'. unfold rotated, open_epoch in Hc. cbn in Hc.
    apply list_elem_of_fmap in Hc as (c0 & -> & Hc0).
    unfold skills_ok in Hsk. rewrite Forall_forall in Hsk, Hnb.
    specialize (Hsk c0 Hc0) as (Hp & Hs & _). specialize (Hnb c0 Hc0).
    assert (String.length (sk_Prefix c0) = String.length (tp_Prefix tp)).
    { rewrite Hp, (ro_prefix _ _ Hok). by rewrite !prefix_of_length. }
    unfold burn_skill. destruct (sk_Burned c0) eqn:E; cbn; [|done].
    split; [done|]. split; [done|]. intros Hpe. by destruct (Hnb eq_refl). }
  unfold attribute. destruct (find (λ c, streq (sk_Stamp c) _) _) as [c|] eqn:Hf.
  - apply find_Some_elem in Hf as [Hin Heq]. apply streq_true in Heq.
    destruct (Hall c Hin) as (Hl & Hst & Hb). split; [done|]. apply Hb.
    rewrite Hst in Heq. by apply sapp_inj_length in Heq as [-> _].
  - destruct (find (λ c, negb _ && _) _) as [c|] eqn:Hf2; [|done]. exfalso.
    apply find_Some_elem in Hf2 as [Hin Heq]. apply andb_true_iff in Heq as [_ Hpre].
    destruct (Hall c Hin) as (Hl & Hst & _).
    apply HasPrefix_same_length in Hpre; [|done].
    eapply find_none in Hf; [|by apply list_elem_of_In]. apply streq_false in Hf.
    by rewrite Hst, <- Hpre in Hf.
Qed.

Lemma retiredRoute_newest nonce target closedAt at_ tp :
  route_ok nonce tp →
  retiredRoute (rotated target closedAt at_ tp) (tp_Prefix tp +:+ ToolName tp) =
  Some (mkRetired (tp_Epoch tp) (tp_Prefix tp) closedAt).
Proof.
  intros Hok. pose proof (route_ok_nonce _ _ Hok) as Hne.
  assert (tp_Prefix tp ≠ "") as Hp.
  { rewrite (ro_prefix _ _ Hok). by apply PrefixAt_nonempty. }
  unfold retiredRoute, rotated, open_epoch. cbn [Retired tp_Prefix tp_Epoch].
  rewrite bool_decide_eq_false_2 by done.
  destruct (retire_spec (Retired tp) (mkRetired (tp_Epoch tp) (tp_Prefix tp) closedAt)) as [_ [i ->]].
  rewrite reverse_snoc. cbn [find ret_Prefix]. rewrite HasPrefix_app.
  by rewrite (proj2 (streq_false _ _) Hp).
Qed.



(** ** Facts: metrics *)

Lemma count_calls_app f l l' : count_calls f (l ++ l') = count_calls f l + count_calls f l'.
Proof. unfold count_calls. rewrite filter_app, length_app. lia. Qed.

Lemma count_calls_cons f c l :
  count_calls f (c :: l) = (if f c then 1 else 0) + count_calls f l.
Proof.
  unfold count_calls. destruct (f c) eqn:E.
  - rewrite filter_cons_True by done. cbn [length]. lia.
  - rewrite filter_cons_False by congruence. lia.
Qed.

Lemma count_calls_nonneg f l : 0 ≤ count_calls f l.
Proof. unfold count_calls. lia. Qed.

Lemma buckets_disjoint calls :
  Forall entry_ok calls →
  count_calls ic_LikelyFuzzed calls + count_calls (λ c, ic_Source c =s "direct") calls
    + count_calls (λ c, ic_Source c =s "skill") calls
    + count_calls (λ c, ic_Source c =s "stale") calls ≤ Z.of_nat (length calls).
Proof.
  induction 1 as [|c calls Hc Hcs IH]; [done|].
  rewrite !count_calls_cons. cbn [length]. unfold entry_ok in Hc.
  assert ((if ic_LikelyFuzzed c then 1 else 0) + (if ic_Source c =s "direct" then 1 else 0) +
    (if ic_Source c =s "skill" then 1 else 0) + (if ic_Source c =s "stale" then 1 else 0) ≤ 1); [|lia].
  destruct (ic_LikelyFuzzed c).
  - rewrite Hc by done. done.
  - destruct (streq (ic_Source c) "direct") eqn:E1, (streq (ic_Source c) "skill") eqn:E2,
      (streq (ic_Source c) "stale") eqn:E3; go_bools; try lia; congruence.
Qed.

(** Every recorded call is priced once. On any route that method calls can
    reach, the five tiers of the metrics are non-negative and add up to the
    recorded calls, and the distance is 8 per fuzz attempt, 24 per direct call,
    2 per attributable call and 16 per other call. *)
Theorem metrics_priced_once (now : Time) (nonce toolName : string) (hm : bool) (tp : ToolProxy) :
  nonce ≠ "" → rtc proxy_step (NewToolProxy now nonce toolName hm) tp →
  let k := GetInvalidCallMetrics tp in
  0 ≤ FuzzAttempts k ∧ 0 ≤ DirectCalls k ∧ 0 ≤ SkillRouteCalls k ∧ 0 ≤ StaleRouteCalls k ∧
  0 ≤ WrongPrefix k ∧
  TotalInvalid k = FuzzAttempts k + DirectCalls k + SkillRouteCalls k + StaleRouteCalls k + WrongPrefix k ∧
  TotalInvalid k = InvalidCount tp ∧
  Distance42i k = 8 * FuzzAttempts k + 24 * DirectCalls k
    + burnedSkillCost * (SkillRouteCalls k + StaleRouteCalls k) + 16 * WrongPrefix k.
Proof.
  intros Hn Hr.
  assert (both_ok nonce tp) as [Hok _].
  { eapply rtc_invariant; [|exact Hr|by apply NewToolProxy_ok].
    intros s s' Hs [op env tick]. by apply run_op_ok. }
  pose proof (buckets_disjoint _ (ro_calls _ _ Hok)) as Hb.
  unfold GetInvalidCallMetrics, InvalidCount, burnedSkillCost. cbn -[Z.mul Z.add Z.sub].
  pose proof (count_calls_nonneg ic_LikelyFuzzed (InvalidCalls tp)).
  pose proof (count_calls_nonneg (λ c, ic_Source c =s "direct") (InvalidCalls tp)).
  pose proof (count_calls_nonneg (λ c, ic_Source c =s "skill") (InvalidCalls tp)).
  pose proof (count_calls_nonneg (λ c, ic_Source c =s "stale") (InvalidCalls tp)).
  split_and!; try lia. rewrite !Z.gtb_ltb.
  repeat match goal with |- context [0 <? ?x] => destruct (Z.ltb_spec 0 x) end; lia.
Qed.

Lemma metrics_priced_once_witness :
  let k := GetInvalidCallMetrics
    (state (run_op (OpValidateCall "tool")) (frozen 7 "n") 0 (NewToolProxy 3 "k" "tool" false)) in
  DirectCalls k = 1 ∧ 0 ≤ WrongPrefix k.
Proof.
  cbv zeta. split; [vm_compute; reflexivity|].
  apply (metrics_priced_once 3 "k" "tool" false
    (state (run_op (OpValidateCall "tool")) (frozen 7 "n") 0 (NewToolProxy 3 "k" "tool" false))
    ltac:(discriminate)
    (rtc_once _ _ (proxy_step_op _ (OpValidateCall "tool") (frozen 7 "n") 0))).
Defined.

(** ** Clusters *)

(** One tool call on the cluster, whatever the clock returns. *)
Inductive cluster_step (tpc : ToolProxyCluster) : ToolProxyCluster → Prop :=
  | cluster_step_call toolName callName env tick :
      cluster_step tpc (state (ValidateToolCall toolName callName) env tick tpc).

(** The cluster's proxies are well formed, and what it remembers of an attack is
    justified by what the proxies recorded. *)
Definition cluster_ok (tpc : ToolProxyCluster) : Prop :=
  map_Forall (λ _ tp, ∃ nonce, route_ok nonce tp) (Proxies tpc) ∧
  (AttackDetected tpc = true ↔ SuspiciousTools tpc ≠ []) ∧
  (∀ t, t ∈ SuspiciousTools tpc → ∃ tp, Proxies tpc !! t = Some tp ∧ 3 < InvalidCount tp).

Lemma wp_on_proxy {A} toolName proxy (m : M ToolProxy A) env tick tpc Q :
  wp (on_proxy toolName proxy m) env tick tpc Q =
  wp m env tick proxy (λ a tick' proxy',
    Q a tick' {| tpc with Proxies := <[toolName := proxy']> (Proxies tpc) |}).
Proof. unfold wp, on_proxy. by destruct (m env tick proxy) as [[a t] p]. Qed.

Lemma cluster_record_ok toolName ok proxy tpc :
  Proxies tpc !! toolName = Some proxy →
  cluster_ok tpc → cluster_ok (cluster_record toolName ok proxy tpc).
Proof.
  intros Hl (Hp & Ha & Hs). unfold cluster_record. cbv zeta.
  split; [done|]. cbn [AttackDetected SuspiciousTools Proxies].
  destruct (negb ok && (InvalidCount proxy >? 3)) eqn:E; [|done].
  go_bools. split.
  - split; [|done]. intros _ Hn. by destruct (SuspiciousTools tpc).
  - intros t. rewrite elem_of_app, list_elem_of_singleton. intros [Ht| ->]; [by apply Hs|].
    exists proxy. split; [done|]. apply Z.gtb_lt in H0. lia.
Qed.

Lemma ValidateToolCall_ok toolName callName env tick tpc :
  cluster_ok tpc → cluster_ok (state (ValidateToolCall toolName callName) env tick tpc).
Proof.
  intros Hok.
  enough (wp (ValidateToolCall toolName callName) env tick tpc (λ _ _ tpc', cluster_ok tpc')) as H
    by by rewrite wp_run in H.
  unfold ValidateToolCall. wp_go.
  destruct (Proxies tpc !! toolName) as [tp|] eqn:Hl; [|by wp_go].
  destruct Hok as (Hp & Ha & Hs). destruct (Hp toolName tp Hl) as [nonce Hr].
  wp_go. rewrite wp_on_proxy.
  assert (∀ tp', route_ok nonce tp' → InvalidCount tp ≤ InvalidCount tp' →
    cluster_ok {| tpc with Proxies := <[toolName := tp']> (Proxies tpc) |}) as Hins.
  { intros tp' Hr' Hle. split; [by apply map_Forall_insert_2; eauto|]. split; [done|].
    cbn. intros t Ht. destruct (Hs t Ht) as (tp0 & Hl0 & Hc).
    destruct (decide (t = toolName)) as [->|Hne].
    - rewrite lookup_insert_eq. eexists. split; [done|]. simplify_eq. lia.
    - rewrite lookup_insert_ne by done. eauto. }
  eapply wp_ValidateCall; [exact Hr|..].
  - intros t' tp' Hr' _ _ _ _ Hic _. wp_go. apply cluster_record_ok.
    + cbn. by rewrite lookup_insert_eq.
    + apply Hins; [done|]. unfold InvalidCount. by rewrite Hic.
  - intros t' tp' reason e Hr' _ _ _ _ Hic _ _. wp_go. apply cluster_record_ok.
    + cbn. by rewrite lookup_insert_eq.
    + apply Hins; [done|]. unfold InvalidCount. rewrite Hic, length_app. lia.
Qed.

(** An alarm is never raised without cause. In every state calls can take a
    cluster to, an attack is reported exactly when some tool is listed as
    suspicious, and every listed tool has a proxy that recorded more than three
    invalid calls. *)
Theorem cluster_attack_justified (tpc tpc' : ToolProxyCluster) :
  map_Forall (λ _ tp, ∃ nonce, route_ok nonce tp) (Proxies tpc) →
  AttackDetected tpc = false → SuspiciousTools tpc = [] →
  rtc cluster_step tpc tpc' →
  (AttackDetected tpc' = true ↔ SuspiciousTools tpc' ≠ []) ∧
  (∀ t, t ∈ SuspiciousTools tpc' → ∃ tp, Proxies tpc' !! t = Some tp ∧ 3 < InvalidCount tp).
Proof.
  intros Hp Ha Hs Hr. assert (cluster_ok tpc') as (_ & ?); [|done].
  eapply rtc_invariant; [|exact Hr|].
  - intros s s' Hok [t c env tick]. by apply ValidateToolCall_ok.
  - split; [done|]. rewrite Ha, Hs. split; [split; done|]. intros t Ht. by apply elem_of_nil in Ht.
Qed.

Definition one_tool_cluster : ToolProxyCluster :=
  state (NewToolProxyCluster ["tool"] false) (frozen 3 "k") 0 (mkCluster ∅ 0 false [] 0).

Definition bare_call : M ToolProxyCluster (bool * string * ToolProxyMetrics) :=
  ValidateToolCall "tool" "tool".

Lemma cluster_attack_justified_witness :
  let tpc' := state bare_call (frozen 7 "n") 0 one_tool_cluster in
  (AttackDetected tpc' = true ↔ SuspiciousTools tpc' ≠ []) ∧
  (∀ t, t ∈ SuspiciousTools tpc' → ∃ tp, Proxies tpc' !! t = Some tp ∧ 3 < InvalidCount tp).
Proof.
  apply (cluster_attack_justified one_tool_cluster).
  - change (Proxies one_tool_cluster) with
      (<["tool" := NewToolProxy 3 "k" "tool" false]> (∅ : gmap string ToolProxy)).
    apply map_Forall_insert_2; [|apply map_Forall_empty].
    exists "k". apply NewToolProxy_ok. discriminate.
  - reflexivity.
  - reflexivity.
  - apply rtc_once, (cluster_step_call _ "tool" "tool" (frozen 7 "n") 0).
Defined.

(** The cluster counter adds each proxy's cumulative count after every call, so
    three invalid calls leave it at six, while the metrics report three. *)
Example TotalInvalidCalls_overcount :
  let tpc := state (_ ← bare_call; _ ← bare_call; bare_call) (frozen 7 "n") 0 one_tool_cluster in
  TotalInvalidCalls tpc = 6 ∧ chm_TotalInvalidCalls (GetClusterMetrics tpc) = 3.
Proof. vm_compute. done. Qed.
