(* ===== verification/KnownState.v ===== *)
(** * The known-state baseline ([internal/knownstate/store.go])

    The store remembers, per target, the last observation, the streaks and
    whether a sustained healthy baseline was ever reached; [Update] classifies a
    failure after that as a regression. The store lives beside the disk it
    persists to. A file is a decoded JSON document or bytes that do not decode;
    encoding a snapshot of valid UTF-8 strings and decoding it again gives the
    same values, and fails when a time is outside the years RFC 3339 can write.
    Times are encoded in UTC. *)

From Stdlib Require Import ZArith Lia.
From stdpp Require Import base tactics strings gmap.
From stdpp Require Import list.
From S2P Require Import Prelude Durations.

Open Scope Z_scope.

(** ** Data *)

Definition Status : Type := string.
Definition StatusUnknown : Status := "unknown".
Definition StatusHealthy : Status := "healthy".
Definition StatusDegraded : Status := "degraded".
Definition StatusOutage : Status := "outage".
Definition StatusFailed : Status := "failed".

Definition IsHealthy (s : Status) : bool := s =s StatusHealthy.

Definition IsFailure (s : Status) : bool :=
  (s =s StatusFailed) || (s =s StatusOutage) || (s =s StatusDegraded).

Record TargetState := mkTargetState {
  TargetID : string;
  CurrentStatus : Status;
  LastError : string;
  LastCheckedAt : Time;
  LastHealthyAt : Time;
  ConsecutiveFailures : Z;
  SuccessStreak : Z;
  EverHealthy : bool;
}.

(** The zero value Go returns for a missing key. *)
Definition zeroTargetState : TargetState := mkTargetState "" "" "" 0 0 0 0 false.

Record Snapshot := mkSnapshot {
  SchemaVersion : Z;
  UpdatedAt : Time;
  Targets : gmap string TargetState;
}.

Record UpdateInput := mkUpdateInput {
  in_TargetID : string;
  in_Status : Status;
  in_ErrorText : string;
  in_CheckedAt : Time;
}.

Record UpdateResult := mkUpdateResult {
  Previous : TargetState;
  Current : TargetState;
  HadPrevious : bool;
  IsRegression : bool;
  BecameHealthy : bool;
  BecameUnhealthy : bool;
}.

Record Store := mkStore {
  path : string;
  autoPersist : bool;
  sustainSuccessN : Z;
  snapshot : Snapshot;
}.

Definition emptySnapshot : Snapshot := mkSnapshot 1 zeroTime ∅.

(** ** Options *)

Definition WithAutoPersist (v : bool) (s : Store) : Store := {| s with autoPersist := v |}.

Definition WithSustainSuccess (n : Z) (s : Store) : Store :=
  let n := if n <? 1 then 1 else n in
  {| s with sustainSuccessN := n |}.

Definition NewStore (path : string) (opts : list (Store → Store)) : Store :=
  foldl (λ st opt, opt st) (mkStore path true 1 emptySnapshot) opts.

(** ** The disk *)

(** A snapshot file: [schema_version] and [targets] may be missing. *)
Record document := mkDocument {
  doc_schema_version : Z;
  doc_updated_at : Time;
  doc_targets : option (gmap string TargetState);
}.

Inductive file :=
  | Decodes (d : document)
  | Garbage.

Abbreviation Disk := (gmap string file).

Record World := mkWorld { store : Store; disk : Disk }.

(** What the environment does to a call: the context's error at each test, and
    which of the file operations fail. *)
Record Faults := mkFaults {
  ctx_err : nat → bool;
  read_fails : bool;
  mkdir_fails : bool;
  write_fails : bool;
  rename_fails : bool;
  remove_fails : bool;
}.

Inductive error :=
  | ErrContext
  | ErrTargetIDRequired
  | ErrRead
  | ErrDecode
  | ErrEncode
  | ErrMkdir
  | ErrWriteTemp
  | ErrRename
  | ErrRemove.

Definition encodable (snap : Snapshot) : bool :=
  rfc3339_time (UpdatedAt snap) &&
  forallb (λ kv : string * TargetState, rfc3339_time (LastCheckedAt kv.2) && rfc3339_time (LastHealthyAt kv.2))
    (map_to_list (Targets snap)).

Definition encode (snap : Snapshot) : file :=
  Decodes (mkDocument (SchemaVersion snap) (UpdatedAt snap) (Some (Targets snap))).

Definition set_snapshot (snap : Snapshot) (w : World) : World :=
  {| w with store := {| (store w) with snapshot := snap |} |}.
Definition set_disk (d : Disk) (w : World) : World := {| w with disk := d |}.

(** ** Load and Save *)

Definition Load (io : Faults) (n : nat) : M World (option error) :=
  if ctx_err io n then mret (Some ErrContext)
  else
    w ← get;
    if read_fails io then mret (Some ErrRead)
    else
      match disk w !! path (store w) with
      | None => mret None
      | Some Garbage => mret (Some ErrDecode)
      | Some (Decodes d) =>
          let version := if doc_schema_version d =? 0 then 1 else doc_schema_version d in
          _ ← modify (set_snapshot (mkSnapshot version (doc_updated_at d) (default ∅ (doc_targets d))));
          mret None
      end.

(** A write that fails may leave a truncated file. *)
Definition Save (io : Faults) (n : nat) : M World (option error) :=
  if ctx_err io n then mret (Some ErrContext)
  else
    w ← get;
    now ← clock;
    let snap := {| (snapshot (store w)) with SchemaVersion := 1; UpdatedAt := now |} in
    if negb (encodable snap) then mret (Some ErrEncode)
    else if mkdir_fails io then mret (Some ErrMkdir)
    else
      let tmp := path (store w) +:+ ".tmp" in
      if write_fails io then
        _ ← modify (λ w, set_disk (<[tmp := Garbage]> (disk w)) w);
        mret (Some ErrWriteTemp)
      else
        _ ← modify (λ w, set_disk (<[tmp := encode snap]> (disk w)) w);
        if rename_fails io then
          _ ← modify (λ w, if remove_fails io then w else set_disk (delete tmp (disk w)) w);
          mret (Some ErrRename)
        else
          _ ← modify (λ w, set_disk (<[path (store w) := encode snap]> (delete tmp (disk w))) w);
          _ ← modify (λ w, set_snapshot
                {| (snapshot (store w)) with UpdatedAt := UpdatedAt snap; SchemaVersion := SchemaVersion snap |} w);
          mret None.

(** ** Observation *)

Definition Get (s : Store) (targetID : string) : TargetState * bool :=
  match Targets (snapshot s) !! targetID with
  | Some t => (t, true)
  | None => (zeroTargetState, false)
  end.

Definition Store_Snapshot (s : Store) : Snapshot := snapshot s.

(** The state of a target after an observation whose status and time have been
    defaulted. *)
Definition observe (sustain : Z) (prev : option TargetState) (i : UpdateInput) : TargetState :=
  let curr := default (mkTargetState (in_TargetID i) StatusUnknown "" zeroTime zeroTime 0 0 false) prev in
  let curr := {| curr with
    TargetID := in_TargetID i;
    CurrentStatus := in_Status i;
    LastCheckedAt := in_CheckedAt i;
    LastError := in_ErrorText i |} in
  if IsHealthy (in_Status i) then
    let curr := {| curr with SuccessStreak := SuccessStreak curr + 1; ConsecutiveFailures := 0 |} in
    if SuccessStreak curr >=? sustain then
      {| curr with EverHealthy := true; LastHealthyAt := in_CheckedAt i |}
    else curr
  else
    {| curr with
       SuccessStreak := 0;
       ConsecutiveFailures := if IsFailure (in_Status i) then ConsecutiveFailures curr + 1 else 0 |}.

(** [Update] once the observation's status and time are defaulted. *)
Definition record_observation (io : Faults) (i : UpdateInput) : M World (UpdateResult + error) :=
  w ← get;
  let found := Targets (snapshot (store w)) !! in_TargetID i in
  let prev := default zeroTargetState found in
  let curr := observe (sustainSuccessN (store w)) found i in
  let wasHealthy := IsHealthy (CurrentStatus prev) in
  let isHealthy := IsHealthy (in_Status i) in
  let isRegression := EverHealthy curr && IsFailure (in_Status i) in
  now ← clock;
  _ ← modify (λ w, set_snapshot
        (mkSnapshot 1 now (<[in_TargetID i := curr]> (Targets (snapshot (store w))))) w);
  let res := mkUpdateResult prev curr (bool_decide (is_Some found)) isRegression
    (negb wasHealthy && isHealthy) (wasHealthy && negb isHealthy) in
  if autoPersist (store w) then
    err ← Save io 1;
    match err with
    | Some e => mret (inr e)
    | None => mret (inl res)
    end
  else mret (inl res).

Definition Update (io : Faults) (i : UpdateInput) : M World (UpdateResult + error) :=
  if ctx_err io 0 then mret (inr ErrContext)
  else if in_TargetID i =s "" then mret (inr ErrTargetIDRequired)
  else
    let i := if in_Status i =s "" then {| i with in_Status := StatusUnknown |} else i in
    if IsZero (in_CheckedAt i) then
      now ← clock; record_observation io {| i with in_CheckedAt := now |}
    else record_observation io i.

Definition Reset (io : Faults) (deleteFile : bool) : M World (option error) :=
  if ctx_err io 0 then mret (Some ErrContext)
  else
    now ← clock;
    _ ← modify (set_snapshot (mkSnapshot 1 now ∅));
    w ← get;
    if deleteFile then
      if remove_fails io then mret (Some ErrRemove)
      else
        _ ← modify (λ w, set_disk (delete (path (store w)) (disk w)) w);
        mret None
    else Save io 1.

(** ** Facts: streaks *)

(** The number of observations at the end of a history that satisfy [P]. *)
Fixpoint leading (P : Status → bool) (l : list Status) : Z :=
  match l with
  | [] => 0
  | s :: l => if P s then 1 + leading P l else 0
  end.
Definition trailing (P : Status → bool) (l : list Status) : Z := leading P (reverse l).

(** At some time, [n] healthy observations came in a row. *)
Definition sustained (n : Z) (l : list Status) : Prop :=
  ∃ a run b, l = a ++ run ++ b ∧ n ≤ Z.of_nat (length run) ∧ Forall (λ s, IsHealthy s = true) run.

Lemma trailing_snoc P l s : trailing P (l ++ [s]) = if P s then trailing P l + 1 else 0.
Proof. unfold trailing. rewrite reverse_snoc. cbn. destruct (P s); lia. Qed.

(** The streak is the length of the longest such suffix. *)
Lemma trailing_suffix P l :
  ∃ a run, l = a ++ run ∧ Z.of_nat (length run) = trailing P l ∧ Forall (λ s, P s = true) run.
Proof.
  induction l as [|s l (a & run & -> & Hl & Hr)] using rev_ind.
  { by exists [], []. }
  rewrite trailing_snoc. destruct (P s) eqn:E.
  - exists a, (run ++ [s]). rewrite app_assoc, length_app. split; [done|].
    split; [cbn; lia|]. apply Forall_app. eauto.
  - exists ((a ++ run) ++ [s]), []. by rewrite app_nil_r.
Qed.

Lemma trailing_longest P a run :
  Forall (λ s, P s = true) run → Z.of_nat (length run) ≤ trailing P (a ++ run).
Proof.
  induction run as [|s run IH] using rev_ind; intros Hr.
  { cbn. destruct (trailing_suffix P (a ++ [])) as (? & ? & _ & <- & _). lia. }
  apply Forall_app in Hr as [Hr Hs]. apply Forall_inv in Hs.
  rewrite app_assoc, trailing_snoc, Hs, length_app. cbn. specialize (IH Hr). lia.
Qed.

Lemma sustained_snoc n l s :
  1 ≤ n →
  sustained n (l ++ [s]) ↔
  sustained n l ∨ (IsHealthy s = true ∧ n ≤ trailing IsHealthy (l ++ [s])).
Proof.
  intros Hn. split.
  - intros (a & run & b & Heq & Hl & Hr).
    destruct b as [|b0 b _] using rev_ind.
    + right. rewrite app_nil_r in Heq. destruct run as [|r run _] using rev_ind; [cbn in Hl; lia|].
      pose proof Hr as Hr'. apply Forall_app in Hr' as [_ Hs]. apply Forall_inv in Hs.
      rewrite app_assoc in Heq. apply app_inj_tail in Heq as [-> ->].
      split; [done|]. rewrite <- app_assoc. etrans; [exact Hl|]. by apply trailing_longest.
    + left. rewrite !app_assoc in Heq. apply app_inj_tail in Heq as [-> _].
      exists a, run, b. by rewrite app_assoc.
  - intros [(a & run & b & -> & Hl & Hr)|[Hs Hl]].
    + exists a, run, (b ++ [s]). by rewrite !app_assoc.
    + destruct (trailing_suffix IsHealthy (l ++ [s])) as (a & run & Heq & Hlen & Hr).
      exists a, run, []. rewrite app_nil_r, Hlen. done.
Qed.

(** What the state of target [id] says of the statuses observed for it. *)
Definition describes (n : Z) (id : string) (hist : list Status) (found : option TargetState) : Prop :=
  match found with
  | None => hist = []
  | Some st =>
      TargetID st = id ∧ last hist = Some (CurrentStatus st) ∧
      SuccessStreak st = trailing IsHealthy hist ∧
      ConsecutiveFailures st = trailing IsFailure hist ∧
      (EverHealthy st = true ↔ sustained n hist)
  end.

Lemma healthy_not_failure s : IsHealthy s = true → IsFailure s = false.
Proof. intros H. unfold IsHealthy in H. by apply streq_true in H as ->. Qed.

Lemma observe_describes n hist found i :
  1 ≤ n →
  describes n (in_TargetID i) hist found →
  describes n (in_TargetID i) (hist ++ [in_Status i]) (Some (observe n found i)).
Proof.
  intros Hn Hd. cbn [describes]. rewrite last_snoc, !trailing_snoc, sustained_snoc by done.
  rewrite trailing_snoc. unfold observe.
  set (c0 := default _ found).
  assert (SuccessStreak c0 = trailing IsHealthy hist ∧
    ConsecutiveFailures c0 = trailing IsFailure hist ∧
    (EverHealthy c0 = true ↔ sustained n hist)) as (Hs & Hf & He).
  { subst c0. destruct found as [st|]; cbn in Hd |- *; [by destruct Hd as (_ & _ & ?)|].
    subst hist. split; [done|]. split; [done|]. split; [done|].
    intros (a & run & b & Heq & Hl & _). destruct a, run; cbn in *; try done; lia. }
  destruct (IsHealthy (in_Status i)) eqn:Hh; cbn.
  - rewrite (healthy_not_failure _ Hh).
    destruct (Z.geb_spec (SuccessStreak c0 + 1) n); cbn; split_and!; try done; try lia.
    + rewrite He. split; [tauto|]. intros [?|[_ ?]]; [done|]. lia.
  - destruct (IsFailure (in_Status i)); cbn; split_and!; try done; try lia; naive_solver.
Qed.

(** The status an update records, when it records one. *)
Definition recorded_status (io : Faults) (i : UpdateInput) : option Status :=
  if ctx_err io 0 || (in_TargetID i =s "") then None
  else Some (if in_Status i =s "" then StatusUnknown else in_Status i).

Definition history (id : string) (ins : list (Faults * UpdateInput)) : list Status :=
  omap (λ p, if in_TargetID p.2 =s id then recorded_status p.1 p.2 else None) ins.

(** ** Facts: programs *)

Lemma wp_Save_memory io n env tick w Q :
  (∀ err tick' w', Targets (snapshot (store w')) = Targets (snapshot (store w)) →
     sustainSuccessN (store w') = sustainSuccessN (store w) →
     autoPersist (store w') = autoPersist (store w) → path (store w') = path (store w) →
     Q err tick' w') →
  wp (Save io n) env tick w Q.
Proof.
  intros HQ. unfold Save. destruct (ctx_err io n); wp_go; [by apply HQ|].
  destruct (negb _); wp_go; [by apply HQ|]. destruct (mkdir_fails io); wp_go; [by apply HQ|].
  destruct (write_fails io); wp_go; [by apply HQ|].
  destruct (rename_fails io); wp_go; [|by apply HQ].
  apply HQ; by destruct (remove_fails io).
Qed.

(** What an update that records [i'] answers when the disk lets it. *)
Definition update_answer (n : Z) (found : option TargetState) (i' : UpdateInput) : UpdateResult :=
  let prev := default zeroTargetState found in
  let curr := observe n found i' in
  mkUpdateResult prev curr (bool_decide (is_Some found))
    (EverHealthy curr && IsFailure (in_Status i'))
    (negb (IsHealthy (CurrentStatus prev)) && IsHealthy (in_Status i'))
    (IsHealthy (CurrentStatus prev) && negb (IsHealthy (in_Status i'))).

(** An update either is rejected and changes nothing in memory, or records one
    observation of its target, whatever then happens to the disk. *)
Lemma wp_Update_memory io i env tick w (Q : UpdateResult + error → nat → World → Prop) :
  (∀ err, recorded_status io i = None → Q (inr err) tick w) →
  (∀ r tick' w' s i', recorded_status io i = Some s → in_Status i' = s →
     in_TargetID i' = in_TargetID i →
     sustainSuccessN (store w') = sustainSuccessN (store w) →
     let found := Targets (snapshot (store w)) !! in_TargetID i in
     Targets (snapshot (store w')) =
       <[in_TargetID i := observe (sustainSuccessN (store w)) found i']> (Targets (snapshot (store w))) →
     (∀ res, r = inl res → res = update_answer (sustainSuccessN (store w)) found i') →
     (∀ err, r = inr err → autoPersist (store w) = true) →
     Q r tick' w') →
  wp (Update io i) env tick w Q.
Proof.
  intros Hno Hyes. unfold Update, recorded_status in *.
  destruct (ctx_err io 0); [wp_go; by apply Hno|].
  destruct (streq (in_TargetID i) ""); [wp_go; by apply Hno|]. cbn [orb] in *.
  set (i1 := if in_Status i =s "" then _ else i).
  assert (in_TargetID i1 = in_TargetID i) as Hid by (subst i1; by destruct (streq _ _)).
  assert (in_Status i1 = if in_Status i =s "" then StatusUnknown else in_Status i) as Hst
    by (subst i1; by destruct (streq _ _)).
  clearbody i1.
  assert (∀ i2 t, in_TargetID i2 = in_TargetID i1 → in_Status i2 = in_Status i1 →
    wp (record_observation io i2) env t w Q) as Hbody.
  { intros i2 t Hid2 Hst2. unfold record_observation. wp_go. cbv zeta.
    assert (in_TargetID i2 = in_TargetID i) as Hid3 by congruence. rewrite Hid3.
    destruct (autoPersist (store w)) eqn:Hauto; wp_go.
    - apply wp_Save_memory. cbn. intros err t' w' HT HN _ _.
      destruct err; wp_go; (eapply Hyes; [done|by rewrite Hst2, Hst|done|done|done| |done]).
      + done.
      + intros res [= <-]. done.
    - eapply Hyes; [done|by rewrite Hst2, Hst|done|done|done| |done]. intros res [= <-]. done. }
  destruct (IsZero (in_CheckedAt i1)); wp_go; apply Hbody; done.
Qed.

Lemma observe_status n found i : CurrentStatus (observe n found i) = in_Status i.
Proof. unfold observe. cbv zeta. repeat case_match; done. Qed.

Lemma observe_failure n found i :
  IsFailure (in_Status i) = true →
  EverHealthy (observe n found i) = EverHealthy (default zeroTargetState found).
Proof.
  intros Hf. unfold observe. cbv zeta. destruct (IsHealthy (in_Status i)) eqn:Hh.
  - by rewrite (healthy_not_failure _ Hh) in Hf.
  - by destruct found.
Qed.

(** A sequence of updates, each with its own faults. *)
Fixpoint update_all (ins : list (Faults * UpdateInput)) : M World unit :=
  match ins with
  | [] => mret tt
  | (io, i) :: ins => _ ← Update io i; update_all ins
  end.

Lemma wp_update_all_describes ins env tick w hist :
  1 ≤ sustainSuccessN (store w) →
  (∀ id, describes (sustainSuccessN (store w)) id (hist id) (Targets (snapshot (store w)) !! id)) →
  wp (update_all ins) env tick w (λ _ _ w',
    ∀ id, describes (sustainSuccessN (store w)) id (hist id ++ history id ins)
      (Targets (snapshot (store w')) !! id)).
Proof.
  revert tick w hist. induction ins as [|[io i] ins IH]; intros tick w hist Hn Hd.
  { cbn. intros id. by rewrite app_nil_r. }
  cbn [update_all]. wp_go. apply wp_Update_memory.
  - intros err Hrec. wp_go. eapply wp_mono; [by apply (IH _ _ hist)|].
    intros ? ? w' Hw' id. unfold history. cbn. rewrite Hrec.
    destruct (streq (in_TargetID i) id); apply Hw'.
  - intros r t w' s i' Hrec Hs Hid HN found HT _ _. wp_go.
    rewrite <- HN. eapply wp_mono.
    + apply (IH _ _ (λ id, hist id ++ if in_TargetID i =s id then [s] else [])); rewrite HN; [done|].
      intros id. rewrite HT. destruct (streq (in_TargetID i) id) eqn:E; go_bools.
      * rewrite <- E, lookup_insert_eq, <- Hs. rewrite <- Hid. apply observe_describes; [done|].
        rewrite Hid. apply Hd.
      * rewrite lookup_insert_ne by done. rewrite app_nil_r. apply Hd.
    + intros ? ? w'' Hw'' id. specialize (Hw'' id). unfold history. cbn [omap list_omap fst snd].
      rewrite Hrec. destruct (streq (in_TargetID i) id); rewrite <- app_assoc in Hw''; apply Hw''.
Qed.

(** ** Properties *)

(** C7: the baseline is a summary of the whole history. After any sequence of
    updates of any targets, with any contexts and disk faults, the state kept for
    a target is there exactly when it was observed, and holds the last status,
    the length of the run of healthy statuses and of the run of failures at the
    end of its history; it counts as ever healthy exactly when that history has
    the configured number of healthy observations in a row. *)
Theorem Update_history (env : Env) (tick : nat) (w : World) (ins : list (Faults * UpdateInput)) (id : string) :
  1 ≤ sustainSuccessN (store w) → Targets (snapshot (store w)) = ∅ →
  match Targets (snapshot (store (state (update_all ins) env tick w))) !! id with
  | None => history id ins = []
  | Some st =>
      TargetID st = id ∧ last (history id ins) = Some (CurrentStatus st) ∧
      SuccessStreak st = trailing IsHealthy (history id ins) ∧
      ConsecutiveFailures st = trailing IsFailure (history id ins) ∧
      (EverHealthy st = true ↔ sustained (sustainSuccessN (store w)) (history id ins))
  end.
Proof.
  intros Hn He.
  assert (∀ i, describes (sustainSuccessN (store w)) i [] (Targets (snapshot (store w)) !! i)) as H0.
  { intros i. by rewrite He, lookup_empty. }
  pose proof (wp_update_all_describes ins env tick w (λ _, []) Hn H0) as H.
  rewrite wp_run in H. apply (H id).
Qed.

(** An environment in which nothing fails. *)
Definition no_faults : Faults := mkFaults (λ _, false) false false false false false.

Definition ex_world : World := mkWorld (NewStore "known.json" [WithSustainSuccess 2]) ∅.

Definition ex_updates : list (Faults * UpdateInput) :=
  [(no_faults, mkUpdateInput "t" "healthy" "" 5); (no_faults, mkUpdateInput "t" "healthy" "" 6);
   (no_faults, mkUpdateInput "t" "outage" "boom" 7)].

Lemma Update_history_witness :
  let found := Targets (snapshot (store (state (update_all ex_updates) (frozen 9 "") 0 ex_world))) !! "t" in
  (EverHealthy <$> found) = Some true ∧
  match found with
  | None => history "t" ex_updates = []
  | Some st =>
      TargetID st = "t" ∧ last (history "t" ex_updates) = Some (CurrentStatus st) ∧
      SuccessStreak st = trailing IsHealthy (history "t" ex_updates) ∧
      ConsecutiveFailures st = trailing IsFailure (history "t" ex_updates) ∧
      (EverHealthy st = true ↔ sustained (sustainSuccessN (store ex_world)) (history "t" ex_updates))
  end.
Proof.
  cbv zeta. split; [vm_compute; reflexivity|].
  apply (Update_history (frozen 9 "") 0 ex_world ex_updates "t"); [|reflexivity].
  vm_compute. discriminate.
Defined.

(** An update answers with the transition it made. An answer is given only
    for a target that was named under a live context; its previous and current
    states are those of the store before and after, no other target changes, a
    regression is a failure of a target with a healthy baseline, and the status
    crossed into or out of healthy exactly as reported. *)
Theorem Update_result (io : Faults) (i : UpdateInput) (env : Env) (tick : nat) (w : World) (r : UpdateResult) :
  result (Update io i) env tick w = inl r →
  let w' := state (Update io i) env tick w in
  let before := Targets (snapshot (store w)) !! in_TargetID i in
  ctx_err io 0 = false ∧ in_TargetID i ≠ "" ∧
  Targets (snapshot (store w')) = <[in_TargetID i := Current r]> (Targets (snapshot (store w))) ∧
  before = (if HadPrevious r then Some (Previous r) else None) ∧
  (IsRegression r = true ↔ IsFailure (CurrentStatus (Current r)) = true ∧ EverHealthy (Previous r) = true) ∧
  (BecameHealthy r = true ↔ IsHealthy (CurrentStatus (Previous r)) = false ∧ IsHealthy (CurrentStatus (Current r)) = true) ∧
  (BecameUnhealthy r = true ↔ IsHealthy (CurrentStatus (Previous r)) = true ∧ IsHealthy (CurrentStatus (Current r)) = false).
Proof.
  intros Hr. cbv zeta.
  enough (wp (Update io i) env tick w (λ r' _ w', ∀ r, r' = inl r →
    ctx_err io 0 = false ∧ in_TargetID i ≠ "" ∧
    ∃ i', let found := Targets (snapshot (store w)) !! in_TargetID i in
      Targets (snapshot (store w')) =
        <[in_TargetID i := observe (sustainSuccessN (store w)) found i']> (Targets (snapshot (store w))) ∧
      r = update_answer (sustainSuccessN (store w)) found i')) as H.
  { rewrite wp_run in H. destruct (H r Hr) as (Hc & Hi & i' & HT & ->). clear H Hr.
    split; [done|]. split; [done|]. split; [done|]. unfold update_answer. cbv zeta.
    cbn [HadPrevious Previous Current IsRegression BecameHealthy BecameUnhealthy].
    rewrite observe_status. split; [by destruct (_ !! _)|].
    rewrite !andb_true_iff, !negb_true_iff. split; [|split; tauto].
    split; intros [H1 H2]; split; try done; by rewrite observe_failure in *. }
  apply wp_Update_memory; [done|]. intros r' t w' s i' Hrec Hs Hid HN found HT Hres _ r0 Hr0.
  unfold recorded_status in Hrec. destruct (ctx_err io 0); [done|].
  destruct (streq (in_TargetID i) "") eqn:E; [done|]. go_bools.
  split; [done|]. split; [done|]. exists i'. split; [done|]. by apply Hres.
Qed.

Lemma Update_result_witness :
  let i := mkUpdateInput "t" "outage" "boom" 7 in
  let w := mkWorld {| (store ex_world) with snapshot := mkSnapshot 1 0
    {["t" := mkTargetState "t" "healthy" "" 6 6 0 2 true]} |} ∅ in
  ∃ r, result (Update no_faults i) (frozen 9 "") 0 w = inl r ∧ IsRegression r = true ∧
    (BecameUnhealthy r = true ↔ IsHealthy (CurrentStatus (Previous r)) = true ∧ IsHealthy (CurrentStatus (Current r)) = false).
Proof.
  cbv zeta. eexists. split; [vm_compute; reflexivity|]. split; [reflexivity|].
  apply (Update_result no_faults (mkUpdateInput "t" "outage" "boom" 7) (frozen 9 "") 0
    (mkWorld {| (store ex_world) with snapshot := mkSnapshot 1 0
      {["t" := mkTargetState "t" "healthy" "" 6 6 0 2 true]} |} ∅)).
  vm_compute. reflexivity.
Defined.

