(* ===== verification/Net.v ===== *)
(** * Addresses and listeners

    ([internal/netbind/netbind.go]; the address helpers of
    [internal/federation/status.go] and [federation.go], of
    [internal/config/selfrefs.go] and of [internal/mdns/advertiser.go]) The
    functions of Go's [net], [strconv] and [path/filepath] the program uses are
    written out first. *)

From Stdlib Require Import ZArith NArith Lia Ascii.
From stdpp Require Import base tactics strings pretty gmap.
From stdpp Require Import list.
From S2P Require Import Prelude Bytes.

Open Scope Z_scope.

(** ** [strings] *)

Definition IndexByte (s : string) (c : ascii) : option nat := String.index 0 (String c "") s.

Fixpoint last_index_from (i : nat) (s : string) (c : ascii) : option nat :=
  match s with
  | "" => None
  | String d r =>
      match last_index_from (S i) r c with
      | Some j => Some j
      | None => if bool_decide (d = c) then Some i else None
      end
  end.
Definition LastIndexByte (s : string) (c : ascii) : option nat := last_index_from 0 s c.

(** [strings.Trim(s, cutset)] for a cutset of single bytes. *)
Definition Trim (s : string) (cutset : list ascii) : string :=
  let cut s := trim_runes (map (λ c, String c "") cutset) (String.length s) s in
  String.rev (cut (String.rev (cut s))).

(** ** [strconv.Atoi] *)

Definition digit (c : ascii) : option Z :=
  let n := Z.of_N (N_of_ascii c) in
  if (48 <=? n) && (n <=? 57) then Some (n - 48) else None.

Fixpoint parse_digits (acc : Z) (s : string) : option Z :=
  match s with
  | "" => Some acc
  | String c r => d ← digit c; parse_digits (10 * acc + d) r
  end.

(** The value, and whether parsing succeeded: out of range, [Atoi] returns the
    nearest [int] and an error; on bad syntax, zero and an error. *)
Definition Atoi (s : string) : Z * bool :=
  let '(neg, digits) :=
    match s with
    | String "-" r => (true, r)
    | String "+" r => (false, r)
    | _ => (false, s)
    end in
  if digits =s "" then (0, false)
  else
    match parse_digits 0 digits with
    | None => (0, false)
    | Some n =>
        let n := if neg : bool then - n else n in
        if two63 - 1 <? n then (two63 - 1, false)
        else if n <? - two63 then (- two63, false)
        else (n, true)
    end.

(** ** [net] *)

Definition SplitHostPort (hostport : string) : option (string * string) :=
  i ← LastIndexByte hostport ":";
  let port := sdrop (S i) hostport in
  if HasPrefix hostport "[" then
    e ← IndexByte hostport "]";
    if negb (S e =? i)%nat then None  (* missing port, or too many colons *)
    else if has_byte "[" (sdrop 1 hostport) then None
    else if has_byte "]" (sdrop (S e) hostport) then None
    else Some (stake (e - 1) (sdrop 1 hostport), port)
  else
    let host := stake i hostport in
    if has_byte ":" host then None
    else if has_byte "[" hostport then None
    else if has_byte "]" hostport then None
    else Some (host, port).

Definition JoinHostPort (host port : string) : string :=
  if has_byte ":" host then "[" +:+ host +:+ "]:" +:+ port else host +:+ ":" +:+ port.

(** The fields of a dotted IPv4 address: decimal, at most 255, without leading
    zeros. *)
Definition ipv4_field (s : string) : option Z :=
  match s with
  | "" => None
  | String "0" (String _ _) => None
  | _ => n ← parse_digits 0 s; if n <=? 255 then Some n else None
  end.

Definition ParseIPv4 (s : string) : option (list Z) :=
  match Split s "." with
  | [a; b; c; d] =>
      a ← ipv4_field a; b ← ipv4_field b; c ← ipv4_field c; d ← ipv4_field d;
      Some [a; b; c; d]
  | _ => None
  end.

Definition hex_digit (c : ascii) : option Z :=
  let n := Z.of_N (N_of_ascii c) in
  if (48 <=? n) && (n <=? 57) then Some (n - 48)
  else if (97 <=? n) && (n <=? 102) then Some (n - 87)
  else if (65 <=? n) && (n <=? 70) then Some (n - 55)
  else None.

(** Up to four hex digits: their value, their number and what follows; [None]
    past four digits. *)
Fixpoint hex_field (acc : Z) (n : nat) (s : string) : option (Z * nat * string) :=
  match s with
  | "" => Some (acc, n, "")
  | String c r =>
      match hex_digit c with
      | None => Some (acc, n, s)
      | Some d => if (3 <? n)%nat then None else hex_field (16 * acc + d) (S n) r
      end
  end.

(** The loop of [netip]'s IPv6 parser; [bytes] are those read so far and
    [ellipsis] the position of [::]. *)
Fixpoint ipv6_loop (fuel : nat) (bytes : list Z) (ellipsis : option nat) (s : string)
  : option (list Z * option nat * string) :=
  match fuel with
  | O => Some (bytes, ellipsis, s)
  | S fuel =>
      if (16 <=? length bytes)%nat then Some (bytes, ellipsis, s)
      else
        f ← hex_field 0 0 s;
        let '(acc, n, rest) := f in
        if (n =? 0)%nat then None
        else if bool_decide (IndexByte rest "." = Some 0%nat) then
          if (match ellipsis with None => negb (length bytes =? 12)%nat | Some _ => false end) then None
          else if (16 <? length bytes + 4)%nat then None
          else v4 ← ParseIPv4 s; Some (bytes ++ v4, ellipsis, "")
        else
          let bytes := bytes ++ [acc / 256; acc mod 256] in
          match rest with
          | "" => Some (bytes, ellipsis, "")
          | String ":" "" => None
          | String ":" (String ":" r) =>
              match ellipsis with
              | Some _ => None
              | None =>
                  if r =s "" then Some (bytes, Some (length bytes), "")
                  else ipv6_loop fuel bytes (Some (length bytes)) r
              end
          | String ":" r => ipv6_loop fuel bytes ellipsis r
          | _ => None
          end
  end.

Definition ParseIPv6 (s : string) : option (list Z) :=
  let '(ellipsis, s) := if HasPrefix s "::" then (Some 0%nat, sdrop 2 s) else (None, s) in
  match ellipsis, s with
  | Some _, "" => Some (replicate 16 0)
  | _, _ =>
      r ← ipv6_loop 9 [] ellipsis s;
      let '(bytes, ellipsis, rest) := r in
      if negb (rest =s "") then None
      else
        match ellipsis with
        | None => if (length bytes <? 16)%nat then None else Some bytes
        | Some e =>
            if (length bytes <? 16)%nat
            then Some (take e bytes ++ replicate (16 - length bytes) 0 ++ drop e bytes)
            else None
        end
  end.

(** The 16 bytes of an address; IPv4 is mapped into IPv6, zones are refused. *)
Definition ParseIP (s : string) : option (list Z) :=
  let first := find (λ c, bool_decide (c ∈ ["."; ":"; "%"]%char)) (String.list_ascii_of_string s) in
  match first with
  | Some "."%char => v4 ← ParseIPv4 s; Some (replicate 10 0 ++ [255; 255] ++ v4)
  | Some ":"%char => if has_byte "%" s then None else ParseIPv6 s
  | _ => None
  end.

Definition IsLoopbackIP (ip : list Z) : bool :=
  if bool_decide (take 12 ip = replicate 10 0 ++ [255; 255]) then
    match drop 12 ip with b :: _ => b =? 127 | [] => false end
  else bool_decide (ip = replicate 15 0 ++ [1]).

Example ParseIP_ex :
  map (λ s, IsLoopbackIP <$> ParseIP s)
    ["127.0.0.1"; "::1"; "::ffff:127.9.0.1"; "10.0.0.1"; "2001:db8::1"; "127.0.0.01"; "1.2.3"; "::1%lo"; "1::2::3"; "1:2:3:4:5:6:7:8"] =
  [Some true; Some true; Some true; Some false; Some false; None; None; None; None; Some false].
Proof. vm_compute. reflexivity. Qed.

(** ** [path/filepath] on Unix *)

Definition clean_step (rooted : bool) (stack : list string) (part : string) : list string :=
  if (part =s "") || (part =s ".") then stack
  else if part =s ".." then
    match stack with
    | top :: rest => if top =s ".." then ".." :: stack else rest
    | [] => if rooted then [] else [".."]
    end
  else part :: stack.

Definition Clean (path : string) : string :=
  if path =s "" then "."
  else
    let rooted := HasPrefix path "/" in
    let parts := rev (fold_left (clean_step rooted) (Split path "/") []) in
    if rooted then "/" +:+ Join parts "/"
    else match parts with [] => "." | _ => Join parts "/" end.

Definition PathJoin (elems : list string) : string :=
  match filter (λ e, e ≠ "") elems with
  | [] => ""
  | es => Clean (Join es "/")
  end.

Example Clean_ex :
  map Clean [""; "./state"; "/a//b/../c/"; "../x/.."; "a/../../b"; "/.."] =
  ["."; "state"; "/a/c"; ".."; "../b"; "/"].
Proof. vm_compute. reflexivity. Qed.

(** ** The program's address helpers *)

Definition DetectRank (listenAddr : string) : Z :=
  match SplitHostPort listenAddr with
  | None => 0
  | Some (_, portStr) => (Atoi portStr).1
  end.

Definition ParsePort (addr : string) : Z :=
  match SplitHostPort addr with
  | None => 0
  | Some (_, portStr) => let '(port, ok) := Atoi portStr in if ok : bool then port else 0
  end.

(** [strings.Index(host, "://")] *)
Definition cut_scheme (host : string) : string :=
  match String.index 0 "://" host with
  | Some i => sdrop (i + 3) host
  | None => host
  end.

Fixpoint cut_any (cs : list ascii) (s : string) : string :=
  match s with
  | "" => ""
  | String c r => if bool_decide (c ∈ cs) then "" else String c (cut_any cs r)
  end.

Definition IsLoopbackAddr (addr : string) : bool :=
  let host := TrimSpace addr in
  if host =s "" then false
  else
    let host := cut_scheme host in
    let host := TrimPrefix host "//" in
    let host := cut_any ["/"; "?"; "#"]%char host in
    let host := match SplitHostPort host with Some (h, _) => h | None => host end in
    let host := Trim host ["["; "]"]%char in
    if host =s "" then false
    else if host =s "localhost" then true
    else match ParseIP host with Some ip => IsLoopbackIP ip | None => false end.

(** [got] is the request's [X-Federation-Token] header, empty when absent;
    [subtle.ConstantTimeCompare] is equality of the bytes. *)
Definition CheckSharedSecret (got want : string) : bool :=
  if want =s "" then true else got =s want.

(** [true] is a nil error. *)
Definition RequireSharedSecret (bindAddr sharedSecret : string) : bool :=
  if IsLoopbackAddr bindAddr then true
  else negb (blank sharedSecret).

Definition IsLocalHost (host : string) : bool :=
  mem (ToLower (Trim (TrimSpace host) ["["; "]"]%char))
    [""; "localhost"; "127.0.0.1"; "0.0.0.0"; "::"; "::1"].

Definition SameListenerAddr (target configured : string) : bool :=
  match SplitHostPort target, SplitHostPort configured with
  | Some (targetHost, targetPort), Some (configHost, configPort) =>
      if negb (targetPort =s configPort) then false
      else EqualFold targetHost configHost || (IsLocalHost targetHost && IsLocalHost configHost)
  | _, _ => false
  end.

(** ** [netbind.Listen]

    [try] is the kernel: what binding an address answers. *)
Inductive bind_result :=
  | Bound (actual : string)
  | InUse
  | Unusable.

Inductive listen_error :=
  | ErrInvalidAddr
  | ErrInvalidPort
  | ErrListen (addr : string)
  | ErrNoFreePort.

Definition DefaultRetries : Z := 10.

Fixpoint scan_ports (try : string → bind_result) (host : string) (port : Z) (n : nat)
  : string + listen_error :=
  match n with
  | O => inr ErrNoFreePort
  | S n =>
      let candidate := JoinHostPort host (Itoa (wrap_i64 port)) in
      match try candidate with
      | Bound _ => inl candidate
      | Unusable => inr (ErrListen candidate)
      | InUse => scan_ports try host (port + 1) n
      end
  end.

Definition Listen (try : string → bind_result) (addr : string) (maxRetries : Z) : string + listen_error :=
  match SplitHostPort addr with
  | None => inr ErrInvalidAddr
  | Some (host, portStr) =>
      let '(port, ok) := Atoi portStr in
      if negb ok then inr ErrInvalidPort
      else
        let maxRetries := if maxRetries <? 0 then 0 else maxRetries in
        if port =? 0 then
          match try addr with
          | Bound actual => inl actual
          | InUse | Unusable => inr (ErrListen addr)
          end
        else scan_ports try host port (S (Z.to_nat maxRetries))
  end.

(** ** Facts *)

Lemma last_index_none s c i : has_byte c s = false → last_index_from i s c = None.
Proof.
  revert i. induction s as [|d s IH]; intros i H; [done|]. cbn in H |- *.
  apply orb_false_iff in H as [Hd Hs]. rewrite IH by done. go_bools.
  by rewrite bool_decide_eq_false_2 by congruence.
Qed.

Lemma last_index_app s t c i :
  has_byte c t = false → last_index_from i (s +:+ String c t) c = Some (i + String.length s)%nat.
Proof.
  intros Ht. revert i. induction s as [|d s IH]; intros i.
  - change (last_index_from i (String c t) c = Some (i + 0)%nat). cbn.
    rewrite last_index_none by done. rewrite bool_decide_eq_true_2 by done. f_equal. lia.
  - change (match last_index_from (S i) (s +:+ String c t) c with
      | Some j => Some j | None => if bool_decide (d = c) then Some i else None end =
      Some (i + S (String.length s))%nat).
    rewrite IH. f_equal. lia.
Qed.

Lemma index_byte_none s c : has_byte c s = false → IndexByte s c = None.
Proof.
  unfold IndexByte. induction s as [|d s IH]; intros H; [done|].
  cbn in H. apply orb_false_iff in H as [Hd Hs]. go_bools. cbn.
  destruct (ascii_dec c d); [done|]. by rewrite IH.
Qed.

Lemma index_byte_app s t c :
  has_byte c s = false → IndexByte (s +:+ String c t) c = Some (String.length s).
Proof.
  unfold IndexByte. induction s as [|d s IH]; intros H.
  - change (String.index 0 (String c "") (String c t) = Some 0%nat). cbn.
    destruct (ascii_dec c c); [|done]. by destruct t.
  - cbn in H. apply orb_false_iff in H as [Hd Hs]. go_bools.
    change (String.index 0 (String c "") (String d (s +:+ String c t)) = Some (S (String.length s))).
    cbn. destruct (ascii_dec c d); [done|]. by rewrite IH.
Qed.

Lemma split_go_app sep a b : ∀ cur,
  split_go sep cur (a +:+ String sep b) = split_go sep cur a ++ Split b sep.
Proof.
  induction a as [|c a IH]; intros cur.
  - change (split_go sep cur (String sep b) = [String.rev cur] ++ Split b sep). cbn.
    by rewrite bool_decide_eq_true_2.
  - change (split_go sep cur (String c (a +:+ String sep b)) = split_go sep cur (String c a) ++ Split b sep).
    cbn [split_go]. case_bool_decide; [|apply IH]. cbn. by rewrite IH.
Qed.

Lemma Split_plain sep s : has_byte sep s = false → Split s sep = [s].
Proof.
  enough (∀ cur, has_byte sep s = false → split_go sep cur s = [String.rev cur +:+ s]) as H by apply H.
  induction s as [|c s IH]; intros cur; [by rewrite sapp_nil_r|]. cbn [has_byte split_go].
  intros [Hc%bool_decide_eq_false Hs]%orb_false_iff. rewrite bool_decide_false by congruence. rewrite IH by done.
  change (String c cur) with (String c "" +:+ cur). by rewrite srev_app, sapp_assoc.
Qed.

Lemma Join_suffix l x sep : ∃ pre, Join (l ++ [x]) sep = pre +:+ x.
Proof.
  induction l as [|y l [pre IH]]; [by exists ""|].
  exists (y +:+ sep +:+ pre). destruct (l ++ [x]) as [|z r] eqn:E; [by destruct l|].
  change (Join ((y :: l) ++ [x]) sep) with (Join (y :: (l ++ [x])) sep). rewrite E.
  cbn [Join]. cbn [Join] in IH. rewrite !sapp_assoc. by rewrite <- IH.
Qed.

(** A path joined to a plain name ends with that name. *)
Lemma PathJoin_suffix d x :
  Split x "/" = [x] → x ≠ "" → x ≠ "." → x ≠ ".." → ∃ pre, PathJoin [d; x] = pre +:+ x.
Proof.
  intros Hs He Hd Hdd.
  assert (∀ p, p ≠ "" → (∃ l, Split p "/" = l ++ [x]) → ∃ pre, Clean p = pre +:+ x) as Hclean.
  { intros p Hp [l Hl]. unfold Clean. rewrite (proj2 (streq_false _ _) Hp). cbv zeta.
    rewrite Hl, fold_left_app. cbn [fold_left]. set (st := fold_left _ l []).
    assert (clean_step (HasPrefix p "/") st x = x :: st) as ->.
    { unfold clean_step. by rewrite !(proj2 (streq_false _ _)). }
    change (rev (x :: st)) with (rev st ++ [x]).
    destruct (Join_suffix (rev st) x "/") as [pre Hpre]. rewrite Hpre.
    destruct (HasPrefix p "/").
    - exists ("/" +:+ pre). by rewrite sapp_assoc.
    - destruct (rev st ++ [x]) eqn:E; [by destruct (rev st)|]. by exists pre. }
  unfold PathJoin. destruct (decide (d = "")) as [->|Hne].
  - rewrite filter_cons_False, filter_cons_True by (try done; tauto). cbn [filter list_filter].
    apply Hclean; [done|]. by exists [].
  - rewrite !filter_cons_True by done. cbn [filter list_filter]. cbn [Join]. apply Hclean.
    + by destruct d.
    + exists (Split d "/"). change (d +:+ "/" +:+ x) with (d +:+ String "/" x).
      unfold Split at 1. by rewrite split_go_app, Hs.
Qed.

(** The cleaned directory with the separator that follows it. *)
Definition dir_prefix (d : string) : string :=
  let rooted := HasPrefix d "/" in
  (if rooted then "/" else "") +:+ Join (rev (fold_left (clean_step rooted) (Split d "/") []) ++ [""]) "/".

Lemma Join_last l x sep : Join (l ++ [x]) sep = Join (l ++ [""]) sep +:+ x.
Proof.
  induction l as [|y l IH]; [done|]. destruct (l ++ [x]) as [|z r] eqn:E; [by destruct l|].
  destruct (l ++ [""]) as [|z' r'] eqn:E'; [by destruct l|].
  change (Join ((y :: l) ++ [x]) sep) with (Join (y :: (l ++ [x])) sep).
  change (Join ((y :: l) ++ [""]) sep) with (Join (y :: (l ++ [""])) sep). rewrite E, E'. cbn [Join] in *.
  rewrite IH. by rewrite !sapp_assoc.
Qed.

(** A plain name joined to a directory is in that directory. *)
Lemma PathJoin_inside d x : d ≠ "" → Split x "/" = [x] → x ≠ "" → x ≠ "." → x ≠ ".." →
  PathJoin [d; x] = dir_prefix d +:+ x.
Proof.
  intros Hd Hs He Hx Hxx. unfold PathJoin. rewrite !filter_cons_True by done. cbn [filter list_filter Join].
  unfold Clean, dir_prefix. assert (d +:+ "/" +:+ x =s "" = false) as -> by (apply streq_false; by destruct d).
  assert (HasPrefix (d +:+ "/" +:+ x) "/" = HasPrefix d "/") as ->.
  { destruct d as [|c d]; [done|]. destruct (HasPrefix (String c d) "/") eqn:Hp.
    - apply HasPrefix_spec in Hp as [t ->]. by rewrite sapp_assoc, HasPrefix_app.
    - apply not_true_iff_false. intros [t Ht]%HasPrefix_spec. injection Ht as -> _.
      change (String "/" d) with ("/" +:+ d) in Hp. by rewrite HasPrefix_app in Hp. }
  cbv zeta. change (d +:+ "/" +:+ x) with (d +:+ String "/" x).
  assert (Split (d +:+ String "/" x) "/" = Split d "/" ++ [x]) as -> by (unfold Split at 1; by rewrite split_go_app, Hs).
  rewrite fold_left_app. cbn [fold_left]. set (rooted := HasPrefix d "/"). set (st := fold_left _ _ []).
  assert (clean_step rooted st x = x :: st) as -> by (unfold clean_step; by rewrite !(proj2 (streq_false _ _))).
  change (rev (x :: st)) with (rev st ++ [x]). rewrite Join_last. destruct rooted; [by rewrite sapp_assoc|].
  destruct (rev st ++ [x]) eqn:E; [by destruct (rev st)|done].
Qed.

Fixpoint last_byte (s : string) : option ascii :=
  match s with
  | "" => None
  | String c "" => Some c
  | String _ r => last_byte r
  end.

Lemma last_byte_app s t : t ≠ "" → last_byte (s +:+ t) = last_byte t.
Proof.
  intros Ht. induction s as [|c s IH]; [done|].
  change (last_byte (String c (s +:+ t)) = last_byte t). rewrite <- IH. cbn.
  destruct (s +:+ t) eqn:E; [|done]. by destruct s.
Qed.

(** ** Properties *)

(** An address that is put together comes apart. For a host without brackets
    and a port without colons or brackets, splitting the joined address gives
    back the host, IPv6 literals included, and the port. *)
Theorem SplitHostPort_JoinHostPort (host port : string) :
  has_byte "[" host = false → has_byte "]" host = false →
  has_byte ":" port = false → has_byte "[" port = false → has_byte "]" port = false →
  SplitHostPort (JoinHostPort host port) = Some (host, port).
Proof.
  intros Hl Hr Hp Hpl Hpr. unfold JoinHostPort, SplitHostPort, LastIndexByte.
  destruct (has_byte ":" host) eqn:Hc.
  - set (s := "[" +:+ host +:+ "]:" +:+ port).
    assert (s = ("[" +:+ host) +:+ String "]" (String ":" port)) as Hs1.
    { subst s. by rewrite sapp_assoc. }
    assert (s = ("[" +:+ host +:+ "]") +:+ String ":" port) as Hs2.
    { subst s. by rewrite !sapp_assoc. }
    assert (HasPrefix s "[" = true) as -> by apply (HasPrefix_app "[").
    rewrite Hs2 at 1. rewrite last_index_app by done. cbn [mbind option_bind].
    rewrite Hs1 at 1. rewrite index_byte_app by (rewrite has_byte_app, Hr; done).
    cbn [mbind option_bind]. rewrite !slength_app.
    replace (S (String.length "[" + String.length host) =? 0 + (String.length "[" + (String.length host + String.length "]")))%nat
      with true by (symmetry; apply Nat.eqb_eq; cbn; lia). cbn [negb].
    assert (sdrop 1 s = host +:+ "]:" +:+ port) as -> by (subst s; by destruct host).
    assert (sdrop (S (String.length "[" + String.length host)) s = String ":" port) as ->.
    { rewrite Hs1, <- slength_app. apply sdrop_app_S. }
    rewrite !has_byte_app, Hl. cbn [has_byte]. rewrite Hpl, Hpr. rewrite !bool_decide_eq_false_2 by done. cbn [orb].
    replace (String.length "[" + String.length host - 1)%nat with (String.length host) by (cbn; lia).
    rewrite stake_app. f_equal. f_equal. rewrite Hs2.
    replace (0 + (String.length "[" + (String.length host + String.length "]")))%nat
      with (String.length ("[" +:+ host +:+ "]")) by (by rewrite !slength_app).
    apply sdrop_app_S.
  - change (host +:+ ":" +:+ port) with (host +:+ String ":" port).
    rewrite last_index_app by done. cbn [mbind option_bind].
    rewrite Nat.add_0_l, sdrop_app_S, stake_app, Hc, !has_byte_app, Hl, Hr. cbn [has_byte].
    rewrite Hpl, Hpr. rewrite !bool_decide_eq_false_2 by done. cbn [orb].
    destruct (HasPrefix (host +:+ String ":" port) "[") eqn:Hpre; [exfalso|done].
    apply HasPrefix_spec in Hpre as [t Ht].
    assert (has_byte "[" (host +:+ String ":" port) = true) as Hb by by rewrite Ht.
    rewrite has_byte_app, Hl in Hb. cbn [has_byte] in Hb. by rewrite Hpl in Hb.
Qed.

Lemma SplitHostPort_JoinHostPort_witness :
  has_byte ":" "::1" = true ∧ SplitHostPort (JoinHostPort "::1" "80") = Some ("::1", "80").
Proof. split; [reflexivity|]. apply (SplitHostPort_JoinHostPort "::1" "80"); reflexivity. Defined.

(** A listener yields to the next free port and no further. For a
    non-zero port, [Listen] answers the first address at or above the configured
    port that binds, provided all below it were in use; it reports the address it
    could not use when another error comes first, and an exhausted range exactly
    when all [maxRetries + 1] addresses are in use. *)
Theorem Listen_first_free (try : string → bind_result) (addr host portStr : string) (port maxRetries : Z) :
  SplitHostPort addr = Some (host, portStr) → Atoi portStr = (port, true) → port ≠ 0 →
  let candidate i := JoinHostPort host (Itoa (wrap_i64 (port + i))) in
  let last := Z.max 0 maxRetries in
  match Listen try addr maxRetries with
  | inl bound => ∃ i, 0 ≤ i ≤ last ∧ bound = candidate i ∧ (∃ a, try bound = Bound a) ∧
      ∀ j, 0 ≤ j < i → try (candidate j) = InUse
  | inr (ErrListen a) => ∃ i, 0 ≤ i ≤ last ∧ a = candidate i ∧ try a = Unusable ∧
      ∀ j, 0 ≤ j < i → try (candidate j) = InUse
  | inr ErrNoFreePort => ∀ j, 0 ≤ j ≤ last → try (candidate j) = InUse
  | inr _ => False
  end.
Proof.
  intros Hs Ha Hp. cbv zeta. unfold Listen. rewrite Hs, Ha. cbn [negb].
  destruct (Z.eqb_spec port 0) as [|_]; [done|].
  replace (if maxRetries <? 0 then 0 else maxRetries) with (Z.max 0 maxRetries)
    by (destruct (Z.ltb_spec maxRetries 0); lia).
  set (lst := Z.max 0 maxRetries). assert (0 ≤ lst) as Hlst by lia. clearbody lst. clear Hs Ha Hp maxRetries addr portStr.
  assert (∀ n p, match scan_ports try host p n with
    | inl bound => ∃ i, 0 ≤ i < Z.of_nat n ∧ bound = JoinHostPort host (Itoa (wrap_i64 (p + i))) ∧
        (∃ a, try bound = Bound a) ∧ ∀ j, 0 ≤ j < i → try (JoinHostPort host (Itoa (wrap_i64 (p + j)))) = InUse
    | inr (ErrListen a) => ∃ i, 0 ≤ i < Z.of_nat n ∧ a = JoinHostPort host (Itoa (wrap_i64 (p + i))) ∧
        try a = Unusable ∧ ∀ j, 0 ≤ j < i → try (JoinHostPort host (Itoa (wrap_i64 (p + j)))) = InUse
    | inr ErrNoFreePort => ∀ j, 0 ≤ j < Z.of_nat n → try (JoinHostPort host (Itoa (wrap_i64 (p + j)))) = InUse
    | inr _ => False
    end) as Hscan.
  { induction n as [|n IH]; intros p; cbn [scan_ports]; [intros j Hj; lia|].
    destruct (try (JoinHostPort host (Itoa (wrap_i64 p)))) as [a| |] eqn:Ht.
    - exists 0. rewrite Z.add_0_r. split; [lia|]. split; [done|]. split; [by exists a|]. lia.
    - assert (∀ i, p + 1 + (i - 1) = p + i) as Hshift by lia.
      assert (∀ m, (∀ j, 0 ≤ j < m → try (JoinHostPort host (Itoa (wrap_i64 (p + 1 + j)))) = InUse) →
        ∀ j, 0 ≤ j < 1 + m → try (JoinHostPort host (Itoa (wrap_i64 (p + j)))) = InUse) as Hext.
      { intros m Hm j Hj. destruct (decide (j = 0)) as [->|Hj0]; [by rewrite Z.add_0_r|].
        rewrite <- Hshift. apply Hm. lia. }
      specialize (IH (p + 1)). destruct (scan_ports try host (p + 1) n) as [bound|[| |a|]]; try done.
      + destruct IH as (i & Hi & -> & Hb & Hj). exists (1 + i). rewrite (Z.add_assoc p 1 i).
        split; [lia|]. split; [done|]. split; [done|]. by apply Hext.
      + destruct IH as (i & Hi & -> & Hb & Hj). exists (1 + i). rewrite (Z.add_assoc p 1 i).
        split; [lia|]. split; [done|]. split; [done|]. by apply Hext.
      + intros j Hj. apply (Hext _ IH). lia.
    - exists 0. rewrite Z.add_0_r. split; [lia|]. split; [done|]. split; [done|]. lia. }
  specialize (Hscan (S (Z.to_nat lst)) port).
  destruct (scan_ports _ _ _ _) as [bound|[| |a|]]; try done.
  - destruct Hscan as (i & Hi & ?). exists i. split; [lia|done].
  - destruct Hscan as (i & Hi & ?). exists i. split; [lia|done].
  - intros j Hj. apply Hscan. lia.
Qed.

Lemma Listen_first_free_witness :
  let try a := if a =s "localhost:8081" then Bound a else InUse in
  Listen try "localhost:8080" 3 = inl "localhost:8081" ∧
  match Listen try "localhost:8080" 3 with
  | inl bound => ∃ i, 0 ≤ i ≤ Z.max 0 3 ∧ bound = JoinHostPort "localhost" (Itoa (wrap_i64 (8080 + i))) ∧
      (∃ a, try bound = Bound a) ∧ ∀ j, 0 ≤ j < i → try (JoinHostPort "localhost" (Itoa (wrap_i64 (8080 + j)))) = InUse
  | inr (ErrListen a) => ∃ i, 0 ≤ i ≤ Z.max 0 3 ∧ a = JoinHostPort "localhost" (Itoa (wrap_i64 (8080 + i))) ∧
      try a = Unusable ∧ ∀ j, 0 ≤ j < i → try (JoinHostPort "localhost" (Itoa (wrap_i64 (8080 + j)))) = InUse
  | inr ErrNoFreePort => ∀ j, 0 ≤ j ≤ Z.max 0 3 → try (JoinHostPort "localhost" (Itoa (wrap_i64 (8080 + j)))) = InUse
  | inr _ => False
  end.
Proof.
  cbv zeta. split; [vm_compute; reflexivity|].
  apply (Listen_first_free (λ a, if a =s "localhost:8081" then Bound a else InUse)
    "localhost:8080" "localhost" "8080" 8080 3); [vm_compute; reflexivity..|discriminate].
Defined.

(** A URL whose user part looks like a loopback address passes for loopback,
    although its host is not, so no secret is asked for. *)
Example IsLoopbackAddr_userinfo :
  IsLoopbackAddr "http://127.0.0.1:80@introducer.example/" = true ∧
  RequireSharedSecret "http://127.0.0.1:80@introducer.example/" "" = true.
Proof. vm_compute. done. Qed.

(** ** Decimal numbers, there and back *)

Definition is_digit (c : ascii) : bool := bool_decide (is_Some (digit c)).

Lemma digit_char d : (d < 10)%N → digit (pretty_N_char d) = Some (Z.of_N d).
Proof.
  intros Hd. assert (d = 0 ∨ d = 1 ∨ d = 2 ∨ d = 3 ∨ d = 4 ∨ d = 5 ∨ d = 6 ∨ d = 7 ∨ d = 8 ∨ d = 9)%N as H by lia.
  by destruct H as [->|[->|[->|[->|[->|[->|[->|[->|[->| ->]]]]]]]]].
Qed.

(** Printing [x] in front of [s] and reading all of it reads [x], and then [s]. *)
Lemma parse_pretty x s : parse_digits 0 (pretty_N_go x s) = parse_digits (Z.of_N x) s ∧
  all_bytes is_digit (pretty_N_go x s) = all_bytes is_digit s ∧ (x ≠ 0%N ∨ s ≠ "" → pretty_N_go x s ≠ "").
Proof.
  revert s. induction (N.lt_wf_0 x) as [x _ IH]; intros s.
  destruct (decide (x = 0)%N) as [->|Hx]; [rewrite pretty_N_go_0; naive_solver|].
  rewrite pretty_N_go_step by lia. destruct (IH (x `div` 10)%N) with (s := String (pretty_N_char (x `mod` 10)) s) as (H1 & H2 & H3).
  { apply N.div_lt; lia. }
  assert (x `mod` 10 < 10)%N as Hm by (apply N.mod_lt; lia). split_and!.
  - rewrite H1. cbn [parse_digits]. rewrite (digit_char _ Hm). cbn [mbind option_bind]. f_equal.
    rewrite (N.div_mod x 10) at 3 by lia. lia.
  - rewrite H2. cbn [all_bytes]. unfold is_digit at 1. by rewrite (digit_char _ Hm).
  - intros _. apply H3. by right.
Qed.

Lemma Itoa_digits n : 0 <= n → all_bytes is_digit (Itoa n) = true ∧ Itoa n ≠ "" ∧ parse_digits 0 (Itoa n) = Some n.
Proof.
  intros Hn. unfold Itoa, pretty, pretty_Z. destruct n as [|q|q]; [done| |lia].
  unfold pretty, pretty_positive, pretty, pretty_N. rewrite decide_False by done.
  destruct (parse_pretty (N.pos q) "") as (H1 & H2 & H3). rewrite H1, H2. split_and!; [done|apply H3; by left|done].
Qed.

Lemma digit_not_space c : is_digit c = true → Forall (λ r, has_byte c r = false) space_runes.
Proof.
  intros Hl. enough (forallb (λ r, negb (has_byte c r)) space_runes = true) as H.
  { apply Forall_forall. intros r Hin. rewrite forallb_forall in H. apply negb_true_iff, H. by apply list_elem_of_In. }
  destruct c as [[] [] [] [] [] [] [] []]; solve [discriminate Hl | vm_compute; reflexivity].
Qed.

Lemma Atoi_Itoa n : 0 <= n < two63 → Atoi (Itoa n) = (n, true).
Proof.
  intros [Hn Hm]. destruct (Itoa_digits n Hn) as (Hd & Hne & Hp). unfold Atoi.
  assert (match Itoa n with String "-" r => (true, r) | String "+" r => (false, r) | _ => (false, Itoa n) end = (false, Itoa n)) as ->.
  { destruct (Itoa n) as [|c r]; [done|]. cbn in Hd. apply andb_true_iff in Hd as [Hc _].
    destruct c as [[] [] [] [] [] [] [] []]; try done; discriminate Hc. }
  apply streq_false in Hne as ->. rewrite Hp.
  rewrite (proj2 (Z.ltb_ge _ _)) by lia. rewrite (proj2 (Z.ltb_ge _ _)) by (unfold two63 in *; lia). done.
Qed.

Lemma TrimSpace_Itoa n : 0 <= n → TrimSpace (Itoa n) = Itoa n.
Proof. intros Hn. eapply TrimSpace_id; [apply digit_not_space|]. by apply Itoa_digits. Qed.
