(* ===== verification/DurationText.v ===== *)
(** * What a duration prints parses back

    [time.ParseDuration] is a left inverse of [time.Duration.String] on the
    durations that are not negative. *)

From Stdlib Require Import ZArith Lia Ascii.
From stdpp Require Import base tactics strings pretty.
From stdpp Require Import list.
From S2P Require Import Prelude Bytes Durations Net.

Open Scope Z_scope.
Open Scope go_scope.

(** What may follow a number or a unit. *)
Definition no_digit (t : string) : Prop := match t with "" => True | String c _ => Durations.is_digit c = false end.
Definition number_next (t : string) : Prop :=
  match t with "" => True | String c _ => Durations.is_digit c || bool_decide (c = "."%char) = true end.

Lemma digit_val_of c d : digit c = Some d → Durations.is_digit c = true ∧ digit_val c = d ∧ 0 <= d < 10.
Proof.
  unfold digit, Durations.is_digit, digit_val. cbn zeta. destruct (_ && _) eqn:E; [|done]. intros [= <-]. go_bools. lia.
Qed.

(** ** The whole part *)

Lemma parse_digits_le s : ∀ x v, 0 <= x → parse_digits x s = Some v → x <= v.
Proof.
  induction s as [|c s IH]; intros x v Hx; cbn; [intros [= <-]; lia|].
  destruct (digit c) as [d|] eqn:Hd; [|done]. apply digit_val_of in Hd as (_ & _ & Hd). intros Hv.
  apply IH in Hv; lia.
Qed.

Lemma leadingInt_digits s : ∀ x v t, 0 <= x → parse_digits x s = Some v → v <= two63 → no_digit t →
  leadingInt x (s +:+ t) = Some (v, t).
Proof.
  induction s as [|c s IH]; intros x v t Hx; cbn [parse_digits].
  - intros [= <-] Hv Ht. change ("" +:+ t) with t. destruct t as [|c t]; [done|]. cbn [no_digit leadingInt] in *. by rewrite Ht.
  - change (String c s +:+ t) with (String c (s +:+ t)). cbn [leadingInt].
    destruct (digit c) as [d|] eqn:Hd; [|done]. cbn [mbind option_bind]. intros Hp Hv Ht.
    apply digit_val_of in Hd as (-> & -> & Hd). cbn [negb]. assert (10 * x + d <= v) as Hle by (apply (parse_digits_le s); [lia|done]).
    rewrite (Z.mul_comm x 10).
    destruct (Z.gtb_spec x (two63 / 10)) as [Hgt|_].
    { unfold two63 in *. assert (9223372036854775808 / 10 = 922337203685477580) as H by reflexivity. rewrite H in Hgt. lia. }
    destruct (Z.gtb_spec (10 * x + d) two63); [lia|]. apply IH; [lia|done..].
Qed.

Lemma Itoa_leading n t : 0 <= n <= two63 → no_digit t → leadingInt 0 (Itoa n +:+ t) = Some (n, t).
Proof. intros Hn Ht. destruct (Itoa_digits n) as (_ & _ & Hp); [lia|]. apply leadingInt_digits; [done|done|lia|done]. Qed.

Lemma Itoa_first n t : 0 <= n → ∃ c r, Itoa n +:+ t = String c r ∧ Durations.is_digit c = true.
Proof.
  intros Hn. destruct (Itoa_digits n Hn) as (Hd & Hne & _). destruct (Itoa n) as [|c r]; [done|].
  exists c, (r +:+ t). split; [done|]. cbn in Hd. apply andb_true_iff in Hd as [Hc _].
  unfold is_digit in Hc. apply bool_decide_eq_true in Hc as [d Hd]. by apply digit_val_of in Hd as [? _].
Qed.

(** ** The fraction *)

(** The last [k] digits of [w]. *)
Fixpoint low_digits (k : nat) (w : Z) : string :=
  match k with O => "" | S k => low_digits k (w / 10) +:+ Itoa (w mod 10) end.

Lemma fmt_frac_printing k : ∀ w acc, fmt_frac k w true acc = "." +:+ low_digits k w +:+ acc.
Proof. induction k as [|k IH]; intros w acc; [done|]. cbn [fmt_frac low_digits orb]. by rewrite IH, sapp_assoc. Qed.

Lemma pow10_pos k : 0 < 10 ^ Z.of_nat k.
Proof. apply Z.pow_pos_nonneg; lia. Qed.
Lemma pow10_S k : 10 ^ Z.of_nat (S k) = 10 * 10 ^ Z.of_nat k.
Proof. rewrite Nat2Z.inj_succ, Z.pow_succ_r by lia. done. Qed.

Lemma low_mod k w : 10 * ((w / 10) mod 10 ^ Z.of_nat k) + w mod 10 = w mod 10 ^ Z.of_nat (S k).
Proof.
  rewrite pow10_S. pose proof (pow10_pos k). rewrite (Z.rem_mul_r w 10) by lia. lia.
Qed.

(** The fraction is nothing, or its digits up to the last one that counts. *)
Lemma fmt_frac_spec prec : ∀ v, 0 <= v →
  (v mod 10 ^ Z.of_nat prec = 0 ∧ fmt_frac prec v false "" = "") ∨
  (∃ k j w, (k + j = prec)%nat ∧ (0 < k)%nat ∧ 0 <= w ∧ v = w * 10 ^ Z.of_nat j ∧ fmt_frac prec v false "" = "." +:+ low_digits k w).
Proof.
  induction prec as [|prec IH]; intros v Hv; [left; split; [|done]; apply Z.mod_1_r|].
  cbn [fmt_frac orb]. destruct (Z.eqb_spec (v mod 10) 0) as [H0|H0]; cbn [negb].
  - destruct (IH (v / 10)) as [[Hm ->]|(k & j & w & Hk & Hp & Hw & Hv' & ->)]; [by apply Z.div_pos|..].
    + left. split; [|done]. rewrite <- low_mod, Hm, H0. lia.
    + right. exists k, (S j), w. split_and!; [lia|done|done| |done]. rewrite pow10_S.
      rewrite (Z.div_mod v 10), H0, Hv' by lia. lia.
  - right. exists (S prec), 0%nat, v. split_and!; [lia|lia|done|lia|]. rewrite fmt_frac_printing. by rewrite sapp_nil_r.
Qed.

Lemma one_digit d t : 0 <= d < 10 → ∃ c, Itoa d +:+ t = String c t ∧ Durations.is_digit c = true ∧ digit_val c = d.
Proof.
  intros Hd. assert (d = 0 ∨ d = 1 ∨ d = 2 ∨ d = 3 ∨ d = 4 ∨ d = 5 ∨ d = 6 ∨ d = 7 ∨ d = 8 ∨ d = 9) as H by lia.
  by destruct H as [->|[->|[->|[->|[->|[->|[->|[->|[->| ->]]]]]]]]]; eexists.
Qed.

Lemma leadingFraction_low k : ∀ w scale t, (k <= 9)%nat →
  leadingFraction 0 scale false (low_digits k w +:+ t) = leadingFraction (w mod 10 ^ Z.of_nat k) (scale * 10 ^ Z.of_nat k) false t.
Proof.
  induction k as [|k IH]; intros w scale t Hk.
  { cbn [low_digits]. change ("" +:+ t) with t. rewrite Z.mod_1_r. f_equal. lia. }
  cbn [low_digits]. rewrite sapp_assoc, IH by lia.
  destruct (one_digit (w mod 10) t) as (c & -> & Hc & Hv); [apply Z.mod_pos_bound; lia|].
  cbn [leadingFraction]. rewrite Hc, Hv. cbn [negb].
  assert (10 ^ Z.of_nat k <= 10 ^ 8) as Hb by (apply Z.pow_le_mono_r; lia). change (10 ^ 8) with 100000000 in Hb.
  pose proof (Z.mod_pos_bound (w / 10) (10 ^ Z.of_nat k) (pow10_pos k)). pose proof (Z.mod_pos_bound w 10 ltac:(lia)).
  assert ((two63 - 1) / 10 = 922337203685477580) as Hm by reflexivity.
  destruct (Z.gtb_spec ((w / 10) mod 10 ^ Z.of_nat k) ((two63 - 1) / 10)) as [Hgt|_]; [rewrite Hm in Hgt; lia|].
  destruct (Z.gtb_spec ((w / 10) mod 10 ^ Z.of_nat k * 10 + w mod 10) two63) as [Hgt|_]; [unfold two63 in Hgt; lia|].
  f_equal; [rewrite <- low_mod; lia|]. rewrite pow10_S. lia.
Qed.

Lemma low_digits_nonempty k w t : (0 < k)%nat → low_digits k w +:+ t ≠ t.
Proof.
  intros Hk H. assert (String.length (low_digits k w +:+ t) = String.length t) as Hl by by rewrite H.
  rewrite slength_app in Hl. destruct k as [|k]; [lia|]. cbn [low_digits] in Hl. rewrite slength_app in Hl.
  destruct (Itoa_digits (w mod 10)) as (_ & Hne & _); [apply Z.mod_pos_bound; lia|]. destruct (Itoa (w mod 10)); [done|]. cbn in Hl. lia.
Qed.

(** ** One number and its unit *)

Definition unit_byte (c : ascii) : bool := negb (Durations.is_digit c || bool_decide (c = "."%char)).

Lemma cut_unit_app u t : all_bytes unit_byte u = true → number_next t → cut_unit (u +:+ t) = (u, t).
Proof.
  intros Hu Ht. induction u as [|c u IH].
  - change ("" +:+ t) with t. destruct t as [|c t]; [done|]. cbn [number_next cut_unit] in *. by rewrite Ht.
  - cbn [all_bytes] in Hu. apply andb_true_iff in Hu as [Hc Hu]. change (String c u +:+ t) with (String c (u +:+ t)).
    cbn [cut_unit]. unfold unit_byte in Hc. apply negb_true_iff in Hc as ->. by rewrite IH.
Qed.

Lemma unit_starts u t : all_bytes unit_byte u = true → u ≠ "" →
  no_digit (u +:+ t) ∧ ∀ A (f : string → A) (x : A), match u +:+ t with String "." r => f r | _ => x end = x.
Proof.
  destruct u as [|c u]; [done|]. cbn [all_bytes]. intros [Hc _]%andb_true_iff _. unfold unit_byte in Hc.
  apply negb_true_iff, orb_false_iff in Hc as [Hc Hd]. apply bool_decide_eq_false in Hd.
  change (String c u +:+ t) with (String c (u +:+ t)). split; [done|]. intros A f x.
  destruct c as [[] [] [] [] [] [] [] []]; try done; by destruct Hd.
Qed.

Section Component.
Context (n unit : Z) (u t : string).
Context (Hn : 0 <= n) (Hu : all_bytes unit_byte u = true) (Hunit : find (λ p, p.1 =s u) unit_map = Some (u, unit)) (Ht : number_next t).

Lemma unit_nonempty : u ≠ "".
Proof. intros Hu0. clear - Hunit Hu0. subst. by vm_compute in Hunit. Qed.

Lemma unit_pos : 0 < unit.
Proof. by eapply unit_map_pos. Qed.

Lemma whole_bound : n * unit <= two63 → 0 <= n <= two63.
Proof. pose proof unit_pos. nia. Qed.

Lemma parse_whole : n * unit <= two63 → parse_component (Itoa n +:+ u +:+ t) = Some (n * unit, t).
Proof.
  intros Hb. pose proof unit_pos. destruct (unit_starts u t Hu unit_nonempty) as [Hs Hdot].
  destruct (Itoa_first n (u +:+ t) Hn) as (c & r & Hc & Hd). unfold parse_component. rewrite Hc, Hd. cbn [orb negb].
  rewrite <- Hc. rewrite Itoa_leading; [|by apply whole_bound|done]. cbn [mbind option_bind]. rewrite Hdot, (cut_unit_app _ _ Hu Ht), Hunit.
  assert (((u +:+ t) =s (Itoa n +:+ u +:+ t)) = false) as ->.
  { apply streq_false. intros Heq. rewrite Hc in Heq. rewrite Heq in Hs. cbn in Hs. unfold no_digit in Hs. by rewrite Hd in Hs. }
  cbn [negb andb]. destruct (Z.gtb_spec n (two63 / unit)) as [Hgt|_].
  { assert (n <= two63 / unit); [|lia]. apply Z.div_le_lower_bound; lia. }
  rewrite Z.mul_0_l, Z.div_0_l, Z.add_0_r by lia. destruct (Z.gtb_spec (n * unit) two63); [lia|done].
Qed.

Lemma parse_fraction k w : (0 < k ≤ 9)%nat → n * unit + (w mod 10 ^ Z.of_nat k) * unit / 10 ^ Z.of_nat k <= two63 →
  parse_component (Itoa n +:+ ("." +:+ low_digits k w) +:+ u +:+ t) = Some (n * unit + (w mod 10 ^ Z.of_nat k) * unit / 10 ^ Z.of_nat k, t).
Proof.
  intros Hk Hb. pose proof unit_pos. destruct (unit_starts u t Hu unit_nonempty) as [Hs Hdot]. pose proof (pow10_pos k).
  assert (0 <= (w mod 10 ^ Z.of_nat k) * unit / 10 ^ Z.of_nat k) as Hf.
  { apply Z.div_pos; [|lia]. pose proof (Z.mod_pos_bound w (10 ^ Z.of_nat k)). nia. }
  destruct (Itoa_first n (("." +:+ low_digits k w) +:+ u +:+ t) Hn) as (c & r & Hc & Hd). unfold parse_component. rewrite Hc, Hd. cbn [orb negb].
  rewrite <- Hc. rewrite Itoa_leading; [|apply whole_bound; lia|done]. cbn [mbind option_bind].
  change (("." +:+ low_digits k w) +:+ u +:+ t) with (String "." (low_digits k w +:+ u +:+ t)). cbv iota.
  rewrite leadingFraction_low, Z.mul_1_l by lia.
  assert (∀ x s, leadingFraction x s false (u +:+ t) = (x, s, u +:+ t)) as ->.
  { intros x s. destruct (u +:+ t) as [|c' r']; [done|]. cbn [leadingFraction no_digit] in *. by rewrite Hs. }
  assert (((u +:+ t) =s (low_digits k w +:+ u +:+ t)) = false) as ->.
  { apply streq_false. intros Heq. symmetry in Heq. revert Heq. apply low_digits_nonempty. lia. }
  cbn [negb]. rewrite andb_false_r. rewrite (cut_unit_app _ _ Hu Ht), Hunit.
  destruct (Z.gtb_spec n (two63 / unit)) as [Hgt|_].
  { assert (n <= two63 / unit); [|lia]. apply Z.div_le_lower_bound; lia. }
  match goal with |- context [?a >? two63] => destruct (Z.gtb_spec a two63); [lia|done] end.
Qed.

(** The number with the fraction [fmt_frac] prints for [v]. *)
Lemma parse_printed prec v : unit = 10 ^ Z.of_nat prec → (prec <= 9)%nat → 0 <= v → n = v / unit → v <= two63 →
  parse_component (Itoa n +:+ fmt_frac prec v false "" +:+ u +:+ t) = Some (v, t).
Proof.
  intros Hun Hp Hv Hnv Hb. pose proof unit_pos. pose proof (Z.div_mod v unit ltac:(lia)) as Hdm.
  destruct (fmt_frac_spec prec v Hv) as [[Hm ->]|(k & j & w & Hk & H0 & Hw & Hvw & ->)].
  - change ("" +:+ u +:+ t) with (u +:+ t). rewrite <- Hun in Hm. rewrite Hm in Hdm. rewrite parse_whole; [do 2 f_equal|]; subst n; lia.
  - assert ((w mod 10 ^ Z.of_nat k) * unit / 10 ^ Z.of_nat k = v mod unit) as Hfrac.
    { pose proof (pow10_pos k). pose proof (pow10_pos j). rewrite Hun, Hvw, <- Hk, Nat2Z.inj_add, Z.pow_add_r by lia.
      rewrite Z.mul_mod_distr_r by lia. replace (w mod 10 ^ Z.of_nat k * (10 ^ Z.of_nat k * 10 ^ Z.of_nat j))
        with ((w mod 10 ^ Z.of_nat k * 10 ^ Z.of_nat j) * 10 ^ Z.of_nat k) by lia. by rewrite Z.div_mul by lia. }
    rewrite parse_fraction; rewrite ?Hfrac; [|lia|]; [do 2 f_equal|]; subst n; lia.
Qed.
End Component.

(** ** All of it *)

Lemma parse_components_step fuel d s v r : s ≠ "" → parse_component s = Some (v, r) → d + v <= two63 →
  parse_components (S fuel) d s = parse_components fuel (d + v) r.
Proof.
  intros Hs Hp Hb. cbn [parse_components]. apply streq_false in Hs as ->. rewrite Hp. cbn [mbind option_bind].
  destruct (Z.gtb_spec (d + v) two63); [lia|done].
Qed.

Lemma number_nonempty n t : 0 <= n → Itoa n +:+ t ≠ "" ∧ number_next (Itoa n +:+ t) ∧ (String.length t < String.length (Itoa n +:+ t))%nat.
Proof.
  intros Hn. destruct (Itoa_digits n Hn) as (_ & Hne & _). destruct (Itoa_first n t Hn) as (c & r & Hc & Hd).
  split_and!; [by rewrite Hc|rewrite Hc; cbn [number_next]; by rewrite Hd|].
  rewrite slength_app. destruct (Itoa n); [done|cbn; lia].
Qed.

(** A printed duration is no sign and not the lone [0] that needs no unit. *)
Lemma ParseDuration_number n t v : 0 <= n → t ≠ "" → no_digit t → v <= two63 - 1 →
  parse_components (String.length (Itoa n +:+ t)) 0 (Itoa n +:+ t) = Some v → ParseDuration (Itoa n +:+ t) = Some v.
Proof.
  intros Hn Ht Hnd Hv Hp. destruct (number_nonempty n t Hn) as (Hne & _). destruct (Itoa_first n t Hn) as (c & r & Hc & Hd).
  unfold ParseDuration.
  assert (match Itoa n +:+ t with String "-" r => (true, r) | String "+" r => (false, r) | _ => (false, Itoa n +:+ t) end
    = (false, Itoa n +:+ t)) as ->.
  { rewrite Hc. destruct c as [[] [] [] [] [] [] [] []]; done. }
  assert (((Itoa n +:+ t) =s "0") = false) as ->.
  { apply streq_false. intros Heq. assert (leadingInt 0 (Itoa n +:+ t) = Some (0, "")) as Hl by (by rewrite Heq).
    destruct (Z.le_gt_cases n two63) as [Hb|Hb]; [rewrite Itoa_leading in Hl by done; by simplify_eq|].
    assert (String.length (Itoa n +:+ t) = 1%nat) as Hlen by by rewrite Heq. rewrite slength_app in Hlen.
    destruct (Itoa_digits n Hn) as (_ & Hi & _). destruct (Itoa n); [done|]. destruct t; [done|]. cbn in Hlen. lia. }
  apply streq_false in Hne as ->. rewrite Hp. cbn [mbind option_bind]. destruct (Z.gtb_spec v (two63 - 1)); [lia|done].
Qed.

Ltac known_unit := solve [done | vm_compute; reflexivity].

(** One component is the whole text. *)
Lemma ParseDuration_single prec unit u d : unit = 10 ^ Z.of_nat prec → (prec <= 9)%nat → 0 <= d <= two63 - 1 →
  all_bytes unit_byte u = true → find (λ p, p.1 =s u) unit_map = Some (u, unit) →
  ParseDuration (Itoa (d / unit) +:+ fmt_frac prec d false "" +:+ u) = Some d.
Proof.
  intros Hun Hp Hd Hu Hunit. assert (0 < unit) as Hpos by (by eapply unit_map_pos).
  assert (0 <= d / unit) as Hn by (apply Z.div_pos; lia).
  assert (parse_component (Itoa (d / unit) +:+ fmt_frac prec d false "" +:+ u) = Some (d, "")) as Hc.
  { rewrite <- (sapp_nil_r u) at 1. apply (parse_printed _ unit u ""); try done; lia. }
  destruct (number_nonempty (d / unit) (fmt_frac prec d false "" +:+ u) Hn) as (Hne & _ & Hl).
  destruct (unit_starts u "" Hu (unit_nonempty unit u Hunit)) as [Hs _]. rewrite sapp_nil_r in Hs.
  apply ParseDuration_number; [done| | |lia|].
  - destruct (fmt_frac prec d false ""); [|done]. by apply (unit_nonempty unit u).
  - destruct (fmt_frac_spec prec d) as [[_ ->]|(k & j & w & _ & _ & _ & _ & ->)]; [lia|done|done].
  - destruct (String.length (Itoa _ +:+ _)) as [|len]; [lia|]. rewrite (parse_components_step _ _ _ _ _ Hne Hc) by lia.
    destruct len; done.
Qed.

Lemma fmt_frac_mod prec : ∀ v w print acc, v mod 10 ^ Z.of_nat prec = w mod 10 ^ Z.of_nat prec →
  fmt_frac prec v print acc = fmt_frac prec w print acc.
Proof.
  induction prec as [|prec IH]; intros v w print acc; [done|]. rewrite <- !low_mod. intros H. cbn [fmt_frac].
  pose proof (Z.mod_pos_bound v 10). pose proof (Z.mod_pos_bound w 10).
  assert (v mod 10 = w mod 10) as -> by lia. apply IH. lia.
Qed.

(** A component with a unit that has no fraction, in front of another one. *)
Lemma parse_leading n unit u t fuel d : 0 <= n → all_bytes unit_byte u = true →
  find (λ p, p.1 =s u) unit_map = Some (u, unit) → number_next t → 0 <= d → d + n * unit <= two63 →
  parse_components (S fuel) d (Itoa n +:+ u +:+ t) = parse_components fuel (d + n * unit) t.
Proof.
  intros Hn Hu Hunit Ht Hd Hb. apply parse_components_step; [by apply number_nonempty| |done].
  apply parse_whole; try done. lia.
Qed.

Lemma fuel_at_least k s : (k ≤ String.length s)%nat → ∃ fuel, String.length s = (k + fuel)%nat.
Proof. intros H. exists (String.length s - k)%nat. lia. Qed.

(** From a second on: hours and minutes as far as they count, then seconds. *)
Lemma ParseDuration_clock d : Second <= d <= two63 - 1 →
  let secs := d / Second in let mins := secs / 60 in let hours := mins / 60 in
  ParseDuration ((if hours >? 0 then Itoa hours +:+ "h" else "") +:+ (if mins >? 0 then Itoa (mins mod 60) +:+ "m" else "")
    +:+ Itoa (secs mod 60) +:+ fmt_frac 9 d false "" +:+ "s") = Some d.
Proof.
  intros Hd secs mins hours. unfold Second in *.
  assert (0 <= secs) by (apply Z.div_pos; lia). assert (0 <= mins) by (apply Z.div_pos; lia).
  assert (0 <= hours) by (apply Z.div_pos; lia).
  pose proof (Z.div_mod d 1000000000 ltac:(lia)) as E1. pose proof (Z.div_mod secs 60 ltac:(lia)) as E2.
  pose proof (Z.div_mod mins 60 ltac:(lia)) as E3. fold secs in E1. fold mins in E2. fold hours in E3.
  pose proof (Z.mod_pos_bound d 1000000000 ltac:(lia)). pose proof (Z.mod_pos_bound secs 60 ltac:(lia)).
  pose proof (Z.mod_pos_bound mins 60 ltac:(lia)).
  set (rest := secs mod 60 * 1000000000 + d mod 1000000000).
  assert (parse_component (Itoa (secs mod 60) +:+ fmt_frac 9 d false "" +:+ "s") = Some (rest, "")) as Hs.
  { rewrite (fmt_frac_mod 9 d rest).
    - apply (parse_printed _ 1000000000 "s" ""); try done; unfold rest, two63 in *; try lia.
      rewrite Z.div_add_l, Z.div_small by lia. lia.
    - unfold rest. change (10 ^ Z.of_nat 9) with 1000000000. rewrite Z.add_comm, Z.mod_add, Z.mod_mod by lia. done. }
  destruct (number_nonempty (secs mod 60) (fmt_frac 9 d false "" +:+ "s")) as (Hne & Hnext & Hlen); [lia|].
  assert (fmt_frac 9 d false "" +:+ "s" ≠ "" ∧ no_digit (fmt_frac 9 d false "" +:+ "s")) as [Hfrac Hnd].
  { destruct (fmt_frac_spec 9 d) as [[_ ->]|(k & j & w & _ & _ & _ & _ & ->)]; [lia|done|done]. }
  revert Hs Hne Hnext Hlen Hfrac Hnd. generalize (fmt_frac 9 d false "" +:+ "s") as frac. intros frac Hs Hne Hnext Hlen Hfrac Hnd.
  assert (∀ fuel x, x + rest = d → parse_components (S fuel) x (Itoa (secs mod 60) +:+ frac) = Some d) as Htail.
  { intros fuel x Hx. rewrite (parse_components_step _ _ _ _ _ Hne Hs) by (unfold two63 in *; lia). rewrite Hx. by destruct fuel. }
  unfold rest in Htail. clear Hs rest. clearbody hours mins secs.
  revert E1 E2 E3 Htail Hne Hnext Hlen. generalize dependent (secs mod 60). intros sm Hsm. generalize dependent (mins mod 60). intros mm Hmm.
  generalize dependent (d mod 1000000000). intros ds Hds E1 E2 E3 Htail Hne Hnext Hlen. unfold two63 in Hd.
  destruct (Z.gtb_spec hours 0) as [Hh|Hh]; destruct (Z.gtb_spec mins 0) as [Hm|Hm]; [|lia| |].
  - rewrite !sapp_assoc. destruct (number_nonempty mm ("m" +:+ Itoa sm +:+ frac)) as (_ & Hnm & Hlm); [lia|].
    destruct (number_nonempty hours ("h" +:+ Itoa mm +:+ "m" +:+ Itoa sm +:+ frac)) as (_ & _ & Hlh); [done|].
    apply ParseDuration_number; [done|done|done|unfold two63; lia|].
    destruct (fuel_at_least 3 (Itoa hours +:+ "h" +:+ Itoa mm +:+ "m" +:+ Itoa sm +:+ frac)) as [fuel ->]; [rewrite !slength_app in *; cbn [String.length] in *; lia|].
    cbn [Nat.add]. rewrite (parse_leading hours (60 * Minute) "h"); try done; unfold Minute, Second, two63 in *; [|lia].
    rewrite (parse_leading _ 60000000000 "m"); try done; unfold two63 in *; [|lia..]. apply Htail. lia.
  - change ("" +:+ ?x) with x. rewrite sapp_assoc.
    destruct (number_nonempty mm ("m" +:+ Itoa sm +:+ frac)) as (_ & _ & Hlm); [lia|].
    apply ParseDuration_number; [lia|done|done|unfold two63; lia|].
    destruct (fuel_at_least 2 (Itoa mm +:+ "m" +:+ Itoa sm +:+ frac)) as [fuel ->]; [rewrite !slength_app in *; cbn [String.length] in *; lia|].
    cbn [Nat.add]. rewrite (parse_leading _ 60000000000 "m"); try done; unfold two63 in *; [|lia..]. apply Htail. lia.
  - change ("" +:+ ?x) with x. apply ParseDuration_number; [lia|done|done|unfold two63; lia|].
    destruct (fuel_at_least 1 (Itoa sm +:+ frac)) as [fuel ->]; [lia|]. apply Htail. lia.
Qed.

(** A duration that is not negative parses back to itself. *)
Theorem ParseDuration_String d : 0 <= d <= two63 - 1 → ParseDuration (Duration_String d) = Some d.
Proof.
  intros Hd. unfold Duration_String. rewrite Z.abs_eq by lia. rewrite (proj2 (Z.ltb_ge d 0)) by lia.
  change ("" +:+ ?x) with x. destruct (Z.eqb_spec d 0) as [->|H0]; [done|].
  destruct (Z.ltb_spec d 1000).
  { pose proof (ParseDuration_single 0 1 "ns" d) as H'. rewrite Z.div_1_r in H'. apply H'; try done; lia. }
  destruct (Z.ltb_spec d 1000000).
  { apply (ParseDuration_single 3 1000 (byte_of 194 +:+ byte_of 181 +:+ "s")); try done; lia. }
  destruct (Z.ltb_spec d Second).
  { apply (ParseDuration_single 6 1000000 "ms"); try done; lia. }
  apply ParseDuration_clock. lia.
Qed.

(** Every printed duration ends in the [s] of its last unit. *)
Lemma Duration_String_not_blank d : blank (Duration_String d) = false.
Proof.
  apply (keeps_not_blank "s"); [by repeat constructor|]. unfold Duration_String.
  repeat case_match; rewrite ?has_byte_app; try done; cbn; by rewrite !orb_true_r.
Qed.

(** ** The characters of a printed time *)

Lemma Itoa_no_byte c z : digit c = None → c ≠ "-"%char → has_byte c (Itoa z) = false.
Proof.
  intros Hc Hm. assert (∀ n, 0 <= n → has_byte c (Itoa n) = false) as Hpos.
  { intros n Hn. destruct (Itoa_digits n Hn) as (Hd & _ & _). apply (all_bytes_no_byte is_digit); [|done].
    unfold is_digit. rewrite Hc. by apply bool_decide_eq_false; intros []. }
  destruct (Z.le_gt_cases 0 z) as [Hz|Hz]; [by apply Hpos|]. destruct z as [|q|q]; [lia|lia|].
  change (Itoa (Z.neg q)) with ("-" +:+ Itoa (Z.pos q)). rewrite has_byte_app, (Hpos (Z.pos q)) by lia.
  cbn. rewrite !orb_false_r. by apply bool_decide_eq_false.
Qed.

Lemma compact_time_no_byte c t : digit c = None → c ≠ "-"%char → has_byte c (compact_time t) = false.
Proof.
  intros Hc Hm. assert (∀ w z, has_byte c (pad w z) = false) as Hpad.
  { intros w z. unfold pad. rewrite has_byte_app, (Itoa_no_byte c z Hc Hm), orb_false_r. induction (w - _)%nat as [|k IH]; [done|].
    cbn [zeros has_byte]. rewrite IH, orb_false_r. apply bool_decide_eq_false. by intros ->. }
  unfold compact_time. destruct (civil t) as [[y m] d]. rewrite !has_byte_app, !Hpad. cbn.
  rewrite !orb_false_r. by apply bool_decide_eq_false.
Qed.
