(* ===== verification/UrlText.v ===== *)
(** * URLs as text

    What [URL.String] writes [url.Parse] reads back: for a URL with a host, the same
    scheme, user, host, path, query and fragment. The raw forms of the path and the
    fragment are normalised on the way. *)

From Stdlib Require Import ZArith NArith Lia Ascii.
From stdpp Require Import base tactics strings.
From stdpp Require Import list.
From S2P Require Import Prelude Bytes Net Url.

Open Scope Z_scope.

(** ** Escaping *)

Definition ascii_all (p : ascii → bool) : bool :=
  forallb (λ n, p (ascii_of_nat n)) (seq 0 256).
Lemma ascii_all_spec p : ascii_all p = true → ∀ c, p c = true.
Proof.
  unfold ascii_all. rewrite forallb_forall. intros H c. rewrite <- (ascii_nat_embedding c).
  apply H, in_seq. pose proof (nat_ascii_bounded c). lia.
Qed.

(** A predicate holds of what [escape] writes when it holds of the bytes it leaves
    alone, of the percent sign and of the hexadecimal digits. *)
Definition admits (mode : encoding) (p : ascii → bool) : bool :=
  ascii_all (λ c, shouldEscape mode c || p c) && all_bytes p "%0123456789ABCDEF".

Lemma upper_hex_admitted p n : all_bytes p "%0123456789ABCDEF" = true → (n < 16)%N → all_bytes p (upper_hex n) = true.
Proof.
  intros H Hn. cbn in H. rewrite !andb_true_iff in H. unfold upper_hex.
  assert (n ∈ map N.of_nat (seq 0 16)) as Hin.
  { apply list_elem_of_fmap. exists (N.to_nat n). split; [lia|]. apply elem_of_seq. lia. }
  cbn in Hin. rewrite !elem_of_cons, elem_of_nil in Hin.
  repeat (destruct Hin as [-> | Hin]; [cbn; rewrite andb_true_r; intuition congruence|]). done.
Qed.

Lemma nibbles c : (N_of_ascii c / 16 < 16)%N ∧ (N_of_ascii c mod 16 < 16)%N.
Proof.
  pose proof (N_ascii_bounded c). split; [apply N.Div0.div_lt_upper_bound|apply N.mod_upper_bound]; lia.
Qed.

Lemma escape_bytes mode p s : admits mode p = true → all_bytes p (escape mode s) = true.
Proof.
  intros [H1 H2]%andb_true_iff. pose proof (ascii_all_spec _ H1) as Hc. induction s as [|c s IH]; [done|].
  cbn [escape]. rewrite all_bytes_app, IH, andb_true_r. specialize (Hc c). cbv beta in Hc. destruct (nibbles c) as [Hh Hl].
  destruct (shouldEscape mode c); [|cbn in Hc |- *; by rewrite Hc].
  rewrite !all_bytes_app, !upper_hex_admitted by done. cbn in H2 |- *. by apply andb_true_iff in H2 as [-> _].
Qed.

Lemma hex_digit_upper n : (n < 16)%N →
  ∃ d, upper_hex n = String d "" ∧ Net.hex_digit d = Some (Z.of_N n).
Proof.
  intros Hn. assert (n ∈ map N.of_nat (seq 0 16)) as Hin.
  { apply list_elem_of_fmap. exists (N.to_nat n). split; [lia|]. apply elem_of_seq. lia. }
  cbn in Hin. rewrite !elem_of_cons, elem_of_nil in Hin.
  repeat (destruct Hin as [-> | Hin]; [eexists; split; [reflexivity|vm_compute; reflexivity]|]). done.
Qed.

(** Unescaping what [escape] wrote, for a decoder that takes the bytes left alone as
    they are and accepts the bytes that had to be escaped. *)
Lemma unescape_escape mode (raw_ok : ascii → bool) (escaped_ok : Z → bool) s :
  ascii_all (λ c, shouldEscape mode c || (raw_ok c && negb (bool_decide (c = "%"%char)))) = true →
  all_bytes (λ c, negb (shouldEscape mode c) || escaped_ok (code c)) s = true →
  unescape raw_ok escaped_ok (escape mode s) = Some s.
Proof.
  intros Hall. pose proof (ascii_all_spec _ Hall) as Hraw. clear Hall. induction s as [|c s IH]; [done|]. cbn [all_bytes escape].
  intros [Hc Hs]%andb_true_iff. specialize (IH Hs). destruct (nibbles c) as [Hh Hl].
  destruct (shouldEscape mode c) eqn:He.
  - cbn in Hc. destruct (hex_digit_upper _ Hh) as (a & Ha & Ha'), (hex_digit_upper _ Hl) as (b & Hb & Hb').
    rewrite Ha, Hb. change ((_ +:+ _) +:+ escape mode s) with (String "%" (String a (String b (escape mode s)))).
    cbn [unescape]. rewrite Ha', Hb'. cbn [mbind option_bind].
    assert (16 * Z.of_N (N_of_ascii c / 16) + Z.of_N (N_of_ascii c mod 16) = code c) as ->.
    { unfold code. pose proof (N.div_mod (N_of_ascii c) 16). lia. }
    rewrite Hc, IH. cbn [mbind option_bind]. unfold byte_of, code. rewrite N2Z.id, ascii_N_embedding. done.
  - change (String c "" +:+ escape mode s) with (String c (escape mode s)). specialize (Hraw c). cbv beta in Hraw.
    rewrite He in Hraw. cbn [orb] in Hraw. apply andb_true_iff in Hraw as [Hr Hp%negb_true_iff%bool_decide_eq_false].
    assert (unescape raw_ok escaped_ok (String c (escape mode s)) =
      if raw_ok c then r ← unescape raw_ok escaped_ok (escape mode s); Some (String c r) else None) as ->.
    { cbn [unescape]. destruct c as [[] [] [] [] [] [] [] []]; try done. }
    by rewrite Hr, IH.
Qed.

Lemma unescape_any_escape mode s :
  ascii_all (λ c, shouldEscape mode c || negb (bool_decide (c = "%"%char))) = true →
  unescape_any (escape mode s) = Some s.
Proof.
  intros H. apply unescape_escape; [done|]. clear H. induction s as [|c s IH]; [done|].
  cbn [all_bytes]. by rewrite orb_true_r, IH.
Qed.

Lemma unescape_path s : unescape_any (escape encodePath s) = Some s.
Proof. by apply unescape_any_escape. Qed.
Lemma unescape_fragment s : unescape_any (escape encodeFragment s) = Some s.
Proof. by apply unescape_any_escape. Qed.
Lemma unescape_user s : unescape_any (escape encodeUserPassword s) = Some s.
Proof. by apply unescape_any_escape. Qed.

(** ** Components *)

Definition component (mode : encoding) (raw decoded : string) : string :=
  if raw_usable mode raw decoded then raw else escape mode decoded.

Lemma component_unescape mode raw decoded :
  ascii_all (λ c, shouldEscape mode c || negb (bool_decide (c = "%"%char))) = true →
  unescape_any (component mode raw decoded) = Some decoded.
Proof.
  intros H. unfold component, raw_usable. destruct (_ && _) eqn:E; [|by apply unescape_any_escape].
  by apply andb_true_iff in E as [_ E%bool_decide_eq_true].
Qed.

Lemma component_bytes mode p raw decoded :
  admits mode p && ascii_all (λ c, negb (one_of "!$&'()*+,;=:@[]%" c || negb (shouldEscape mode c)) || p c) = true →
  all_bytes p (component mode raw decoded) = true.
Proof.
  intros [Ha Hv]%andb_true_iff. unfold component, raw_usable. destruct (_ && _) eqn:E; [|by apply escape_bytes].
  apply andb_true_iff in E as [[_ E]%andb_true_iff _]. unfold validEncoded in E. revert E. apply all_bytes_mono.
  intros c Hc. pose proof (ascii_all_spec _ Hv c) as H. cbv beta in H. rewrite Hc in H. done.
Qed.

Lemma EscapedPath_unescape u : unescape_any (EscapedPath u) = Some (url_Path u).
Proof.
  pose proof (component_unescape encodePath (url_RawPath u) (url_Path u) eq_refl) as H. revert H.
  unfold component, EscapedPath. destruct (raw_usable _ _ _); [done|].
  destruct (_ =s "*") eqn:E; [|done]. apply streq_true in E. by rewrite E.
Qed.

(** Bytes that end no part of a URL before the fragment. *)
Definition plain (c : ascii) : bool := (32 <=? code c) && negb (code c =? 127) && negb (bool_decide (c = "#"%char)).
Definition path_byte (c : ascii) : bool := plain c && negb (bool_decide (c = "?"%char)).
Definition authority_byte (c : ascii) : bool := path_byte c && negb (bool_decide (c = "/"%char)).

Lemma EscapedPath_bytes u : all_bytes path_byte (EscapedPath u) = true.
Proof.
  pose proof (component_bytes encodePath path_byte (url_RawPath u) (url_Path u) eq_refl) as H. revert H.
  unfold component, EscapedPath. destruct (raw_usable _ _ _); [done|]. by destruct (_ =s "*").
Qed.

Lemma Userinfo_String_bytes ui :
  all_bytes (λ c, authority_byte c && negb (bool_decide (c = "@"%char))) (Userinfo_String ui) = true.
Proof.
  unfold Userinfo_String. rewrite all_bytes_app, escape_bytes by done. destruct (user_Password ui); [|done].
  rewrite all_bytes_app. by rewrite escape_bytes.
Qed.

Lemma cut_at_none c s : has_byte c s = false → cut_at c s = (s, "").
Proof. intros H. unfold cut_at. by rewrite index_byte_none. Qed.
Lemma cut_at_app c a b : has_byte c a = false → cut_at c (a +:+ String c b) = (a, b).
Proof. intros H. unfold cut_at. by rewrite index_byte_app, stake_app, sdrop_app_S. Qed.

Lemma parseUserinfo_String ui : parseUserinfo (Userinfo_String ui) = Some ui.
Proof.
  unfold parseUserinfo. assert (validUserinfo (Userinfo_String ui) = true) as ->.
  { unfold validUserinfo, Userinfo_String. rewrite all_bytes_app, escape_bytes by done.
    destruct (user_Password ui); [|done]. rewrite all_bytes_app. by rewrite escape_bytes. }
  assert (∀ s, has_byte ":" (escape encodeUserPassword s) = false) as Hc.
  { intros s. eapply (all_bytes_no_byte (λ c, negb (bool_decide (c = ":"%char)))); [done|by apply escape_bytes]. }
  unfold Userinfo_String. cbn [negb]. destruct ui as [name [password|]]; cbn [user_Name user_Password].
  - rewrite has_byte_app. change (has_byte ":" (":" +:+ escape encodeUserPassword password)) with true.
    rewrite orb_true_r. change (":" +:+ ?s) with (String ":" s). rewrite cut_at_app by done.
    by rewrite !unescape_user.
  - by rewrite sapp_nil_r, Hc, unescape_user.
Qed.

(** ** Hosts *)

(** What [escape] writes of the host is read back. *)
Definition host_ok (h : string) : Prop := parseHost (escape encodeHost h) = Some h.

Lemma host_bytes h :
  all_bytes (λ c, authority_byte c && negb (bool_decide (c = "@"%char))) (escape encodeHost h) = true.
Proof. by apply escape_bytes. Qed.

Definition authority_text (user : option Userinfo) (host : string) : string :=
  match user with Some ui => Userinfo_String ui +:+ "@" | None => "" end +:+ escape encodeHost host.

Lemma authority_bytes user host : all_bytes authority_byte (authority_text user host) = true.
Proof.
  assert (∀ s, all_bytes (λ c, authority_byte c && negb (bool_decide (c = "@"%char))) s = true →
    all_bytes authority_byte s = true) as H by (intros s; apply all_bytes_mono; by intros c [? _]%andb_true_iff).
  unfold authority_text. rewrite all_bytes_app, (H _ (host_bytes host)), andb_true_r.
  destruct user as [ui|]; [|done]. by rewrite all_bytes_app, (H _ (Userinfo_String_bytes ui)).
Qed.

Lemma parseAuthority_text user host : host_ok host → parseAuthority (authority_text user host) = Some (user, host).
Proof.
  intros Hh. assert (has_byte "@" (escape encodeHost host) = false) as Ha
    by (eapply all_bytes_no_byte; [|apply host_bytes]; done).
  unfold parseAuthority, authority_text, LastIndexByte. destruct user as [ui|].
  - rewrite sapp_assoc. change ("@" +:+ ?s) with (String "@" s). rewrite last_index_app by done. cbn [plus].
    rewrite sdrop_app_S, stake_app, Hh. cbn. by rewrite parseUserinfo_String.
  - change ("" +:+ ?s) with s. rewrite last_index_none by done. by rewrite Hh.
Qed.

(** ** Schemes *)

Definition scheme_byte (c : ascii) : bool := is_letter c || is_dec c || one_of "+-." c.
Definition scheme_ok (s : string) : bool :=
  starts_with_letter s && all_bytes scheme_byte s && (ToLower s =s s).

Lemma scheme_byte_plain c : scheme_byte c = true → (32 <=? code c) && negb (code c =? 127) = true ∧ c ≠ "#"%char.
Proof.
  intros Hc. pose proof (ascii_all_spec (λ c, negb (scheme_byte c) || plain c) eq_refl c) as H. cbv beta in H.
  rewrite Hc in H. cbn in H. apply andb_true_iff in H as [? H%negb_true_iff%bool_decide_eq_false]. done.
Qed.

Lemma getScheme_go_colon raw r s : ∀ acc, all_bytes scheme_byte s = true →
  getScheme_go false acc (s +:+ String ":" r) raw = Some (acc +:+ s, r).
Proof.
  induction s as [|c s IH]; intros acc.
  - intros _. rewrite sapp_nil_r. change ("" +:+ String ":" r) with (String ":" r). reflexivity.
  - change (String c s +:+ String ":" r) with (String c (s +:+ String ":" r)). cbn [all_bytes getScheme_go].
    intros [Hc Hs]%andb_true_iff. specialize (IH (acc +:+ String c "") Hs). rewrite sapp_assoc in IH.
    change (String c "" +:+ s) with (String c s) in IH. unfold scheme_byte in Hc.
    destruct (is_letter c); [done|]. cbn [orb] in Hc. rewrite Hc. done.
Qed.

Lemma getScheme_colon s r : scheme_ok s = true → getScheme (s +:+ String ":" r) = Some (s, r).
Proof.
  unfold scheme_ok. rewrite !andb_true_iff. intros [[Hl Hs] _]. destruct s as [|c s]; [done|]. cbn in Hl.
  unfold getScheme. change (String c s +:+ String ":" r) with (String c (s +:+ String ":" r)).
  cbn [getScheme_go]. rewrite Hl. cbn in Hs. apply andb_true_iff in Hs as [_ Hs]. by rewrite getScheme_go_colon.
Qed.

Lemma getScheme_go_ok raw s : ∀ first acc sch rest,
  all_bytes scheme_byte acc = true → (if first : bool then acc = "" else starts_with_letter acc = true) →
  getScheme_go first acc s raw = Some (sch, rest) → sch ≠ "" →
  starts_with_letter sch = true ∧ all_bytes scheme_byte sch = true.
Proof.
  induction s as [|c s IH]; intros first acc sch rest Ha Hf; cbn [getScheme_go]; [by intros [= <- <-]|].
  assert (∀ b : bool, scheme_byte c = true → (first = true → is_letter c = true) →
    all_bytes scheme_byte (acc +:+ String c "") = true ∧ starts_with_letter (acc +:+ String c "") = true) as Hsnoc.
  { intros _ Hc Hl. rewrite all_bytes_app, Ha. cbn. rewrite Hc. split; [done|].
    destruct first; [subst acc; by apply Hl|by destruct acc]. }
  unfold scheme_byte in Hsnoc. destruct (is_letter c); [by destruct (Hsnoc true); [..|apply IH]|].
  destruct (_ || _) eqn:Hd.
  - destruct first; [by intros [= <- <-]|]. by destruct (Hsnoc true); [..|apply IH].
  - case_bool_decide; [|by intros [= <- <-]]. destruct first; [done|]. by intros [= <- <-].
Qed.

Lemma all_bytes_lower p s : (∀ c, p c = true → p (lower_ascii c) = true) → all_bytes p s = true → all_bytes p (ToLower s) = true.
Proof.
  intros H. induction s as [|c s IH]; [done|]. cbn [all_bytes]. intros [Hc Hs]%andb_true_iff.
  change (p (lower_ascii c) && all_bytes p (ToLower s) = true). by rewrite (H c Hc), IH.
Qed.

(** The schemes the parser finds. *)
Lemma parsed_scheme_ok s sch rest : getScheme s = Some (sch, rest) → sch ≠ "" → scheme_ok (ToLower sch) = true.
Proof.
  intros Hg Hne. apply (getScheme_go_ok s s true "" sch rest eq_refl eq_refl Hg) in Hne as [Hl Hb].
  assert (∀ c, implb (scheme_byte c) (scheme_byte (lower_ascii c)) && implb (is_letter c) (is_letter (lower_ascii c)) = true) as Hlow.
  { by apply ascii_all_spec. }
  unfold scheme_ok. rewrite ToLower_idem, streq_refl, andb_true_r. apply andb_true_iff. split.
  - destruct sch as [|c sch]; [done|]. cbn in Hl |- *. specialize (Hlow c). rewrite Hl in Hlow.
    by apply andb_true_iff in Hlow as [_ ?].
  - apply all_bytes_lower; [|done]. intros c Hc. specialize (Hlow c). rewrite Hc in Hlow.
    by apply andb_true_iff in Hlow as [? _].
Qed.

(** ** The round trip *)

(** A URL with a host whose parts can be written one after the other. *)
Record writable (u : URL) : Prop := {
  w_scheme : url_Scheme u = "" ∨ scheme_ok (url_Scheme u) = true;
  w_opaque : url_Opaque u = "";
  w_host : url_Host u ≠ "";
  w_host_ok : host_ok (url_Host u);
  w_path : EscapedPath u = "" ∨ HasPrefix (EscapedPath u) "/" = true;
  w_omit : url_OmitHost u = false;
  w_query : all_bytes plain (url_RawQuery u) = true;
  w_force : url_ForceQuery u = true → url_RawQuery u = "";
}.

Definition scheme_text (u : URL) : string := if url_Scheme u =s "" then "" else url_Scheme u +:+ ":".
Definition query_text (u : URL) : string :=
  if url_ForceQuery u || negb (url_RawQuery u =s "") then "?" +:+ url_RawQuery u else "".
Definition fragment_text (u : URL) : string := if url_Fragment u =s "" then "" else "#" +:+ EscapedFragment u.
Definition hierarchy_text (u : URL) : string := "//" +:+ authority_text (url_User u) (url_Host u) +:+ EscapedPath u.

Lemma URL_String_writable u : writable u →
  URL_String u = (scheme_text u +:+ hierarchy_text u +:+ query_text u) +:+ fragment_text u.
Proof.
  intros [_ Ho Hh _ Hp Hom _ _]. unfold URL_String, hierarchy_text, authority_text. rewrite Ho, Hom.
  rewrite (proj2 (streq_false _ _) Hh). cbn [streq bool_decide negb andb].
  change ("" =s "") with true. cbn [negb]. rewrite andb_false_r. cbn [andb].
  assert (negb (EscapedPath u =s "") && negb (HasPrefix (EscapedPath u) "/") && true = false) as ->.
  { destruct Hp as [-> | ->]; [done|]. by rewrite andb_false_r. }
  fold (scheme_text u) (query_text u) (fragment_text u).
  assert (∀ a b c : string, (a +:+ ("//" +:+ b) +:+ c =s "") = false) as ->.
  { intros a b c. apply streq_false. by destruct a. }
  cbn [andb]. change ("" +:+ ?s) with s. by rewrite !sapp_assoc.
Qed.

Lemma hierarchy_bytes u : all_bytes path_byte (hierarchy_text u) = true.
Proof.
  unfold hierarchy_text. rewrite !all_bytes_app, EscapedPath_bytes, andb_true_r. cbn.
  eapply all_bytes_mono; [|apply authority_bytes]. by intros c [? _]%andb_true_iff.
Qed.

Lemma scheme_bytes u : writable u → all_bytes plain (scheme_text u) = true.
Proof.
  intros [Hs _ _ _ _ _ _ _]. unfold scheme_text. destruct Hs as [-> |Hs]; [done|]. destruct (_ =s ""); [done|].
  unfold scheme_ok in Hs. rewrite !andb_true_iff in Hs. destruct Hs as [[_ Hs] _]. rewrite all_bytes_app, andb_true_iff.
  split; [|done]. revert Hs. apply all_bytes_mono. intros c [? Hc]%scheme_byte_plain. unfold plain.
  by rewrite (bool_decide_eq_false_2 _ Hc), andb_true_r.
Qed.

Lemma query_bytes u : writable u → all_bytes plain (query_text u) = true.
Proof. intros H. unfold query_text. destruct (_ || _); [|done]. exact (w_query u H). Qed.

Lemma main_bytes u : writable u → all_bytes plain (scheme_text u +:+ hierarchy_text u +:+ query_text u) = true.
Proof.
  intros H. rewrite !all_bytes_app, scheme_bytes, query_bytes, andb_true_r by done. cbn.
  eapply all_bytes_mono; [|apply hierarchy_bytes]. by intros c [? _]%andb_true_iff.
Qed.

Lemma getScheme_main u r : writable u → ∃ sch,
  getScheme (scheme_text u +:+ "//" +:+ r) = Some (sch, "//" +:+ r) ∧ ToLower sch = url_Scheme u.
Proof.
  intros [Hs _ _ _ _ _ _ _]. unfold scheme_text. destruct Hs as [Hs|Hs].
  - rewrite Hs. by exists "".
  - destruct (url_Scheme u =s "") eqn:E; [apply streq_true in E; by rewrite E in *|].
    exists (url_Scheme u). rewrite sapp_assoc. change (":" +:+ "//" +:+ r) with (String ":" ("//" +:+ r)).
    rewrite getScheme_colon by done. split; [done|]. unfold scheme_ok in Hs. rewrite !andb_true_iff in Hs.
    by destruct Hs as [_ ?%streq_true].
Qed.

Lemma cut_query u : writable u →
  let rest := hierarchy_text u +:+ query_text u in
  cut_at "?" rest = (hierarchy_text u, url_RawQuery u) ∧
  has_byte "?" rest && (url_RawQuery u =s "") = url_ForceQuery u.
Proof.
  intros H rest. subst rest. assert (has_byte "?" (hierarchy_text u) = false) as Hq
    by (eapply all_bytes_no_byte; [|apply hierarchy_bytes]; done).
  pose proof (w_force u H) as Hf. unfold query_text. destruct (_ || _) eqn:E.
  - change ("?" +:+ url_RawQuery u) with (String "?" (url_RawQuery u)). rewrite cut_at_app by done. split; [done|].
    rewrite has_byte_app. cbn [has_byte]. rewrite bool_decide_true, orb_true_r by done. cbn [andb].
    destruct (url_ForceQuery u); [by rewrite Hf|]. cbn in E. by apply negb_true_iff in E.
  - apply orb_false_iff in E as [-> E%negb_false_iff%streq_true]. rewrite E, sapp_nil_r, Hq. by rewrite cut_at_none.
Qed.

(** The authority ends where the path begins. *)
Lemma split_authority u : writable u →
  let rest := authority_text (url_User u) (url_Host u) +:+ EscapedPath u in
  (cut_at "/" rest).1 = authority_text (url_User u) (url_Host u).
Proof.
  intros H rest. subst rest. assert (has_byte "/" (authority_text (url_User u) (url_Host u)) = false) as Hs
    by (eapply all_bytes_no_byte; [|apply authority_bytes]; done).
  destruct (w_path u H) as [-> |[t ->]%HasPrefix_spec]; [by rewrite sapp_nil_r, cut_at_none|].
  change ("/" +:+ t) with (String "/" t). by rewrite cut_at_app.
Qed.

Lemma authority_not_empty u : writable u → ∃ c r, authority_text (url_User u) (url_Host u) = String c r ∧ c ≠ "/"%char.
Proof.
  intros H. pose proof (authority_bytes (url_User u) (url_Host u)) as Hb.
  destruct (authority_text _ _) as [|c r] eqn:E.
  - exfalso. unfold authority_text in E. pose proof (w_host u H) as Hh.
    destruct (url_User u) as [ui|]; [by destruct (Userinfo_String ui)|]. change ("" +:+ ?s) with s in E.
    destruct (url_Host u) as [|c h]; [done|]. cbn [escape] in E. by destruct (shouldEscape encodeHost c).
  - exists c, r. split; [done|]. cbn in Hb. apply andb_true_iff in Hb as [Hb _]. unfold authority_byte in Hb.
    apply andb_true_iff in Hb as [_ Hb%negb_true_iff%bool_decide_eq_false]. done.
Qed.

Definition written_path (u : URL) : string := raw_of encodePath (EscapedPath u) (url_Path u).

Lemma has_control_plain s : all_bytes plain s = true → has_control s = false.
Proof.
  intros H. unfold has_control. apply negb_false_iff. revert H. apply all_bytes_mono.
  by intros c [? _]%andb_true_iff.
Qed.

Lemma parse_main u : writable u →
  parse (scheme_text u +:+ hierarchy_text u +:+ query_text u) false =
    Some {| u with url_RawPath := written_path u; url_Fragment := ""; url_RawFragment := "" |}.
Proof.
  intros H. unfold parse. rewrite has_control_plain by by apply main_bytes.
  assert (∃ t, hierarchy_text u +:+ query_text u = "//" +:+ t) as [t Ht]
    by (unfold hierarchy_text; rewrite sapp_assoc; by eexists).
  assert (scheme_text u +:+ hierarchy_text u +:+ query_text u =s "*" = false) as ->.
  { rewrite Ht. unfold scheme_text. apply streq_false. destruct (_ =s ""); [done|]. by destruct (url_Scheme u) as [|? []]. }
  rewrite andb_false_r. destruct (getScheme_main u t H) as (sch & Hg & Hsch). rewrite Ht, Hg, <- Ht. cbn [mbind option_bind].
  destruct (cut_query u H) as [Hcut Hforce]. rewrite Hcut, Hsch.
  destruct (cut_at "/" (hierarchy_text u)) as [first ?]. cbv zeta. rewrite Hforce.
  assert (HasPrefix (hierarchy_text u) "//" = true) as -> by apply HasPrefix_app.
  assert (HasPrefix (hierarchy_text u) "/" = true) as -> by apply (HasPrefix_app "/" (String "/" _)).
  assert (HasPrefix (hierarchy_text u) "///" = false) as ->.
  { unfold hierarchy_text. destruct (authority_not_empty u H) as (c & r & -> & Hc).
    apply not_true_iff_false. intros [x Hx]%HasPrefix_spec. by injection Hx. }
  cbn [negb andb]. rewrite orb_true_r. cbn [andb].
  change (sdrop 2 (hierarchy_text u)) with (authority_text (url_User u) (url_Host u) +:+ EscapedPath u).
  rewrite split_authority, sdrop_app by done. rewrite parseAuthority_text by apply (w_host_ok u H). cbn [mbind option_bind]. unfold setPath.
  rewrite EscapedPath_unescape. cbn. unfold written_path. f_equal.
  destruct u, H. cbn in *. by subst.
Qed.

Definition normal (u : URL) : URL := {| u with url_RawPath := ""; url_RawFragment := "" |}.

(** The text of a URL with a host is read back as that URL: only the raw forms of
    the path and the fragment may change. *)
Lemma Parse_String u : writable u → normal <$> Parse (URL_String u) = Some (normal u).
Proof.
  intros H. rewrite URL_String_writable by done.
  set (main := scheme_text u +:+ hierarchy_text u +:+ query_text u).
  assert (has_byte "#" main = false) as Hm by (eapply all_bytes_no_byte; [|by apply main_bytes]; done).
  unfold Parse, fragment_text. pose proof (parse_main u H) as Hp. fold main in Hp.
  destruct (url_Fragment u =s "") eqn:Hf.
  - apply streq_true in Hf. rewrite sapp_nil_r, cut_at_none, Hp by done. cbn. f_equal. unfold normal. cbn. by rewrite Hf.
  - change ("#" +:+ EscapedFragment u) with (String "#" (EscapedFragment u)). rewrite cut_at_app, Hp by done.
    cbn [mbind option_bind]. pose proof (component_unescape encodeFragment (url_RawFragment u) (url_Fragment u) eq_refl) as Hu.
    change (component encodeFragment (url_RawFragment u) (url_Fragment u)) with (EscapedFragment u) in Hu.
    destruct (EscapedFragment u =s "") eqn:E.
    { apply streq_true in E. rewrite E in Hu. injection Hu as Hu. by rewrite <- Hu in Hf. }
    unfold setFragment. rewrite Hu. done.
Qed.

(** ** Parsed URLs are writable *)

Lemma cut_at_no_byte c s : has_byte c (cut_at c s).1 = false.
Proof.
  destruct (cut_byte c s) as [H|(a & b & -> & Ha)]; [by rewrite cut_at_none|by rewrite cut_at_app].
Qed.

Lemma cut_at_bytes p c s : all_bytes p s = true → all_bytes p (cut_at c s).1 = true ∧ all_bytes p (cut_at c s).2 = true.
Proof.
  destruct (cut_byte c s) as [H|(a & b & -> & Ha)]; [by rewrite cut_at_none|rewrite cut_at_app by done].
  rewrite all_bytes_app. cbn. rewrite !andb_true_iff. naive_solver.
Qed.

Lemma getScheme_go_suffix p raw s : ∀ first acc sch rest, getScheme_go first acc s raw = Some (sch, rest) →
  all_bytes p s = true → all_bytes p raw = true → all_bytes p rest = true.
Proof.
  induction s as [|c s IH]; intros first acc sch rest; cbn [getScheme_go all_bytes]; [by intros [= _ <-]|].
  intros Hg [Hc Hs]%andb_true_iff Hraw. destruct (is_letter c); [by eapply IH|]. destruct (_ || _).
  { destruct first; [by simplify_eq|by eapply IH]. }
  case_bool_decide; [|by simplify_eq]. destruct first; [done|by simplify_eq].
Qed.

Lemma unescape_any_slash r : unescape_any (String "/" r) = (λ x, String "/" x) <$> unescape_any r.
Proof. unfold unescape_any. cbn [unescape]. by destruct (unescape _ _ r). Qed.

Lemma setPath_rooted p u u' : p = "" ∨ HasPrefix p "/" = true → setPath p u = Some u' →
  EscapedPath u' = "" ∨ HasPrefix (EscapedPath u') "/" = true.
Proof.
  intros Hp. unfold setPath. destruct (unescape_any p) as [path|] eqn:Hu; [|done]. intros [= <-].
  unfold EscapedPath. cbn [url_RawPath url_Path]. destruct Hp as [-> |[t ->]%HasPrefix_spec].
  { injection Hu as <-. by left. }
  change ("/" +:+ t) with (String "/" t) in *. rewrite unescape_any_slash in Hu.
  destruct (unescape_any t) as [x|]; [|done]. injection Hu as <-. right. unfold raw_of.
  change (escape encodePath (String "/" x)) with ("/" +:+ escape encodePath x).
  destruct (String "/" t =s _); [by apply HasPrefix_app|]. destruct (raw_usable _ _ _).
  - by apply (HasPrefix_app "/" t).
  - change (String "/" x =s "*") with false. apply HasPrefix_app.
Qed.

Lemma setPath_keeps p u u' : setPath p u = Some u' →
  (url_Scheme u', url_Opaque u', url_User u', url_Host u', url_OmitHost u', url_ForceQuery u', url_RawQuery u') =
  (url_Scheme u, url_Opaque u, url_User u, url_Host u, url_OmitHost u, url_ForceQuery u, url_RawQuery u).
Proof. unfold setPath. destruct (unescape_any p); [|done]. by intros [= <-]. Qed.

(** The parts of a parsed URL with a host, but for the host itself. *)
Lemma parse_parts s v u : all_bytes plain s = true → parse s v = Some u → url_Host u ≠ "" →
  (url_Scheme u = "" ∨ scheme_ok (url_Scheme u) = true) ∧ url_Opaque u = "" ∧ url_OmitHost u = false ∧
  (EscapedPath u = "" ∨ HasPrefix (EscapedPath u) "/" = true) ∧ all_bytes plain (url_RawQuery u) = true ∧
  (url_ForceQuery u = true → url_RawQuery u = "") ∧
  ∃ text user, parseAuthority text = Some (user, url_Host u).
Proof.
  intros Hs Hp Hh. assert (url_Scheme u = "" ∨ scheme_ok (url_Scheme u) = true) as Hsch.
  { pose proof (parse_scheme _ _ _ Hp) as ->. destruct (getScheme s) as [[sch rest]|] eqn:Hg; [|by left].
    destruct (decide (sch = "")) as [-> |]; [by left|right]. by eapply parsed_scheme_ok. }
  split; [done|]. clear Hsch. revert Hp. unfold parse. destruct (has_control s); [done|]. destruct (_ && v); [done|].
  destruct (s =s "*"); [intros [= <-]; by destruct Hh|]. destruct (getScheme s) as [[sch rest]|] eqn:Hg; [|done].
  cbn [mbind option_bind]. assert (all_bytes plain rest = true) as Hr by (by eapply getScheme_go_suffix).
  pose proof (cut_at_bytes plain "?" rest Hr) as [_ Hq]. destruct (cut_at "?" rest) as [rest' query].
  destruct (cut_at "/" rest') as [first ?]. cbv zeta.
  destruct (_ && _); [intros [= <-]; by destruct Hh|]. destruct (_ && v); [done|]. destruct (_ && has_byte _ _); [done|].
  assert (has_byte "?" rest && (query =s "") = true → query = "") as Hf by (by intros [_ ?%streq_true]%andb_true_iff).
  revert Hf. generalize (has_byte "?" rest && (query =s "")). intros forced Hf.
  destruct (_ && _).
  - set (t := sdrop 2 rest'). destruct (parseAuthority (cut_at "/" t).1) as [[user host]|] eqn:Ha; [|done]. cbn [mbind option_bind fst snd].
    intros Hp. pose proof (setPath_keeps _ _ _ Hp) as Hk. cbn in Hk. injection Hk as _ -> _ Hhost -> -> ->.
    split_and!; try done; [|by rewrite Hhost; eauto]. eapply setPath_rooted; [|exact Hp].
    destruct (cut_byte "/" t) as [Ht|(a & b & -> & Hab)].
    + left. rewrite cut_at_none by done. cbn [fst]. by rewrite <- (sapp_nil_r t) at 2; rewrite sdrop_app.
    + right. rewrite cut_at_app by done. cbn [fst]. rewrite sdrop_app. apply (HasPrefix_app "/" b).
  - intros Hp. pose proof (setPath_keeps _ _ _ Hp) as Hk. cbn in Hk. injection Hk as _ _ _ E. by rewrite E in Hh.
Qed.

(** ** Which hosts are read back *)

Definition plain_host_byte (c : ascii) : bool :=
  (host_byte c || bool_decide (c = "%"%char)) && negb (bool_decide (c = "["%char)).

(** What follows the last colon, if there is one, is a port. *)
Definition port_ok (h : string) : bool :=
  match LastIndexByte h ":" with Some i => all_bytes is_dec (sdrop (S i) h) | None => true end.

Lemma escape_app mode a b : escape mode (a +:+ b) = escape mode a +:+ escape mode b.
Proof.
  induction a as [|c a IH]; [done|]. change (String c a +:+ b) with (String c (a +:+ b)). cbn [escape].
  by rewrite IH, sapp_assoc.
Qed.

Lemma escape_id mode s : all_bytes (λ c, negb (shouldEscape mode c)) s = true → escape mode s = s.
Proof.
  induction s as [|c s IH]; [done|]. cbn [all_bytes escape]. intros [Hc%negb_true_iff Hs]%andb_true_iff.
  by rewrite Hc, IH.
Qed.

Lemma last_byte_cut c s : has_byte c s = false ∨ ∃ a b, s = a +:+ String c b ∧ has_byte c b = false.
Proof.
  destruct (cut_byte c (String.rev s)) as [H|(a & b & Hab & Ha)]; [left; by rewrite has_byte_rev in H|right].
  exists (String.rev b), (String.rev a). rewrite has_byte_rev. split; [|done].
  rewrite <- (srev_involutive s), Hab. change (String c b) with (String c "" +:+ b).
  rewrite !srev_app. by rewrite sapp_assoc.
Qed.

Lemma unescape_host_escape h : all_bytes plain_host_byte h = true → unescape_host (escape encodeHost h) = Some h.
Proof.
  intros H. apply unescape_escape; [done|]. revert H. apply all_bytes_mono. intros c Hc.
  pose proof (ascii_all_spec (λ c, negb (plain_host_byte c) || (negb (shouldEscape encodeHost c) || (128 <=? code c) || (code c =? 37)))
    eq_refl c) as H. cbv beta in H. rewrite Hc in H. cbn [negb orb] in H. by rewrite <- orb_assoc in H.
Qed.

Lemma escape_no_byte mode c s :
  has_byte c "%0123456789ABCDEF" = false → has_byte c s = false → has_byte c (escape mode s) = false.
Proof.
  rewrite !has_byte_all, !negb_false_iff. intros Hx. induction s as [|d s IH]; [done|].
  cbn [all_bytes escape]. intros [Hd Hs]%andb_true_iff. rewrite all_bytes_app, IH, andb_true_r by done.
  destruct (shouldEscape mode d); [|cbn; by rewrite Hd]. destruct (nibbles d) as [H1 H2].
  rewrite !all_bytes_app, !upper_hex_admitted by done. cbn in Hx |- *. by apply andb_true_iff in Hx as [-> _].
Qed.

Lemma plain_host_ok h : all_bytes plain_host_byte h = true → port_ok h = true → host_ok h.
Proof.
  intros Hh Hp. unfold host_ok, parseHost. unfold LastIndexByte at 1. rewrite last_index_none
    by (apply escape_no_byte; [done|]; eapply all_bytes_no_byte; [|exact Hh]; done).
  rewrite unescape_host_escape by done. destruct (last_byte_cut ":" h) as [Hc|(a & b & -> & Hb)].
  - unfold LastIndexByte. by rewrite last_index_none by by apply escape_no_byte.
  - unfold port_ok, LastIndexByte in Hp. rewrite last_index_app in Hp by done. cbn [plus] in Hp. rewrite sdrop_app_S in Hp.
    rewrite escape_app. change (escape encodeHost (String ":" b)) with (String ":" (escape encodeHost b)).
    rewrite (escape_id _ b) by (revert Hp; apply all_bytes_mono; intros c Hc; unfold shouldEscape; by rewrite Hc, orb_true_r).
    unfold LastIndexByte. rewrite last_index_app by done. cbn [plus]. rewrite sdrop_app. cbn [validOptionalPort]. by rewrite Hp.
Qed.

(** ** IPv6 literals *)

Definition ip6_byte (c : ascii) : bool := bool_decide (is_Some (Net.hex_digit c)) || one_of ":." c.

Lemma split_bytes p sep s : p sep = true → Forall (λ x, all_bytes p x = true) (Split s sep) → all_bytes p s = true.
Proof.
  intros Hsep. enough (∀ cur, Forall (λ x, all_bytes p x = true) (split_go sep cur s) → all_bytes p cur && all_bytes p s = true) as H.
  { intros Hs. by apply (H ""). }
  induction s as [|c s IH]; intros cur; cbn [split_go all_bytes].
  - intros Hf%Forall_inv. rewrite all_bytes_rev in Hf. by rewrite Hf.
  - case_bool_decide as Hc.
    + intros [Hcur Hs]%Forall_cons. rewrite all_bytes_rev in Hcur. subst c. rewrite Hcur, Hsep. by apply (IH "").
    + intros Hs%IH. cbn in Hs. rewrite andb_assoc. by rewrite (andb_comm (all_bytes p cur)).
Qed.

Lemma parse_digits_bytes p s : (∀ c, is_Some (digit c) → p c = true) → ∀ acc, is_Some (parse_digits acc s) → all_bytes p s = true.
Proof.
  intros Hp. induction s as [|c s IH]; intros acc; [done|]. cbn. destruct (digit c) eqn:Hd; [|by intros []].
  intros Hs. rewrite Hp by done. by eapply IH.
Qed.

Lemma digit_ip6 c : is_Some (digit c) → ip6_byte c = true.
Proof.
  intros Hd. pose proof (ascii_all_spec (λ c, negb (bool_decide (is_Some (digit c))) || ip6_byte c) eq_refl c) as H.
  cbv beta in H. by rewrite bool_decide_true in H.
Qed.

Lemma ParseIPv4_bytes s l : ParseIPv4 s = Some l → all_bytes ip6_byte s = true.
Proof.
  unfold ParseIPv4. intros H. apply (split_bytes _ "."%char); [done|].
  destruct (Split s ".") as [|a [|b [|c [|d []]]]]; try done.
  assert (∀ x, is_Some (ipv4_field x) → all_bytes ip6_byte x = true) as Hf.
  { intros x Hx. apply (parse_digits_bytes _ _ digit_ip6 0). unfold ipv4_field in Hx.
    destruct x as [|y x]; [done|]. destruct (parse_digits 0 (String y x)); [done|].
    destruct y as [[] [] [] [] [] [] [] []], x; by destruct Hx. }
  destruct (ipv4_field a) eqn:Ha; [|done]. destruct (ipv4_field b) eqn:Hb; [|done].
  destruct (ipv4_field c) eqn:Hc; [|done]. destruct (ipv4_field d) eqn:Hd; [|done].
  repeat constructor; apply Hf; eauto.
Qed.

Lemma hex_field_bytes acc n s v k rest :
  hex_field acc n s = Some (v, k, rest) → ∃ d, s = d +:+ rest ∧ all_bytes ip6_byte d = true.
Proof.
  revert acc n. induction s as [|c s IH]; intros acc n; cbn [hex_field]; [intros [= _ _ <-]; by exists ""|].
  destruct (Net.hex_digit c) eqn:Hc; [|intros [= _ _ <-]; by exists ""].
  destruct (_ <? _)%nat; [done|]. intros (d & -> & Hd)%IH. exists (String c d). split; [done|].
  cbn. rewrite Hd. unfold ip6_byte. by rewrite Hc.
Qed.

Lemma ipv6_loop_bytes fuel bytes ellipsis s bytes' ellipsis' :
  ipv6_loop fuel bytes ellipsis s = Some (bytes', ellipsis', "") → all_bytes ip6_byte s = true.
Proof.
  revert bytes ellipsis s. induction fuel as [|fuel IH]; intros bytes ellipsis s; cbn [ipv6_loop]; [by intros [= _ _ ->]|].
  destruct (_ <=? _)%nat; [by intros [= _ _ ->]|]. destruct (hex_field 0 0 s) as [[[v k] rest]|] eqn:Hf; [|done].
  cbn [mbind option_bind]. apply hex_field_bytes in Hf as (d & -> & Hd). rewrite all_bytes_app, Hd. cbn [andb].
  destruct (k =? 0)%nat; [done|]. destruct (bool_decide _).
  - destruct (match ellipsis with None => _ | Some _ => _ end); [done|]. destruct (_ <? _)%nat; [done|].
    destruct (ParseIPv4 (d +:+ rest)) eqn:H4; [|done]. apply ParseIPv4_bytes in H4. rewrite all_bytes_app, Hd in H4. done.
  - destruct rest as [|c r]; [done|]. destruct (decide (c = ":"%char)) as [->|Hne].
    + cbn [all_bytes]. change (ip6_byte ":") with true. cbn [andb]. destruct r as [|c' r']; [done|].
      destruct (decide (c' = ":"%char)) as [->|Hne'].
      * destruct ellipsis; [done|]. destruct (r' =s "") eqn:Hr; [apply streq_true in Hr; by subst|]. intros H%IH. exact H.
      * intros H. apply (IH (bytes ++ [v / 256; v mod 256]) ellipsis). revert H. clear -Hne'.
        destruct c' as [[] [] [] [] [] [] [] []]; done.
    + intros H. exfalso. revert H. clear -Hne. destruct c as [[] [] [] [] [] [] [] []]; done.
Qed.

Lemma ParseIPv6_bytes s l : ParseIPv6 s = Some l → all_bytes ip6_byte s = true.
Proof.
  unfold ParseIPv6. destruct (HasPrefix s "::") eqn:Hp.
  - apply HasPrefix_spec in Hp as [t ->]. rewrite all_bytes_app. change (sdrop 2 ("::" +:+ t)) with t.
    change (all_bytes ip6_byte "::") with true. cbn [andb]. destruct t as [|c t]; [done|].
    destruct (ipv6_loop _ _ _ _) as [[[bytes e] rest]|] eqn:Hl; [|done]. cbn [mbind option_bind].
    destruct (rest =s "") eqn:Hr; [|done]. apply streq_true in Hr. subst. intros _. by eapply ipv6_loop_bytes.
  - destruct (ipv6_loop _ _ _ _) as [[[bytes e] rest]|] eqn:Hl; [|done]. cbn [mbind option_bind].
    destruct (rest =s "") eqn:Hr; [|done]. apply streq_true in Hr. subst. intros _. by eapply ipv6_loop_bytes.
Qed.

Lemma ipv6_loop_colon fuel s r : has_byte ":" s = false → ipv6_loop (S fuel) [] None s = Some r →
  r.1.2 = None ∧ (length r.1.1 < 16)%nat.
Proof.
  intros Hc. cbn [ipv6_loop length]. change (16 <=? 0)%nat with false. cbv iota.
  destruct (hex_field 0 0 s) as [[[v k] rest]|] eqn:Hf; [|done].
  cbn [mbind option_bind]. apply hex_field_bytes in Hf as (d & -> & _). rewrite has_byte_app in Hc.
  apply orb_false_iff in Hc as [_ Hc]. destruct (k =? 0)%nat; [done|]. destruct (bool_decide _); [done|].
  destruct rest as [|c r']; [intros [= <-]; split; [done|cbn; lia]|]. cbn in Hc. apply orb_false_iff in Hc as [Hc%bool_decide_eq_false _].
  destruct c as [[] [] [] [] [] [] [] []]; done.
Qed.

Lemma ParseIPv6_colon s l : ParseIPv6 s = Some l → has_byte ":" s = true.
Proof.
  intros H. apply not_false_iff_true. intros Hc. revert H. unfold ParseIPv6. destruct (HasPrefix s "::") eqn:Hp.
  { apply HasPrefix_spec in Hp as [t ->]. done. }
  destruct (ipv6_loop 9 [] None s) as [[[bytes e] rest]|] eqn:Hl; [|done].
  apply ipv6_loop_colon in Hl as [He Hlen]; [|done]. cbn in He, Hlen. subst e. cbn [mbind option_bind].
  destruct (negb _); [done|]. by rewrite (proj2 (Nat.ltb_lt _ _) Hlen).
Qed.

Lemma ip6_no_byte c s : ip6_byte c = false → all_bytes ip6_byte s = true → has_byte c s = false.
Proof. apply all_bytes_no_byte. Qed.

Lemma ip6_host_bytes s : all_bytes ip6_byte s = true → unescape_host s = Some s ∧ escape encodeHost s = s.
Proof.
  intros H. assert (escape encodeHost s = s) as He.
  { apply escape_id. revert H. apply all_bytes_mono. intros c Hc.
    pose proof (ascii_all_spec (λ c, negb (ip6_byte c) || negb (shouldEscape encodeHost c)) eq_refl c) as Hs.
    cbv beta in Hs. by rewrite Hc in Hs. }
  split; [|done]. rewrite <- He at 1. apply unescape_host_escape. revert H. apply all_bytes_mono. intros c Hc.
  pose proof (ascii_all_spec (λ c, negb (ip6_byte c) || plain_host_byte c) eq_refl c) as Hs.
  cbv beta in Hs. by rewrite Hc in Hs.
Qed.

Lemma index_of_none c sub s : ∀ i, has_byte c s = false → index_of i (String c sub) s = None.
Proof.
  induction s as [|d s IH]; intros i; [done|]. cbn [has_byte index_of]. intros [Hd Hs]%orb_false_iff.
  destruct (HasPrefix _ _) eqn:Hp; [|by apply IH]. apply HasPrefix_spec in Hp as [t Ht]. injection Ht as -> _.
  by rewrite bool_decide_true in Hd.
Qed.

Lemma literal_ok lit l port : ParseIPv6 lit = Some l → validOptionalPort port = true → host_ok ("[" +:+ lit +:+ "]" +:+ port).
Proof.
  intros Hl Hp. pose proof (ParseIPv6_bytes _ _ Hl) as Hb. destruct (ip6_host_bytes _ Hb) as [Hu He].
  assert (all_bytes ip6_byte port = true) as Hpb.
  { destruct port as [|c p]; [done|]. destruct c as [[] [] [] [] [] [] [] []]; try done. cbn [validOptionalPort] in Hp.
    cbn [all_bytes]. change (ip6_byte ":") with true. cbn [andb]. revert Hp. apply all_bytes_mono. intros c Hc.
    pose proof (ascii_all_spec (λ c, negb (is_dec c) || ip6_byte c) eq_refl c) as H. cbv beta in H. by rewrite Hc in H. }
  destruct (ip6_host_bytes _ Hpb) as [Hpu Hpe].
  assert (escape encodeHost ("[" +:+ lit +:+ "]" +:+ port) = "[" +:+ lit +:+ "]" +:+ port) as Hesc.
  { rewrite (escape_app _ "["), (escape_app _ lit), (escape_app _ "]"), He, Hpe. done. }
  unfold host_ok. rewrite Hesc. unfold parseHost, LastIndexByte.
  change ("[" +:+ ?s) with ("" +:+ String "[" s) at 1.
  rewrite last_index_app by (rewrite (has_byte_app _ lit), (has_byte_app _ "]"), (ip6_no_byte "[" lit), (ip6_no_byte "[" port) by done; done). cbn [plus].
  assert ("[" +:+ lit +:+ "]" +:+ port = ("[" +:+ lit) +:+ String "]" port) as Hsplit by by rewrite sapp_assoc.
  rewrite Hsplit, last_index_app by by apply ip6_no_byte. cbn [plus mbind option_bind]. rewrite sdrop_app_S.
  rewrite Hp. cbn [negb].
  change (String.length ("[" +:+ lit)) with (S (String.length lit)). cbn [String.length].
  change ((S (String.length lit) <=? 0)%nat) with false. cbn [negb]. rewrite Hpu. cbn [mbind option_bind].
  replace (S (String.length lit) - 1)%nat with (String.length lit) by lia.
  change (sdrop 1 (("[" +:+ lit) +:+ String "]" port)) with (lit +:+ String "]" port). rewrite stake_app.
  unfold parse_literal. rewrite index_of_none by by apply ip6_no_byte. rewrite Hu. cbn [mbind option_bind].
  rewrite Hl. cbn. done.
Qed.

Lemma literal_host_ok lit l p : ParseIPv6 lit = Some l → all_bytes is_dec p = true → host_ok ("[" +:+ lit +:+ "]:" +:+ p).
Proof. intros Hl Hp. by apply (literal_ok lit l (String ":" p)). Qed.

(** A parsed URL with a host is writable, also with another host that is read
    back. *)
Lemma Parse_parts raw u : Parse raw = Some u → url_Host u ≠ "" →
  (∀ h, h ≠ "" → host_ok h → writable {| u with url_Host := h |}) ∧
  ∃ text user, parseAuthority text = Some (user, url_Host u).
Proof.
  unfold Parse. intros Hp Hh. pose proof (cut_at_no_byte "#" raw) as Hf.
  assert (has_control (cut_at "#" raw).1 = false) as Hc.
  { revert Hp. unfold parse. destruct (cut_at "#" raw) as [s frag]. cbn [fst]. by destruct (has_control s). }
  assert (all_bytes plain (cut_at "#" raw).1 = true) as Hb.
  { unfold has_control in Hc. apply negb_false_iff in Hc.
    rewrite has_byte_all in Hf. apply negb_false_iff in Hf. revert Hc Hf. generalize (cut_at "#" raw).1. clear.
    induction s as [|c s IH]; [done|]. cbn [all_bytes]. intros [Hc Hs]%andb_true_iff [Hd Hd']%andb_true_iff.
    rewrite IH by done. unfold plain. rewrite Hc. rewrite (bool_decide_ext _ (("#"%char) = c)) by done. by rewrite Hd. }
  destruct (cut_at "#" raw) as [s frag]. cbn [fst] in *. destruct (parse s false) as [v|] eqn:Hv; [|done]. cbn in Hp.
  assert ((url_Scheme u, url_Opaque u, url_Host u, url_Path u, url_RawPath u, url_OmitHost u, url_RawQuery u, url_ForceQuery u) =
    (url_Scheme v, url_Opaque v, url_Host v, url_Path v, url_RawPath v, url_OmitHost v, url_RawQuery v, url_ForceQuery v)) as Hk.
  { destruct (frag =s ""); [by simplify_eq|]. unfold setFragment in Hp. destruct (unescape_any frag); [|done]. injection Hp as <-. done. }
  injection Hk as K1 K2 K3 K4 K5 K6 K7 K8.
  assert (EscapedPath u = EscapedPath v) as K9 by (unfold EscapedPath; by rewrite K4, K5).
  destruct (parse_parts s false v Hb Hv) as (P1 & P2 & P3 & P4 & P5 & P6 & P7); [by rewrite <- K3|].
  split; [|by rewrite K3]. intros h Hne Hok. split; cbn [url_Scheme url_Opaque url_Host url_OmitHost url_ForceQuery url_RawQuery];
    try (change (EscapedPath {| u with url_Host := h |}) with (EscapedPath u));
    rewrite ?K1, ?K2, ?K6, ?K7, ?K8, ?K9; done.
Qed.

(** ** The hosts the parser finds *)

Lemma unescape_cons raw_ok escaped_ok c r :
  unescape raw_ok escaped_ok (String c r) =
    if bool_decide (c = "%"%char) then
      match r with
      | String a (String b r) =>
          x ← Net.hex_digit a; y ← Net.hex_digit b;
          if escaped_ok (16 * x + y) : bool then
            r ← unescape raw_ok escaped_ok r; Some (byte_of (Z.to_N (16 * x + y)) +:+ r)
          else None
      | _ => None
      end
    else if raw_ok c then r ← unescape raw_ok escaped_ok r; Some (String c r) else None.
Proof.
  case_bool_decide as H; [subst c; by destruct r as [|a [|b r]]|].
  cbn [unescape]. destruct c as [[] [] [] [] [] [] [] []]; try done; by destruct r as [|? []].
Qed.

Lemma hex_digit_range c x : Net.hex_digit c = Some x → 0 <= x < 16.
Proof. unfold Net.hex_digit. repeat case_match; intros; simplify_eq; go_bools; lia. Qed.

Lemma unescape_bytes raw_ok escaped_ok (p q : ascii → bool) :
  ascii_all (λ c, negb (raw_ok c && q c) || p c) = true → ascii_all (λ c, negb (escaped_ok (code c)) || p c) = true →
  ∀ t h, all_bytes q t = true → unescape raw_ok escaped_ok t = Some h → all_bytes p h = true.
Proof.
  intros H1 H2. pose proof (ascii_all_spec _ H1) as Hraw. pose proof (ascii_all_spec _ H2) as Hesc. clear H1 H2.
  induction t as [t IH] using (induction_ltof1 _ String.length). unfold ltof in IH. intros h.
  destruct t as [|c t]; [by intros _ [= <-]|]. cbn [all_bytes]. rewrite unescape_cons. intros [Hc Ht]%andb_true_iff.
  case_bool_decide as Hp.
  - destruct t as [|a [|b r]]; [done..|]. destruct (Net.hex_digit a) as [x|] eqn:Hx; [|done].
    destruct (Net.hex_digit b) as [y|] eqn:Hy; [|done]. cbn [mbind option_bind]. destruct (escaped_ok _) eqn:He; [|done].
    destruct (unescape _ _ r) as [h'|] eqn:Hr; [|done]. intros [= <-]. cbn [all_bytes] in Ht.
    rewrite !andb_true_iff in Ht. destruct Ht as (_ & _ & Ht). cbn in IH.
    assert (all_bytes p h' = true) as Hh' by (eapply (IH r); [lia|done|done]).
    change (byte_of ?n +:+ h') with (String (ascii_of_N n) h'). cbn [all_bytes]. rewrite Hh', andb_true_r.
    apply hex_digit_range in Hx, Hy. specialize (Hesc (ascii_of_N (Z.to_N (16 * x + y)))). cbv beta in Hesc.
    unfold code in Hesc. rewrite N_ascii_embedding, Z2N.id in Hesc by lia. by rewrite He in Hesc.
  - destruct (raw_ok c) eqn:Hr; [|done]. destruct (unescape _ _ t) as [h'|] eqn:Hu; [|done]. intros [= <-].
    cbn [all_bytes]. specialize (Hraw c). cbv beta in Hraw. rewrite Hr, Hc in Hraw. cbn [andb negb orb] in Hraw. rewrite Hraw. cbn [andb].
    eapply (IH t); [cbn; lia|done|done].
Qed.

Lemma unescape_colon raw_ok escaped_ok b : ∀ a h, unescape raw_ok escaped_ok (a +:+ String ":" b) = Some h →
  ∃ a' b', unescape raw_ok escaped_ok b = Some b' ∧ h = a' +:+ String ":" b'.
Proof.
  induction a as [a IH] using (induction_ltof1 _ String.length). unfold ltof in IH. intros h.
  destruct a as [|c a].
  - change ("" +:+ String ":" b) with (String ":" b). rewrite unescape_cons. rewrite bool_decide_false by done.
    destruct (raw_ok ":"%char); [|done]. destruct (unescape _ _ b) as [b'|]; [|done]. intros [= <-]. by exists "", b'.
  - change (String c a +:+ String ":" b) with (String c (a +:+ String ":" b)). rewrite unescape_cons. case_bool_decide.
    + destruct a as [|x [|y a]].
      * change ("" +:+ String ":" b) with (String ":" b). by destruct b as [|? b].
      * change (String x "" +:+ String ":" b) with (String x (String ":" b)).
        cbv iota. change (Net.hex_digit ":") with (@None Z). by destruct (Net.hex_digit x).
      * change (String x (String y a) +:+ String ":" b) with (String x (String y (a +:+ String ":" b))). cbn [String.length] in IH. cbv iota.
        destruct (Net.hex_digit x); [|done]. destruct (Net.hex_digit y); [|done]. cbn [mbind option_bind].
        destruct (escaped_ok _); [|done]. destruct (unescape _ _ (a +:+ _)) as [h'|] eqn:Hu; [|done]. intros [= <-].
        apply IH in Hu as (a' & b' & Hb & ->); [|lia]. exists (byte_of (Z.to_N (16 * z + z0)) +:+ a'), b'.
        by rewrite sapp_assoc.
    + destruct (raw_ok c); [|done]. destruct (unescape _ _ (a +:+ _)) as [h'|] eqn:Hu; [|done]. intros [= <-].
      apply IH in Hu as (a' & b' & Hb & ->); [|cbn; lia]. by exists (String c a'), b'.
Qed.

Lemma unescape_raw raw_ok escaped_ok s :
  all_bytes (λ c, raw_ok c && negb (bool_decide (c = "%"%char))) s = true → unescape raw_ok escaped_ok s = Some s.
Proof.
  induction s as [|c s IH]; [done|]. cbn [all_bytes]. rewrite !andb_true_iff. intros [[Hc Hp%negb_true_iff] Hs].
  by rewrite unescape_cons, Hp, Hc, IH.
Qed.

Lemma unescape_port p : validOptionalPort p = true → unescape_host p = Some p.
Proof.
  intros Hp. apply unescape_raw. destruct p as [|d p]; [done|]. cbn in Hp.
  destruct (decide (d = ":"%char)) as [->|Hd]; [|exfalso; by destruct d as [[] [] [] [] [] [] [] []]].
  cbn [all_bytes]. change (host_byte ":" && _) with true. cbn [andb]. revert Hp. apply all_bytes_mono. intros c Hc.
  pose proof (ascii_all_spec (λ c, negb (is_dec c) || (host_byte c && negb (bool_decide (c = "%"%char)))) eq_refl c) as H.
  cbv beta in H. by rewrite Hc in H.
Qed.

Lemma no_byte_all c s : has_byte c s = false → all_bytes (λ d, negb (bool_decide (c = d))) s = true.
Proof. rewrite has_byte_all. by intros H%negb_false_iff. Qed.

Lemma index_of_found sub s : ∀ i j, index_of i sub s = Some j → (i ≤ j)%nat ∧ ∃ r, sdrop (j - i) s = sub +:+ r.
Proof.
  induction s as [|d s IH]; intros i j; cbn [index_of]; destruct (HasPrefix _ _) eqn:Hp.
  1, 3: intros [= <-]; split; [lia|]; apply HasPrefix_spec in Hp as [w Hw]; exists w; by rewrite Nat.sub_diag.
  - done.
  - intros (H1 & w & Hw)%IH. split; [lia|]. exists w. by replace (j - i)%nat with (S (j - S i)) by lia.
Qed.

(** A host is a name with an optional port, or a bracketed literal with one. *)
Lemma parseHost_cases t h : parseHost t = Some h → has_byte "%" h = false →
  (all_bytes plain_host_byte h = true ∧ port_ok h = true) ∨
  ∃ lit l port, h = "[" +:+ lit +:+ "]" +:+ port ∧ ParseIPv6 lit = Some l ∧ validOptionalPort port = true.
Proof.
  unfold parseHost, LastIndexByte. destruct (last_byte_cut "[" t) as [Hno|(a & r & -> & Hr)].
  - rewrite last_index_none by done. intros Hp _. left.
    assert (∀ h, unescape_host t = Some h → all_bytes plain_host_byte h = true) as Hb.
    { intros x. apply (unescape_bytes _ _ _ (λ d, negb (bool_decide ("["%char = d)))); [done|done|by apply no_byte_all]. }
    destruct (last_byte_cut ":" t) as [Hc|(x & p & -> & Hpc)].
    + rewrite last_index_none in Hp by done. split; [by apply Hb|]. unfold port_ok, LastIndexByte.
      rewrite last_index_none; [done|].
      eapply (all_bytes_no_byte (λ d, negb (bool_decide (":"%char = d)))); [done|].
      eapply (unescape_bytes _ _ _ (λ d, negb (bool_decide (":"%char = d)))); [| |by apply no_byte_all|exact Hp]; done.
    + rewrite last_index_app in Hp by done. cbn [plus] in Hp. rewrite sdrop_app in Hp.
      destruct (validOptionalPort (String ":" p)) eqn:Hd; [|done]. split; [by apply Hb|].
      apply unescape_colon in Hp as (a' & b' & Hb' & ->). cbn in Hd.
      pose proof (unescape_port (String ":" p) Hd) as Hpp. unfold unescape_host in Hpp.
      rewrite unescape_cons, bool_decide_false, Hb' in Hpp by done. cbn in Hpp. injection Hpp as <-.
      unfold port_ok, LastIndexByte. rewrite last_index_app by done. cbn [plus]. by rewrite sdrop_app_S.
  - rewrite last_index_app by done. destruct (last_index_from 0 _ "]") as [c|]; [|done]. cbn [mbind option_bind].
    destruct (validOptionalPort _) eqn:Hv; [|done]. cbn [negb]. destruct (_ <=? _)%nat; [done|].
    set (port := sdrop (S c) _) in *. destruct (unescape_host port) as [port'|] eqn:Hport; [|done]. cbn [mbind option_bind].
    unfold parse_literal. set (text := stake _ _). destruct (index_of 0 "%25" text) as [z|] eqn:Hz.
    + destruct (unescape_host (stake z text)) as [lit|]; [|done]. cbn [mbind option_bind].
      destruct (unescape_zone (sdrop z text)) as [zone|] eqn:Hzone; [|done]. cbn [mbind option_bind].
      destruct (zone =s "%"); [done|]. destruct (ParseIPv6 lit); [|done]. cbn [mbind option_bind]. intros [= <-] Hpc. exfalso.
      rewrite !has_byte_app in Hpc. apply orb_false_iff in Hpc as [_ Hpc]. apply orb_false_iff in Hpc as [Hpc _].
      apply orb_false_iff in Hpc as [_ Hpc]. revert Hpc Hzone.
      destruct (index_of_found _ _ _ _ Hz) as (_ & r' & Hr'). rewrite Nat.sub_0_r in Hr'. rewrite Hr'.
      unfold unescape_zone. change ("%25" +:+ r') with (String "%" (String "2" (String "5" r'))). rewrite unescape_cons.
      intros Hpc. destruct (unescape _ _ r'); [|done]. cbn. intros [= <-]. done.
    + destruct (unescape_host text) as [lit|]; [|done]. cbn [mbind option_bind]. destruct (ParseIPv6 lit) as [l|] eqn:Hl; [|done].
      cbn [mbind option_bind]. intros [= <-] _. right. exists lit, l, port'. split; [done|]. split; [done|].
      rewrite unescape_port in Hport by done. by injection Hport as <-.
Qed.

Lemma parseAuthority_host text user h : parseAuthority text = Some (user, h) → ∃ t, parseHost t = Some h.
Proof.
  unfold parseAuthority. destruct (LastIndexByte text "@"); destruct (parseHost _) eqn:E; try done; cbn; [|intros [= _ <-]; eauto].
  destruct (parseUserinfo _); [|done]. intros [= _ <-]. eauto.
Qed.

(** Every host the parser finds is written as one it reads back, the zones of
    scoped addresses set apart. *)
Lemma parsed_host_ok text user h : parseAuthority text = Some (user, h) → has_byte "%" h = false → host_ok h.
Proof.
  intros [t Ht]%parseAuthority_host Hpc. destruct (parseHost_cases t h Ht Hpc) as [[? ?]|(lit & l & port & -> & Hl & Hp)].
  - by apply plain_host_ok.
  - by eapply literal_ok.
Qed.
