(* ===== verification/UrlQuery.v ===== *)
(** * Query strings ([net/url]: [QueryEscape], [ParseQuery], [Values.Encode])

    A [url.Values] is a map of lists. What [Encode] writes parses back to the same
    values, less the keys that have none. *)

From Stdlib Require Import ZArith NArith Lia Ascii.
From stdpp Require Import base tactics strings gmap.
From stdpp Require Import list.
From S2P Require Import Prelude Bytes Net Url UrlText.

Open Scope Z_scope.
Open Scope go_scope.

Abbreviation Values := (gmap string (list string)).

(** ** Definitions *)

Definition query_plain (c : ascii) : bool := is_letter c || is_dec c || one_of "-_.~" c.

Definition query_byte (c : ascii) : string :=
  if query_plain c then String c ""
  else if bool_decide (c = " "%char) then "+"
  else "%" +:+ upper_hex (N_of_ascii c / 16) +:+ upper_hex (N_of_ascii c mod 16).
Fixpoint QueryEscape (s : string) : string :=
  match s with
  | "" => ""
  | String c r => query_byte c +:+ QueryEscape r
  end.

Fixpoint plus_to_space (s : string) : string :=
  match s with
  | "" => ""
  | String c r => String (if bool_decide (c = "+"%char) then " "%char else c) (plus_to_space r)
  end.
Definition QueryUnescape (s : string) : option string := unescape_any (plus_to_space s).

Definition values_of (m : Values) (k : string) : list string := default [] (m !! k).
(** [Values.Get] *)
Definition Get (m : Values) (k : string) : string := default "" (head (values_of m k)).

(** One pair of a query; what cannot be read is skipped. *)
Definition parse_pair (m : Values) (pair : string) : Values :=
  if has_byte ";" pair || (pair =s "") then m
  else
    let '(k, v) := cut_at "=" pair in
    match QueryUnescape k, QueryUnescape v with
    | Some k, Some v => <[k := values_of m k ++ [v]]> m
    | _, _ => m
    end.
Definition ParseQuery (query : string) : Values := foldl parse_pair ∅ (Split query "&").

Definition pair_text (k v : string) : string := QueryEscape k +:+ "=" +:+ QueryEscape v.
Definition pairs_of (m : Values) (k : string) : list string := map (pair_text k) (values_of m k).
Definition Encode (m : Values) : string :=
  Join (concat (map (pairs_of m) (sort_strings (elements (dom m))))) "&".

Example ParseQuery_ex :
  map (λ k, values_of (ParseQuery "b=1&a=x+y%21&&b=%32&c;=1&=e&d") k) ["a"; "b"; ""; "d"; "c"] = [["x y!"]; ["1"; "2"]; ["e"]; [""]; []] ∧
  Encode (ParseQuery "b=1&a=x+y%21&&b=%32&c;=1&=e&d") = "=e&a=x+y%21&b=1&b=2&d=".
Proof. vm_compute. auto. Qed.

(** ** Escaping *)

Lemma plus_to_space_app a b : plus_to_space (a +:+ b) = plus_to_space a +:+ plus_to_space b.
Proof.
  induction a as [|c a IH]; [done|]. change (String c a +:+ b) with (String c (a +:+ b)). cbn [plus_to_space]. by rewrite IH.
Qed.

Lemma unescape_any_cons c s : c ≠ "%"%char → unescape_any (String c s) = r ← unescape_any s; Some (String c r).
Proof. intros Hc. unfold unescape_any. destruct c as [[] [] [] [] [] [] [] []]; try done; by destruct Hc. Qed.

Lemma query_byte_unescape c s r : unescape_any s = Some r → unescape_any (plus_to_space (query_byte c) +:+ s) = Some (String c r).
Proof.
  intros Hs. unfold query_byte. destruct (query_plain c) eqn:Hp.
  - assert (c ≠ "+"%char ∧ c ≠ "%"%char) as [H1 H2] by by split; intros ->.
    cbn [plus_to_space]. rewrite bool_decide_eq_false_2 by done. change (String c "" +:+ s) with (String c s). by rewrite unescape_any_cons, Hs.
  - case_bool_decide as Hsp; [subst; change (plus_to_space "+" +:+ s) with (String " " s); by rewrite unescape_any_cons, Hs|].
    destruct (nibbles c) as [Hh Hl]. destruct (hex_digit_upper _ Hh) as (a & Ha & Ha'), (hex_digit_upper _ Hl) as (b & Hb & Hb').
    assert (a ≠ "+"%char ∧ b ≠ "+"%char) as [H1 H2] by by split; intros ->.
    rewrite Ha, Hb. change ("%" +:+ String a "" +:+ String b "") with (String "%" (String a (String b ""))).
    cbn [plus_to_space]. rewrite !(bool_decide_eq_false_2 _ H1), !(bool_decide_eq_false_2 _ H2).
    change (bool_decide ("%"%char = "+"%char)) with false. cbv iota.
    change (String "%" (String a (String b "")) +:+ s) with (String "%" (String a (String b s))).
    unfold unescape_any in *. cbn [unescape]. rewrite Ha', Hb', Hs. cbn [mbind option_bind].
    assert (16 * Z.of_N (N_of_ascii c / 16) + Z.of_N (N_of_ascii c mod 16) = code c) as ->.
    { unfold code. pose proof (N.div_mod (N_of_ascii c) 16). lia. }
    unfold byte_of, code. rewrite N2Z.id, ascii_N_embedding. done.
Qed.

Lemma QueryUnescape_QueryEscape s : QueryUnescape (QueryEscape s) = Some s.
Proof.
  unfold QueryUnescape. induction s as [|c s IH]; [done|]. cbn [QueryEscape]. rewrite plus_to_space_app. by apply query_byte_unescape.
Qed.

(** The bytes an escaped text is made of. *)
Definition escaped_byte (c : ascii) : bool := query_plain c || one_of "+%" c.

Lemma QueryEscape_bytes s : all_bytes escaped_byte (QueryEscape s) = true.
Proof.
  induction s as [|c s IH]; [done|]. cbn [QueryEscape]. rewrite all_bytes_app, IH, andb_true_r. unfold query_byte.
  destruct (query_plain c) eqn:Hp; [cbn; unfold escaped_byte; by rewrite Hp|]. case_bool_decide; [done|].
  destruct (nibbles c) as [Hh Hl]. rewrite !all_bytes_app, !upper_hex_admitted; done.
Qed.

Lemma QueryEscape_no_byte c s : escaped_byte c = false → has_byte c (QueryEscape s) = false.
Proof. intros Hc. by eapply all_bytes_no_byte; [|apply QueryEscape_bytes]. Qed.

Lemma pair_text_bytes k v : all_bytes (λ c, escaped_byte c || bool_decide (c = "="%char)) (pair_text k v) = true.
Proof.
  unfold pair_text. assert (∀ s, all_bytes (λ c, escaped_byte c || bool_decide (c = "="%char)) (QueryEscape s) = true) as H.
  { intros s. eapply all_bytes_mono; [|apply QueryEscape_bytes]. by intros c ->. }
  by rewrite !all_bytes_app, !H.
Qed.

Lemma pair_text_no_byte c k v : escaped_byte c = false → c ≠ "="%char → has_byte c (pair_text k v) = false.
Proof.
  intros Hc Hn. eapply all_bytes_no_byte; [|apply pair_text_bytes]. cbn. rewrite Hc. by apply bool_decide_eq_false.
Qed.

(** ** There and back *)

Lemma parse_pair_text m k v : parse_pair m (pair_text k v) = <[k := values_of m k ++ [v]]> m.
Proof.
  unfold parse_pair. rewrite pair_text_no_byte by done. assert ((pair_text k v =s "") = false) as ->.
  { apply streq_false. unfold pair_text. intros H. apply (f_equal String.length) in H. rewrite !slength_app in H. cbn in H. lia. }
  cbn [orb]. unfold pair_text. change (QueryEscape k +:+ "=" +:+ QueryEscape v) with (QueryEscape k +:+ String "=" (QueryEscape v)).
  rewrite cut_at_app by by apply QueryEscape_no_byte. by rewrite !QueryUnescape_QueryEscape.
Qed.

Lemma Split_Join sep l : Forall (λ x, has_byte sep x = false) l → l ≠ [] → Split (Join l (String sep "")) sep = l.
Proof.
  induction l as [|x l IH]; [done|]. intros [Hx Hl]%Forall_cons _. destruct l as [|y l]; [by apply Split_plain|].
  change (Join (x :: y :: l) (String sep "")) with (x +:+ String sep (Join (y :: l) (String sep ""))).
  unfold Split. rewrite split_go_app. change (split_go sep "" x) with (Split x sep). by rewrite Split_plain, IH.
Qed.

Lemma values_insert m k vs k' : values_of (<[k := vs]> m) k' = if decide (k' = k) then vs else values_of m k'.
Proof.
  unfold values_of. destruct (decide (k' = k)) as [->|H].
  - by rewrite lookup_insert_eq.
  - by rewrite lookup_insert_ne by done.
Qed.

(** Reading the pairs of a key adds its values, in order. *)
Lemma parse_key vs k k' : ∀ m,
  values_of (foldl parse_pair m (map (pair_text k) vs)) k' = if decide (k' = k) then values_of m k ++ vs else values_of m k'.
Proof.
  induction vs as [|v vs IH]; intros m; cbn [map foldl].
  { rewrite app_nil_r. by case_decide; subst. }
  rewrite parse_pair_text, IH, !values_insert. case_decide; [|done]. subst. rewrite decide_True by done. by rewrite <- app_assoc.
Qed.

Lemma parse_keys m ks : NoDup ks → ∀ m0 k, (∀ k, k ∈ ks → values_of m0 k = []) →
  values_of (foldl parse_pair m0 (concat (map (pairs_of m) ks))) k = if decide (k ∈ ks) then values_of m k else values_of m0 k.
Proof.
  induction ks as [|k1 ks IH]; intros Hn m0 k H0; cbn [map concat].
  { by rewrite decide_False by apply not_elem_of_nil. }
  apply NoDup_cons in Hn as [Hni Hn]. rewrite foldl_app, IH; [|done|].
  - unfold pairs_of. rewrite parse_key, (H0 k1) by by left. destruct (decide (k ∈ ks)).
    + rewrite decide_True; [done|by right].
    + destruct (decide (k = k1)) as [->|Hne]; [by rewrite decide_True by by left|]. by rewrite decide_False by by intros [?|?]%elem_of_cons.
  - intros k2 Hk2. unfold pairs_of. rewrite parse_key, decide_False by by intros ->. apply H0. by right.
Qed.

(** What [Encode] writes is read back, key for key. *)
Lemma ParseQuery_Encode m k : values_of (ParseQuery (Encode m)) k = values_of m k.
Proof.
  unfold ParseQuery, Encode. set (ks := sort_strings (elements (dom m))). assert (ks ≡ₚ elements (dom m)) as Hks by apply sort_strings_perm.
  assert (Forall (λ x, has_byte "&" x = false) (concat (map (pairs_of m) ks))) as Hno.
  { apply Forall_concat, Forall_fmap, Forall_forall. intros k1 _. apply Forall_fmap, Forall_forall. intros v _. by apply pair_text_no_byte. }
  assert (foldl parse_pair ∅ (Split (Join (concat (map (pairs_of m) ks)) "&") "&") = foldl parse_pair ∅ (concat (map (pairs_of m) ks))) as ->.
  { destruct (concat (map (pairs_of m) ks)) as [|p ps]; [done|]. change "&"%string with (String "&" ""). by rewrite Split_Join. }
  rewrite parse_keys.
  - destruct (decide (k ∈ ks)) as [|Hn]; [done|]. rewrite Hks, elem_of_elements, not_elem_of_dom in Hn. unfold values_of. by rewrite Hn.
  - rewrite Hks. apply NoDup_elements.
  - intros k' _. unfold values_of. by rewrite lookup_empty.
Qed.

(** An encoded query has no byte that ends it, and is empty only when it says
    nothing. *)
Lemma Encode_bytes m : all_bytes plain (Encode m) = true.
Proof.
  unfold Encode. assert (Forall (λ x, all_bytes plain x = true) (concat (map (pairs_of m) (sort_strings (elements (dom m)))))) as H.
  { apply Forall_concat, Forall_fmap, Forall_forall. intros k _. apply Forall_fmap, Forall_forall. intros v _.
    eapply all_bytes_mono; [|apply pair_text_bytes]. intros c. unfold escaped_byte, query_plain, is_letter, is_dec.
    destruct c as [[] [] [] [] [] [] [] []]; done. }
  induction H as [|x l Hx Hl IH]; [done|]. destruct l as [|y l]; [done|].
  change (Join (x :: y :: l) "&") with (x +:+ "&" +:+ Join (y :: l) "&"). by rewrite !all_bytes_app, Hx, IH.
Qed.
