(* ===== verification/MockRedirect.v ===== *)
(** * The mock OAuth redirect ([internal/auth/mock_redirect.go])

    A callback endpoint for smoke tests: it answers every callback as its mode says
    and counts it. [BuildCallbackURL] makes the links that lead to it. The address
    rules are those of the other listeners; [http.ServeMux], which calls the
    handlers, is not modelled, but for its refusal of a path that is given twice. *)

From Stdlib Require Import ZArith Lia Ascii.
From stdpp Require Import base tactics strings gmap.
From stdpp Require Import list.
From S2P Require Import Prelude Bytes Net Url UrlText UrlQuery.

Open Scope Z_scope.
Open Scope go_scope.

(** ** Data *)

Definition MockRedirectAllow : string := "allow".
Definition MockRedirectFail : string := "fail".

Record MockRedirectOptions := mkMockOptions {
  mo_ListenAddr : string;
  mo_Path : string;
  mo_Mode : string;
  mo_ShutdownTimeout : Duration;
}.

Record MockRedirectServer := mkMockServer {
  ms_opts : MockRedirectOptions;
  ms_Addr : string;               (* httpSrv.Addr *)
  ms_started : bool;
  ms_listener : option string;    (* the address the listener is bound to *)
  ms_boundAddr : string;
  ms_hits : Z;
}.

(** ** Construction *)

Definition status_path : string := "/oauth/mock/status".

Definition mock_defaults (o : MockRedirectOptions) : MockRedirectOptions :=
  let path := if blank (mo_Path o) then "/oauth/callback" else mo_Path o in
  {| mo_ListenAddr := if blank (mo_ListenAddr o) then "localhost:8877" else mo_ListenAddr o;
     mo_Path := if HasPrefix path "/" then path else "/" +:+ path;
     mo_Mode := if mo_Mode o =s "" then MockRedirectAllow else mo_Mode o;
     mo_ShutdownTimeout := if mo_ShutdownTimeout o <=? 0 then 8 * Second else mo_ShutdownTimeout o |}.

(** [None] is the panic of a pattern that is registered twice. *)
Definition NewMockRedirectServer (o : MockRedirectOptions) : option MockRedirectServer :=
  let o := mock_defaults o in
  if mo_Path o =s status_path then None
  else Some (mkMockServer o (mo_ListenAddr o) false None "" 0).

(** ** Listening *)

Definition adopt_listener (bound : string) : M MockRedirectServer (string + string) :=
  s ← get;
  if ms_started s then mret (inr "oauth mock redirect: already started")
  else
    _ ← modify (λ s, {| s with ms_listener := Some bound; ms_boundAddr := bound; ms_Addr := bound |});
    mret (inl bound).

Definition mock_BindWithRetry (try : string → bind_result) (maxRetries : Z) : M MockRedirectServer (string + string) :=
  s ← get;
  match Listen try (mo_ListenAddr (ms_opts s)) maxRetries with
  | inr _ => mret (inr "oauth mock redirect: listen failed")
  | inl bound => adopt_listener bound
  end.

Definition mock_BindListener (ln : option string) : M MockRedirectServer (string + string) :=
  match ln with
  | None => mret (inr "oauth mock redirect: nil listener")
  | Some bound => adopt_listener bound
  end.

(** What [Start] does before it serves: whether it goes on, and on which address. *)
Definition mock_Start : M MockRedirectServer (option string) :=
  s ← get;
  if ms_started s then mret None
  else
    _ ← modify (λ s, {| s with ms_started := true |});
    mret (Some (default (ms_Addr s) (ms_listener s))).

(** Whether [http.Server.Shutdown] is called. *)
Definition mock_Shutdown : M MockRedirectServer bool :=
  s ← get;
  if negb (ms_started s) then mret false
  else _ ← modify (λ s, {| s with ms_started := false |}); mret true.

Definition mock_Addr (s : MockRedirectServer) : string :=
  if negb (ms_boundAddr s =s "") then ms_boundAddr s else mo_ListenAddr (ms_opts s).
Definition CallbackURL (s : MockRedirectServer) : string := "http://" +:+ mock_Addr s +:+ mo_Path (ms_opts s).
Definition Hits (s : MockRedirectServer) : Z := ms_hits s.

(** ** Callbacks *)

Definition firstNonEmpty (values : list string) : string := default "" (find (λ v, negb (blank v)) values).

(** A request: its method, its query, and the form of its body, which only a
    [POST] has. *)
Record CallbackRequest := mkCallback { rq_Method : string; rq_Query : string; rq_Body : Values }.

(** [r.Form]: the values of the body before those of the query. *)
Definition form_value (r : CallbackRequest) (k : string) : string :=
  let body := if rq_Method r =s "POST" then values_of (rq_Body r) k else [] in
  default "" (head (body ++ values_of (ParseQuery (rq_Query r)) k)).

Definition param (r : CallbackRequest) (k : string) : string :=
  TrimSpace (firstNonEmpty [UrlQuery.Get (ParseQuery (rq_Query r)) k; form_value r k]).

Inductive Answer :=
  | MethodNotAllowed
  | Allowed (mode callback_id code state : string) (received_at : Time) (path : string)
  | Denied (mode error error_description callback_id state : string) (received_at : Time) (path : string)
  | InvalidMode (mode : string)
  | MockStatus (listen path mode callback : string) (hits : Z) (started : bool) (updated_at : Time).

Definition status_of (a : Answer) : Z :=
  match a with
  | MethodNotAllowed => 405
  | Allowed _ _ _ _ _ _ | MockStatus _ _ _ _ _ _ _ => 200
  | Denied _ _ _ _ _ _ _ => 401
  | InvalidMode _ => 400
  end.

Definition or_else (s d : string) : string := if s =s "" then d else s.

(** The mode the handler acts on. *)
Definition mode_of (o : MockRedirectOptions) : string := or_else (ToLower (TrimSpace (mo_Mode o))) MockRedirectAllow.

Definition callback_answer (o : MockRedirectOptions) (now : Time) (r : CallbackRequest) : Answer :=
  if negb (rq_Method r =s "GET") && negb (rq_Method r =s "POST") then MethodNotAllowed
  else
    let mode := mode_of o in
    if mode =s MockRedirectAllow then
      Allowed mode (or_else (param r "callback_id") "mock-callback") (or_else (param r "code") "mock_auth_code")
        (param r "state") now (mo_Path o)
    else if mode =s MockRedirectFail then
      Denied mode (or_else (param r "error") "access_denied")
        (or_else (param r "error_description") "mock redirect endpoint configured in fail mode")
        (param r "callback_id") (param r "state") now (mo_Path o)
    else InvalidMode (mo_Mode o).

Definition handleCallback (now : Time) (r : CallbackRequest) : M MockRedirectServer Answer :=
  _ ← modify (λ s, {| s with ms_hits := wrap_i64 (ms_hits s + 1) |});
  s ← get;
  mret (callback_answer (ms_opts s) now r).

Definition handleStatus (now : Time) : M MockRedirectServer Answer :=
  s ← get;
  mret (MockStatus (mock_Addr s) (mo_Path (ms_opts s)) (ToLower (mo_Mode (ms_opts s))) (CallbackURL s) (Hits s) (ms_started s) now).

(** ** Links *)

Definition query_set (cond : bool) (k v : string) (m : Values) : Values := if cond then <[k := [v]]> m else m.

Definition callback_query (q : Values) (callbackID state : string) : Values :=
  query_set (negb (blank state)) "state" state (query_set (negb (blank callbackID)) "callback_id" callbackID q).

Definition BuildCallbackURL (baseCallbackURL callbackID state : string) : option string :=
  u ← Parse (TrimSpace baseCallbackURL);
  if (url_Scheme u =s "") || (url_Host u =s "") then None
  else Some (URL_String {| u with url_RawQuery := Encode (callback_query (ParseQuery (url_RawQuery u)) callbackID state) |}).

Example BuildCallbackURL_ex :
  BuildCallbackURL " http://localhost:8877/oauth/callback?b=1&a=2#top " "id 7" "x&y" =
    Some "http://localhost:8877/oauth/callback?a=2&b=1&callback_id=id+7&state=x%26y#top" ∧
  BuildCallbackURL "localhost:8877/oauth/callback" "id" "" = None.
Proof. vm_compute. auto. Qed.

(** ** What a link carries *)

Lemma query_set_values cond k v m k' :
  values_of (query_set cond k v m) k' = if cond && bool_decide (k' = k) then [v] else values_of m k'.
Proof.
  unfold query_set. destruct cond; [|done]. rewrite values_insert. cbn [andb]. by destruct (decide (k' = k)); case_bool_decide.
Qed.

(** The values of the link's query: those of the base, but for the parameters the
    link sets. *)
Definition carried (base : string) (callbackID state k : string) : list string :=
  if (k =s "state") && negb (blank state) then [state]
  else if (k =s "callback_id") && negb (blank callbackID) then [callbackID]
  else values_of (ParseQuery base) k.

Lemma callback_query_values q id st k :
  values_of (ParseQuery (Encode (callback_query (ParseQuery q) id st))) k = carried q id st k.
Proof.
  rewrite ParseQuery_Encode. unfold callback_query, carried. rewrite !query_set_values. unfold streq.
  by rewrite !(andb_comm (negb _)).
Qed.

(** Another query leaves a parsed URL writable. *)
Lemma requery raw u q : Parse raw = Some u → url_Host u ≠ "" → has_byte "%" (url_Host u) = false → all_bytes plain q = true →
  ∃ w, writable w ∧ URL_String {| u with url_RawQuery := q |} = URL_String w ∧ url_RawQuery w = q ∧
    (url_Scheme w, url_User w, url_Host w, url_Path w, url_Fragment w) =
      (url_Scheme u, url_User u, url_Host u, url_Path u, url_Fragment u).
Proof.
  intros Hp Hh Hpc Hq. destruct (Parse_parts _ _ Hp Hh) as (Hw & text & user & Ha).
  pose proof (parsed_host_ok _ _ _ Ha Hpc) as Hok. specialize (Hw _ Hh Hok).
  exists {| u with url_RawQuery := q; url_ForceQuery := url_ForceQuery u && (q =s "") |}.
  split; [|split; [|done]].
  - destruct Hw as [W1 W2 W3 W4 W5 W6 W7 W8]. cbn in W1, W2, W3, W4, W6. split; cbn; try done.
    intros [_ ?%streq_true]%andb_true_iff. done.
  - unfold URL_String. cbn. destruct (q =s ""); [by rewrite andb_true_r|]. by rewrite andb_false_r, orb_true_r.
Qed.

Lemma BuildCallbackURL_parts base id st text u : BuildCallbackURL base id st = Some text →
  Parse (TrimSpace base) = Some u → has_byte "%" (url_Host u) = false →
  ∃ v, Parse text = Some v ∧
    (url_Scheme v, url_User v, url_Host v, url_Path v, url_Fragment v) =
      (url_Scheme u, url_User u, url_Host u, url_Path u, url_Fragment u) ∧
    ∀ k, values_of (ParseQuery (url_RawQuery v)) k = carried (url_RawQuery u) id st k.
Proof.
  unfold BuildCallbackURL. intros Hb Hu Hpc. rewrite Hu in Hb. cbn [mbind option_bind] in Hb.
  destruct (_ || _) eqn:E; [done|]. apply orb_false_iff in E as [_ Hh%streq_false]. injection Hb as <-.
  destruct (requery _ _ (Encode (callback_query (ParseQuery (url_RawQuery u)) id st)) Hu Hh Hpc (Encode_bytes _))
    as (w & Hw & -> & Hq & Hk).
  pose proof (Parse_String w Hw) as Hs. destruct (Parse (URL_String w)) as [v|]; [|done]. injection Hs as Hs.
  exists v. split; [done|]. destruct v, w. cbn in *. simplify_eq. split; [done|]. intros k. apply callback_query_values.
Qed.

(** ** What the server answers *)

Lemma param_of_query r k v : values_of (ParseQuery (rq_Query r)) k = [v] → blank v = false → param r k = TrimSpace v.
Proof.
  intros Hv Hb. unfold param, firstNonEmpty, UrlQuery.Get. rewrite Hv. cbn. by rewrite Hb.
Qed.

Lemma or_else_trim v d : blank v = false → or_else (TrimSpace v) d = TrimSpace v.
Proof. unfold or_else, blank, streq. by intros ->. Qed.

Definition hit (s : MockRedirectServer) : MockRedirectServer := {| s with ms_hits := wrap_i64 (ms_hits s + 1) |}.

Lemma handleCallback_eq now r env tick s : handleCallback now r env tick s = (callback_answer (ms_opts s) now r, tick, hit s).
Proof. done. Qed.

Lemma callback_answer_allow o now r : rq_Method r ∈ ["GET"; "POST"] → mode_of o = MockRedirectAllow →
  callback_answer o now r =
    Allowed "allow" (or_else (param r "callback_id") "mock-callback") (or_else (param r "code") "mock_auth_code")
      (param r "state") now (mo_Path o).
Proof.
  intros Hm Hmode. unfold callback_answer. rewrite Hmode.
  assert (negb (rq_Method r =s "GET") && negb (rq_Method r =s "POST") = false) as ->; [|done].
  rewrite !elem_of_cons in Hm. by destruct Hm as [-> |[-> |[]%elem_of_nil]].
Qed.

(** A link made by [BuildCallbackURL] leads to the scheme, host, path and
    fragment of its base with the base's query, but for the [callback_id] and the
    [state] it sets; and a server in [allow] mode that is asked for it, by GET or by
    POST and whatever the form of the request says, counts the callback and answers
    with that identifier and that state, trimmed. *)
Theorem callback_carries base id st text u :
  BuildCallbackURL base id st = Some text → Parse (TrimSpace base) = Some u → has_byte "%" (url_Host u) = false →
  ∃ v, Parse text = Some v ∧
    (url_Scheme v, url_User v, url_Host v, url_Path v, url_Fragment v) =
      (url_Scheme u, url_User u, url_Host u, url_Path u, url_Fragment u) ∧
    (∀ k, values_of (ParseQuery (url_RawQuery v)) k = carried (url_RawQuery u) id st k) ∧
    ∀ env tick s now meth body, meth ∈ ["GET"; "POST"] → mode_of (ms_opts s) = MockRedirectAllow →
      blank id = false → blank st = false →
      ∃ authcode, handleCallback now (mkCallback meth (url_RawQuery v) body) env tick s =
        (Allowed "allow" (TrimSpace id) authcode (TrimSpace st) now (mo_Path (ms_opts s)), tick,
         hit s).
Proof.
  intros Hb Hu Hpc. destruct (BuildCallbackURL_parts _ _ _ _ _ Hb Hu Hpc) as (v & Hv & Hk & Hq).
  exists v. split; [done|]. split; [done|]. split; [done|]. intros env tick s now meth body Hm Hmode Hid Hst.
  eexists. rewrite handleCallback_eq, callback_answer_allow by done.
  rewrite (param_of_query _ "callback_id" id), (param_of_query _ "state" st), or_else_trim; try done;
    cbn [rq_Query]; rewrite Hq; unfold carried; by rewrite ?Hid, ?Hst.
Qed.

Definition wit_base : string := "https://user@[::1]:8877/oauth/callback?state=old&x=1&x=2?#top".
Definition wit_server : MockRedirectServer :=
  mkMockServer (mkMockOptions "localhost:8877" "/oauth/callback" " Allow " (8 * Second)) "localhost:8877" true None "" 41.
Definition wit_url : URL := default (mkURL "" "" None "" "" "" false false "" "" "") (Parse (TrimSpace wit_base)).

Lemma callback_carries_witness :
  ∃ v, Parse "https://user@[::1]:8877/oauth/callback?callback_id=+a%26b+&state=s%3D1&x=1&x=2%3F#top" = Some v ∧
    (url_Scheme v, url_User v, url_Host v, url_Path v, url_Fragment v) =
      (url_Scheme wit_url, url_User wit_url, url_Host wit_url, url_Path wit_url, url_Fragment wit_url) ∧
    (∀ k, values_of (ParseQuery (url_RawQuery v)) k = carried (url_RawQuery wit_url) " a&b " "s=1" k) ∧
    ∀ env tick s now meth body, meth ∈ ["GET"; "POST"] → mode_of (ms_opts s) = MockRedirectAllow →
      blank " a&b " = false → blank "s=1" = false →
      ∃ authcode, handleCallback now (mkCallback meth (url_RawQuery v) body) env tick s =
        (Allowed "allow" (TrimSpace " a&b ") authcode (TrimSpace "s=1") now (mo_Path (ms_opts s)), tick, hit s).
Proof. apply (callback_carries wit_base " a&b " "s=1"); vm_compute; reflexivity. Defined.

Example allow_mode : mode_of (ms_opts wit_server) = MockRedirectAllow.
Proof. reflexivity. Qed.

(** ** The handler over a run of callbacks *)

Fixpoint callbacks (reqs : list (Time * CallbackRequest)) : M MockRedirectServer (list Answer) :=
  match reqs with
  | [] => mret []
  | (now, r) :: reqs => a ← handleCallback now r; answers ← callbacks reqs; mret (a :: answers)
  end.

(** Callbacks do not influence one another: each is answered by its own request
    under the server's options, and all of them are counted, the refused ones too. *)
Lemma callbacks_independent env reqs : ∀ tick s, 0 <= ms_hits s → ms_hits s + Z.of_nat (length reqs) < two63 →
  callbacks reqs env tick s =
    (map (λ p, callback_answer (ms_opts s) p.1 p.2) reqs, tick, {| s with ms_hits := ms_hits s + Z.of_nat (length reqs) |}).
Proof.
  induction reqs as [|[now r] reqs IH]; intros tick s H0 H; cbn [length] in *.
  - cbn. rewrite Z.add_0_r. by destruct s.
  - change (callbacks ((now, r) :: reqs) env tick s) with
      (let '(answers, tick, s') := callbacks reqs env tick (hit s) in (callback_answer (ms_opts s) now r :: answers, tick, s')).
    assert (ms_hits (hit s) = ms_hits s + 1) as Hh by (cbn [hit ms_hits]; apply wrap_i64_id; unfold in_i64, two63 in *; lia).
    rewrite IH by (rewrite Hh; lia). rewrite Hh. cbn [map fst snd ms_opts hit]. f_equal. f_equal. lia.
Qed.

(** The status path cannot be the callback's: the process stops. Nothing in the
    configuration's validation forbids it. *)
Example status_path_panics : NewMockRedirectServer (mkMockOptions "" "oauth/mock/status" "allow" 0) = None.
Proof. reflexivity. Qed.

(** The handler trims the mode and the status does not; a mode of blanks allows. *)
Example blank_mode_allows :
  let s := mkMockServer (mkMockOptions "localhost:8877" "/oauth/callback" "  " (8 * Second)) "localhost:8877" true None "" 0 in
  status_of (callback_answer (ms_opts s) 0 (mkCallback "GET" "" ∅)) = 200 ∧
  (handleStatus 0 (mkEnv (λ _, 0) (λ _, "")) 0%nat s).1.1 =
    MockStatus "localhost:8877" "/oauth/callback" "  " "http://localhost:8877/oauth/callback" 0 true 0.
Proof. vm_compute. auto. Qed.
