(* ===== verification/Targets.v ===== *)
(** * Targets ([internal/targets/targets.go])

    A target is a monitored endpoint: its data, the validation it passes before
    it is scheduled, and the normalised result of a check. An error of [Validate]
    is its kind; the message, which quotes the target's ID, is left out. *)

From Stdlib Require Import ZArith Lia Ascii.
From stdpp Require Import base tactics strings gmap.
From stdpp Require Import list.
From S2P Require Import Prelude Net Url.

Open Scope Z_scope.

(** ** Vocabulary *)

Abbreviation Protocol := string (only parsing).
Definition ProtocolMCP : Protocol := "mcp".
Definition ProtocolACP : Protocol := "acp".
Abbreviation Transport := string (only parsing).
Definition TransportStdio : Transport := "stdio".
Definition TransportSSE : Transport := "sse".
Abbreviation AuthType := string (only parsing).
Definition AuthNone : AuthType := "none".
Definition AuthBearer : AuthType := "bearer".
Definition AuthAPIKey : AuthType := "apikey".
Definition AuthOAuth : AuthType := "oauth".

Abbreviation HealthState := string (only parsing).
Definition StateUnknown : HealthState := "unknown".
Definition StateHealthy : HealthState := "healthy".
Definition StateDegraded : HealthState := "degraded".
Definition StateUnhealthy : HealthState := "unhealthy".
Definition StateOutage : HealthState := "outage".
Definition StateRegression : HealthState := "regression".

Abbreviation Severity := string (only parsing).
Definition SeverityInfo : Severity := "info".
Definition SeverityWarn : Severity := "warn".
Definition SeverityCritical : Severity := "critical".

Abbreviation FailureClass := string (only parsing).
Definition FailureNone : FailureClass := "none".
Definition FailureNetwork : FailureClass := "network".
Definition FailureTimeout : FailureClass := "timeout".
Definition FailureAuth : FailureClass := "auth".
Definition FailureProtocol : FailureClass := "protocol".
Definition FailureConfig : FailureClass := "config".
Definition FailureTLS : FailureClass := "tls".
Definition FailureRateLimited : FailureClass := "rate_limited".
Definition FailureUnknown : FailureClass := "unknown".

(** ** Data *)

Record AuthConfig := mkAuthConfig {
  auth_Type : AuthType;
  auth_Header : string;
  auth_KeyName : string;
  auth_SecretRef : string;
  auth_ClientID : string;
  auth_TokenURL : string;
  auth_RedirectURL : string;
  auth_CallbackID : string;
  auth_Scopes : list string;
  auth_Audience : string;
}.

Record ExpectedBehavior := mkExpected {
  HealthyStatusCodes : list Z;
  MinCapabilities : list string;
  KnownAgentCountMin : Z;
  ExpectedVersion : string;
}.

Record HURLTest := mkHURLTest {
  ht_Name : string;
  ht_File : string;
  ht_Endpoint : string;
  ht_Method : string;
  ht_Headers : gmap string string;
  ht_Body : string;
}.

Record CheckPolicy := mkCheckPolicy {
  Interval : Duration;
  Timeout : Duration;
  Retries : Z;
  HandshakeProfile : string;
  RequiredMethods : list string;
  HURLTests : list HURLTest;
}.

Record StdioCommand := mkStdio {
  Command : string;
  Args : list string;
  Env_ : gmap string string;
  Cwd : string;
}.

Record Target := mkTarget {
  tgt_ID : string;
  tgt_Enabled : bool;
  tgt_Protocol : Protocol;
  tgt_Name : string;
  tgt_Endpoint : string;
  tgt_Transport : Transport;
  tgt_Type : string;
  tgt_Expected : ExpectedBehavior;
  tgt_Auth : AuthConfig;
  tgt_Stdio : StdioCommand;
  tgt_Check : CheckPolicy;
  tgt_Tags : gmap string string;
  tgt_Meta : gmap string string;
  tgt_Headers : gmap string string;
}.

(** ** Validation *)

Inductive target_error :=
  | ErrID | ErrProtocol | ErrTransport
  | ErrStdioCommand | ErrEndpoint | ErrEndpointInvalid | ErrSSEScheme
  | ErrTimeout | ErrInterval | ErrRetries | ErrProfile | ErrRequiredMethod (i : nat)
  | ErrTestName (i : nat) | ErrTestSource (i : nat) | ErrTestBoth (i : nat)
  | ErrTestEndpoint (i : nat) | ErrTestMethod (i : nat)
  | ErrBearer | ErrAPIKey | ErrOAuth | ErrAuthType.

(** A check that returns early on an error. *)
Definition orelse {E} (a b : option E) : option E := match a with Some e => Some e | None => b end.
Infix "<||>" := orelse (at level 50, left associativity) : go_scope.
Definition guard_err {E} (bad : bool) (e : E) : option E := if bad then Some e else None.

Fixpoint first_error {A E} (f : nat → A → option E) (i : nat) (l : list A) : option E :=
  match l with [] => None | x :: r => f i x <||> first_error f (S i) r end.

Definition valid_uri (s : string) : bool := bool_decide (is_Some (ParseRequestURI s)).

Definition validate_transport (t : Target) : option target_error :=
  if tgt_Transport t =s TransportStdio then
    guard_err (blank (Command (tgt_Stdio t))) ErrStdioCommand
    <||> guard_err (negb (blank (tgt_Endpoint t)) && negb (valid_uri (tgt_Endpoint t))) ErrEndpointInvalid
  else if tgt_Transport t =s TransportSSE then
    guard_err (blank (tgt_Endpoint t)) ErrEndpoint
    <||> match ParseRequestURI (tgt_Endpoint t) with
         | None => Some ErrEndpointInvalid
         | Some u =>
             let scheme := ToLower (TrimSpace (url_Scheme u)) in
             guard_err (negb (scheme =s "http") && negb (scheme =s "https")) ErrSSEScheme
         end
  else
    guard_err (blank (tgt_Endpoint t)) ErrEndpoint
    <||> guard_err (negb (valid_uri (tgt_Endpoint t))) ErrEndpointInvalid.

Definition http_methods : list string := ["GET"; "POST"; "PUT"; "PATCH"; "DELETE"; "HEAD"; "OPTIONS"].

Definition validate_check (c : CheckPolicy) : option target_error :=
  let hp := ToLower (TrimSpace (HandshakeProfile c)) in
  guard_err (Timeout c <=? 0) ErrTimeout
  <||> guard_err (Interval c <=? 0) ErrInterval
  <||> guard_err (Retries c <? 0) ErrRetries
  <||> guard_err (negb (hp =s "") && negb (mem hp ["none"; "base"; "strict"])) ErrProfile
  <||> first_error (λ i m, guard_err (blank m) (ErrRequiredMethod i)) 0 (RequiredMethods c).

Definition validate_test (i : nat) (ht : HURLTest) : option target_error :=
  let hasFile := negb (blank (ht_File ht)) in
  let hasEndpoint := negb (blank (ht_Endpoint ht)) in
  let m := ToUpper (TrimSpace (ht_Method ht)) in
  guard_err (blank (ht_Name ht)) (ErrTestName i)
  <||> guard_err (negb hasFile && negb hasEndpoint) (ErrTestSource i)
  <||> guard_err (hasFile && hasEndpoint) (ErrTestBoth i)
  <||> guard_err (hasEndpoint && negb (valid_uri (ht_Endpoint ht))) (ErrTestEndpoint i)
  <||> guard_err (negb (m =s "") && negb (mem m http_methods)) (ErrTestMethod i).

Definition validate_auth (a : AuthConfig) : option target_error :=
  if (auth_Type a =s "") || (auth_Type a =s AuthNone) then None
  else if auth_Type a =s AuthBearer then guard_err (auth_SecretRef a =s "") ErrBearer
  else if auth_Type a =s AuthAPIKey then
    guard_err ((auth_KeyName a =s "") || (auth_SecretRef a =s "")) ErrAPIKey
  else if auth_Type a =s AuthOAuth then
    guard_err ((auth_ClientID a =s "") || (auth_TokenURL a =s "")) ErrOAuth
  else Some ErrAuthType.

Definition Validate (t : Target) : option target_error :=
  guard_err (blank (tgt_ID t)) ErrID
  <||> guard_err (tgt_Protocol t =s "") ErrProtocol
  <||> guard_err (tgt_Transport t =s "") ErrTransport
  <||> validate_transport t
  <||> validate_check (tgt_Check t)
  <||> first_error validate_test 0 (HURLTests (tgt_Check t))
  <||> validate_auth (tgt_Auth t).

(** ** Results of checks *)

Record Transition := mkTransition {
  From : HealthState;
  To : HealthState;
  At : Time;
  Reason : string;
}.

Record CheckResult := mkCheckResult {
  cr_TargetID : string;
  cr_Protocol : Protocol;
  cr_State : HealthState;
  cr_Severity : Severity;
  cr_FailureClass : FailureClass;
  cr_Message : string;
  cr_StatusCode : Z;
  cr_Latency : Duration;
  cr_CheckedAt : Time;
  cr_Attempt : Z;
  cr_Regression : bool;
  cr_PreviouslyOK : bool;
  cr_Capabilities : list string;
  cr_Transition : option Transition;
}.

Definition zeroResult : CheckResult := mkCheckResult "" "" "" "" "" "" 0 0 zeroTime 0 false false [] None.

Definition CheckResult_IsFailure (r : CheckResult) : bool :=
  mem (cr_State r) [StateUnhealthy; StateOutage; StateRegression].

Definition IsEscalated (r : CheckResult) : bool :=
  (cr_Severity r =s SeverityCritical) || (cr_State r =s StateRegression) || cr_Regression r.

(** ** What validation promises *)

Lemma guard_err_None {E} b (e : E) : guard_err b e = None ↔ b = false.
Proof. by destruct b. Qed.

Lemma orelse_None {E} (a b : option E) : a <||> b = None ↔ a = None ∧ b = None.
Proof. destruct a; naive_solver. Qed.

Lemma first_error_None {A E} (f : nat → A → option E) l i :
  first_error f i l = None ↔ ∀ j x, l !! j = Some x → f (i + j)%nat x = None.
Proof.
  revert i. induction l as [|x l IH]; intros i; cbn; [naive_solver|].
  rewrite orelse_None, IH. split.
  - intros [Hx Hl] [|j] y Hy; cbn in Hy.
    + injection Hy as <-. by rewrite Nat.add_0_r.
    + rewrite Nat.add_succ_r. apply (Hl j). done.
  - intros H. split; [rewrite <- (Nat.add_0_r i); by apply (H 0%nat)|].
    intros j y Hy. replace (S i + j)%nat with (i + S j)%nat by lia. by apply (H (S j)).
Qed.

(** A test that can be run: named, with exactly one source and a known method. *)
Definition runnable (ht : HURLTest) : Prop :=
  blank (ht_Name ht) = false ∧
  (blank (ht_File ht) = negb (blank (ht_Endpoint ht))) ∧
  (blank (ht_Endpoint ht) = false → is_Some (ParseRequestURI (ht_Endpoint ht))).

Lemma validate_test_runnable i ht : validate_test i ht = None → runnable ht.
Proof.
  unfold validate_test. rewrite !orelse_None, !guard_err_None. intros ([[[H1 H2] H3] H4] & _).
  split; [done|]. destruct (blank (ht_File ht)), (blank (ht_Endpoint ht)); try done.
  split; [done|]. intros _. cbn in H4.
  apply negb_false_iff, bool_decide_eq_true in H4. done.
Qed.
