(* ===== verification/Auth.v ===== *)
(** * Credentials ([internal/auth/provider.go])

    How a check gets its authentication headers: secret references resolved by a
    chain of resolvers, and the readiness test of OAuth settings. The environment
    variables, the files and the host's keyring tools are what a [Secrets] says
    they hold. Errors are kinds; their messages, which quote the reference, are
    left out. The mock redirect server is not modelled. *)

From Stdlib Require Import ZArith Lia Ascii.
From stdpp Require Import base tactics strings gmap.
From stdpp Require Import list.
From S2P Require Import Prelude Bytes Net Url Targets.

Open Scope Z_scope.

Inductive auth_error :=
  | ErrSecretNotFound
  | ErrSecretRefInvalid
  | ErrProviderUnsupported
  | ErrSecretIO                       (* any other error reading a secret *)
  | ErrJoined (errs : list auth_error)
  | ErrBearerRef | ErrAPIKeyRef | ErrOAuthSettings | ErrUnsupportedType
  | ErrOAuthValidation (why : string).

(** [errors.Is] against the three sentinels that let the chain go on. *)
Definition try_next (e : auth_error) : bool :=
  match e with
  | ErrSecretNotFound | ErrSecretRefInvalid | ErrProviderUnsupported => true
  | _ => false
  end.

(** ** Resolvers *)

(** A resolver answers a reference with a secret or an error. *)
Class SecretResolver (R : Type) := Resolve : R → string → string + auth_error.

Inductive file_content := Absent | Unreadable | Content (s : string).

Record Secrets := mkSecrets {
  environ : gmap string string;             (* os.LookupEnv *)
  read_file : string → file_content;        (* os.ReadFile *)
  keyring : string → string → option string; (* the host tool's output, None when it fails *)
  keyring_host : bool;                      (* macOS or Linux *)
}.

Definition resolve_env (s : Secrets) (ref : string) : string + auth_error :=
  if negb (HasPrefix ref "env://") then inr ErrProviderUnsupported
  else
    let key := TrimPrefix ref "env://" in
    if key =s "" then inr ErrSecretRefInvalid
    else
      match environ s !! key with
      | None => inr ErrSecretNotFound
      | Some v => if v =s "" then inr ErrSecretNotFound else inl v
      end.

Definition resolve_file (s : Secrets) (ref : string) : string + auth_error :=
  if negb (HasPrefix ref "file://") then inr ErrProviderUnsupported
  else
    let path := TrimPrefix ref "file://" in
    if path =s "" then inr ErrSecretRefInvalid
    else
      match read_file s path with
      | Absent => inr ErrSecretNotFound
      | Unreadable => inr ErrSecretIO
      | Content b => inl (TrimSpace b)
      end.

Definition parseKeyringRef (ref : string) : (string * string) + auth_error :=
  if negb (HasPrefix ref "keychain://") then inr ErrProviderUnsupported
  else
    match Split (TrimPrefix ref "keychain://") "/" with
    | [service; account] =>
        let service := TrimSpace service in
        let account := TrimSpace account in
        if (service =s "") || (account =s "") then inr ErrSecretRefInvalid else inl (service, account)
    | _ => inr ErrSecretRefInvalid
    end.

Definition resolve_keyring (s : Secrets) (ref : string) : string + auth_error :=
  match parseKeyringRef ref with
  | inr e => inr e
  | inl (service, account) =>
      if negb (keyring_host s) then inr ErrProviderUnsupported
      else
        match keyring s service account with
        | None => inr ErrSecretNotFound
        | Some out => if TrimSpace out =s "" then inr ErrSecretNotFound else inl (TrimSpace out)
        end
  end.

(** [ChainResolver.Resolve] *)
Fixpoint chain (rs : list (string → string + auth_error)) (errs : list auth_error) (ref : string)
  : string + auth_error :=
  match rs with
  | [] => match errs with [] => inr ErrSecretNotFound | _ => inr (ErrJoined errs) end
  | r :: rs =>
      match r ref with
      | inl v => inl v
      | inr e => if try_next e then chain rs (errs ++ [e]) ref else inr e
      end
  end.

Definition ChainResolver (s : Secrets) (ref : string) : string + auth_error :=
  chain [resolve_env s; resolve_file s; resolve_keyring s] [] ref.

#[export] Instance Secrets_resolver : SecretResolver Secrets := ChainResolver.

(** ** OAuth readiness ([DefaultOAuthValidator]) *)

Record OAuthValidationInput := mkOAuthInput {
  oin_ClientID : string;
  oin_TokenURL : string;
  oin_RedirectURL : string;
  oin_CallbackID : string;
  oin_Scopes : list string;
  oin_ClientSecret : string;
}.

Definition isLocalHTTPTokenURL (u : URL) : bool :=
  (url_Scheme u =s "http") && mem (ToLower (Hostname u)) ["127.0.0.1"; "localhost"; "::1"].

Definition secure_url (raw : string) : bool :=
  match Parse raw with
  | None => false
  | Some u => (url_Scheme u =s "https") || isLocalHTTPTokenURL u
  end.

(** Ready or not, or the error's text without its detail. *)
Definition oauth_Validate (i : OAuthValidationInput) : bool + string :=
  if blank (oin_ClientID i) then inr "client_id is required"
  else if blank (oin_TokenURL i) then inr "token_url is required"
  else if negb (secure_url (oin_TokenURL i)) then inr "token_url must use https"
  else if blank (oin_RedirectURL i) then inr "redirect_url is required"
  else if negb (secure_url (oin_RedirectURL i)) then inr "redirect_url must use https"
  else if blank (oin_CallbackID i) then inr "callback_id is required"
  else if oin_ClientSecret i =s "" then inl false
  else inl true.

(** ** Headers *)

Abbreviation Headers := (gmap string string).

Section Manager.
Context {R : Type} `{SecretResolver R}.

Definition bearer_headers (cfg : AuthConfig) (secret : string) : Headers :=
  let h := if auth_Header cfg =s "" then "Authorization" else auth_Header cfg in
  if HasPrefix (ToLower (TrimSpace secret)) "bearer " then {[h := secret]}
  else {[h := "Bearer " +:+ secret]}.

Definition oauth_headers (secrets : R) (cfg : AuthConfig) : Headers + auth_error :=
  if (auth_ClientID cfg =s "") || (auth_TokenURL cfg =s "") || (auth_RedirectURL cfg =s "")
     || (auth_CallbackID cfg =s "") then inr ErrOAuthSettings
  else
    let validate clientSecret :=
      match oauth_Validate (mkOAuthInput (auth_ClientID cfg) (auth_TokenURL cfg)
              (auth_RedirectURL cfg) (auth_CallbackID cfg) (auth_Scopes cfg) clientSecret) with
      | inr why => inr (ErrOAuthValidation why)
      | inl false => inr (ErrOAuthValidation "missing client secret")
      | inl true => inl ∅
      end in
    if auth_SecretRef cfg =s "" then validate ""
    else
      match Resolve secrets (auth_SecretRef cfg) with
      | inr e => inr e
      | inl secret => validate secret
      end.

Definition BuildHeaders (secrets : R) (cfg : AuthConfig) : Headers + auth_error :=
  if (auth_Type cfg =s "") || (auth_Type cfg =s AuthNone) then inl ∅
  else if auth_Type cfg =s AuthBearer then
    if auth_SecretRef cfg =s "" then inr ErrBearerRef
    else
      match Resolve secrets (auth_SecretRef cfg) with
      | inr e => inr e
      | inl secret => inl (bearer_headers cfg secret)
      end
  else if auth_Type cfg =s AuthAPIKey then
    if (auth_SecretRef cfg =s "") || (auth_KeyName cfg =s "") then inr ErrAPIKeyRef
    else
      match Resolve secrets (auth_SecretRef cfg) with
      | inr e => inr e
      | inl secret => inl {[auth_KeyName cfg := secret]}
      end
  else if auth_Type cfg =s AuthOAuth then oauth_headers secrets cfg
  else inr ErrUnsupportedType.
End Manager.

(** ** Properties *)

Lemma TrimPrefix_app p r : TrimPrefix (p +:+ r) p = r.
Proof. unfold TrimPrefix. rewrite HasPrefix_app. by rewrite sdrop_app. Qed.

Lemma sapp_inv_head (p a b : string) : p +:+ a = p +:+ b → a = b.
Proof. intros H. by apply sapp_inj_length in H as [_ ?]. Qed.

Lemma resolve_env_spec s ref v :
  resolve_env s ref = inl v ↔
  ∃ k, ref = "env://" +:+ k ∧ k ≠ "" ∧ environ s !! k = Some v ∧ v ≠ "".
Proof.
  unfold resolve_env. destruct (HasPrefix ref "env://") eqn:Hp; cbn.
  - apply HasPrefix_spec in Hp as (k & ->). rewrite TrimPrefix_app.
    destruct (k =s "") eqn:Hk; [apply streq_true in Hk|apply streq_false in Hk].
    { split; [done|]. intros (k' & <-%sapp_inv_head & ? & _). done. }
    destruct (environ s !! k) as [w|] eqn:He; [|naive_solver].
    destruct (w =s "") eqn:Hw; [apply streq_true in Hw|apply streq_false in Hw].
    { split; [done|]. intros (k' & <-%sapp_inv_head & _ & ? & ?). naive_solver. }
    split; [intros [= <-]; by exists k|]. intros (k' & <-%sapp_inv_head & _ & ? & _). congruence.
  - split; [done|]. intros (k & -> & _). by rewrite HasPrefix_app in Hp.
Qed.

Lemma resolve_file_spec s ref v :
  resolve_file s ref = inl v ↔
  ∃ p c, ref = "file://" +:+ p ∧ p ≠ "" ∧ read_file s p = Content c ∧ v = TrimSpace c.
Proof.
  unfold resolve_file. destruct (HasPrefix ref "file://") eqn:Hp; cbn.
  - apply HasPrefix_spec in Hp as (k & ->). rewrite TrimPrefix_app.
    destruct (k =s "") eqn:Hk; [apply streq_true in Hk|apply streq_false in Hk].
    { split; [done|]. intros (k' & c & <-%sapp_inv_head & ? & _). done. }
    destruct (read_file s k) as [| |c] eqn:He.
    1,2: split; [done|]; intros (k' & c & <-%sapp_inv_head & _ & ? & _); congruence.
    split; [intros [= <-]; by exists k, c|]. intros (k' & c' & <-%sapp_inv_head & _ & ? & ->). congruence.
  - split; [done|]. intros (k & c & -> & _). by rewrite HasPrefix_app in Hp.
Qed.

Lemma resolve_keyring_spec s ref v :
  resolve_keyring s ref = inl v ↔
  ∃ service account out, parseKeyringRef ref = inl (service, account) ∧ keyring_host s = true ∧
    keyring s service account = Some out ∧ v = TrimSpace out ∧ v ≠ "".
Proof.
  unfold resolve_keyring. destruct (parseKeyringRef ref) as [[sv ac]|e]; [|naive_solver].
  destruct (keyring_host s); cbn; [|naive_solver].
  destruct (keyring s sv ac) as [out|] eqn:Hk; [|naive_solver].
  destruct (TrimSpace out =s "") eqn:Ho; [apply streq_true in Ho|apply streq_false in Ho]; naive_solver.
Qed.

(** A resolver that refuses because the reference is not its own, or finds
    nothing, lets the chain go on; what the chain finds is what one of them found. *)
Lemma chain_found rs errs ref v :
  chain rs errs ref = inl v → ∃ r, r ∈ rs ∧ r ref = inl v.
Proof.
  revert errs. induction rs as [|r rs IH]; intros errs; cbn; [by destruct errs|].
  destruct (r ref) as [w|e] eqn:Hr; [intros [= ->]; exists r; split; [by left|done]|].
  destruct (try_next e); [|done]. intros (r' & ? & ?)%IH. exists r'. split; [by right|done].
Qed.

Lemma chain_reaches before r after errs ref v :
  Forall (λ r', ∃ e, r' ref = inr e ∧ try_next e = true) before → r ref = inl v →
  chain (before ++ r :: after) errs ref = inl v.
Proof.
  intros Hb Hr. revert errs. induction Hb as [|r' b (e & He & Ht) _ IH]; intros errs; cbn.
  - by rewrite Hr.
  - by rewrite He, Ht.
Qed.

(** A reference is answered with what its scheme names and nothing else: an
    environment variable that is set and not empty, the trimmed content of a file,
    or what the host's keyring holds for the service and the account. *)
Theorem ChainResolver_spec (s : Secrets) (ref v : string) :
  ChainResolver s ref = inl v ↔
  (∃ k, ref = "env://" +:+ k ∧ k ≠ "" ∧ environ s !! k = Some v ∧ v ≠ "") ∨
  (∃ p c, ref = "file://" +:+ p ∧ p ≠ "" ∧ read_file s p = Content c ∧ v = TrimSpace c) ∨
  (∃ service account out, parseKeyringRef ref = inl (service, account) ∧ keyring_host s = true ∧
    keyring s service account = Some out ∧ v = TrimSpace out ∧ v ≠ "").
Proof.
  rewrite <- resolve_env_spec, <- resolve_file_spec, <- resolve_keyring_spec. split.
  - intros (r & Hin & Hr)%chain_found. set_unfold. destruct Hin as [->|[->|[->|[]]]]; auto.
  - intros [H|[H|H]].
    + by apply (chain_reaches [] (resolve_env s)).
    + apply (chain_reaches [resolve_env s] (resolve_file s)); [|done].
      pose proof H as (p & c & -> & _)%resolve_file_spec. constructor; [by eexists|done].
    + apply (chain_reaches [resolve_env s; resolve_file s] (resolve_keyring s) []); [|done].
      pose proof H as (sv & ac & o & Hp & _)%resolve_keyring_spec. unfold parseKeyringRef in Hp.
      destruct (HasPrefix ref "keychain://") eqn:Hk; [|done].
      apply HasPrefix_spec in Hk as (r & ->). repeat constructor; by eexists.
Qed.

(** An environment variable or a keyring entry that is empty is no secret; an
    empty file is, and a bearer header without a token is sent. *)
Example empty_file_secret :
  let s := mkSecrets {["K" := ""]} (λ _, Content " ") (λ _ _, None) true in
  let cfg ref := mkAuthConfig AuthBearer "" "" ref "" "" "" "" [] "" in
  BuildHeaders s (cfg "env://K") = inr (ErrJoined [ErrSecretNotFound; ErrProviderUnsupported; ErrProviderUnsupported]) ∧
  BuildHeaders s (cfg "file://f") = inl {["Authorization" := "Bearer "]}.
Proof. by split; vm_compute. Qed.
