(* ===== verification/Hurl.v ===== *)
(** * The HURL runner ([pkg/hurl/hurl.go])

    The execution core of preflight checks. A run asks the outside world, per
    test, whether the context is done and what the command answers; both are in a
    [Host]. Results carry the instants the code reads from the clock. *)

From Stdlib Require Import ZArith Lia Ascii.
From stdpp Require Import base tactics strings gmap sorting.
From stdpp Require Import list.
From S2P Require Import Prelude Targets.

Open Scope Z_scope.

Inductive Outcome := OutcomePass | OutcomeFail | OutcomeSkip.

#[global] Instance Outcome_eq_dec : EqDecision Outcome.
Proof. solve_decision. Defined.

Record Test := mkTest { test_Name : string; test_File : string; test_Endpoint : string; test_Method : string }.

Record Result := mkResult {
  res_ID : string;
  res_TestName : string;
  res_Outcome : Outcome;
  res_FailureClass : FailureClass;
  res_Message : string;
  res_Duration : Duration;
  res_StartedAt : Time;
  res_FinishedAt : Time;
}.

Record Report := mkReport {
  rep_ID : string;
  rep_StartedAt : Time;
  rep_FinishedAt : Time;
  Passed : Z;
  Failed : Z;
  Skipped : Z;
  HasBlocking : bool;
  Results : list Result;
  AnyTestsSeen : bool;
}.

(** What a command left: its two streams, and the error's text if it failed. *)
Record cmd_result := mkCmd { stdout : string; stderr : string; cmd_err : option string }.

(** The world as the [i]-th test of a run finds it. *)
Record Host := mkHost {
  ctx_done : nat → bool;
  exec : nat → string → list string → cmd_result;
}.

(** ** Arguments and failure classes *)

Definition merged_vars (t : Test) (vars : gmap string string) : gmap string string :=
  let merged := filter (λ kv, blank kv.1 = false) vars in
  let endpoint := TrimSpace (test_Endpoint t) in
  if endpoint =s "" then merged
  else if bool_decide (is_Some (merged !! "TEST_ENDPOINT")) then merged
  else <["TEST_ENDPOINT" := endpoint]> merged.

Definition variableArgs (t : Test) (vars : gmap string string) : list string :=
  let merged := merged_vars t vars in
  map (λ k, k +:+ "=" +:+ default "" (merged !! k)) (sort_strings (map_to_list merged).*1).

Definition contains_any (s : string) (subs : list string) : bool := existsb (Contains s) subs.

Definition classifyCmdFailure (msg : string) : FailureClass :=
  let lmsg := ToLower msg in
  if contains_any lmsg ["not found"; "executable file not found"] then FailureConfig
  else if contains_any lmsg ["timed out"; "timeout"] then FailureTimeout
  else if contains_any lmsg ["tls"; "x509"] then FailureTLS
  else if contains_any lmsg ["unauthorized"; "forbidden"] then FailureAuth
  else if contains_any lmsg ["connection refused"; "network"] then FailureNetwork
  else FailureUnknown.

Definition compactOutput (stdout stderr : string) : string :=
  Join (filter (λ s, s ≠ "") [TrimSpace stdout; TrimSpace stderr]) " | ".

(** ** Running *)

Section Runner.
Context {S : Type} (host : Host) (binary : string).

Definition stamp (res : Result) : M S Result :=
  now ← clock;
  mret {| res with res_FinishedAt := now; res_Duration := TimeSub now (res_StartedAt res) |}.

Definition variable_flags (args : list string) : list string := args ≫= λ kv, ["--variable"; kv].

Definition runOne (i : nat) (id : string) (t : Test) (vars : gmap string string) : M S Result :=
  start ← clock;
  let res o c m := mkResult id (test_Name t) o c m 0 start zeroTime in
  if ctx_done host i then
    stamp (res OutcomeSkip FailureUnknown "context canceled before test execution")
  else
    let file := TrimSpace (test_File t) in
    if file =s "" then stamp (res OutcomeFail FailureConfig "no hurl file configured for test")
    else
      let args := ["--test"; file] ++ variable_flags (variableArgs t vars) in
      let cmd := exec host i binary args in
      match cmd_err cmd with
      | Some err =>
          let msg := compactOutput (stdout cmd) (stderr cmd) in
          let msg := if msg =s "" then err else msg in
          stamp (res OutcomeFail (classifyCmdFailure msg) ("hurl file test failed: " +:+ msg))
      | None => stamp (res OutcomePass FailureNone "hurl file test passed")
      end.

(** A result is counted in the report. *)
Definition count_result (rep : Report) (r : Result) : Report :=
  let rep := {| rep with Results := Results rep ++ [r] |} in
  match res_Outcome r with
  | OutcomePass => {| rep with Passed := Passed rep + 1 |}
  | OutcomeFail => {| rep with Failed := Failed rep + 1; HasBlocking := true |}
  | OutcomeSkip => {| rep with Skipped := Skipped rep + 1 |}
  end.

Fixpoint run_tests (i : nat) (id : string) (tests : list Test) (vars : gmap string string) (rep : Report)
  : M S Report :=
  match tests with
  | [] => mret rep
  | t :: ts => r ← runOne i id t vars; run_tests (i + 1)%nat id ts vars (count_result rep r)
  end.

(** [Executor.Run], which never returns an error. *)
Definition Executor_Run (id : string) (tests : list Test) (vars : gmap string string) : M S Report :=
  start ← clock;
  let report := mkReport id start zeroTime 0 0 0 false [] false in
  match tests with
  | [] => now ← clock; mret {| report with rep_FinishedAt := now |}
  | _ =>
      report ← run_tests 0 id tests vars {| report with AnyTestsSeen := true |};
      now ← clock;
      mret {| report with rep_FinishedAt := now |}
  end.
End Runner.

(** [New(opts...)]: a blank binary name keeps the default. *)
Definition WithBinary (bin binary : string) : string := if blank bin then binary else TrimSpace bin.
Definition default_binary : string := "hurl".

(** [Run], with whether it answers [ErrNothingRan]. *)
Definition Run {S : Type} (host : Host) (id : string) (tests : list Test) (vars : gmap string string)
  : M S (Report * bool) :=
  report ← Executor_Run host default_binary id tests vars;
  mret (report, Passed report + Failed report =? 0).

(** ** The counts of a report *)

Definition outcomes (o : Outcome) (rs : list Result) : Z :=
  Z.of_nat (length (filter (λ r, res_Outcome r = o) rs)).

Record report_ok (rep : Report) : Prop := {
  ro_passed : Passed rep = outcomes OutcomePass (Results rep);
  ro_failed : Failed rep = outcomes OutcomeFail (Results rep);
  ro_skipped : Skipped rep = outcomes OutcomeSkip (Results rep);
  ro_blocking : HasBlocking rep = (0 <? outcomes OutcomeFail (Results rep));
}.

Lemma outcomes_snoc o rs r :
  outcomes o (rs ++ [r]) = outcomes o rs + (if decide (res_Outcome r = o) then 1 else 0).
Proof.
  unfold outcomes. rewrite filter_app, length_app, filter_cons. cbn [filter list_filter].
  destruct (decide _); cbn [length]; lia.
Qed.

Lemma outcomes_nonneg o rs : 0 ≤ outcomes o rs.
Proof. unfold outcomes. lia. Qed.

Lemma outcomes_pos o rs : 0 < outcomes o rs ↔ ∃ r, r ∈ rs ∧ res_Outcome r = o.
Proof.
  induction rs as [|r rs IH] using rev_ind.
  { split; [done|]. intros (r & Hr & _). by apply not_elem_of_nil in Hr. }
  rewrite outcomes_snoc. pose proof (outcomes_nonneg o rs).
  setoid_rewrite elem_of_app. setoid_rewrite list_elem_of_singleton.
  destruct (decide _) as [Hr|Hr]; [split; [intros _; exists r; by split; [right|]|lia]|].
  rewrite Z.add_0_r, IH. naive_solver.
Qed.

Lemma count_result_ok rep r : report_ok rep → report_ok (count_result rep r).
Proof.
  intros [H1 H2 H3 H4]. pose proof (outcomes_nonneg OutcomeFail (Results rep)).
  unfold count_result; destruct (res_Outcome r) eqn:Er; split; cbn;
    rewrite ?outcomes_snoc, ?Er, ?H4; repeat destruct (decide _); try done; try lia.
  all: by rewrite Z.add_0_r.
Qed.

Lemma count_result_Results rep r :
  Results (count_result rep r) = Results rep ++ [r] ∧
  AnyTestsSeen (count_result rep r) = AnyTestsSeen rep.
Proof. unfold count_result. by destruct (res_Outcome r). Qed.

(** ** What a run reports *)

Section Spec.
Context {S : Type} (host : Host) (binary : string).

(** How the [i]-th test of a run ends. *)
Definition outcome_of (vars : gmap string string) (i : nat) (t : Test) : Outcome :=
  if ctx_done host i then OutcomeSkip
  else if blank (test_File t) then OutcomeFail
  else
    match cmd_err (exec host i binary
      (["--test"; TrimSpace (test_File t)] ++ variable_flags (variableArgs t vars))) with
    | Some _ => OutcomeFail
    | None => OutcomePass
    end.

Lemma wp_runOne i id t vars env tick (s : S) Q :
  (∀ r tick', res_Outcome r = outcome_of vars i t → res_TestName r = test_Name t → Q r tick' s) →
  wp (runOne host binary i id t vars) env tick s Q.
Proof.
  intros HQ. unfold runOne. wp_go. unfold outcome_of in HQ. fold (blank (test_File t)).
  unfold streq. fold (blank (test_File t)).
  destruct (ctx_done host i); [by apply HQ|]. destruct (blank (test_File t)); [by apply HQ|].
  cbv zeta. destruct (cmd_err _); by apply HQ.
Qed.

Lemma wp_run_tests i id tests vars rep env tick (s : S) Q :
  report_ok rep →
  (∀ rep' rs tick', report_ok rep' → AnyTestsSeen rep' = AnyTestsSeen rep →
     Results rep' = Results rep ++ rs →
     map (λ r, (res_TestName r, res_Outcome r)) rs =
       imap (λ j t, (test_Name t, outcome_of vars (i + j)%nat t)) tests →
     Q rep' tick' s) →
  wp (run_tests host binary i id tests vars rep) env tick s Q.
Proof.
  revert i rep tick. induction tests as [|t ts IH]; intros i rep tick Hok HQ.
  { cbn. apply (HQ rep []); [done|done| |done]. by rewrite app_nil_r. }
  cbn [run_tests]. rewrite wp_bind. apply wp_runOne. intros r t1 Ho Hn.
  destruct (count_result_Results rep r) as [Hr Ha].
  apply IH; [by apply count_result_ok|]. intros rep' rs t2 Hok' Ha' Hrs Hmap.
  apply (HQ rep' (r :: rs)); [done|congruence|by rewrite Hrs, Hr, <- app_assoc|].
  cbn. rewrite Ho, Hn, Nat.add_0_r, Hmap. f_equal. apply imap_ext. intros j x _. cbn.
  do 2 f_equal. lia.
Qed.

Lemma wp_Executor_Run id tests vars env tick (s : S) Q :
  (∀ rep tick', report_ok rep → AnyTestsSeen rep = negb (bool_decide (tests = [])) →
     map (λ r, (res_TestName r, res_Outcome r)) (Results rep) =
       imap (λ j t, (test_Name t, outcome_of vars j t)) tests →
     Q rep tick' s) →
  wp (Executor_Run host binary id tests vars) env tick s Q.
Proof.
  intros HQ. unfold Executor_Run. wp_go. destruct tests as [|t ts]; wp_go; [by apply HQ|].
  apply wp_run_tests; [done|]. intros rep rs t1 Hok Ha Hrs Hmap. wp_go.
  apply HQ; [by destruct Hok; split|done|]. cbn. by rewrite Hrs.
Qed.

(** The outcomes of the results are those of the tests. *)
Lemma outcome_results vars tests rs o :
  map (λ r, (res_TestName r, res_Outcome r)) rs =
    imap (λ j t, (test_Name t, outcome_of vars j t)) tests →
  (∃ r, r ∈ rs ∧ res_Outcome r = o) ↔
  (∃ i t, tests !! i = Some t ∧ outcome_of vars i t = o).
Proof.
  intros Hm. split.
  - intros (r & Hr & <-). apply list_elem_of_lookup in Hr as (i & Hi).
    assert (map (λ r, (res_TestName r, res_Outcome r)) rs !! i = Some (res_TestName r, res_Outcome r)) as H
      by by rewrite list_lookup_fmap, Hi.
    rewrite Hm, list_lookup_imap in H. destruct (tests !! i) as [t|] eqn:Ht; [|done].
    injection H as _ Ho. by exists i, t.
  - intros (i & t & Ht & <-).
    assert (imap (λ j t, (test_Name t, outcome_of vars j t)) tests !! i =
      Some (test_Name t, outcome_of vars i t)) as H by by rewrite list_lookup_imap, Ht.
    rewrite <- Hm, list_lookup_fmap in H. destruct (rs !! i) as [r|] eqn:Hr; [|done].
    injection H as _ Ho. exists r. split; [by eapply list_elem_of_lookup_2|done].
Qed.

Lemma outcome_of_Skip vars i t : outcome_of vars i t = OutcomeSkip ↔ ctx_done host i = true.
Proof. unfold outcome_of. repeat case_match; naive_solver. Qed.

Lemma outcome_of_Fail vars i t :
  outcome_of vars i t = OutcomeFail ↔
  ctx_done host i = false ∧ (blank (test_File t) = true ∨ is_Some (cmd_err (exec host i binary
    (["--test"; TrimSpace (test_File t)] ++ variable_flags (variableArgs t vars))))).
Proof.
  unfold outcome_of. destruct (ctx_done host i); [naive_solver|].
  destruct (blank (test_File t)); [naive_solver|].
  destruct (cmd_err _); [naive_solver|]. split; [done|]. by intros (_ & [?|[? ?]]).
Qed.
End Spec.

(** C19: a preflight fails closed. [Run] answers that nothing ran exactly when the
    context was done before every test, and its report blocks exactly when some
    test was attempted and had no file or its command failed; the report holds
    one result per test, in order, and its counts are those of the results. *)
Theorem Run_fails_closed {S : Type} (host : Host) (id : string) (tests : list Test)
  (vars : gmap string string) (env : Env) (tick : nat) (s : S) :
  let '(rep, nothingRan) := result (Run host id tests vars) env tick s in
  (nothingRan = true ↔ ∀ i, (i < length tests)%nat → ctx_done host i = true) ∧
  (HasBlocking rep = true ↔
    ∃ i t, tests !! i = Some t ∧ ctx_done host i = false ∧
      (blank (test_File t) = true ∨ is_Some (cmd_err (exec host i "hurl"
        (["--test"; TrimSpace (test_File t)] ++ variable_flags (variableArgs t vars)))))) ∧
  map res_TestName (Results rep) = map test_Name tests ∧ report_ok rep.
Proof.
  enough (wp (Run host id tests vars) env tick s (λ r _ _,
    report_ok r.1 ∧ r.2 = (Passed r.1 + Failed r.1 =? 0) ∧
    map (λ r, (res_TestName r, res_Outcome r)) (Results r.1) =
      imap (λ j t, (test_Name t, outcome_of host "hurl" vars j t)) tests)) as H.
  { rewrite wp_run in H. destruct (result _ _ _ _) as [rep nothing]. cbn in H.
    destruct H as (Hok & -> & Hmap). pose proof Hok as [Hp Hf _ Hb].
    assert (∀ o, 0 < outcomes o (Results rep) ↔
      ∃ i t, tests !! i = Some t ∧ outcome_of host "hurl" vars i t = o) as Ho.
    { intros o. by rewrite outcomes_pos, <- (outcome_results _ _ _ _ _ _ Hmap). }
    pose proof (outcomes_nonneg OutcomeFail (Results rep)).
    pose proof (outcomes_nonneg OutcomePass (Results rep)).
    rewrite Hp, Hf, Hb, Z.eqb_eq, Z.ltb_lt. split_and!; [| | |done].
    - split.
      + intros Hz i Hi. apply lookup_lt_is_Some in Hi as (t & Ht).
        apply (outcome_of_Skip host "hurl" vars i t).
        destruct (outcome_of host "hurl" vars i t) eqn:E; [| |done]; exfalso.
        * enough (0 < outcomes OutcomePass (Results rep)) by lia. apply Ho. by exists i, t.
        * enough (0 < outcomes OutcomeFail (Results rep)) by lia. apply Ho. by exists i, t.
      + intros Hd. apply Z.le_antisymm; [|lia]. apply Z.nlt_ge. intros Hlt.
        assert (∃ o, o ≠ OutcomeSkip ∧ 0 < outcomes o (Results rep)) as (o & Hs & Hpos).
        { destruct (decide (0 < outcomes OutcomePass (Results rep))); [by exists OutcomePass|].
          exists OutcomeFail. split; [done|lia]. }
        apply Ho in Hpos as (i & t & Ht & E). pose proof (lookup_lt_Some _ _ _ Ht) as Hi.
        apply Hd, (outcome_of_Skip host "hurl" vars i t) in Hi. congruence.
    - rewrite Ho. by setoid_rewrite (outcome_of_Fail host "hurl" vars).
    - apply (f_equal (map fst)) in Hmap. rewrite map_map in Hmap.
      etransitivity; [exact Hmap|]. apply list_eq. intros i. rewrite list_lookup_fmap, list_lookup_imap, list_lookup_fmap.
      by destruct (tests !! i). }
  unfold Run. rewrite wp_bind. apply wp_Executor_Run. intros rep t' Hok _ Hmap. by wp_go.
Qed.
