(* ===== verification/Safety.v ===== *)
(** * The pre-protocol safety scanner ([internal/safety/hurl.go])

    The scanner keeps the HURL tests registered per target and runs them before a
    target is probed: a file is run by the [Hurl] executor, an endpoint is called
    over HTTP. What the outside world answers is a [SafetyHost]. *)

From Stdlib Require Import ZArith Lia Ascii.
From stdpp Require Import base tactics strings gmap.
From stdpp Require Import list.
From S2P Require Import Prelude Bytes Net Url Targets Hurl.

Open Scope Z_scope.

Definition Stage : string := "pre_protocol_hurl".

Record SafetyResult := mkSafetyResult {
  sf_TargetID : string;
  sf_TestName : string;
  sf_Outcome : Outcome;
  sf_FailureClass : FailureClass;
  sf_StatusCode : Z;
  sf_Message : string;
  sf_Duration : Duration;
  sf_StartedAt : Time;
  sf_FinishedAt : Time;
}.

Record SafetyReport := mkSafetyReport {
  sr_TargetID : string;
  sr_StartedAt : Time;
  sr_FinishedAt : Time;
  sr_Passed : Z;
  sr_Failed : Z;
  sr_Skipped : Z;
  sr_HasBlocking : bool;
  sr_Results : list SafetyResult;
  sr_AnyTestsSeen : bool;
}.

(** A response's status code, or the text of the error of [http.Client.Do]. *)
Inductive http_answer := Answered (status : Z) | CallFailed (err : string).

(** The world as the [i]-th test of a scan finds it: whether the context is done
    before the test, the host of the command runner ([None] when the scanner has
    no runner) and the HTTP client. *)
Record SafetyHost := mkSafetyHost {
  sh_done : nat → bool;
  sh_runner : option (nat → Host);
  sh_http : nat → string → string → HURLTest → http_answer;  (* method, endpoint *)
}.

Record Scanner := mkScanner {
  registered : gmap string (list HURLTest);
  hurlBin : string;
}.

Definition NewScanner : Scanner := mkScanner ∅ "hurl".
Definition WithHURLBinary (bin : string) (s : Scanner) : Scanner :=
  if blank bin then s else {| s with hurlBin := TrimSpace bin |}.

(** ** Registration *)

Definition validateHURLTest (i : nat) (ht : HURLTest) : option target_error :=
  let hasFile := negb (blank (ht_File ht)) in
  let hasEndpoint := negb (blank (ht_Endpoint ht)) in
  let m := ToUpper (TrimSpace (ht_Method ht)) in
  guard_err (blank (ht_Name ht)) (ErrTestName i)
  <||> guard_err (negb hasFile && negb hasEndpoint) (ErrTestSource i)
  <||> guard_err (hasFile && hasEndpoint) (ErrTestBoth i)
  <||> guard_err (negb (m =s "") && negb (mem m http_methods)) (ErrTestMethod i).

Definition validateHURLTests (tests : list HURLTest) : option target_error :=
  first_error validateHURLTest 0 tests.

Definition Register (targetID : string) (tests : list HURLTest) : M Scanner (option target_error) :=
  if blank targetID then mret (Some ErrID)
  else
    match validateHURLTests tests with
    | Some e => mret (Some e)
    | None =>
        _ ← modify (λ s, {| s with registered := <[targetID := tests]> (registered s) |});
        mret None
    end.

Definition RegisterTarget (t : Target) : M Scanner (option target_error) :=
  Register (tgt_ID t) (HURLTests (tgt_Check t)).

Definition Unregister (targetID : string) : M Scanner unit :=
  modify (λ s, {| s with registered := delete targetID (registered s) |}).

Definition getTests (s : Scanner) (targetID : string) : list HURLTest :=
  default [] (registered s !! targetID).

Definition HasRegistered (s : Scanner) (targetID : string) : bool :=
  negb (bool_decide (getTests s targetID = [])).

(** ** Execution *)

Definition classifyHTTPError (err : string) : FailureClass :=
  let msg := ToLower err in
  if Contains msg "timeout" then FailureTimeout
  else if contains_any msg ["tls"; "x509"] then FailureTLS
  else if contains_any msg ["connection refused"; "no such host"; "dial tcp"] then FailureNetwork
  else FailureUnknown.

(** The test of [http.NewRequest] on a method name. *)
Definition valid_method (m : string) : bool :=
  negb (m =s "") && all_bytes (λ c, is_letter c || is_dec c || one_of "!#$%&'*+-.^_`|~" c) m.

Section Scan.
Context (host : SafetyHost).

Definition mk (t : Target) (ht : HURLTest) (o : Outcome) (c : FailureClass) (status : Z) (msg : string)
  : SafetyResult :=
  mkSafetyResult (tgt_ID t) (ht_Name ht) o c status msg 0 zeroTime zeroTime.

Definition endpoint_vars (t : Target) : gmap string string :=
  if blank (tgt_Endpoint t) then ∅ else {["ENDPOINT" := TrimSpace (tgt_Endpoint t)]}.

(** The executor's report is read as the code reads it: its first result. *)
Definition runHURLFile (i : nat) (t : Target) (ht : HURLTest) : M Scanner SafetyResult :=
  match sh_runner host with
  | None => mret (mk t ht OutcomeSkip FailureConfig 0 "no command runner configured for hurl file test")
  | Some runner =>
      s ← get;
      report ← Executor_Run (runner i) (WithBinary (hurlBin s) default_binary) (tgt_ID t)
        [mkTest (ht_Name ht) (ht_File ht) (ht_Endpoint ht) ""] (endpoint_vars t);
      match Results report with
      | [] => mret (mk t ht OutcomeFail FailureConfig 0 "hurl file test could not be run")
      | r :: _ => mret (mk t ht (res_Outcome r) (res_FailureClass r) 0 (res_Message r))
      end
  end.

Definition runEndpointHTTP (i : nat) (t : Target) (ht : HURLTest) : SafetyResult :=
  let endpoint := if blank (ht_Endpoint ht) then TrimSpace (tgt_Endpoint t) else TrimSpace (ht_Endpoint ht) in
  if endpoint =s "" then
    mk t ht OutcomeFail FailureConfig 0 "no endpoint available for endpoint-based hurl test"
  else
    let method := if blank (ht_Method ht) then "GET" else ToUpper (TrimSpace (ht_Method ht)) in
    if negb (valid_method method) || bool_decide (Parse endpoint = None) then
      mk t ht OutcomeFail FailureConfig 0 "invalid endpoint request"
    else
      match sh_http host i method endpoint ht with
      | CallFailed err =>
          mk t ht OutcomeFail (classifyHTTPError err) 0 ("endpoint safety check failed: " +:+ err)
      | Answered status =>
          if (status <? 200) || (status >=? 400) then
            mk t ht OutcomeFail FailureProtocol status
              ("endpoint safety check returned status " +:+ Itoa status)
          else mk t ht OutcomePass FailureNone status "endpoint safety check passed"
      end.

Definition runSingle (i : nat) (t : Target) (ht : HURLTest) : M Scanner SafetyResult :=
  start ← clock;
  res ← (if blank (ht_File ht) then mret (runEndpointHTTP i t ht) else runHURLFile i t ht);
  now ← clock;
  mret {| res with sf_StartedAt := start; sf_FinishedAt := now; sf_Duration := TimeSub now start |}.

Definition add_result (rep : SafetyReport) (r : SafetyResult) : SafetyReport :=
  let rep := {| rep with sr_Results := sr_Results rep ++ [r] |} in
  match sf_Outcome r with
  | OutcomePass => {| rep with sr_Passed := sr_Passed rep + 1 |}
  | OutcomeFail => {| rep with sr_Failed := sr_Failed rep + 1; sr_HasBlocking := true |}
  | OutcomeSkip => {| rep with sr_Skipped := sr_Skipped rep + 1 |}
  end.

Fixpoint scan_tests (i : nat) (t : Target) (tests : list HURLTest) (rep : SafetyReport)
  : M Scanner SafetyReport :=
  match tests with
  | [] => mret rep
  | ht :: rest =>
      if sh_done host i then
        started ← clock;
        finished ← clock;
        let r := mkSafetyResult (tgt_ID t) (ht_Name ht) OutcomeSkip FailureUnknown 0
          "context canceled before test execution" 0 started finished in
        scan_tests (i + 1)%nat t rest (add_result rep r)
      else
        r ← runSingle i t ht;
        scan_tests (i + 1)%nat t rest (add_result rep r)
  end.

Definition RunTarget (t : Target) : M Scanner SafetyReport :=
  start ← clock;
  s ← get;
  let report := mkSafetyReport (tgt_ID t) start zeroTime 0 0 0 false [] false in
  match getTests s (tgt_ID t) with
  | [] => now ← clock; mret {| report with sr_FinishedAt := now |}
  | tests =>
      report ← scan_tests 0 t tests {| report with sr_AnyTestsSeen := true |};
      now ← clock;
      mret {| report with sr_FinishedAt := now |}
  end.
End Scan.

(** ** Properties *)

(** A validated target's tests pass the scanner's own, weaker, validation. *)
Lemma validateHURLTests_weaker tests :
  first_error validate_test 0 tests = None → validateHURLTests tests = None.
Proof.
  unfold validateHURLTests. rewrite !first_error_None. intros H j x Hx.
  specialize (H j x Hx). unfold validate_test in H. unfold validateHURLTest.
  rewrite !orelse_None in H. rewrite !orelse_None. tauto.
Qed.

(** How the [i]-th test of a scan ends. *)
Definition scan_outcome (host : SafetyHost) (bin : string) (i : nat) (t : Target) (ht : HURLTest) : Outcome :=
  if sh_done host i then OutcomeSkip
  else if blank (ht_File ht) then sf_Outcome (runEndpointHTTP host i t ht)
  else
    match sh_runner host with
    | None => OutcomeSkip
    | Some runner => outcome_of (runner i) (WithBinary bin default_binary) (endpoint_vars t) 0
                       (mkTest (ht_Name ht) (ht_File ht) (ht_Endpoint ht) "")
    end.

Lemma wp_runSingle host i t ht env tick s Q :
  sh_done host i = false →
  (∀ r tick', sf_Outcome r = scan_outcome host (hurlBin s) i t ht → sf_TestName r = ht_Name ht →
     Q r tick' s) →
  wp (runSingle host i t ht) env tick s Q.
Proof.
  intros Hd HQ. unfold runSingle. wp_go. unfold scan_outcome in HQ. rewrite Hd in HQ.
  destruct (blank (ht_File ht)); wp_go.
  - apply HQ; [done|]. unfold runEndpointHTTP. repeat case_match; done.
  - unfold runHURLFile. destruct (sh_runner host) as [runner|]; wp_go; [|by apply HQ].
    apply wp_Executor_Run. intros rep t' _ _ Hm.
    destruct (Results rep) as [|r rs]; [done|]. cbn in Hm. injection Hm as Hn Ho _. wp_go.
    by apply HQ.
Qed.

Lemma add_result_Results rep r :
  sr_Results (add_result rep r) = sr_Results rep ++ [r] ∧
  sr_HasBlocking (add_result rep r) = sr_HasBlocking rep || bool_decide (sf_Outcome r = OutcomeFail) ∧
  sr_AnyTestsSeen (add_result rep r) = sr_AnyTestsSeen rep ∧
  sr_Passed (add_result rep r) + sr_Failed (add_result rep r) + sr_Skipped (add_result rep r) =
    sr_Passed rep + sr_Failed rep + sr_Skipped rep + 1.
Proof.
  unfold add_result. destruct (sf_Outcome r); cbn; (split_and!; [done| |done|lia]); by destruct (sr_HasBlocking rep).
Qed.

Lemma wp_scan_tests host i t tests rep env tick s Q :
  (∀ rep' rs tick', sr_Results rep' = sr_Results rep ++ rs →
     map (λ r, (sf_TestName r, sf_Outcome r)) rs =
       imap (λ j ht, (ht_Name ht, scan_outcome host (hurlBin s) (i + j)%nat t ht)) tests →
     sr_HasBlocking rep' = sr_HasBlocking rep || existsb (λ r, bool_decide (sf_Outcome r = OutcomeFail)) rs →
     sr_AnyTestsSeen rep' = sr_AnyTestsSeen rep →
     sr_Passed rep' + sr_Failed rep' + sr_Skipped rep' =
       sr_Passed rep + sr_Failed rep + sr_Skipped rep + Z.of_nat (length tests) →
     Q rep' tick' s) →
  wp (scan_tests host i t tests rep) env tick s Q.
Proof.
  revert i rep tick. induction tests as [|ht rest IH]; intros i rep tick HQ.
  { cbn [scan_tests]. wp_go. apply (HQ rep []); cbn; [by rewrite app_nil_r|done|by rewrite orb_false_r|done|lia]. }
  assert (∀ r tick', sf_Outcome r = scan_outcome host (hurlBin s) i t ht → sf_TestName r = ht_Name ht →
    wp (scan_tests host (i + 1)%nat t rest (add_result rep r)) env tick' s Q) as Hrest.
  { intros r tick' Ho Hn. destruct (add_result_Results rep r) as (Hr & Hb & Ha & Hc).
    apply IH. intros rep' rs t2 Hrs Hmap Hb' Ha' Hc'.
    apply (HQ rep' (r :: rs)); [by rewrite Hrs, Hr, <- app_assoc| | |congruence|].
    - cbn. rewrite Ho, Hn, Nat.add_0_r, Hmap. f_equal. apply imap_ext. intros j x _. cbn.
      do 2 f_equal. lia.
    - rewrite Hb', Hb. cbn [existsb]. by rewrite orb_assoc.
    - cbn [length]. lia. }
  cbn [scan_tests]. destruct (sh_done host i) eqn:Hd; wp_go.
  - apply Hrest; [|done]. unfold scan_outcome. by rewrite Hd.
  - apply wp_runSingle; [done|]. intros r tick' Ho Hn. by apply Hrest.
Qed.

(** A scan blocks exactly on a failed test. The report holds one result for
    each registered test, in order, the three counts add up to their number, and
    it blocks exactly when some test failed: a test that was not attempted,
    because the context was done or no runner is configured, never blocks. *)
Theorem RunTarget_spec (host : SafetyHost) (t : Target) (env : Env) (tick : nat) (s : Scanner) :
  let rep := result (RunTarget host t) env tick s in
  let tests := getTests s (tgt_ID t) in
  map sf_TestName (sr_Results rep) = map ht_Name tests ∧
  sr_Passed rep + sr_Failed rep + sr_Skipped rep = Z.of_nat (length tests) ∧
  sr_AnyTestsSeen rep = HasRegistered s (tgt_ID t) ∧
  (sr_HasBlocking rep = true ↔ ∃ i ht, tests !! i = Some ht ∧
     scan_outcome host (hurlBin s) i t ht = OutcomeFail) ∧
  state (RunTarget host t) env tick s = s.
Proof.
  cbv zeta.
  enough (wp (RunTarget host t) env tick s (λ rep _ s',
    map (λ r, (sf_TestName r, sf_Outcome r)) (sr_Results rep) =
      imap (λ j ht, (ht_Name ht, scan_outcome host (hurlBin s) j t ht)) (getTests s (tgt_ID t)) ∧
    sr_HasBlocking rep = existsb (λ r, bool_decide (sf_Outcome r = OutcomeFail)) (sr_Results rep) ∧
    sr_AnyTestsSeen rep = HasRegistered s (tgt_ID t) ∧
    sr_Passed rep + sr_Failed rep + sr_Skipped rep = Z.of_nat (length (getTests s (tgt_ID t))) ∧
    s' = s)) as H.
  { rewrite wp_run in H. destruct H as (Hm & Hb & Ha & Hc & Hs). split_and!; try done.
    - apply (f_equal (map fst)) in Hm. rewrite map_map in Hm. etransitivity; [exact Hm|].
      apply list_eq. intros i. rewrite list_lookup_fmap, list_lookup_imap, list_lookup_fmap.
      by destruct (_ !! i).
    - rewrite Hb. rewrite existsb_exists. setoid_rewrite bool_decide_eq_true. split.
      + intros (r & Hr & Ho). apply list_elem_of_In, list_elem_of_lookup in Hr as (i & Hi).
        apply (f_equal (.!! i)) in Hm. rewrite list_lookup_fmap, Hi, list_lookup_imap in Hm.
        destruct (getTests s (tgt_ID t) !! i) as [ht|] eqn:Ht; [|done]. exists i, ht.
        cbn in Hm. split; [done|congruence].
      + intros (i & ht & Hi & Ho). apply (f_equal (.!! i)) in Hm.
        rewrite list_lookup_fmap, list_lookup_imap, Hi in Hm.
        destruct (sr_Results _ !! i) as [r|] eqn:Hr; [|done]. exists r. cbn in Hm.
        split; [apply list_elem_of_In; by eapply list_elem_of_lookup_2|congruence]. }
  unfold RunTarget. wp_go. unfold HasRegistered.
  destruct (getTests s (tgt_ID t)) as [|ht rest] eqn:Ht; wp_go; [done|].
  apply wp_scan_tests. intros rep rs t1 Hrs Hm Hb Ha Hc. wp_go. cbn in Hrs, Hb, Ha, Hc |- *.
  rewrite Hrs, Ha. split_and!; done.
Qed.
