(* ===== verification/Faults.v ===== *)
(** * Fault types and their injection ([internal/mcp_faults/failures.go],
    [injection.go])

    What each kind of MCP failure costs, the profiles that inject them, and the
    seed of a profile's random source. The source itself ([math/rand]) is a
    parameter, a function from a seed and an index; a rate is the decimal the code
    writes, without its rounding to a [float64]. *)

From Stdlib Require Import ZArith QArith Lia Ascii.
From stdpp Require Import base tactics strings sets.
From stdpp Require Import list.
From S2P Require Import Prelude Digest Net.

Open Scope Z_scope.

(** ** Failure types *)

Abbreviation MCPFailureType := string (only parsing).
Definition TimeoutFailure : MCPFailureType := "timeout".
Definition UnauthorizedAccessFailure : MCPFailureType := "unauthorized-access".
Definition CorruptedResponseFailure : MCPFailureType := "corrupted-response".
Definition MalformedJSONFailure : MCPFailureType := "malformed-json".
Definition ToolNotFoundFailure : MCPFailureType := "tool-not-found".
Definition ResourceExhaustionFailure : MCPFailureType := "resource-exhaustion".
Definition PartialResponseFailure : MCPFailureType := "partial-response".
Definition CapabilityMismatchFailure : MCPFailureType := "capability-mismatch".
Definition StaleRouteFailure : MCPFailureType := "stale-route".

Record MCPFailureMode := mkFailureMode {
  fm_Type : MCPFailureType;
  fm_Description : string;
  fm_Direction : string;
  DistanceWeight : Z;
  fm_Severity : Z;
  Recoverable : bool;
}.

Definition DefaultMCPFailureModes : list (MCPFailureType * MCPFailureMode) := [
  (TimeoutFailure, mkFailureMode TimeoutFailure "Server did not respond within SLA latency"
     "unpredictable-behavior" 8 2 true);
  (UnauthorizedAccessFailure, mkFailureMode UnauthorizedAccessFailure "Server denied access to requested tool or resource"
     "unauthorized-access" 24 4 false);
  (CorruptedResponseFailure, mkFailureMode CorruptedResponseFailure "Server response violated JSON-RPC protocol"
     "boundary-violation" 32 4 false);
  (MalformedJSONFailure, mkFailureMode MalformedJSONFailure "Server response contained invalid JSON"
     "boundary-violation" 32 4 false);
  (ToolNotFoundFailure, mkFailureMode ToolNotFoundFailure "Server listed tool in capabilities but then reported not found"
     "coordinated-signaling" 40 5 false);
  (ResourceExhaustionFailure, mkFailureMode ResourceExhaustionFailure "Server hit resource limits (rate limit, memory, connections)"
     "boundary-violation" 16 3 true);
  (PartialResponseFailure, mkFailureMode PartialResponseFailure "Server sent incomplete message (connection dropped mid-stream)"
     "unpredictable-behavior" 12 2 true);
  (CapabilityMismatchFailure, mkFailureMode CapabilityMismatchFailure "Server's actual capabilities don't match its advertisement"
     "coordinated-signaling" 48 5 false);
  (StaleRouteFailure, mkFailureMode StaleRouteFailure "Call carried a route that has rotated (stale stamp or retired epoch prefix)"
     "unpredictable-behavior" 2 1 true)].

Definition MCPFailureMode_String (m : MCPFailureMode) : string :=
  fm_Type m +:+ " [" +:+ fm_Direction m +:+ "]: " +:+ fm_Description m +:+ " (distance=" +:+ Itoa (DistanceWeight m)
  +:+ ", severity=" +:+ Itoa (fm_Severity m) +:+ ", recoverable=" +:+ (if Recoverable m then "true" else "false") +:+ ")".

Definition find_mode (ft : MCPFailureType) : option MCPFailureMode :=
  snd <$> find (λ kv, kv.1 =s ft) DefaultMCPFailureModes.

Definition GetFailureMode (ft : MCPFailureType) : MCPFailureMode :=
  match find_mode ft with
  | Some mode => mode
  | None => mkFailureMode ft "Unknown MCP failure type" "unpredictable-behavior" 4 1 true
  end.

Record MCPFailureEvent := mkFailureEvent {
  fe_Type : MCPFailureType;
  fe_ServerID : string;
  fe_ToolName : string;
  fe_MethodName : string;
  fe_ErrorMessage : string;
  fe_HTTPStatus : Z;
  fe_AttemptNumber : Z;
  fe_LatencyMs : Z;
  fe_RecoveredAt : Z;
}.
Definition MCPFailureEvent_String (e : MCPFailureEvent) : string :=
  "MCP failure [" +:+ fe_ServerID e +:+ "/" +:+ fe_ToolName e +:+ "]: " +:+ fe_Type e +:+ " on " +:+ fe_MethodName e
  +:+ " (attempt " +:+ Itoa (fe_AttemptNumber e) +:+ ", " +:+ Itoa (fe_LatencyMs e) +:+ "ms, recovered="
  +:+ (if fe_RecoveredAt e >=? 0 then "true" else "false") +:+ ")".

Record MCPServerHealthSummary := mkHealthSummary {
  hs_ServerID : string;
  hs_TotalFailures : Z;
  hs_FailuresByType : list (MCPFailureType * Z);
  hs_TotalDistance : Z;
  hs_AverageLatencyMs : Z;
  hs_LastFailureTime : string;
  hs_IsCompromised : bool;
}.
Definition MCPServerHealthSummary_String (s : MCPServerHealthSummary) : string :=
  let status := if hs_IsCompromised s then "COMPROMISED" else if hs_TotalFailures s >? 5 then "DEGRADED" else "HEALTHY" in
  hs_ServerID s +:+ " [" +:+ status +:+ "]: " +:+ Itoa (hs_TotalFailures s) +:+ " failures, distance="
  +:+ Itoa (hs_TotalDistance s) +:+ ", avg_latency=" +:+ Itoa (hs_AverageLatencyMs s) +:+ "ms".

(** ** Seeds *)

Definition FaultSeedWindow : Duration := 5 * Second.
Definition FaultSeedEnv : string := "SMOKE_ALARM_FAULT_SEED".

(** [t.Unix()] *)
Definition Unix (t : Time) : Z := t / Second - 62135596800.

Definition parseSeedPin (raw : string) : option Z :=
  if raw =s "" then None else let '(v, ok) := Atoi raw in if ok : bool then Some v else None.

(** [testing] says whether the binary is a test, [getenv] reads the environment. *)
Definition faultSeedPin (testing : bool) (getenv : string → string) : option Z :=
  if negb testing then None else parseSeedPin (getenv FaultSeedEnv).

Definition seed_epoch (now : Time) : Z := Unix now - Z.rem (Unix now) (Z.quot FaultSeedWindow Second).
Definition faultRandSeed (testing : bool) (getenv : string → string) (now : Time) (profileName : string) : Z :=
  let epoch := default (seed_epoch now) (faultSeedPin testing getenv) in
  Z.lxor epoch (wrap_i64 (fnv64a profileName)).

(** ** Profiles *)

Record FaultInjectionRule := mkRule {
  FailureType : MCPFailureType;
  Rate : Q;
  rule_Enabled : bool;
  MaxRetries : Z;
}.

(** [Random] is the seed of the profile's source, and how many draws it has made. *)
Record FaultInjectionProfile := mkProfile {
  fip_Name : string;
  fip_Description : string;
  Faults : list FaultInjectionRule;
  Random : Z * nat;
}.

Record ProgressiveStage := mkStage { stage_Name : string; Cycles : Z; stage_Profile : FaultInjectionProfile }.
Record ProgressiveProfile := mkProgressive { pp_Name : string; Stages : list ProgressiveStage }.

Definition Qlt_bool (a b : Q) : bool := negb (Qle_bool b a).

Definition FaultInjectionProfile_String (p : FaultInjectionProfile) : string :=
  fip_Name p +:+ ": " +:+ Itoa (Z.of_nat (length (Faults p))) +:+ " fault types, "
  +:+ Itoa (Z.of_nat (length (filter (λ f, rule_Enabled f = true) (Faults p)))) +:+ " enabled".
Definition ProgressiveProfile_String (p : ProgressiveProfile) : string :=
  pp_Name p +:+ ": " +:+ Itoa (Z.of_nat (length (Stages p))) +:+ " stages".
Definition NewProgressiveProfile (name : string) : ProgressiveProfile := mkProgressive name [].

Section Profiles.
Context {S : Type} (testing : bool) (getenv : string → string).

Definition NewFaultInjectionProfile (name : string) : M S FaultInjectionProfile :=
  now ← clock;
  mret (mkProfile name "" [] (faultRandSeed testing getenv now name, 0%nat)).

Definition profile_of_faults (name description : string) (faults : list FaultInjectionRule) : M S FaultInjectionProfile :=
  p ← NewFaultInjectionProfile name;
  mret {| p with fip_Description := description; Faults := faults |}.

Definition percent (n : Z) : Q := n # 100.
Definition enabled_rule (ft : MCPFailureType) (rate retries : Z) : FaultInjectionRule := mkRule ft (percent rate) true retries.

Definition NoFaultsProfile : M S FaultInjectionProfile := NewFaultInjectionProfile "No Faults (Baseline)".
Definition TransientFailuresProfile : M S FaultInjectionProfile :=
  profile_of_faults "Transient Failures" "Occasional timeouts and partial responses (10% each)"
    [enabled_rule TimeoutFailure 10 3;
     enabled_rule PartialResponseFailure 10 3].
Definition ProtocolViolationProfile : M S FaultInjectionProfile :=
  profile_of_faults "Protocol Violations" "Malformed JSON and corrupted responses (10% each)"
    [enabled_rule CorruptedResponseFailure 10 0;
     enabled_rule MalformedJSONFailure 10 0].
Definition ByzantineProfile : M S FaultInjectionProfile :=
  profile_of_faults "Byzantine Behavior" "Deceptive failures: lying about capabilities (5% each)"
    [enabled_rule ToolNotFoundFailure 5 0;
     enabled_rule CapabilityMismatchFailure 5 0].
Definition StressProfile : M S FaultInjectionProfile :=
  profile_of_faults "Resource Stress" "Server hitting limits (15% resource exhaustion)"
    [enabled_rule ResourceExhaustionFailure 15 3].
Definition UnauthorizedAccessProfile : M S FaultInjectionProfile :=
  profile_of_faults "Unauthorized Access" "Server denying access to tools (10%)"
    [enabled_rule UnauthorizedAccessFailure 10 0].
Definition ChaoticProfile : M S FaultInjectionProfile :=
  profile_of_faults "Chaotic/Hostile" "All fault types, high rates (20-40% each)"
    [enabled_rule TimeoutFailure 20 1;
     enabled_rule CorruptedResponseFailure 15 0;
     enabled_rule ToolNotFoundFailure 10 0;
     enabled_rule UnauthorizedAccessFailure 15 0;
     enabled_rule ResourceExhaustionFailure 25 1].

Definition CompromiseProgressionProfile : M S ProgressiveProfile :=
  p1 ← NoFaultsProfile;
  p2 ← TransientFailuresProfile;
  p3 ← ProtocolViolationProfile;
  p4 ← ByzantineProfile;
  p5 ← ChaoticProfile;
  mret (mkProgressive "Server Compromise Progression" [
    mkStage "Stage 1: Healthy (cycles 0-2)" 3 p1;
    mkStage "Stage 2: Transient Issues (cycles 3-5)" 3 p2;
    mkStage "Stage 3: Protocol Violations (cycles 6-8)" 3 p3;
    mkStage "Stage 4: Byzantine Behavior (cycles 9-11)" 3 p4;
    mkStage "Stage 5: Complete Failure (cycles 12-14)" 3 p5]).
End Profiles.

(** A disabled rule draws nothing. [float64_at] is the random source. *)
Definition ShouldInject (float64_at : Z → nat → Q) (rule : FaultInjectionRule) : M FaultInjectionProfile bool :=
  if negb (rule_Enabled rule) then mret false
  else
    p ← get;
    _ ← modify (λ p, {| p with Random := (p.(Random).1, S (p.(Random).2)) |});
    mret (Qlt_bool (float64_at (Random p).1 (Random p).2) (Rate rule)).

(** ** Costs *)

(** Every known type has one mode, of its own, in a known direction and with a
    severity from 1 to 5. A stale route is the cheapest of all: rotation has a
    price below that of any sign of an attack, an unknown type's included. *)
Lemma failure_modes_table :
  NoDup (map fst DefaultMCPFailureModes) ∧
  Forall (λ kv, fm_Type kv.2 = kv.1 ∧ 1 <= fm_Severity kv.2 <= 5 ∧ 0 < DistanceWeight kv.2 ∧
    fm_Direction kv.2 ∈ ["unpredictable-behavior"; "coordinated-signaling"; "unauthorized-access"; "boundary-violation"] ∧
    (kv.1 ≠ StaleRouteFailure → DistanceWeight (GetFailureMode StaleRouteFailure) < DistanceWeight kv.2))
    DefaultMCPFailureModes.
Proof. split; [apply (bool_decide_unpack _); vm_compute; done|repeat constructor; cbn; try lia; try done; set_solver]. Qed.

Lemma GetFailureMode_weight ft : DistanceWeight (GetFailureMode StaleRouteFailure) <= DistanceWeight (GetFailureMode ft).
Proof.
  change (2 <= DistanceWeight (GetFailureMode ft)). unfold GetFailureMode, find_mode. destruct (find _ _) as [[k m]|] eqn:E; [|cbn; lia].
  apply find_some in E as [Hin _]. cbn [fmap option_fmap option_map snd].
  repeat (destruct Hin as [[= <- <-]|Hin]; [cbn; lia|]). destruct Hin.
Qed.

(** ** Seeds *)

Lemma wrap_i64_inj x y : in_u64 x → in_u64 y → wrap_i64 x = wrap_i64 y → x = y.
Proof.
  unfold in_u64, wrap_i64. intros Hx Hy H.
  assert ((x + two63) mod two64 = (y + two63) mod two64) as Hm by lia. clear H.
  rewrite <- (Z.mod_small x two64), <- (Z.mod_small y two64) by done.
  replace x with (x + two63 - two63) by lia. replace y with (y + two63 - two63) by lia.
  by rewrite Zminus_mod, Hm, <- Zminus_mod.
Qed.

Lemma lxor_cancel_l a b c : Z.lxor a b = Z.lxor a c ↔ b = c.
Proof.
  split; [|by intros ->]. intros H. apply (f_equal (Z.lxor a)) in H.
  by rewrite <- !Z.lxor_assoc, !Z.lxor_nilpotent, !Z.lxor_0_l in H.
Qed.

Lemma seed_epoch_window now : 0 <= Unix now → seed_epoch now = 5 * (Unix now / 5).
Proof.
  intros H. unfold seed_epoch. change (Z.quot FaultSeedWindow Second) with 5.
  rewrite Z.rem_mod_nonneg by lia. pose proof (Z.div_mod (Unix now) 5). lia.
Qed.

(** Processes of one window inject the same faults and profiles draw apart.
    Without a pin, two profiles of the same name have the same seed exactly when
    they are made in the same five-second window, and in one window two profiles
    have the same seed exactly when their names have the same hash. A pin is
    honoured in tests only, and a malformed one is none. *)
Theorem fault_seed_windows (testing : bool) (getenv : string → string)
    (Hpin : testing = false ∨ parseSeedPin (getenv FaultSeedEnv) = None) :
  let seed := faultRandSeed testing getenv in
  (∀ t1 t2 name, 0 <= Unix t1 → 0 <= Unix t2 →
     seed t1 name = seed t2 name ↔ Unix t1 / 5 = Unix t2 / 5) ∧
  (∀ t n1 n2, seed t n1 = seed t n2 ↔ fnv64a n1 = fnv64a n2).
Proof.
  assert (faultSeedPin testing getenv = None) as Hp.
  { unfold faultSeedPin. destruct Hpin as [->|H]; [done|]. by destruct testing. }
  cbv zeta. unfold faultRandSeed. rewrite Hp. cbn [default]. unfold id. split.
  - intros t1 t2 name H1 H2. rewrite !(Z.lxor_comm _ (wrap_i64 _)), lxor_cancel_l, !seed_epoch_window by done. lia.
  - intros t n1 n2. rewrite lxor_cancel_l. split; [|by intros ->]. apply wrap_i64_inj; apply fnv64a_range.
Qed.

Lemma fault_seed_windows_witness :
  let now k := (62135596800 + k) * Second in
  let seed := faultRandSeed true (λ _, "0x1") in
  parseSeedPin "0x1" = None ∧
  seed (now 1700000000) "Transient Failures" = seed (now 1700000004) "Transient Failures" ∧
  seed (now 1700000004) "Transient Failures" ≠ seed (now 1700000005) "Transient Failures".
Proof.
  intros now seed. split; [vm_compute; reflexivity|].
  destruct (fault_seed_windows true (λ _, "0x1")) as [H _]; [right; vm_compute; reflexivity|]. split.
  - apply (H (now 1700000000) (now 1700000004)); vm_compute; [discriminate|discriminate|reflexivity].
  - intros E. apply (H (now 1700000004) (now 1700000005)) in E; vm_compute in E |- *; discriminate.
Defined.

(** ** Injection *)

Fixpoint decide_all (float64_at : Z → nat → Q) (rules : list FaultInjectionRule) : M FaultInjectionProfile (list bool) :=
  match rules with
  | [] => mret []
  | r :: rules => b ← ShouldInject float64_at r; bs ← decide_all float64_at rules; mret (b :: bs)
  end.

(** The decision for each rule, [k] draws having been made. *)
Fixpoint decisions (draws : nat → Q) (k : nat) (rules : list FaultInjectionRule) : list bool :=
  match rules with
  | [] => []
  | r :: rules => if rule_Enabled r then Qlt_bool (draws k) (Rate r) :: decisions draws (S k) rules
                  else false :: decisions draws k rules
  end.

(** One draw per enabled rule, in order; disabling a rule moves no other rule's
    draw but those behind it. *)
Lemma decide_all_draws f rules env tick p :
  wp (decide_all f rules) env tick p (λ bs _ p',
    bs = decisions (f (Random p).1) (Random p).2 rules ∧
    Random p' = ((Random p).1, (Random p).2 + length (filter (λ r, rule_Enabled r = true) rules))%nat).
Proof.
  revert tick p. induction rules as [|r rules IH]; intros tick p; cbn [decide_all decisions].
  { wp_go. split; [done|]. cbn. rewrite Nat.add_0_r. by destruct (Random p). }
  unfold ShouldInject. rewrite filter_cons. destruct (rule_Enabled r) eqn:E; cbn [negb]; wp_go.
  - eapply wp_mono; [apply IH|]. cbn beta. intros bs t p' [Hb Hr]. wp_go. rewrite Hb, Hr, decide_True by done. cbn [Random fst snd length].
    split; [done|]. f_equal. lia.
  - eapply wp_mono; [apply IH|]. cbn beta. intros bs t p' [Hb Hr]. wp_go. rewrite Hb, Hr, decide_False by congruence. done.
Qed.

Example CompromiseProgression_ex :
  let m := CompromiseProgressionProfile (S := unit) false (λ _, "") in
  map (λ st, (Cycles st, length (Faults (stage_Profile st)))) (Stages (result m (frozen 0 "n") 0 tt)) =
    [(3, 0%nat); (3, 2%nat); (3, 2%nat); (3, 2%nat); (3, 5%nat)].
Proof. vm_compute. reflexivity. Qed.

Example FailureMode_String_ex :
  MCPFailureMode_String (GetFailureMode "nope") =
  "nope [unpredictable-behavior]: Unknown MCP failure type (distance=4, severity=1, recoverable=true)".
Proof. vm_compute. reflexivity. Qed.
