(* ===== verification/Rpc.v ===== *)
(** * JSON-RPC over stdio ([internal/engine/stdio_prober.go], [mcp_handshake.go])

    Messages are newline-delimited JSON. The child's output is what is left of a
    finite stream of bytes, whose end is an error; the decoder of a JSON-RPC
    response ([json.Unmarshal] into [rpcResponse]) is a parameter. *)

From Stdlib Require Import ZArith NArith Lia Ascii.
From stdpp Require Import base tactics strings gmap.
From stdpp Require Import list.
From S2P Require Import Prelude Bytes Net.

Open Scope Z_scope.

(** ** JSON values

    An object lists the entries of the decoded map in key order. *)
Inductive json :=
  | JNull
  | JBool (b : bool)
  | JNumber (text : string)
  | JString (s : string)
  | JArray (l : list json)
  | JObject (fields : list (string * json)).

Definition field (key : string) (j : json) : option json :=
  match j with
  | JObject fs => snd <$> find (λ kv, kv.1 =s key) fs
  | _ => None
  end.

Record rpcResponse := mkRpcResponse {
  rpc_ID : option Z;
  rpc_Result : json;               (* an absent result is null *)
  rpc_Error : option (Z * string); (* code and message *)
}.

(** ** [validateMCPInitializeResult] *)

Definition supportedMCPProtocolVersions : list string := ["2024-11-05"; "2025-03-26"; "2025-06-18"].

Record serverInfo := mkServerInfo { si_name : option string; si_version : option string }.
Record initializeResult := mkInit {
  protocolVersion : option string;
  capabilities : bool;                       (* whether the map is not nil *)
  init_serverInfo : option serverInfo;
}.

(** Decoding into a pointer to a string: null clears it; [None] is a type error. *)
Definition decode_string (v : json) : option (option string) :=
  match v with JNull => Some None | JString s => Some (Some s) | _ => None end.

(** A key selects a field exactly or up to case. *)
Definition names_field (key name : string) : bool := EqualFold key name.

Definition decode_info_field (i : serverInfo) (kv : string * json) : option serverInfo :=
  if names_field kv.1 "name" then s ← decode_string kv.2; Some (mkServerInfo s (si_version i))
  else if names_field kv.1 "version" then s ← decode_string kv.2; Some (mkServerInfo (si_name i) s)
  else Some i.

Definition decode_info (i : option serverInfo) (v : json) : option (option serverInfo) :=
  match v with
  | JNull => Some None
  | JObject fs =>
      Some <$> foldl (λ acc kv, i ← acc; decode_info_field i kv)
        (Some (default (mkServerInfo None None) i)) fs
  | _ => None
  end.

Definition decode_init_field (i : initializeResult) (kv : string * json) : option initializeResult :=
  if names_field kv.1 "protocolVersion" then
    s ← decode_string kv.2; Some (mkInit s (capabilities i) (init_serverInfo i))
  else if names_field kv.1 "capabilities" then
    match kv.2 with
    | JNull => Some (mkInit (protocolVersion i) false (init_serverInfo i))
    | JObject _ => Some (mkInit (protocolVersion i) true (init_serverInfo i))
    | _ => None
    end
  else if names_field kv.1 "serverInfo" then
    info ← decode_info (init_serverInfo i) kv.2; Some (mkInit (protocolVersion i) (capabilities i) info)
  else Some i.

Definition decode_init (result : json) : option initializeResult :=
  match result with
  | JNull => Some (mkInit None false None)
  | JObject fs => foldl (λ acc kv, i ← acc; decode_init_field i kv) (Some (mkInit None false None)) fs
  | _ => None
  end.

Definition missing (s : option string) : bool := match s with None => true | Some s => blank s end.

(** The error's text, or [None] when the result is acceptable. *)
Definition validateMCPInitializeResult (result : json) : option string :=
  match decode_init result with
  | None => Some "decode initialize result"
  | Some i =>
      if missing (protocolVersion i) then Some "initialize result missing protocolVersion"
      else if negb (mem (TrimSpace (default "" (protocolVersion i))) supportedMCPProtocolVersions) then
        Some "initialize result uses unsupported protocolVersion"
      else if negb (capabilities i) then Some "initialize result missing capabilities"
      else
        match init_serverInfo i with
        | None => Some "initialize result missing serverInfo"
        | Some info =>
            if missing (si_name info) then Some "initialize result missing serverInfo.name"
            else if missing (si_version info) then Some "initialize result missing serverInfo.version"
            else None
        end
  end.

Definition good_init : json := JObject
  [("capabilities", JObject [("tools", JObject [])]); ("protocolVersion", JString "2025-06-18");
   ("serverInfo", JObject [("name", JString "s"); ("version", JString "1")])].

Example validateMCPInitializeResult_ex :
  map validateMCPInitializeResult
    [good_init; JNull; JString "x"; JObject [("protocolVersion", JString "2020-01-01")];
     JObject [("capabilities", JNull); ("protocolVersion", JString " 2025-03-26 ")]] =
  [None; Some "initialize result missing protocolVersion"; Some "decode initialize result";
   Some "initialize result uses unsupported protocolVersion";
   Some "initialize result missing capabilities"].
Proof. reflexivity. Qed.

(** ** Reading frames *)

Definition newline : ascii := ascii_of_N 10.
Definition maxRPCFrameBytes : Z := 8388608.

(** Why reading stops. *)
Inductive read_error :=
  | EndOfStream
  | FrameTooLong
  | TruncatedFrame
  | ContentLengthFraming
  | ContextDone.

Definition slen (s : string) : Z := Z.of_nat (String.length s).

(** [bufio.Reader.ReadSlice] with the default buffer: up to and including the
    delimiter, or a full buffer, or all that is left. *)
Definition buffer_size : nat := 4096.
Inductive slice_end := Delimited | BufferFull | SliceEnd.
Definition ReadSlice (s : string) : string * string * slice_end :=
  match IndexByte (stake buffer_size s) newline with
  | Some i => (stake (S i) s, sdrop (S i) s, Delimited)
  | None =>
      if (buffer_size <=? String.length s)%nat then (stake buffer_size s, sdrop buffer_size s, BufferFull)
      else (s, "", SliceEnd)
  end.

(** The line read, or an error; what is left of the stream after a line. *)
Fixpoint read_bounded (fuel : nat) (maxBytes : Z) (line s : string) : (string * string) + read_error :=
  match fuel with
  | O => inr EndOfStream
  | S fuel =>
      let '(chunk, rest, e) := ReadSlice s in
      if slen line + slen chunk >? maxBytes then inr FrameTooLong
      else
        let line := line +:+ chunk in
        match e with
        | Delimited => inl (line, rest)
        | BufferFull => read_bounded fuel maxBytes line rest
        | SliceEnd => if line =s "" then inr EndOfStream else inr TruncatedFrame
        end
  end.

(** A full buffer consumes bytes, so the length of the stream is fuel enough. *)
Definition readBoundedLine (maxBytes : Z) (s : string) : (string * string) + read_error :=
  read_bounded (S (String.length s)) maxBytes "" s.

Definition hasContentLengthPrefix (line : string) : bool :=
  let prefix := "content-length:" in
  (String.length prefix <=? String.length line)%nat && EqualFold (stake (String.length prefix) line) prefix.

(** [bytes.TrimRight(line, ...)] over carriage returns and newlines. *)
Definition trim_newlines (line : string) : string :=
  String.rev (trim_runes [byte_of 13; byte_of 10] (String.length line) (String.rev line)).

Fixpoint read_frame (fuel : nat) (s : string) : (string * string) + read_error :=
  match fuel with
  | O => inr EndOfStream
  | S fuel =>
      match readBoundedLine maxRPCFrameBytes s with
      | inr e => inr e
      | inl (line, rest) =>
          let line := trim_newlines line in
          if blank line then read_frame fuel rest
          else if hasContentLengthPrefix line then inr ContentLengthFraming
          else inl (line, rest)
      end
  end.

(** Every line consumes its newline. *)
Definition readRPCFrame (s : string) : (string * string) + read_error := read_frame (S (String.length s)) s.

(** ** Waiting for a response *)

Section Responses.
Context (decode : string → option rpcResponse).

(** [ctx_done i] is whether the context is done when the loop turns for the
    [i]-th time. *)
Fixpoint read_response (fuel : nat) (ctx_done : nat → bool) (i : nat) (id : Z) (s : string)
  : (rpcResponse * string) + read_error :=
  match fuel with
  | O => inr EndOfStream
  | S fuel =>
      if ctx_done i then inr ContextDone
      else
        match readRPCFrame s with
        | inr e => inr e
        | inl (payload, rest) =>
            match decode payload with
            | None => read_response fuel ctx_done (S i) id rest
            | Some resp =>
                match rpc_ID resp with
                | Some n => if n =? id then inl (resp, rest) else read_response fuel ctx_done (S i) id rest
                | None => read_response fuel ctx_done (S i) id rest
                end
            end
        end
  end.

Definition readRPCResponseByID (ctx_done : nat → bool) (id : Z) (s : string)
  : (rpcResponse * string) + read_error :=
  read_response (S (String.length s)) ctx_done 0 id s.
End Responses.

(** ** Writing frames: the JSON text and a newline *)

Definition writeRPCFrame (body : string) : string := body +:+ String newline "".

(** ** The captured standard error ([limitedBuffer]) *)

Record limitedBuffer := mkLimited { lb_max : Z; lb_buf : string }.

Definition newLimitedBuffer (maxBytes : Z) : limitedBuffer := mkLimited maxBytes "".

(** It claims to have written everything. *)
Definition limitedBuffer_Write (l : limitedBuffer) (p : string) : limitedBuffer * Z :=
  if lb_max l <=? 0 then (l, slen p)
  else
    let remaining := lb_max l - slen (lb_buf l) in
    if remaining <=? 0 then (l, slen p)
    else if slen p >? remaining then
      (mkLimited (lb_max l) (lb_buf l +:+ stake (Z.to_nat remaining) p), slen p)
    else (mkLimited (lb_max l) (lb_buf l +:+ p), slen p).

Definition ellipsis : string := byte_of 226 +:+ byte_of 128 +:+ byte_of 166.

Definition compact (v : string) (n : Z) : string :=
  let v := TrimSpace v in
  if (n <=? 0) || (slen v <=? n) then v
  else if n =? 1 then stake 1 v
  else stake (Z.to_nat (n - 1)) v +:+ ellipsis.

(** ** The child's environment *)

Definition env_key (kv : string) : option string :=
  match IndexByte kv "=" with
  | Some (S i) => Some (stake (S i) kv)
  | _ => None
  end.

(** The last entry of [base] for each key. *)
Definition env_index (base : list string) : gmap string nat :=
  foldl (λ m ikv, match env_key ikv.2 with Some k => <[k := ikv.1]> m | None => m end) ∅
    (imap (λ i kv, (i, kv)) base).

(** The overrides, taken in any map order. *)
Definition mergeEnv (base : list string) (extra : list (string * string)) : list string :=
  let seen := env_index base in
  foldl (λ out kv,
    let pair := kv.1 +:+ "=" +:+ kv.2 in
    match seen !! kv.1 with
    | Some i => <[i := pair]> out
    | None => out ++ [pair]
    end) base extra.

(** ** Lemmas on byte strings *)

Lemma slen_app a b : slen (a +:+ b) = slen a + slen b.
Proof. unfold slen. rewrite slength_app. lia. Qed.

(** ** Lines *)

Lemma ReadSlice_line a b :
  has_byte newline a = false →
  ReadSlice (a +:+ String newline b) =
    if (String.length a <? buffer_size)%nat then (a +:+ String newline "", b, Delimited)
    else (stake buffer_size a, sdrop buffer_size a +:+ String newline b, BufferFull).
Proof.
  intros Ha. unfold ReadSlice. remember buffer_size as n eqn:Hn. clear Hn.
  destruct (_ <? _)%nat eqn:Hl; go_bools.
  - rewrite stake_app_ge by lia.
    destruct (n - String.length a)%nat as [|k] eqn:Hk; [lia|].
    change (stake (S k) (String newline b)) with (String newline (stake k b)).
    rewrite index_byte_app by done. rewrite sdrop_app_S. do 2 f_equal.
    replace (S (String.length a)) with (String.length (a +:+ String newline "")).
    + change (String newline b) with (String newline "" +:+ b). rewrite <- sapp_assoc.
      by rewrite stake_app.
    + rewrite slength_app. cbn. lia.
  - rewrite stake_app_le by lia. rewrite index_byte_none by by apply has_byte_split.
    rewrite (proj2 (Nat.leb_le _ _)) by (rewrite slength_app; lia).
    by rewrite sdrop_app_le by lia.
Qed.

Lemma ReadSlice_end s :
  has_byte newline s = false →
  ReadSlice s =
    if (buffer_size <=? String.length s)%nat then (stake buffer_size s, sdrop buffer_size s, BufferFull)
    else (s, "", SliceEnd).
Proof. intros Hs. unfold ReadSlice. rewrite index_byte_none; [done|]. by apply has_byte_split. Qed.

Lemma read_bounded_line fuel maxBytes line a b :
  has_byte newline a = false → (String.length a < fuel)%nat →
  read_bounded fuel maxBytes line (a +:+ String newline b) =
    if slen line + slen a + 1 >? maxBytes then inr FrameTooLong
    else inl (line +:+ a +:+ String newline "", b).
Proof.
  revert line a. induction fuel as [|fuel IH]; intros line a Ha Hf; [lia|].
  cbn [read_bounded]. rewrite ReadSlice_line by done. rewrite !Z.gtb_ltb.
  assert (0 < buffer_size)%nat as Hn by (unfold buffer_size; lia).
  remember buffer_size as n eqn:Hb. clear Hb.
  destruct (_ <? _)%nat eqn:Hl; go_bools.
  - rewrite Z.gtb_ltb, slen_app. change (slen (String newline "")) with 1. by rewrite Z.add_assoc.
  - assert (slen (stake n a) = Z.of_nat n) as Hs by (unfold slen; rewrite length_stake; lia).
    assert (slen a = Z.of_nat n + slen (sdrop n a)) as Ha'.
    { rewrite <- Hs, <- slen_app. by rewrite stake_sdrop. }
    rewrite Z.gtb_ltb, Hs. destruct (maxBytes <? slen line + Z.of_nat n) eqn:Hm; go_bools.
    { rewrite (proj2 (Z.ltb_lt _ _)); [done|]. unfold slen in *. lia. }
    rewrite IH; [|by apply has_byte_split|rewrite length_sdrop; lia].
    rewrite Z.gtb_ltb, slen_app, Hs, Ha', sapp_assoc, <- (sapp_assoc (stake n a)), stake_sdrop.
    by rewrite Z.add_assoc.
Qed.

Lemma read_bounded_end fuel maxBytes line s :
  has_byte newline s = false → (String.length s < fuel)%nat →
  read_bounded fuel maxBytes line s =
    if slen line + slen s >? maxBytes then inr FrameTooLong
    else if (line +:+ s) =s "" then inr EndOfStream else inr TruncatedFrame.
Proof.
  revert line s. induction fuel as [|fuel IH]; intros line s Hs Hf; [lia|].
  cbn [read_bounded]. rewrite ReadSlice_end by done. rewrite !Z.gtb_ltb.
  assert (0 < buffer_size)%nat as Hn by (unfold buffer_size; lia).
  remember buffer_size as n eqn:Hb. clear Hb.
  destruct (_ <=? _)%nat eqn:Hl; go_bools; [|by rewrite Z.gtb_ltb].
  assert (slen (stake n s) = Z.of_nat n) as Hk by (unfold slen; rewrite length_stake; lia).
  assert (slen s = Z.of_nat n + slen (sdrop n s)) as Hs'.
  { rewrite <- Hk, <- slen_app. by rewrite stake_sdrop. }
  rewrite Z.gtb_ltb, Hk. destruct (maxBytes <? slen line + Z.of_nat n) eqn:Hm; go_bools.
  { rewrite (proj2 (Z.ltb_lt _ _)); [done|]. unfold slen in *. lia. }
  rewrite IH; [|by apply has_byte_split|rewrite length_sdrop; lia].
  by rewrite Z.gtb_ltb, slen_app, Hk, Hs', sapp_assoc, stake_sdrop, Z.add_assoc.
Qed.

(** The bounded reader is a line reader with a cap. However the buffer cuts
    the stream, a line of at most [maxBytes] bytes, its newline included, is
    returned with what follows it; a longer one is refused; a stream that ends
    without a newline is an error, and a truncated frame unless it was empty. *)
Theorem readBoundedLine_spec (maxBytes : Z) :
  (∀ a b, has_byte newline a = false →
     readBoundedLine maxBytes (a +:+ String newline b) =
       if slen a + 1 >? maxBytes then inr FrameTooLong else inl (a +:+ String newline "", b)) ∧
  (∀ s, has_byte newline s = false →
     readBoundedLine maxBytes s =
       if slen s >? maxBytes then inr FrameTooLong
       else if s =s "" then inr EndOfStream else inr TruncatedFrame).
Proof.
  split; intros; unfold readBoundedLine.
  - rewrite read_bounded_line; [done..|]. rewrite slength_app. cbn. lia.
  - rewrite read_bounded_end; [done..|]. lia.
Qed.

(** ** Frames *)

Definition carriage_return : ascii := ascii_of_N 13.

(** A line without carriage returns loses exactly its newline. *)
Lemma trim_newlines_line a :
  has_byte newline a = false → has_byte carriage_return a = false →
  trim_newlines (a +:+ String newline "") = a.
Proof.
  intros Hn Hr. unfold trim_newlines. rewrite slength_app, srev_app, Nat.add_comm.
  rewrite <- has_byte_rev in Hn, Hr.
  assert (∀ k t, has_byte newline t = false → has_byte carriage_return t = false →
    trim_runes [byte_of 13; byte_of 10] k t = t) as Hstop.
  { intros [|k] [|c t] H1 H2; try done. cbn in H1, H2. go_bools.
    cbn [trim_runes find]. unfold HasPrefix, byte_of. cbn [String.prefix].
    destruct (ascii_dec _ c) as [<-|_]; [done|]. by destruct (ascii_dec _ c) as [<-|_]. }
  assert (∀ t, find (HasPrefix (String newline t)) [byte_of 13; byte_of 10] = Some (byte_of 10)) as Hf
    by by intros [].
  change (String.rev (String newline "") +:+ String.rev a) with (String newline (String.rev a)).
  change (String.length (String newline "") + String.length a)%nat with (S (String.length a)).
  cbn [trim_runes]. rewrite Hf.
  change (sdrop (String.length (byte_of 10)) (String newline (String.rev a))) with (String.rev a).
  rewrite Hstop by done. apply srev_involutive.
Qed.

Lemma readBoundedLine_shrinks maxBytes s line rest :
  readBoundedLine maxBytes s = inl (line, rest) → (String.length rest < String.length s)%nat.
Proof.
  destruct (cut_byte newline s) as [Hs|(a & b & -> & Ha)].
  - rewrite (proj2 (readBoundedLine_spec maxBytes)) by done. repeat case_match; done.
  - rewrite (proj1 (readBoundedLine_spec maxBytes)) by done. case_match; [done|].
    intros [= _ <-]. rewrite slength_app. cbn. lia.
Qed.

Lemma read_frame_fuel f f' s :
  (String.length s < f)%nat → (String.length s < f')%nat → read_frame f s = read_frame f' s.
Proof.
  revert f' s. induction f as [|f IH]; intros [|f'] s H H'; try lia.
  cbn [read_frame]. destruct (readBoundedLine _ s) as [[line rest]|e] eqn:Hl; [|done].
  apply readBoundedLine_shrinks in Hl. cbv zeta. destruct (blank _); [|done]. apply IH; lia.
Qed.

Lemma readRPCFrame_unfold s :
  readRPCFrame s =
    match readBoundedLine maxRPCFrameBytes s with
    | inr e => inr e
    | inl (line, rest) =>
        let line := trim_newlines line in
        if blank line then readRPCFrame rest
        else if hasContentLengthPrefix line then inr ContentLengthFraming else inl (line, rest)
    end.
Proof.
  unfold readRPCFrame at 1. cbn [read_frame].
  destruct (readBoundedLine _ s) as [[line rest]|e] eqn:Hl; [|done].
  apply readBoundedLine_shrinks in Hl. cbv zeta. destruct (blank _); [|done].
  apply read_frame_fuel; lia.
Qed.

Lemma readRPCFrame_shrinks s payload rest :
  readRPCFrame s = inl (payload, rest) → (String.length rest < String.length s)%nat.
Proof.
  unfold readRPCFrame. generalize (S (String.length s)) as f.
  intros f. revert s. induction f as [|f IH]; intros s; [done|]. cbn [read_frame].
  destruct (readBoundedLine _ s) as [[line r]|e] eqn:Hl; [|done].
  apply readBoundedLine_shrinks in Hl. cbv zeta. destruct (blank _).
  - intros H%IH. lia.
  - destruct (hasContentLengthPrefix _); [done|]. by intros [= _ <-].
Qed.

(** What is written as a frame is read back as one. A body on one line that is
    not blank, holds no carriage return and does not look like the other
    protocol's header is returned whole, with the stream after it untouched; in
    front of it, blank lines make no difference. *)
Theorem frame_roundtrip (body rest : string) :
  has_byte newline body = false → has_byte carriage_return body = false → blank body = false →
  hasContentLengthPrefix body = false → slen body < maxRPCFrameBytes →
  readRPCFrame (writeRPCFrame body +:+ rest) = inl (body, rest) ∧
  readRPCFrame (String newline "" +:+ writeRPCFrame body +:+ rest) = inl (body, rest).
Proof.
  intros Hn Hr Hb Hc Hl.
  assert (readRPCFrame (writeRPCFrame body +:+ rest) = inl (body, rest)) as H.
  { rewrite readRPCFrame_unfold. unfold writeRPCFrame. rewrite sapp_assoc.
    change (String newline "" +:+ rest) with (String newline rest).
    rewrite (proj1 (readBoundedLine_spec _)) by done. rewrite Z.gtb_ltb, (proj2 (Z.ltb_ge _ _)) by lia.
    cbv zeta. rewrite trim_newlines_line by done. by rewrite Hb, Hc. }
  split; [done|]. rewrite readRPCFrame_unfold.
  change (String newline "" +:+ writeRPCFrame body +:+ rest)
    with ("" +:+ String newline (writeRPCFrame body +:+ rest)).
  by rewrite (proj1 (readBoundedLine_spec _)).
Qed.

Lemma frame_roundtrip_witness :
  let body := "{}" in
  blank body = false ∧ readRPCFrame (writeRPCFrame body +:+ "x") = inl (body, "x").
Proof. split; [reflexivity|]. apply (frame_roundtrip "{}" "x"); reflexivity. Defined.

(** ** Responses *)

Section ResponseProperties.
Context (decode : string → option rpcResponse) (ctx_done : nat → bool) (id : Z).

(** From turn [i] with [s] left, the loop comes to turn [j] with [s'] left, past
    frames that do not decode or answer another request. *)
Inductive skips : nat → string → nat → string → Prop :=
  | skips_refl i s : skips i s i s
  | skips_frame i s payload rest j s' :
      ctx_done i = false → readRPCFrame s = inl (payload, rest) →
      (∀ resp, decode payload = Some resp → rpc_ID resp ≠ Some id) →
      skips (S i) rest j s' → skips i s j s'.

Definition response_spec (i : nat) (s : string) (r : (rpcResponse * string) + read_error) : Prop :=
  ∃ j s', skips i s j s' ∧
  match r with
  | inl (resp, rest) => ctx_done j = false ∧ rpc_ID resp = Some id ∧
      ∃ payload, readRPCFrame s' = inl (payload, rest) ∧ decode payload = Some resp
  | inr e => if ctx_done j then e = ContextDone else readRPCFrame s' = inr e
  end.

Lemma response_spec_skip i s payload rest r :
  ctx_done i = false → readRPCFrame s = inl (payload, rest) →
  (∀ resp, decode payload = Some resp → rpc_ID resp ≠ Some id) →
  response_spec (S i) rest r → response_spec i s r.
Proof. intros Hd Hf Hi (j & s' & Hs & Hr). exists j, s'. split; [by econstructor|done]. Qed.

Lemma read_response_spec fuel i s :
  (String.length s < fuel)%nat → response_spec i s (read_response decode fuel ctx_done i id s).
Proof.
  revert i s. induction fuel as [|fuel IH]; intros i s Hf; [lia|]. cbn [read_response].
  destruct (ctx_done i) eqn:Hd.
  { exists i, s. split; [constructor|]. by rewrite Hd. }
  destruct (readRPCFrame s) as [[payload rest]|e] eqn:Hr.
  2:{ exists i, s. split; [constructor|]. by rewrite Hd. }
  pose proof (readRPCFrame_shrinks _ _ _ Hr) as Hl.
  assert (response_spec (S i) rest (read_response decode fuel ctx_done (S i) id rest)) as Hrec
    by (apply IH; lia).
  destruct (decode payload) as [resp|] eqn:Hp.
  2:{ eapply response_spec_skip; [done..| |done]. congruence. }
  destruct (rpc_ID resp) as [n|] eqn:Hn.
  2:{ eapply response_spec_skip; [done..| |done]. congruence. }
  destruct (Z.eqb_spec n id) as [->|Hne].
  - exists i, s. split; [constructor|]. split_and!; [done..|]. by exists payload.
  - eapply response_spec_skip; [done..| |done]. congruence.
Qed.

(** Waiting for a response ends with the first answer to the request. What is
    returned decodes from a frame of the stream and carries the request's ID, and
    every frame before it was undecodable, a notification or another request's
    answer; an error is the context's or the reader's, and nothing that could
    have answered was passed over. The loop always ends. *)
Theorem readRPCResponseByID_spec (s : string) :
  response_spec 0 s (readRPCResponseByID decode ctx_done id s).
Proof. apply read_response_spec. lia. Qed.
End ResponseProperties.

(** ** The captured standard error *)

Definition write_all (l : limitedBuffer) (ps : list string) : limitedBuffer :=
  foldl (λ l p, (limitedBuffer_Write l p).1) l ps.

Lemma to_nat_nonpos z : z ≤ 0 → Z.to_nat z = 0%nat.
Proof. lia. Qed.

Lemma slen_stake n s : 0 ≤ n → slen (stake (Z.to_nat n) s) = Z.min n (slen s).
Proof. intros Hn. unfold slen. rewrite length_stake. lia. Qed.

(** The captured standard error is the first bytes the child wrote. Whatever
    the pieces, the buffer holds exactly the first [max] bytes of their
    concatenation (none for a non-positive [max]), and each write reports that
    everything was written, so that the child is never blocked by the cap. *)
Theorem limitedBuffer_prefix (maxBytes : Z) (ps : list string) :
  lb_buf (write_all (newLimitedBuffer maxBytes) ps) = stake (Z.to_nat maxBytes) (foldr String.append "" ps) ∧
  (∀ l p, (limitedBuffer_Write l p).2 = slen p).
Proof.
  split.
  2:{ intros l p. unfold limitedBuffer_Write. by repeat case_match. }
  assert (∀ l, slen (lb_buf l) ≤ Z.max 0 (lb_max l) →
    lb_buf (write_all l ps) = lb_buf l +:+ stake (Z.to_nat (lb_max l - slen (lb_buf l))) (foldr String.append "" ps)) as H.
  { induction ps as [|p ps IH]; intros l Hl.
    { cbn. destruct (Z.to_nat _); by rewrite sapp_nil_r. }
    change (write_all l (p :: ps)) with (write_all (limitedBuffer_Write l p).1 ps).
    change (foldr String.append "" (p :: ps)) with (p +:+ foldr String.append "" ps).
    unfold limitedBuffer_Write. rewrite Z.gtb_ltb.
    assert (0 ≤ slen (lb_buf l)) as H0 by (unfold slen; lia).
    destruct (lb_max l <=? 0) eqn:Hm; go_bools.
    { cbn [fst]. rewrite IH by done. rewrite to_nat_nonpos by lia. done. }
    destruct (lb_max l - slen (lb_buf l) <=? 0) eqn:Hr; go_bools.
    { cbn [fst]. rewrite IH by done. rewrite to_nat_nonpos by lia. done. }
    assert (Z.of_nat (String.length p) = slen p) as Hp by done.
    destruct (lb_max l - slen (lb_buf l) <? slen p) eqn:Hc; go_bools; cbn [fst].
    - rewrite IH; cbn [lb_max lb_buf]; rewrite slen_app, slen_stake by lia; [|lia].
      rewrite (to_nat_nonpos (_ - (_ + _))) by lia. rewrite (stake_app_le _ p) by lia. cbn. by rewrite sapp_nil_r.
    - rewrite IH; cbn [lb_max lb_buf]; rewrite slen_app; [|lia].
      rewrite (stake_app_ge _ p), sapp_assoc by lia. do 3 f_equal. lia. }
  rewrite H by (cbn; unfold slen; cbn; lia). cbn. by rewrite Z.sub_0_r.
Qed.

Example compact_exceeds : slen (compact "abcdef" 5) = 7.
Proof. reflexivity. Qed.
