(* ===== verification/Handshake.v ===== *)
(** * Probing ([internal/engine/engine.go] probers, [stdio_prober.go])

    The protocol checks behind a probe: which methods a handshake calls, how the
    answers are classified, over HTTP and over a child's stdio. What the network
    and the child answer is a parameter: a function from the request's index for
    HTTP, a stream of bytes for the child. [Details] maps are left out. *)

From Stdlib Require Import ZArith NArith Lia Ascii.
From stdpp Require Import base tactics strings gmap sorting.
From stdpp Require Import list.
From S2P Require Import Prelude Durations Net Url Targets Hurl Rpc.

Open Scope Z_scope.

(** ** Methods *)

(** [normalizeMethods] and [normalizeHandshakeMethods]: trimmed, not empty, the
    first of each. *)
Fixpoint normalize_go (seen : list string) (l : list string) : list string :=
  match l with
  | [] => []
  | m :: r =>
      let m := TrimSpace m in
      if (m =s "") || mem m seen then normalize_go seen r else m :: normalize_go (m :: seen) r
  end.
Definition normalizeHandshakeMethods (l : list string) : list string := normalize_go [] l.

Definition profile_of (t : Target) : string :=
  let p := ToLower (TrimSpace (HandshakeProfile (tgt_Check t))) in
  if p =s "" then "base" else p.

Definition httpHandshakeMethods (t : Target) : list string :=
  match RequiredMethods (tgt_Check t) with
  | _ :: _ => normalizeHandshakeMethods (RequiredMethods (tgt_Check t))
  | [] =>
      if profile_of t =s "strict" then
        if tgt_Protocol t =s ProtocolACP then ["initialize"; "session/setup"; "prompt/turn"]
        else ["initialize"; "tools/list"; "resources/list"]
      else ["initialize"]
  end.

Definition stdio_handshakeMethods (t : Target) : list string :=
  match RequiredMethods (tgt_Check t) with
  | _ :: _ => normalizeHandshakeMethods (RequiredMethods (tgt_Check t))
  | [] =>
      if profile_of t =s "strict" then
        if tgt_Protocol t =s ProtocolMCP then ["initialize"; "tools/list"; "resources/list"]
        else if tgt_Protocol t =s ProtocolACP then ["initialize"; "session/setup"; "prompt/turn"]
        else ["initialize"; "ping"]
      else ["initialize"]
  end.

Definition shouldRunHTTPHandshake (t : Target) : bool :=
  if negb (tgt_Protocol t =s ProtocolMCP) && negb (tgt_Protocol t =s ProtocolACP) then false
  else if tgt_Transport t =s TransportSSE then false
  else negb (ToLower (TrimSpace (HandshakeProfile (tgt_Check t))) =s "none").

(** ** Capabilities *)

(** [None] is a nil map. *)
Definition advertisedCapabilities (result : json) : option (list (string * json)) :=
  match field "capabilities" result with Some (JObject fs) => Some fs | _ => None end.

Definition is_null (j : json) : bool := match j with JNull => true | _ => false end.

Definition capabilityNames (advertised : option (list (string * json))) : list string :=
  sort_strings (map fst (filter (λ kv, is_null kv.2 = false) (default [] advertised))).

Definition family (want : string) : string :=
  let f := TrimSpace want in if has_byte "/" f then (cut_at "/" f).1 else f.

Definition advertises (advertised : option (list (string * json))) (name : string) : bool :=
  match field name (JObject (default [] advertised)) with Some v => negb (is_null v) | None => false end.

Definition capabilityGap (declared : list string) (advertised : option (list (string * json))) : list string :=
  filter (λ want, family want ≠ "" ∧ advertises advertised (family want) = false) declared.

(** ** Errors *)

Record probe_error := mkProbeError {
  pe_deadline : bool;          (* errors.Is(err, context.DeadlineExceeded) *)
  pe_canceled : bool;          (* errors.Is(err, context.Canceled) *)
  pe_net : option bool;        (* a net.Error, and whether it is a timeout *)
  pe_text : string;
}.

Definition classifyProbeError (e : probe_error) : FailureClass :=
  if pe_deadline e then FailureTimeout
  else
    match pe_net e with
    | Some true => FailureTimeout
    | Some false => FailureNetwork
    | None =>
        let msg := ToLower (pe_text e) in
        if contains_any msg ["tls"; "x509"] then FailureTLS
        else if contains_any msg ["unauthorized"; "forbidden"; "token"; "oauth"] then FailureAuth
        else if Contains msg "rate" then FailureRateLimited
        else FailureUnknown
    end.

Definition classifyStdioError (e : probe_error) : FailureClass :=
  if pe_deadline e || pe_canceled e then FailureTimeout
  else
    let msg := ToLower (pe_text e) in
    if contains_any msg ["method not found"; "rpc"; "json"; "content-length"; "initialize result";
                         "newline-delimited"; "unparsable stdout"; "handshake"] then FailureProtocol
    else if contains_any msg ["timeout"; "deadline exceeded"] then FailureTimeout
    else if contains_any msg ["executable file not found"; "no such file"; "permission denied"; "stdio.command"]
    then FailureConfig
    else if Contains msg "not found" then
      if Contains msg "method" then FailureProtocol else FailureConfig
    else FailureUnknown.

Definition statusMatches (code : Z) (expected : list Z) : bool :=
  match expected with
  | [] => (code >=? 200) && (code <? 300)
  | _ => existsb (Z.eqb code) expected
  end.

Definition hostPortWithDefault (u : URL) : string :=
  if negb (Port u =s "") then JoinHostPort (Hostname u) (Port u)
  else if mem (ToLower (url_Scheme u)) ["wss"; "https"] then JoinHostPort (Hostname u) "443"
  else JoinHostPort (Hostname u) "80".

(** ** HTTP *)

(** What a request gets: an error of the transport, or a status and a body.
    [hr_body] is the decoded JSON-RPC response, [None] when it does not decode. *)
Record http_response := mkHttpResponse {
  hr_status : Z;
  hr_content_type : string;
  hr_body : option rpcResponse;
}.
Abbreviation http_result := (http_response + probe_error)%type (only parsing).

Abbreviation Headers := (gmap string string) (only parsing).

(** The network, for requests that carry some headers. *)
Record Network := mkNetwork {
  net_get : http_result;                   (* the GET of a simple or SSE probe *)
  net_call : nat → string → http_result;   (* the request for the i-th method *)
  net_notify : nat → http_result;          (* the notification after the i-th method *)
  net_dial : option probe_error;           (* a TCP connection *)
}.

Definition result_of (t : Target) (state sev fc msg : string) (status : Z) (lat : Duration) (at_ : Time)
  : CheckResult :=
  {| zeroResult with cr_TargetID := tgt_ID t; cr_Protocol := tgt_Protocol t; cr_State := state;
     cr_Severity := sev; cr_FailureClass := fc; cr_Message := msg; cr_StatusCode := status;
     cr_Latency := lat; cr_CheckedAt := at_ |}.

(** What a handshake has seen so far. *)
Record progress := mkProgress {
  exercised : list string;
  failed : list string;
  firstFailure : string;
  failureCode : Z;
  advertised : option (list (string * json));
}.
Definition noProgress : progress := mkProgress [] [] "" 0 None.

Definition fail_method (p : progress) (m msg : string) (code : Z) : progress :=
  {| p with failed := failed p ++ [m];
     firstFailure := if firstFailure p =s "" then msg else firstFailure p;
     failureCode := if firstFailure p =s "" then code else failureCode p |}.

Definition bad_status (code : Z) : bool := (code <? 200) || (code >=? 300).

(** How one method's exchange goes on. *)
Inductive turn := Next (p : progress) | Break (p : progress) | Error (e : probe_error).

Section HTTP.
Context (net : Network) (t : Target).

(** The answer to the [i]-th method. *)
Definition http_method (i : nat) (m : string) (p : progress) : turn :=
  match net_call net i m with
  | inr e => Error e
  | inl resp =>
      if bad_status (hr_status resp) then
        Next (fail_method p m ("handshake method failed with status " +:+ Itoa (hr_status resp)) (hr_status resp))
      else
        match hr_body resp with
        | None => Next (fail_method p m "handshake method returned invalid JSON-RPC body" (failureCode p))
        | Some rpc =>
            if bool_decide (is_Some (rpc_Error rpc)) then
              Next (fail_method p m "handshake method rejected" (failureCode p))
            else if (m =s "initialize") && (tgt_Protocol t =s ProtocolMCP)
                    && bool_decide (is_Some (validateMCPInitializeResult (rpc_Result rpc))) then
              Break (fail_method p m "handshake method returned invalid initialize result" (failureCode p))
            else
              let p := {| p with exercised := exercised p ++ [m] |} in
              if m =s "initialize" then
                let p := {| p with advertised := advertisedCapabilities (rpc_Result rpc) |} in
                if tgt_Protocol t =s ProtocolMCP then
                  match net_notify net i with
                  | inr e => Error e
                  | inl resp =>
                      if bad_status (hr_status resp) then
                        Break (fail_method p "notifications/initialized"
                          ("handshake notification failed with status " +:+ Itoa (hr_status resp))
                          (hr_status resp))
                      else Next p
                  end
                else Next p
              else Next p
        end
  end.

Fixpoint http_methods_loop (i : nat) (ms : list string) (p : progress) : progress + probe_error :=
  match ms with
  | [] => inl p
  | m :: ms =>
      match http_method i m p with
      | Next p => http_methods_loop (S i) ms p
      | Break p => inl p
      | Error e => inr e
      end
  end.

(** The classification of a finished handshake. *)
Definition classify_handshake (methods : list string) (p : progress) (lat : Duration) (at_ : Time) : CheckResult :=
  let gap := capabilityGap (MinCapabilities (tgt_Expected t)) (advertised p) in
  let names := capabilityNames (advertised p) in
  let res s sev fc msg code := {| (result_of t s sev fc msg code lat at_) with cr_Capabilities := names |} in
  match exercised p with
  | [] => res StateUnhealthy SeverityWarn FailureProtocol (firstFailure p) (failureCode p)
  | _ =>
      match failed p, gap with
      | _ :: _, _ => res StateDegraded SeverityWarn FailureProtocol
          ("http(s) handshake partial: " +:+ Itoa (Z.of_nat (length (exercised p))) +:+ " of "
             +:+ Itoa (Z.of_nat (length methods)) +:+ " methods answered (" +:+ Join (failed p) ", "
             +:+ " failed) — " +:+ firstFailure p) 0
      | [], _ :: _ => res StateDegraded SeverityWarn FailureProtocol
          ("http(s) handshake passed, but the surface does not advertise " +:+ Join gap ", "
             +:+ " (advertised: " +:+ Join names ", " +:+ ")") 0
      | [], [] => res StateHealthy SeverityInfo FailureNone
          ("http(s) handshake passed: " +:+ Join (exercised p) ", ") 0
      end
  end.
End HTTP.

Section Probes.
Context {S : Type} (net : Network).

Definition probeJSONRPCHandshakeHTTP (t : Target) : M S (CheckResult + probe_error) :=
  let methods := httpHandshakeMethods t in
  start ← clock;
  match http_methods_loop net t 0 methods noProgress with
  | inr e => mret (inr e)
  | inl p =>
      stop ← clock;
      now ← clock;
      mret (inl (classify_handshake t methods p (TimeSub stop start) now))
  end.

Definition probeSimpleHTTP (t : Target) : M S (CheckResult + probe_error) :=
  start ← clock;
  stop ← clock;
  match net_get net with
  | inr e => mret (inr e)
  | inl resp =>
      now ← clock;
      let lat := TimeSub stop start in
      mret (inl (if statusMatches (hr_status resp) (HealthyStatusCodes (tgt_Expected t))
        then result_of t StateHealthy SeverityInfo FailureNone "healthy" (hr_status resp) lat now
        else result_of t StateUnhealthy SeverityWarn FailureProtocol
               ("unexpected status code " +:+ Itoa (hr_status resp)) (hr_status resp) lat now))
  end.

Definition probeSSE (t : Target) : M S (CheckResult + probe_error) :=
  start ← clock;
  stop ← clock;
  match net_get net with
  | inr e => mret (inr e)
  | inl resp =>
      now ← clock;
      let lat := TimeSub stop start in
      let ct := ToLower (TrimSpace (hr_content_type resp)) in
      mret (inl (
        if negb (ct =s "") && negb (Contains ct "text/event-stream") then
          result_of t StateUnhealthy SeverityWarn FailureProtocol "unexpected content-type for sse endpoint"
            (hr_status resp) lat now
        else if negb (statusMatches (hr_status resp) (HealthyStatusCodes (tgt_Expected t))) then
          result_of t StateUnhealthy SeverityWarn FailureProtocol
            ("unexpected status code " +:+ Itoa (hr_status resp)) (hr_status resp) lat now
        else result_of t StateHealthy SeverityInfo FailureNone "sse stream reachable" (hr_status resp) lat now))
  end.

Definition text_error (msg : string) : probe_error := mkProbeError false false None msg.

End Probes.

Section Probers.
Context {S : Type} (network : Headers → Network).

(** [HTTPProber.Probe] *)
Definition HTTPProber_Probe (headers : Headers) (t : Target) : M S (CheckResult + probe_error) :=
  let net := network headers in
  match Parse (tgt_Endpoint t) with
  | None => mret (inr (text_error "invalid endpoint"))
  | Some u =>
      let scheme := ToLower (url_Scheme u) in
      if mem scheme ["http"; "https"] then
        if tgt_Transport t =s TransportSSE then probeSSE net t
        else if shouldRunHTTPHandshake t then probeJSONRPCHandshakeHTTP net t
        else probeSimpleHTTP net t
      else if mem scheme ["ws"; "wss"] then
        start ← clock;
        stop ← clock;
        match net_dial net with
        | Some e => mret (inr e)
        | None =>
            now ← clock;
            mret (inl (result_of t StateHealthy SeverityInfo FailureNone "reachable" 0 (TimeSub stop start) now))
        end
      else mret (inr (text_error ("unsupported endpoint scheme " +:+ url_Scheme u)))
  end.

(** ** Stdio

    A child process: what fails before it runs, what it prints on its standard
    output (a finite stream whose end is an error), which writes to it fail, the
    turns of which read find the context done, and the error of the context when
    a read fails. *)
Record Child := mkChild {
  ch_start : option probe_error;
  ch_stdout : string;
  ch_write : nat → option probe_error;
  ch_notify : nat → option probe_error;
  ch_done : nat → nat → bool;
  ch_ctx_err : nat → option probe_error;
  ch_stderr : string;                    (* as captured by the limited buffer *)
}.

Definition read_error_text (e : read_error) : string :=
  match e with
  | EndOfStream => "EOF"
  | FrameTooLong => "rpc frame exceeds the limit without a newline"
  | TruncatedFrame => "truncated rpc frame: unexpected EOF"
  | ContentLengthFraming =>
      "peer used LSP Content-Length framing; MCP and ACP stdio require newline-delimited JSON"
  | ContextDone => "context done"
  end.

Definition wrap_error (prefix : string) (e : probe_error) : probe_error :=
  {| e with pe_net := None; pe_text := prefix +:+ pe_text e |}.

Context (decode : string → option rpcResponse) (child : Child).

(** The methods left, from the [i]-th on; [s] is the unread output. *)
Fixpoint stdio_methods (t : Target) (i : nat) (ms : list string) (done_ : list string) (s : string)
  : list string * option probe_error :=
  match ms with
  | [] => (done_, None)
  | m :: ms =>
      match ch_write child i with
      | Some e => (done_, Some (wrap_error "write rpc request: " e))
      | None =>
          match readRPCResponseByID decode (ch_done child i) (1 + Z.of_nat i) s with
          | inr e =>
              let text := "read rpc response: " +:+ read_error_text e in
              match ch_ctx_err child i with
              | Some ctxErr => (done_, Some (wrap_error "read rpc response: " ctxErr))
              | None => (done_, Some (text_error text))
              end
          | inl (resp, rest) =>
              if bool_decide (is_Some (rpc_Error resp)) then
                (done_, Some (text_error "handshake method rejected"))
              else if (m =s "initialize") && (tgt_Protocol t =s ProtocolMCP) then
                match validateMCPInitializeResult (rpc_Result resp) with
                | Some why => (done_, Some (text_error why))
                | None =>
                    match ch_notify child i with
                    | Some e => (done_, Some (wrap_error "write rpc notification: " e))
                    | None => stdio_methods t (Datatypes.S i) ms (done_ ++ [m]) rest
                    end
                end
              else stdio_methods t (Datatypes.S i) ms (done_ ++ [m]) rest
          end
      end
  end.

Definition performHandshake (t : Target) : list string * option probe_error :=
  match ch_start child with
  | Some e => ([], Some e)
  | None =>
      match stdio_handshakeMethods t with
      | [] => ([], Some (text_error "no handshake methods configured"))
      | ms => stdio_methods t 0 ms [] (ch_stdout child)
      end
  end.

(** [StdioProber.Probe]: the headers are not used. *)
Definition StdioProber_Probe (headers : Headers) (t : Target) : M S (CheckResult + probe_error) :=
  if negb (tgt_Transport t =s TransportStdio) then HTTPProber_Probe ∅ t
  else
    start ← clock;
    checkAt ← clock;
    let res state fc msg :=
      stop ← clock;
      mret (inl (result_of t state (if state =s StateHealthy then SeverityInfo else SeverityWarn) fc msg 0
        (TimeSub stop start) checkAt)) in
    if blank (Command (tgt_Stdio t)) then
      res StateUnhealthy FailureConfig "stdio.command is required for stdio targets"
    else if EqualFold (TrimSpace (HandshakeProfile (tgt_Check t))) "none" then
      res StateHealthy FailureNone
        "stdio target configured with handshake_profile=none; protocol handshake skipped"
    else
      let '(exercised, err) := performHandshake t in
      match err with
      | Some e =>
          let msg := if ch_stderr child =s "" then pe_text e
                     else pe_text e +:+ " | stderr: " +:+ compact (ch_stderr child) 300 in
          res StateUnhealthy (classifyStdioError e) msg
      | None => res StateHealthy FailureNone ("stdio handshake passed: " +:+ Join exercised ", ")
      end.

(** The credentials of a check reach no probe. *)
Lemma StdioProber_drops_headers headers t : StdioProber_Probe headers t = StdioProber_Probe ∅ t.
Proof. reflexivity. Qed.
End Probers.

(** ** The methods of a handshake *)

Lemma normalize_go_NoDup l seen :
  NoDup (normalize_go seen l) ∧ ∀ m, m ∈ normalize_go seen l → m ∉ seen ∧ m ≠ "".
Proof.
  revert seen. induction l as [|x l IH]; intros seen; cbn [normalize_go].
  { split; [constructor|]. by intros m ?%not_elem_of_nil. }
  cbv zeta. destruct (_ || _) eqn:E; [apply IH|].
  apply orb_false_iff in E as [He Hs]. go_bools.
  destruct (IH (TrimSpace x :: seen)) as [Hn Hin]. split.
  - constructor; [|done]. intros [Hx _]%Hin. apply Hx. by left.
  - intros m [->|Hm]%elem_of_cons.
    + split; [|done]. intros Hx%mem_true. congruence.
    + apply Hin in Hm as [Hm ?]. split; [|done]. intros ?. apply Hm. by right.
Qed.

Lemma httpHandshakeMethods_NoDup t : NoDup (httpHandshakeMethods t).
Proof.
  unfold httpHandshakeMethods. destruct (RequiredMethods _); [|apply normalize_go_NoDup].
  repeat case_match; repeat constructor; set_unfold; naive_solver.
Qed.

(** ** What a handshake over HTTP establishes *)

Section Classification.
Context (net : Network) (t : Target).

(** The [i]-th method, [m], was answered in full. *)
Definition answers (i : nat) (m : string) : Prop :=
  ∃ resp rpc, net_call net i m = inl resp ∧ bad_status (hr_status resp) = false ∧
    hr_body resp = Some rpc ∧ rpc_Error rpc = None ∧
    (m = "initialize" → tgt_Protocol t = ProtocolMCP →
       validateMCPInitializeResult (rpc_Result rpc) = None ∧
       ∃ n, net_notify net i = inl n ∧ bad_status (hr_status n) = false).

(** What the answer to the [i]-th request advertises. *)
Definition caps_of (i : nat) : option (list (string * json)) :=
  match net_call net i "initialize" with
  | inl resp => rpc ← hr_body resp; advertisedCapabilities (rpc_Result rpc)
  | inr _ => None
  end.

Lemma fail_method_failed p m msg code :
  failed (fail_method p m msg code) ≠ [] ∧ exercised (fail_method p m msg code) = exercised p ∧
  advertised (fail_method p m msg code) = advertised p.
Proof. split; [|done]. cbn. by destruct (failed p). Qed.

Lemma http_method_spec i m p :
  match http_method net t i m p with
  | Next p' =>
      (answers i m ∧ exercised p' = exercised p ++ [m] ∧ failed p' = failed p ∧
        advertised p' = if m =s "initialize" then caps_of i else advertised p) ∨
      (¬ answers i m ∧ failed p' ≠ [] ∧ exercised p' = exercised p)
  | Break p' => ¬ answers i m ∧ failed p' ≠ [] ∧ exercised p `prefix_of` exercised p'
  | Error _ => True
  end.
Proof.
  unfold http_method. destruct (net_call net i m) as [resp|e] eqn:Hc; [|done].
  destruct (bad_status (hr_status resp)) eqn:Hb.
  { right. split_and!; [|by apply fail_method_failed..]. intros (r & c & ? & ? & _). congruence. }
  destruct (hr_body resp) as [rpc|] eqn:Hr.
  2:{ right. split_and!; [|by apply fail_method_failed..]. intros (r & c & ? & _ & ? & _). congruence. }
  destruct (bool_decide (is_Some (rpc_Error rpc))) eqn:He; go_bools.
  { right. split_and!; [|by apply fail_method_failed..]. destruct He as [x Hx].
    intros (r & c & ? & _ & ? & ? & _). congruence. }
  apply eq_None_not_Some in He.
  assert (∀ Q : Prop, (m = "initialize" → tgt_Protocol t = ProtocolMCP →
      validateMCPInitializeResult (rpc_Result rpc) = None ∧ ∃ n, net_notify net i = inl n ∧
      bad_status (hr_status n) = false) ↔ Q → answers i m ↔ Q) as Hans.
  { intros Q <-. split; [|by exists resp, rpc]. intros (r & c & ? & _ & ? & _ & H).
    assert (c = rpc) as -> by congruence. exact H. }
  destruct (m =s "initialize") eqn:Hm; go_bools; cbn [andb].
  2:{ left. split_and!; [|done..]. by apply (Hans True); tauto. }
  subst m. assert (caps_of i = advertisedCapabilities (rpc_Result rpc)) as Hcaps
    by (unfold caps_of; by rewrite Hc, Hr).
  destruct (tgt_Protocol t =s ProtocolMCP) eqn:Hp; go_bools; cbn [andb].
  2:{ left. split_and!; [|done|done|by rewrite Hcaps]. apply (Hans True); tauto. }
  destruct (bool_decide (is_Some (validateMCPInitializeResult (rpc_Result rpc)))) eqn:Hv; go_bools.
  { split_and!; [|by apply fail_method_failed|done].
    rewrite (Hans False); [tauto|]. split; [|done]. intros H. destruct H as [H _]; [done..|].
    rewrite H in Hv. by destruct Hv. }
  apply eq_None_not_Some in Hv.
  destruct (net_notify net i) as [n|e] eqn:Hn; [|done].
  destruct (bad_status (hr_status n)) eqn:Hbn.
  - split_and!; [|by apply fail_method_failed|by apply prefix_app_r].
    rewrite (Hans False); [tauto|]. split; [|done]. intros H. destruct H as (_ & n' & ? & ?); [done..|]. congruence.
  - left. split_and!; [|done|done|by rewrite Hcaps]. apply (Hans True); [|done].
    split; [done|]. intros _ _ _. split; [done|]. by exists n.
Qed.

Lemma http_methods_loop_spec i ms p p' :
  http_methods_loop net t i ms p = inl p' →
  exercised p `prefix_of` exercised p' ∧
  (failed p ≠ [] → failed p' ≠ []) ∧
  (failed p = [] → failed p' = [] ↔ ∀ j m, ms !! j = Some m → answers (i + j) m) ∧
  (failed p' = [] → exercised p' = exercised p ++ ms) ∧
  (failed p' = [] → NoDup ms → advertised p' =
     match list_find (λ m, m = "initialize") ms with Some (j, _) => caps_of (i + j) | None => advertised p end).
Proof.
  revert i p. induction ms as [|m ms IH]; intros i p; cbn [http_methods_loop].
  { intros [= <-]. rewrite app_nil_r. by split_and!. }
  pose proof (http_method_spec i m p) as Hm.
  assert (∀ Q : Prop, ((∀ j x, (m :: ms) !! j = Some x → answers (i + j) x) ↔
    answers i m ∧ ∀ j x, ms !! j = Some x → answers (S i + j) x)) as Hcons.
  { intros _. split.
    - intros H. split; [rewrite <- (Nat.add_0_r i); by apply H|].
      intros j x Hj. replace (S i + j)%nat with (i + S j)%nat by lia. by apply H.
    - intros [H0 H] [|j] x Hj; cbn in Hj; [injection Hj as <-; by rewrite Nat.add_0_r|].
      replace (i + S j)%nat with (S i + j)%nat by lia. by apply H. }
  specialize (Hcons True).
  destruct (http_method net t i m p) as [q|q|e]; [| |done].
  - intros Hl. apply IH in Hl as (Hpre & Hf & Hiff & Hex & Had).
    destruct Hm as [(Ha & He & Hfq & Hq)|(Hna & Hfq & He)].
    + rewrite He in Hpre, Hex. rewrite Hfq in Hf, Hiff. rewrite Hq in Had.
      split_and!; [by eapply prefix_app_l|done| | |].
      * intros Hp. rewrite Hcons, (Hiff Hp). tauto.
      * intros H. rewrite (Hex H), <- app_assoc. done.
      * intros H [Hnm Hnd]%NoDup_cons. rewrite (Had H Hnd). cbn [list_find].
        unfold streq. destruct (decide (m = "initialize")) as [->|Hne].
        -- rewrite bool_decide_eq_true_2 by done. rewrite Nat.add_0_r.
           destruct (list_find _ ms) as [[j x]|] eqn:Hfind; [|done].
           apply list_find_Some in Hfind as (Hj & -> & _). exfalso. apply Hnm. by eapply list_elem_of_lookup_2.
        -- rewrite bool_decide_eq_false_2 by done.
           destruct (list_find _ ms) as [[j x]|]; [|done]. cbn. f_equal. lia.
    + rewrite He in Hpre. apply Hf in Hfq. split_and!; [done|done| |done|done].
      intros _. rewrite Hcons. tauto.
  - intros [= <-]. destruct Hm as (Hna & Hfq & Hpre). split_and!; [done|done| |done|done].
    intros _. rewrite Hcons. tauto.
Qed.

Lemma http_methods_loop_first i m ms p p' :
  http_methods_loop net t i (m :: ms) p = inl p' → answers i m → exercised p' ≠ [].
Proof.
  cbn [http_methods_loop]. intros Hl Ha. pose proof (http_method_spec i m p) as Hm.
  destruct (http_method net t i m p) as [q|q|e]; [|by destruct Hm|done].
  destruct Hm as [(_ & He & _)|[Hn _]]; [|done].
  apply http_methods_loop_spec in Hl as ([k Hk] & _). rewrite Hk, He. by destruct (exercised p).
Qed.

Lemma capabilityGap_nil declared adv :
  capabilityGap declared adv = [] ↔
  ∀ want, want ∈ declared → family want ≠ "" → advertises adv (family want) = true.
Proof.
  unfold capabilityGap. split.
  - intros H want Hin Hf. apply not_false_iff_true. intros Ha.
    eapply filter_nil_not_elem_of; [exact H|..|exact Hin]. done.
  - intros H. destruct (filter _ declared) as [|x l] eqn:E; [done|].
    assert (x ∈ filter (λ want, family want ≠ "" ∧ advertises adv (family want) = false) declared) as Hx
      by (rewrite E; by left).
    apply list_elem_of_filter in Hx as [[Hf Ha] Hin]. by rewrite (H x Hin Hf) in Ha.
Qed.
End Classification.

(** What the loop saw decides the state. *)
Lemma classify_loop (net : Network) (t : Target) p lat at_ :
  http_methods_loop net t 0 (httpHandshakeMethods t) noProgress = inl p →
  let methods := httpHandshakeMethods t in
  let r := classify_handshake t methods p lat at_ in
  (cr_State r = StateHealthy ↔
     methods ≠ [] ∧ (∀ j m, methods !! j = Some m → answers net t j m) ∧
     ∀ want, want ∈ MinCapabilities (tgt_Expected t) → family want ≠ "" →
       ∃ j, methods !! j = Some "initialize" ∧ advertises (caps_of net j) (family want) = true) ∧
  (cr_State r = StateHealthy ∨ cr_State r = StateDegraded ∨
   cr_State r = StateUnhealthy ∧ ∀ m, methods !! 0%nat = Some m → ¬ answers net t 0 m).
Proof.
  intros Hl. cbv zeta. pose proof (httpHandshakeMethods_NoDup t) as Hnd.
  pose proof (http_methods_loop_spec net t 0 _ _ _ Hl) as (_ & _ & Hf & He & Ha).
  specialize (Hf eq_refl). cbn [Nat.add] in Hf.
  assert (failed p = [] → capabilityGap (MinCapabilities (tgt_Expected t)) (advertised p) = [] ↔
    ∀ want, want ∈ MinCapabilities (tgt_Expected t) → family want ≠ "" →
       ∃ j, httpHandshakeMethods t !! j = Some "initialize" ∧ advertises (caps_of net j) (family want) = true) as Hg.
  { intros Hfp. rewrite capabilityGap_nil, (Ha Hfp Hnd).
    destruct (list_find _ _) as [[j x]|] eqn:E; cbn [Nat.add].
    - apply list_find_Some in E as (Hj & -> & _). split; [intros H want ? ?; exists j; auto|].
      intros H want Hw Hfam. destruct (H want Hw Hfam) as (j' & Hj' & Hadv).
      by rewrite (NoDup_lookup _ _ _ _ Hnd Hj Hj').
    - split; [intros H want Hw Hfam; by specialize (H want Hw Hfam)|].
      intros H want Hw Hfam. destruct (H want Hw Hfam) as (j' & Hj' & _). exfalso.
      rewrite list_find_None, Forall_lookup in E. by eapply E. }
  unfold classify_handshake. cbv zeta.
  destruct (exercised p) as [|e es] eqn:Ee.
  - cbn [cr_State]. split.
    + split; [done|]. intros (Hne & Hall & _). apply Hf in Hall. rewrite Hall in He. by rewrite (He eq_refl) in Hne.
    + right. right. split; [done|]. intros m Hm Hans.
      destruct (httpHandshakeMethods t) as [|m' ms]; [done|]. injection Hm as ->.
      by eapply http_methods_loop_first.
  - destruct (failed p) as [|f fs] eqn:Ef.
    + pose proof (He eq_refl) as Hm. change (e :: es = httpHandshakeMethods t) in Hm.
      rewrite <- (Hg eq_refl), <- Hf, <- Hm.
      destruct (capabilityGap _ _) as [|g gs]; cbn [cr_State]; [|naive_solver].
      split; [done|by left].
    + split; [|by right; left]. split; [done|]. intros (_ & Hall & _). by apply Hf in Hall.
Qed.

(** C18: healthy means every promise was kept. When a handshake over HTTP
    completes, the target is healthy exactly when every method was answered
    (a status in the 200s, a JSON-RPC body without an error and, for MCP, a valid
    initialize result whose notification was accepted) and the initialize answer
    advertises the family of every capability the target declares; otherwise it
    is degraded or unhealthy, and unhealthy only if its first method was not
    answered. *)
Theorem handshake_healthy {S : Type} (net : Network) (t : Target) (env : Env) (tick : nat) (s : S)
  (r : CheckResult) :
  result (probeJSONRPCHandshakeHTTP net t) env tick s = inl r →
  let methods := httpHandshakeMethods t in
  (cr_State r = StateHealthy ↔
     methods ≠ [] ∧ (∀ j m, methods !! j = Some m → answers net t j m) ∧
     ∀ want, want ∈ MinCapabilities (tgt_Expected t) → family want ≠ "" →
       ∃ j, methods !! j = Some "initialize" ∧ advertises (caps_of net j) (family want) = true) ∧
  (cr_State r = StateHealthy ∨ cr_State r = StateDegraded ∨
   cr_State r = StateUnhealthy ∧ ∀ m, methods !! 0%nat = Some m → ¬ answers net t 0 m).
Proof.
  intros Hr. cbv zeta.
  enough (wp (probeJSONRPCHandshakeHTTP net t) env tick s (λ res _ _, ∀ r, res = inl r →
    ∃ p lat at_, http_methods_loop net t 0 (httpHandshakeMethods t) noProgress = inl p ∧
      r = classify_handshake t (httpHandshakeMethods t) p lat at_)) as H.
  { rewrite wp_run in H. apply H in Hr as (p & lat & at_ & Hp & ->). by apply classify_loop. }
  unfold probeJSONRPCHandshakeHTTP. wp_go.
  destruct (http_methods_loop _ _ _ _ _) as [p|e]; wp_go; [|done].
  intros r' [= <-]. by eexists p, _, _.
Qed.

Definition ex_target : Target :=
  mkTarget "t" true ProtocolMCP "T" "http://h/" "http" "remote"
    (mkExpected [] ["tools/list"] 0 "") (mkAuthConfig "" "" "" "" "" "" "" "" [] "")
    (mkStdio "" [] ∅ "") (mkCheckPolicy Second Second 1 "" [] []) ∅ ∅ ∅.
Definition ex_network (result : json) (h : Headers) : Network :=
  let answer := inl (mkHttpResponse 200 "" (Some (mkRpcResponse (Some 1) result None))) in
  mkNetwork answer (λ _ _, answer) (λ _, answer) None.

Lemma handshake_healthy_witness :
  ∃ r, result (probeJSONRPCHandshakeHTTP (S:=unit) (ex_network good_init ∅) ex_target) (frozen 7 "") 0 tt = inl r ∧
    cr_State r = StateHealthy ∧
    ∀ j m, httpHandshakeMethods ex_target !! j = Some m → answers (ex_network good_init ∅) ex_target j m.
Proof.
  eexists. split; [reflexivity|]. split; [reflexivity|].
  apply (handshake_healthy (ex_network good_init ∅) ex_target (frozen 7 "") 0 tt _ eq_refl).
  reflexivity.
Defined.

(** A surface that keys its capabilities by another case passes the initialize
    check, whose decoder ignores case, and then advertises nothing. *)
Example capabilities_by_case :
  let init := JObject
    [("Capabilities", JObject [("tools", JObject [])]); ("protocolVersion", JString "2025-06-18");
     ("serverInfo", JObject [("name", JString "s"); ("version", JString "1")])] in
  validateMCPInitializeResult init = None ∧ advertisedCapabilities init = None.
Proof. by split. Qed.
