(* ===== verification/Config.v ===== *)
(** * Configuration: schema and defaults ([internal/config/config.go])

    The typed schema and [ApplyDefaults], which fills in what the file leaves
    out and reconciles the two ways a target can be written. The auth, stdio,
    expected and HURL sections of a target have the fields of [targets]' structs
    and use their records; the inline map of unknown keys is not kept. *)

From Stdlib Require Import ZArith Lia Ascii.
From stdpp Require Import base tactics strings gmap.
From stdpp Require Import list.
From S2P Require Import Prelude Durations Net Url Targets.

Open Scope Z_scope.

(** ** Schema *)

Record ServiceConfig := mkServiceConfig {
  svc_Name : string;
  svc_Environment : string;
  svc_Mode : string;
  svc_LogLevel : string;
  svc_PollInterval : string;
  svc_Timeout : string;
  svc_MaxWorkers : Z;
  svc_EfficiencyProfile : string;
}.

Record HealthRoutes := mkHealthRoutes {
  hr_Healthz : string;
  hr_Readyz : string;
  hr_Status : string;
}.

Record HealthConfig := mkHealthConfig {
  hc_Enabled : bool;
  hc_ListenAddr : string;
  hc_Endpoints : HealthRoutes;
  hc_SelfCheck : bool;
  hc_IsotopeTTL : string;
}.

Record RuntimeConfig := mkRuntimeConfig {
  run_LockFile : string;
  run_StateDir : string;
  run_BaselineFile : string;
  run_EventHistorySize : Z;
  run_GracefulShutdownTimeout : string;
}.

Record LocalProxyScanConfig := mkLocalProxyScanConfig {
  lps_Enabled : bool;
  lps_Hosts : list string;
  lps_Ports : list Z;
}.

Record CloudCatalogConfig := mkCloudCatalogConfig {
  cat_Enabled : bool;
  cat_URLs : list string;
}.

Record LLMSTxtDiscoveryConfig := mkLLMSTxtDiscoveryConfig {
  llm_Enabled : bool;
  llm_RemoteURIs : list string;
  llm_FetchTimeout : string;
  llm_RequireHTTPS : bool;
  llm_AutoRegisterAsTargets : bool;
  llm_AutoRegisterOAuth : bool;
}.

Record DiscoveryConfig := mkDiscoveryConfig {
  dsc_Enabled : bool;
  dsc_Interval : string;
  dsc_IncludeLocalPath : list string;
  dsc_IncludeEnvVars : list string;
  dsc_LocalProxyScan : LocalProxyScanConfig;
  dsc_CloudCatalog : CloudCatalogConfig;
  dsc_LLMSTxt : LLMSTxtDiscoveryConfig;
}.

Record SeverityConfig := mkSeverityConfig {
  sev_Healthy : string;
  sev_Degraded : string;
  sev_Regression : string;
  sev_Outage : string;
}.

Record SinkToggleConfig := mkSinkToggleConfig {
  tog_Enabled : bool;
}.

Record OSNotificationSinkConfig := mkOSNotificationSinkConfig {
  osn_Enabled : bool;
  osn_TitlePrefix : string;
}.

Record AlertSinkConfig := mkAlertSinkConfig {
  snk_Log : SinkToggleConfig;
  snk_OSNotification : OSNotificationSinkConfig;
}.

Record AlertsConfig := mkAlertsConfig {
  alr_Aggressive : bool;
  alr_NotifyOnRegressionImmediately : bool;
  alr_RetryBeforeEscalation : Z;
  alr_DedupeWindow : string;
  alr_Cooldown : string;
  alr_Severity : SeverityConfig;
  alr_Sinks : AlertSinkConfig;
}.

Record GlobalKeystoreConfig := mkGlobalKeystoreConfig {
  gk_Enabled : bool;
  gk_Provider : string;
}.

Record RedactionConfig := mkRedactionConfig {
  rd_Enabled : bool;
  rd_Mask : string;
}.

Record GlobalOAuthUnattended := mkGlobalOAuthUnattended {
  gu_Enabled : bool;
  gu_AllowDeviceCode : bool;
  gu_AllowClientCredentials : bool;
  gu_AllowRefreshToken : bool;
}.

Record OAuthMockRedirectConfig := mkOAuthMockRedirectConfig {
  mr_Enabled : bool;
  mr_ListenAddr : string;
  mr_Path : string;
  mr_Mode : string;
}.

Record GlobalOAuthConfig := mkGlobalOAuthConfig {
  go_Enabled : bool;
  go_TokenGracePeriod : string;
  go_Unattended : GlobalOAuthUnattended;
  go_MockRedirect : OAuthMockRedirectConfig;
}.

Record GlobalAuthConfig := mkGlobalAuthConfig {
  ga_Keystore : GlobalKeystoreConfig;
  ga_Redaction : RedactionConfig;
  ga_OAuth : GlobalOAuthConfig;
}.

Record TargetOAuthConfig := mkTargetOAuthConfig {
  to_ClientID : string;
  to_ClientSecretRef : string;
  to_Scope : string;
  to_TokenURL : string;
}.

Record TargetCheckConfig := mkTargetCheckConfig {
  cc_Interval : string;
  cc_Timeout : string;
  cc_Retries : Z;
  cc_HandshakeProfile : string;
  cc_RequiredMethods : list string;
  cc_HURLTests : list HURLTest;
}.

Record TargetConfig := mkTargetConfig {
  tc_ID : string;
  tc_Enabled : bool;
  tc_Protocol : string;
  tc_Name : string;
  tc_Endpoint : string;
  tc_Transport : string;
  tc_Expected : ExpectedBehavior;
  tc_Auth : AuthConfig;
  tc_Stdio : StdioCommand;
  tc_Check : TargetCheckConfig;
  tc_Type : string;
  tc_URL : string;
  tc_Command : list string;
  tc_Environment : gmap string string;
  tc_Headers : gmap string string;
  tc_OAuth : option TargetOAuthConfig;
}.

Record KnownStateConfig := mkKnownStateConfig {
  ks_Enabled : bool;
  ks_Persist : bool;
  ks_SustainSuccessBeforeMarkHealthy : Z;
  ks_ClassifyNewFailuresAfterHealthyAs : string;
  ks_OutageThresholdConsecutiveFailures : Z;
}.

Record MetaPlaceholders := mkMetaPlaceholders {
  mp_Token : string;
  mp_ClientSecret : string;
  mp_Endpoint : string;
}.

Record MetaConfigConfig := mkMetaConfigConfig {
  mc_Enabled : bool;
  mc_OutputDir : string;
  mc_Formats : list string;
  mc_IncludeConfidence : bool;
  mc_IncludeProvenance : bool;
  mc_Placeholders : MetaPlaceholders;
}.

Record RemoteUpdateConfig := mkRemoteUpdateConfig {
  ru_Strategy : string;
  ru_StopCommand : string;
  ru_StartCommand : string;
  ru_VerifyCommand : string;
  ru_RollbackOnFailure : bool;
  ru_MaxWaitForHealthy : string;
}.

Record RemoteSafetyConfig := mkRemoteSafetyConfig {
  rsf_RequireLock : bool;
  rsf_LockTTL : string;
}.

Record RemoteAgentConfig := mkRemoteAgentConfig {
  ra_ManagedUpdates : bool;
  ra_ControlEndpoint : string;
  ra_Update : RemoteUpdateConfig;
  ra_Safety : RemoteSafetyConfig;
}.

Record HostedEndpointConfig := mkHostedEndpointConfig {
  he_MCP : string;
  he_ACP : string;
  he_A2A : string;
}.

Record HostedConfig := mkHostedConfig {
  hs_Enabled : bool;
  hs_ListenAddr : string;
  hs_Transports : list string;
  hs_Protocols : list string;
  hs_Endpoints : HostedEndpointConfig;
}.

Record DynamicConfigConfig := mkDynamicConfigConfig {
  dy_Enabled : bool;
  dy_Directory : string;
  dy_Formats : list string;
  dy_ServeBaseURL : string;
  dy_AllowOverwrite : bool;
  dy_RequireUniqueIDs : bool;
}.

Record TelemetryConfig := mkTelemetryConfig {
  tm_Enabled : bool;
  tm_Endpoint : string;
  tm_ServiceName : string;
  tm_ExportInterval : string;
}.

Record FederationConfig := mkFederationConfig {
  fd_Enabled : bool;
  fd_ClusterID : string;
  fd_Upstream : string;
  fd_Downstream : list string;
  fd_Rank : Z;
  fd_PollInterval : string;
  fd_BasePort : Z;
  fd_MaxPort : Z;
  fd_AnnounceInterval : string;
  fd_HeartbeatInterval : string;
  fd_HeartbeatTimeout : string;
  fd_Introducer : string;
  fd_BindAddr : string;
  fd_SharedSecret : string;
  fd_ReportInterval : string;
}.

Record TunerAudienceConfig := mkTunerAudienceConfig {
  ta_Enabled : bool;
  ta_Endpoint : string;
}.

Record TunerCallerHookConfig := mkTunerCallerHookConfig {
  th_Enabled : bool;
  th_MCPResponse : bool;
}.

Record TunerConfig := mkTunerConfig {
  tn_Enabled : bool;
  tn_Advertise : bool;
  tn_ServiceType : string;
  tn_Audience : TunerAudienceConfig;
  tn_CallerHook : TunerCallerHookConfig;
}.

Record TrustConfig := mkTrustConfig {
  ts_Clusters : gmap string string;
  ts_Roots : gmap string string;
}.

Record Config := mkConfig {
  cfg_Version : string;
  cfg_Service : ServiceConfig;
  cfg_Health : HealthConfig;
  cfg_Runtime : RuntimeConfig;
  cfg_Discovery : DiscoveryConfig;
  cfg_Alerts : AlertsConfig;
  cfg_Auth : GlobalAuthConfig;
  cfg_Targets : list TargetConfig;
  cfg_KnownState : KnownStateConfig;
  cfg_MetaConfig : MetaConfigConfig;
  cfg_RemoteAgent : RemoteAgentConfig;
  cfg_Hosted : HostedConfig;
  cfg_DynamicConfig : DynamicConfigConfig;
  cfg_Telemetry : TelemetryConfig;
  cfg_Federation : FederationConfig;
  cfg_Tuner : TunerConfig;
  cfg_Trust : TrustConfig;
}.

(** The zero value: what an empty file decodes to. *)
Definition zeroTargetConfig : TargetConfig :=
  mkTargetConfig "" false "" "" "" "" (mkExpected [] [] 0 "") (mkAuthConfig "" "" "" "" "" "" "" ""
    [] "") (mkStdio "" [] ∅ "") (mkTargetCheckConfig "" "" 0 "" [] []) "" "" [] ∅ ∅ None.
Definition zeroConfig : Config :=
  mkConfig "" (mkServiceConfig "" "" "" "" "" "" 0 "") (mkHealthConfig false "" (mkHealthRoutes ""
    "" "") false "") (mkRuntimeConfig "" "" "" 0 "") (mkDiscoveryConfig false "" [] []
    (mkLocalProxyScanConfig false [] []) (mkCloudCatalogConfig false []) (mkLLMSTxtDiscoveryConfig
    false [] "" false false false)) (mkAlertsConfig false false 0 "" "" (mkSeverityConfig "" "" ""
    "") (mkAlertSinkConfig (mkSinkToggleConfig false) (mkOSNotificationSinkConfig false "")))
    (mkGlobalAuthConfig (mkGlobalKeystoreConfig false "") (mkRedactionConfig false "")
    (mkGlobalOAuthConfig false "" (mkGlobalOAuthUnattended false false false false)
    (mkOAuthMockRedirectConfig false "" "" ""))) [] (mkKnownStateConfig false false 0 "" 0)
    (mkMetaConfigConfig false "" [] false false (mkMetaPlaceholders "" "" "")) (mkRemoteAgentConfig
    false "" (mkRemoteUpdateConfig "" "" "" "" false "") (mkRemoteSafetyConfig false ""))
    (mkHostedConfig false "" [] [] (mkHostedEndpointConfig "" "" "")) (mkDynamicConfigConfig false
    "" [] "" false false) (mkTelemetryConfig false "" "" "") (mkFederationConfig false "" "" [] 0 ""
    0 0 "" "" "" "" "" "" "") (mkTunerConfig false false "" (mkTunerAudienceConfig false "")
    (mkTunerCallerHookConfig false false)) (mkTrustConfig ∅ ∅).

(** ** Constants *)

Definition ModeForeground : string := "foreground".
Definition ModeBackground : string := "background".
Definition ModeHeadless : string := "headless".
Definition EfficiencyAuto : string := "auto".
Definition EfficiencyLow : string := "low".
Definition EfficiencyMedium : string := "medium".
Definition EfficiencyHigh : string := "high".
Definition TransportHTTP : string := "http".
Definition TransportWebSocket : string := "websocket".
Definition ProtocolHTTP : string := "http".
Definition TargetTypeLocal : string := "local".
Definition TargetTypeRemote : string := "remote".

(** ** Helpers *)

(** A field left empty takes its default. *)
Definition or_str (s d : string) : string := if s =s "" then d else s.
Definition or_list {A} (l d : list A) : list A := match l with [] => d | _ => l end.
Definition or_pos (z d : Z) : Z := if z <=? 0 then d else z.

Definition effective_profile (s : ServiceConfig) : string :=
  let profile := ToLower (svc_EfficiencyProfile s) in
  if (profile =s "") || (profile =s EfficiencyAuto) then EfficiencyMedium else profile.
Definition applyEfficiencyProfile (s : ServiceConfig) : ServiceConfig :=
  let profile := effective_profile s in
  if profile =s EfficiencyLow then
    {| s with svc_MaxWorkers := if (svc_MaxWorkers s <=? 0) || (2 <? svc_MaxWorkers s) then 1 else svc_MaxWorkers s;
       svc_PollInterval := or_str (svc_PollInterval s) "60s"; svc_Timeout := or_str (svc_Timeout s) "10s" |}
  else if profile =s EfficiencyMedium then
    {| s with svc_MaxWorkers := if (svc_MaxWorkers s <=? 0) || (4 <? svc_MaxWorkers s) then 4 else svc_MaxWorkers s;
       svc_PollInterval := or_str (svc_PollInterval s) "15s"; svc_Timeout := or_str (svc_Timeout s) "5s" |}
  else if profile =s EfficiencyHigh then
    {| s with svc_MaxWorkers := or_pos (svc_MaxWorkers s) 8;
       svc_PollInterval := or_str (svc_PollInterval s) "5s"; svc_Timeout := or_str (svc_Timeout s) "3s" |}
  else s.

(** [host:port], [//host:port] and [http://host:port] alike become a URL. *)
Definition normalizeEndpointURL (raw : string) : string :=
  let ep := TrimSpace raw in
  if ep =s "" then ""
  else if Contains ep "://" then TrimSuffix ep "/"
  else "http://" +:+ TrimPrefix (TrimSuffix ep "/") "//".

Definition inferTransport (endpoint : string) : string :=
  match Parse endpoint with
  | None => TransportHTTP
  | Some u =>
      let scheme := ToLower (url_Scheme u) in
      if mem scheme ["ws"; "wss"] then TransportWebSocket
      else if scheme =s "stdio" then TransportStdio
      else if mem scheme ["http"; "https"] then
        let full := ToLower (TrimSpace (url_Path u)) +:+ "?" +:+ ToLower (TrimSpace (url_RawQuery u)) in
        if existsb (Contains full) ["transport=sse"; "accept=text/event-stream"; "text/event-stream";
                                    "/sse"; "/stream"; "/events"]
        then TransportSSE else TransportHTTP
      else TransportHTTP
  end.

(** ** Defaults, section by section *)

Definition default_service (s : ServiceConfig) : ServiceConfig :=
  let mode := or_str (svc_Mode s) ModeBackground in
  let s := {| s with svc_Name := or_str (svc_Name s) "ocd-smoke-alarm";
              svc_Environment := or_str (svc_Environment s) "dev"; svc_Mode := mode;
              svc_LogLevel := or_str (svc_LogLevel s) "info";
              svc_EfficiencyProfile := or_str (svc_EfficiencyProfile s)
                (if mem mode [ModeBackground; ModeHeadless] then EfficiencyLow else EfficiencyMedium) |} in
  let s := applyEfficiencyProfile s in
  {| s with svc_PollInterval := or_str (svc_PollInterval s) "15s"; svc_Timeout := or_str (svc_Timeout s) "5s";
     svc_MaxWorkers := or_pos (svc_MaxWorkers s) 4 |}.

Definition default_health (h : HealthConfig) : HealthConfig :=
  let e := hc_Endpoints h in
  let addr := or_str (hc_ListenAddr h) "localhost:8088" in
  {| h with hc_ListenAddr := addr;
     hc_Endpoints := mkHealthRoutes (or_str (hr_Healthz e) "/healthz") (or_str (hr_Readyz e) "/readyz")
                       (or_str (hr_Status e) "/status");
     hc_IsotopeTTL := or_str (hc_IsotopeTTL h) "5m";
     hc_Enabled := hc_Enabled h || (addr =s "localhost:8088") || hc_SelfCheck h |}.

Definition default_runtime (name : string) (r : RuntimeConfig) : RuntimeConfig :=
  mkRuntimeConfig (or_str (run_LockFile r) ("/tmp/" +:+ ReplaceAll name " " "-" +:+ ".lock"))
    (or_str (run_StateDir r) "./state") (or_str (run_BaselineFile r) "./state/known-good.json")
    (or_pos (run_EventHistorySize r) 500) (or_str (run_GracefulShutdownTimeout r) "10s").

Definition default_discovery (d : DiscoveryConfig) : DiscoveryConfig :=
  let p := dsc_LocalProxyScan d in
  let l := dsc_LLMSTxt d in
  {| d with dsc_Interval := or_str (dsc_Interval d) "60s";
     dsc_LocalProxyScan := {| p with lps_Hosts := or_list (lps_Hosts p) ["localhost"; "localhost"];
                              lps_Ports := or_list (lps_Ports p) [3000; 4317; 4318; 8080; 9000] |};
     dsc_LLMSTxt := {| l with llm_FetchTimeout := or_str (llm_FetchTimeout l) "5s";
                       llm_AutoRegisterAsTargets := llm_AutoRegisterAsTargets l || llm_AutoRegisterOAuth l |} |}.

Definition default_alerts (a : AlertsConfig) : AlertsConfig :=
  let s := alr_Severity a in
  let k := alr_Sinks a in
  let o := snk_OSNotification k in
  {| a with alr_DedupeWindow := or_str (alr_DedupeWindow a) "2m"; alr_Cooldown := or_str (alr_Cooldown a) "1m";
     alr_RetryBeforeEscalation := Z.max 0 (alr_RetryBeforeEscalation a);
     alr_Severity := mkSeverityConfig (or_str (sev_Healthy s) "info") (or_str (sev_Degraded s) "warning")
                       (or_str (sev_Regression s) "critical") (or_str (sev_Outage s) "critical");
     alr_Sinks := {| k with snk_OSNotification :=
                       {| o with osn_TitlePrefix := or_str (osn_TitlePrefix o) "[Smoke Alarm]" |} |} |}.

Definition default_auth (a : GlobalAuthConfig) : GlobalAuthConfig :=
  let o := ga_OAuth a in
  let m := go_MockRedirect o in
  {| ga_Keystore := {| (ga_Keystore a) with gk_Provider := or_str (gk_Provider (ga_Keystore a)) "auto" |};
     ga_Redaction := {| (ga_Redaction a) with rd_Mask := or_str (rd_Mask (ga_Redaction a)) "****" |};
     ga_OAuth := {| o with go_TokenGracePeriod := or_str (go_TokenGracePeriod o) "30s";
                    go_MockRedirect := {| m with mr_ListenAddr := or_str (mr_ListenAddr m) "localhost:8877";
                      mr_Path := or_str (mr_Path m) "/oauth/callback"; mr_Mode := or_str (mr_Mode m) "allow" |} |} |}.

Definition default_known_state (k : KnownStateConfig) : KnownStateConfig :=
  {| k with ks_SustainSuccessBeforeMarkHealthy := or_pos (ks_SustainSuccessBeforeMarkHealthy k) 2;
     ks_ClassifyNewFailuresAfterHealthyAs := or_str (ks_ClassifyNewFailuresAfterHealthyAs k) "regression";
     ks_OutageThresholdConsecutiveFailures := or_pos (ks_OutageThresholdConsecutiveFailures k) 2 |}.

Definition default_meta (m : MetaConfigConfig) : MetaConfigConfig :=
  let p := mc_Placeholders m in
  {| m with mc_OutputDir := or_str (mc_OutputDir m) "./state/meta-config";
     mc_Formats := or_list (mc_Formats m) ["yaml"; "json"];
     mc_Placeholders := mkMetaPlaceholders (or_str (mp_Token p) "${TOKEN}")
       (or_str (mp_ClientSecret p) "${CLIENT_SECRET}") (or_str (mp_Endpoint p) "${ENDPOINT}") |}.

Definition default_remote_agent (r : RemoteAgentConfig) : RemoteAgentConfig :=
  {| r with ra_Update := {| (ra_Update r) with ru_MaxWaitForHealthy := or_str (ru_MaxWaitForHealthy (ra_Update r)) "60s" |};
     ra_Safety := {| (ra_Safety r) with rsf_LockTTL := or_str (rsf_LockTTL (ra_Safety r)) "5m" |} |}.

Definition default_hosted (h : HostedConfig) : HostedConfig :=
  let e := hs_Endpoints h in
  {| h with hs_ListenAddr := or_str (hs_ListenAddr h) ":0";
     hs_Transports := or_list (hs_Transports h) [TransportHTTP; TransportSSE];
     hs_Protocols := or_list (hs_Protocols h) [ProtocolMCP; ProtocolACP];
     hs_Endpoints := mkHostedEndpointConfig (or_str (he_MCP e) "/mcp") (or_str (he_ACP e) "/acp")
                       (or_str (he_A2A e) "/a2a") |}.

Definition default_dynamic (d : DynamicConfigConfig) : DynamicConfigConfig :=
  {| d with dy_Directory := or_str (dy_Directory d) "./state/dynamic-config";
     dy_Formats := or_list (dy_Formats d) ["json"; "markdown"];
     dy_ServeBaseURL := or_str (dy_ServeBaseURL d) "/dynamic-config";
     dy_RequireUniqueIDs := true |}.

Definition default_federation (f : FederationConfig) : FederationConfig :=
  let base := if (fd_BasePort f <=? 0) || (65535 <? fd_BasePort f) then 19100 else fd_BasePort f in
  let max := if (fd_MaxPort f <=? 0) || (fd_MaxPort f <? base) || (65535 <? fd_MaxPort f)
             then base + 3 else fd_MaxPort f in
  let poll := or_str (fd_PollInterval f) "30s" in
  {| f with fd_BasePort := base; fd_MaxPort := max; fd_PollInterval := poll;
     fd_AnnounceInterval := or_str (fd_AnnounceInterval f) "10s";
     fd_HeartbeatInterval := or_str (fd_HeartbeatInterval f) "15s";
     fd_HeartbeatTimeout := or_str (fd_HeartbeatTimeout f) "45s";
     fd_BindAddr := or_str (fd_BindAddr f) "localhost";
     fd_Introducer := if (fd_Introducer f =s "") && negb (fd_Upstream f =s "")
                      then normalizeEndpointURL (fd_Upstream f) else fd_Introducer f;
     fd_ReportInterval := or_str (fd_ReportInterval f) poll |}.

(** ** Targets *)

(** The OpenCode-aligned fields fill the canonical ones that are not set: the
    type gives the transport, [url] the endpoint, [command] and [environment] the
    stdio section, and the [oauth] block the auth section. *)
Definition reconcile_type (t : TargetConfig) : TargetConfig :=
  if negb (tc_Type t =s "") && (tc_Transport t =s "") && (ToLower (tc_Type t) =s TargetTypeLocal)
  then {| t with tc_Transport := TransportStdio |} else t.

Definition reconcile_url (t : TargetConfig) : TargetConfig :=
  if (tc_Endpoint t =s "") && negb (tc_URL t =s "") then {| t with tc_Endpoint := tc_URL t |} else t.

Definition reconcile_command (t : TargetConfig) : TargetConfig :=
  match tc_Command t with
  | cmd :: args =>
      if Command (tc_Stdio t) =s "" then
        let stdio := {| (tc_Stdio t) with Command := cmd |} in
        let stdio := match args with [] => stdio | _ => {| stdio with Args := args |} end in
        {| t with tc_Stdio := stdio; tc_Transport := or_str (tc_Transport t) TransportStdio |}
      else t
  | [] => t
  end.

Definition reconcile_environment (t : TargetConfig) : TargetConfig :=
  if bool_decide (Env_ (tc_Stdio t) = ∅) && negb (bool_decide (tc_Environment t = ∅))
  then {| t with tc_Stdio := {| (tc_Stdio t) with Env_ := tc_Environment t |} |} else t.

Definition reconcile_oauth (t : TargetConfig) : TargetConfig :=
  match tc_OAuth t with
  | Some o =>
      let a := tc_Auth t in
      if auth_Type a =s "" then
        {| t with tc_Auth :=
             {| a with auth_Type := AuthOAuth; auth_ClientID := or_str (auth_ClientID a) (to_ClientID o);
                auth_SecretRef := or_str (auth_SecretRef a) (to_ClientSecretRef o);
                auth_TokenURL := or_str (auth_TokenURL a) (to_TokenURL o);
                auth_Scopes := match auth_Scopes a with
                               | [] => if to_Scope o =s "" then [] else Split (to_Scope o) " "
                               | scopes => scopes
                               end |} |}
      else t
  | None => t
  end.

Definition reconcileTargetOpenCodeFields (t : TargetConfig) : TargetConfig :=
  reconcile_oauth (reconcile_environment (reconcile_command (reconcile_url (reconcile_type t)))).

Definition handshakes (t : TargetConfig) : bool := mem (ToLower (TrimSpace (tc_Protocol t))) [ProtocolMCP; ProtocolACP].

Definition default_check (s : ServiceConfig) (t : TargetConfig) (c : TargetCheckConfig) : TargetCheckConfig :=
  {| c with cc_Interval := or_str (cc_Interval c) (svc_PollInterval s);
     cc_Timeout := or_str (cc_Timeout c) (svc_Timeout s); cc_Retries := Z.max 0 (cc_Retries c);
     cc_HandshakeProfile := if blank (cc_HandshakeProfile c) then (if handshakes t then "base" else "none")
                            else cc_HandshakeProfile c;
     cc_RequiredMethods := or_list (cc_RequiredMethods c) (if handshakes t then ["initialize"] else []) |}.

(** The healthy codes are chosen before the transport is inferred. *)
Definition fill_target (s : ServiceConfig) (t : TargetConfig) : TargetConfig :=
  let x := tc_Expected t in
  {| t with tc_Name := or_str (tc_Name t) (tc_ID t);
     tc_Auth := {| (tc_Auth t) with auth_Type := or_str (auth_Type (tc_Auth t)) AuthNone |};
     tc_Check := default_check s t (tc_Check t);
     tc_Expected := {| x with HealthyStatusCodes := or_list (HealthyStatusCodes x)
       (if ToLower (tc_Transport t) =s TransportWebSocket then [101] else [200]) |} |}.
Definition fill_transport (t : TargetConfig) : TargetConfig :=
  {| t with tc_Transport := or_str (tc_Transport t) (inferTransport (tc_Endpoint t)) |}.
Definition fill_type (t : TargetConfig) : TargetConfig :=
  let stdio := EqualFold (tc_Transport t) TransportStdio in
  {| t with tc_Endpoint := if stdio && blank (tc_Endpoint t) then "stdio://local" else tc_Endpoint t;
     tc_Type := or_str (tc_Type t) (if stdio then TargetTypeLocal else TargetTypeRemote) |}.
Definition default_target (s : ServiceConfig) (t : TargetConfig) : TargetConfig :=
  fill_type (fill_transport (fill_target s (reconcileTargetOpenCodeFields t))).

Definition ApplyDefaults (c : Config) : Config :=
  let s := default_service (cfg_Service c) in
  {| c with cfg_Service := s; cfg_Health := default_health (cfg_Health c);
     cfg_Runtime := default_runtime (svc_Name s) (cfg_Runtime c);
     cfg_Discovery := default_discovery (cfg_Discovery c); cfg_Alerts := default_alerts (cfg_Alerts c);
     cfg_Auth := default_auth (cfg_Auth c); cfg_KnownState := default_known_state (cfg_KnownState c);
     cfg_MetaConfig := default_meta (cfg_MetaConfig c); cfg_RemoteAgent := default_remote_agent (cfg_RemoteAgent c);
     cfg_Hosted := default_hosted (cfg_Hosted c); cfg_DynamicConfig := default_dynamic (cfg_DynamicConfig c);
     cfg_Federation := default_federation (cfg_Federation c);
     cfg_Targets := map (default_target s) (cfg_Targets c) |}.

(** ** Views *)

Definition EnabledTargets (c : Config) : list TargetConfig := filter (λ t, tc_Enabled t = true) (cfg_Targets c).
Definition TargetByID (c : Config) (id : string) : option TargetConfig := find (λ t, tc_ID t =s id) (cfg_Targets c).

(** ** Idempotence *)

Lemma or_str_idem s d : or_str (or_str s d) d = or_str s d.
Proof. unfold or_str. destruct (s =s "") eqn:H; [by destruct (d =s "")|by rewrite H]. Qed.
Lemma or_str_set s d d' : d ≠ "" → or_str (or_str s d) d' = or_str s d.
Proof.
  intros Hd. unfold or_str. destruct (s =s "") eqn:H; [|by rewrite H].
  apply streq_false in Hd. by rewrite Hd.
Qed.
Lemma or_str_nonempty s d : d ≠ "" → or_str s d ≠ "".
Proof. intros Hd. unfold or_str. destruct (s =s "") eqn:H; [done|]. by apply streq_false. Qed.
Lemma or_str_id s d : s ≠ "" → or_str s d = s.
Proof. intros H. unfold or_str. apply streq_false in H. by rewrite H. Qed.
Lemma or_list_idem {A} (l d : list A) : or_list (or_list l d) d = or_list l d.
Proof. destruct l; [by destruct d|done]. Qed.
Lemma or_pos_idem z d : or_pos (or_pos z d) d = or_pos z d.
Proof. unfold or_pos. destruct (z <=? 0) eqn:H; [by destruct (d <=? 0)|by rewrite H]. Qed.
Lemma or_pos_id z d : 0 < z → or_pos z d = z.
Proof. intros H. unfold or_pos. by destruct (Z.leb_spec z 0); [lia|]. Qed.
Lemma or_pos_pos z d : 0 < d → 0 < or_pos z d.
Proof. intros H. unfold or_pos. destruct (Z.leb_spec z 0); lia. Qed.

Lemma default_health_idem h : default_health (default_health h) = default_health h.
Proof.
  destruct h as [en addr [? ? ?] sc ttl]. unfold default_health. cbn. rewrite !or_str_idem. f_equal.
  by destruct en, sc, (or_str addr _ =s _).
Qed.

Lemma default_runtime_idem name r : default_runtime name (default_runtime name r) = default_runtime name r.
Proof. destruct r. unfold default_runtime. cbn. by rewrite !or_str_idem, or_pos_idem. Qed.

Lemma default_discovery_idem d : default_discovery (default_discovery d) = default_discovery d.
Proof.
  destruct d as [? ? ? ? [? ? ?] ? [? ? ? ? a o]]. unfold default_discovery. cbn.
  rewrite !or_str_idem, !or_list_idem. by destruct a, o.
Qed.

Lemma default_alerts_idem a : default_alerts (default_alerts a) = default_alerts a.
Proof.
  destruct a as [? ? ? ? ? [? ? ? ?] [? [? ?]]]. unfold default_alerts. cbn. rewrite !or_str_idem.
  f_equal. lia.
Qed.

Lemma default_auth_idem a : default_auth (default_auth a) = default_auth a.
Proof. destruct a as [[? ?] [? ?] [? ? ? [? ? ? ?]]]. unfold default_auth. cbn. by rewrite !or_str_idem. Qed.

Lemma default_known_state_idem k : default_known_state (default_known_state k) = default_known_state k.
Proof. destruct k. unfold default_known_state. cbn. by rewrite !or_str_idem, !or_pos_idem. Qed.

Lemma default_meta_idem m : default_meta (default_meta m) = default_meta m.
Proof. destruct m as [? ? ? ? ? [? ? ?]]. unfold default_meta. cbn. by rewrite !or_str_idem, or_list_idem. Qed.

Lemma default_remote_agent_idem r : default_remote_agent (default_remote_agent r) = default_remote_agent r.
Proof. destruct r as [? ? [] []]. unfold default_remote_agent. cbn. by rewrite !or_str_idem. Qed.

Lemma default_hosted_idem h : default_hosted (default_hosted h) = default_hosted h.
Proof. destruct h as [? ? ? ? [? ? ?]]. unfold default_hosted. cbn. by rewrite !or_str_idem, !or_list_idem. Qed.

Lemma default_dynamic_idem d : default_dynamic (default_dynamic d) = default_dynamic d.
Proof. destruct d. unfold default_dynamic. cbn. by rewrite !or_str_idem, or_list_idem. Qed.

Lemma default_federation_idem f : default_federation (default_federation f) = default_federation f.
Proof.
  destruct f as [? ? up ? ? ? bp mp ? ? ? intro ? ? ?]. unfold default_federation. cbn. rewrite !or_str_idem.
  set (b := if (bp <=? 0) || (65535 <? bp) then 19100 else bp).
  assert (0 < b <= 65535) as Hb by (subst b; destruct (Z.leb_spec bp 0), (Z.ltb_spec 65535 bp); cbn; lia). clearbody b.
  replace ((b <=? 0) || (65535 <? b)) with false
    by (destruct (Z.leb_spec b 0), (Z.ltb_spec 65535 b); cbn; lia).
  f_equal.
  - destruct ((mp <=? 0) || (mp <? b) || (65535 <? mp)) eqn:Hm; [|by rewrite Hm].
    by case_match.
  - destruct (intro =s "") eqn:Hi; cbn [andb]; [|by rewrite Hi].
    destruct (up =s ""); cbn [negb]; rewrite ?andb_false_r, ?andb_true_r; [done|by case_match].
Qed.

(** A service section the defaults leave alone. *)
Record service_settled (s : ServiceConfig) : Prop := {
  ss_name : svc_Name s ≠ "";
  ss_environment : svc_Environment s ≠ "";
  ss_mode : svc_Mode s ≠ "";
  ss_log : svc_LogLevel s ≠ "";
  ss_profile : svc_EfficiencyProfile s ≠ "";
  ss_poll : svc_PollInterval s ≠ "";
  ss_timeout : svc_Timeout s ≠ "";
  ss_workers : 0 < svc_MaxWorkers s;
  ss_low : effective_profile s = EfficiencyLow → svc_MaxWorkers s <= 2;
  ss_medium : effective_profile s = EfficiencyMedium → svc_MaxWorkers s <= 4;
}.

Lemma settled_service_kept s : service_settled s → default_service s = s.
Proof.
  intros [H1 H2 H3 H4 H5 H6 H7 H8 Hl Hm]. unfold default_service. cbv zeta.
  rewrite !or_str_id by done.
  assert (applyEfficiencyProfile s = s) as Hp.
  { unfold applyEfficiencyProfile. cbv zeta. destruct (effective_profile s =s EfficiencyLow) eqn:E1;
      [|destruct (effective_profile s =s EfficiencyMedium) eqn:E2; [|destruct (effective_profile s =s EfficiencyHigh)]];
      try done; go_bools; rewrite ?or_str_id, ?or_pos_id by done.
    - specialize (Hl E1). destruct (Z.leb_spec (svc_MaxWorkers s) 0), (Z.ltb_spec 2 (svc_MaxWorkers s)); try lia.
      by destruct s.
    - specialize (Hm E2). destruct (Z.leb_spec (svc_MaxWorkers s) 0), (Z.ltb_spec 4 (svc_MaxWorkers s)); try lia.
      by destruct s.
    - by destruct s. }
  replace {| s with svc_Name := svc_Name s |} with s by by destruct s.
  destruct s. cbn in *. rewrite Hp. cbn. by rewrite !or_str_id, or_pos_id by done.
Qed.

Lemma applyEfficiencyProfile_shape s :
  ∃ w p o, applyEfficiencyProfile s = {| s with svc_MaxWorkers := w; svc_PollInterval := p; svc_Timeout := o |} ∧
    (effective_profile s = EfficiencyLow → 0 < w <= 2) ∧ (effective_profile s = EfficiencyMedium → 0 < w <= 4).
Proof.
  unfold applyEfficiencyProfile. cbv zeta.
  destruct (effective_profile s =s EfficiencyLow) eqn:E1; [|destruct (effective_profile s =s EfficiencyMedium) eqn:E2;
    [|destruct (effective_profile s =s EfficiencyHigh)]];
    [do 3 eexists; split; [reflexivity|]..|exists (svc_MaxWorkers s), (svc_PollInterval s), (svc_Timeout s);
     split; [by destruct s|]]; go_bools; (split; intros He); try congruence.
  - destruct (Z.leb_spec (svc_MaxWorkers s) 0), (Z.ltb_spec 2 (svc_MaxWorkers s)); cbn [orb]; lia.
  - by rewrite E1 in He.
  - destruct (Z.leb_spec (svc_MaxWorkers s) 0), (Z.ltb_spec 4 (svc_MaxWorkers s)); cbn [orb]; lia.
Qed.

Lemma default_service_settled s : service_settled (default_service s).
Proof.
  unfold default_service. cbv zeta. match goal with |- context [applyEfficiencyProfile ?x] => set (s0 := x) end.
  destruct (applyEfficiencyProfile_shape s0) as (w & p & o & -> & Hl & Hm).
  split; cbn; try (by apply or_str_nonempty); try (by apply or_pos_pos).
  - apply or_str_nonempty. by case_match.
  - change (effective_profile _) with (effective_profile s0). intros He. specialize (Hl He). rewrite or_pos_id; lia.
  - change (effective_profile _) with (effective_profile s0). intros He. specialize (Hm He). rewrite or_pos_id; lia.
Qed.

(** What reconciliation leaves: the aliases are empty or have been used. *)
Definition url_used (t : TargetConfig) : Prop := tc_Endpoint t ≠ "" ∨ tc_URL t = "".
Definition command_used (t : TargetConfig) : Prop :=
  match tc_Command t with
  | [] => True
  | cmd :: args => Command (tc_Stdio t) ≠ "" ∨ (cmd = "" ∧ (args = [] ∨ Args (tc_Stdio t) = args))
  end.
Definition environment_used (t : TargetConfig) : Prop := Env_ (tc_Stdio t) ≠ ∅ ∨ tc_Environment t = ∅.

(** A target the defaults leave alone, given the service section. *)
Record target_settled (t : TargetConfig) : Prop := {
  st_name : tc_Name t ≠ "" ∨ tc_ID t = "";
  st_auth : auth_Type (tc_Auth t) ≠ "";
  st_interval : cc_Interval (tc_Check t) ≠ "";
  st_timeout : cc_Timeout (tc_Check t) ≠ "";
  st_retries : 0 <= cc_Retries (tc_Check t);
  st_profile : blank (cc_HandshakeProfile (tc_Check t)) = false;
  st_methods : cc_RequiredMethods (tc_Check t) ≠ [] ∨ handshakes t = false;
  st_codes : HealthyStatusCodes (tc_Expected t) ≠ [];
  st_transport : tc_Transport t ≠ "";
  st_endpoint : url_used t;
  st_stdio : blank (tc_Endpoint t) = true → EqualFold (tc_Transport t) TransportStdio = false;
  st_type : tc_Type t ≠ "";
  st_command : command_used t;
  st_env : environment_used t;
}.

Lemma settled_reconciled t : target_settled t → reconcileTargetOpenCodeFields t = t.
Proof.
  intros [_ Ha _ _ _ _ _ _ Ht He _ _ Hc Hv]. unfold reconcileTargetOpenCodeFields.
  apply streq_false in Ha, Ht.
  assert (reconcile_type t = t) as -> by (unfold reconcile_type; by rewrite Ht, andb_false_r).
  assert (reconcile_url t = t) as ->.
  { unfold reconcile_url. destruct He as [He| ->]; [apply streq_false in He; by rewrite He|by rewrite andb_false_r]. }
  assert (reconcile_command t = t) as ->.
  { unfold reconcile_command. destruct t as [? ? ? ? ? ? ? ? [cmd0 args0 ? ?] ? ? ? [|cmd args] ? ? ?]; [done|]. cbn in *.
    destruct (cmd0 =s "") eqn:E; [|done]. apply streq_true in E. destruct Hc as [Hc|[-> Hc]]; [done|].
    unfold or_str. rewrite Ht. subst cmd0. destruct args, Hc as [Hc|Hc]; try done; by subst. }
  assert (reconcile_environment t = t) as ->.
  { unfold reconcile_environment. destruct Hv as [Hv| ->]; [by rewrite bool_decide_eq_false_2|by rewrite andb_false_r]. }
  unfold reconcile_oauth. rewrite Ha. by destruct (tc_OAuth t).
Qed.

Lemma or_str_alias s d : s ≠ "" ∨ d = "" → or_str s d = s.
Proof.
  intros [H| ->]; [by apply or_str_id|]. unfold or_str. destruct (s =s "") eqn:E; [|done]. by apply streq_true in E.
Qed.

Lemma settled_filled s t : target_settled t → fill_target s t = t.
Proof.
  intros [Hn Ha Hi Ho Hr Hp Hm Hc _ _ _ _ _ _]. unfold fill_target, default_check. cbv zeta.
  rewrite Hp, or_str_alias, !or_str_id by done. replace (Z.max 0 (cc_Retries (tc_Check t))) with (cc_Retries (tc_Check t)) by lia.
  assert (or_list (cc_RequiredMethods (tc_Check t)) (if handshakes t then ["initialize"] else []) =
    cc_RequiredMethods (tc_Check t)) as -> by (destruct (cc_RequiredMethods _), Hm as [Hm|Hm]; try done; by rewrite Hm).
  destruct t as [? ? ? ? ? ? [codes ? ? ?] [] ? [] ? ? ? ? ? ?]. cbn [tc_Expected HealthyStatusCodes] in *. by destruct codes.
Qed.

Lemma settled_target_kept s t : target_settled t → default_target s t = t.
Proof.
  intros H. unfold default_target. rewrite settled_reconciled, settled_filled by done.
  destruct H as [_ _ _ _ _ _ _ _ Ht _ Hs Hy _ _]. unfold fill_transport. rewrite or_str_id by done.
  replace {| t with tc_Transport := tc_Transport t |} with t by by destruct t.
  unfold fill_type. cbv zeta. rewrite or_str_id by done.
  destruct (blank (tc_Endpoint t)); [rewrite Hs by done|rewrite andb_false_r]; by destruct t.
Qed.

Lemma reconcile_url_used t : url_used (reconcile_url t).
Proof.
  unfold url_used, reconcile_url. destruct (tc_Endpoint t =s "") eqn:E1, (tc_URL t =s "") eqn:E2; cbn [andb negb];
    go_bools; auto.
Qed.

Lemma reconcile_command_used t : url_used t → url_used (reconcile_command t) ∧ command_used (reconcile_command t).
Proof.
  intros Hu. unfold command_used, reconcile_command. destruct (tc_Command t) as [|cmd args] eqn:Ec; [by rewrite Ec|].
  destruct (Command (tc_Stdio t) =s "") eqn:E; [|rewrite ?Ec; split; [done|left; by apply streq_false]].
  split; [exact Hu|]. cbn [tc_Command tc_Stdio]. rewrite ?Ec.
  destruct (decide (cmd = "")) as [->|Hne]; [right; split; [done|]; destruct args; auto|left; by destruct args].
Qed.

Lemma reconcile_environment_used t :
  url_used t → command_used t →
  url_used (reconcile_environment t) ∧ command_used (reconcile_environment t) ∧
  environment_used (reconcile_environment t).
Proof.
  intros Hu Hc. unfold environment_used, reconcile_environment.
  repeat case_bool_decide; cbn [andb negb]; split_and!; auto.
Qed.

Lemma reconcile_oauth_used t :
  url_used t ∧ command_used t ∧ environment_used t →
  url_used (reconcile_oauth t) ∧ command_used (reconcile_oauth t) ∧ environment_used (reconcile_oauth t).
Proof. unfold reconcile_oauth. destruct (tc_OAuth t); [|done]. by destruct (_ =s ""). Qed.

Lemma reconciled t :
  let t' := reconcileTargetOpenCodeFields t in url_used t' ∧ command_used t' ∧ environment_used t'.
Proof.
  destruct (reconcile_command_used _ (reconcile_url_used (reconcile_type t))) as [Hu Hc].
  apply reconcile_oauth_used, (reconcile_environment_used _ Hu Hc).
Qed.

Lemma inferTransport_nonempty s : inferTransport s ≠ "".
Proof. unfold inferTransport. destruct (Parse s); [|done]. repeat case_match; done. Qed.

Lemma handshakes_ext t t' : tc_Protocol t' = tc_Protocol t → handshakes t' = handshakes t.
Proof. unfold handshakes. by intros ->. Qed.

Lemma filled_settled s t1 :
  svc_PollInterval s ≠ "" → svc_Timeout s ≠ "" → url_used t1 → command_used t1 → environment_used t1 →
  target_settled (fill_type (fill_transport (fill_target s t1))).
Proof.
  intros Hi Ho He Hc Hv.
  split.
  - change (or_str (tc_Name t1) (tc_ID t1) ≠ "" ∨ tc_ID t1 = ""). destruct (decide (tc_ID t1 = "")); [by right|left].
    by apply or_str_nonempty.
  - by apply or_str_nonempty.
  - by apply or_str_nonempty.
  - by apply or_str_nonempty.
  - change (0 <= Z.max 0 (cc_Retries (tc_Check t1))). lia.
  - change (blank (if blank (cc_HandshakeProfile (tc_Check t1)) then (if handshakes t1 then "base" else "none")
      else cc_HandshakeProfile (tc_Check t1)) = false).
    destruct (blank (cc_HandshakeProfile _)) eqn:E; [by destruct (handshakes t1)|done].
  - rewrite (handshakes_ext t1) by done.
    change (or_list (cc_RequiredMethods (tc_Check t1)) (if handshakes t1 then ["initialize"] else []) ≠ [] ∨
      handshakes t1 = false).
    unfold or_list. destruct (cc_RequiredMethods _); [|by left]. destruct (handshakes t1); auto.
  - change (or_list (HealthyStatusCodes (tc_Expected t1))
      (if ToLower (tc_Transport t1) =s TransportWebSocket then [101] else [200]) ≠ []).
    unfold or_list. destruct (HealthyStatusCodes _); [by case_match|done].
  - apply or_str_nonempty, inferTransport_nonempty.
  - generalize (fill_transport (fill_target s t1)) as t3, (He : url_used (fill_transport (fill_target s t1))).
    intros t3 H. unfold url_used, fill_type. cbn [tc_Endpoint tc_URL]. destruct (_ && _); [by left|exact H].
  - generalize (fill_transport (fill_target s t1)). intros t3. unfold fill_type. cbn [tc_Endpoint tc_Transport]. destruct (EqualFold _ _); [|done]. cbn [andb].
    by destruct (blank (tc_Endpoint t3)) eqn:B; [|rewrite B].
  - apply or_str_nonempty. by case_match.
  - exact Hc.
  - exact Hv.
Qed.

Lemma default_target_settled s t :
  svc_PollInterval s ≠ "" → svc_Timeout s ≠ "" → target_settled (default_target s t).
Proof. intros Hi Ho. destruct (reconciled t) as (He & Hc & Hv). by apply filled_settled. Qed.

(** The defaults are a fixed point: no default enables another one on a second
    pass, and the aliases of a target are reconciled once. *)
Lemma ApplyDefaults_idem (c : Config) : ApplyDefaults (ApplyDefaults c) = ApplyDefaults c.
Proof.
  unfold ApplyDefaults. cbv zeta. cbn [cfg_Service cfg_Health cfg_Runtime cfg_Discovery cfg_Alerts cfg_Auth cfg_Targets
    cfg_KnownState cfg_MetaConfig cfg_RemoteAgent cfg_Hosted cfg_DynamicConfig cfg_Federation cfg_Version cfg_Telemetry
    cfg_Tuner cfg_Trust].
  pose proof (default_service_settled (cfg_Service c)) as Hs. rewrite (settled_service_kept _ Hs).
  rewrite default_health_idem, default_runtime_idem, default_discovery_idem, default_alerts_idem, default_auth_idem,
    default_known_state_idem, default_meta_idem, default_remote_agent_idem, default_hosted_idem, default_dynamic_idem,
    default_federation_idem.
  f_equal. rewrite map_map. apply map_ext. intros t. apply settled_target_kept, default_target_settled; apply Hs.
Qed.

(** ** Examples *)

(** A health section that says [enabled: false] and no more is enabled: the
    defaults cannot tell it from one that says nothing. *)
Example disabled_health_is_enabled :
  hc_Enabled (cfg_Health (ApplyDefaults zeroConfig)) = true ∧ hc_Enabled (cfg_Health zeroConfig) = false.
Proof. vm_compute. auto. Qed.

(** A WebSocket endpoint whose transport is inferred is expected to answer 200;
    with the transport spelled out, 101. *)
Example inferred_websocket_expects_200 :
  let t := {| zeroTargetConfig with tc_ID := "t"; tc_Endpoint := "ws://h/" |} in
  let codes t := HealthyStatusCodes (tc_Expected (default_target (cfg_Service (ApplyDefaults zeroConfig)) t)) in
  codes t = [200] ∧ codes {| t with tc_Transport := "websocket" |} = [101].
Proof. vm_compute. auto. Qed.

(** The unique-ids check cannot be turned off. *)
Example unique_ids_always_required d : dy_RequireUniqueIDs (default_dynamic d) = true.
Proof. reflexivity. Qed.

Example OpenCode_ex :
  let t := {| zeroTargetConfig with tc_ID := "t"; tc_Command := ["npx"; "-y"; "srv"]; tc_Environment := {["K" := "v"]};
              tc_Protocol := "mcp" |} in
  let t' := default_target (cfg_Service (ApplyDefaults zeroConfig)) t in
  (tc_Transport t', tc_Type t', tc_Endpoint t', Command (tc_Stdio t'), Args (tc_Stdio t')) =
    ("stdio", "local", "stdio://local", "npx", ["-y"; "srv"]).
Proof. vm_compute. reflexivity. Qed.
