(* ===== verification/Engine.v ===== *)
(** * The engine ([internal/engine/engine.go])

    One check of a target: the safety stage, the attempts, the classification
    against the known-state baseline, the status and the alert. The engine holds
    its mutex around every access to its maps, so a check is a sequence of
    programs on the engine's state; checks of different targets interleave between
    them, and here one check runs after the other. What a check meets in the
    outside world is a [Visit]: whether the semaphore was acquired, the context
    and the disk, the secrets, the HURL hosts and the prober's answers. The
    goroutines that run the checks are in [Runs]; tickers, telemetry and the
    [Details] of results are not modelled. *)

From Stdlib Require Import ZArith NArith Lia Ascii.
From stdpp Require Import base tactics strings gmap sorting relations.
From stdpp Require Import list.
From S2P Require Import Prelude Durations KnownState Net Url Targets Auth Hurl Safety Rpc Handshake Config.

Open Scope Z_scope.

(** ** Compilation of the configuration *)

Inductive compile_error := BadInterval (id : string) | BadTimeout (id : string) | BadTarget (id : string) (e : target_error).

Definition compile_target (t : TargetConfig) : Target + compile_error :=
  match ParseDuration (cc_Interval (tc_Check t)) with
  | None => inr (BadInterval (tc_ID t))
  | Some interval =>
      match ParseDuration (cc_Timeout (tc_Check t)) with
      | None => inr (BadTimeout (tc_ID t))
      | Some timeout =>
          let c := tc_Check t in
          let compiled := mkTarget (tc_ID t) (tc_Enabled t) (ToLower (tc_Protocol t)) (tc_Name t)
            (tc_Endpoint t) (ToLower (tc_Transport t)) (ToLower (tc_Type t)) (tc_Expected t)
            {| (tc_Auth t) with auth_Type := ToLower (auth_Type (tc_Auth t)); auth_Audience := "" |} (tc_Stdio t)
            (mkCheckPolicy interval timeout (cc_Retries c) (cc_HandshakeProfile c)
               (cc_RequiredMethods c) (cc_HURLTests c))
            ∅ ∅ (tc_Headers t) in
          match Validate compiled with
          | Some e => inr (BadTarget (tc_ID t) e)
          | None => inl compiled
          end
      end
  end.

Fixpoint compile_targets (ts : list TargetConfig) : list Target + compile_error :=
  match ts with
  | [] => inl []
  | t :: ts =>
      if negb (tc_Enabled t) then compile_targets ts
      else
        match compile_target t with
        | inr e => inr e
        | inl c => match compile_targets ts with inr e => inr e | inl cs => inl (c :: cs) end
        end
  end.
Definition compileTargets (cfg : Config) : list Target + compile_error := compile_targets (cfg_Targets cfg).

(** ** State *)

Record AlertEvent := mkAlert {
  al_TargetID : string;
  al_TargetName : string;
  al_State : HealthState;
  al_Severity : Severity;
  al_Regression : bool;
  al_Message : string;
  al_FailureClass : FailureClass;
  al_CheckedAt : Time;
}.

Record TargetRuntimeStatus := mkRuntimeStatus {
  rs_TargetID : string;
  rs_Name : string;
  rs_Endpoint : string;
  rs_Protocol : Protocol;
  rs_State : HealthState;
  rs_Severity : Severity;
  rs_FailureClass : FailureClass;
  rs_Message : string;
  rs_LastCheckedAt : Time;
  rs_Latency : Duration;
  rs_StatusCode : Z;
  rs_ConsecutiveFailures : Z;
  rs_EverHealthy : bool;
  rs_Regression : bool;
}.

(** [en_store] is [None] without a store, [en_scanner] without a scanner;
    [en_notified] is what the notifiers were told. *)
Record Engine := mkEngine {
  en_cfg : Config;
  en_store : option World;
  en_scanner : option Scanner;
  en_targets : list Target;
  en_statuses : gmap string TargetRuntimeStatus;
  en_events : list AlertEvent;
  en_eventCap : Z;
  en_notified : list AlertEvent;
}.

Definition event_cap (cfg : Config) : Z := if run_EventHistorySize (cfg_Runtime cfg) <=? 0 then 500 else run_EventHistorySize (cfg_Runtime cfg).

Definition NewEngine (cfg : Config) (store : option World) (scanner : option Scanner) : Engine + compile_error :=
  match compileTargets cfg with
  | inr e => inr e
  | inl ts => inl (mkEngine cfg store scanner ts ∅ [] (event_cap cfg) [])
  end.

(** ** Vocabulary mappings *)

Definition toKnownStateStatus (s : HealthState) : Status :=
  if s =s StateHealthy then StatusHealthy
  else if s =s StateDegraded then StatusDegraded
  else if s =s StateOutage then StatusOutage
  else if (s =s StateRegression) || (s =s StateUnhealthy) then StatusFailed
  else StatusUnknown.

Definition fromKnown (s : Status) : HealthState :=
  if s =s StatusHealthy then StateHealthy
  else if s =s StatusDegraded then StateDegraded
  else if s =s StatusOutage then StateOutage
  else if s =s StatusFailed then StateUnhealthy
  else StateUnknown.

Definition toSeverity (raw : string) (fallback : Severity) : Severity :=
  let s := ToLower (TrimSpace raw) in
  if mem s [SeverityInfo; SeverityWarn; SeverityCritical] then s else fallback.

Definition severityFromState (cfg : Config) (s : HealthState) : Severity :=
  let sev := alr_Severity (cfg_Alerts cfg) in
  if s =s StateHealthy then toSeverity (sev_Healthy sev) SeverityInfo
  else if s =s StateDegraded then toSeverity (sev_Degraded sev) SeverityWarn
  else if s =s StateRegression then toSeverity (sev_Regression sev) SeverityCritical
  else if (s =s StateOutage) || (s =s StateUnhealthy) then toSeverity (sev_Outage sev) SeverityCritical
  else SeverityWarn.

Definition defaultMessageForState (s : HealthState) : string :=
  if s =s StateHealthy then "healthy"
  else if s =s StateDegraded then "degraded"
  else if s =s StateOutage then "outage"
  else if s =s StateRegression then "regression detected"
  else if s =s StateUnhealthy then "unhealthy"
  else "unknown".

Definition redactAuthErr (msg : string) : string :=
  let msg := ReplaceAll msg "Bearer " "Bearer ****" in
  let msg := ReplaceAll msg "bearer " "bearer ****" in
  ReplaceAll msg "token=" "token=****".

(** ** Classification *)

Definition on_world {A} (w : World) (m : M World A) : M Engine A :=
  zoom (λ e, default w (en_store e)) (λ w e, {| e with en_store := Some w |}) m.

(** What is filled in when the probe left it blank. *)
Definition with_defaults (cfg : Config) (probeErr : option probe_error) (r : CheckResult) : CheckResult :=
  let r := if cr_Severity r =s "" then {| r with cr_Severity := severityFromState cfg (cr_State r) |} else r in
  let r := if cr_FailureClass r =s "" then
             {| r with cr_FailureClass := match probeErr with Some e => classifyProbeError e | None => FailureNone end |}
           else r in
  if blank (cr_Message r) then {| r with cr_Message := defaultMessageForState (cr_State r) |} else r.

(** The known-state semantics once the store has answered. *)
Definition apply_known_state (cfg : Config) (ksStatus : Status) (up : UpdateResult) (r : CheckResult) : CheckResult :=
  let r := {| r with cr_PreviouslyOK := EverHealthy (Previous up) |} in
  let departure := cr_State r =s StateDegraded in
  let r :=
    if negb departure && (IsRegression up || (EverHealthy (Current up) && IsFailure ksStatus)) then
      {| r with cr_State := StateRegression; cr_Regression := true; cr_Severity := SeverityCritical;
         cr_Message := "faulty smoke test regression: previously healthy target now failing" |}
    else r in
  let r :=
    if negb departure && IsFailure ksStatus
       && (ConsecutiveFailures (Current up) >=? ks_OutageThresholdConsecutiveFailures (cfg_KnownState cfg))
       && negb (cr_State r =s StateRegression)
       && (EverHealthy (Current up) ||
           (negb (cr_FailureClass r =s FailureAuth) && negb (cr_FailureClass r =s FailureConfig)))
    then
      {| r with cr_State := StateOutage; cr_Severity := SeverityCritical;
         cr_Message := "outage: " +:+ Itoa (ConsecutiveFailures (Current up)) +:+ " consecutive failures" |}
    else r in
  if HadPrevious up && negb (CurrentStatus (Previous up) =s CurrentStatus (Current up)) then
    {| r with cr_Transition := Some (mkTransition (fromKnown (CurrentStatus (Previous up)))
         (fromKnown (CurrentStatus (Current up))) (cr_CheckedAt r) (cr_Message r)) |}
  else r.

Definition apply_aggressive (cfg : Config) (r : CheckResult) : CheckResult :=
  if alr_Aggressive (cfg_Alerts cfg) && cr_PreviouslyOK r && CheckResult_IsFailure r then
    let r := {| r with cr_Severity := SeverityCritical |} in
    if negb (cr_Regression r) && negb (cr_State r =s StateRegression) then {| r with cr_State := StateOutage |}
    else r
  else r.

(** The defaults and the known-state semantics. *)
Definition consult (io : Faults) (t : Target) (probeErr : option probe_error) (r : CheckResult)
  : M Engine CheckResult :=
  e ← get;
  let cfg := en_cfg e in
  let r := with_defaults cfg probeErr r in
  match en_store e with
  | Some w =>
      if ks_Enabled (cfg_KnownState cfg) then
        let ksStatus := toKnownStateStatus (cr_State r) in
        up ← on_world w (Update io
          (mkUpdateInput (tgt_ID t) ksStatus (cr_Message r) (cr_CheckedAt r)));
        mret (match up with inl up => apply_known_state cfg ksStatus up r | inr _ => r end)
      else mret r
  | None => mret r
  end.

Definition classifyWithPolicy (io : Faults) (t : Target) (r : CheckResult) (probeErr : option probe_error)
  : M Engine CheckResult :=
  r ← (if IsZero (cr_CheckedAt r) then now ← clock; mret {| r with cr_CheckedAt := now |} else mret r);
  e ← get;
  r ← consult io t probeErr r;
  mret (apply_aggressive (en_cfg e) r).

(** ** Status and alerts *)

Definition storeStatus (t : Target) (r : CheckResult) : M Engine unit :=
  e ← get;
  let ks := match en_store e with Some w => KnownState.Get (store w) (tgt_ID t) | None => (zeroTargetState, false) end in
  let st := mkRuntimeStatus (tgt_ID t) (tgt_Name t) (tgt_Endpoint t) (tgt_Protocol t)
    (cr_State r) (cr_Severity r) (cr_FailureClass r) (cr_Message r) (cr_CheckedAt r) (cr_Latency r) (cr_StatusCode r)
    (if ks.2 then ConsecutiveFailures ks.1 else 0) (if ks.2 then EverHealthy ks.1 else false) (cr_Regression r) in
  modify (λ e, {| e with en_statuses := <[tgt_ID t := st]> (en_statuses e) |}).

Definition alert_worthy (r : CheckResult) : bool :=
  cr_Regression r || (cr_State r =s StateOutage) || (cr_Severity r =s SeverityCritical).

Definition alert_of (t : Target) (r : CheckResult) : AlertEvent :=
  mkAlert (tgt_ID t) (tgt_Name t) (cr_State r) (cr_Severity r) (cr_Regression r) (cr_Message r)
    (cr_FailureClass r) (cr_CheckedAt r).

(** The history keeps its length once it is full: the oldest event gives way. *)
Definition append_event (cap : Z) (evs : list AlertEvent) (ev : AlertEvent) : list AlertEvent :=
  if Z.of_nat (length evs) <? cap then evs ++ [ev] else tail evs ++ [ev].

Definition maybeAlert (t : Target) (r : CheckResult) : M Engine unit :=
  if negb (alert_worthy r) then mret tt
  else
    let ev := alert_of t r in
    modify (λ e, {| e with en_events := append_event (en_eventCap e) (en_events e) ev;
                           en_notified := en_notified e ++ [ev] |}).

(** ** A check *)

(** What a check meets. [v_secrets] is what the resolver answers at an attempt;
    [v_probe] is the prober, at an attempt, with the headers. *)
Record Visit := mkVisit {
  v_acquired : bool;
  v_faults : Faults;
  v_safety : SafetyHost;
  v_secrets : nat → Secrets;
  v_probe : nat → Auth.Headers → Target → M unit (CheckResult + probe_error);
}.

Definition on_prober {A} (m : M unit A) : M Engine A := zoom (λ _, tt) (λ _ e, e) m.

Definition on_scanner {A} (s : Scanner) (m : M Scanner A) : M Engine A :=
  zoom (λ e, default s (en_scanner e)) (λ s e, {| e with en_scanner := Some s |}) m.

(** The first failed test gives the message and the failure class. *)
Definition blocking_result (t : Target) (rep : SafetyReport) (now : Time) : CheckResult :=
  let '(msg, fc) :=
    match find (λ r, bool_decide (sf_Outcome r = OutcomeFail)) (sr_Results rep) with
    | Some r =>
        (if blank (sf_Message r) then "pre-protocol HURL safety checks failed" else sf_Message r,
         if (sf_FailureClass r =s "") || (sf_FailureClass r =s FailureNone) then FailureProtocol else sf_FailureClass r)
    | None => ("pre-protocol HURL safety checks failed", FailureProtocol)
    end in
  {| zeroResult with cr_TargetID := tgt_ID t; cr_Protocol := tgt_Protocol t; cr_State := StateUnhealthy;
     cr_Severity := SeverityWarn; cr_FailureClass := fc; cr_Message := msg; cr_CheckedAt := now |}.

Definition runSafetyStage (v : Visit) (t : Target) : M Engine (option CheckResult) :=
  e ← get;
  match en_scanner e, HURLTests (tgt_Check t) with
  | Some s, _ :: _ =>
      _ ← on_scanner s (RegisterTarget t);
      report ← on_scanner s (RunTarget (v_safety v) t);
      if negb (sr_AnyTestsSeen report) || negb (sr_HasBlocking report) then mret None
      else now ← clock; mret (Some (blocking_result t report now))
  | _, _ => mret None
  end.

Definition auth_error_text (e : auth_error) : string :=
  match e with
  | ErrBearerRef => "bearer auth requires secret_ref"
  | ErrAPIKeyRef => "apikey auth requires key_name and secret_ref"
  | ErrOAuthSettings => "oauth auth requires client_id, token_url, redirect_url, and callback_id"
  | ErrUnsupportedType => "unsupported auth type"
  | ErrOAuthValidation why => "oauth validation failed: " +:+ why
  | _ => "resolve secret"
  end.

(** One attempt: the result, and the error the classification is told of. *)
Definition attempt (v : Visit) (t : Target) (i : nat) : M Engine (CheckResult * option probe_error) :=
  start ← clock;
  let failed_result fc msg :=
    now ← clock;
    stop ← clock;
    mret {| zeroResult with cr_TargetID := tgt_ID t; cr_Protocol := tgt_Protocol t; cr_State := StateUnhealthy;
      cr_Severity := SeverityWarn; cr_FailureClass := fc; cr_Message := msg; cr_CheckedAt := now;
      cr_Attempt := Z.of_nat i; cr_Latency := TimeSub stop start |} in
  match BuildHeaders (v_secrets v i) (tgt_Auth t) with
  | inr e =>
      r ← failed_result FailureAuth (redactAuthErr (auth_error_text e));
      mret (r, Some (text_error (auth_error_text e)))
  | inl headers =>
      res ← on_prober (v_probe v i headers t);
      match res with
      | inr e => r ← failed_result (classifyProbeError e) (pe_text e); mret (r, Some e)
      | inl r =>
          let r := {| r with cr_Attempt := Z.of_nat i |} in
          r ← (if IsZero (cr_CheckedAt r) then now ← clock; mret {| r with cr_CheckedAt := now |} else mret r);
          let r := if cr_TargetID r =s "" then {| r with cr_TargetID := tgt_ID t |} else r in
          let r := if cr_Protocol r =s "" then {| r with cr_Protocol := tgt_Protocol t |} else r in
          mret (r, None)
      end
  end.

(** Attempts [i], [i + 1], ... with [more] retries to go after this one. *)
Fixpoint attempts (v : Visit) (t : Target) (more : nat) (i : nat) : M Engine (CheckResult * option probe_error) :=
  r ← attempt v t i;
  if negb (CheckResult_IsFailure r.1) then mret r
  else match more with O => mret r | S more => attempts v t more (S i) end.

(** Classification, status and alert. *)
Definition conclude (io : Faults) (t : Target) (r : CheckResult) (probeErr : option probe_error) : M Engine unit :=
  final ← classifyWithPolicy io t r probeErr;
  _ ← storeStatus t final;
  maybeAlert t final.

Definition executeCheck (v : Visit) (t : Target) : M Engine unit :=
  if negb (v_acquired v) then mret tt
  else
    blocked ← runSafetyStage v t;
    match blocked with
    | Some r => conclude (v_faults v) t r None
    | None =>
        r ← attempts v t (Z.to_nat (Retries (tgt_Check t))) 0;
        conclude (v_faults v) t r.1 r.2
    end.

(** ** Views and reload *)

Definition by_rs_ID (a b : TargetRuntimeStatus) : Prop := String.le (rs_TargetID a) (rs_TargetID b).
#[global] Instance by_rs_ID_dec : RelDecision by_rs_ID.
Proof. intros a b. unfold by_rs_ID. apply _. Defined.
#[global] Instance by_rs_ID_trans : Transitive by_rs_ID.
Proof. intros a b c. unfold by_rs_ID. apply (transitivity (R := String.le)). Qed.
#[global] Instance by_rs_ID_total : Total by_rs_ID.
Proof. intros a b. unfold by_rs_ID. apply (total String.le). Qed.

Definition SnapshotStatuses (e : Engine) : list TargetRuntimeStatus :=
  merge_sort by_rs_ID (map_to_list (en_statuses e)).*2.
Definition SnapshotEvents (e : Engine) : list AlertEvent := en_events e.
Definition TargetIDs (e : Engine) : list string := map tgt_ID (en_targets e).

Definition IsReady (e : Engine) : bool :=
  (length (en_targets e) <=? size (en_statuses e))%nat && (0 <? length (en_targets e))%nat.

Definition removedTargetIDs (before after : list Target) : list string :=
  map tgt_ID (filter (λ t, mem (tgt_ID t) (map tgt_ID after) = false) before).

(** [ReloadConfig] waits for the running checks before it swaps the targets. *)
Definition ReloadConfig (cfg : Config) : M Engine (list string + compile_error) :=
  match compileTargets cfg with
  | inr e => mret (inr e)
  | inl compiled =>
      e ← get;
      let removed := removedTargetIDs (en_targets e) compiled in
      _ ← modify (λ e, {| e with en_cfg := cfg; en_targets := compiled; en_eventCap := event_cap cfg;
                                 en_statuses := ∅ |});
      mret (inl removed)
  end.

(** ** Classification: facts *)

Lemma wp_on_world {A} w (m : M World A) env tick e Q :
  wp (on_world w m) env tick e Q =
  wp m env tick (default w (en_store e)) (λ a t w', Q a t {| e with en_store := Some w' |}).
Proof. unfold on_world. by rewrite wp_zoom. Qed.

(** The failure class a result is classified with. *)
Definition class_of (r : CheckResult) (err : option probe_error) : FailureClass :=
  if cr_FailureClass r =s "" then match err with Some e => classifyProbeError e | None => FailureNone end
  else cr_FailureClass r.

Lemma with_defaults_fields cfg err r :
  cr_State (with_defaults cfg err r) = cr_State r ∧ cr_Regression (with_defaults cfg err r) = cr_Regression r ∧
  cr_PreviouslyOK (with_defaults cfg err r) = cr_PreviouslyOK r ∧
  cr_FailureClass (with_defaults cfg err r) = class_of r err.
Proof.
  unfold class_of, with_defaults. cbv zeta.
  destruct (cr_Severity r =s ""); cbn [cr_FailureClass]; destruct (cr_FailureClass r =s "");
    cbn [cr_Message]; destruct (blank _); by split_and!.
Qed.

(** A state the probers report as a failure. *)
Definition failing (s : HealthState) : bool := mem s [StateUnhealthy; StateOutage].

Lemma failing_known s :
  s ≠ StateRegression →
  IsFailure (toKnownStateStatus s) = failing s || (s =s StateDegraded) ∧
  (failing s = true → s ≠ StateDegraded).
Proof.
  intros Hs. apply streq_false in Hs. unfold toKnownStateStatus, failing, mem. cbn [existsb]. rewrite Hs.
  destruct (s =s StateHealthy) eqn:E1; [go_bools; by subst|].
  destruct (s =s StateDegraded) eqn:E2; [go_bools; by subst|].
  destruct (s =s StateOutage) eqn:E3; [go_bools; by subst|].
  destruct (s =s StateUnhealthy) eqn:E4; go_bools; by subst.
Qed.

(** The classification, as a function of what the probe found and of the
    baseline before the check. *)
Inductive classification := Regressed | Out | Kept.
#[global] Instance classification_dec : EqDecision classification.
Proof. solve_decision. Defined.
Definition classify (cfg : Config) (before : option TargetState) (s : HealthState) (fc : FailureClass)
  : classification :=
  if negb (failing s) then Kept
  else if from_option EverHealthy false before then Regressed
  else if (from_option ConsecutiveFailures 0 before + 1 >=? ks_OutageThresholdConsecutiveFailures (cfg_KnownState cfg))
          && negb (fc =s FailureAuth) && negb (fc =s FailureConfig) then Out
  else Kept.

(** What a classification makes of a result. *)
Definition classified (s : HealthState) (c : classification) (r : CheckResult) : Prop :=
  match c with
  | Regressed => cr_State r = StateRegression ∧ cr_Regression r = true ∧ cr_Severity r = SeverityCritical
  | Out => cr_State r = StateOutage ∧ cr_Regression r = false ∧ cr_Severity r = SeverityCritical
  | Kept => cr_State r = s ∧ cr_Regression r = false
  end.

Lemma observe_counts n found i :
  IsFailure (in_Status i) = true →
  EverHealthy (observe n found i) = from_option EverHealthy false found ∧
  ConsecutiveFailures (observe n found i) = from_option ConsecutiveFailures 0 found + 1.
Proof.
  intros Hf. split; [rewrite observe_failure by done; by destruct found|].
  unfold observe. cbv zeta. destruct (IsHealthy (in_Status i)) eqn:Hh.
  - by rewrite (healthy_not_failure _ Hh) in Hf.
  - rewrite Hf. by destruct found.
Qed.

(** The known-state semantics are the classification. *)
Lemma apply_known_state_spec cfg n found i r :
  cr_State r ≠ StateRegression → cr_Regression r = false → in_Status i = toKnownStateStatus (cr_State r) →
  let r' := apply_known_state cfg (toKnownStateStatus (cr_State r)) (update_answer n found i) r in
  classified (cr_State r) (classify cfg found (cr_State r) (cr_FailureClass r)) r' ∧
  cr_PreviouslyOK r' = from_option EverHealthy false found ∧ cr_FailureClass r' = cr_FailureClass r.
Proof.
  intros Hs Hr Hi. cbv zeta. destruct (failing_known _ Hs) as [Hk Hd].
  unfold classify, apply_known_state, update_answer. cbv zeta.
  cbn [IsRegression Current Previous HadPrevious]. rewrite Hi, Hk.
  assert (EverHealthy (default zeroTargetState found) = from_option EverHealthy false found) as He
    by by destruct found.
  rewrite He. destruct (failing (cr_State r)) eqn:Hfail; cbn [negb orb].
  - assert ((cr_State r =s StateDegraded) = false) as Hd' by (apply streq_false; auto).
    assert (IsFailure (in_Status i) = true) as Hfi by (by rewrite Hi, Hk).
    destruct (observe_counts n found i Hfi) as [Ho Hc].
    destruct r; cbn in *. rewrite Hd', Ho, Hc. apply streq_false in Hs.
    destruct (from_option EverHealthy false found); cbn;
      [by destruct (bool_decide _ && negb _), (_ >=? _)|].
    rewrite Hs. destruct (bool_decide _ && negb _), (_ >=? _); cbn; try done;
      by destruct (_ =s FailureAuth), (_ =s FailureConfig).
  - destruct r; cbn in *. destruct (_ =s StateDegraded) eqn:Hdeg; cbn;
      [by destruct (bool_decide _ && negb _)|].
    rewrite !andb_false_r. cbn. by destruct (bool_decide _ && negb _).
Qed.

Lemma aggressive_kept cfg r :
  (cr_PreviouslyOK r = true → CheckResult_IsFailure r = true →
     cr_Severity r = SeverityCritical ∧ (cr_Regression r = true ∨ cr_State r = StateRegression)) →
  apply_aggressive cfg r = r.
Proof.
  intros H. unfold apply_aggressive. destruct (alr_Aggressive (cfg_Alerts cfg)); [|done].
  destruct (cr_PreviouslyOK r) eqn:Hp; [|done]. destruct (CheckResult_IsFailure r) eqn:Hf; [|done].
  destruct (H eq_refl eq_refl) as [Hs Hr]. cbn. replace (negb (cr_Regression r) && _) with false.
  - by destruct r; cbn in *; subst.
  - symmetry. apply andb_false_iff. destruct Hr as [->|Hr]; [by left|right].
    apply negb_false_iff, streq_true. by destruct r.
Qed.

Lemma classified_aggressive s c r :
  s ≠ StateRegression → classified s c r →
  (cr_PreviouslyOK r = true → c = Regressed ∨ (c = Kept ∧ failing s = false)) →
  cr_PreviouslyOK r = true → CheckResult_IsFailure r = true →
  cr_Severity r = SeverityCritical ∧ (cr_Regression r = true ∨ cr_State r = StateRegression).
Proof.
  intros Hs Hc Hp Hok Hf. destruct (Hp Hok) as [->|[-> Hk]]; cbn in Hc.
  - destruct Hc as (? & ? & ?). auto.
  - destruct Hc as [Hst _]. exfalso. unfold CheckResult_IsFailure, failing, mem in *. rewrite Hst in Hf.
    cbn [existsb] in Hf, Hk. rewrite !orb_false_r in Hf, Hk.
    apply orb_false_iff in Hk as [Hk1 Hk2]. rewrite Hk1, Hk2 in Hf. by apply streq_true in Hf.
Qed.

(** When an update may go unanswered. *)
Definition unanswered (io : Faults) (t : Target) (w : World) : Prop :=
  ctx_err io 0 = true ∨ tgt_ID t = "" ∨ autoPersist (store w) = true.

(** A result as the probes leave it. *)
Record plain (r : CheckResult) : Prop := {
  pl_state : cr_State r ≠ StateRegression;
  pl_regression : cr_Regression r = false;
  pl_ok : cr_PreviouslyOK r = false;
}.

(** What the baseline makes of a plain result. *)
Definition consulted (io : Faults) (t : Target) (e : Engine) (s : HealthState) (fc : FailureClass)
  (r' : CheckResult) : Prop :=
  (∀ cfg, apply_aggressive cfg r' = r') ∧ cr_FailureClass r' = fc ∧
  match en_store e with
  | Some w =>
      ks_Enabled (cfg_KnownState (en_cfg e)) = true →
      classified s (classify (en_cfg e) (Targets (snapshot (store w)) !! tgt_ID t) s fc) r' ∨
      (unanswered io t w ∧ classified s Kept r')
  | None => classified s Kept r'
  end.

Lemma plain_kept r cfg : plain r → apply_aggressive cfg r = r.
Proof. intros [_ _ H]. apply aggressive_kept. congruence. Qed.

Lemma plain_defaults cfg err r : plain r → plain (with_defaults cfg err r).
Proof.
  intros [H1 H2 H3]. destruct (with_defaults_fields cfg err r) as (D1 & D2 & D3 & D4).
  split; congruence.
Qed.

Lemma wp_consult io t r err env tick e Q :
  plain r →
  (∀ r' tick' s', consulted io t e (cr_State r) (class_of r err) r' → Q r' tick' {| e with en_store := s' |}) →
  wp (consult io t err r) env tick e Q.
Proof.
  intros Hpl HQ. unfold consult. wp_go. cbv zeta.
  pose proof (plain_defaults (en_cfg e) err r Hpl) as Hpl1.
  destruct (with_defaults_fields (en_cfg e) err r) as (Hst & _ & _ & Hfc). rewrite <- Hst, <- Hfc in HQ.
  set (r1 := with_defaults (en_cfg e) err r) in *. clearbody r1. clear Hpl Hst Hfc r.
  assert (∀ tick', consulted io t e (cr_State r1) (cr_FailureClass r1) r1 → Q r1 tick' e) as Hsame.
  { intros t' Hc. specialize (HQ r1 t' (en_store e) Hc). by destruct e. }
  pose proof Hpl1 as [Hs Hreg Hok].
  assert (classified (cr_State r1) Kept r1) as Hkept by done.
  unfold consulted in *. destruct (en_store e) as [w|] eqn:Hw; wp_go.
  2:{ apply Hsame. split; [intros; by apply plain_kept|by split]. }
  destruct (ks_Enabled (cfg_KnownState (en_cfg e))) eqn:Hk; wp_go.
  2:{ apply Hsame. split; [intros; by apply plain_kept|by split]. }
  rewrite wp_on_world, Hw. change (default w (Some w)) with w.
  assert (∀ t' w', unanswered io t w → Q r1 t' {| e with en_store := Some w' |}) as Hno.
  { intros t' w' Hu. apply HQ. split; [intros; by apply plain_kept|]. split; [done|]. intros _. by right. }
  apply wp_Update_memory.
  - intros er Hrec. wp_go. apply Hno. unfold recorded_status in Hrec. cbn in Hrec.
    destruct (ctx_err io 0) eqn:Hc; [by left|]. destruct (tgt_ID t =s "") eqn:Hi; [|done].
    go_bools. right. by left.
  - intros up t' w' s i' Hrec Hst Hid HN found HT Hres Herr. wp_go.
    destruct up as [up|er]; [|apply Hno; right; right; by eapply Herr].
    rewrite (Hres up eq_refl). cbn [in_TargetID] in *. subst found.
    unfold recorded_status in Hrec. cbn [in_TargetID in_Status] in Hrec.
    destruct (_ || _); [done|]. injection Hrec as Hrec.
    assert (in_Status i' = toKnownStateStatus (cr_State r1)) as Hst'.
    { rewrite Hst, <- Hrec. unfold toKnownStateStatus. by repeat case_match. }
    destruct (apply_known_state_spec (en_cfg e) (sustainSuccessN (store w))
      (Targets (snapshot (store w)) !! tgt_ID t) i' r1 Hs Hreg Hst')
      as (Hcl & Hprev & Hfc).
    apply HQ. split; [|split; [exact Hfc|intros _; left; exact Hcl]].
    intros cfg. apply aggressive_kept. eapply classified_aggressive; [exact Hs|exact Hcl|].
    rewrite Hprev. intros Hev. unfold classify. rewrite Hev.
    destruct (failing (cr_State r1)); [by left|by right].
Qed.

Lemma wp_classify io t r err env tick e Q :
  plain r →
  (∀ r' tick' s', consulted io t e (cr_State r) (class_of r err) r' → Q r' tick' {| e with en_store := s' |}) →
  wp (classifyWithPolicy io t r err) env tick e Q.
Proof.
  intros Hpl HQ.
  assert (∀ r0 tick0, plain r0 → cr_State r0 = cr_State r → class_of r0 err = class_of r err →
    wp (consult io t err r0) env tick0 e (λ a k s, wp (mret (apply_aggressive (en_cfg e) a)) env k s Q)) as Hbody.
  { intros r0 tick0 Hp0 Hs0 Hf0. apply wp_consult; [done|]. intros r' t' s' Hc. wp_go.
    rewrite (proj1 Hc). apply HQ. by rewrite <- Hs0, <- Hf0. }
  unfold classifyWithPolicy. pose proof Hpl as [? ? ?].
  destruct (IsZero (cr_CheckedAt r)); wp_go; by apply Hbody.
Qed.

(** ** Properties of the classification *)


(** The engine with another setting of the aggressive policy. *)
Definition with_aggressive (b : bool) (e : Engine) : Engine :=
  let cfg := en_cfg e in
  {| e with en_cfg := {| cfg with cfg_Alerts := {| (cfg_Alerts cfg) with alr_Aggressive := b |} |} |}.

Lemma with_aggressive_defaults b e err r :
  with_defaults (en_cfg (with_aggressive b e)) err r = with_defaults (en_cfg e) err r.
Proof. reflexivity. Qed.
Lemma with_aggressive_known b e s up r :
  apply_known_state (en_cfg (with_aggressive b e)) s up r = apply_known_state (en_cfg e) s up r.
Proof. reflexivity. Qed.

Lemma consult_aggressive b io t err r env tick e :
  result (consult io t err r) env tick (with_aggressive b e) = result (consult io t err r) env tick e.
Proof.
  unfold consult, result, get, mbind, M_bind. cbv beta iota zeta.
  rewrite with_aggressive_defaults. generalize (with_defaults (en_cfg e) err r) as r1. intros r1.
  change (en_store (with_aggressive b e)) with (en_store e).
  change (ks_Enabled (cfg_KnownState (en_cfg (with_aggressive b e)))) with (ks_Enabled (cfg_KnownState (en_cfg e))).
  destruct (en_store e) as [w|] eqn:Hw; [|done]. destruct (ks_Enabled (cfg_KnownState (en_cfg e))); [|done].
  unfold on_world, zoom. change (en_store (with_aggressive b e)) with (en_store e). rewrite Hw.
  destruct (Update _ _ _ _ _) as [[up t'] w']. cbv beta iota. unfold mret, M_ret. cbn [fst].
  destruct up; [apply with_aggressive_known|done].
Qed.

(** The aggressive policy never changes anything. For any result as the
    probers leave it (not yet flagged as a regression), whether the baseline is
    kept or not and whatever the store answers, a check is classified the same
    with the policy on and off: a failure the policy could escalate is already a
    critical regression. *)
Theorem aggressive_no_effect (b : bool) (io : Faults) (t : Target) (r : CheckResult)
  (err : option probe_error) (env : Env) (tick : nat) (e : Engine) :
  plain r →
  result (classifyWithPolicy io t r err) env tick (with_aggressive b e) =
  result (classifyWithPolicy io t r err) env tick e.
Proof.
  intros Hpl.
  assert (∀ e' r0 tick0, plain r0 → result (e ← get; r ← consult io t err r0; mret (apply_aggressive (en_cfg e) r))
    env tick0 e' = result (consult io t err r0) env tick0 e') as Hnoop.
  { intros e' r0 tick0 Hp0.
    enough (wp (consult io t err r0) env tick0 e' (λ r' _ _, apply_aggressive (en_cfg e') r' = r')) as H.
    { revert H. unfold wp, result, get, mbind, M_bind, mret, M_ret.
      by destruct (consult io t err r0 env tick0 e') as [[? ?] ?]. }
    apply wp_consult; [done|]. by intros r' t' s' [Hc _]. }
  assert (∀ e' : Engine, result (classifyWithPolicy io t r err) env tick e' =
    if IsZero (cr_CheckedAt r)
    then result (consult io t err {| r with cr_CheckedAt := env_clock env tick |}) env (1 + tick) e'
    else result (consult io t err r) env tick e') as Hres.
  { intros e'. pose proof Hpl as [? ? ?]. unfold classifyWithPolicy.
    destruct (IsZero (cr_CheckedAt r)); by rewrite <- Hnoop by by split. }
  rewrite !Hres. destruct (IsZero _); apply consult_aggressive.
Qed.

Definition ex_config : Config :=
  let c := zeroConfig in
  {| c with cfg_Runtime := {| (cfg_Runtime c) with run_EventHistorySize := 3 |};
     cfg_KnownState := {| (cfg_KnownState c) with ks_Enabled := true; ks_OutageThresholdConsecutiveFailures := 2 |};
     cfg_Alerts := {| (cfg_Alerts c) with alr_Aggressive := true |} |}.
Definition ex_baseline (ever : bool) : World :=
  mkWorld {| (NewStore "known.json" [WithAutoPersist false]) with snapshot := mkSnapshot 1 0
    {["t" := mkTargetState "t" "healthy" "" 6 6 0 2 ever]} |} ∅.
Definition ex_engine (ever : bool) : Engine := mkEngine ex_config (Some (ex_baseline ever)) None [ex_target] ∅ [] 3 [].
Definition ex_failure : CheckResult := result_of ex_target StateUnhealthy SeverityWarn FailureNetwork "refused" 0 0 8.


Lemma aggressive_no_effect_witness :
  cr_State (result (classifyWithPolicy no_faults ex_target ex_failure None) (frozen 9 "") 0 (ex_engine true)) =
    StateRegression ∧
  result (classifyWithPolicy no_faults ex_target ex_failure None) (frozen 9 "") 0 (with_aggressive false (ex_engine true)) =
  result (classifyWithPolicy no_faults ex_target ex_failure None) (frozen 9 "") 0 (ex_engine true).
Proof.
  split; [vm_compute; reflexivity|].
  apply (aggressive_no_effect false no_faults ex_target ex_failure None (frozen 9 "") 0 (ex_engine true)).
  split; reflexivity || discriminate.
Defined.

(** ** Compilation of the targets *)

(** What a compiled target is to the configured one. *)
Definition compiled_from (tc : TargetConfig) (t : Target) : Prop :=
  compile_target tc = inl t ∧ tgt_ID t = tc_ID tc ∧ Validate t = None ∧
  0 < Interval (tgt_Check t) ∧ 0 < Timeout (tgt_Check t) ∧ 0 <= Retries (tgt_Check t) ∧
  Forall runnable (HURLTests (tgt_Check t)).

Lemma Validate_check t :
  Validate t = None →
  0 < Interval (tgt_Check t) ∧ 0 < Timeout (tgt_Check t) ∧ 0 <= Retries (tgt_Check t) ∧
  Forall runnable (HURLTests (tgt_Check t)).
Proof.
  unfold Validate, validate_check. rewrite !orelse_None, !guard_err_None.
  intros [[[_ Hc] Ht] _]. destruct Hc as [[[[H1 H2] H3] _] _].
  repeat split; try lia.
  apply Forall_lookup. intros i ht Hi. eapply validate_test_runnable, (proj1 (first_error_None _ _ _) Ht i ht Hi).
Qed.

Lemma compile_target_ok tc t : compile_target tc = inl t → compiled_from tc t.
Proof.
  intros H. split; [done|]. unfold compile_target in H.
  destruct (ParseDuration (cc_Interval _)); [|done]. destruct (ParseDuration (cc_Timeout _)); [|done].
  cbv zeta in H. destruct (Validate _) eqn:Hv in H; [done|]. injection H as <-.
  split; [done|]. split; [exact Hv|]. apply (Validate_check _ Hv).
Qed.

(** Only sound targets are monitored. The compiled targets are the enabled
    targets of the configuration, all of them and in their order; each passes
    validation, so its interval and timeout are positive, its retries not
    negative and its HURL tests runnable. An error is that of the first enabled
    target that does not compile, and disabled targets are never looked at. *)
Theorem compileTargets_spec (cfg : Config) :
  let enabled := filter (λ tc, tc_Enabled tc = true) (cfg_Targets cfg) in
  match compileTargets cfg with
  | inl ts => Forall2 compiled_from enabled ts
  | inr err => ∃ sound tc rest, enabled = sound ++ tc :: rest ∧
      Forall (λ tc, ∃ t, compiled_from tc t) sound ∧ compile_target tc = inr err
  end.
Proof.
  cbv zeta. unfold compileTargets. induction (cfg_Targets cfg) as [|tc l IH]; [by constructor|].
  cbn [compile_targets]. destruct (tc_Enabled tc) eqn:He; cbn [negb].
  2:{ by rewrite filter_cons_False by congruence. }
  rewrite filter_cons_True by done. destruct (compile_target tc) as [t|err] eqn:Hc.
  2:{ exists [], tc, (filter (λ tc, tc_Enabled tc = true) l). by split_and!. }
  apply compile_target_ok in Hc. destruct (compile_targets l) as [ts|err]; [by constructor|].
  destruct IH as (s & tc' & rest & -> & Hs & Herr). exists (tc :: s), tc', rest.
  split_and!; [done|constructor; eauto|done].
Qed.

(** ** Retries *)

Lemma wp_attempt v t i env tick e Q :
  (∀ r k, cr_Attempt r.1 = Z.of_nat i → Q r k e) → wp (attempt v t i) env tick e Q.
Proof.
  intros HQ. unfold attempt. cbv zeta. wp_go. destruct (BuildHeaders _ _) as [h|err]; wp_go; [|by apply HQ].
  unfold on_prober. rewrite wp_zoom. apply wp_intro. intros [r|err] k _; wp_go; [|by apply HQ].
  destruct (IsZero _); wp_go; cbv zeta; apply HQ; by repeat destruct (_ =s "").
Qed.

(** Attempts that failed, one after the other, from attempt [i] to [j]. *)
Inductive failed_up_to (v : Visit) (t : Target) (env : Env) (e : Engine) : nat → nat → nat → nat → Prop :=
| failed_none i tick : failed_up_to v t env e i tick i tick
| failed_then i tick j tick' :
    CheckResult_IsFailure (result (attempt v t i) env tick e).1 = true →
    failed_up_to v t env e (S i) (ticks (attempt v t i) env tick e) j tick' →
    failed_up_to v t env e i tick j tick'.

Lemma attempts_from v t more i env tick e :
  ∃ n tick', (i <= n <= i + more)%nat ∧ failed_up_to v t env e i tick n tick' ∧
    attempts v t more i env tick e = attempt v t n env tick' e ∧
    let r := (result (attempts v t more i) env tick e).1 in
    cr_Attempt r = Z.of_nat n ∧ (CheckResult_IsFailure r = true → n = (i + more)%nat).
Proof.
  revert i tick. induction more as [|more IH]; intros i tick.
  - exists i, tick. split; [lia|]. split; [constructor|].
    assert (attempts v t 0 i env tick e = attempt v t i env tick e) as Heq.
    { cbn. unfold mbind, M_bind. destruct (attempt v t i env tick e) as [[r k] s]. by destruct (negb _). }
    split; [done|]. unfold result. rewrite Heq. cbv zeta. rewrite Nat.add_0_r. split; [|done].
    pose proof (wp_attempt v t i env tick e (λ r _ _, cr_Attempt r.1 = Z.of_nat i) (λ _ _ H, H)) as H.
    by rewrite wp_run in H.
  - pose proof (wp_attempt v t i env tick e (λ r _ s, cr_Attempt r.1 = Z.of_nat i ∧ s = e)
      (λ _ _ H, conj H eq_refl)) as Ha. rewrite wp_run in Ha. destruct Ha as [Ha Hs].
    destruct (CheckResult_IsFailure (result (attempt v t i) env tick e).1) eqn:Hf.
    + destruct (IH (S i) (ticks (attempt v t i) env tick e)) as (n & k & Hn & Hup & Heq & Hat & Hlast).
      assert (attempts v t (S more) i env tick e =
        attempts v t more (S i) env (ticks (attempt v t i) env tick e) e) as Hstep.
      { cbn [attempts]. revert Hf Hs. unfold mbind, M_bind, result, ticks, state.
        destruct (attempt v t i env tick e) as [[r k'] s]. cbn [fst snd]. by intros -> ->. }
      exists n, k. split; [lia|]. split; [by econstructor|]. unfold result in *. rewrite Hstep.
      split; [done|]. split; [done|]. intros H. rewrite (Hlast H). lia.
    + assert (attempts v t (S more) i env tick e = attempt v t i env tick e) as Hstep.
      { cbn [attempts]. revert Hf Hs. unfold mbind, M_bind, result, ticks, state.
        destruct (attempt v t i env tick e) as [[r k'] s]. cbn [fst snd]. by intros ->. }
      exists i, tick. split; [lia|]. split; [constructor|]. split; [done|]. cbv zeta. unfold result in *.
      rewrite Hstep, Hf. by split.
Qed.

Lemma attempts_frame v t more env tick e : state (attempts v t more 0) env tick e = e.
Proof.
  destruct (attempts_from v t more 0 env tick e) as (n & k & _ & _ & Heq & _).
  unfold state. rewrite Heq. pose proof (wp_attempt v t n env k e (λ _ _ s, s = e) (λ _ _ _, eq_refl)) as H.
  by rewrite wp_run in H.
Qed.

(** A check retries while it fails, and no longer. Whatever the prober and
    the resolver answer, the attempts before the one that counts all failed,
    their number is at most the target's retries, the result is the last
    attempt's and carries its number, and a failure is reported only when every
    retry has been used. The attempts leave the engine as it was. *)
Theorem attempts_spec (v : Visit) (t : Target) (env : Env) (tick : nat) (e : Engine) :
  let more := Z.to_nat (Retries (tgt_Check t)) in
  let r := (result (attempts v t more 0) env tick e).1 in
  state (attempts v t more 0) env tick e = e ∧
  ∃ n tick', (n <= more)%nat ∧ failed_up_to v t env e 0 tick n tick' ∧
    attempts v t more 0 env tick e = attempt v t n env tick' e ∧
    cr_Attempt r = Z.of_nat n ∧ (CheckResult_IsFailure r = true → n = more).
Proof.
  cbv zeta. split; [apply attempts_frame|].
  destruct (attempts_from v t (Z.to_nat (Retries (tgt_Check t))) 0 env tick e)
    as (n & k & Hn & Hup & Heq & Hat & Hlast).
  exists n, k. split; [lia|done].
Qed.

(** ** Status and alert of a check *)

(** What concluding a check leaves behind: the target's status, and at most one
    alert, at the end of the history and told to the notifiers. *)
Record concluded (t : Target) (r : CheckResult) (e e' : Engine) : Prop := {
  co_cfg : en_cfg e' = en_cfg e;
  co_targets : en_targets e' = en_targets e;
  co_cap : en_eventCap e' = en_eventCap e;
  co_status : ∃ st, en_statuses e' = <[tgt_ID t := st]> (en_statuses e) ∧ rs_TargetID st = tgt_ID t ∧
    rs_State st = cr_State r ∧ rs_Severity st = cr_Severity r ∧ rs_Regression st = cr_Regression r ∧
    rs_Message st = cr_Message r;
  co_alert : if alert_worthy r then
      en_notified e' = en_notified e ++ [alert_of t r] ∧
      en_events e' = append_event (en_eventCap e) (en_events e) (alert_of t r)
    else en_notified e' = en_notified e ∧ en_events e' = en_events e;
}.

(** Only the baseline changes while a result is classified. *)
Lemma wp_classify_any io t r err env tick e Q :
  (∀ r' k s', Q r' k {| e with en_store := s' |}) → wp (classifyWithPolicy io t r err) env tick e Q.
Proof.
  intros HQ.
  assert (∀ r0 k, wp (consult io t err r0) env k e
    (λ a k s, wp (mret (apply_aggressive (en_cfg e) a)) env k s Q)) as Hbody.
  { intros r0 k. unfold consult. wp_go. cbv zeta. generalize (with_defaults (en_cfg e) err r0). intros r1.
    assert (∀ a k, wp (mret (apply_aggressive (en_cfg e) a)) env k e Q) as Hsame.
    { intros a k'. wp_go. specialize (HQ (apply_aggressive (en_cfg e) a) k' (en_store e)). by destruct e. }
    destruct (en_store e); [|wp_go; apply Hsame]. destruct (ks_Enabled _); wp_go; [|apply Hsame].
    rewrite wp_on_world. apply wp_intro. intros up k' w'. wp_go. destruct up; apply HQ. }
  unfold classifyWithPolicy. destruct (IsZero _); wp_go; apply Hbody.
Qed.

Lemma wp_store_and_alert t r env tick (e e0 : Engine) s0 (Q : () → nat → Engine → Prop) :
  e = {| e0 with en_store := s0 |} →
  (∀ e', concluded t r e0 e' → Q tt tick e') →
  wp (_ ← storeStatus t r; maybeAlert t r) env tick e Q.
Proof.
  intros -> HQ. unfold storeStatus, maybeAlert. wp_go.
  destruct (alert_worthy r) eqn:Hw; cbn [negb]; wp_go; apply HQ; split; try rewrite Hw; try done;
    eexists; by repeat split.
Qed.



(** ** The engine over time *)

Lemma wp_conclude_any io t r err env tick (e e0 : Engine) s0 c0 (Q : () → nat → Engine → Prop) :
  e = {| e0 with en_store := s0; en_scanner := c0 |} →
  (∀ r' e' k, concluded t r' e0 e' → Q tt k e') → wp (conclude io t r err) env tick e Q.
Proof.
  intros -> HQ. unfold conclude. wp_go. apply wp_classify_any. intros r' k s'.
  eapply wp_store_and_alert with (e0 := {| e0 with en_scanner := c0 |}); [reflexivity|].
  intros e' [H1 H2 H3 H4 H5]. eapply (HQ r'). by split.
Qed.

Lemma wp_runSafetyStage v t env tick e Q :
  (∀ b k c0, Q b k {| e with en_scanner := c0 |}) → wp (runSafetyStage v t) env tick e Q.
Proof.
  intros HQ. assert (∀ b k, Q b k e) as Hsame.
  { intros b k. specialize (HQ b k (en_scanner e)). by destruct e. }
  unfold runSafetyStage, on_scanner. wp_go. destruct (en_scanner e) as [s|]; wp_go; [|apply Hsame].
  destruct (HURLTests (tgt_Check t)); wp_go; [apply Hsame|].
  rewrite wp_zoom. apply wp_intro. intros u k s1. wp_go. rewrite wp_zoom. apply wp_intro. intros rep k' s2.
  destruct (negb _ || negb _); wp_go; apply HQ.
Qed.

Lemma wp_executeCheck v t env tick e (Q : () → nat → Engine → Prop) :
  (v_acquired v = false → Q tt tick e) →
  (v_acquired v = true → ∀ r e' k, concluded t r e e' → Q tt k e') →
  wp (executeCheck v t) env tick e Q.
Proof.
  intros Hno Hyes. unfold executeCheck. destruct (v_acquired v); cbn [negb]; [|wp_go; by apply Hno].
  specialize (Hyes eq_refl). rewrite wp_bind. apply wp_runSafetyStage. intros b k c0.
  assert (∀ r err k', wp (conclude (v_faults v) t r err) env k' {| e with en_scanner := c0 |} Q) as Hend.
  { intros r err k'. eapply (wp_conclude_any _ _ _ _ _ _ _ e (en_store e) c0); [reflexivity|].
    intros r' e' k'' H. by apply (Hyes r'). }
  destruct b as [r|]; [apply Hend|].
  rewrite wp_bind, wp_run, attempts_frame. apply Hend.
Qed.

(** What a run has done so far: the targets checked since the last reload, and
    the smallest and the largest bound the history ever had. *)
Record Trace := mkTrace {
  checked : gset string;
  narrowest : Z;
  widest : Z;
}.

(** Checks of the current targets, in any order and meeting anything, and
    reloads of any configuration. *)
Inductive engine_step : Engine * Trace → Engine * Trace → Prop :=
| step_check e tr t v env tick :
    t ∈ en_targets e →
    engine_step (e, tr)
      (state (executeCheck v t) env tick e,
       if v_acquired v then {| tr with checked := {[tgt_ID t]} ∪ checked tr |} else tr)
| step_reload e tr cfg env tick :
    engine_step (e, tr)
      (state (ReloadConfig cfg) env tick e,
       match compileTargets cfg with
       | inl _ => mkTrace ∅ (narrowest tr `min` event_cap cfg) (widest tr `max` event_cap cfg)
       | inr _ => tr
       end).

Definition reached (x : Engine * Trace) : Prop :=
  ∃ cfg store scanner e0, NewEngine cfg store scanner = inl e0 ∧
    rtc engine_step (e0, mkTrace ∅ (event_cap cfg) (event_cap cfg)) x.

Record engine_ok (e : Engine) (tr : Trace) : Prop := {
  eo_statuses : dom (en_statuses e) = checked tr;
  eo_keyed : ∀ id st, en_statuses e !! id = Some st → rs_TargetID st = id;
  eo_current : checked tr ⊆ list_to_set (TargetIDs e);
  eo_caps : 0 < narrowest tr <= en_eventCap e ∧ en_eventCap e <= widest tr;
  eo_latest : en_events e `suffix_of` en_notified e;
  eo_room : en_events e = en_notified e ∨ narrowest tr <= Z.of_nat (length (en_events e));
  eo_bound : Z.of_nat (length (en_events e)) <= widest tr;
}.

Lemma event_cap_pos cfg : 0 < event_cap cfg.
Proof. unfold event_cap. destruct (_ <=? 0) eqn:H; lia. Qed.

Lemma append_event_length cap evs ev :
  0 < cap → length (append_event cap evs ev) =
    if Z.of_nat (length evs) <? cap then S (length evs) else length evs.
Proof.
  intros Hc. unfold append_event. destruct (_ <? cap) eqn:H; rewrite length_app; [cbn; lia|].
  apply Z.ltb_ge in H. destruct evs; cbn [length tail] in *; lia.
Qed.

Lemma append_event_suffix cap evs told ev :
  evs `suffix_of` told → append_event cap evs ev `suffix_of` told ++ [ev].
Proof.
  intros [pre ->]. unfold append_event. destruct (_ <? cap); [exists pre; by rewrite app_assoc|].
  destruct evs as [|x evs]; cbn; [exists pre; by rewrite app_nil_r|].
  exists (pre ++ [x]). by rewrite <- !app_assoc.
Qed.

Lemma concluded_ok t r e e' tr :
  engine_ok e tr → t ∈ en_targets e → concluded t r e e' →
  engine_ok e' {| tr with checked := {[tgt_ID t]} ∪ checked tr |}.
Proof.
  intros [Hst Hk Hcur Hcap Hl Hr Hb] Ht [Hc Hts Hec (st & Hs & Hid & _) Hal].
  split; cbn [checked narrowest widest].
  - rewrite Hs, dom_insert_L. by rewrite Hst.
  - intros id st'. rewrite Hs, lookup_insert. case_decide; naive_solver.
  - unfold TargetIDs. rewrite Hts. intros id. rewrite elem_of_union, elem_of_singleton.
    intros [->|H]; [|by apply Hcur]. rewrite elem_of_list_to_set. by apply list_elem_of_fmap_2.
  - by rewrite Hec.
  - destruct (alert_worthy r); destruct Hal as [-> ->]; [by apply append_event_suffix|done].
  - destruct (alert_worthy r); destruct Hal as [-> ->]; [|done].
    rewrite append_event_length by lia. destruct (_ <? en_eventCap e) eqn:Hlt.
    + destruct Hr as [Hr|Hr]; [left; unfold append_event; by rewrite Hlt, Hr|right; lia].
    + right. lia.
  - destruct (alert_worthy r); destruct Hal as [_ ->]; [|done].
    rewrite append_event_length by lia. destruct (_ <? _) eqn:Hlt; lia.
Qed.

Lemma reload_ok cfg env tick e tr :
  engine_ok e tr →
  engine_ok (state (ReloadConfig cfg) env tick e)
    (match compileTargets cfg with
     | inl _ => mkTrace ∅ (narrowest tr `min` event_cap cfg) (widest tr `max` event_cap cfg)
     | inr _ => tr
     end).
Proof.
  intros [Hst Hk Hcur Hcap Hl Hr Hb].
  enough (wp (ReloadConfig cfg) env tick e (λ _ _ e', engine_ok e' (match compileTargets cfg with
     | inl _ => mkTrace ∅ (narrowest tr `min` event_cap cfg) (widest tr `max` event_cap cfg)
     | inr _ => tr
     end))) as H by by rewrite wp_run in H.
  unfold ReloadConfig. destruct (compileTargets cfg) as [ts|err]; wp_go; [|by split].
  pose proof (event_cap_pos cfg). split; cbn [checked narrowest widest en_eventCap en_events]; try done; try lia.
  destruct Hr; [by left|right; lia].
Qed.

Lemma engine_step_ok e tr e' tr' : engine_ok e tr → engine_step (e, tr) (e', tr') → engine_ok e' tr'.
Proof.
  intros Hok H. inversion H as [? ? t v env tick Ht|]; subst; [|by apply reload_ok].
  enough (wp (executeCheck v t) env tick e (λ _ _ e', engine_ok e'
    (if v_acquired v then {| tr with checked := {[tgt_ID t]} ∪ checked tr |} else tr))) as Hwp
    by (by rewrite wp_run in Hwp).
  apply wp_executeCheck; intros Hv; rewrite Hv; [done|].
  intros r e' k Hc. by eapply concluded_ok.
Qed.

Lemma reached_ok x : reached x → engine_ok x.1 x.2.
Proof.
  intros (cfg & s & sc & e0 & Hnew & Hrun).
  assert (engine_ok e0 (mkTrace ∅ (event_cap cfg) (event_cap cfg))) as H0.
  { unfold NewEngine in Hnew. destruct (compileTargets cfg); [|done]. injection Hnew as <-.
    pose proof (event_cap_pos cfg). split; cbn; try done; try lia; by left. }
  revert H0. remember (e0, mkTrace _ _ _) as x0 eqn:Hx0.
  change (mkTrace ∅ (event_cap cfg) (event_cap cfg)) with (e0, mkTrace ∅ (event_cap cfg) (event_cap cfg)).2.
  change e0 with (e0, mkTrace ∅ (event_cap cfg) (event_cap cfg)).1 at 1. rewrite <- Hx0. clear Hx0.
  induction Hrun as [|x y z Hxy _ IH]; [done|]. intros H0. apply IH.
  destruct x, y. by eapply engine_step_ok.
Qed.

(** The ids of the statuses are the keys of the map. *)
Lemma status_ids (e : Engine) :
  (∀ id st, en_statuses e !! id = Some st → rs_TargetID st = id) →
  map rs_TargetID (SnapshotStatuses e) ≡ₚ elements (dom (en_statuses e)).
Proof.
  intros Hk. unfold SnapshotStatuses. rewrite merge_sort_Permutation.
  assert (map rs_TargetID (map_to_list (en_statuses e)).*2 = (map_to_list (en_statuses e)).*1) as ->.
  { change (map rs_TargetID) with (fmap (M := list) rs_TargetID). rewrite <- list_fmap_compose.
    apply list_fmap_ext. intros i [id st] Hi. apply Hk.
    by apply elem_of_map_to_list, list_elem_of_lookup_2 with i. }
  apply NoDup_Permutation; [apply NoDup_fst_map_to_list|apply NoDup_elements|].
  intros id. rewrite elem_of_elements, elem_of_dom, list_elem_of_fmap. split.
  - intros ([? st] & -> & H). exists st. by apply elem_of_map_to_list in H.
  - intros [st H]. exists (id, st). by rewrite elem_of_map_to_list.
Qed.

(** A set inside a list is as large as the list only when they are the same. *)
Lemma covers_list (X : gset string) (l : list string) :
  X ⊆ list_to_set l → (length l <= size X)%nat ↔ NoDup l ∧ ∀ x, x ∈ l → x ∈ X.
Proof.
  intros Hsub. assert (elements X ⊆+ l) as Hle.
  { apply NoDup_submseteq; [apply NoDup_elements|]. intros x Hx.
    apply elem_of_elements, Hsub, elem_of_list_to_set in Hx. done. }
  split.
  - intros Hlen. pose proof (submseteq_length_Permutation _ _ Hle Hlen) as Hp. rewrite <- Hp.
    split; [apply NoDup_elements|]. intros x. rewrite <- Hp, elem_of_elements. done.
  - intros [Hnd Hin]. apply submseteq_length, NoDup_submseteq; [done|].
    intros x Hx. by apply elem_of_elements, Hin.
Qed.

(** C3: the engine is ready exactly when every target has been checked. In every
    reachable state (any checks, met by anything, and any reloads), readiness
    says that there are targets, their ids are distinct and each was checked
    since the last reload that took effect; and the status list, sorted by id,
    has one entry for each target checked since then and nothing else, so no
    status of a removed target survives a reload. *)
Theorem engine_ready (e : Engine) (tr : Trace) :
  reached (e, tr) →
  (IsReady e = true ↔ en_targets e ≠ [] ∧ NoDup (TargetIDs e) ∧ ∀ id, id ∈ TargetIDs e → id ∈ checked tr) ∧
  map rs_TargetID (SnapshotStatuses e) ≡ₚ elements (checked tr) ∧
  Sorted by_rs_ID (SnapshotStatuses e) ∧
  checked tr ⊆ list_to_set (TargetIDs e).
Proof.
  intros H. apply reached_ok in H as [Hst Hk Hcur _ _ _ _]. cbn [fst snd] in *.
  split_and!; [| |apply StronglySorted_Sorted, StronglySorted_merge_sort; apply _|done].
  2:{ rewrite <- Hst. by apply status_ids. }
  rewrite <- (covers_list _ _ Hcur). unfold IsReady. rewrite <- size_dom, Hst.
  unfold TargetIDs. rewrite length_map, andb_true_iff, Nat.leb_le, Nat.ltb_lt.
  destruct (en_targets e); cbn; split; intros []; (split; [lia || done|lia || done]).
Qed.

(** The history is the tail of what was notified. In every reachable state
    the events kept are the latest alerts the notifiers were told of, in order,
    with no alert dropped before the history reached its smallest bound, and
    never more than the largest bound the configurations gave it. *)
Theorem events_are_latest (e : Engine) (tr : Trace) :
  reached (e, tr) →
  (∃ older, en_notified e = older ++ SnapshotEvents e ∧
     (older = [] ∨ narrowest tr <= Z.of_nat (length (SnapshotEvents e)))) ∧
  Z.of_nat (length (SnapshotEvents e)) <= widest tr.
Proof.
  intros H. apply reached_ok in H as [_ _ _ _ [older Hl] Hr Hb]. cbn [fst snd] in *.
  split; [|done]. exists older. split; [done|]. destruct Hr as [Hr|Hr]; [left|by right].
  rewrite Hl in Hr. apply (f_equal length) in Hr. rewrite length_app in Hr.
  destruct older; [done|cbn in Hr; lia].
Qed.

(** A reload that does not compile changes nothing; one that does takes the new
    targets and bound, forgets the statuses, keeps the baseline and the history,
    and names the targets that are gone, for the caller to withdraw. *)
Lemma ReloadConfig_effect (cfg : Config) (env : Env) (tick : nat) (e : Engine) :
  let e' := state (ReloadConfig cfg) env tick e in
  match compileTargets cfg, result (ReloadConfig cfg) env tick e with
  | inr err, inr err' => err' = err ∧ e' = e
  | inl ts, inl removed =>
      e' = {| e with en_cfg := cfg; en_targets := ts; en_statuses := ∅; en_eventCap := event_cap cfg |} ∧
      ∀ id, id ∈ removed ↔ id ∈ TargetIDs e ∧ id ∉ map tgt_ID ts
  | _, _ => False
  end.
Proof.
  cbv zeta. unfold ReloadConfig, result, state. destruct (compileTargets cfg) as [ts|err]; [|done].
  cbn. split; [done|]. intros id. unfold removedTargetIDs, TargetIDs.
  change (@map Target string) with (fmap (M := list) (A := Target) (B := string)).
  rewrite (list_elem_of_fmap tgt_ID (filter _ _) id), (list_elem_of_fmap tgt_ID (en_targets e) id).
  setoid_rewrite list_elem_of_filter. split.
  - intros (t & -> & Hm & Ht). split; [by eauto|]. intros Hin. apply mem_true in Hin.
    by rewrite Hin in Hm.
  - intros [(t & -> & Ht) Hno]. exists t. split; [done|]. split; [|done].
    destruct (mem _ _) eqn:Hm; [|done]. destruct Hno. by apply mem_true in Hm.
Qed.

(** ** Examples *)

Definition ex_monitor : Config :=
  {| ex_config with cfg_Targets := [{| zeroTargetConfig with
       tc_ID := "t"; tc_Enabled := true; tc_Protocol := "MCP"; tc_Name := "T"; tc_Endpoint := "http://h/";
       tc_Transport := "http"; tc_Type := "remote"; tc_Expected := mkExpected [] ["tools/list"] 0 "";
       tc_Check := mkTargetCheckConfig "1s" "1s" 1 "" [] [] |}] |}.
(** A check whose probe finds [found]. *)
Definition ex_visit (found : CheckResult) (io : Faults) : Visit :=
  mkVisit true io (mkSafetyHost (λ _, false) None (λ _ _ _ _, CallFailed "")) (λ _, mkSecrets ∅ (λ _, Absent) (λ _ _, None) false) (λ _ _ _, mret (inl found)).

Definition ex_healthy : CheckResult := result_of ex_target StateHealthy SeverityInfo FailureNone "ok" 200 0 8.

(** An engine started on [ex_monitor], after one healthy check. *)
Definition ex_started : Engine :=
  match NewEngine ex_monitor (Some (ex_baseline true)) None with inl e => e | inr _ => ex_engine true end.
Definition ex_run (found : CheckResult) (io : Faults) : Engine :=
  state (executeCheck (ex_visit found io) ex_target) (frozen 9 "") 0 ex_started.

Definition ex_trace : Trace := mkTrace ({[tgt_ID ex_target]} ∪ ∅) 3 3.
Lemma ex_reached found io : reached (ex_run found io, ex_trace).
Proof.
  exists ex_monitor, (Some (ex_baseline true)), None, ex_started. split; [reflexivity|].
  apply rtc_once. apply (step_check ex_started (mkTrace ∅ 3 3) ex_target (ex_visit found io)).
  apply list_elem_of_here.
Qed.

Lemma engine_ready_witness :
  let e := ex_run ex_healthy no_faults in
  IsReady e = true ∧
  (IsReady e = true ↔ en_targets e ≠ [] ∧ NoDup (TargetIDs e) ∧
     ∀ id, id ∈ TargetIDs e → id ∈ checked ex_trace) ∧
  map rs_TargetID (SnapshotStatuses e) ≡ₚ elements (checked ex_trace) ∧
  Sorted by_rs_ID (SnapshotStatuses e) ∧
  checked ex_trace ⊆ list_to_set (TargetIDs e).
Proof.
  cbv zeta. split; [vm_compute; reflexivity|].
  apply (engine_ready (ex_run ex_healthy no_faults) ex_trace).
  apply ex_reached.
Defined.

Lemma events_are_latest_witness :
  let e := ex_run ex_failure no_faults in
  length (SnapshotEvents e) = 1%nat ∧
  (∃ older, en_notified e = older ++ SnapshotEvents e ∧
     (older = [] ∨ 3 <= Z.of_nat (length (SnapshotEvents e)))) ∧
  Z.of_nat (length (SnapshotEvents e)) <= 3.
Proof.
  cbv zeta. split; [vm_compute; reflexivity|].
  apply (events_are_latest (ex_run ex_failure no_faults) ex_trace).
  apply ex_reached.
Defined.

(** A baseline on a disk that cannot be written: the target was ever healthy and
    fails, yet the check raises no alert and shows no regression. *)
Definition full_disk : Faults := mkFaults (λ _, false) false false true false false.
Definition saving_engine : Engine :=
  {| (ex_engine true) with en_store := Some (mkWorld {| (NewStore "known.json" []) with
       snapshot := snapshot (store (ex_baseline true)) |} ∅) |}.

Example unsaved_regression_not_alerted :
  let after io := state (conclude io ex_target ex_failure None) (frozen 9 "") 0 saving_engine in
  (en_notified (after full_disk) = [] ∧
   rs_State <$> en_statuses (after full_disk) !! "t" = Some StateUnhealthy) ∧
  (length (en_notified (after no_faults)) = 1%nat ∧
   rs_State <$> en_statuses (after no_faults) !! "t" = Some StateRegression).
Proof. vm_compute. auto. Qed.

(** A reload to a smaller bound does not shorten the history, and the alerts
    after it do not either. *)
Example history_outgrows_cap :
  let e := {| (ex_engine true) with en_events := repeat (alert_of ex_target ex_failure) 3 |} in
  let e' := state (_ ← ReloadConfig {| ex_monitor with
                     cfg_Runtime := {| (cfg_Runtime ex_monitor) with run_EventHistorySize := 1 |} |};
                   conclude no_faults ex_target ex_failure None) (frozen 9 "") 0 e in
  en_eventCap e' = 1 ∧ length (en_events e') = 3%nat.
Proof. vm_compute. auto. Qed.

(** The mask is put in front of the secret, which stays. *)
Example redaction_keeps_the_secret :
  redactAuthErr "rejected Bearer s3cret" = "rejected Bearer ****s3cret".
Proof. vm_compute. reflexivity. Qed.
