(* ===== verification/Runs.v ===== *)
(** * The engine's loops ([Start], [ReloadConfig] and [runTargetLoop] of [engine.go])

    The engine runs one goroutine per target. A start launches them, a reload stops
    the ones that run, waits for them and launches those of the new configuration,
    and the end of a start's context stops them for good. Each critical section of
    [runMu] is a step, as is each thing a loop does; the probes in flight hold the
    semaphore. A check changes the engine's state when it ends. *)

From Stdlib Require Import ZArith Lia.
From stdpp Require Import base tactics strings gmap relations.
From stdpp Require Import list.
From S2P Require Import Prelude Durations KnownState Targets Safety Config Engine.

Open Scope Z_scope.

(** ** The state *)

(** A goroutine of [runTargetLoop]: the generation it belongs to, its target, and
    whether it holds the semaphore. *)
Record Loop := mkLoop { lp_gen : nat; lp_target : Target; lp_busy : bool }.

(** Who holds [runMu] while it waits for the loops: a reload, with the compiled
    configuration and whether it found loops to stop, or the end of a start. *)
Inductive Holder := Free | Reloading (cfg : Config) (compiled : list Target) (stopped : bool) | Stopping.

Inductive StartPhase := NotStarted | Loading (call : nat) | LoadFailed | Launched.

(** Calls of [Start] are numbered; so are the generations of loops. *)
Record Run := mkRun {
  ru_engine : Engine;
  ru_trace : Trace;
  ru_phase : StartPhase;          (* startOnce *)
  ru_waiting : gset nat;          (* the calls that wait for their context *)
  ru_done : gset nat;             (* the calls whose context is done *)
  ru_ctx : option nat;            (* runCtx *)
  ru_gen : option nat;            (* targetsCancel *)
  ru_next : nat;
  ru_cancelled : gset nat;
  ru_loops : list Loop;
  ru_holder : Holder;
  ru_stopped : bool;              (* stopOnce *)
}.

Definition NewRun (e : Engine) : Run :=
  mkRun e (mkTrace ∅ (en_eventCap e) (en_eventCap e)) NotStarted ∅ ∅ None None 0 ∅ [] Free false.

Definition workers (cfg : Config) : Z := Z.max 1 (svc_MaxWorkers (cfg_Service cfg)).
Definition busy (r : Run) : Z := Z.of_nat (length (filter (λ l, lp_busy l = true) (ru_loops r))).

(** Whether the context of a loop is done. *)
Definition ctx_done (r : Run) : bool :=
  match ru_ctx r with Some c => bool_decide (c ∈ ru_done r) | None => false end.
Definition loop_done (r : Run) (l : Loop) : bool := ctx_done r || bool_decide (lp_gen l ∈ ru_cancelled r).

(** ** The steps *)

Definition launchTargetsLocked (ts : list Target) (r : Run) : Run :=
  {| r with ru_gen := Some (ru_next r); ru_next := S (ru_next r);
            ru_loops := ru_loops r ++ map (λ t, mkLoop (ru_next r) t false) ts |}.

Definition cancel_gen (r : Run) : Run :=
  match ru_gen r with
  | Some g => {| r with ru_gen := None; ru_cancelled := {[g]} ∪ ru_cancelled r |}
  | None => r
  end.

Definition set_loop (i : nat) (l : Loop) (r : Run) : Run := {| r with ru_loops := <[i := l]> (ru_loops r) |}.
Definition drop_loop (i : nat) (r : Run) : Run := {| r with ru_loops := delete i (ru_loops r) |}.
Definition set_engine (e : Engine) (tr : Trace) (r : Run) : Run := {| r with ru_engine := e; ru_trace := tr |}.

(** The store is loaded before the loops start and saved after they ended; without
    a store both succeed. *)
Definition load_store (io : Faults) (n : nat) : M Engine (option error) :=
  e ← get; match en_store e with Some w => on_world w (KnownState.Load io n) | None => mret None end.
Definition save_store (io : Faults) (n : nat) : M Engine (option error) :=
  e ← get; match en_store e with Some w => on_world w (KnownState.Save io n) | None => mret None end.

Definition start_load (call : nat) (io : Faults) (n : nat) (env : Env) (tick : nat) (r : Run) : Run :=
  let phase := match result (load_store io n) env tick (ru_engine r) with None => Loading call | Some _ => LoadFailed end in
  let r := set_engine (state (load_store io n) env tick (ru_engine r)) (ru_trace r) r in {| r with ru_phase := phase |}.

(** [startTargets] *)
Definition startTargets (call : nat) (r : Run) : Run :=
  launchTargetsLocked (en_targets (ru_engine r))
    {| r with ru_phase := Launched; ru_ctx := Some call; ru_waiting := {[call]} ∪ ru_waiting r |}.

(** [ReloadConfig] up to the wait, and after it. *)
Definition reload_begin (cfg : Config) (compiled : list Target) (r : Run) : Run :=
  let stopped := bool_decide (is_Some (ru_gen r)) in
  let r := cancel_gen r in
  {| r with ru_holder := Reloading cfg compiled stopped |}.
Definition reload_end (cfg : Config) (compiled : list Target) (env : Env) (tick : nat) (r : Run) : Run :=
  let tr := ru_trace r in
  let r := set_engine (state (ReloadConfig cfg) env tick (ru_engine r))
             (mkTrace ∅ (narrowest tr `min` event_cap cfg) (widest tr `max` event_cap cfg)) r in
  let r := {| r with ru_holder := Free |} in
  match ru_ctx r with Some _ => launchTargetsLocked compiled r | None => r end.

(** [stopTargets] up to the wait; after it the store is saved. *)
Definition stop_begin (r : Run) : Run :=
  let r := cancel_gen r in {| r with ru_holder := Stopping; ru_stopped := true |}.
Definition stop_end (io : Faults) (n : nat) (env : Env) (tick : nat) (r : Run) : Run :=
  let r := set_engine (state (save_store io n) env tick (ru_engine r)) (ru_trace r) r in {| r with ru_holder := Free |}.

Inductive run_step : Run → Run → Prop :=
| on_start r call io n env tick :
    ru_phase r = NotStarted →
    run_step r (start_load call io n env tick r)
| on_launch r call : ru_phase r = Loading call → ru_holder r = Free → run_step r (startTargets call r)
| on_start_again r call : ru_phase r = LoadFailed ∨ ru_phase r = Launched →
    run_step r {| r with ru_waiting := {[call]} ∪ ru_waiting r |}
| on_cancel r call : run_step r {| r with ru_done := {[call]} ∪ ru_done r |}
| on_acquire r i l :
    ru_loops r !! i = Some l → lp_busy l = false → loop_done r l = false → busy r < workers (en_cfg (ru_engine r)) →
    run_step r (set_loop i {| l with lp_busy := true |} r)
| on_checked r i l v env tick :
    ru_loops r !! i = Some l → lp_busy l = true → v_acquired v = true →
    run_step r (set_loop i {| l with lp_busy := false |}
      (set_engine (state (executeCheck v (lp_target l)) env tick (ru_engine r))
         {| (ru_trace r) with checked := {[tgt_ID (lp_target l)]} ∪ checked (ru_trace r) |} r))
| on_exit r i l :
    ru_loops r !! i = Some l → lp_busy l = false → loop_done r l = true → run_step r (drop_loop i r)
| on_reload r cfg compiled : ru_holder r = Free → compileTargets cfg = inl compiled → run_step r (reload_begin cfg compiled r)
| on_reloaded r cfg compiled stopped env tick :
    ru_holder r = Reloading cfg compiled stopped → (stopped = true → ru_loops r = []) →
    run_step r (reload_end cfg compiled env tick r)
| on_stop r call : ru_holder r = Free → call ∈ ru_waiting r → call ∈ ru_done r → ru_stopped r = false →
    run_step r (stop_begin r)
| on_stopped r io n env tick : ru_holder r = Stopping → ru_loops r = [] → run_step r (stop_end io n env tick r).

Definition started_run (r : Run) : Prop :=
  ∃ cfg store scanner e, NewEngine cfg store scanner = inl e ∧ r = NewRun e.
Definition run_reached (r : Run) : Prop := ∃ r0, started_run r0 ∧ rtc run_step r0 r.

(** ** The engine's own steps *)

(** What the loops do to the engine: its steps, and what touches the baseline
    only. *)
Inductive engine_effect : Engine * Trace → Engine * Trace → Prop :=
| by_step x y : engine_step x y → engine_effect x y
| by_store e tr w : engine_effect (e, tr) ({| e with en_store := w |}, tr).

Lemma store_only {A} (m : World → M World A) d env tick e : ∃ w,
  state (e ← get; match en_store e with Some w => on_world w (m w) | None => mret d end) env tick e = {| e with en_store := w |}.
Proof.
  destruct e as [cfg [w|] sc ts st ev cap told].
  - exists (Some (state (m w) env tick w)). unfold state, on_world, zoom, mbind, M_bind, get. cbn.
    by destruct (m w env tick w) as [[a k] w'].
  - by exists None.
Qed.

Lemma load_store_only io n env tick e : ∃ w, state (load_store io n) env tick e = {| e with en_store := w |}.
Proof. apply (store_only (λ _, KnownState.Load io n)). Qed.
Lemma save_store_only io n env tick e : ∃ w, state (save_store io n) env tick e = {| e with en_store := w |}.
Proof. apply (store_only (λ _, KnownState.Save io n)). Qed.

Lemma check_keeps v t env tick e :
  en_cfg (state (executeCheck v t) env tick e) = en_cfg e ∧ en_targets (state (executeCheck v t) env tick e) = en_targets e.
Proof.
  enough (wp (executeCheck v t) env tick e (λ _ _ e', en_cfg e' = en_cfg e ∧ en_targets e' = en_targets e)) as H
    by (by rewrite wp_run in H).
  apply wp_executeCheck; [done|]. intros _ r e' k []. done.
Qed.

Lemma reload_sets cfg compiled env tick e : compileTargets cfg = inl compiled →
  en_cfg (state (ReloadConfig cfg) env tick e) = cfg ∧ en_targets (state (ReloadConfig cfg) env tick e) = compiled.
Proof. intros H. unfold ReloadConfig, state. by rewrite H. Qed.

Lemma store_ok w e tr : engine_ok e tr → engine_ok {| e with en_store := w |} tr.
Proof. intros []. by split. Qed.

(** ** What holds of a run *)

Record run_ok (r : Run) : Prop := {
  ro_engine : engine_ok (ru_engine r) (ru_trace r);
  ro_compiled : compileTargets (en_cfg (ru_engine r)) = inl (en_targets (ru_engine r));
  ro_loops : map lp_target (ru_loops r) `sublist_of` en_targets (ru_engine r);
  ro_gen : match ru_gen r with
    | Some g => Forall (λ l, lp_gen l = g) (ru_loops r) ∧ g ∉ ru_cancelled r ∧ is_Some (ru_ctx r)
    | None => Forall (λ l, lp_gen l ∈ ru_cancelled r) (ru_loops r)
    end;
  ro_live : is_Some (ru_gen r) → ctx_done r = false → map lp_target (ru_loops r) = en_targets (ru_engine r);
  ro_holder : match ru_holder r with
    | Free => ru_gen r = None → ru_loops r = []
    | Reloading cfg compiled stopped => compileTargets cfg = inl compiled ∧ ru_gen r = None ∧ (stopped = false → ru_loops r = [])
    | Stopping => ru_gen r = None
    end;
  ro_ctx : is_Some (ru_ctx r) → ru_phase r = Launched;
  ro_next : (∀ g, g ∈ ru_cancelled r → (g < ru_next r)%nat) ∧ (∀ g, ru_gen r = Some g → (g < ru_next r)%nat);
  ro_busy : busy r <= workers (en_cfg (ru_engine r));
}.

Definition held (l : Loop) : Z := if lp_busy l then 1 else 0.

Lemma busy_count l : Z.of_nat (length (filter (λ l, lp_busy l = true) [l])) = held l.
Proof. unfold held. rewrite filter_cons. by destruct (lp_busy l). Qed.

Lemma busy_split r i l : ru_loops r !! i = Some l →
  busy r = Z.of_nat (length (filter (λ l, lp_busy l = true) (take i (ru_loops r)))) + held l
    + Z.of_nat (length (filter (λ l, lp_busy l = true) (drop (S i) (ru_loops r)))).
Proof.
  intros H. unfold busy. rewrite <- (take_drop_middle (ru_loops r) i l H) at 1.
  change (l :: drop (S i) (ru_loops r)) with ([l] ++ drop (S i) (ru_loops r)).
  rewrite !filter_app, !length_app, <- (busy_count l). lia.
Qed.

Lemma busy_set r i l l' : ru_loops r !! i = Some l → busy (set_loop i l' r) = busy r - held l + held l'.
Proof.
  intros H. rewrite (busy_split r i l H). rewrite (busy_split _ i l').
  - unfold set_loop. cbn [ru_loops]. rewrite take_insert_ge, drop_insert_lt by lia. lia.
  - unfold set_loop. cbn [ru_loops]. apply list_lookup_insert_eq. by eapply lookup_lt_Some.
Qed.

Lemma busy_drop r i : busy (drop_loop i r) <= busy r.
Proof.
  unfold busy, drop_loop. cbn [ru_loops].
  assert (filter (λ l, lp_busy l = true) (delete i (ru_loops r)) `sublist_of` filter (λ l, lp_busy l = true) (ru_loops r)) as H.
  { rewrite delete_take_drop. destruct (ru_loops r !! i) as [l|] eqn:E.
    - rewrite <- (take_drop_middle _ _ _ E) at 3. rewrite !filter_app. apply sublist_app; [done|].
      rewrite filter_cons. case_decide; [by apply sublist_cons|done].
    - apply lookup_ge_None in E. rewrite drop_ge, take_ge, app_nil_r by lia. done. }
  apply sublist_length in H. lia.
Qed.

(** A loop that changes hands with the semaphore. *)
Lemma set_loop_ok r i l l' e tr : run_ok r → ru_loops r !! i = Some l →
  lp_target l' = lp_target l → lp_gen l' = lp_gen l → busy r - held l + held l' <= workers (en_cfg (ru_engine r)) →
  engine_ok e tr → en_cfg e = en_cfg (ru_engine r) → en_targets e = en_targets (ru_engine r) →
  run_ok (set_loop i l' (set_engine e tr r)).
Proof.
  intros [] Hi Ht Hg Hb He Hc Hts.
  assert (map lp_target (<[i := l']> (ru_loops r)) = map lp_target (ru_loops r)) as Hm.
  { rewrite (list_fmap_insert lp_target), Ht. apply list_insert_id. change (map lp_target) with (fmap (M := list) lp_target).
    by rewrite list_lookup_fmap, Hi. }
  split; unfold set_loop, set_engine; cbn [ru_engine ru_trace ru_loops ru_gen ru_cancelled ru_ctx ru_holder ru_phase ru_next];
    rewrite ?Hc, ?Hts, ?Hm; try done.
  - destruct (ru_gen r).
    + destruct ro_gen0 as (H & ? & ?). split; [|done]. apply Forall_insert; [done|]. rewrite Hg. by rewrite Forall_lookup in H; eapply H.
    + apply Forall_insert; [done|]. rewrite Hg. by rewrite Forall_lookup in ro_gen0; eapply ro_gen0.
  - destruct (ru_holder r) as [|cfg compiled stopped|]; [|destruct ro_holder0 as (? & ? & H); split_and!; try done; intros Hs|done].
    + intros Hn. by rewrite ro_holder0 in Hi.
    + by rewrite H in Hi.
  - change (busy (set_loop i l' r) <= workers (en_cfg (ru_engine r))). by rewrite (busy_set r i l l' Hi).
Qed.

Lemma drop_loop_ok r i l : run_ok r → ru_loops r !! i = Some l → loop_done r l = true → run_ok (drop_loop i r).
Proof.
  intros Hok Hi Hd. pose proof (busy_drop r i) as Hb. destruct Hok. split; unfold drop_loop; cbn [ru_engine ru_trace ru_loops ru_gen ru_cancelled ru_ctx ru_holder ru_phase ru_next]; try done.
  - etrans; [|exact ro_loops0]. change (map lp_target) with (fmap (M := list) lp_target). rewrite list_fmap_delete. apply sublist_delete.
  - destruct (ru_gen r); [destruct ro_gen0 as (? & ? & ?); split; [|done]|]; by apply Forall_delete.
  - intros [g Hg] Hc. exfalso. change (ctx_done r = false) in Hc. unfold loop_done in Hd. rewrite Hc in Hd. cbn [orb] in Hd.
    apply bool_decide_eq_true in Hd. rewrite Hg in ro_gen0. destruct ro_gen0 as (H & Hn & _).
    rewrite Forall_lookup in H. by rewrite (H _ _ Hi) in Hd.
  - destruct (ru_holder r) as [|cfg compiled stopped|]; [|destruct ro_holder0 as (? & ? & H); split_and!; try done; intros Hs|done].
    + intros Hn. by rewrite ro_holder0 in Hi.
    + by rewrite H in Hi.
  - change (busy (drop_loop i r) <= workers (en_cfg (ru_engine r))). lia.
Qed.

Ltac run_cbn := cbn [ru_engine ru_trace ru_loops ru_gen ru_cancelled ru_ctx ru_holder ru_phase ru_next ru_done ru_waiting ru_stopped].

(** Steps that leave the loops and the lock alone. *)
Lemma set_store_ok w r : run_ok r → run_ok (set_engine {| (ru_engine r) with en_store := w |} (ru_trace r) r).
Proof. intros []. split; unfold set_engine; run_cbn; try done. by apply store_ok. Qed.

Lemma start_load_ok call io n env tick r : run_ok r → ru_phase r = NotStarted → run_ok (start_load call io n env tick r).
Proof.
  intros Hok Hp. unfold start_load. destruct (load_store_only io n env tick (ru_engine r)) as [w ->].
  apply (set_store_ok w) in Hok. generalize dependent (match result (load_store io n) env tick (ru_engine r) with None => Loading call | Some _ => LoadFailed end).
  destruct Hok. intros phase. split; try done. intros Hc. exfalso. apply ro_ctx0 in Hc. unfold set_engine in Hc. cbn in Hc. congruence.
Qed.

Lemma waits_ok r waiting done : run_ok r → ru_done r ⊆ done → run_ok {| r with ru_waiting := waiting; ru_done := done |}.
Proof.
  intros [] Hd. split; run_cbn; try done. intros Hg Hc. apply ro_live0; [done|]. unfold ctx_done in *. cbn [ru_ctx ru_done] in Hc.
  destruct (ru_ctx r); [|done]. apply bool_decide_eq_false in Hc. apply bool_decide_eq_false. set_solver.
Qed.

Lemma map_target_loops g ts : map lp_target (map (λ t, mkLoop g t false) ts) = ts.
Proof. rewrite map_map. apply map_id. Qed.

Lemma busy_fresh g ts : filter (λ l, lp_busy l = true) (map (λ t, mkLoop g t false) ts) = [].
Proof. induction ts; [done|]. cbn [map]. rewrite filter_cons, decide_False by done. done. Qed.

Lemma workers_pos cfg : 1 <= workers cfg.
Proof. unfold workers. lia. Qed.

(** Loops are launched where there are none. *)
Lemma launch_ok r : run_ok r → ru_loops r = [] → ru_gen r = None → ru_holder r = Free → is_Some (ru_ctx r) →
  run_ok (launchTargetsLocked (en_targets (ru_engine r)) r).
Proof.
  intros [] Hl Hg Hh Hc. split; unfold launchTargetsLocked; run_cbn; rewrite ?Hl; cbn [app]; rewrite ?map_target_loops; try done.
  - split; [|split; [|done]].
    + apply Forall_forall. intros l Hin. apply list_elem_of_fmap in Hin as (t & -> & _). done.
    + intros Hin. apply ro_next0 in Hin. lia.
  - by rewrite Hh.
  - destruct ro_next0 as [H _]. split; [intros g Hin; apply H in Hin; lia|]. intros g [= <-]. lia.
  - unfold busy. run_cbn. rewrite busy_fresh. pose proof (workers_pos (en_cfg (ru_engine r))). cbn. lia.
Qed.

Lemma startTargets_ok call r : run_ok r → ru_phase r = Loading call → ru_holder r = Free → run_ok (startTargets call r).
Proof.
  intros Hok Hp Hh. unfold startTargets.
  assert (ru_ctx r = None) as Hc.
  { destruct (ru_ctx r) eqn:E; [|done]. pose proof (ro_ctx r Hok) as H. rewrite E, Hp in H. by discriminate H. }
  assert (ru_gen r = None) as Hg.
  { destruct (ru_gen r) eqn:E; [|done]. pose proof (ro_gen r Hok) as H. rewrite E, Hc in H. by destruct H as (_ & _ & []). }
  assert (ru_loops r = []) as Hl by (pose proof (ro_holder r Hok) as H; rewrite Hh in H; by apply H).
  set (r' := {| r with ru_phase := Launched; ru_ctx := Some call; ru_waiting := {[call]} ∪ ru_waiting r |}).
  change (en_targets (ru_engine r)) with (en_targets (ru_engine r')).
  apply launch_ok; subst r'; run_cbn; try done. destruct Hok. split; run_cbn; rewrite ?Hg; try done.
  - by rewrite Hg in ro_gen0.
  - by rewrite Hh.
  - split; [by destruct ro_next0|done].
Qed.

Lemma cancel_gen_ok r : run_ok r → ru_holder r = Free →
  let r' := cancel_gen r in
  ru_gen r' = None ∧ Forall (λ l, lp_gen l ∈ ru_cancelled r') (ru_loops r') ∧ ru_loops r' = ru_loops r ∧ ru_engine r' = ru_engine r ∧
  ru_trace r' = ru_trace r ∧ ru_ctx r' = ru_ctx r ∧ ru_phase r' = ru_phase r ∧ ∀ g, g ∈ ru_cancelled r' → (g < ru_next r')%nat.
Proof.
  intros [] Hh r'. subst r'. unfold cancel_gen. destruct (ru_gen r) as [g|] eqn:Hg; run_cbn; [|by destruct ro_next0].
  destruct ro_gen0 as (H & _ & _), ro_next0 as [Hn Hn']. split_and!; try done.
  - eapply Forall_impl; [exact H|]. intros l ->. set_solver.
  - intros g'. specialize (Hn' g eq_refl). intros [->%elem_of_singleton|Hin]%elem_of_union; [done|by apply Hn].
Qed.

(** Whoever takes the lock to stop the loops. *)
Lemma take_lock_ok r h stopped : run_ok r → ru_holder r = Free →
  match h with Free => False | Reloading cfg compiled s => compileTargets cfg = inl compiled ∧ (s = false → ru_gen r = None) | Stopping => True end →
  run_ok {| (cancel_gen r) with ru_holder := h; ru_stopped := stopped |}.
Proof.
  intros Hok Hh Hc. destruct (cancel_gen_ok r Hok Hh) as (Hg & Hf & Hl & He & Ht & Hx & Hp & Hn). pose proof (ro_holder r Hok) as Hfree.
  rewrite Hh in Hfree. destruct Hok. split; run_cbn; rewrite ?Hg, ?Hl, ?He, ?Ht, ?Hx, ?Hp; try done.
  - by rewrite <- Hl.
  - destruct h as [|cfg compiled s|]; [done| |done]. destruct Hc as [Hc Hs]. split_and!; try done. intros ->. by apply Hfree, Hs.
Qed.

Lemma reload_begin_ok cfg compiled r : run_ok r → ru_holder r = Free → compileTargets cfg = inl compiled → run_ok (reload_begin cfg compiled r).
Proof.
  intros Hok Hh Hc. apply (take_lock_ok r (Reloading cfg compiled (bool_decide (is_Some (ru_gen r)))) (ru_stopped (cancel_gen r)) Hok Hh).
  split; [done|]. intros H%bool_decide_eq_false. destruct (ru_gen r); [by destruct H|done].
Qed.
Lemma stop_begin_ok r : run_ok r → ru_holder r = Free → run_ok (stop_begin r).
Proof. intros Hok Hh. by apply (take_lock_ok r Stopping true Hok Hh). Qed.

Lemma no_loops r : run_ok r → ru_holder r ≠ Free → (∀ cfg compiled, ru_holder r = Reloading cfg compiled true → ru_loops r = []) →
  (ru_holder r = Stopping → ru_loops r = []) → ru_gen r = None ∧ ru_loops r = [].
Proof.
  intros Hok Hh Hr Hs. pose proof (ro_holder r Hok) as H. destruct (ru_holder r) as [|cfg compiled []|]; [done| | |].
  - split; [by destruct H as (_ & ? & _)|]. by eapply Hr.
  - destruct H as (_ & ? & H). split; [done|]. by apply H.
  - split; [done|]. by apply Hs.
Qed.

(** The lock is given back with no loop running, and the next generation, if there
    is one, starts from there. *)
Lemma release_ok e tr r : run_ok r → ru_gen r = None → ru_loops r = [] → engine_ok e tr →
  compileTargets (en_cfg e) = inl (en_targets e) → run_ok {| (set_engine e tr r) with ru_holder := Free |}.
Proof.
  intros [] Hg Hl He Hc. split; unfold set_engine; run_cbn; rewrite ?Hg, ?Hl; try done.
  - cbn. apply sublist_nil_l.
  - split; [by destruct ro_next0|done].
  - unfold busy. run_cbn. pose proof (workers_pos (en_cfg e)). cbn. lia.
Qed.

Lemma reload_end_ok cfg compiled stopped env tick r : run_ok r → ru_holder r = Reloading cfg compiled stopped →
  (stopped = true → ru_loops r = []) → run_ok (reload_end cfg compiled env tick r).
Proof.
  intros Hok Hh Hs. destruct (no_loops r Hok) as [Hg Hl]; [by rewrite Hh|by intros c cs Hr; rewrite Hr in Hh; injection Hh as -> -> <-; apply Hs|by rewrite Hh|].
  assert (compileTargets cfg = inl compiled) as Hc by (pose proof (ro_holder r Hok) as H; rewrite Hh in H; by destruct H).
  destruct (reload_sets cfg compiled env tick (ru_engine r) Hc) as [E1 E2].
  pose proof (reload_ok cfg env tick _ _ (ro_engine r Hok)) as He. rewrite Hc in He.
  pose proof (release_ok _ _ r Hok Hg Hl He) as Hrel. rewrite E1, E2 in Hrel. specialize (Hrel Hc). unfold reload_end.
  change (ru_ctx {| _ with ru_holder := Free |}) with (ru_ctx r). destruct (ru_ctx r) as [call|] eqn:Hx; [|exact Hrel].
  rewrite <- E2. apply launch_ok; [done|exact Hl|exact Hg|done|]. cbn. by rewrite Hx.
Qed.

Lemma stop_end_ok io n env tick r : run_ok r → ru_holder r = Stopping → ru_loops r = [] → run_ok (stop_end io n env tick r).
Proof.
  intros Hok Hh Hl. pose proof (ro_holder r Hok) as Hg. rewrite Hh in Hg. unfold stop_end.
  destruct (save_store_only io n env tick (ru_engine r)) as [w ->]. apply release_ok; try done; [by apply store_ok, ro_engine|by apply ro_compiled].
Qed.

Lemma checked_ok r i l v env tick : run_ok r → ru_loops r !! i = Some l → lp_busy l = true → v_acquired v = true →
  engine_step (ru_engine r, ru_trace r) (state (executeCheck v (lp_target l)) env tick (ru_engine r),
    {| (ru_trace r) with checked := {[tgt_ID (lp_target l)]} ∪ checked (ru_trace r) |}) ∧
  run_ok (set_loop i {| l with lp_busy := false |}
    (set_engine (state (executeCheck v (lp_target l)) env tick (ru_engine r))
       {| (ru_trace r) with checked := {[tgt_ID (lp_target l)]} ∪ checked (ru_trace r) |} r)).
Proof.
  intros Hok Hi Hb Hv.
  assert (lp_target l ∈ en_targets (ru_engine r)) as Hin.
  { eapply elem_of_sublist; [|apply (ro_loops r Hok)]. apply list_elem_of_fmap. exists l. split; [done|]. by eapply list_elem_of_lookup_2. }
  pose proof (step_check (ru_engine r) (ru_trace r) (lp_target l) v env tick Hin) as Hstep. rewrite Hv in Hstep.
  split; [done|]. destruct (check_keeps v (lp_target l) env tick (ru_engine r)) as [E1 E2].
  eapply set_loop_ok; try done; [|by eapply engine_step_ok; [apply ro_engine|]].
  unfold held. cbn [lp_busy]. rewrite Hb. pose proof (ro_busy r Hok). lia.
Qed.

Lemma acquire_ok r i l : run_ok r → ru_loops r !! i = Some l → lp_busy l = false → busy r < workers (en_cfg (ru_engine r)) →
  run_ok (set_loop i {| l with lp_busy := true |} r).
Proof.
  intros Hok Hi Hb Hw. assert (r = set_engine (ru_engine r) (ru_trace r) r) as E by by destruct r.
  rewrite E. eapply set_loop_ok; try done; [|apply (ro_engine r Hok)]. unfold held. cbn [lp_busy]. rewrite Hb. lia.
Qed.

Lemma run_step_ok r r' : run_ok r → run_step r r' → run_ok r' ∧ rtc engine_effect (ru_engine r, ru_trace r) (ru_engine r', ru_trace r').
Proof.
  intros Hok H.
  destruct H as [r call io n env tick Hp|r call Hp Hh|r call Hp|r call|r i l Hi Hb Hd Hw|r i l v env tick Hi Hb Hv|r i l Hi Hb Hd|
    r cfg compiled Hh Hc|r cfg compiled stopped env tick Hh Hs|r call Hh Hw Hd Hs|r io n env tick Hh Hl].
  - split; [by apply start_load_ok|]. unfold start_load. destruct (load_store_only io n env tick (ru_engine r)) as [w E]. rewrite E.
    apply rtc_once, by_store.
  - split; [by apply startTargets_ok|]. apply rtc_refl.
  - split; [by apply (waits_ok r ({[call]} ∪ ru_waiting r) (ru_done r))|]. apply rtc_refl.
  - split; [|apply rtc_refl]. apply (waits_ok r (ru_waiting r) ({[call]} ∪ ru_done r) Hok). set_solver.
  - split; [by apply acquire_ok|]. apply rtc_refl.
  - destruct (checked_ok r i l v env tick Hok Hi Hb Hv) as [Hstep Hok']. split; [done|]. by apply rtc_once, by_step.
  - split; [by eapply drop_loop_ok|]. apply rtc_refl.
  - split; [by apply reload_begin_ok|]. unfold reload_begin, cancel_gen. destruct (ru_gen r); apply rtc_refl.
  - split; [by eapply reload_end_ok|]. assert (compileTargets cfg = inl compiled) as Hc by (pose proof (ro_holder r Hok) as H; rewrite Hh in H; by destruct H).
    pose proof (step_reload (ru_engine r) (ru_trace r) cfg env tick) as Hstep. rewrite Hc in Hstep.
    unfold reload_end. change (ru_ctx {| _ with ru_holder := Free |}) with (ru_ctx r). destruct (ru_ctx r); by apply rtc_once, by_step.
  - split; [by apply stop_begin_ok|]. unfold stop_begin, cancel_gen. destruct (ru_gen r); apply rtc_refl.
  - split; [by apply stop_end_ok|]. unfold stop_end. destruct (save_store_only io n env tick (ru_engine r)) as [w E]. rewrite E.
    apply rtc_once, by_store.
Qed.

Lemma started_run_ok r : started_run r → run_ok r.
Proof.
  intros (cfg & store & scanner & e & Hnew & ->).
  assert (engine_ok e (mkTrace ∅ (en_eventCap e) (en_eventCap e))) as He.
  { apply (reached_ok (e, mkTrace ∅ (en_eventCap e) (en_eventCap e))). exists cfg, store, scanner, e. split; [done|].
    unfold NewEngine in Hnew. destruct (compileTargets cfg); [|done]. injection Hnew as <-. apply rtc_refl. }
  unfold NewEngine in Hnew. destruct (compileTargets cfg) as [ts|] eqn:Hc; [|done]. injection Hnew as <-.
  split; cbn; try done; [apply sublist_nil_l|].
  unfold busy. cbn. pose proof (workers_pos cfg). lia.
Qed.

Lemma run_reached_ok r : run_reached r → run_ok r.
Proof.
  intros (r0 & H0 & Hrun). apply (rtc_invariant run_step run_ok) with r0; [|done|by apply started_run_ok].
  intros s s' Hs H. by eapply run_step_ok.
Qed.

(** What the loops are, for each of their states. *)
Definition loops_right (r : Run) : Prop :=
  let e := ru_engine r in
  Forall (λ l, lp_target l ∈ en_targets e ∧ 0 < Interval (tgt_Check (lp_target l))) (ru_loops r) ∧
  (ru_holder r = Free → match ru_gen r with
     | Some g => Forall (λ l, lp_gen l = g) (ru_loops r) ∧ (ctx_done r = false → map lp_target (ru_loops r) = en_targets e)
     | None => ru_loops r = []
     end) ∧
  busy r <= workers (en_cfg e).

Lemma compiled_intervals cfg ts t : compileTargets cfg = inl ts → t ∈ ts → 0 < Interval (tgt_Check t).
Proof.
  intros Hc Ht. pose proof (compileTargets_spec cfg) as H. cbv zeta in H. rewrite Hc in H.
  apply list_elem_of_lookup in Ht as [i Hi]. eapply Forall2_lookup_r in H as (tc & _ & Hx); [|exact Hi].
  by destruct Hx as (_ & _ & _ & ? & _).
Qed.

(** C4: whatever starts, reloads, cancellations and checks come in whatever order,
    the engine goes through its own steps only. Every goroutine checks a target of
    the configuration in force, with the settings it has there, and at an interval
    its ticker accepts; outside of a reload they are of one generation, with exactly
    one for each target as long as the engine's context lasts, and none once it was
    stopped; and no more probes are in flight than the configuration allows. *)
Theorem loops_follow_engine (r : Run) (Hr : run_reached r) :
  loops_right r ∧
  ∃ r0, started_run r0 ∧ rtc engine_effect (ru_engine r0, ru_trace r0) (ru_engine r, ru_trace r).
Proof.
  split.
  - pose proof (run_reached_ok r Hr) as Hok. split; [|split; [|apply (ro_busy r Hok)]].
    + apply Forall_forall. intros l Hl. assert (lp_target l ∈ en_targets (ru_engine r)) as Hin.
      { eapply elem_of_sublist; [|apply (ro_loops r Hok)]. apply list_elem_of_fmap. by exists l. }
      split; [done|]. eapply compiled_intervals; [apply (ro_compiled r Hok)|done].
    + intros Hh. pose proof (ro_holder r Hok) as H. rewrite Hh in H. pose proof (ro_gen r Hok) as Hg.
      pose proof (ro_live r Hok) as Hlive. destruct (ru_gen r) as [g|]; [|by apply H]. destruct Hg as (Hg & _). split; [done|]. by apply Hlive.
  - destruct Hr as (r0 & H0 & Hrun). exists r0. split; [done|]. pose proof (started_run_ok r0 H0) as Hok. clear H0.
    induction Hrun as [r|r r1 r2 Hs _ IH]; [apply rtc_refl|]. destruct (run_step_ok r r1 Hok Hs) as [Hok1 He].
    etrans; [exact He|]. by apply IH.
Qed.

(** ** No one waits for ever *)

Definition some_visit : Visit := Engine.ex_visit Engine.ex_healthy no_faults.

Lemma drain r : run_ok r → ru_gen r = None → ∃ r', rtc run_step r r' ∧ run_ok r' ∧ ru_gen r' = None ∧ ru_loops r' = [] ∧ ru_holder r' = ru_holder r ∧ ru_ctx r' = ru_ctx r ∧ ru_done r' = ru_done r.
Proof.
  remember (length (ru_loops r)) as n eqn:Hn. revert r Hn. induction n as [|n IH]; intros r Hn Hok Hg.
  { exists r. symmetry in Hn. apply nil_length_inv in Hn. split; [apply rtc_refl|done]. }
  destruct (ru_loops r) as [|l ls] eqn:Hl; [done|]. injection Hn as Hn.
  assert (∃ r1, rtc run_step r r1 ∧ run_ok r1 ∧ ru_gen r1 = None ∧ ru_holder r1 = ru_holder r ∧ ru_ctx r1 = ru_ctx r ∧ ru_done r1 = ru_done r ∧
    ∃ l1, ru_loops r1 = l1 :: ls ∧ lp_busy l1 = false) as (r1 & Hr1 & Hok1 & Hg1 & Hh1 & Hx1 & Hd1 & l1 & Hl1 & Hb1).
  { destruct (lp_busy l) eqn:Hb; [|exists r; split; [apply rtc_refl|]; split_and!; try done; by exists l].
    pose proof (on_checked r 0 l some_visit (frozen 0 "") 0) as Hs. rewrite Hl in Hs. specialize (Hs eq_refl Hb eq_refl).
    eexists. split; [by apply rtc_once|]. split; [by apply (run_step_ok r)|]. split_and!; try done.
    eexists. unfold set_loop, set_engine. run_cbn. by rewrite Hl. }
  assert (loop_done r1 l1 = true) as Hdone.
  { pose proof (ro_gen r1 Hok1) as H. rewrite Hg1, Hl1 in H. apply Forall_cons in H as [H _]. unfold loop_done.
    by rewrite (bool_decide_eq_true_2 _ H), orb_true_r. }
  assert (run_step r1 (drop_loop 0 r1)) as Hs by (apply (on_exit r1 0 l1); [by rewrite Hl1|done|done]).
  destruct (IH (drop_loop 0 r1)) as (r' & Hr' & Hok' & Hg' & Hl' & Hh' & Hx' & Hd'); [by unfold drop_loop; run_cbn; rewrite Hl1|by apply (run_step_ok r1)|done|].
  exists r'. split; [etrans; [exact Hr1|]; eapply rtc_l; done|]. split_and!; try done.
  - by rewrite Hh', <- Hh1.
  - by rewrite Hx', <- Hx1.
  - by rewrite Hd', <- Hd1.
Qed.

(** C6: a reload, and the end of a start, never wait for ever. Once one of them
    holds the lock, whatever the loops were doing, they can all come to their end,
    and then the lock is free again; after a reload the engine has the new
    configuration and one loop for each of its targets, and after the end of a start
    no loop is left. *)
Theorem waits_end (r : Run) (Hr : run_reached r) (Hh : ru_holder r ≠ Free) :
  ∃ r', rtc run_step r r' ∧ ru_holder r' = Free ∧
    match ru_holder r with
    | Reloading cfg compiled _ => en_cfg (ru_engine r') = cfg ∧ en_targets (ru_engine r') = compiled ∧
        map lp_target (ru_loops r') = (match ru_ctx r with Some _ => compiled | None => [] end)
    | _ => ru_loops r' = [] ∧ ru_gen r' = None
    end.
Proof.
  pose proof (run_reached_ok r Hr) as Hok.
  assert (ru_gen r = None) as Hg by (pose proof (ro_holder r Hok) as H; by destruct (ru_holder r) as [| |]; [|destruct H as (_ & ? & _)|]).
  destruct (drain r Hok Hg) as (r1 & Hr1 & Hok1 & Hg1 & Hl1 & Hh1 & Hx1 & _). pose proof (ro_holder r1 Hok1) as Hro. rewrite Hh1 in Hro.
  destruct (ru_holder r) as [|cfg compiled stopped|]; [done| |].
  - destruct Hro as (Hc & _ & _). exists (reload_end cfg compiled (frozen 0 "") 0 r1). split; [|].
    { etrans; [exact Hr1|]. apply rtc_once. by apply (on_reloaded r1 cfg compiled stopped). }
    destruct (reload_sets cfg compiled (frozen 0 "") 0 (ru_engine r1) Hc) as [E1 E2]. unfold reload_end.
    change (ru_ctx {| _ with ru_holder := Free |}) with (ru_ctx r1). rewrite Hx1.
    destruct (ru_ctx r); (split; [done|]); (split; [exact E1|]); (split; [exact E2|]); unfold launchTargetsLocked, set_engine; run_cbn; rewrite Hl1; [apply map_target_loops|done].
  - exists (stop_end no_faults 0 (frozen 0 "") 0 r1). split; [|done].
    etrans; [exact Hr1|]. apply rtc_once. by apply on_stopped.
Qed.

(** ** After the end *)

(** A step during which no start waits beside the one that launched the loops,
    unless that one's context is done: an instance starts its engine anew only after
    it cancelled it. *)
Definition lone_step (r r' : Run) : Prop :=
  run_step r r' ∧ ∀ call, call ∈ ru_waiting r' → ru_ctx r' = Some call ∨ ctx_done r' = true.
Definition lone_reached (r : Run) : Prop := ∃ r0, started_run r0 ∧ rtc lone_step r0 r.

Definition quiet (r : Run) : Prop :=
  ru_stopped r = true → ctx_done r = true ∧ (ru_holder r ≠ Stopping → Forall (λ l, lp_busy l = false) (ru_loops r)).

Lemma lone_waiting r : lone_reached r → ∀ call, call ∈ ru_waiting r → ru_ctx r = Some call ∨ ctx_done r = true.
Proof.
  intros (r0 & (cfg & store & scanner & e & _ & ->) & Hrun). apply rtc_inv_r in Hrun as [<-|(r1 & _ & Hs)]; [by intros c ?%elem_of_empty|].
  by destruct Hs.
Qed.

(** A start waits, and the loops are stopped, only after the first start has loaded
    the store. *)
Definition settled (r : Run) : Prop := ru_phase r = LoadFailed ∨ ru_phase r = Launched.

Lemma settled_step r r' : run_step r r' → (∀ call, call ∈ ru_waiting r → settled r) ∧ (ru_stopped r = true → settled r) →
  (∀ call, call ∈ ru_waiting r' → settled r') ∧ (ru_stopped r' = true → settled r').
Proof.
  unfold settled. intros H [Hw Hs]. destruct H as [r call io n env tick Hp|r call Hp Hh|r call Hp|r call|r i l Hi Hb Hd Hlt|r i l v env tick Hi Hb Hv|r i l Hi Hb Hd|
    r cfg compiled Hh Hc|r cfg compiled stopped env tick Hh Hst|r call Hh Hin Hdone Hst|r io n env tick Hh Hl]; try done; try (by split; [|by eauto]).
  - split; [intros c Hin; apply Hw in Hin|intros Hst; apply Hs in Hst]; rewrite Hp in *; naive_solver.
  - unfold startTargets, launchTargetsLocked. run_cbn. split; by right.
  - unfold reload_begin, cancel_gen. by destruct (ru_gen r).
  - unfold reload_end. change (ru_ctx {| _ with ru_holder := Free |}) with (ru_ctx r). by destruct (ru_ctx r).
  - unfold stop_begin, cancel_gen. destruct (ru_gen r); split; [by eauto..|by eauto|by eauto].
Qed.

Lemma stopped_settled r : lone_reached r → ru_stopped r = true → settled r.
Proof.
  intros (r0 & H0 & Hrun). enough ((∀ call, call ∈ ru_waiting r → settled r) ∧ (ru_stopped r = true → settled r)) as [_ H] by done.
  apply (rtc_invariant lone_step (λ r, (∀ call, call ∈ ru_waiting r → settled r) ∧ (ru_stopped r = true → settled r))) with r0; [|done|].
  - intros x y Hx [Hs _]. by eapply settled_step.
  - destruct H0 as (cfg & store & scanner & e & _ & ->). split; [by intros c ?%elem_of_empty|done].
Qed.

Lemma Forall_not_busy_map g ts : Forall (λ l, lp_busy l = false) (map (λ t, mkLoop g t false) ts).
Proof. induction ts; by constructor. Qed.

Lemma quiet_step r r' : lone_reached r → quiet r → run_step r r' → quiet r'.
Proof.
  intros Hr Hq H. pose proof (lone_waiting r Hr) as Hw. unfold quiet in *. destruct H as [r call io n env tick Hp|r call Hp Hh|r call Hp|r call|r i l Hi Hb Hd Hlt|r i l v env tick Hi Hb Hv|r i l Hi Hb Hd|
    r cfg compiled Hh Hc|r cfg compiled stopped env tick Hh Hs|r call Hh Hin Hdone Hs|r io n env tick Hh Hl]; intros Hst.
  - by apply Hq.
  - exfalso. by destruct (stopped_settled r Hr Hst) as [E|E]; rewrite Hp in E.
  - by apply Hq.
  - destruct (Hq Hst) as [Hx Hf]. split; [|done]. unfold ctx_done in *. run_cbn. destruct (ru_ctx r); [|done].
    apply bool_decide_eq_true in Hx. apply bool_decide_eq_true. set_solver.
  - destruct (Hq Hst) as [Hx _]. unfold loop_done in Hd. by rewrite Hx in Hd.
  - destruct (Hq Hst) as [Hx Hf]. split; [done|]. intros Hn. apply Forall_insert; [by apply Hf|done].
  - destruct (Hq Hst) as [Hx Hf]. split; [done|]. intros Hn. by apply Forall_delete, Hf.
  - unfold reload_begin, cancel_gen in *. destruct (ru_gen r); cbn [ru_stopped] in Hst; destruct (Hq Hst) as [Hx Hf]; (split; [done|]); intros _; apply Hf; by rewrite Hh.
  - unfold reload_end in *. change (ru_ctx {| _ with ru_holder := Free |}) with (ru_ctx r) in *.
    destruct (ru_ctx r) eqn:Hx'; unfold launchTargetsLocked, set_engine in *; cbn [ru_stopped] in Hst; destruct (Hq Hst) as [Hx Hf]; (split; [done|]); intros _; run_cbn.
    + apply Forall_app. split; [apply Hf; by rewrite Hh|apply Forall_not_busy_map].
    + apply Hf. by rewrite Hh.
  - assert (ctx_done r = true) as Hx by (destruct (Hw _ Hin) as [E|]; [|done]; unfold ctx_done; rewrite E; by apply bool_decide_eq_true).
    unfold stop_begin, cancel_gen. destruct (ru_gen r); split; try done; by intros [].
  - destruct (Hq Hst) as [Hx _]. split; [done|]. intros _. unfold stop_end, set_engine. run_cbn. by rewrite Hl.
Qed.

Lemma lone_quiet r : lone_reached r → quiet r.
Proof.
  intros (r0 & H0 & Hrun). revert Hrun. apply (rtc_ind_r (λ r, quiet r)).
  - destruct H0 as (cfg & store & scanner & e & _ & ->). by intros ?.
  - intros y z Hrun [Hs _] Hq. apply (quiet_step y z); [by exists r0|done|done].
Qed.


(** ** On concrete inputs *)

Definition wit_io : Faults := no_faults.
Definition wit_env : Env := frozen 9 "".

(** A run that was started, in which the only loop holds the semaphore while a
    reload of the same configuration waits for it. *)
Definition wit_loaded : Run := start_load 0 wit_io 0 wit_env 0 (NewRun Engine.ex_started).
Definition wit_launched : Run := startTargets 0 wit_loaded.
Definition wit_probing : Run := set_loop 0 (mkLoop 0 Handshake.ex_target true) wit_launched.
Definition wit_targets : list Target := en_targets Engine.ex_started.
Definition wit_reloading : Run := reload_begin Engine.ex_monitor wit_targets wit_probing.

Lemma wit_probing_reached : run_reached wit_probing.
Proof.
  exists (NewRun Engine.ex_started). split.
  - exists Engine.ex_monitor, (Some (ex_baseline true)), None, Engine.ex_started. done.
  - eapply rtc_l; [by apply (on_start _ 0 wit_io 0 wit_env 0)|]. eapply rtc_l; [by apply (on_launch wit_loaded 0)|].
    apply rtc_once. apply (on_acquire wit_launched 0 (mkLoop 0 Handshake.ex_target false)); done.
Qed.
Lemma wit_reloading_reached : run_reached wit_reloading.
Proof.
  destruct wit_probing_reached as (r0 & H0 & Hrun). exists r0. split; [done|]. eapply rtc_r; [exact Hrun|].
  by apply (on_reload wit_probing Engine.ex_monitor wit_targets).
Qed.

Lemma loops_follow_engine_witness :
  (map lp_busy (ru_loops wit_probing) = [true] ∧ workers (en_cfg (ru_engine wit_probing)) = 1) ∧ loops_right wit_probing.
Proof. split; [split; reflexivity|]. exact (proj1 (loops_follow_engine wit_probing wit_probing_reached)). Defined.

Lemma waits_end_witness :
  ∃ r', rtc run_step wit_reloading r' ∧ ru_holder r' = Free ∧
    match ru_holder wit_reloading with
    | Reloading cfg compiled _ => en_cfg (ru_engine r') = cfg ∧ en_targets (ru_engine r') = compiled ∧
        map lp_target (ru_loops r') = (match ru_ctx wit_reloading with Some _ => compiled | None => [] end)
    | _ => ru_loops r' = [] ∧ ru_gen r' = None
    end.
Proof. refine (waits_end wit_reloading wit_reloading_reached _). discriminate. Defined.

(** A start that could not read the baseline returns its error; the next one finds
    the start done, returns none, and saves the empty baseline over the file when its
    context ends. *)
Definition unread_world : World := mkWorld (NewStore "known.json" []) {["known.json" := Garbage]}.
Definition unread : Engine :=
  match NewEngine Engine.ex_monitor (Some unread_world) None with inl e => e | inr _ => Engine.ex_started end.

Example second_start_overwrites_the_baseline :
  result (load_store wit_io 0) wit_env 0 unread = Some ErrDecode ∧
  ∃ r, rtc run_step (NewRun unread) r ∧ map lp_target (ru_loops r) = [] ∧ ru_holder r = Free ∧
    (w ← en_store (ru_engine r); disk w !! "known.json") = Some (encode (mkSnapshot 1 9 ∅)).
Proof.
  split; [done|]. set (r1 := start_load 0 wit_io 0 wit_env 0 (NewRun unread)).
  set (r2 := {| r1 with ru_waiting := {[1%nat]} ∪ ru_waiting r1 |}). set (r3 := {| r2 with ru_done := {[1%nat]} ∪ ru_done r2 |}).
  exists (stop_end wit_io 0 wit_env 0 (stop_begin r3)). split; [|vm_compute; auto].
  eapply rtc_l; [by apply (on_start _ 0 wit_io 0 wit_env 0)|]. fold r1.
  eapply rtc_l; [apply (on_start_again r1 1); left; vm_compute; reflexivity|]. fold r2.
  eapply rtc_l; [apply (on_cancel r2 1)|]. fold r3. eapply rtc_l; [by apply (on_stop r3 1); try done; vm_compute|].
  apply rtc_once, on_stopped; done.
Qed.

Definition wit_cancelled : Run := {| wit_launched with ru_done := {[0%nat]} ∪ ru_done wit_launched |}.
Definition wit_stopping : Run := drop_loop 0 (stop_begin wit_cancelled).
Definition wit_stopped : Run := stop_end wit_io 0 wit_env 1 wit_stopping.

Lemma wit_stopped_reached : lone_reached wit_stopped.
Proof.
  assert (∀ r, ru_ctx r = Some 0%nat → ru_waiting r = {[0%nat]} → ∀ call, call ∈ ru_waiting r → ru_ctx r = Some call ∨ ctx_done r = true) as Hlone.
  { intros r Hx -> call ->%elem_of_singleton. by left. }
  exists (NewRun Engine.ex_started). split; [by exists Engine.ex_monitor, (Some (ex_baseline true)), None, Engine.ex_started|].
  eapply rtc_l; [split; [by apply (on_start _ 0 wit_io 0 wit_env 0)|by intros c ?%elem_of_empty]|].
  eapply rtc_l; [split; [by apply (on_launch wit_loaded 0)|by apply Hlone]|].
  eapply rtc_l; [split; [by apply (on_cancel wit_launched 0)|by apply Hlone]|].
  eapply rtc_l; [split; [apply (on_stop wit_cancelled 0); try done; vm_compute; reflexivity|by apply Hlone]|].
  eapply rtc_l; [split; [by apply (on_exit (stop_begin wit_cancelled) 0 (mkLoop 0 Handshake.ex_target false))|by apply Hlone]|].
  apply rtc_once. split; [by apply (on_stopped wit_stopping wit_io 0 wit_env 1)|by apply Hlone].
Qed.

