(* ===== verification/Alerts.v ===== *)
(** * Alert delivery ([internal/alerts/notifier.go], [config.go])

    The notifiers the engine tells of an alert: a log sink, a desktop sink and a
    group that fans out to both. A sink filters by severity and suppresses an
    alert whose key it let through less than a window ago. The machine the
    desktop sink runs on is a [Platform]; the JSON [details] of a log record are
    left out, and so is the timeout of the command (the runner answers in time or
    fails). *)

From Stdlib Require Import ZArith Lia Ascii.
From stdpp Require Import base tactics strings gmap.
From stdpp Require Import list.
From S2P Require Import Prelude Durations Targets Config Engine.

Open Scope Z_scope.

(** ** Texts *)

Definition severityRank (v : string) : Z :=
  let v := ToLower (TrimSpace v) in
  if v =s "critical" then 4
  else if v =s "error" then 3
  else if (v =s "warn") || (v =s "warning") then 2
  else if v =s "info" then 1
  else 0.

Definition severityAllowed (current minSev : string) : bool :=
  if blank minSev then true else severityRank minSev <=? severityRank current.

Definition secret_pairs : list (string * string) :=
  [("Bearer ", "Bearer ****"); ("bearer ", "bearer ****"); ("token=", "token=****");
   ("access_token", "access_token_redacted"); ("refresh_token", "refresh_token_redacted")].
Definition sanitize (s : string) : string :=
  let v := TrimSpace s in
  if v =s "" then v else Replacer secret_pairs v.

Definition dedupeKey (ev : AlertEvent) : string :=
  ToLower (Join [al_TargetID ev; al_State ev; al_FailureClass ev; al_Severity ev; sanitize (al_Message ev)] "|").

Definition backslash : string := byte_of 92.
Definition quote : string := byte_of 34.
Definition escapeAppleScript (s : string) : string :=
  let s := ReplaceAll s backslash (backslash +:+ backslash) in
  ReplaceAll s quote (backslash +:+ quote).

Definition urgencyFromSeverity (sev : string) : string :=
  let v := ToLower (TrimSpace sev) in
  if mem v ["critical"; "error"] then "critical"
  else if mem v ["warn"; "warning"] then "normal"
  else "low".

Definition targetNameOrID (e : AlertEvent) : string :=
  if negb (blank (al_TargetName e)) then al_TargetName e else al_TargetID e.

Definition notificationBody (ev : AlertEvent) : string :=
  let msg := sanitize (al_Message ev) in
  let msg := if msg =s "" then "No additional message" else msg in
  let base := targetNameOrID ev +:+ " (" +:+ ToUpper (al_State ev) +:+ "): " +:+ msg in
  if al_Regression ev then base +:+ " [faulty smoke test regression]" else base.

(** ** The gate of a sink: severity and deduplication *)

Record Gate := mkGate {
  minSeverity : string;
  dedupeWindow : Duration;
  last_seen : gmap string Time;     (* last *)
}.
Definition newGate (minSev : string) (window : Duration) : Gate :=
  mkGate (ToLower (TrimSpace minSev)) window ∅.

Definition isDeduped (ev : AlertEvent) : M Gate bool :=
  g ← get;
  if dedupeWindow g <=? 0 then mret false
  else
    let key := dedupeKey ev in
    now ← clock;
    let recent := match last_seen g !! key with
                  | Some ts => TimeSub now ts <? dedupeWindow g
                  | None => false
                  end in
    if recent : bool then mret true
    else
      _ ← modify (λ g, {| g with last_seen := <[key := now]> (last_seen g) |});
      mret false.

(** Whether the sink goes on with the event. *)
Definition admit_event (ev : AlertEvent) : M Gate bool :=
  g ← get;
  if negb (severityAllowed (al_Severity ev) (minSeverity g)) then mret false
  else
    deduped ← isDeduped ev;
    mret (negb deduped).

(** ** Notifiers *)

Inductive notify_error := ErrNotifierUnsupported | ErrNotifierUnavailable (tool : string) | ErrCommand (text : string).

(** The operating system, the tools on the path and the command runner, which
    answers with the text of its error. *)
Record Platform := mkPlatform {
  GOOS : string;
  LookPath : string → bool;
  command_runner : list string → option string;
}.

(** [engine.Notifier]. *)
Class Notifier (N : Type) := Notify : Platform → AlertEvent → M N (option notify_error).

Inductive Level := LevelInfo | LevelWarn | LevelError.
Record LogRecord := mkLogRecord {
  lr_level : Level;
  lr_msg : string;
  lr_attrs : list (string * string);
}.

Record LogNotifier := mkLogNotifier {
  ln_gate : Gate;
  logged : list LogRecord;
}.
Definition NewLogNotifier (minSev : string) (window : Duration) : LogNotifier :=
  mkLogNotifier (newGate minSev window) [].

Definition log_level (sev : string) : Level :=
  let v := ToLower sev in
  if mem v ["critical"; "error"] then LevelError
  else if mem v ["warn"; "warning"] then LevelWarn
  else LevelInfo.

Definition log_record (ev : AlertEvent) : LogRecord :=
  mkLogRecord (log_level (al_Severity ev)) (sanitize (al_Message ev))
    [("target_id", al_TargetID ev); ("target_name", al_TargetName ev); ("state", al_State ev);
     ("severity", al_Severity ev); ("failure_class", al_FailureClass ev);
     ("regression", if al_Regression ev then "true" else "false");
     ("checked_at", RFC3339 (al_CheckedAt ev))].

#[export] Instance LogNotifier_Notify : Notifier LogNotifier := λ _ ev,
  go_on ← zoom ln_gate (λ g n, {| n with ln_gate := g |}) (admit_event ev);
  if negb go_on then mret None
  else
    _ ← modify (λ n, {| n with logged := logged n ++ [log_record ev] |});
    mret None.

Record DesktopNotifier := mkDesktopNotifier {
  titlePrefix : string;
  dn_gate : Gate;
  commands : list (list string);    (* what the runner was asked to run *)
}.
Definition NewDesktopNotifier (prefix minSev : string) (window : Duration) : DesktopNotifier :=
  mkDesktopNotifier (if blank prefix then "[Smoke Alarm]" else TrimSpace prefix) (newGate minSev window) [].

(** The command that shows an event on the platform. *)
Definition desktop_command (p : Platform) (prefix : string) (ev : AlertEvent) : list string + notify_error :=
  let title := prefix +:+ " " +:+ ToUpper (al_Severity ev) in
  let title := if al_Regression ev then title +:+ " REGRESSION" else title in
  let body := notificationBody ev in
  if GOOS p =s "darwin" then
    if negb (LookPath p "osascript") then inr (ErrNotifierUnavailable "osascript")
    else
      let script := "display notification " +:+ quote +:+ escapeAppleScript body +:+ quote +:+
                    " with title " +:+ quote +:+ escapeAppleScript title +:+ quote in
      inl ["osascript"; "-e"; script]
  else if GOOS p =s "linux" then
    if negb (LookPath p "notify-send") then inr (ErrNotifierUnavailable "notify-send")
    else inl ["notify-send"; "--urgency=" +:+ urgencyFromSeverity (al_Severity ev); title; body]
  else inr ErrNotifierUnsupported.

#[export] Instance DesktopNotifier_Notify : Notifier DesktopNotifier := λ p ev,
  go_on ← zoom dn_gate (λ g n, {| n with dn_gate := g |}) (admit_event ev);
  if negb go_on then mret None
  else
    n ← get;
    match desktop_command p (titlePrefix n) ev with
    | inr e => mret (Some e)
    | inl argv =>
        _ ← modify (λ n, {| n with commands := commands n ++ [argv] |});
        mret (ErrCommand <$> command_runner p argv)
    end.

(** ** The group *)

Inductive Sink := LogSink (n : LogNotifier) | DesktopSink (n : DesktopNotifier).

#[export] Instance Sink_Notify : Notifier Sink := λ p ev,
  s ← get;
  match s with
  | LogSink n => zoom (λ _, n) (λ n _, LogSink n) (Notify p ev)
  | DesktopSink n => zoom (λ _, n) (λ n _, DesktopSink n) (Notify p ev)
  end.

(** A notifier that was not built is dropped. *)
Definition NewNotifierGroup (notifiers : list (option Sink)) : list Sink := omap id notifiers.

(** Members [i], [i + 1], ..., [k] of them; the errors in order. *)
Fixpoint notify_members (p : Platform) (ev : AlertEvent) (k i : nat) : M (list Sink) (list notify_error) :=
  match k with
  | O => mret []
  | S k =>
      g ← get;
      match g !! i with
      | None => mret []
      | Some s =>
          err ← zoom (λ _, s) (λ s g, <[i := s]> g) (Notify p ev);
          errs ← notify_members p ev k (S i);
          mret (option_list err ++ errs)
      end
  end.
(** [errors.Join] of no errors is nil. *)
Definition NotifierGroup_Notify (p : Platform) (ev : AlertEvent) : M (list Sink) (list notify_error) :=
  g ← get; notify_members p ev (length g) 0.

(** ** Construction from the configuration *)

Definition parse_window (raw : string) : Duration :=
  match ParseDuration raw with
  | Some d => if d <=? 0 then 2 * Minute else d
  | None => 2 * Minute
  end.

(** [None] when no sink is enabled. *)
Definition NotifierFromConfig (cfg : Config) (has_logger : bool) : option (list Sink) :=
  let dedupe := parse_window (alr_DedupeWindow (cfg_Alerts cfg)) in
  let sinks := alr_Sinks (cfg_Alerts cfg) in
  let os := snk_OSNotification sinks in
  let group :=
    (if tog_Enabled (snk_Log sinks) && has_logger then [Some (LogSink (NewLogNotifier "info" dedupe))] else []) ++
    (if osn_Enabled os then [Some (DesktopSink (NewDesktopNotifier (osn_TitlePrefix os) "warn" dedupe))] else []) in
  match group with [] => None | _ => Some (NewNotifierGroup group) end.

(** ** What a gate lets through *)

(** A run of a gate: each event, the time it met the gate and the answer. *)
Fixpoint gate_trace (env : Env) (tick : nat) (g : Gate) (evs : list AlertEvent) : list (AlertEvent * Time * bool) :=
  match evs with
  | [] => []
  | ev :: evs =>
      (ev, env_clock env tick, result (admit_event ev) env tick g)
      :: gate_trace env (ticks (admit_event ev) env tick g) (state (admit_event ev) env tick g) evs
  end.

(** When a key was last let through. *)
Definition last_admitted (k : string) (tr : list (AlertEvent * Time * bool)) : option Time :=
  last (omap (λ e : AlertEvent * Time * bool, if e.2 && (dedupeKey e.1.1 =s k) then Some e.1.2 else None) tr).
Definition admitted (tr : list (AlertEvent * Time * bool)) : list AlertEvent :=
  omap (λ e : AlertEvent * Time * bool, if e.2 then Some e.1.1 else None) tr.

Definition passes (minSev : string) (window : Duration) (before : option Time) (ev : AlertEvent) (now : Time) : Prop :=
  severityAllowed (al_Severity ev) minSev = true ∧
  (window ≤ 0 ∨ ∀ t, before = Some t → window ≤ TimeSub now t).

Lemma passes_ext minSev window b b' ev now :
  (0 < window → b = b') → passes minSev window b ev now ↔ passes minSev window b' ev now.
Proof.
  intros H. unfold passes. destruct (Z.leb_spec window 0) as [Hw|Hw]; [|by rewrite (H Hw)].
  split; (intros [? _]; split; [done|by left]).
Qed.

(** The answer of a gate and what it remembers of it. *)
Definition admits (g : Gate) (ev : AlertEvent) (now : Time) (b : bool) (g' : Gate) : Prop :=
  minSeverity g' = minSeverity g ∧ dedupeWindow g' = dedupeWindow g ∧
  (b = true ↔ passes (minSeverity g) (dedupeWindow g) (last_seen g !! dedupeKey ev) ev now) ∧
  (0 < dedupeWindow g → last_seen g' = if b then <[dedupeKey ev := now]> (last_seen g) else last_seen g).

Lemma wp_admit ev env tick g Q :
  (∀ b k g', admits g ev (env_clock env tick) b g' → Q b k g') → wp (admit_event ev) env tick g Q.
Proof.
  intros HQ. unfold admit_event, isDeduped. wp_go. unfold admits, passes in HQ.
  destruct (severityAllowed _ _) eqn:Ha; cbn [negb]; wp_go.
  2:{ apply HQ. split_and!; try done. by split; [|intros [? _]]. }
  destruct (dedupeWindow g <=? 0) eqn:Hw; wp_go.
  { apply Z.leb_le in Hw. apply HQ. split_and!; try done; [|lia]. split; [|done]. intros _. split; [done|by left]. }
  apply Z.leb_gt in Hw. cbv zeta. set (recent := match _ with Some _ => _ | None => _ end).
  assert (recent = false ↔ ∀ t, last_seen g !! dedupeKey ev = Some t → dedupeWindow g ≤ TimeSub (env_clock env tick) t) as Hr.
  { subst recent. destruct (last_seen g !! dedupeKey ev) as [ts|]; [|split; [done|done]].
    rewrite Z.ltb_ge. split; [by intros H t [= <-]|intros H; by apply H]. }
  destruct recent; wp_go; cbn [negb].
  - apply HQ. split_and!; try done. split; [done|]. intros [_ [H|H]]; [lia|]. by apply Hr in H.
  - apply HQ. split_and!; try done. split; [|done]. intros _. split; [done|]. right. by apply Hr.
Qed.

Lemma admit_step ev env tick g :
  admits g ev (env_clock env tick) (result (admit_event ev) env tick g) (state (admit_event ev) env tick g).
Proof.
  enough (wp (admit_event ev) env tick g (λ b _ g', admits g ev (env_clock env tick) b g')) as H
    by by rewrite wp_run in H.
  by apply wp_admit.
Qed.

Lemma gate_trace_spec env evs : ∀ tick g hist before ev t b after,
  (0 < dedupeWindow g → ∀ k, last_seen g !! k = last_admitted k hist) →
  gate_trace env tick g evs = before ++ (ev, t, b) :: after →
  b = true ↔ passes (minSeverity g) (dedupeWindow g) (last_admitted (dedupeKey ev) (hist ++ before)) ev t.
Proof.
  induction evs as [|e evs IH]; intros tick g hist before ev t b after Hg Htr; [by destruct before|].
  cbn [gate_trace] in Htr.
  destruct (admit_step e env tick g) as (Hm & Hw & Hb & Hl).
  destruct before as [|x before]; cbn in Htr.
  - injection Htr as <- <- <- _. rewrite app_nil_r, Hb. apply passes_ext. intros Hpos. by apply Hg.
  - injection Htr as <- Htr. rewrite <- Hm, <- Hw. replace (hist ++ _ :: before) with ((hist ++ [(e, env_clock env tick,
      result (admit_event e) env tick g)]) ++ before) by by rewrite <- app_assoc.
    eapply IH; [|exact Htr]. rewrite Hw. intros Hpos k. rewrite (Hl Hpos).
    unfold last_admitted. rewrite omap_app. cbn [omap list_omap fst snd].
    destruct (result (admit_event e) env tick g); cbn [andb]; [|rewrite app_nil_r; by apply Hg].
    destruct (dedupeKey e =s k) eqn:Hk; go_bools.
    + subst k. by rewrite lookup_insert_eq, last_snoc.
    + rewrite lookup_insert_ne, app_nil_r by done. by apply Hg.
Qed.

(** ** Properties of the sinks *)

Fixpoint deliver_all {N} `{Notifier N} (p : Platform) (evs : list AlertEvent) : M N (list (option notify_error)) :=
  match evs with
  | [] => mret []
  | ev :: evs => r ← Notify p ev; rs ← deliver_all p evs; mret (r :: rs)
  end.

Lemma deliver_all_cons {N} `{Notifier N} p ev evs env tick (n : N) :
  state (deliver_all p (ev :: evs)) env tick n =
  state (deliver_all p evs) env (ticks (Notify p ev) env tick n) (state (Notify p ev) env tick n).
Proof.
  unfold state, ticks. cbn [deliver_all]. unfold mbind, M_bind, mret, M_ret.
  destruct (Notify p ev env tick n) as [[? ?] ?]. cbn. by destruct (deliver_all p evs env _ _) as [[? ?] ?].
Qed.

(** A sink behind a gate [part] that lets an event through [emit]s for it. *)
Lemma gated_all {N} `{Notifier N} {O : Type} (p : Platform) (part : N → Gate) (out : N → list O)
  (emit : AlertEvent → option O) (keep : N → Prop) :
  (∀ ev env tick n, keep n → wp (Notify p ev) env tick n (λ _ k n', keep n' ∧
    k = ticks (admit_event ev) env tick (part n) ∧ part n' = state (admit_event ev) env tick (part n) ∧
    out n' = out n ++ if result (admit_event ev) env tick (part n) then option_list (emit ev) else [])) →
  ∀ evs env tick n, keep n →
    out (state (deliver_all p evs) env tick n) =
      out n ++ omap emit (admitted (gate_trace env tick (part n) evs)).
Proof.
  intros Hone evs env. induction evs as [|ev evs IH]; intros tick n Hn; [by cbn; rewrite app_nil_r|].
  specialize (Hone ev env tick n Hn). rewrite wp_run in Hone. destruct Hone as (Hn' & Hk & Hg & Ho).
  rewrite deliver_all_cons, IH, Hk, Hg, Ho by done. cbn [gate_trace admitted omap list_omap fst snd].
  destruct (result (admit_event ev) _ _ _); rewrite <- app_assoc; [|done].
  f_equal. unfold admitted. cbn [omap list_omap]. by destruct (emit ev).
Qed.

(** The command run for an event, where the platform has one. *)
Definition shown (p : Platform) (prefix : string) (ev : AlertEvent) : option (list string) :=
  match desktop_command p prefix ev with inl argv => Some argv | inr _ => None end.


(** The group from member [length front] on. *)
Lemma members_spec p ev env todo : ∀ front tick,
  ∃ ks, length ks = length todo ∧
    state (notify_members p ev (length todo) (length front)) env tick (front ++ todo) =
      front ++ zip_with (λ k s, state (Notify p ev) env k s) ks todo ∧
    result (notify_members p ev (length todo) (length front)) env tick (front ++ todo) =
      concat (zip_with (λ k s, option_list (result (Notify p ev) env k s)) ks todo).
Proof.
  induction todo as [|s todo IH]; intros front tick; [by exists []|].
  destruct (IH (front ++ [state (Notify p ev) env tick s]) (ticks (Notify p ev) env tick s)) as (ks & Hlen & Hst & Hres).
  rewrite length_app in Hst, Hres. cbn [length] in Hst, Hres. rewrite Nat.add_1_r in Hst, Hres.
  rewrite <- !app_assoc in Hst. rewrite <- app_assoc in Hres. cbn [app] in Hst, Hres.
  exists (tick :: ks). split; [cbn; by f_equal|]. cbn [zip_with concat]. rewrite <- Hst, <- Hres.
  enough (wp (notify_members p ev (length (s :: todo)) (length front)) env tick (front ++ s :: todo) (λ r _ g',
    g' = state (notify_members p ev (length todo) (S (length front))) env (ticks (Notify p ev) env tick s)
           (front ++ state (Notify p ev) env tick s :: todo) ∧
    r = option_list (result (Notify p ev) env tick s) ++
        result (notify_members p ev (length todo) (S (length front))) env (ticks (Notify p ev) env tick s)
           (front ++ state (Notify p ev) env tick s :: todo))) as H
    by by rewrite wp_run in H.
  cbn [length notify_members]. wp_go. rewrite list_lookup_middle by done. wp_go. rewrite wp_zoom, wp_run.
  wp_go. rewrite insert_app_r_alt, Nat.sub_diag by lia. cbn [insert list_insert]. by rewrite wp_run.
Qed.

(** Every sink hears every alert. Notifying a group notifies each of its
    members once, in order and each in its own state, whatever errors the others
    return; and the group's error joins exactly the members' errors, in order,
    and is none when all succeed. *)
Theorem NotifierGroup_fanout (p : Platform) (ev : AlertEvent) (env : Env) (tick : nat) (g : list Sink) :
  ∃ ks, length ks = length g ∧
    state (NotifierGroup_Notify p ev) env tick g = zip_with (λ k s, state (Notify p ev) env k s) ks g ∧
    result (NotifierGroup_Notify p ev) env tick g =
      concat (zip_with (λ k s, option_list (result (Notify p ev) env k s)) ks g).
Proof. exact (members_spec p ev env g [] tick). Qed.

(** ** Escaping *)

(** An AppleScript string literal after its opening quote: the text up to the
    closing quote, with [\] escaping itself and the quote, and the rest. *)
Fixpoint applescript_literal (s : string) : option (string * string) :=
  match s with
  | "" => None
  | String c r =>
      if Ascii.eqb c "092" then
        match r with
        | "" => None
        | String d r' =>
            if Ascii.eqb d "092" || Ascii.eqb d "034" then
              match applescript_literal r' with Some (t, rest) => Some (String d t, rest) | None => None end
            else None
        end
      else if Ascii.eqb c "034" then Some ("", r)
      else match applescript_literal r with Some (t, rest) => Some (String c t, rest) | None => None end
  end.

Lemma ReplaceAll_byte_cons (c : ascii) (new : string) (d : ascii) (s : string) :
  ReplaceAll (String d s) (String c "") new =
    (if Ascii.eqb d c then new else String d "") +:+ ReplaceAll s (String c "") new.
Proof.
  unfold ReplaceAll, Replacer. cbn [replacer_go find fst]. unfold HasPrefix. cbn [String.prefix].
  destruct (Ascii.ascii_dec c d) as [->|Hne].
  - rewrite Ascii.eqb_refl. by destruct s.
  - rewrite (proj2 (Ascii.eqb_neq d c)) by congruence. done.
Qed.

Lemma escape_cons (d : ascii) (s : string) :
  escapeAppleScript (String d s) =
    (if Ascii.eqb d "092" then backslash +:+ backslash
     else if Ascii.eqb d "034" then backslash +:+ quote else String d "") +:+ escapeAppleScript s.
Proof.
  unfold escapeAppleScript. change backslash with (String "092" ""). change quote with (String "034" "").
  rewrite (ReplaceAll_byte_cons "092"%char). destruct (Ascii.eqb d "092") eqn:Hd.
  - change ((String "092" "" +:+ String "092" "") +:+ ?s) with (String "092" (String "092" s)).
    rewrite !ReplaceAll_byte_cons. done.
  - change (String d "" +:+ ?s) with (String d s).
    rewrite (ReplaceAll_byte_cons "034"%char). by destruct (Ascii.eqb d "034").
Qed.

Lemma literal_escape s rest :
  applescript_literal (escapeAppleScript s +:+ quote +:+ rest) = Some (s, rest).
Proof.
  induction s as [|d s IH]; [done|]. rewrite escape_cons, sapp_assoc.
  revert IH. generalize (escapeAppleScript s +:+ quote +:+ rest). intros tail IH.
  transitivity (match applescript_literal tail with Some (t, rest) => Some (String d t, rest) | None => None end);
    [|by rewrite IH].
  destruct (Ascii.eqb_spec d "092") as [->|H1]; [done|].
  destruct (Ascii.eqb_spec d "034") as [->|H2]; [done|].
  apply Ascii.eqb_neq in H1, H2. change (String d "" +:+ tail) with (String d tail).
  cbn [applescript_literal]. by rewrite H1, H2.
Qed.

Definition desktop_title (prefix : string) (ev : AlertEvent) : string :=
  let title := prefix +:+ " " +:+ ToUpper (al_Severity ev) in
  if al_Regression ev then title +:+ " REGRESSION" else title.

(** No alert can inject AppleScript. Whatever the target is called and
    whatever its message says, the script the macOS sink runs is a display
    command with two string literals that read back as exactly the body and the
    title, with nothing left over: no text of an alert ends a literal early. *)
Theorem desktop_script_safe (p : Platform) (prefix : string) (ev : AlertEvent) (argv : list string) :
  GOOS p = "darwin" → desktop_command p prefix ev = inl argv →
  ∃ literals more, argv = ["osascript"; "-e"; "display notification " +:+ quote +:+ literals] ∧
    applescript_literal literals = Some (notificationBody ev, " with title " +:+ quote +:+ more) ∧
    applescript_literal more = Some (desktop_title prefix ev, "").
Proof.
  intros Hos. unfold desktop_command. rewrite (proj2 (streq_true _ _) Hos).
  destruct (LookPath p "osascript"); [|done]. cbn [negb]. intros [= <-].
  do 2 eexists. split; [reflexivity|]. split; [apply literal_escape|].
  rewrite <- (sapp_nil_r quote) at 1. apply literal_escape.
Qed.

(** ** Construction *)

Lemma parse_window_positive raw : 0 < parse_window raw.
Proof. unfold parse_window. destruct (ParseDuration raw) as [d|]; [|done]. destruct (d <=? 0) eqn:H; [done|lia]. Qed.

(** ** Examples *)

Definition ex_event (st : HealthState) (msg : string) : AlertEvent :=
  mkAlert "t" ("T" +:+ quote) st SeverityCritical false msg FailureNetwork 8.
Definition ex_mac (answer : option string) : Platform := mkPlatform "darwin" (λ _, true) (λ _, answer).

Lemma desktop_script_safe_witness :
  ∃ argv, desktop_command (ex_mac None) "[Smoke Alarm]" (ex_event "outage" "down") = inl argv ∧
  ∃ literals more, argv = ["osascript"; "-e"; "display notification " +:+ quote +:+ literals] ∧
    applescript_literal literals =
      Some (notificationBody (ex_event "outage" "down"), " with title " +:+ quote +:+ more) ∧
    applescript_literal more = Some (desktop_title "[Smoke Alarm]" (ex_event "outage" "down"), "").
Proof.
  eexists. split; [reflexivity|].
  apply (desktop_script_safe (ex_mac None) "[Smoke Alarm]" (ex_event "outage" "down")); reflexivity.
Defined.

(** The gate remembers an event before it is shown: when the command fails, the
    next alert of the same key is suppressed for the whole window, and without an
    error, although nobody has seen the first. *)
Example failed_alert_suppresses_the_next :
  let d := NewDesktopNotifier "" "warn" (2 * Minute) in
  let evs := [ex_event "outage" "down"; ex_event "outage" "down"] in
  let p := ex_mac (Some "exit status 1") in
  result (deliver_all p evs) (frozen 9 "") 0 d = [Some (ErrCommand "exit status 1"); None] ∧
  length (commands (state (deliver_all p evs) (frozen 9 "") 0 d)) = 1%nat.
Proof. vm_compute. auto. Qed.

(** The outage message counts the failures, so each outage alert has a key of its
    own and the window never suppresses one. *)
Example outage_alerts_not_deduped :
  let evs := [ex_event "outage" "outage: 3 consecutive failures"; ex_event "outage" "outage: 4 consecutive failures"] in
  length (logged (state (deliver_all (ex_mac None) evs) (frozen 9 "") 0 (NewLogNotifier "info" (2 * Minute)))) = 2%nat.
Proof. vm_compute. reflexivity. Qed.

(** The mask is put in front of the secret, which stays. *)
Example sanitize_keeps_the_secret : sanitize "rejected token=s3cret" = "rejected token=****s3cret".
Proof. vm_compute. reflexivity. Qed.
