(* ===== verification/Hosted.v ===== *)
(** * The hosted server ([internal/hosted/server.go])

    The MCP, ACP and A2A surface the process offers itself: JSON-RPC over POST,
    event streams over GET, sessions, and the audience and caller line of the
    Tuner. Every access to the server's maps holds a mutex, so a handler that
    answers is one program; a stream is opened, fed and closed by three, and the
    subscription of a caller by four, with other requests between them. Counters
    are unbounded, the server's methods are called through [http.ServeMux], which
    is not modelled, and a float is its text. *)

From Stdlib Require Import ZArith NArith Lia Ascii.
From stdpp Require Import base tactics strings gmap relations.
From stdpp Require Import list.
From S2P Require Import Prelude Bytes Durations Digest Net Url Targets Rpc Handshake.

Open Scope Z_scope.

(** ** Data *)

Record Options := mkOptions {
  ServiceName : string;
  Version : string;
  ListenAddr : string;
  EnableHTTP : bool;
  EnableSSE : bool;
  EnableMCP : bool;
  EnableACP : bool;
  EnableA2A : bool;
  MCPEndpoint : string;
  ACPEndpoint : string;
  A2AEndpoint : string;
  ShutdownTimeout : Duration;
}.

Record HostedEvent := mkEvent {
  ev_Time : Time;
  ev_Protocol : string;
  ev_Transport : string;
  ev_Method : string;
  ev_Path : string;
  ev_Outcome : string;
  ev_Detail : string;
}.

Record HostedCounters := mkCounters { ct_Total : Z; ct_MCP : Z; ct_ACP : Z; ct_A2A : Z; ct_SSE : Z; ct_HTTP : Z }.

Record tunerAudienceMetric := mkMetric {
  tm_Channel : string;
  tm_Count : Z;
  tm_Signal : string;
  tm_Metadata : option json;
  tm_UpdatedAt : Time;
}.

(** A buffered channel of a subscriber: what is in it, and whether it is open. *)
Record Chan := mkChan { ch_buffer : list json; ch_open : bool }.

(** Channels are named by the order in which they are made. *)
Record Server := mkServer {
  opts : Options;
  started : bool;
  listener : option string;       (* the address the listener is bound to *)
  boundAddr : string;
  srv_Addr : string;              (* httpSrv.Addr *)
  counters : HostedCounters;
  events : list HostedEvent;
  maxEvents : Z;
  sessions : gmap string Time;
  audience : gmap string tunerAudienceMetric;
  callerSubs : gmap string (list nat);
  made : nat;                     (* channels made so far *)
  chans : gmap nat Chan;
}.

(** ** Construction *)

Definition or_blank (s d : string) : string := if blank s then d else s.

Definition default_options (o : Options) : Options :=
  let http := EnableHTTP o || negb (EnableHTTP o || EnableSSE o) in
  let none := negb (EnableMCP o || EnableACP o || EnableA2A o) in
  mkOptions (or_blank (ServiceName o) "ocd-smoke-alarm") (or_blank (Version o) "0.1.0")
    (or_blank (ListenAddr o) "localhost:8091") http (EnableSSE o)
    (EnableMCP o || none) (EnableACP o || none) (EnableA2A o)
    (or_blank (MCPEndpoint o) "/mcp") (or_blank (ACPEndpoint o) "/acp") (or_blank (A2AEndpoint o) "/a2a")
    (if ShutdownTimeout o <=? 0 then 8 * Second else ShutdownTimeout o).

Definition NewServer (o : Options) : Server :=
  let o := default_options o in
  mkServer o false None "" (ListenAddr o) (mkCounters 0 0 0 0 0 0) [] 256 ∅ ∅ ∅ 0 ∅.

(** ** Listening *)

Definition Addr (s : Server) : string := if boundAddr s =s "" then ListenAddr (opts s) else boundAddr s.

Definition adoptListener (bound : string) : M Server (string + string) :=
  s ← get;
  if started s then mret (inr "hosted server: already started")
  else
    _ ← modify (λ s, {| s with listener := Some bound; boundAddr := bound; srv_Addr := bound |});
    mret (inl bound).

Definition BindWithRetry (try : string → bind_result) (maxRetries : Z) : M Server (string + string) :=
  s ← get;
  match Listen try (ListenAddr (opts s)) maxRetries with
  | inr _ => mret (inr "hosted server: listen failed")
  | inl bound => adoptListener bound
  end.

Definition BindListener (ln : option string) : M Server (string + string) :=
  match ln with
  | None => mret (inr "hosted server: nil listener")
  | Some bound => adoptListener bound
  end.

(** What [Start] does before it serves: whether it goes on, and on which address. *)
Definition Start_begin : M Server (option string) :=
  s ← get;
  if started s then mret None
  else
    _ ← modify (λ s, {| s with started := true |});
    mret (Some (default (srv_Addr s) (listener s))).

(** Whether [http.Server.Shutdown] is called. *)
Definition Shutdown : M Server bool :=
  s ← get;
  if negb (started s) then mret false
  else _ ← modify (λ s, {| s with started := false |}); mret true.

(** ** Events and counters *)

Definition appendEvent (ev : HostedEvent) : M Server unit :=
  modify (λ s,
    let max := if maxEvents s <=? 0 then 256 else maxEvents s in
    let events := if Z.of_nat (length (events s)) <? max then events s ++ [ev]
                  else match events s with [] => [] | _ :: rest => rest ++ [ev] end in
    {| s with maxEvents := max; events := events |}).

Definition recentEvents (n : Z) (s : Server) : list HostedEvent :=
  let len := Z.of_nat (length (events s)) in
  let n := if (n <=? 0) || (len <? n) then len else n in
  drop (Z.to_nat (Z.max 0 (len - n))) (events s).

Definition snapshotCounters (s : Server) : HostedCounters := counters s.

Definition count (f : HostedCounters → HostedCounters) : M Server unit :=
  modify (λ s, {| s with counters := f (counters s) |}).

Definition incrementProtocolCounter (proto : string) : M Server unit :=
  let p := ToLower (TrimSpace proto) in
  if p =s "mcp" then count (λ c, {| c with ct_MCP := ct_MCP c + 1 |})
  else if p =s "acp" then count (λ c, {| c with ct_ACP := ct_ACP c + 1 |})
  else if p =s "a2a" then count (λ c, {| c with ct_A2A := ct_A2A c + 1 |})
  else mret tt.

(** ** JSON *)

Definition jnum (z : Z) : json := JNumber (Itoa z).
Definition counters_json (c : HostedCounters) : json :=
  JObject [("total", jnum (ct_Total c)); ("mcp", jnum (ct_MCP c)); ("acp", jnum (ct_ACP c));
           ("a2a", jnum (ct_A2A c)); ("sse", jnum (ct_SSE c)); ("http", jnum (ct_HTTP c))].
Definition event_json (e : HostedEvent) : json :=
  JObject ([("time", JString (RFC3339Nano (ev_Time e))); ("protocol", JString (ev_Protocol e));
            ("transport", JString (ev_Transport e)); ("method", JString (ev_Method e));
            ("path", JString (ev_Path e)); ("outcome", JString (ev_Outcome e))]
           ++ if ev_Detail e =s "" then [] else [("detail", JString (ev_Detail e))]).
Definition metric_json (m : tunerAudienceMetric) : json :=
  JObject ([("channel", JString (tm_Channel m)); ("count", jnum (tm_Count m)); ("signal", JNumber (tm_Signal m))]
           ++ match tm_Metadata m with Some j => [("metadata", j)] | None => [] end
           ++ [("updated_at", JString (RFC3339Nano (tm_UpdatedAt m)))]).

(** ** Requests and answers *)

Record rpcRequest := mkRpcRequest { in_ID : option Z; in_Method : string }.
Record rpcReply := mkRpcReply { out_ID : option Z; out_Result : option json; out_Error : option (Z * string) }.

(** A request: its [Accept] and [Mcp-Session-Id] headers, the [transport] of its
    query, and whether the writer of its response can be flushed. *)
Record Request := mkRequest {
  rq_Method : string;
  rq_Path : string;
  rq_URI : string;
  rq_Accept : string;
  rq_transport : string;
  rq_session : string;
  rq_flusher : bool;
}.

Inductive Body := NoBody | Text (s : string) | JSON (j : json) | RPC (r : rpcReply).
Record Response := mkResponse { rs_status : Z; rs_session : option string; rs_body : Body }.

(** A stream that is open: what was sent, and the event its deferred call will
    append; Go evaluates the arguments of a deferred call when it is deferred. *)
Record Stream := mkStream { st_proto : string; st_sent : list (string * json); st_deferred : HostedEvent }.

Inductive handled := Answered (r : Response) | Opened (st : Stream).

Definition writeJSON (status : Z) (j : json) : Response := mkResponse status None (JSON j).
Definition http_error (status : Z) (text : string) : Response := mkResponse status None (Text text).

Definition wantsSSE (rq : Request) : bool :=
  Contains (ToLower (TrimSpace (rq_Accept rq))) "text/event-stream"
  || (ToLower (TrimSpace (rq_transport rq)) =s "sse").

Definition log_event (proto transport : string) (rq : Request) (outcome detail : string) : M Server unit :=
  now ← clock;
  appendEvent (mkEvent now proto transport (rq_Method rq) (rq_URI rq) outcome detail).

(** ** JSON-RPC *)

Definition tool_json (name description : string) (properties : list (string * json)) : json :=
  JObject [("description", JString description);
           ("inputSchema", JObject [("properties", JObject properties); ("type", JString "object")]);
           ("name", JString name)].
Definition hosted_tools : json :=
  JObject [("tools", JArray [
    tool_json "smoke.health" "Return hosted service health summary" [];
    tool_json "smoke.tuner_list_channels" "List channels available for Tuner observation" [];
    tool_json "smoke.tuner_audience" "Get current audience metrics per channel" [];
    tool_json "smoke.tuner_caller_messages" "Receive caller messages from Tuner viewers"
      [("channel", JObject [("description", JString "Channel to listen on"); ("type", JString "string")])]])].
Definition hosted_resources : json :=
  JObject [("resources", JArray [JObject [
    ("description", JString "Embedded hosted service state and capabilities");
    ("mimeType", JString "application/json"); ("name", JString "Hosted Status"); ("uri", JString "hosted://status")]])].
Definition initialize_json (o : Options) (proto : string) : json :=
  JObject [("capabilities", JObject [
             ("resources", JObject [("listChanged", JBool false); ("subscribe", JBool false)]);
             ("tools", JObject [("listChanged", JBool false)])]);
           ("protocolVersion", JString "2024-11-05");
           ("serverInfo", JObject [("name", JString (ServiceName o +:+ "-hosted-" +:+ proto));
                                   ("version", JString (Version o))])].

Definition dispatchRPC (proto : string) (req : rpcRequest) : M Server rpcReply :=
  s ← get;
  let ok j := mkRpcReply (in_ID req) (Some j) None in
  let fail msg := mkRpcReply (in_ID req) None (Some (-32601, msg)) in
  let method := TrimSpace (in_Method req) in
  if method =s "initialize" then mret (ok (initialize_json (opts s) proto))
  else if method =s "session/setup" then
    mret (if negb (proto =s "acp") then fail "method not found for protocol"
          else ok (JObject [("capabilities", JObject [("prompt/turn", JBool true); ("tool/calls", JBool true)]);
                            ("sessionId", JString "embedded-session-1")]))
  else if method =s "tools/list" then
    mret (if negb (proto =s "mcp") then fail "method not found for protocol" else ok hosted_tools)
  else if method =s "resources/list" then
    mret (if negb (proto =s "mcp") then fail "method not found for protocol" else ok hosted_resources)
  else if method =s "prompt/turn" then
    mret (if negb (proto =s "acp") && negb (proto =s "a2a") then fail "method not found for protocol"
          else ok (JObject [("done", JBool true);
                            ("output", JObject [("text", JString "embedded hosted service prompt/turn acknowledged")])]))
  else if method =s "ping" then
    now ← clock;
    mret (ok (JObject [("ok", JBool true); ("protocol", JString proto); ("time", JString (RFC3339Nano now))]))
  else mret (fail ("method not found: " +:+ method)).

(** ** Sessions *)

Definition createSession : M Server string :=
  b ← draw;
  let sid := hex (bytes_of_string b) in
  now ← clock;
  _ ← modify (λ s, {| s with sessions := <[sid := now]> (sessions s) |});
  mret sid.

Definition validSession (s : Server) (sid : string) : bool :=
  negb (sid =s "") && bool_decide (is_Some (sessions s !! sid)).

(** The body is [None] when it does not decode. *)
Definition handleJSONRPC (proto : string) (rq : Request) (body : option rpcRequest) : M Server Response :=
  match body with
  | None => mret (mkResponse 400 None (RPC (mkRpcReply None None (Some (-32700, "parse error: invalid JSON")))))
  | Some req =>
      if blank (in_Method req) then
        mret (mkResponse 400 None
          (RPC (mkRpcReply (in_ID req) None (Some (-32600, "invalid request: method is required")))))
      else
        resp ← dispatchRPC proto req;
        _ ← match out_Error resp with
            | Some (_, msg) => log_event proto "http" rq "rpc_error" msg
            | None => log_event proto "http" rq "ok" (TrimSpace (in_Method req))
            end;
        sid ← (if (in_Method req =s "initialize") && bool_decide (out_Error resp = None)
               then sid ← createSession; mret (Some sid) else mret None);
        mret (mkResponse 200 sid (RPC resp))
  end.

(** ** Event streams *)

Definition handleSSE_open (proto : string) (rq : Request) : M Server handled :=
  if negb (rq_flusher rq) then
    _ ← log_event proto "sse" rq "error" "streaming unsupported by response writer";
    mret (Answered (writeJSON 500 (JObject [("error", JString "streaming unsupported by response writer")])))
  else
    _ ← log_event proto "sse" rq "connected" "";
    deferred ← clock;
    s ← get;
    now ← clock;
    mret (Opened (mkStream proto
      [("ready", JObject [("counters", counters_json (snapshotCounters s)); ("protocol", JString proto);
                          ("service", JString (ServiceName (opts s))); ("time", JString (RFC3339Nano now));
                          ("version", JString (Version (opts s)))])]
      (mkEvent deferred proto "sse" (rq_Method rq) (rq_URI rq) "disconnected" ""))).

(** A tick of the stream's ticker. *)
Definition handleSSE_tick (ts : Time) (st : Stream) : M Server Stream :=
  s ← get;
  mret {| st with st_sent := st_sent st ++
    [("heartbeat", JObject [("counters", counters_json (snapshotCounters s)); ("ok", JBool true);
                            ("protocol", JString (st_proto st)); ("time", JString (RFC3339Nano ts))])] |}.

Definition handleSSE_close (st : Stream) : M Server unit := appendEvent (st_deferred st).

(** ** The protocol endpoint *)

Definition refusal (s : Server) (status : Z) (text : string) : handled :=
  Answered (writeJSON status (JObject [("error", JString text); ("service", JString (ServiceName (opts s)))])).

(** Counting and logging the request, and then answering it. *)
Definition receive_request (proto : string) (rq : Request) : M Server unit :=
  _ ← count (λ c, {| c with ct_Total := ct_Total c + 1 |});
  _ ← incrementProtocolCounter proto;
  _ ← (if wantsSSE rq then count (λ c, {| c with ct_SSE := ct_SSE c + 1 |})
       else count (λ c, {| c with ct_HTTP := ct_HTTP c + 1 |}));
  log_event proto (if wantsSSE rq then "sse" else "http") rq "received" "".

Definition answer_request (proto : string) (rq : Request) (body : option rpcRequest) : M Server handled :=
  s ← get;
  if (rq_Method rq =s "GET") && wantsSSE rq then
    if negb (EnableSSE (opts s)) then
      _ ← log_event proto "sse" rq "rejected" "sse transport disabled";
      mret (refusal s 501 "sse transport disabled")
    else handleSSE_open proto rq
  else if rq_Method rq =s "POST" then
    if negb (EnableHTTP (opts s)) then
      _ ← log_event proto "http" rq "rejected" "http transport disabled";
      mret (refusal s 501 "http transport disabled")
    else
      r ← handleJSONRPC proto rq body;
      mret (Answered r)
  else if rq_Method rq =s "DELETE" then
    if validSession s (rq_session rq) then
      _ ← modify (λ s, {| s with sessions := delete (rq_session rq) (sessions s) |});
      mret (Answered (mkResponse 200 None NoBody))
    else mret (Answered (mkResponse 404 None NoBody))
  else
    _ ← log_event proto (if wantsSSE rq then "sse" else "http") rq "rejected" "method not allowed";
    mret (refusal s 405
      "use POST for JSON-RPC, GET with Accept: text/event-stream for SSE, or DELETE to end session").

Definition handleProtocol (proto : string) (rq : Request) (body : option rpcRequest) : M Server handled :=
  _ ← receive_request proto rq;
  answer_request proto rq body.

(** ** The root and the status *)

Definition present (b : bool) (kv : string * json) : list (string * json) := if b then [kv] else [].

Definition handleRoot (rq : Request) : M Server Response :=
  if negb (rq_Path rq =s "/") then mret (http_error 404 "404 page not found")
  else
    s ← get;
    let o := opts s in
    let endpoints :=
      present (EnableA2A o) ("a2a", JString (A2AEndpoint o)) ++ present (EnableACP o) ("acp", JString (ACPEndpoint o))
      ++ [("events", JString "/hosted/events")] ++ present (EnableMCP o) ("mcp", JString (MCPEndpoint o))
      ++ [("status", JString "/hosted/status")] in
    let transports := (if EnableHTTP o then [JString "http"] else []) ++ (if EnableSSE o then [JString "sse"] else []) in
    mret (writeJSON 200 (JObject [("endpoints", JObject endpoints); ("listen", JString (Addr s));
      ("service", JString (ServiceName o)); ("surface", JString "hosted"); ("transports", JArray transports);
      ("version", JString (Version o))])).

Definition handleHostedStatus : M Server Response :=
  s ← get;
  now ← clock;
  let o := opts s in
  mret (writeJSON 200 (JObject [
    ("counters", counters_json (snapshotCounters s));
    ("endpoints", JObject [("a2a", JString (A2AEndpoint o)); ("acp", JString (ACPEndpoint o)); ("mcp", JString (MCPEndpoint o))]);
    ("listen", JString (Addr s));
    ("protocols", JObject [("a2a", JBool (EnableA2A o)); ("acp", JBool (EnableACP o)); ("mcp", JBool (EnableMCP o))]);
    ("recent_events", JArray (map event_json (recentEvents 25 s)));
    ("service", JString (ServiceName o)); ("time", JString (RFC3339Nano now));
    ("transports", JObject [("http", JBool (EnableHTTP o)); ("sse", JBool (EnableSSE o))]);
    ("version", JString (Version o))])).

(** What a watcher of the events is sent first, and at every tick. *)
Definition counters_frame (s : Server) (at_ : Time) : string * json :=
  ("snapshot", JObject [("counters", counters_json (snapshotCounters s)); ("time", JString (RFC3339Nano at_))]).
Definition handleHostedEvents (rq : Request) : M Server (Response + list (string * json)) :=
  s ← get;
  if negb (wantsSSE rq) then
    mret (inl (writeJSON 400 (JObject [("error", JString "set Accept: text/event-stream or ?transport=sse");
                                       ("service", JString (ServiceName (opts s)))])))
  else if negb (rq_flusher rq) then
    mret (inl (writeJSON 500 (JObject [("error", JString "streaming unsupported by response writer")])))
  else
    now ← clock;
    mret (inr (map (λ ev, ("event", event_json ev)) (recentEvents 40 s) ++ [counters_frame s now])).
Definition handleHostedEvents_tick : M Server (string * json) :=
  s ← get; now ← clock; mret (counters_frame s now).

(** ** The Tuner: audience *)

(** [fixed2] formats a float with two digits; [order] is the one in which the
    code ranges over the audience. *)
Definition handleTunerAudience (fixed2 : string → string) (order : list string) (rq : Request)
    (body : tunerAudienceMetric + string) : M Server Response :=
  if negb (rq_Method rq =s "POST") && negb (rq_Method rq =s "GET") then mret (http_error 405 "method not allowed")
  else if rq_Method rq =s "GET" then
    s ← get;
    mret (writeJSON 200 (JObject [("audience", JArray (metric_json <$> omap (audience s !!.) order))]))
  else
    match body with
    | inr err => mret (http_error 400 err)
    | inl metric =>
        if tm_Channel metric =s "" then mret (http_error 400 "channel required")
        else
          updated ← clock;
          let metric := {| metric with tm_UpdatedAt := updated |} in
          _ ← modify (λ s, {| s with audience := <[tm_Channel metric := metric]> (audience s) |});
          now ← clock;
          _ ← appendEvent (mkEvent now "tuner" "" "audience" (rq_Path rq) "ok"
                ("channel=" +:+ tm_Channel metric +:+ " count=" +:+ Itoa (tm_Count metric)
                 +:+ " signal=" +:+ fixed2 (tm_Signal metric)));
          mret (writeJSON 200 (JObject [("status", JString "ok")]))
    end.

(** ** The Tuner: caller line *)

Definition subscribers (s : Server) (channel : string) : list nat := default [] (callerSubs s !! channel).

(** A subscription: [None] when the writer cannot stream. The [connected] frame is
    left out. *)
Definition handleCallerSSE_open (rq : Request) (channel : string) : M Server (option nat) :=
  if negb (rq_flusher rq) then mret None
  else
    s ← get;
    let id := made s in
    _ ← modify (λ s, {| s with made := S id; chans := <[id := mkChan [] true]> (chans s) |});
    _ ← modify (λ s, {| s with callerSubs := <[channel := subscribers s channel ++ [id]]> (callerSubs s) |});
    mret (Some id).

(** The subscriber's loop takes the oldest message of its channel; [None] when
    there is none. *)
Definition handleCallerSSE_receive (id : nat) : M Server (option json) :=
  s ← get;
  match chans s !! id with
  | Some (mkChan (msg :: rest) open) =>
      _ ← modify (λ s, {| s with chans := <[id := mkChan rest open]> (chans s) |});
      mret (Some msg)
  | _ => mret None
  end.

(** The deferred function: off the list of its channel, under the mutex, and then
    closed. *)
Definition remove_first (id : nat) (l : list nat) : list nat :=
  match list_find (λ x, x = id) l with Some (i, _) => take i l ++ drop (S i) l | None => l end.
Definition handleCallerSSE_leave (id : nat) (channel : string) : M Server unit :=
  modify (λ s,
    let subs := subscribers s channel in
    if bool_decide (id ∈ subs) then {| s with callerSubs := <[channel := remove_first id subs]> (callerSubs s) |} else s).
Definition handleCallerSSE_close (id : nat) : M Server unit :=
  modify (λ s, {| s with chans := alter (λ c, {| c with ch_open := false |}) id (chans s) |}).

Definition caller_buffer : nat := 16.

(** A send that does not wait. [None] is the panic of a send on a closed channel;
    a channel never made is nil, and a send on it is dropped. *)
Definition offer (payload : json) (id : nat) (cs : gmap nat Chan) : option (gmap nat Chan) :=
  match cs !! id with
  | None => Some cs
  | Some c =>
      if negb (ch_open c) then None
      else Some (if (length (ch_buffer c) <? caller_buffer)%nat
                 then <[id := {| c with ch_buffer := ch_buffer c ++ [payload] |}]> cs else cs)
  end.
Fixpoint offer_all (payload : json) (subs : list nat) (cs : gmap nat Chan) : option (gmap nat Chan) :=
  match subs with
  | [] => Some cs
  | id :: subs => cs ← offer payload id cs; offer_all payload subs cs
  end.

Record callerMessage := mkCallerMessage { cm_message : string; cm_from : string; cm_priority : string }.
Definition caller_payload (channel : string) (msg : callerMessage) (now : Time) : json :=
  JObject [("channel", JString channel); ("from", JString (cm_from msg)); ("message", JString (cm_message msg));
           ("priority", JString (cm_priority msg)); ("time", JString (RFC3339Nano now))].

(** [None] is a panic. *)
Definition handleCallerPost (rq : Request) (channel : string) (body : callerMessage + string)
  : M Server (option Response) :=
  match body with
  | inr err => mret (Some (http_error 400 err))
  | inl msg =>
      now ← clock;
      s ← get;
      match offer_all (caller_payload channel msg now) (subscribers s channel) (chans s) with
      | None => mret None
      | Some cs =>
          _ ← modify (λ s, {| s with chans := cs |});
          at_ ← clock;
          _ ← appendEvent (mkEvent at_ "tuner" "" "caller" (rq_Path rq) "ok"
                ("channel=" +:+ channel +:+ " from=" +:+ cm_from msg));
          mret (Some (writeJSON 200 (JObject [("channel", JString channel); ("status", JString "received");
            ("subscribers", jnum (Z.of_nat (length (subscribers s channel))))])))
      end
  end.

Inductive caller_call := Subscribe (channel : string) | Post (channel : string) | BadCall (text : string).
Definition handleTunerCaller (rq : Request) : caller_call :=
  let '(channel, suffix) := cut_at "/" (TrimPrefix (rq_Path rq) "/tuner/caller/") in
  if channel =s "" then BadCall "channel required in path"
  else if (rq_Method rq =s "GET") && (suffix =s "sse") then Subscribe channel
  else if rq_Method rq =s "POST" then Post channel
  else BadCall "use GET /tuner/caller/{channel}/sse or POST /tuner/caller/{channel}".

(** ** Executions *)

(** Where a subscriber is: in its loop, or between leaving the list and closing. *)
Inductive phase := Listening (channel : string) | Leaving.
#[export] Instance phase_eq : EqDecision phase.
Proof. solve_decision. Defined.

Record World := mkWorld { srv : Server; conns : gmap nat phase }.

(** Anything the server can be asked, with any clock: what the callers do, and
    the requests and streams of the protocols in between. *)
Inductive caller_step (env : Env) : World → World → Prop :=
  | step_open rq channel tick w :
      let m := handleCallerSSE_open rq channel in
      caller_step env w (mkWorld (state m env tick (srv w))
        (match result m env tick (srv w) with Some id => <[id := Listening channel]> (conns w) | None => conns w end))
  | step_receive id channel tick w :
      conns w !! id = Some (Listening channel) →
      caller_step env w (mkWorld (state (handleCallerSSE_receive id) env tick (srv w)) (conns w))
  | step_leave id channel tick w :
      conns w !! id = Some (Listening channel) →
      caller_step env w (mkWorld (state (handleCallerSSE_leave id channel) env tick (srv w)) (<[id := Leaving]> (conns w)))
  | step_close id tick w :
      conns w !! id = Some Leaving →
      caller_step env w (mkWorld (state (handleCallerSSE_close id) env tick (srv w)) (delete id (conns w)))
  | step_post rq channel body tick w :
      caller_step env w (mkWorld (state (handleCallerPost rq channel body) env tick (srv w)) (conns w))
  | step_audience fixed2 order rq body tick w :
      caller_step env w (mkWorld (state (handleTunerAudience fixed2 order rq body) env tick (srv w)) (conns w))
  | step_protocol proto rq body tick w :
      caller_step env w (mkWorld (state (handleProtocol proto rq body) env tick (srv w)) (conns w))
  | step_stream_end st tick w :
      caller_step env w (mkWorld (state (handleSSE_close st) env tick (srv w)) (conns w)).

(** ** Frames *)

Lemma keeps_appendEvent {T} (f : Server → T) ev :
  (∀ s max evs, f {| s with maxEvents := max; events := evs |} = f s) → keeps f (appendEvent ev).
Proof. intros H. apply keeps_modify. intros s. apply H. Qed.
Lemma keeps_log_event {T} (f : Server → T) proto transport rq outcome detail :
  (∀ s max evs, f {| s with maxEvents := max; events := evs |} = f s) → keeps f (log_event proto transport rq outcome detail).
Proof. intros H. apply keeps_bind; [auto with go|]. intros now. by apply keeps_appendEvent. Qed.

Definition caller_line (s : Server) : gmap string (list nat) * nat * gmap nat Chan := (callerSubs s, made s, chans s).

Lemma handleProtocol_callers proto rq body : keeps caller_line (handleProtocol proto rq body).
Proof.
  unfold handleProtocol, receive_request, answer_request, incrementProtocolCounter, count, handleSSE_open, handleJSONRPC, dispatchRPC, createSession. cbv zeta.
  keeps_go. all: try by apply keeps_log_event. 
Qed.

Lemma handleTunerAudience_callers fixed2 order rq body : keeps caller_line (handleTunerAudience fixed2 order rq body).
Proof. unfold handleTunerAudience. cbv zeta. keeps_go. all: by apply keeps_appendEvent. Qed.

(** ** The caller line *)

Lemma remove_first_spec id l : NoDup l →
  NoDup (remove_first id l) ∧ ∀ x, x ∈ remove_first id l ↔ x ∈ l ∧ x ≠ id.
Proof.
  intros Hnd. unfold remove_first. destruct (list_find _ l) as [[i y]|] eqn:E.
  - apply list_find_Some in E as (Hi & -> & _). apply take_drop_middle in Hi.
    revert Hi Hnd. generalize (take i l) (drop (S i) l). intros a b <-.
    rewrite NoDup_app, NoDup_cons. intros (Ha & Hd & Hn & Hb). split.
    + apply NoDup_app. split_and!; [done| |done]. intros x Hx Hx'. apply (Hd x Hx). by right.
    + intros x. rewrite !elem_of_app, elem_of_cons. split; [|naive_solver].
      intros [H|H]; (split; [auto|]); intros ->; [|done]. apply (Hd id H). by left.
  - apply list_find_None in E. rewrite Forall_forall in E. split; [done|]. intros x. split; [|tauto].
    intros Hx. split; [done|]. by apply E.
Qed.

(** What a channel that is offered a message holds afterwards. *)
Definition delivered (payload : json) (c : Chan) : Chan :=
  if (length (ch_buffer c) <? caller_buffer)%nat then {| c with ch_buffer := ch_buffer c ++ [payload] |} else c.

Definition is_open (cs : gmap nat Chan) (id : nat) : Prop := ∃ c, cs !! id = Some c ∧ ch_open c = true.

Lemma delivered_open payload c : ch_open (delivered payload c) = ch_open c.
Proof. unfold delivered. by case_match. Qed.

Lemma offer_open payload id cs :
  is_open cs id → ∃ cs', offer payload id cs = Some cs' ∧ cs' !! id = delivered payload <$> cs !! id ∧
                         ∀ x, x ≠ id → cs' !! x = cs !! x.
Proof.
  intros (c & Hc & Ho). unfold offer, delivered. rewrite Hc, Ho. cbn [negb fmap option_fmap option_map].
  rewrite ?Ho. destruct (_ <? _)%nat; eexists; (split; [done|]); [rewrite lookup_insert_eq|]; (split; [done|]); intros x Hx; [by rewrite lookup_insert_ne|done].
Qed.

Lemma offer_all_open payload subs : ∀ cs, NoDup subs → (∀ id, id ∈ subs → is_open cs id) →
  ∃ cs', offer_all payload subs cs = Some cs' ∧
    ∀ id, cs' !! id = if bool_decide (id ∈ subs) then delivered payload <$> cs !! id else cs !! id.
Proof.
  induction subs as [|x subs IH]; intros cs Hnd Hopen; [by exists cs|].
  apply NoDup_cons in Hnd as [Hx Hnd]. destruct (offer_open payload x cs) as (cs1 & H1 & Hd & Hs); [apply Hopen; by left|].
  destruct (IH cs1 Hnd) as (cs' & H' & Hl).
  { intros id Hid. destruct (Hopen id) as (c & Hc & Ho); [by right|]. exists c. rewrite Hs by congruence. done. }
  exists cs'. cbn [offer_all]. rewrite H1. split; [done|]. intros id. rewrite Hl.
  destruct (decide (id = x)) as [->|Hne].
  - rewrite bool_decide_false, bool_decide_true, Hd by (done || by left). done.
  - rewrite (Hs id Hne). destruct (decide (id ∈ subs)) as [Hin|Hin].
    + rewrite !bool_decide_true by (done || by right). done.
    + rewrite !bool_decide_false by (by rewrite ?elem_of_cons; naive_solver). done.
Qed.

Record callers_ok (w : World) : Prop := {
  co_fresh : ∀ id, is_Some (chans (srv w) !! id) ∨ is_Some (conns w !! id) → (id < made (srv w))%nat;
  co_listed : ∀ c id, id ∈ subscribers (srv w) c ↔ conns w !! id = Some (Listening c);
  co_distinct : ∀ c, NoDup (subscribers (srv w) c);
  co_open : ∀ c id, conns w !! id = Some (Listening c) → is_open (chans (srv w)) id;
  co_bound : ∀ id c, chans (srv w) !! id = Some c → (length (ch_buffer c) <= caller_buffer)%nat;
}.

Lemma callers_ok_frame w s : caller_line s = caller_line (srv w) → callers_ok w → callers_ok (mkWorld s (conns w)).
Proof.
  destruct w as [s0 cn]. unfold caller_line. cbn [srv conns]. intros [= Hs Hm Hc] [H1 H2 H3 H4 H5].
  assert (∀ c, subscribers s c = subscribers s0 c) as Hsub by (intros c; unfold subscribers; by rewrite Hs).
  cbn [srv conns] in *. split; cbn [srv conns]; rewrite ?Hc, ?Hm; try done; intros c; [intros id|]; rewrite Hsub; auto.
Qed.

Lemma NewServer_callers o : callers_ok (mkWorld (NewServer o) ∅).
Proof.
  split; cbn; unfold subscribers; cbn.
  - intros id [[? H]|[? H]]; by rewrite lookup_empty in H.
  - intros c id. rewrite !lookup_empty. cbn. by rewrite elem_of_nil.
  - intros c. rewrite lookup_empty. constructor.
  - intros c id H. by rewrite lookup_empty in H.
  - intros id c H. by rewrite lookup_empty in H.
Qed.

Lemma open_ok w rq channel env tick : callers_ok w →
  let m := handleCallerSSE_open rq channel in
  callers_ok (mkWorld (state m env tick (srv w))
    (match result m env tick (srv w) with Some id => <[id := Listening channel]> (conns w) | None => conns w end)).
Proof.
  intros H. unfold handleCallerSSE_open. destruct (negb (rq_flusher rq)); [by apply callers_ok_frame|].
  destruct H as [Hf Hl Hd Ho Hb]. set (s := srv w) in *. cbv zeta.
  change (callers_ok (mkWorld {| s with made := S (made s); chans := <[made s := mkChan [] true]> (chans s);
    callerSubs := <[channel := subscribers s channel ++ [made s]]> (callerSubs s) |}
    (<[made s := Listening channel]> (conns w)))).
  assert (conns w !! made s = None) as Hn.
  { apply eq_None_not_Some. intros H. specialize (Hf (made s) (or_intror H)). lia. }
  assert (∀ c, made s ∉ subscribers s c) as Hns by (intros c; rewrite Hl; congruence).
  assert (∀ c, subscribers {| s with made := S (made s); chans := <[made s := mkChan [] true]> (chans s);
    callerSubs := <[channel := subscribers s channel ++ [made s]]> (callerSubs s) |} c =
    subscribers s c ++ if decide (c = channel) then [made s] else []) as Hsub.
  { intros c. unfold subscribers at 1. cbn [callerSubs]. destruct (decide (c = channel)) as [->|Hc].
    - by rewrite lookup_insert_eq.
    - by rewrite lookup_insert_ne, app_nil_r. }
  split; cbn [srv conns made chans]; clearbody s.
  - intros id. rewrite !lookup_insert_is_Some. intros [[->|[_ H]]|[->|[_ H]]]; [lia| |lia|];
      [specialize (Hf id (or_introl H))|specialize (Hf id (or_intror H))]; lia.
  - intros c id. rewrite Hsub, elem_of_app, Hl. destruct (decide (id = made s)) as [->|Hne].
    + rewrite lookup_insert_eq, Hn. case_decide; rewrite ?list_elem_of_singleton, ?elem_of_nil; naive_solver.
    + rewrite lookup_insert_ne by done. case_decide; rewrite ?list_elem_of_singleton, ?elem_of_nil; naive_solver.
  - intros c. rewrite Hsub. case_decide; [|by rewrite app_nil_r]. apply NoDup_app. split_and!; [done| |apply NoDup_singleton].
    intros id Hid ->%list_elem_of_singleton. by eapply Hns.
  - intros c id. destruct (decide (id = made s)) as [->|Hne].
    + intros _. exists (mkChan [] true). by rewrite lookup_insert_eq.
    + rewrite lookup_insert_ne by done. intros H. destruct (Ho _ _ H) as (ch & Hch & Hop).
      exists ch. by rewrite lookup_insert_ne.
  - intros id ch [[<- <-]|[_ H]]%lookup_insert_Some; [cbn; lia|by eapply Hb].
Qed.

Lemma leave_ok w id channel env tick : callers_ok w → conns w !! id = Some (Listening channel) →
  callers_ok (mkWorld (state (handleCallerSSE_leave id channel) env tick (srv w)) (<[id := Leaving]> (conns w))).
Proof.
  intros [Hf Hl Hd Ho Hb] Hid. set (s := srv w) in *. unfold handleCallerSSE_leave.
  unfold modify, state. cbn [fst snd]. cbv zeta. rewrite bool_decide_true by by apply Hl.
  destruct (remove_first_spec id _ (Hd channel)) as [Hnd Hin].
  assert (∀ c, subscribers {| s with callerSubs := <[channel := remove_first id (subscribers s channel)]> (callerSubs s) |} c =
    if decide (c = channel) then remove_first id (subscribers s channel) else subscribers s c) as Hsub.
  { intros c. unfold subscribers at 1. cbn [callerSubs]. case_decide; subst;
      [by rewrite lookup_insert_eq|by rewrite lookup_insert_ne]. }
  split; cbn [srv conns made chans]; clearbody s.
  - intros x [H|H]; [by apply Hf; left|]. apply lookup_insert_is_Some in H as [<-|[_ H]]; apply Hf; right; [by exists (Listening channel)|done].
  - intros c x. rewrite Hsub. destruct (decide (x = id)) as [->|Hne].
    + rewrite lookup_insert_eq. case_decide as Hc; [rewrite Hin; naive_solver|]. rewrite Hl, Hid. naive_solver.
    + rewrite lookup_insert_ne by done. case_decide as Hc; [subst; rewrite Hin, Hl; naive_solver|by rewrite Hl].
  - intros c. rewrite Hsub. by case_decide.
  - intros c x [[_ H]|[_ H]]%lookup_insert_Some; [done|by eapply Ho].
  - done.
Qed.

(** A step that only changes channels, keeping open those of the listeners. *)
Lemma callers_ok_chans w cn cs :
  callers_ok w →
  (∀ id, is_Some (cn !! id) → is_Some (conns w !! id)) →
  (∀ c id, cn !! id = Some (Listening c) ↔ conns w !! id = Some (Listening c)) →
  (∀ id, is_Some (cs !! id) → is_Some (chans (srv w) !! id)) →
  (∀ c id, conns w !! id = Some (Listening c) → is_open (chans (srv w)) id → is_open cs id) →
  (∀ id c, cs !! id = Some c → (length (ch_buffer c) <= caller_buffer)%nat) →
  callers_ok (mkWorld {| (srv w) with chans := cs |} cn).
Proof.
  intros [Hf Hl Hd Ho Hb] Hcn Hlis Hdom Hopen Hbound. split; cbn.
  - intros id [H|H]; apply Hf; auto.
  - intros c id. rewrite Hlis. apply Hl.
  - done.
  - intros c id H%Hlis. by eapply Hopen, Ho.
  - done.
Qed.

Lemma receive_ok w id env tick : callers_ok w →
  callers_ok (mkWorld (state (handleCallerSSE_receive id) env tick (srv w)) (conns w)).
Proof.
  intros H. unfold handleCallerSSE_receive, state, mbind, M_bind, get.
  destruct (chans (srv w) !! id) as [[[|msg rest] open]|] eqn:E; cbn; [by apply callers_ok_frame| |by apply callers_ok_frame].
  apply callers_ok_chans; [done..| | |].
  - intros x. rewrite lookup_insert_is_Some. intros [<-|[_ Hx]]; [by rewrite E|done].
  - intros c x _ (ch & Hch & Hop). destruct (decide (x = id)) as [->|Hne].
    + exists (mkChan rest open). rewrite lookup_insert_eq. split; [done|]. by simplify_eq.
    + exists ch. by rewrite lookup_insert_ne.
  - intros x ch [[<- <-]|[_ Hx]]%lookup_insert_Some; [|by eapply co_bound].
    apply (co_bound _ H) in E. cbn in *. lia.
Qed.

Lemma close_ok w id env tick : callers_ok w → conns w !! id = Some Leaving →
  callers_ok (mkWorld (state (handleCallerSSE_close id) env tick (srv w)) (delete id (conns w))).
Proof.
  intros H Hid. unfold handleCallerSSE_close, modify, state. cbn. apply callers_ok_chans; [done|..].
  - intros x. rewrite lookup_delete_is_Some. tauto.
  - intros c x. rewrite lookup_delete_Some. split; [tauto|]. intros Hx. split; [|done]. intros ->. congruence.
  - intros x. by rewrite lookup_alter_is_Some.
  - intros c x Hx (ch & Hch & Hop). exists ch. rewrite lookup_alter_ne by congruence. done.
  - intros x ch [(<- & c & Hc & ->)|[_ Hc]]%lookup_alter_Some; [by apply (co_bound _ H id c)|by apply (co_bound _ H x ch)].
Qed.

Lemma delivered_bound payload c :
  (length (ch_buffer c) <= caller_buffer)%nat → (length (ch_buffer (delivered payload c)) <= caller_buffer)%nat.
Proof. unfold delivered. case_match; [|done]. go_bools. cbn. rewrite length_app. cbn. lia. Qed.

(** A post reaches every listener of the channel and nobody else, and does not
    panic. *)
Lemma post_effect w rq channel msg env tick : callers_ok w →
  let m := handleCallerPost rq channel (inl msg) in
  let payload := caller_payload channel msg (env_clock env tick) in
  ∃ cs, result m env tick (srv w) = Some (writeJSON 200 (JObject [("channel", JString channel);
          ("status", JString "received"); ("subscribers", jnum (Z.of_nat (length (subscribers (srv w) channel))))])) ∧
    caller_line (state m env tick (srv w)) = (callerSubs (srv w), made (srv w), cs) ∧
    ∀ id, cs !! id = if bool_decide (conns w !! id = Some (Listening channel))
                     then delivered payload <$> chans (srv w) !! id else chans (srv w) !! id.
Proof.
  intros H. cbv zeta.
  destruct (offer_all_open (caller_payload channel msg (env_clock env tick)) (subscribers (srv w) channel) (chans (srv w)))
    as (cs & Hcs & Hl).
  { apply H. }
  { intros id Hid%(co_listed _ H). by apply (co_open _ H _ _ Hid). }
  exists cs. unfold result, state, handleCallerPost, mbind, M_bind, clock, get. cbn [fst snd]. rewrite Hcs. cbn.
  split; [done|]. split; [done|]. intros id. rewrite Hl.
  by rewrite (bool_decide_ext _ _ (co_listed _ H channel id)).
Qed.

Lemma post_ok w rq channel body env tick : callers_ok w →
  callers_ok (mkWorld (state (handleCallerPost rq channel body) env tick (srv w)) (conns w)).
Proof.
  intros H. destruct body as [msg|err]; [|by apply callers_ok_frame].
  destruct (post_effect w rq channel msg env tick H) as (cs & _ & Hline & Hl). cbv zeta in *.
  apply (callers_ok_frame (mkWorld {| (srv w) with chans := cs |} (conns w))); [exact Hline|].
  assert (∀ id, cs !! id = chans (srv w) !! id ∨ cs !! id = delivered (caller_payload channel msg (env_clock env tick)) <$> chans (srv w) !! id)
    as Hcase by (intros id; rewrite Hl; case_bool_decide; auto).
  apply callers_ok_chans; [done..| | |].
  - intros id. destruct (Hcase id) as [-> | ->]; [done|]. by rewrite fmap_is_Some.
  - intros c id _ (ch & Hch & Hop). destruct (Hcase id) as [E|E]; rewrite Hch in E; [by exists ch|].
    eexists. split; [exact E|]. by rewrite delivered_open.
  - intros id c Hc. destruct (Hcase id) as [E|E]; rewrite Hc in E; symmetry in E; [by eapply (co_bound _ H)|].
    apply fmap_Some in E as (c0 & Hc0 & ->). apply delivered_bound. by eapply (co_bound _ H).
Qed.

Lemma caller_step_ok env w w' : callers_ok w → caller_step env w w' → callers_ok w'.
Proof.
  intros H Hstep. destruct Hstep.
  - by apply open_ok.
  - by apply receive_ok.
  - by apply leave_ok.
  - by apply close_ok.
  - by apply post_ok.
  - apply callers_ok_frame; [apply handleTunerAudience_callers|done].
  - apply callers_ok_frame; [apply handleProtocol_callers|done].
  - by apply callers_ok_frame.
Qed.

(** C23: the caller line never panics and loses nothing it has room for. In every
    execution, whatever other requests come in between, a subscriber is on the
    list of its channel from its subscription to its leaving and its Go channel is
    open all that time; a message posted to a channel reaches every listener of it
    whose buffer is not full, once and behind what it already holds, reaches no
    other channel, and the answer counts the listeners. No buffer ever exceeds its
    sixteen places. *)
Theorem caller_line_safe (env : Env) (o : Options) (w : World) (rq : Request) (channel : string)
    (msg : callerMessage) (tick : nat)
    (Hreach : rtc (caller_step env) (mkWorld (NewServer o) ∅) w) :
  let m := handleCallerPost rq channel (inl msg) in
  let payload := caller_payload channel msg (env_clock env tick) in
  let listeners := subscribers (srv w) channel in
  let after := chans (state m env tick (srv w)) in
  NoDup listeners ∧ (∀ id, id ∈ listeners ↔ conns w !! id = Some (Listening channel)) ∧
  result m env tick (srv w) = Some (writeJSON 200 (JObject [("channel", JString channel);
    ("status", JString "received"); ("subscribers", jnum (Z.of_nat (length listeners)))])) ∧
  (∀ id, id ∈ listeners → ∃ held, chans (srv w) !! id = Some (mkChan held true) ∧
     after !! id = Some (mkChan (if (length held <? caller_buffer)%nat then held ++ [payload] else held) true)) ∧
  (∀ id, id ∉ listeners → after !! id = chans (srv w) !! id) ∧
  (∀ id c, after !! id = Some c → (length (ch_buffer c) <= caller_buffer)%nat).
Proof.
  assert (callers_ok w) as H.
  { eapply (rtc_invariant (caller_step env) callers_ok); [|exact Hreach|apply NewServer_callers].
    intros ? ? ? ?; by eapply caller_step_ok. }
  cbv zeta. pose proof (post_ok w rq channel (inl msg) env tick H) as H'.
  destruct (post_effect w rq channel msg env tick H) as (cs & Hr & Hline & Hl). cbv zeta in *.
  assert (chans (state (handleCallerPost rq channel (inl msg)) env tick (srv w)) = cs) as Hcs by exact (f_equal snd Hline).
  rewrite Hcs.
  split_and!; [apply H|apply H|done| | |].
  - intros id Hid%(co_listed _ H). destruct (co_open _ H _ _ Hid) as ([held open] & Hc & Ho). cbn in Ho. subst open.
    exists held. split; [done|]. rewrite Hl, bool_decide_true, Hc by done. unfold delivered. cbn. by case_match.
  - intros id Hid. rewrite Hl, bool_decide_false; [done|]. by rewrite <- (co_listed _ H).
  - intros id c Hc. apply (co_bound _ H' id c). cbn [srv]. by rewrite Hcs.
Qed.

Definition ex_options : Options := mkOptions "" "" "" false true false false false "" "" "" 0.
Definition ex_request (method path : string) : Request := mkRequest method path path "" "" "" true.
Definition ex_world : World :=
  mkWorld (state (handleCallerSSE_open (ex_request "GET" "/tuner/caller/c/sse") "c") (frozen 0 "n") 0 (NewServer ex_options))
    (<[0%nat := Listening "c"]> ∅).

Lemma caller_line_safe_witness :
  let msg := mkCallerMessage "hi" "me" "" in
  let m := handleCallerPost (ex_request "POST" "/tuner/caller/c") "c" (inl msg) in
  rtc (caller_step (frozen 0 "n")) (mkWorld (NewServer ex_options) ∅) ex_world ∧
  subscribers (srv ex_world) "c" = [0%nat] ∧
  chans (state m (frozen 0 "n") 0 (srv ex_world)) !! 0%nat = Some (mkChan [caller_payload "c" msg 0] true).
Proof.
  intros msg m.
  assert (rtc (caller_step (frozen 0 "n")) (mkWorld (NewServer ex_options) ∅) ex_world) as Hreach.
  { apply rtc_once. apply (step_open (frozen 0 "n") (ex_request "GET" "/tuner/caller/c/sse") "c" 0). }
  split; [exact Hreach|]. split; [reflexivity|].
  destruct (caller_line_safe (frozen 0 "n") ex_options ex_world (ex_request "POST" "/tuner/caller/c") "c" msg 0 Hreach)
    as (_ & _ & _ & H & _).
  destruct (H 0%nat) as (held & Hh & Ha); [by left|].
  vm_compute in Hh. injection Hh as <-. exact Ha.
Defined.

(** ** JSON-RPC *)

(** The methods a surface answers. *)
Definition methods_of (proto : string) : list string :=
  ["initialize"; "ping"] ++ (if proto =s "mcp" then ["tools/list"; "resources/list"] else [])
  ++ (if proto =s "acp" then ["session/setup"] else [])
  ++ (if (proto =s "acp") || (proto =s "a2a") then ["prompt/turn"] else []).
Definition served (proto method : string) : bool := mem (TrimSpace method) (methods_of proto).

Lemma mem_app x l k : mem x (l ++ k) = mem x l || mem x k.
Proof. unfold mem. by rewrite existsb_app. Qed.

Lemma wp_dispatchRPC proto req env tick s (Q : rpcReply → nat → Server → Prop) :
  (∀ r k, out_ID r = in_ID req →
     (if served proto (in_Method req) then out_Error r = None ∧ is_Some (out_Result r)
      else is_Some (out_Error r) ∧ out_Result r = None) →
     (TrimSpace (in_Method req) = "initialize" → r = mkRpcReply (in_ID req) (Some (initialize_json (opts s) proto)) None) →
     Q r k s) → wp (dispatchRPC proto req) env tick s Q.
Proof.
  intros HQ. unfold served, methods_of in HQ. unfold dispatchRPC. wp_go. cbv zeta.
  rewrite !mem_app in HQ. set (m := TrimSpace (in_Method req)) in *.
  assert (∀ a, mem m [a] = (m =s a)) as H1 by (intros a; cbn; apply orb_false_r).
  assert (∀ a b, mem m [a; b] = (m =s a) || (m =s b)) as H2 by (intros a b; cbn; by rewrite orb_false_r).
  rewrite H2 in HQ.
  destruct (m =s "initialize") eqn:E1; cbn [orb] in HQ; [wp_go; by apply HQ|].
  assert (m ≠ "initialize") as Hni by by apply streq_false.
  destruct (m =s "session/setup") eqn:E2.
  { apply streq_true in E2. wp_go. rewrite E2 in HQ. clear -HQ. destruct (proto =s "acp"), (proto =s "mcp"), (proto =s "a2a"); by apply HQ. }
  destruct (m =s "tools/list") eqn:E3.
  { apply streq_true in E3. wp_go. rewrite E3 in HQ. clear -HQ. destruct (proto =s "acp"), (proto =s "mcp"), (proto =s "a2a"); by apply HQ. }
  destruct (m =s "resources/list") eqn:E4.
  { apply streq_true in E4. wp_go. rewrite E4 in HQ. clear -HQ. destruct (proto =s "acp"), (proto =s "mcp"), (proto =s "a2a"); by apply HQ. }
  destruct (m =s "prompt/turn") eqn:E5.
  { apply streq_true in E5. wp_go. rewrite E5 in HQ. clear -HQ. destruct (proto =s "acp"), (proto =s "mcp"), (proto =s "a2a"); by apply HQ. }
  destruct (m =s "ping") eqn:E6; wp_go; [by apply HQ|].
  apply HQ; [done| |done]. 
  replace (_ || _) with false; [done|]. symmetry. 
  destruct (proto =s "mcp"), (proto =s "acp"), (proto =s "a2a"); cbn; by rewrite ?E2, ?E3, ?E4, ?E5.
Qed.

(** ** One request *)

Definition identity (s : Server) : Options * gmap string Time := (opts s, sessions s).
Lemma log_event_identity proto transport rq outcome detail : keeps identity (log_event proto transport rq outcome detail).
Proof. by apply keeps_log_event. Qed.
Lemma count_identity f : keeps identity (count f).
Proof. by apply keeps_modify. Qed.
Lemma increment_identity proto : keeps identity (incrementProtocolCounter proto).
Proof. unfold incrementProtocolCounter, count. cbv zeta. keeps_go. Qed.
#[export] Hint Resolve log_event_identity count_identity increment_identity : go.

Lemma receive_identity proto rq : keeps identity (receive_request proto rq).
Proof. unfold receive_request. keeps_go. Qed.

(** Steps over a call that leaves the options and the sessions alone. *)
Ltac over_call := rewrite wp_bind; eapply (keeps_wp identity); [auto with go|intros ? ? ? [= ? ?]].

(** Whether a request to a surface with these options starts a session. *)
Definition opens_session (o : Options) (rq : Request) (body : option rpcRequest) : bool :=
  (rq_Method rq =s "POST") && EnableHTTP o &&
  match body with Some req => in_Method req =s "initialize" | None => false end.

(** What a request does to the sessions, and what the ones that concern them are
    answered. *)
Definition session_effect (rq : Request) (body : option rpcRequest) (s : Server) (h : handled) (s' : Server) : Prop :=
  opts s' = opts s ∧
  match h with
  | Answered (mkResponse code (Some sid) _) =>
      opens_session (opts s) rq body = true ∧ ∃ now, sessions s' = <[sid := now]> (sessions s)
  | _ => opens_session (opts s) rq body = false ∧
      if (rq_Method rq =s "DELETE") && validSession s (rq_session rq)
      then sessions s' = delete (rq_session rq) (sessions s) else sessions s' = sessions s
  end ∧
  (rq_Method rq = "DELETE" → h = Answered (mkResponse (if validSession s (rq_session rq) then 200 else 404) None NoBody)).

Lemma wp_handleJSONRPC proto rq body env tick s (Q : Response → nat → Server → Prop) :
  (∀ r k s', opts s' = opts s →
     match rs_session r with
     | Some sid => opens_session (opts s) {| rq with rq_Method := "POST" |} body = EnableHTTP (opts s) ∧
                   ∃ now, sessions s' = <[sid := now]> (sessions s)
     | None => opens_session (opts s) {| rq with rq_Method := "POST" |} body = false ∧ sessions s' = sessions s
     end →
     (∀ req, body = Some req → blank (in_Method req) = true → rs_status r = 400) →
     (∀ req, body = Some req → blank (in_Method req) = false →
        rs_status r = 200 ∧ ∃ rep, rs_body r = RPC rep ∧
        (if served proto (in_Method req) then out_Error rep = None ∧ is_Some (out_Result rep)
         else is_Some (out_Error rep) ∧ out_Result rep = None) ∧
        (TrimSpace (in_Method req) = "initialize" → out_Result rep = Some (initialize_json (opts s) proto))) →
     Q r k s') → wp (handleJSONRPC proto rq body) env tick s Q.
Proof.
  intros HQ. unfold handleJSONRPC. unfold opens_session in HQ. change ("POST" =s "POST") with true in HQ.
  cbn [rq_Method andb] in HQ. destruct body as [req|]; [|wp_go; apply HQ; [done| |done|done]; by rewrite andb_false_r].
  destruct (blank (in_Method req)) eqn:Hb.
  { wp_go. apply HQ; [done| |done|by intros ? [= <-] ?; congruence]. split; [|done].
    destruct (in_Method req =s "initialize") eqn:E; [|apply andb_false_r]. apply streq_true in E. by rewrite E in Hb. }
  rewrite wp_bind. apply wp_dispatchRPC. intros rep k _ Hs Hi.
  rewrite wp_bind. apply (keeps_wp identity); [destruct (out_Error rep) as [[? ?]|]; auto with go|].
  intros _ k' s' [= Ho Hses].
  destruct (in_Method req =s "initialize") eqn:E.
  - apply streq_true in E. rewrite E in Hi. specialize (Hi eq_refl). subst rep. cbn [out_Error].
    rewrite bool_decide_true by done. cbn [andb]. unfold createSession. wp_go. apply HQ; [done| |intros ? [= <-]; congruence|].
    + cbn. rewrite andb_true_r. split; [done|]. eexists. by rewrite Hses.
    + intros ? [= <-] _. split; [done|]. eexists. split; [done|]. rewrite E in *. by split.
  - cbn [andb]. wp_go. apply HQ; [done|cbn; by rewrite andb_false_r|intros ? [= <-]; congruence|].
    intros ? [= <-] _. split; [done|]. exists rep. split; [done|]. split; [done|]. intros Hinit. by rewrite (Hi Hinit).
Qed.

Lemma wp_handleProtocol proto rq body env tick s (Q : handled → nat → Server → Prop) :
  (∀ h k s', session_effect rq body s h s' →
     (∀ req, rq_Method rq = "POST" → EnableHTTP (opts s) = true → body = Some req → blank (in_Method req) = true →
        ∃ r, h = Answered r ∧ rs_status r = 400) →
     (∀ req, rq_Method rq = "POST" → EnableHTTP (opts s) = true → body = Some req → blank (in_Method req) = false →
        ∃ sid rep, h = Answered (mkResponse 200 sid (RPC rep)) ∧
        (if served proto (in_Method req) then out_Error rep = None ∧ is_Some (out_Result rep)
         else is_Some (out_Error rep) ∧ out_Result rep = None) ∧
        (TrimSpace (in_Method req) = "initialize" → out_Result rep = Some (initialize_json (opts s) proto))) →
     Q h k s') → wp (handleProtocol proto rq body) env tick s Q.
Proof.
  intros HQ. unfold handleProtocol. rewrite wp_bind. apply (keeps_wp identity); [apply receive_identity|].
  intros _ k1 s2 [= Ho Hses]. unfold answer_request. rewrite wp_bind, wp_get.
  assert (∀ x, validSession s2 x = validSession s x) as Hv by (intros x; unfold validSession; by rewrite Hses).
  destruct ((rq_Method rq =s "GET") && wantsSSE rq) eqn:Eget.
  { apply andb_true_iff in Eget as [Eget%streq_true _].
    assert (∀ h k s', opts s' = opts s → sessions s' = sessions s → (∀ r, h = Answered r → rs_session r = None) → Q h k s') as Hget.
    { intros h k z Ho' Hs' Hh. apply HQ; [|intros ? ?; congruence..]. split; [done|]. unfold opens_session. rewrite Eget. cbn.
      split; [|done]. destruct h as [[c [sid|] b]|]; [by specialize (Hh _ eq_refl)|done..]. }
    destruct (negb _).
    - over_call. wp_go. apply Hget; [congruence|congruence|]. by intros r [= <-].
    - unfold handleSSE_open. destruct (negb _); over_call; wp_go; apply Hget; try congruence; by intros r [= <-]. }
  destruct (rq_Method rq =s "POST") eqn:Epost.
  { apply streq_true in Epost. destruct (negb (EnableHTTP (opts s2))) eqn:Ehttp.
    - over_call. wp_go. apply negb_true_iff in Ehttp. apply HQ.
      + unfold session_effect, opens_session, refusal, writeJSON. rewrite Epost. cbn. rewrite <- Ho, Ehttp.
        split; [congruence|]. split; [|done]. split; [done|congruence].
      + intros. congruence.
      + intros. congruence.
    - apply negb_false_iff in Ehttp. rewrite wp_bind. apply wp_handleJSONRPC. intros r k z Ho' Hs' Hbad Hrep. wp_go.
      assert ({| rq with rq_Method := "POST" |} = rq) as Hrq by (destruct rq; cbn in *; by subst).
      rewrite Hrq in Hs'. rewrite Ho, Hses in *. apply HQ.
      + split; [congruence|]. split; [|intros ?; congruence]. rewrite Epost. cbn.
        destruct r as [c [sid|] b]; cbn in Hs'; [|done]. rewrite Ehttp in Hs'. exact Hs'.
      + intros req _ _ Hb Hbl. exists r. split; [done|]. by apply (Hbad req).
      + intros req _ _ Hb Hbl. destruct (Hrep req Hb Hbl) as (Hc & rep & Hr & Hrest).
        exists (rs_session r), rep. split; [|done]. destruct r; cbn in *. by subst. }
  assert (opens_session (opts s) rq body = false) as Hno by (unfold opens_session; by rewrite Epost).
  destruct (rq_Method rq =s "DELETE") eqn:Edel.
  - rewrite Hv. destruct (validSession s (rq_session rq)) eqn:Hval; wp_go; (apply HQ; [|intros ? ?; apply streq_false in Epost; congruence..]);
      unfold session_effect; rewrite Edel, Hval; cbn; rewrite ?Ho, ?Hses; done.
  - over_call. wp_go. apply HQ; [|intros ? ?; apply streq_false in Epost; congruence..].
    unfold session_effect, refusal, writeJSON. rewrite Edel. cbn. apply streq_false in Edel.
    split; [congruence|]. split; [|done]. split; [done|congruence].
Qed.

(** ** Sessions *)

Record Call := mkCall { call_proto : string; call_request : Request; call_body : option rpcRequest }.

(** One request after the other, each with what it was answered. *)
Fixpoint serve (calls : list Call) : M Server (list (Call * handled)) :=
  match calls with
  | [] => mret []
  | c :: calls =>
      h ← handleProtocol (call_proto c) (call_request c) (call_body c);
      rest ← serve calls;
      mret ((c, h) :: rest)
  end.

(** Whether a session is open after these exchanges: it was handed out, and not
    deleted since. *)
Definition session_step (sid : string) (open : bool) (x : Call * handled) : bool :=
  match x.2 with
  | Answered (mkResponse _ (Some new) _) => if new =s sid then true else open
  | _ => open && negb ((rq_Method (call_request x.1) =s "DELETE") && (rq_session (call_request x.1) =s sid))
  end.
Definition session_open (sid : string) (trace : list (Call * handled)) : bool := foldl (session_step sid) false trace.

Definition answers_sessions (before : list (Call * handled)) (o : Options) (x : Call * handled) : Prop :=
  let rq := call_request x.1 in
  (opens_session o rq (call_body x.1) = true ↔ ∃ r sid, x.2 = Answered r ∧ rs_session r = Some sid) ∧
  (rq_Method rq = "DELETE" → rq_session rq ≠ "" →
     x.2 = Answered (mkResponse (if session_open (rq_session rq) before then 200 else 404) None NoBody)).

Lemma session_deleted rq s s' sid : sid ≠ "" →
  (if (rq_Method rq =s "DELETE") && validSession s (rq_session rq)
   then sessions s' = delete (rq_session rq) (sessions s) else sessions s' = sessions s) →
  bool_decide (is_Some (sessions s' !! sid)) =
    bool_decide (is_Some (sessions s !! sid)) && negb ((rq_Method rq =s "DELETE") && (rq_session rq =s sid)).
Proof.
  intros Hsid. destruct (rq_Method rq =s "DELETE"); cbn [andb negb]; [|intros ->; by rewrite andb_true_r].
  destruct (rq_session rq =s sid) eqn:E.
  - apply streq_true in E. subst sid. unfold validSession. rewrite (proj2 (streq_false _ "") Hsid), andb_false_r. cbn [negb andb].
    case_bool_decide as Hv; intros ->; [by rewrite lookup_delete_eq, bool_decide_false by by intros [? ?]|].
    by apply bool_decide_false.
  - apply streq_false in E. rewrite andb_true_r. destruct (validSession _ _); intros ->; [by rewrite lookup_delete_ne|done].
Qed.

Lemma session_effect_step c s h s' : session_effect (call_request c) (call_body c) s h s' →
  ∀ sid, sid ≠ "" → validSession s' sid = session_step sid (validSession s sid) (c, h).
Proof.
  intros (_ & Hs & _) sid Hsid. unfold session_step, validSession. cbn [fst snd].
  rewrite (proj2 (streq_false sid "") Hsid). cbn [negb andb].
  destruct h as [[code [new|] b]|st]; [|by (destruct Hs as [_ Hs]; apply session_deleted).. ].
  destruct Hs as (_ & now & ->). destruct (new =s sid) eqn:E.
  - apply streq_true in E. subst. by rewrite lookup_insert_eq.
  - apply streq_false in E. by rewrite lookup_insert_ne.
Qed.

Lemma wp_serve calls : ∀ env tick s before,
  (∀ sid, sid ≠ "" → validSession s sid = session_open sid before) →
  wp (serve calls) env tick s (λ tr _ s', opts s' = opts s ∧ map fst tr = calls ∧
    (∀ sid, sid ≠ "" → validSession s' sid = session_open sid (before ++ tr)) ∧
    ∀ pre x post, tr = pre ++ x :: post → answers_sessions (before ++ pre) (opts s) x).
Proof.
  induction calls as [|c calls IH]; intros env tick s before Hs; cbn [serve]; wp_go.
  { split_and!; [done|done|by rewrite app_nil_r|]. by intros [|? ?]. }
  apply wp_handleProtocol. intros h k s1 Heff _ _. pose proof (session_effect_step c s h s1 Heff) as Hstep.
  assert (∀ sid, sid ≠ "" → validSession s1 sid = session_open sid (before ++ [(c, h)])) as Hs1.
  { intros sid Hsid. unfold session_open. rewrite foldl_app. cbn. rewrite (Hstep sid Hsid), (Hs sid Hsid). done. }
  rewrite wp_bind. eapply wp_mono; [by apply IH|]. cbn beta. intros tr t s' (Ho & Hc & Hv & Hx). wp_go.
  destruct Heff as (Ho1 & Hses & Hdel). split_and!; [congruence|cbn; by rewrite Hc| |].
  - intros sid Hsid. rewrite (Hv sid Hsid), <- app_assoc. done.
  - intros [|y pre] x post Heq; injection Heq as <- Htr; [|rewrite <- Ho1; replace (before ++ (c, h) :: pre) with ((before ++ [(c, h)]) ++ pre) by (by rewrite <- app_assoc); by eapply Hx].
    rewrite app_nil_r. split; cbn [fst snd].
    + destruct h as [[code [sid|] b]|st].
      * destruct Hses as [-> _]. split; [intros _; by eexists _, sid|done].
      * destruct Hses as [-> _]. split; [done|]. intros (r & sid & [= <-] & H). done.
      * destruct Hses as [-> _]. split; [done|]. by intros (r & sid & H & _).
    + intros Hd Hne. rewrite (Hdel Hd), (Hs _ Hne). done.
Qed.

(** C24: sessions are what the exchanges say. After any requests, a session is
    valid exactly when an answer handed it out and no DELETE has carried it since;
    an answer hands one out exactly when it answers a POST of [initialize] to a
    surface with HTTP on; and a DELETE is answered 200 when its session is open at
    that moment, 404 when not, whatever happened before. *)
Theorem sessions_follow_exchanges (env : Env) (tick : nat) (o : Options) (calls : list Call) :
  let trace := result (serve calls) env tick (NewServer o) in
  let s := state (serve calls) env tick (NewServer o) in
  map fst trace = calls ∧
  (∀ sid, sid ≠ "" → validSession s sid = session_open sid trace) ∧
  ∀ before x after, trace = before ++ x :: after → answers_sessions before (default_options o) x.
Proof.
  pose proof (wp_serve calls env tick (NewServer o) []) as H. rewrite wp_run in H.
  destruct H as (_ & Hc & Hv & Hx); [|done].
  intros sid Hsid. unfold validSession, NewServer. cbn. rewrite lookup_empty. by rewrite andb_false_r.
Qed.

(** ** The server probed by the program's own prober *)

(** The [rpcResponse] of this package and that of the prober name the same JSON
    fields; an absent result is read as null. *)
Definition on_wire (r : rpcReply) : rpcResponse := mkRpcResponse (out_ID r) (default JNull (out_Result r)) (out_Error r).

Definition exchange (proto : string) (rq : Request) (body : option rpcRequest) (env : Env) (at_ : nat * Server)
  : http_response + probe_error :=
  inl match result (handleProtocol proto rq body) env at_.1 at_.2 with
      | Answered r => mkHttpResponse (rs_status r) "application/json; charset=utf-8"
                        (match rs_body r with RPC rep => Some (on_wire rep) | _ => None end)
      | Opened _ => mkHttpResponse 200 "text/event-stream" None
      end.

Definition post_request (path : string) : Request := mkRequest "POST" path path "" "" "" true.

(** The network to the server's surface for a protocol: [at_] gives the server,
    and the time, each request finds. *)
Definition surface (proto path : string) (env : Env) (at_ : nat → nat * Server) : Network :=
  mkNetwork
    (exchange proto (mkRequest "GET" path path "" "" "" true) None env (at_ 0%nat))
    (λ i m, exchange proto (post_request path) (Some (mkRpcRequest (Some (1 + Z.of_nat i)) m)) env (at_ (2 * i)%nat))
    (λ i, exchange proto (post_request path) (Some (mkRpcRequest None "notifications/initialized")) env (at_ (2 * i + 1)%nat))
    None.

Lemma initialize_valid o proto :
  blank (Version o) = false → validateMCPInitializeResult (initialize_json o proto) = None.
Proof.
  intros Hv. unfold initialize_json.
  assert (blank (ServiceName o +:+ "-hosted-" +:+ proto) = false) as Hn.
  { apply (not_blank "h"); [done|]. rewrite !has_byte_app. cbn. by rewrite orb_true_r. }
  revert Hn. generalize (ServiceName o +:+ "-hosted-" +:+ proto). intros name Hn.
  unfold validateMCPInitializeResult.
  assert (∀ version, decode_init (JObject [
      ("capabilities", JObject [("resources", JObject [("listChanged", JBool false); ("subscribe", JBool false)]);
                                ("tools", JObject [("listChanged", JBool false)])]);
      ("protocolVersion", JString "2024-11-05");
      ("serverInfo", JObject [("name", JString name); ("version", JString version)])]) =
    Some (mkInit (Some "2024-11-05") true (Some (mkServerInfo (Some name) (Some version))))) as -> by reflexivity.
  cbn [protocolVersion capabilities init_serverInfo si_name si_version missing]. by rewrite Hn, Hv.
Qed.

Lemma default_version o : blank (Version (default_options o)) = false.
Proof. cbn. unfold or_blank. by destruct (blank (Version o)) eqn:E. Qed.

Lemma post_exchange proto path env tick s req :
  EnableHTTP (opts s) = true →
  ∃ resp, exchange proto (post_request path) (Some req) env (tick, s) = inl resp ∧
    if blank (in_Method req) then hr_status resp = 400
    else hr_status resp = 200 ∧ ∃ rep, hr_body resp = Some (on_wire rep) ∧
      (if served proto (in_Method req) then out_Error rep = None else is_Some (out_Error rep)) ∧
      (TrimSpace (in_Method req) = "initialize" → out_Result rep = Some (initialize_json (opts s) proto)).
Proof.
  intros Hh.
  enough (wp (handleProtocol proto (post_request path) (Some req)) env tick s (λ h _ _, ∃ r, h = Answered r ∧
    if blank (in_Method req) then rs_status r = 400
    else rs_status r = 200 ∧ ∃ rep, rs_body r = RPC rep ∧
      (if served proto (in_Method req) then out_Error rep = None else is_Some (out_Error rep)) ∧
      (TrimSpace (in_Method req) = "initialize" → out_Result rep = Some (initialize_json (opts s) proto)))) as H.
  { rewrite wp_run in H. destruct H as (r & Hr & H). unfold exchange. cbn [fst snd]. rewrite Hr.
    eexists. split; [done|]. cbn. destruct (blank _); [done|]. destruct H as (Hs & rep & -> & H).
    split; [done|]. by exists rep. }
  apply wp_handleProtocol. intros h k s' _ Hbad H. destruct (blank (in_Method req)) eqn:Hb.
  - by apply (Hbad req).
  - destruct (H req eq_refl Hh eq_refl Hb) as (sid & rep & -> & H1 & H2). eexists. split; [done|].
    split; [done|]. exists rep. split; [done|]. split; [|done]. destruct (served _ _); apply H1.
Qed.

Lemma surface_advertises name :
  advertises (Some [("resources", JObject [("listChanged", JBool false); ("subscribe", JBool false)]);
                    ("tools", JObject [("listChanged", JBool false)])]) name = true ↔ name ∈ ["resources"; "tools"].
Proof.
  unfold advertises. cbn [default field]. unfold id. cbn [find fst]. rewrite !elem_of_cons, elem_of_nil.
  destruct ("resources" =s name) eqn:E1; [apply streq_true in E1; subst; cbn; tauto|].
  destruct ("tools" =s name) eqn:E2; [apply streq_true in E2; subst; cbn; tauto|].
  cbn. apply streq_false in E1, E2. split; [done|]. intros [->|[->|?]]; done.
Qed.

Section Probing.
Context (o : Options) (proto path : string) (env : Env) (at_ : nat → nat * Server) (t : Target).
Context (Hopts : ∀ k, opts (at_ k).2 = default_options o) (Hhttp : EnableHTTP (default_options o) = true).

Lemma surface_call i m :
  ∃ resp, net_call (surface proto path env at_) i m = inl resp ∧
    if blank m then hr_status resp = 400
    else hr_status resp = 200 ∧ ∃ rep, hr_body resp = Some (on_wire rep) ∧
      (if served proto m then out_Error rep = None else is_Some (out_Error rep)) ∧
      (TrimSpace m = "initialize" → out_Result rep = Some (initialize_json (default_options o) proto)).
Proof.
  change (net_call (surface proto path env at_) i m) with
    (exchange proto (post_request path) (Some (mkRpcRequest (Some (1 + Z.of_nat i)) m)) env (at_ (2 * i)%nat)).
  rewrite <- (Hopts (2 * i)%nat) in Hhttp |- *. destruct (at_ (2 * i)%nat) as [k s]. by apply post_exchange.
Qed.

Lemma surface_notify i :
  ∃ resp, net_notify (surface proto path env at_) i = inl resp ∧ hr_status resp = 200.
Proof.
  change (net_notify (surface proto path env at_) i) with
    (exchange proto (post_request path) (Some (mkRpcRequest None "notifications/initialized")) env (at_ (2 * i + 1)%nat)).
  rewrite <- (Hopts (2 * i + 1)%nat) in Hhttp. destruct (at_ (2 * i + 1)%nat) as [k s].
  destruct (post_exchange proto path env k s (mkRpcRequest None "notifications/initialized") Hhttp) as (resp & Hr & H).
  assert (blank "notifications/initialized" = false) as Hb by (vm_compute; reflexivity). cbn [in_Method] in H. rewrite Hb in H.
  exists resp. split; [done|apply H].
Qed.

Lemma surface_answers i m : answers (surface proto path env at_) t i m ↔ blank m = false ∧ served proto m = true.
Proof.
  destruct (surface_call i m) as (resp & Hr & H). unfold answers. rewrite Hr. split.
  - intros (resp' & rpc & [= <-] & Hs & Hb & He & _). destruct (blank m); [by rewrite H in Hs|].
    split; [done|]. destruct H as (_ & rep & Hb' & Hsv & _). rewrite Hb' in Hb. injection Hb as <-.
    destruct (served proto m); [done|]. cbn in He. destruct Hsv as [? Hsv]. congruence.
  - intros [Hbl Hsv]. rewrite Hbl, Hsv in H. destruct H as (Hs & rep & Hb & He & Hi).
    exists resp, (on_wire rep). rewrite Hs. split_and!; [done..|]. intros -> _. split.
    + cbn. rewrite (Hi eq_refl). cbn. apply initialize_valid, default_version.
    + destruct (surface_notify i) as (n & Hn & Hns). exists n. by rewrite Hns.
Qed.

Lemma surface_caps i : caps_of (surface proto path env at_) i =
  Some [("resources", JObject [("listChanged", JBool false); ("subscribe", JBool false)]);
        ("tools", JObject [("listChanged", JBool false)])].
Proof.
  destruct (surface_call i "initialize") as (resp & Hr & H). unfold caps_of. rewrite Hr.
  destruct H as (_ & rep & -> & _ & Hi). cbn. rewrite (Hi eq_refl). reflexivity.
Qed.

Lemma surface_reachable ms : ∀ i p, ∃ p', http_methods_loop (surface proto path env at_) t i ms p = inl p'.
Proof.
  induction ms as [|m ms IH]; intros i p; cbn [http_methods_loop]; [by exists p|].
  destruct (http_method _ t i m p) as [q|q|e] eqn:E; [apply IH|by exists q|]. exfalso. revert E.
  unfold http_method. destruct (surface_call i m) as (resp & -> & _). destruct (surface_notify i) as (n & -> & _).
  repeat case_match; congruence.
Qed.
End Probing.

(** The families a surface advertises. *)
Definition advertised_families : list string := ["resources"; "tools"].

(** C25: the program finds its own surface healthy. Whenever the hosted server has
    HTTP on, the HTTP prober's handshake against the surface of a protocol, with
    any other requests served before and between, comes to an answer; it is
    healthy exactly when there are methods to exercise, the surface serves each of
    them, and every capability the target declares is of a family the surface
    advertises, an [initialize] being among the methods; it is unhealthy only when
    the first method is not served. *)
Theorem own_surface_healthy (o : Options) (proto path : string) (env : Env) (at_ : nat → nat * Server)
    (t : Target) (env' : Env) (tick : nat)
    (Hopts : ∀ k, opts (at_ k).2 = default_options o) (Hhttp : EnableHTTP (default_options o) = true) :
  let methods := httpHandshakeMethods t in
  ∃ r, result (probeJSONRPCHandshakeHTTP (surface proto path env at_) t) env' tick tt = inl r ∧
    (cr_State r = StateHealthy ↔
       methods ≠ [] ∧ (∀ m, m ∈ methods → blank m = false ∧ served proto m = true) ∧
       ∀ want, want ∈ MinCapabilities (tgt_Expected t) → family want ≠ "" →
         "initialize" ∈ methods ∧ family want ∈ advertised_families) ∧
    (cr_State r = StateUnhealthy → ∀ m, head methods = Some m → blank m = true ∨ served proto m = false).
Proof.
  intros methods. set (net := surface proto path env at_).
  destruct (surface_reachable o proto path env at_ t Hopts Hhttp methods 0 noProgress) as (p & Hp).
  unfold probeJSONRPCHandshakeHTTP, result, mbind, M_bind, clock. fold net in Hp. fold methods. rewrite Hp. cbn.
  eexists. split; [done|].
  destruct (classify_loop net t p (TimeSub (env_clock env' (S tick)) (env_clock env' tick)) (env_clock env' (S (S tick))) Hp) as [Hh Hu].
  fold methods in Hh, Hu.
  assert (∀ i m, answers net t i m ↔ blank m = false ∧ served proto m = true) as Ha by by apply (surface_answers o).
  split.
  - rewrite Hh. clear Hh Hu. split; (intros (Hne & Hall & Hcaps); split; [done|]; split).
    + intros m [j Hj]%list_elem_of_lookup_1. by eapply Ha, Hall.
    + intros want Hw Hf. destruct (Hcaps want Hw Hf) as (j & Hj & Hadv).
      rewrite (surface_caps o proto path env at_ Hopts Hhttp), surface_advertises in Hadv.
      split; [by eapply list_elem_of_lookup_2|done].
    + intros j m Hj. apply Ha, Hall. by eapply list_elem_of_lookup_2.
    + intros want Hw Hf. destruct (Hcaps want Hw Hf) as ([j Hj]%list_elem_of_lookup_1 & Hadv). exists j. split; [done|].
      by rewrite (surface_caps o proto path env at_ Hopts Hhttp), surface_advertises.
  - intros Hs m Hm. destruct Hu as [Hu|[Hu|[_ Hu]]]; [rewrite Hs in Hu; discriminate..|].
    assert (methods !! 0%nat = Some m) as H0 by (by destruct methods; cbn in Hm |- *).
    specialize (Hu m H0). rewrite Ha in Hu.
    change (blank m = true ∨ served proto m = false). destruct (blank m); [by left|right]. destruct (served proto m); [|done]. exfalso. by apply Hu.
Qed.

Lemma own_surface_healthy_witness :
  let o := mkOptions "" "" "" true true true true true "" "" "" 0 in
  let target proto profile caps := mkTarget "self" true proto "" "http://localhost:8091/mcp" "http" ""
    (mkExpected [] caps 0 "") (mkAuthConfig "" "" "" "" "" "" "" "" [] "") (mkStdio "" [] ∅ "")
    (mkCheckPolicy 1 1 0 profile [] []) ∅ ∅ ∅ in
  let server (k : nat) := (k, NewServer o) in
  (∀ k, opts (server k).2 = default_options o) ∧
  (∃ r, result (probeJSONRPCHandshakeHTTP (surface "mcp" "/mcp" (frozen 0 "n") server)
          (target "mcp" "strict" ["tools/list"])) (frozen 0 "n") 0 tt = inl r ∧ cr_State r = StateHealthy) ∧
  (∃ r, result (probeJSONRPCHandshakeHTTP (surface "acp" "/acp" (frozen 0 "n") server)
          (target "acp" "strict" [])) (frozen 0 "n") 0 tt = inl r ∧ cr_State r = StateHealthy).
Proof.
  intros o target server. assert (∀ k, opts (server k).2 = default_options o) as Ho by done.
  assert (∀ proto profile caps path, 
    (let methods := httpHandshakeMethods (target proto profile caps) in
     forallb (λ m, negb (blank m) && served proto m) methods && mem "initialize" methods
     && forallb (λ w, mem (family w) advertised_families) caps) = true →
    ∃ r, result (probeJSONRPCHandshakeHTTP (surface proto path (frozen 0 "n") server) (target proto profile caps))
           (frozen 0 "n") 0 tt = inl r ∧ cr_State r = StateHealthy) as H.
  { intros proto profile caps path Hok. cbv zeta in Hok. rewrite !andb_true_iff, !forallb_forall, mem_true in Hok.
    destruct Hok as [[Hm Hi] Hc].
    destruct (own_surface_healthy o proto path (frozen 0 "n") server (target proto profile caps) (frozen 0 "n") 0 Ho eq_refl)
      as (r & Hr & Hh & _). exists r. split; [exact Hr|]. apply Hh. split; [intros E; rewrite E in Hi; by apply elem_of_nil in Hi|]. split.
    - intros m Hin. specialize (Hm m (proj1 (list_elem_of_In _ _) Hin)). apply andb_true_iff in Hm as [Hb Hs].
      split; [by apply negb_true_iff|done].
    - intros want Hin _. split; [done|]. apply mem_true, Hc. by apply list_elem_of_In. }
  split; [exact Ho|]. split; apply H; vm_compute; reflexivity.
Defined.

(** ** Counters and recent events *)

(** What the ring of events keeps of a log. *)
Definition window (log : list HostedEvent) : list HostedEvent := drop (length log - 256) log.
Definition holds (log : list HostedEvent) (s : Server) : Prop := maxEvents s = 256 ∧ events s = window log.

Lemma appendEvent_holds ev log env tick s : holds log s → holds (log ++ [ev]) (state (appendEvent ev) env tick s).
Proof.
  intros [Hm He]. unfold appendEvent, modify, state, holds. cbn [snd maxEvents events].
  rewrite Hm. change (256 <=? 0) with false. cbn iota. split; [done|]. rewrite He. unfold window.
  rewrite length_drop, length_app. cbn [length]. case_match eqn:E; go_bools.
  - replace (length log - 256)%nat with 0%nat by lia. replace (length log + 1 - 256)%nat with 0%nat by lia. by rewrite !drop_0.
  - destruct (drop (length log - 256) log) as [|x rest] eqn:Ed.
    { apply (f_equal length) in Ed. rewrite length_drop in Ed. cbn in Ed. lia. }
    replace (length log + 1 - 256)%nat with (S (length log - 256)) by lia.
    rewrite drop_app_le by lia. f_equal. rewrite <- Nat.add_1_r, <- drop_drop, Ed. done.
Qed.

Definition ring (s : Server) : Z * list HostedEvent := (maxEvents s, events s).
Lemma holds_ring log s s' : ring s' = ring s → holds log s → holds log s'.
Proof. unfold ring, holds. by intros [= -> ->]. Qed.

Lemma wp_log proto transport rq outcome detail env tick s log (Q : unit → nat → Server → Prop) :
  holds log s → (∀ now k s', holds (log ++ [mkEvent now proto transport (rq_Method rq) (rq_URI rq) outcome detail]) s' →
    counters s' = counters s → Q tt k s') → wp (log_event proto transport rq outcome detail) env tick s Q.
Proof. intros Hl HQ. unfold log_event. wp_go. eapply HQ; [by apply (appendEvent_holds _ _ env tick)|done]. Qed.

Definition of_request (proto : string) (rq : Request) (e : HostedEvent) : Prop :=
  ev_Protocol e = proto ∧ ev_Method e = rq_Method rq ∧ ev_Path e = rq_URI rq.

#[local] Opaque log_event.
(** The answer to a request adds at most one event, about the request. *)
Lemma wp_answer_logs proto rq body env tick s log (Q : handled → nat → Server → Prop) :
  holds log s → (∀ h k s' seg, holds (log ++ seg) s' → (length seg <= 1)%nat → Forall (of_request proto rq) seg →
    counters s' = counters s → Q h k s') → wp (answer_request proto rq body) env tick s Q.
Proof.
  intros Hl HQ.
  assert (∀ h k s', ring s' = ring s → counters s' = counters s → Q h k s') as Hnone.
  { intros h k s' Hr Hc. apply (HQ h k s' []); [rewrite app_nil_r; by eapply holds_ring|cbn; lia|constructor|done]. }
  assert (∀ transport outcome detail now h k s',
    holds (log ++ [mkEvent now proto transport (rq_Method rq) (rq_URI rq) outcome detail]) s' → counters s' = counters s → Q h k s') as Hone.
  { intros ? ? ? ? h k s' H Hc. eapply HQ; [exact H|cbn; lia| |done]. by repeat constructor. }
  unfold answer_request. wp_go. destruct (_ && wantsSSE rq).
  { unfold handleSSE_open. repeat case_match; wp_go; apply (wp_log _ _ _ _ _ _ _ _ log); try done; intros; wp_go; by eapply Hone. }
  destruct (_ =s "POST").
  { case_match; wp_go; [apply (wp_log _ _ _ _ _ _ _ _ log); [done|]; intros; wp_go; by eapply Hone|].
    unfold handleJSONRPC. destruct body as [req|]; [|wp_go; by apply Hnone]. destruct (blank _); [wp_go; by apply Hnone|].
    rewrite wp_bind. apply wp_dispatchRPC. intros rep k _ _ _. rewrite wp_bind.
    assert (∀ now transport outcome detail k' s', holds (log ++ [mkEvent now proto transport (rq_Method rq) (rq_URI rq) outcome detail]) s' →
      counters s' = counters s →
      wp (sid ← (if (in_Method req =s "initialize") && bool_decide (out_Error rep = None)
               then sid ← createSession; mret (Some sid) else mret None);
          mret (mkResponse 200 sid (RPC rep))) env k' s' (λ a t s, wp (mret (Answered a)) env t s Q)) as Hrest.
    { intros. case_match; unfold createSession; wp_go; by eapply Hone. }
    destruct (out_Error rep) as [[? ?]|] eqn:E; rewrite ?E in Hrest; (apply (wp_log _ _ _ _ _ _ _ _ log); [done|]; intros; by eapply Hrest). }
  destruct (_ =s "DELETE"); [case_match; wp_go; by apply Hnone|].
  rewrite wp_bind. apply (wp_log _ _ _ _ _ _ _ _ log); [done|]. intros. wp_go. by eapply Hone.
Qed.
#[local] Transparent log_event.

Definition tally (f : Call → bool) (calls : list Call) : Z := Z.of_nat (length (filter (λ c, f c = true) calls)).
Definition normal_proto (c : Call) : string := ToLower (TrimSpace (call_proto c)).

(** The counters after these calls. *)
Definition counted (c0 : HostedCounters) (calls : list Call) : HostedCounters :=
  mkCounters (ct_Total c0 + Z.of_nat (length calls))
    (ct_MCP c0 + tally (λ c, normal_proto c =s "mcp") calls) (ct_ACP c0 + tally (λ c, normal_proto c =s "acp") calls)
    (ct_A2A c0 + tally (λ c, normal_proto c =s "a2a") calls)
    (ct_SSE c0 + tally (λ c, wantsSSE (call_request c)) calls)
    (ct_HTTP c0 + tally (λ c, negb (wantsSSE (call_request c))) calls).

Lemma tally_cons f c calls : tally f (c :: calls) = (if f c then 1 else 0) + tally f calls.
Proof. unfold tally. rewrite filter_cons. destruct (f c); [rewrite decide_True by done|rewrite decide_False by done]; cbn [length]; lia. Qed.

Lemma tally_nil f : tally f [] = 0.
Proof. done. Qed.

Lemma counted_cons c0 c calls : counted (counted c0 [c]) calls = counted c0 (c :: calls).
Proof.
  unfold counted. cbn [ct_Total ct_MCP ct_ACP ct_A2A ct_SSE ct_HTTP]. rewrite !tally_cons, !tally_nil.
  cbn [length]. f_equal; lia.
Qed.

Definition received (c : Call) (now : Time) : HostedEvent :=
  mkEvent now (call_proto c) (if wantsSSE (call_request c) then "sse" else "http") (rq_Method (call_request c))
    (rq_URI (call_request c)) "received" "".

Lemma wp_receive c env tick s log (Q : unit → nat → Server → Prop) :
  holds log s → (∀ now k s', holds (log ++ [received c now]) s' → counters s' = counted (counters s) [c] → Q tt k s') →
  wp (receive_request (call_proto c) (call_request c)) env tick s Q.
Proof.
  intros Hl HQ. unfold receive_request, count, incrementProtocolCounter. cbv zeta. fold (normal_proto c).
  assert (∀ c1 now k s', counters s' = c1 → holds (log ++ [received c now]) s' → c1 = counted (counters s) [c] → Q tt k s') as HQ'.
  { intros ? now k s' <- Hh Hc. by eapply HQ. }
  unfold counted in HQ'. rewrite !tally_cons, !tally_nil in HQ'. unfold received in HQ'.
  assert (∀ a b, (normal_proto c =s a) = true → a ≠ b → (normal_proto c =s b) = false) as Hx.
  { intros a b ->%streq_true Hab. by apply streq_false. }
  destruct (normal_proto c =s "mcp") eqn:E1; [|destruct (normal_proto c =s "acp") eqn:E2; [|destruct (normal_proto c =s "a2a") eqn:E3]];
    unfold count; wp_go; destruct (wantsSSE (call_request c)) eqn:Ew; wp_go;
    (eapply wp_log; [exact Hl|]; intros now k s' Hh Hc; eapply HQ'; [exact Hc|exact Hh|]);
    repeat match goal with E : (normal_proto c =s ?a) = true |- context [normal_proto c =s ?b] => rewrite (Hx a b E) by done end;
    destruct (counters s); cbn; f_equal; lia.
Qed.

Lemma wp_serve_counts calls : ∀ env tick s log, holds log s →
  wp (serve calls) env tick s (λ _ _ s', counters s' = counted (counters s) calls ∧
    ∃ segs, holds (log ++ concat segs) s' ∧
      Forall2 (λ c seg, (∃ now rest, seg = received c now :: rest ∧ (length rest <= 1)%nat) ∧
                        Forall (of_request (call_proto c) (call_request c)) seg) calls segs).
Proof.
  induction calls as [|c calls IH]; intros env tick s log Hl; cbn [serve].
  { rewrite wp_ret. split; [by destruct (counters s); unfold counted; rewrite !tally_nil; cbn; f_equal; lia|].
    exists []. cbn. by rewrite app_nil_r. }
  unfold handleProtocol. rewrite !wp_bind. apply (wp_receive c _ _ _ log); [exact Hl|]. intros now k s1 Hl1 Hc1.
  eapply wp_answer_logs; [exact Hl1|]. intros h k2 s2 seg Hl2 Hlen Hreq Hc2. rewrite wp_bind.
  eapply wp_mono; [by apply IH|]. cbn beta. intros tr k3 s3 (Hc3 & segs & Hl3 & Hf). rewrite wp_ret. split.
  - by rewrite Hc3, Hc2, Hc1, counted_cons.
  - exists ((received c now :: seg) :: segs). split; [by rewrite <- !app_assoc in Hl3|]. constructor; [|done].
    split; [by exists now, seg|]. by constructor.
Qed.


(** ** Examples *)

Definition counting_clock : Env := mkEnv (λ n, Z.of_nat n) (λ _, "n").

(** The event of a stream's end carries the time of its beginning: the argument
    of the deferred call is evaluated when the stream opens. *)
Example disconnected_dated_at_connection :
  let rq := mkRequest "GET" "/mcp" "/mcp" "text/event-stream" "" "" true in
  let m := handleProtocol "mcp" rq None in
  match result m counting_clock 0 (NewServer ex_options) with
  | Opened st =>
      let s := state (handleSSE_close st) counting_clock 1000 (state m counting_clock 0 (NewServer ex_options)) in
      map (λ e, (ev_Outcome e, ev_Time e)) (events s)
  | _ => []
  end = [("received", 0); ("connected", 1); ("disconnected", 2)].
Proof. vm_compute. reflexivity. Qed.

(** The dispatcher trims the method and the session check does not: a padded
    [initialize] is answered but no session is started. *)
Example padded_initialize_has_no_session :
  match result (handleProtocol "mcp" (post_request "/mcp") (Some (mkRpcRequest (Some 1) " initialize")))
          counting_clock 0 (NewServer (mkOptions "" "" "" true true true true true "" "" "" 0)) with
  | Answered r => (rs_status r, rs_session r, match rs_body r with RPC rep => bool_decide (is_Some (out_Result rep)) | _ => false end)
  | _ => (0, None, false)
  end = (200, None, true).
Proof. vm_compute. reflexivity. Qed.

(** A POST of a client that accepts both JSON and streams, as the protocol asks of
    it, is counted as a stream. *)
Example post_counted_as_stream :
  let rq := mkRequest "POST" "/mcp" "/mcp" "application/json, text/event-stream" "" "" true in
  let s := state (handleProtocol "mcp" rq (Some (mkRpcRequest (Some 1) "ping")))
             counting_clock 0 (NewServer (mkOptions "" "" "" true true true true true "" "" "" 0)) in
  (ct_SSE (counters s), ct_HTTP (counters s), map ev_Transport (events s)) = (1, 0, ["sse"; "http"]).
Proof. vm_compute. reflexivity. Qed.
