(* ===== verification/ServerManager.v ===== *)
(** * MCP server manager ([internal/engine/mcp_server_manager.go])

    Which MCP servers can be trusted: the honeypot routes of their tools
    ([ToolProxy]), what the suspicious calls cost ([Faults]) and the distance an
    agent of the [isotope] module has come. The agent is an interface: a class
    with its operations and the law the documents of the module state for it. A
    call of a tool is one program, although the code leaves its mutex between
    reading the maps and marking an attack; the lock of the ranking is a step
    relation of its own. *)

From Stdlib Require Import ZArith Lia Ascii.
From stdpp Require Import base tactics strings gmap relations sorting.
From stdpp Require Import list.
From S2P Require Import Prelude RouteSchedule ToolProxy Targets Faults.

Open Scope Z_scope.

(** ** The agent *)

(** [isotope.MCPFailureEvent], as this package fills it in. *)
Record agentEvent := mkAgentEvent {
  ae_FailureType : string;
  ae_ServerID : string;
  ae_ToolName : string;
  ae_MethodName : string;
  ae_DistanceWeight : Z;
  ae_Direction : string;
  ae_Severity : Z;
  ae_ErrorMessage : string;
  ae_Recoverable : bool;
}.

(** [isotope.AgentState] *)
Class AgentState (A : Type) := {
  NewAgentState : string → A;
  RecordMCPFailure : agentEvent → A → A;
  TotalDistance : A → Z;
  agent_Rung : A → Z;
  agent_Direction : A → string;
}.

(** A new agent has come no distance, and a failure adds its weight. *)
Class AgentLaws (A : Type) `{AgentState A} := {
  distance_new id : TotalDistance (NewAgentState id) = 0;
  distance_record e a : TotalDistance (RecordMCPFailure e a) = TotalDistance a + ae_DistanceWeight e;
}.

(** ** The manager *)

Definition mapSuspicionToFailureType (suspicion : string) : MCPFailureType :=
  if suspicion =s "direct-call-to-tool-bypasses-proxy" then ToolNotFoundFailure
  else if suspicion =s "fuzzed-or-wrong-prefix" then TimeoutFailure
  else if suspicion =s "unprefixed-malformed" then CorruptedResponseFailure
  else if mem suspicion ["stale-route-epoch"; "ahead-route-epoch"; "burned-skill-route"; "skill-route-mismatch"]
  then StaleRouteFailure
  else if suspicion =s "unknown-tool" then CapabilityMismatchFailure
  else if suspicion =s "unknown-server" then CapabilityMismatchFailure
  else TimeoutFailure.

Record ServerMCPHealth := mkServerHealth {
  mh_ServerID : string;
  mh_Status : string;
  mh_Distance42i : Z;
  mh_Rung : Z;
  mh_Direction : string;
  mh_IsCompromised : bool;
  mh_UnderAttack : bool;
  mh_SuspiciousCallCnt : Z;
  mh_ToolsUnderAttack : list string;
  mh_LastUpdated : Time;
}.
Definition ServerMCPHealth_String (h : ServerMCPHealth) : string :=
  mh_ServerID h +:+ " [" +:+ mh_Status h +:+ "]: distance=" +:+ Itoa (mh_Distance42i h) +:+ ", rung="
  +:+ Itoa (mh_Rung h) +:+ ", suspicious=" +:+ Itoa (mh_SuspiciousCallCnt h) +:+ ", direction=" +:+ mh_Direction h
  +:+ ", tools_attacked=" +:+ Itoa (Z.of_nat (length (mh_ToolsUnderAttack h))).

(** [if ranking[j].Distance42i < ranking[i].Distance42i { swap }] for [j] from
    [i + 1]: what is at [i] afterwards, and what follows it. *)
Fixpoint exchange_pass (x : ServerMCPHealth) (rest : list ServerMCPHealth) : ServerMCPHealth * list ServerMCPHealth :=
  match rest with
  | [] => (x, [])
  | y :: rest =>
      let '(x, y) := if mh_Distance42i y <? mh_Distance42i x then (y, x) else (x, y) in
      let '(x, rest) := exchange_pass x rest in (x, y :: rest)
  end.
Fixpoint exchange_sort (n : nat) (l : list ServerMCPHealth) : list ServerMCPHealth :=
  match n, l with
  | S n, x :: rest => let '(x, rest) := exchange_pass x rest in x :: exchange_sort n rest
  | _, _ => l
  end.

Definition no_cluster : ToolProxyCluster := mkCluster ∅ 0 false [] 0.

Section Manager.
Context {A : Type} {agent_ops : AgentState A}.

Record MCPServerManager := mkManager {
  serverAgents : gmap string A;
  toolProxies : gmap string ToolProxyCluster;
  attackedServers : gmap string bool;
  evictionThreshold : Z;
  mgr_honeypotMode : bool;
}.

Definition NewMCPServerManager (honeypotMode : bool) : MCPServerManager := mkManager ∅ ∅ ∅ 60 honeypotMode.

(** Run a method of a server's cluster. *)
Definition on_cluster {B} (serverID : string) (m : M ToolProxyCluster B) : M MCPServerManager B :=
  zoom (λ mgr, default no_cluster (toolProxies mgr !! serverID))
       (λ c mgr, {| mgr with toolProxies := <[serverID := c]> (toolProxies mgr) |}) m.

Definition RegisterMCPServer (serverID : string) (toolNames : list string) : M MCPServerManager unit :=
  _ ← modify (λ mgr, {| mgr with serverAgents := <[serverID := NewAgentState serverID]> (serverAgents mgr) |});
  mgr ← get;
  on_cluster serverID (NewToolProxyCluster toolNames (mgr_honeypotMode mgr)).

Definition failure_event (suspicion serverID toolName : string) : agentEvent :=
  let mode := GetFailureMode (mapSuspicionToFailureType suspicion) in
  mkAgentEvent suspicion serverID toolName "tools/call" (DistanceWeight mode) (fm_Direction mode) (fm_Severity mode)
    (fm_Description mode) (Recoverable mode).

(** Whether the prefix was right, the suspicion, whether to reject the call, and
    the metrics of the tool. *)
Record verdict := mkCallVerdict {
  v_correct : bool;
  v_suspicion : string;
  v_reject : bool;
  v_metrics : ToolProxyMetrics;
}.

Definition Manager_ValidateToolCall (serverID toolName callName : string) : M MCPServerManager verdict :=
  mgr ← get;
  match toolProxies mgr !! serverID, serverAgents mgr !! serverID with
  | Some _, Some agent =>
      r ← on_cluster serverID (ValidateToolCall toolName callName);
      let '(hasCorrect, suspicion, metrics) := r in
      _ ← (if hasCorrect : bool then mret tt
           else modify (λ mgr, {| mgr with serverAgents :=
                  <[serverID := RecordMCPFailure (failure_event suspicion serverID toolName) agent]> (serverAgents mgr) |}));
      let shouldReject := TotalInvalid metrics >? 3 in
      _ ← (if shouldReject
           then modify (λ mgr, {| mgr with attackedServers := <[serverID := true]> (attackedServers mgr) |})
           else mret tt);
      mret (mkCallVerdict hasCorrect suspicion shouldReject metrics)
  | _, _ => mret (mkCallVerdict false "unknown-server" true {| noMetrics with tpm_ToolName := toolName; Distance42i := 32 |})
  end.

Definition attacked (mgr : MCPServerManager) (serverID : string) : bool := default false (attackedServers mgr !! serverID).

Definition GetServerHealth (serverID : string) : M MCPServerManager ServerMCPHealth :=
  mgr ← get;
  match serverAgents mgr !! serverID, toolProxies mgr !! serverID with
  | Some agent, Some cluster =>
      let metrics := GetClusterMetrics cluster in
      let isCompromised := TotalDistance agent >? evictionThreshold mgr in
      let underAttack := attacked mgr serverID || chm_AttackDetected metrics in
      let status := if underAttack then "under-attack" else if isCompromised then "compromised"
                    else if TotalDistance agent >? 0 then "degraded" else "healthy" in
      now ← clock;
      mret (mkServerHealth serverID status (TotalDistance agent) (agent_Rung agent) (agent_Direction agent)
              isCompromised underAttack (chm_TotalInvalidCalls metrics) (chm_SuspiciousTools metrics) now)
  | _, _ => mret (mkServerHealth serverID "unknown" 0 0 "" false false 0 [] zeroTime)
  end.

Fixpoint healths (ids : list string) : M MCPServerManager (list ServerMCPHealth) :=
  match ids with
  | [] => mret []
  | id :: ids => h ← GetServerHealth id; hs ← healths ids; mret (h :: hs)
  end.

(** [order] is the one in which the code ranges over the agents. *)
Definition GetServerRanking (order : list string) : M MCPServerManager (list ServerMCPHealth) :=
  ranking ← healths order;
  mret (exchange_sort (length ranking) ranking).

(** [%v] of a list of strings. *)
Definition list_v (l : list string) : string := "[" +:+ Join l " " +:+ "]".

Definition ShouldEvictServer (serverID : string) : M MCPServerManager (bool * string) :=
  mgr ← get;
  health ← GetServerHealth serverID;
  mret (if mh_UnderAttack health then
          (true, "under-attack: " +:+ Itoa (mh_SuspiciousCallCnt health) +:+ " suspicious calls detected")
        else if mh_IsCompromised health then
          (true, "compromised: 42i_distance=" +:+ Itoa (mh_Distance42i health) +:+ " (threshold="
                 +:+ Itoa (evictionThreshold mgr) +:+ ")")
        else match mh_ToolsUnderAttack health with
             | [] => (false, "")
             | tools => (true, "byzantine-behavior: tools under attack: " +:+ list_v tools)
             end).

Definition HealthToTargetState (serverID : string) : M MCPServerManager HealthState :=
  health ← GetServerHealth serverID;
  let s := mh_Status health in
  mret (if mem s ["under-attack"; "compromised"] then StateOutage
        else if s =s "degraded" then StateDegraded
        else if s =s "healthy" then StateHealthy else StateUnknown).

(** ** Calls of tools *)

Record ToolCall := mkToolCall { call_server : string; call_tool : string; call_name : string }.

Fixpoint handle (calls : list ToolCall) : M MCPServerManager (list (ToolCall * verdict)) :=
  match calls with
  | [] => mret []
  | c :: calls =>
      v ← Manager_ValidateToolCall (call_server c) (call_tool c) (call_name c);
      rest ← handle calls;
      mret ((c, v) :: rest)
  end.

(** What the calls to a server cost it, and whether one of them was rejected. *)
Definition cost (v : verdict) : Z :=
  if v_correct v then 0 else DistanceWeight (GetFailureMode (mapSuspicionToFailureType (v_suspicion v))).
Definition total_cost (s : string) (trace : list (ToolCall * verdict)) : Z :=
  sumZ (map (λ x, if call_server x.1 =s s then cost x.2 else 0) trace).
Definition rejected (s : string) (trace : list (ToolCall * verdict)) : bool :=
  existsb (λ x, (call_server x.1 =s s) && v_reject x.2) trace.

Lemma wp_cluster_call tool call env tick c (Q : bool * string * ToolProxyMetrics → nat → ToolProxyCluster → Prop) :
  (∀ ok suspicion metrics k c', let hit := TotalInvalid metrics >? 3 in
     (ok = true → hit = false) → AttackDetected c' = AttackDetected c || hit →
     SuspiciousTools c' = SuspiciousTools c ++ (if hit then [tool] else []) → Q (ok, suspicion, metrics) k c') →
  wp (ValidateToolCall tool call) env tick c Q.
Proof.
  intros HQ. unfold ValidateToolCall. wp_go. destruct (Proxies c !! tool) as [proxy|]; wp_go.
  2:{ apply HQ; cbn; [done|by rewrite orb_false_r|by rewrite app_nil_r]. }
  rewrite wp_on_proxy. apply wp_intro. intros [ok reason] k proxy'. wp_go. cbn [fst snd Proxies].
  rewrite lookup_insert_eq. cbn [default]. unfold id. unfold cluster_record. cbv zeta.
  destruct ok; cbn [negb andb]; apply HQ; cbn [AttackDetected SuspiciousTools].
  - done.
  - cbn. by rewrite orb_false_r.
  - cbn. by rewrite app_nil_r.
  - done.
  - change (TotalInvalid (GetInvalidCallMetrics proxy')) with (InvalidCount proxy').
    destruct (_ >? 3); [by rewrite orb_true_r|by rewrite orb_false_r].
  - change (TotalInvalid (GetInvalidCallMetrics proxy')) with (InvalidCount proxy').
    destruct (_ >? 3); [done|by rewrite app_nil_r].
Qed.

(** A registered server: the distance its agent has come, and whether it is known
    to be attacked. *)
Definition accounts (mgr : MCPServerManager) (s : string) (d : Z) (r : bool) : Prop :=
  ∃ a c, serverAgents mgr !! s = Some a ∧ toolProxies mgr !! s = Some c ∧ TotalDistance a = d ∧
    attacked mgr s = r ∧ AttackDetected c = r ∧ (SuspiciousTools c = [] ↔ r = false).

Context `{!AgentLaws A}.

Definition charged (x : ToolCall * verdict) (s : string) (d : Z) : Z := d + if call_server x.1 =s s then cost x.2 else 0.
Definition flagged (x : ToolCall * verdict) (s : string) (r : bool) : bool := r || ((call_server x.1 =s s) && v_reject x.2).

Lemma wp_call c env tick mgr s d r (Q : verdict → nat → MCPServerManager → Prop) :
  accounts mgr s d r →
  (∀ v k mgr', accounts mgr' s (charged (c, v) s d) (flagged (c, v) s r) →
     evictionThreshold mgr' = evictionThreshold mgr → (v_correct v = true → v_reject v = false) → Q v k mgr') →
  wp (Manager_ValidateToolCall (call_server c) (call_tool c) (call_name c)) env tick mgr Q.
Proof.
  intros Hacc HQ. unfold Manager_ValidateToolCall. wp_go. set (srv := call_server c) in *.
  assert (∀ v k mgr', srv ≠ s → serverAgents mgr' !! s = serverAgents mgr !! s →
    toolProxies mgr' !! s = toolProxies mgr !! s → attackedServers mgr' !! s = attackedServers mgr !! s →
    evictionThreshold mgr' = evictionThreshold mgr → (v_correct v = true → v_reject v = false) → Q v k mgr') as Hother.
  { intros v k mgr' Hne Ha Hp Hat Ht Hv. apply HQ; [|done|done]. unfold charged, flagged. cbn [fst snd].
    fold srv. rewrite (proj2 (streq_false srv s)) by done. cbn [andb]. rewrite Z.add_0_r, orb_false_r.
    destruct Hacc as (a & cl & H1 & H2 & H3 & H4 & H5). exists a, cl. unfold attacked. by rewrite Ha, Hp, Hat. }
  destruct (toolProxies mgr !! srv) as [cl|] eqn:Hcl.
  2:{ wp_go. apply Hother; [|done..]. intros ->. destruct Hacc as (? & ? & _ & ? & _). congruence. }
  destruct (serverAgents mgr !! srv) as [a|] eqn:Ha.
  2:{ wp_go. apply Hother; [|done..]. intros ->. destruct Hacc as (? & ? & ? & _). congruence. }
  wp_go. unfold on_cluster. rewrite wp_zoom, Hcl. cbn [default]. unfold id. apply wp_cluster_call.
  intros ok suspicion metrics k cl'. cbv zeta. intros Hok Hatt Hsus. wp_go.
  destruct (decide (srv = s)) as [Heq|Hne].
  - destruct Hacc as (a' & c' & H1 & H2 & H3 & H4 & H5 & H6). rewrite <- Heq in *. rewrite Ha in H1. rewrite Hcl in H2.
    injection H1 as <-. injection H2 as <-.
    assert (∀ a2 at2 k2, TotalDistance a2 = charged (c, mkCallVerdict ok suspicion (TotalInvalid metrics >? 3) metrics) srv d →
      default false (at2 !! srv) = attacked mgr srv || (TotalInvalid metrics >? 3) →
      Q (mkCallVerdict ok suspicion (TotalInvalid metrics >? 3) metrics) k2
        (mkManager (<[srv := a2]> (serverAgents mgr)) (<[srv := cl']> (toolProxies mgr)) at2 (evictionThreshold mgr) (mgr_honeypotMode mgr))) as Hfin.
    { intros a2 at2 k2 Hd Hat. apply HQ; [|done|done]. exists a2, cl'. cbn [serverAgents toolProxies].
      unfold attacked at 1, flagged. cbn [fst snd v_reject attackedServers]. fold srv. rewrite !lookup_insert_eq, streq_refl. cbn [andb].
      split_and!; [done|done|done|congruence|congruence|]. rewrite Hsus. destruct (_ >? 3); cbn [orb].
      - rewrite orb_true_r. split; [by destruct (SuspiciousTools cl)|done].
      - by rewrite orb_false_r, app_nil_r. }
    assert (<[srv := a]> (serverAgents mgr) = serverAgents mgr) as Hid by by apply insert_id.
    unfold charged, cost in Hfin. cbn [fst snd v_correct v_suspicion] in Hfin. fold srv in Hfin. rewrite streq_refl in Hfin.
    destruct ok; wp_go.
    + rewrite (Hok eq_refl) in *. wp_go. specialize (Hfin a (attackedServers mgr) k). rewrite Hid in Hfin. apply Hfin; [lia|].
      by rewrite orb_false_r.
    + destruct (TotalInvalid metrics >? 3) eqn:Ehit; wp_go; apply Hfin; try (rewrite distance_record; cbn; lia).
      * by rewrite lookup_insert_eq, orb_true_r.
      * by rewrite orb_false_r.
  - destruct ok; wp_go; [|]; destruct (TotalInvalid metrics >? 3) eqn:Ehit; wp_go; apply Hother; try done; cbn;
      by rewrite ?lookup_insert_ne.
Qed.

Lemma wp_handle calls s : ∀ env tick mgr d r, accounts mgr s d r →
  wp (handle calls) env tick mgr (λ trace _ mgr', accounts mgr' s (d + total_cost s trace) (r || rejected s trace) ∧
    evictionThreshold mgr' = evictionThreshold mgr ∧
    Forall (λ x, v_correct x.2 = true → v_reject x.2 = false) trace).
Proof.
  induction calls as [|c calls IH]; intros env tick mgr d r Hacc; cbn [handle]; wp_go.
  { cbn. rewrite Z.add_0_r, orb_false_r. by split_and!. }
  eapply wp_call; [exact Hacc|]. intros v k mgr' Hacc' Ht Hv. wp_go. eapply wp_mono; [by apply IH|].
  cbn beta. intros trace k' mgr'' (Ha & Ht' & Hf). wp_go. split_and!; [|congruence|by constructor].
  unfold charged, flagged in Ha. cbn [total_cost rejected map existsb sumZ foldr] in *. rewrite <- Z.add_assoc in Ha.
  rewrite <- orb_assoc in Ha. exact Ha.
Qed.

Lemma wp_register s tools env tick mgr : attacked mgr s = false →
  wp (RegisterMCPServer s tools) env tick mgr (λ _ _ mgr',
    accounts mgr' s 0 false ∧ evictionThreshold mgr' = evictionThreshold mgr).
Proof.
  intros Hat. unfold RegisterMCPServer, on_cluster. wp_go. rewrite wp_zoom. unfold NewToolProxyCluster. wp_go.
  eapply wp_intro. intros proxies k c. wp_go. split; [|done].
  exists (NewAgentState s), (mkCluster proxies 0 false [] (env_clock env tick)). cbn. rewrite !lookup_insert_eq.
  split_and!; [done|done|apply distance_new|exact Hat|done|done].
Qed.

Lemma health_of mgr s d r env tick : accounts mgr s d r →
  let h := result (GetServerHealth s) env tick mgr in
  mh_UnderAttack h = r ∧ mh_IsCompromised h = (d >? evictionThreshold mgr) ∧ (mh_ToolsUnderAttack h = [] ↔ r = false) ∧
  mh_Distance42i h = d ∧
  mh_Status h = if r then "under-attack" else if d >? evictionThreshold mgr then "compromised"
                else if d >? 0 then "degraded" else "healthy".
Proof.
  intros (a & c & Ha & Hc & Hd & Hat & Hdet & Hsus). unfold GetServerHealth, result, mbind, M_bind, get, clock.
  rewrite Ha, Hc. cbn. rewrite Hat, Hdet, Hd, orb_diag. done.
Qed.

(** A server is evicted for cause, and for every cause. Once a server is
    registered, whatever calls follow and to whichever servers, it is to be
    evicted exactly when one of the calls to it was rejected or the suspicions they
    raised cost more than the threshold; the state its target is given follows
    from the same two facts, and a call whose prefix is right is never rejected. *)
Theorem eviction_accounts (mgr0 : MCPServerManager) (s : string) (tools : list string) (calls : list ToolCall)
    (env : Env) (tick : nat) (Hclean : attacked mgr0 s = false) :
  let m := _ ← RegisterMCPServer s tools; handle calls in
  let trace := result m env tick mgr0 in
  let mgr := state m env tick mgr0 in
  let over := total_cost s trace >? evictionThreshold mgr0 in
  (∀ env' tick', (result (ShouldEvictServer s) env' tick' mgr).1 = rejected s trace || over) ∧
  (∀ env' tick', result (HealthToTargetState s) env' tick' mgr =
     if rejected s trace || over then StateOutage
     else if total_cost s trace >? 0 then StateDegraded else StateHealthy) ∧
  Forall (λ x, v_correct x.2 = true → v_reject x.2 = false) trace.
Proof.
  intros m trace mgr over.
  assert (accounts mgr s (total_cost s trace) (rejected s trace) ∧ evictionThreshold mgr = evictionThreshold mgr0 ∧
    Forall (λ x, v_correct x.2 = true → v_reject x.2 = false) trace) as (Hacc & Ht & Hf).
  { enough (wp m env tick mgr0 (λ trace _ mgr, accounts mgr s (total_cost s trace) (rejected s trace) ∧
      evictionThreshold mgr = evictionThreshold mgr0 ∧ Forall (λ x, v_correct x.2 = true → v_reject x.2 = false) trace)) as H
      by by rewrite wp_run in H.
    unfold m. wp_go. eapply wp_mono; [by apply wp_register|]. cbn beta. intros _ k mgr1 [Hacc Ht].
    eapply wp_mono; [by apply wp_handle|]. cbn beta. intros tr k' mgr' (H1 & H2 & H3). cbn in H1. split_and!; [done|congruence|done]. }
  split_and!; [| |done]; intros env' tick'.
  - destruct (health_of mgr s _ _ env' tick' Hacc) as (Hu & Hc & Htools & _). rewrite Ht in Hc. fold over in Hc.
    unfold ShouldEvictServer, result, mbind, M_bind, get in *. destruct (GetServerHealth s env' tick' mgr) as [[h k] mgr']. cbn in *.
    rewrite Hu, Hc. destruct (rejected s trace); [done|]. destruct over; [done|]. by rewrite (proj2 Htools eq_refl).
  - destruct (health_of mgr s _ _ env' tick' Hacc) as (_ & _ & _ & _ & Hs). rewrite Ht in Hs. fold over in Hs.
    unfold HealthToTargetState, result, mbind, M_bind in *. destruct (GetServerHealth s env' tick' mgr) as [[h k] mgr']. cbn in *.
    rewrite Hs. destruct (rejected s trace); [done|]. destruct over; [done|]. by destruct (_ >? 0).
Qed.
End Manager.

(** An agent that keeps its distance only. *)
#[export] Instance distance_agent : AgentState Z := {
  NewAgentState _ := 0; RecordMCPFailure e a := a + ae_DistanceWeight e; TotalDistance a := a;
  agent_Rung _ := 0; agent_Direction _ := "";
}.
#[export] Instance distance_laws : AgentLaws Z.
Proof. by split. Qed.

Definition bare (n : nat) : list ToolCall := replicate n (mkToolCall "srv" "tool" "tool").

Lemma eviction_accounts_witness :
  let m := _ ← RegisterMCPServer "srv" ["tool"]; handle (bare 2) in
  let mgr := state m (frozen (3 * Second) "k") 0 (NewMCPServerManager (A := Z) false) in
  total_cost "srv" (result m (frozen (3 * Second) "k") 0 (NewMCPServerManager (A := Z) false)) = 80 ∧
  (result (ShouldEvictServer "srv") (frozen 0 "") 0 mgr).1 = true.
Proof.
  intros m mgr. assert (total_cost "srv" (result m (frozen (3 * Second) "k") 0 (NewMCPServerManager (A := Z) false)) = 80) as Hc
    by (vm_compute; reflexivity). split; [exact Hc|].
  destruct (eviction_accounts (NewMCPServerManager (A := Z) false) "srv" ["tool"] (bare 2) (frozen (3 * Second) "k") 0 eq_refl) as [He _].
  refine (eq_trans (He (frozen 0 "") 0%nat) _). fold m. rewrite Hc. apply orb_true_r.
Defined.

(** ** The ranking *)

Definition closer (a b : ServerMCPHealth) : Prop := mh_Distance42i a <= mh_Distance42i b.

Lemma exchange_pass_spec rest : ∀ x x' rest', exchange_pass x rest = (x', rest') →
  x' :: rest' ≡ₚ x :: rest ∧ Forall (closer x') rest' ∧ closer x' x.
Proof.
  induction rest as [|y rest IH]; intros x x' rest' E; cbn in E.
  { injection E as <- <-. unfold closer. split_and!; [done|done|lia]. }
  destruct (mh_Distance42i y <? mh_Distance42i x) eqn:Hlt.
  - destruct (exchange_pass y rest) as [z zs] eqn:Ez. injection E as <- <-.
    destruct (IH _ _ _ Ez) as (Hp & Hf & Hc). go_bools. unfold closer in *.
    split_and!; [|constructor; [lia|done]|lia].
    by rewrite (Permutation_swap x z), Hp.
  - destruct (exchange_pass x rest) as [z zs] eqn:Ez. injection E as <- <-.
    destruct (IH _ _ _ Ez) as (Hp & Hf & Hc). go_bools. unfold closer in *.
    split_and!; [|constructor; [lia|done]|lia].
    rewrite (Permutation_swap y z), Hp. apply Permutation_swap.
Qed.

Lemma exchange_sort_spec n : ∀ l, (length l <= n)%nat →
  exchange_sort n l ≡ₚ l ∧ StronglySorted closer (exchange_sort n l).
Proof.
  induction n as [|n IH]; intros [|x l] Hn; cbn [exchange_sort]; [by split; [|constructor]|cbn in Hn; lia|by split; [|constructor]|].
  destruct (exchange_pass x l) as [y ys] eqn:E. destruct (exchange_pass_spec _ _ _ _ E) as (Hp & Hf & _).
  assert (length ys <= n)%nat as Hlen by (apply Permutation_length in Hp; cbn in *; lia).
  destruct (IH ys Hlen) as [Hp' Hs]. split; [by rewrite Hp'|]. constructor; [done|].
  by rewrite Hp'.
Qed.

(** The ranking lists every server once, the most trusted first: it is a
    permutation of the health of each server the code ranges over, sorted by
    distance, whatever the order of the map. *)
Theorem GetServerRanking_sorted {A : Type} {agent_ops : AgentState A} (order : list string)
    (env : Env) (tick : nat) (mgr : MCPServerManager (A := A)) :
  let ranking := result (GetServerRanking order) env tick mgr in
  StronglySorted closer ranking ∧ map mh_ServerID ranking ≡ₚ order ∧
  Forall (λ h, ∃ tick', h = result (GetServerHealth (mh_ServerID h)) env tick' mgr) ranking.
Proof.
  cbv zeta.
  assert (∀ ids tick, wp (healths ids) env tick mgr (λ hs _ mgr', mgr' = mgr ∧ map mh_ServerID hs = ids ∧
    Forall (λ h, ∃ tick', h = result (GetServerHealth (mh_ServerID h)) env tick' mgr) hs)) as Hhs.
  { induction ids as [|id ids IH]; intros t; cbn [healths]; [by rewrite wp_ret|].
    assert (∃ h k, GetServerHealth id env t mgr = (h, k, mgr) ∧ mh_ServerID h = id) as (h & k & Hh & Hid).
    { unfold GetServerHealth, mbind, M_bind, get. destruct (serverAgents mgr !! id), (toolProxies mgr !! id); eexists _, _; (split; reflexivity). }
    rewrite wp_bind. unfold wp at 1. rewrite Hh. rewrite wp_bind. eapply wp_mono; [apply IH|]. cbn beta.
    intros hs k' m' (-> & Hm & Hf). rewrite wp_ret. split; [done|]. split; [cbn; by rewrite Hid, Hm|].
    constructor; [|done]. exists t. rewrite Hid. unfold result. by rewrite Hh. }
  specialize (Hhs order tick). unfold GetServerRanking, result, mbind, M_bind. unfold wp in Hhs.
  destruct (healths order env tick mgr) as [[hs k] m']. destruct Hhs as (_ & Hm & Hf). cbn.
  destruct (exchange_sort_spec (length hs) hs) as [Hp Hs]; [done|].
  split; [done|]. split; [by rewrite Hp, Hm|]. by rewrite Hp.
Qed.

(** ** The lock of the ranking

    [GetServerRanking] holds a read lock and calls [GetServerHealth], which takes
    it again, once for each of the [left] servers. Go's [RWMutex] lets no new reader
    in once a writer waits. The goroutines are the ranking and one writer. *)
Inductive ranking_pc := RankStart (left : nat) | RankHolds (left : nat) | RankNested (left : nat) | RankDone.
Inductive writer_pc := WriterStart | WriterWaits | WriterHolds | WriterDone.
Record RWLock := mkRWLock { readers : nat; ranking_at : ranking_pc; writer_at : writer_pc }.

Definition admits_readers (w : writer_pc) : bool := match w with WriterWaits | WriterHolds => false | _ => true end.

Inductive rw_step : RWLock → RWLock → Prop :=
  | rank_lock n k w : admits_readers w = true → rw_step (mkRWLock n (RankStart k) w) (mkRWLock (S n) (RankHolds k) w)
  | rank_nested n k w :
      admits_readers w = true → rw_step (mkRWLock n (RankHolds (S k)) w) (mkRWLock (S n) (RankNested k) w)
  | rank_inner_unlock n k w : rw_step (mkRWLock (S n) (RankNested k) w) (mkRWLock n (RankHolds k) w)
  | rank_unlock n w : rw_step (mkRWLock (S n) (RankHolds 0) w) (mkRWLock n RankDone w)
  | writer_asks n r : rw_step (mkRWLock n r WriterStart) (mkRWLock n r WriterWaits)
  | writer_enters r : rw_step (mkRWLock 0 r WriterWaits) (mkRWLock 0 r WriterHolds)
  | writer_leaves n r : rw_step (mkRWLock n r WriterHolds) (mkRWLock n r WriterDone).

(** The ranking of one server or more can deadlock: a writer that asks between two
    read locks waits for the outer one, and the inner one waits for the writer. *)
Example ranking_deadlock k :
  let stuck := mkRWLock 1 (RankHolds (S k)) WriterWaits in
  rtc rw_step (mkRWLock 0 (RankStart (S k)) WriterStart) stuck ∧ ∀ next, ¬ rw_step stuck next.
Proof.
  split.
  - eapply rtc_l; [by apply (rank_lock 0 (S k) WriterStart)|]. apply rtc_once, writer_asks.
  - intros next Hs. inversion Hs; subst; discriminate.
Qed.

(** ** Examples *)

(** Calls under the prefix of the first epoch, long after it closed: each is priced
    as staleness, yet the fourth makes the server count as attacked. *)
Definition stale_env : Env := mkEnv (λ n, (100 + (if (n <? 4)%nat then 0 else 20)) * Second) (λ _, "k").
Definition first_prefix : string := PrefixAt (NewRouteSchedule "k" (100 * Second) ClusterRotationPeriod) 0.
Example stale_calls_evict :
  let calls := replicate 4 (mkToolCall "srv" "tool" (first_prefix +:+ "tool")) in
  let m := _ ← RegisterMCPServer "srv" ["tool"]; handle calls in
  let trace := result m stale_env 0 (NewMCPServerManager (A := Z) false) in
  (map (λ x, v_suspicion x.2) trace, total_cost "srv" trace, rejected "srv" trace) =
    (replicate 4 "stale-route-epoch", 8, true).
Proof. vm_compute. reflexivity. Qed.

(** Registering a server again gives it a new agent and new routes and leaves it
    marked as attacked. *)
Example registered_again_still_attacked :
  let m := _ ← RegisterMCPServer "srv" ["tool"]; _ ← handle (bare 4); RegisterMCPServer "srv" ["tool"] in
  let mgr := state m (frozen (3 * Second) "k") 0 (NewMCPServerManager (A := Z) false) in
  (result (ShouldEvictServer "srv") (frozen 0 "") 0 mgr) = (true, "under-attack: 0 suspicious calls detected").
Proof. vm_compute. reflexivity. Qed.

(** Tools that do not exist are never counted as an attack, however many are
    tried. *)
Example unknown_tools_never_rejected :
  let m := _ ← RegisterMCPServer "srv" ["tool"]; handle (replicate 9 (mkToolCall "srv" "nope" "nope")) in
  let trace := result m (frozen (3 * Second) "k") 0 (NewMCPServerManager (A := Z) false) in
  rejected "srv" trace = false ∧ total_cost "srv" trace = 432.
Proof. vm_compute. done. Qed.

(** A tool is listed as suspicious again at every call past the third. *)
Example suspicious_tools_repeat :
  let m := _ ← RegisterMCPServer "srv" ["tool"]; handle (bare 6) in
  SuspiciousTools <$> (toolProxies (state m (frozen (3 * Second) "k") 0 (NewMCPServerManager (A := Z) false)) !! "srv") =
    Some ["tool"; "tool"; "tool"].
Proof. vm_compute. reflexivity. Qed.
