(* ===== verification/ConfigValidate.v ===== *)
(** * Configuration: validation and loading ([internal/config/config.go])

    [Validate] collects every problem it finds; a problem is its text, without
    the values and the underlying errors the code formats into it. Where the code
    ranges over a map literal the problems come here in the order it is written.
    The trust roots are parsed by the [isotope] module, a parameter. The second
    half relates the two validations a target goes through, this one and
    [targets.Target.Validate]: what a valid configuration still needs for the
    engine to start. *)

From Stdlib Require Import ZArith Lia Ascii.
From stdpp Require Import base tactics strings gmap.
From stdpp Require Import list.
From S2P Require Import Prelude Durations Net Url Targets Config Engine.

Open Scope Z_scope.

(** ** Helpers *)

Definition parsePositiveDuration (raw : string) : option Duration :=
  if blank raw then None
  else d ← ParseDuration raw; if d <=? 0 then None else Some d.
Definition bad_duration (raw : string) : bool := negb (bool_decide (is_Some (parsePositiveDuration raw))).

Definition url_schemes : list string := ["http"; "https"; "ws"; "wss"; "stdio"].
Definition validateURL (raw : string) : bool :=
  match Parse raw with
  | Some u => negb (url_Scheme u =s "") && mem (ToLower (url_Scheme u)) url_schemes
  | None => false
  end.

Definition validateRemoteLLMSTxtURI (raw : string) (requireHTTPS : bool) : bool :=
  match Parse raw with
  | None => false
  | Some u =>
      let scheme := ToLower (url_Scheme u) in
      negb (url_Scheme u =s "")
      && (if requireHTTPS then scheme =s "https" else mem scheme ["http"; "https"])
      && negb (blank (url_Host u))
      && (HasSuffix (ToLower (url_Path u)) "/llms.txt" || EqualFold (TrimSpace (url_Path u)) "llms.txt")
  end.

Definition bad_host_port (addr : string) : bool := bool_decide (SplitHostPort addr = None).
Definition rooted (path : string) : bool := HasPrefix path "/".

Definition problem (bad : bool) (text : string) : list string := if bad then [text] else [].
(** The problems of the elements, each told its index. *)
Definition problems_of {A} (f : nat → A → list string) (l : list A) : list string := concat (imap f l).
Definition index (i : nat) : string := "[" +:+ Itoa (Z.of_nat i) +:+ "]".

(** Each value not allowed and each one seen before. [first_only] says whether an
    unsupported value counts as seen. *)
Fixpoint format_problems (section : string) (allowed : list string) (indexed : bool) (seen : list string)
    (i : nat) (formats : list string) : list string :=
  match formats with
  | [] => []
  | f :: rest =>
      let ff := ToLower (TrimSpace f) in
      let where_ := section +:+ (if indexed then index i else "") in
      let unsupported := problem (negb (mem ff allowed)) (where_ +:+ " contains unsupported value") in
      if indexed && negb (mem ff allowed) then
        unsupported ++ format_problems section allowed indexed seen (S i) rest
      else
        unsupported ++ problem (mem ff seen) (where_ +:+ " contains duplicate value")
        ++ format_problems section allowed indexed (ff :: seen) (S i) rest
  end.

(** ** Sections *)

Definition validate_service (s : ServiceConfig) : list string :=
  problem (negb (mem (ToLower (svc_Mode s)) [ModeForeground; ModeBackground; ModeHeadless])) "service.mode"
  ++ problem (negb (mem (ToLower (svc_EfficiencyProfile s)) [EfficiencyAuto; EfficiencyLow; EfficiencyMedium; EfficiencyHigh]))
       "service.efficiency_profile"
  ++ problem (negb (mem (ToLower (svc_LogLevel s)) ["debug"; "info"; "warn"; "error"])) "service.log_level"
  ++ problem (bad_duration (svc_PollInterval s)) "service.poll_interval invalid"
  ++ problem (bad_duration (svc_Timeout s)) "service.timeout invalid"
  ++ problem ((svc_MaxWorkers s <=? 0) || (2048 <? svc_MaxWorkers s)) "service.max_workers must be in range [1, 2048]".

Definition validate_health (h : HealthConfig) : list string :=
  if negb (hc_Enabled h) then []
  else
    (if hc_ListenAddr h =s "" then ["health.listen_addr required when health is enabled"]
     else problem (bad_host_port (hc_ListenAddr h)) "health.listen_addr invalid host:port")
    ++ problem (negb (rooted (hr_Healthz (hc_Endpoints h)))) "health.endpoints.healthz must start with /"
    ++ problem (negb (rooted (hr_Readyz (hc_Endpoints h)))) "health.endpoints.readyz must start with /"
    ++ problem (negb (rooted (hr_Status (hc_Endpoints h)))) "health.endpoints.status must start with /"
    ++ problem (bad_duration (hc_IsotopeTTL h)) "health.isotope_ttl invalid".

Definition validate_runtime (r : RuntimeConfig) : list string :=
  problem (bad_duration (run_GracefulShutdownTimeout r)) "runtime.graceful_shutdown_timeout invalid"
  ++ problem (run_EventHistorySize r <=? 0) "runtime.event_history_size must be > 0".

Definition validate_discovery (d : DiscoveryConfig) : list string :=
  if negb (dsc_Enabled d) then []
  else
    let l := dsc_LLMSTxt d in
    problem (bad_duration (dsc_Interval d)) "discovery.interval invalid"
    ++ problems_of (λ _ p, problem ((p <? 1) || (65535 <? p)) "discovery.local_proxy_scan.ports must be in range [1,65535]")
         (lps_Ports (dsc_LocalProxyScan d))
    ++ problems_of (λ _ u, problem (negb (validateURL u)) "discovery.cloud_catalog.urls invalid")
         (cat_URLs (dsc_CloudCatalog d))
    ++ if negb (llm_Enabled l) then []
       else
         problem (bad_duration (llm_FetchTimeout l)) "discovery.llms_txt.fetch_timeout invalid"
         ++ problems_of (λ i uri, if blank uri then ["discovery.llms_txt.remote_uris" +:+ index i +:+ " cannot be empty"]
              else problem (negb (validateRemoteLLMSTxtURI uri (llm_RequireHTTPS l)))
                     ("discovery.llms_txt.remote_uris" +:+ index i +:+ " invalid")) (llm_RemoteURIs l)
         ++ problem (llm_AutoRegisterOAuth l && negb (llm_AutoRegisterAsTargets l))
              "discovery.llms_txt.auto_register_oauth requires discovery.llms_txt.auto_register_as_targets=true".

Definition bad_severity (sev : string) : bool :=
  let norm := ToLower sev in
  negb (mem (if norm =s "warn" then "warning" else norm) ["info"; "warning"; "error"; "critical"]).

Definition validate_alerts (a : AlertsConfig) : list string :=
  let s := alr_Severity a in
  problem (bad_duration (alr_DedupeWindow a)) "alerts.dedupe_window invalid"
  ++ problem (bad_duration (alr_Cooldown a)) "alerts.cooldown invalid"
  ++ problem (alr_RetryBeforeEscalation a <? 0) "alerts.retry_before_escalation must be >= 0"
  ++ problem (bad_severity (sev_Healthy s)) "alerts.severity.healthy invalid"
  ++ problem (bad_severity (sev_Degraded s)) "alerts.severity.degraded invalid"
  ++ problem (bad_severity (sev_Regression s)) "alerts.severity.regression invalid"
  ++ problem (bad_severity (sev_Outage s)) "alerts.severity.outage invalid".

Definition validate_global_auth (a : GlobalAuthConfig) : list string :=
  let o := ga_OAuth a in
  let m := go_MockRedirect o in
  problem (negb (mem (ToLower (gk_Provider (ga_Keystore a))) ["auto"; "keychain"; "secretservice"; "file"]))
    "auth.keystore.provider"
  ++ problem (rd_Enabled (ga_Redaction a) && (rd_Mask (ga_Redaction a) =s "")) "auth.redaction.mask cannot be empty"
  ++ problem (go_Enabled o && bad_duration (go_TokenGracePeriod o)) "auth.oauth.token_grace_period invalid"
  ++ if negb (mr_Enabled m) then []
     else
       problem (bad_host_port (mr_ListenAddr m)) "auth.oauth.mock_redirect.listen_addr invalid host:port"
       ++ problem (negb (rooted (mr_Path m))) "auth.oauth.mock_redirect.path must start with /"
       ++ problem (negb (mem (ToLower (TrimSpace (mr_Mode m))) ["allow"; "fail"])) "auth.oauth.mock_redirect.mode".

Definition validate_known_state (k : KnownStateConfig) : list string :=
  if negb (ks_Enabled k) then []
  else
    problem (ks_SustainSuccessBeforeMarkHealthy k <? 1) "known_state.sustain_success_before_mark_healthy must be >= 1"
    ++ problem (ks_OutageThresholdConsecutiveFailures k <? 1)
         "known_state.outage_threshold_consecutive_failures must be >= 1"
    ++ problem (negb (mem (ToLower (ks_ClassifyNewFailuresAfterHealthyAs k)) ["regression"; "outage"]))
         "known_state.classify_new_failures_after_healthy_as must be regression or outage".

Definition validate_meta (m : MetaConfigConfig) : list string :=
  if negb (mc_Enabled m) then []
  else
    problem (mc_OutputDir m =s "") "meta_config.output_dir is required when meta_config.enabled=true"
    ++ format_problems "meta_config.formats" ["yaml"; "json"] false [] 0 (mc_Formats m).

Definition validate_remote_agent (r : RemoteAgentConfig) : list string :=
  if negb (ra_ManagedUpdates r) then []
  else
    problem (negb (ra_ControlEndpoint r =s "") && negb (validateURL (ra_ControlEndpoint r)))
      "remote_agent.control_endpoint invalid"
    ++ problem (bad_duration (ru_MaxWaitForHealthy (ra_Update r))) "remote_agent.update.max_wait_for_healthy invalid"
    ++ problem (rsf_RequireLock (ra_Safety r) && bad_duration (rsf_LockTTL (ra_Safety r)))
         "remote_agent.safety.lock_ttl invalid".

Definition endpoint_problems (name ep : string) : list string :=
  if blank ep then ["hosted.endpoints." +:+ name +:+ " is required when hosted.enabled=true"]
  else problem (negb (rooted ep)) ("hosted.endpoints." +:+ name +:+ " must start with /").

Definition validate_hosted (h : HostedConfig) : list string :=
  if negb (hs_Enabled h) then []
  else
    let e := hs_Endpoints h in
    problem (bad_host_port (hs_ListenAddr h)) "hosted.listen_addr invalid host:port"
    ++ problems_of (λ i tr, problem (negb (mem (ToLower (TrimSpace tr)) [TransportHTTP; TransportSSE]))
         ("hosted.transports" +:+ index i)) (hs_Transports h)
    ++ problems_of (λ i p, problem (negb (mem (ToLower (TrimSpace p)) [ProtocolMCP; ProtocolACP; "a2a"]))
         ("hosted.protocols" +:+ index i)) (hs_Protocols h)
    ++ endpoint_problems "mcp" (he_MCP e) ++ endpoint_problems "acp" (he_ACP e) ++ endpoint_problems "a2a" (he_A2A e).

Definition validate_dynamic (d : DynamicConfigConfig) : list string :=
  if negb (dy_Enabled d) then []
  else
    problem (blank (dy_Directory d)) "dynamic_config.directory is required when dynamic_config.enabled=true"
    ++ (if blank (dy_ServeBaseURL d) then ["dynamic_config.serve_base_url is required when dynamic_config.enabled=true"]
        else problem (negb (rooted (dy_ServeBaseURL d))) "dynamic_config.serve_base_url must start with /")
    ++ format_problems "dynamic_config.formats" ["json"; "markdown"] true [] 0 (dy_Formats d).

Definition validate_federation (f : FederationConfig) : list string :=
  if negb (fd_Enabled f) then []
  else
    problem ((fd_BasePort f <? 1) || (65535 <? fd_BasePort f)) "federation.base_port must be in range [1,65535]"
    ++ problem ((fd_MaxPort f <? fd_BasePort f) || (65535 <? fd_MaxPort f))
         "federation.max_port must be >= base_port and <= 65535"
    ++ problem (bad_duration (fd_PollInterval f)) "federation.poll_interval invalid"
    ++ problem (bad_duration (fd_ReportInterval f)) "federation.report_interval invalid"
    ++ problem (match fd_Downstream f with [] => false | _ => true end) "federation.downstream is no longer supported"
    ++ problem (bad_duration (fd_AnnounceInterval f)) "federation.announce_interval invalid"
    ++ problem (bad_duration (fd_HeartbeatInterval f)) "federation.heartbeat_interval invalid"
    ++ problem (bad_duration (fd_HeartbeatTimeout f)) "federation.heartbeat_timeout invalid".

(** ** Targets *)

Definition hurl_problems (prefix : string) (j : nat) (ht : HURLTest) : list string :=
  let h := prefix +:+ ".check.hurl_tests" +:+ index j in
  let hasFile := negb (blank (ht_File ht)) in
  let hasEndpoint := negb (blank (ht_Endpoint ht)) in
  problem (blank (ht_Name ht)) (h +:+ ".name is required")
  ++ problem (negb hasFile && negb hasEndpoint) (h +:+ ".file or .endpoint is required")
  ++ problem (hasFile && hasEndpoint) (h +:+ ".file and .endpoint are mutually exclusive")
  ++ problem (hasEndpoint && negb (validateURL (ht_Endpoint ht))) (h +:+ ".endpoint invalid")
  ++ problem (negb (blank (ht_Method ht)) && negb (mem (ToUpper (TrimSpace (ht_Method ht))) http_methods))
       (h +:+ ".method invalid").

Definition endpoint_of_target_problems (prefix : string) (t : TargetConfig) : list string :=
  if EqualFold (tc_Transport t) TransportStdio then
    problem (blank (Command (tc_Stdio t))) (prefix +:+ ".stdio.command is required when transport=stdio")
    ++ problem (negb (blank (tc_Endpoint t)) && negb (validateURL (tc_Endpoint t))) (prefix +:+ ".endpoint invalid")
  else if tc_Endpoint t =s "" then [prefix +:+ ".endpoint is required"]
  else problem (negb (validateURL (tc_Endpoint t))) (prefix +:+ ".endpoint invalid").

Definition check_problems (prefix : string) (c : TargetCheckConfig) : list string :=
  problem (bad_duration (cc_Interval c)) (prefix +:+ ".check.interval invalid")
  ++ problem (bad_duration (cc_Timeout c)) (prefix +:+ ".check.timeout invalid")
  ++ problem ((cc_Retries c <? 0) || (100 <? cc_Retries c)) (prefix +:+ ".check.retries must be in range [0,100]")
  ++ problem (negb (mem (ToLower (TrimSpace (cc_HandshakeProfile c))) ["none"; "base"; "strict"]))
       (prefix +:+ ".check.handshake_profile")
  ++ problems_of (λ j m, problem (blank m) (prefix +:+ ".check.required_methods" +:+ index j +:+ " cannot be empty"))
       (cc_RequiredMethods c)
  ++ problems_of (hurl_problems prefix) (cc_HURLTests c).

Definition auth_problems (prefix : string) (a : AuthConfig) : list string :=
  let authType := ToLower (auth_Type a) in
  problem (negb (mem authType [AuthNone; AuthBearer; AuthAPIKey; AuthOAuth])) (prefix +:+ ".auth.type")
  ++ if authType =s AuthBearer then
       problem (auth_SecretRef a =s "") (prefix +:+ ".auth.secret_ref required for bearer auth")
       ++ problem (auth_Header a =s "") (prefix +:+ ".auth.header required for bearer auth")
     else if authType =s AuthAPIKey then
       problem (auth_SecretRef a =s "") (prefix +:+ ".auth.secret_ref required for apikey auth")
       ++ problem (auth_KeyName a =s "") (prefix +:+ ".auth.key_name required for apikey auth")
     else if authType =s AuthOAuth then
       problem (auth_ClientID a =s "") (prefix +:+ ".auth.client_id required for oauth auth")
       ++ (if auth_TokenURL a =s "" then [prefix +:+ ".auth.token_url required for oauth auth"]
           else problem (negb (validateURL (auth_TokenURL a))) (prefix +:+ ".auth.token_url invalid"))
       ++ problem (negb (auth_RedirectURL a =s "") && negb (validateURL (auth_RedirectURL a)))
            (prefix +:+ ".auth.redirect_url invalid")
     else [].

Definition enabled_target_problems (prefix : string) (t : TargetConfig) : list string :=
  problem (negb (mem (ToLower (tc_Protocol t)) [ProtocolMCP; ProtocolACP; ProtocolHTTP])) (prefix +:+ " invalid protocol")
  ++ problem (negb (mem (ToLower (tc_Transport t)) [TransportHTTP; TransportSSE; TransportWebSocket; TransportStdio]))
       (prefix +:+ " invalid transport")
  ++ problem (negb (tc_Type t =s "") && negb (mem (ToLower (tc_Type t)) [TargetTypeLocal; TargetTypeRemote]))
       (prefix +:+ ".type")
  ++ endpoint_of_target_problems prefix t
  ++ check_problems prefix (tc_Check t)
  ++ problems_of (λ _ code, problem ((code <? 100) || (599 <? code)) (prefix +:+ ".expected.healthy_status_codes"))
       (HealthyStatusCodes (tc_Expected t))
  ++ problem (KnownAgentCountMin (tc_Expected t) <? 0) (prefix +:+ ".expected.known_agent_count_min must be >= 0")
  ++ auth_problems prefix (tc_Auth t).

(** An id counts as seen even when its target is disabled. *)
Fixpoint target_problems (seen : list string) (i : nat) (ts : list TargetConfig) : list string :=
  match ts with
  | [] => []
  | t :: rest =>
      let prefix := "targets" +:+ index i in
      (if tc_ID t =s "" then [prefix +:+ ".id is required"]
       else problem (mem (tc_ID t) seen) (prefix +:+ ".id duplicate value"))
      ++ (if tc_Enabled t then enabled_target_problems prefix t else [])
      ++ target_problems (if tc_ID t =s "" then seen else tc_ID t :: seen) (S i) rest
  end.

(** ** The whole *)

Inductive load_error := ReadError (text : string) | DecodeError (text : string) | Invalid (problems : list string).

Section Validation.
(** [isotope.ParseRoots], and the YAML decoder, strict about unknown fields. *)
Context (ParseRoots : gmap string string → bool) (decode : string → Config + string).

Definition validate_trust (t : TrustConfig) : list string :=
  concat (map (λ '(cluster, secret),
    problem (blank cluster) "trust.clusters has an entry with an empty cluster identity"
    ++ problem (blank secret) ("trust.clusters." +:+ cluster +:+ " is empty")) (map_to_list (ts_Clusters t)))
  ++ problem (negb (bool_decide (ts_Roots t = ∅)) && negb (ParseRoots (ts_Roots t))) "trust.roots invalid".

Definition validate_version (v : string) : list string :=
  if v =s "" then ["version is required"] else problem (negb (v =s "1")) "unsupported version".

Definition Config_Validate (c : Config) : list string :=
  validate_version (cfg_Version c) ++ validate_service (cfg_Service c) ++ validate_health (cfg_Health c)
  ++ validate_trust (cfg_Trust c) ++ validate_runtime (cfg_Runtime c) ++ validate_discovery (cfg_Discovery c)
  ++ validate_alerts (cfg_Alerts c) ++ validate_global_auth (cfg_Auth c) ++ validate_known_state (cfg_KnownState c)
  ++ validate_meta (cfg_MetaConfig c) ++ validate_remote_agent (cfg_RemoteAgent c) ++ validate_hosted (cfg_Hosted c)
  ++ validate_dynamic (cfg_DynamicConfig c) ++ validate_federation (cfg_Federation c)
  ++ target_problems [] 0 (cfg_Targets c).

Definition LoadBytes (data : string) : Config + load_error :=
  match decode data with
  | inr err => inr (DecodeError err)
  | inl cfg =>
      let cfg := ApplyDefaults cfg in
      match Config_Validate cfg with [] => inl cfg | problems => inr (Invalid problems) end
  end.

Definition Load (read_file : string → string + string) (path : string) : Config + load_error :=
  match read_file (Clean path) with
  | inr err => inr (ReadError err)
  | inl raw => LoadBytes raw
  end.

End Validation.

(** ** What no problem means *)

Lemma problem_nil bad text : problem bad text = [] ↔ bad = false.
Proof. by destruct bad. Qed.
Lemma app_nil_iff {A} (l k : list A) : l ++ k = [] ↔ l = [] ∧ k = [].
Proof. destruct l; naive_solver. Qed.
Lemma problems_of_nil {A} (f : nat → A → list string) l :
  problems_of f l = [] ↔ ∀ i x, l !! i = Some x → f i x = [].
Proof.
  unfold problems_of. revert f. induction l as [|x l IH]; intros f; [by split|].
  cbn [imap concat]. rewrite app_nil_iff, IH. split.
  - intros [H0 H] [|i] y Hy; cbn in Hy; [by simplify_eq|by apply (H i y)].
  - intros H. split; [by apply (H 0%nat)|]. intros i y Hy. by apply (H (S i)).
Qed.

Lemma good_duration raw : bad_duration raw = false → ∃ d, ParseDuration raw = Some d ∧ 0 < d.
Proof.
  unfold bad_duration. rewrite negb_false_iff, bool_decide_eq_true. intros [d H].
  unfold parsePositiveDuration in H. destruct (blank raw); [done|].
  destruct (ParseDuration raw) as [d'|]; [|done]. cbn in H. destruct (d' <=? 0) eqn:E; [done|].
  exists d'. split; [done|lia].
Qed.

(** The two URL tests agree on a URL without a fragment. *)
Lemma validateURL_valid_uri raw : has_byte "#" raw = false → validateURL raw = true → valid_uri raw = true.
Proof.
  intros Hf. unfold validateURL, valid_uri. rewrite Parse_no_fragment by done.
  destruct (parse raw false) as [u|] eqn:Hu; [|done]. intros H. go_bools.
  apply bool_decide_eq_true. exists u. by apply parse_via_request.
Qed.

Lemma target_problems_nil seen i ts :
  target_problems seen i ts = [] →
  NoDup (map tc_ID ts) ∧ (∀ t, t ∈ ts → tc_ID t ≠ "" ∧ tc_ID t ∉ seen) ∧
  ∀ t, t ∈ ts → tc_Enabled t = true → ∃ prefix, enabled_target_problems prefix t = [].
Proof.
  revert seen i. induction ts as [|t ts IH]; intros seen i H.
  { split; [constructor|]. split; intros ? Hin; by apply elem_of_nil in Hin. }
  cbn [target_problems] in H. rewrite !app_nil_iff in H. destruct H as (Hid & Hen & Hrest).
  destruct (tc_ID t =s "") eqn:E; [done|]. apply streq_false in E. apply problem_nil in Hid.
  assert (tc_ID t ∉ seen) as Hns by (rewrite <- mem_true; congruence).
  apply IH in Hrest as (Hnd & Hids & Hp). split_and!.
  - cbn. constructor; [|done]. intros (t' & Heq & Ht')%list_elem_of_fmap.
    destruct (Hids t' Ht') as [_ Hn]. apply Hn. rewrite <- Heq. by left.
  - intros t' [->|Ht']%elem_of_cons; [done|]. destruct (Hids t' Ht') as [? Hn]. split; [done|].
    intros Hin. apply Hn. by right.
  - intros t' [->|Ht']%elem_of_cons He; [|by apply Hp]. rewrite He in Hen. eauto.
Qed.

Lemma valid_url raw : validateURL raw = true → blank raw = false ∧ (has_byte "#" raw = false → valid_uri raw = true).
Proof.
  intros H. split; [|intros Hf; by apply validateURL_valid_uri]. unfold validateURL in H.
  destruct (Parse raw) as [u|] eqn:Hu; [|done]. go_bools. by eapply Parse_scheme_not_blank.
Qed.

(** ** The two validations of a target *)

(** What [targets.Target.Validate] asks and the configuration's validation does
    not: an ID that is not blank, URLs without a fragment, an HTTP scheme for SSE. *)
Definition no_fragments (t : TargetConfig) : bool :=
  negb (has_byte "#" (tc_Endpoint t))
  && forallb (λ ht, negb (has_byte "#" (ht_Endpoint ht))) (cc_HURLTests (tc_Check t)).
Definition sse_over_http (t : TargetConfig) : bool :=
  negb (ToLower (tc_Transport t) =s TransportSSE)
  || match ParseRequestURI (tc_Endpoint t) with
     | Some u => let scheme := ToLower (TrimSpace (url_Scheme u)) in (scheme =s "http") || (scheme =s "https")
     | None => false
     end.
Definition startable (t : TargetConfig) : bool := negb (blank (tc_ID t)) && no_fragments t && sse_over_http t.

Definition lowered (t : TargetConfig) (interval timeout : Duration) : Target :=
  let c := tc_Check t in
  mkTarget (tc_ID t) (tc_Enabled t) (ToLower (tc_Protocol t)) (tc_Name t)
    (tc_Endpoint t) (ToLower (tc_Transport t)) (ToLower (tc_Type t)) (tc_Expected t)
    {| (tc_Auth t) with auth_Type := ToLower (auth_Type (tc_Auth t)); auth_Audience := "" |} (tc_Stdio t)
    (mkCheckPolicy interval timeout (cc_Retries c) (cc_HandshakeProfile c) (cc_RequiredMethods c) (cc_HURLTests c))
    ∅ ∅ (tc_Headers t).

Lemma mem_not_empty x l : mem x l = true → mem "" l = false → (x =s "") = false.
Proof. intros H He. apply streq_false. intros ->. congruence. Qed.

Lemma transport_ok prefix t i o :
  endpoint_of_target_problems prefix t = [] → no_fragments t = true → sse_over_http t = true →
  validate_transport (lowered t i o) = None.
Proof.
  unfold endpoint_of_target_problems, no_fragments, sse_over_http, validate_transport, EqualFold.
  cbn [tgt_Transport tgt_Stdio tgt_Endpoint lowered]. change (ToLower TransportStdio) with TransportStdio.
  intros Hep [Hf _]%andb_true_iff Hsse. apply negb_true_iff in Hf.
  destruct (ToLower (tc_Transport t) =s TransportStdio) eqn:Hstdio.
  - apply streq_true in Hstdio. rewrite bool_decide_true in Hep by done.
    apply app_nil_iff in Hep as [H1%problem_nil H2%problem_nil]. rewrite H1. cbn.
    destruct (blank (tc_Endpoint t)); [done|]. cbn in *. apply negb_false_iff in H2.
    by rewrite (proj2 (valid_url _ H2) Hf).
  - apply streq_false in Hstdio. rewrite bool_decide_false in Hep by done.
    destruct (tc_Endpoint t =s ""); [done|]. apply problem_nil, negb_false_iff in Hep.
    destruct (valid_url _ Hep) as [Hb Hv]. rewrite Hb, (Hv Hf).
    destruct (ToLower (tc_Transport t) =s TransportSSE); [|done]. cbn in *.
    destruct (ParseRequestURI (tc_Endpoint t)); [|done]. by destruct (_ =s "http"), (_ =s "https").
Qed.

Lemma check_ok prefix t i o :
  check_problems prefix (tc_Check t) = [] → no_fragments t = true → 0 < i → 0 < o →
  validate_check (tgt_Check (lowered t i o)) = None ∧
  first_error validate_test 0 (HURLTests (tgt_Check (lowered t i o))) = None.
Proof.
  unfold check_problems. rewrite !app_nil_iff, !problem_nil, !problems_of_nil.
  intros (_ & _ & Hr & Hp & Hm & Hh) [_ Hf]%andb_true_iff Hi Ho. cbn [tgt_Check lowered HURLTests]. split.
  - unfold validate_check. cbn [Timeout Interval Retries HandshakeProfile RequiredMethods]. rewrite !orelse_None, !guard_err_None, first_error_None.
    apply negb_false_iff in Hp. apply orb_false_iff in Hr as [Hr _]. rewrite Hp, andb_false_r.
    split_and!; [by apply Z.leb_gt|by apply Z.leb_gt|done|done|].
    intros j m Hj. apply guard_err_None. by apply Hm, problem_nil in Hj.
  - apply first_error_None. intros j ht Hj. pose proof (Hh j ht Hj) as H. cbn [plus].
    unfold hurl_problems in H. rewrite !app_nil_iff, !problem_nil in H. destruct H as (H1 & H2 & H3 & H4 & H5).
    unfold validate_test. rewrite H1, H2, H3. cbn [guard_err orelse].
    assert (negb (has_byte "#" (ht_Endpoint ht)) = true) as Hfr%negb_true_iff.
    { rewrite forallb_forall in Hf. apply (Hf ht). apply list_elem_of_In. by eapply list_elem_of_lookup_2. }
    rewrite orelse_None, !guard_err_None. split.
    + destruct (blank (ht_Endpoint ht)); [done|]. cbn in *. apply negb_false_iff in H4.
      by rewrite (proj2 (valid_url _ H4) Hfr).
    + unfold blank in H5. destruct (mem (ToUpper _) _); [by rewrite andb_false_r|].
      rewrite andb_true_r in H5 |- *. apply negb_false_iff, bool_decide_eq_true in H5. by rewrite H5.
Qed.

Lemma auth_ok prefix t i o : auth_problems prefix (tc_Auth t) = [] → validate_auth (tgt_Auth (lowered t i o)) = None.
Proof.
  unfold auth_problems. cbv zeta. rewrite app_nil_iff, problem_nil, negb_false_iff. intros [Hin H].
  unfold validate_auth. cbn [tgt_Auth lowered auth_Type auth_SecretRef auth_KeyName auth_ClientID auth_TokenURL].
  destruct (_ || _) eqn:Hn; [done|]. apply orb_false_iff in Hn as [_ Hn]. revert Hin H.
  destruct (_ =s AuthBearer) eqn:Hb; [by intros _ [->%problem_nil _]%app_nil_iff|].
  destruct (_ =s AuthAPIKey) eqn:Hk; [by intros _ [->%problem_nil ->%problem_nil]%app_nil_iff|].
  destruct (_ =s AuthOAuth) eqn:Ho.
  { rewrite !app_nil_iff. intros _ (->%problem_nil & H & _). by destruct (_ =s ""). }
  rewrite streq_false in Hn, Hb, Hk, Ho. intros Hin%mem_true. by rewrite !elem_of_cons, elem_of_nil in Hin; naive_solver.
Qed.

(** No problem and startable: the target compiles. *)
Lemma valid_target_compiles prefix t :
  enabled_target_problems prefix t = [] → startable t = true →
  ∃ c, compile_target t = inl c ∧ tgt_ID c = tc_ID t.
Proof.
  unfold enabled_target_problems, startable. rewrite !app_nil_iff, !andb_true_iff.
  intros (Hproto & Htr & _ & Hep & Hc & _ & _ & Ha) [[Hid Hf] Hsse].
  assert (Hcheck := Hc). unfold check_problems in Hcheck. rewrite !app_nil_iff in Hcheck.
  destruct Hcheck as (Hi%problem_nil & Ho%problem_nil & _).
  apply good_duration in Hi as (i & Hpi & Hi), Ho as (o & Hpo & Ho). destruct (check_ok _ _ i o Hc Hf Hi Ho) as [Hvc Hvt].
  exists (lowered t i o). split; [|done]. unfold compile_target. rewrite Hpi, Hpo. cbv zeta.
  fold (lowered t i o).
  change (mkTarget _ _ _ _ _ _ _ _ _ _ _ _ _ _) with (lowered t i o).
  enough (Validate (lowered t i o) = None) as -> by done.
  unfold Validate. rewrite !orelse_None, !guard_err_None. rewrite (transport_ok prefix), (auth_ok prefix) by done.
  cbn [tgt_ID tgt_Protocol tgt_Transport lowered]. apply problem_nil in Hproto, Htr. rewrite negb_false_iff in Hproto, Htr.
  split_and!; [by destruct (blank _)|by eapply mem_not_empty|by eapply mem_not_empty|done..].
Qed.

Lemma compile_all_or_gap ts :
  (∀ t, t ∈ ts → tc_Enabled t = true → ∃ prefix, enabled_target_problems prefix t = []) →
  match compile_targets ts with
  | inl cs => map tgt_ID cs = map tc_ID (filter (λ t, tc_Enabled t = true) ts)
  | inr _ => Exists (λ t, startable t = false) (filter (λ t, tc_Enabled t = true) ts)
  end.
Proof.
  induction ts as [|t ts IH]; intros H; [done|]. cbn [compile_targets].
  assert (Hrest : ∀ t', t' ∈ ts → tc_Enabled t' = true → ∃ prefix, enabled_target_problems prefix t' = [])
    by (intros; apply H; [by right|done]). specialize (IH Hrest).
  rewrite filter_cons. destruct (tc_Enabled t) eqn:He; cbn [negb]; [|by rewrite decide_False].
  rewrite decide_True by done. destruct (H t) as [prefix Hp]; [by left|done|].
  destruct (compile_target t) as [c|e] eqn:Hc.
  - apply compile_target_ok in Hc as (_ & Hid & _). destruct (compile_targets ts) as [cs|]; [|by right].
    cbn. by rewrite Hid, IH.
  - left. destruct (startable t) eqn:Hs; [|done]. destruct (valid_target_compiles _ _ Hp Hs) as (c & H' & _). congruence.
Qed.

Lemma valid_parts ParseRoots c : Config_Validate ParseRoots c = [] →
  validate_service (cfg_Service c) = [] ∧ validate_runtime (cfg_Runtime c) = [] ∧ validate_alerts (cfg_Alerts c) = [] ∧
  validate_known_state (cfg_KnownState c) = [] ∧ target_problems [] 0 (cfg_Targets c) = [].
Proof. unfold Config_Validate. rewrite !app_nil_iff. tauto. Qed.

Definition positive_duration (raw : string) : Prop := ∃ d, ParseDuration raw = Some d ∧ 0 < d.

Definition load_promises (c : Config) : Prop :=
  Forall positive_duration [svc_PollInterval (cfg_Service c); svc_Timeout (cfg_Service c);
    run_GracefulShutdownTimeout (cfg_Runtime c); alr_DedupeWindow (cfg_Alerts c); alr_Cooldown (cfg_Alerts c)] ∧
  1 <= svc_MaxWorkers (cfg_Service c) <= 2048 ∧
  0 < run_EventHistorySize (cfg_Runtime c) ∧
  (ks_Enabled (cfg_KnownState c) = true →
     1 <= ks_SustainSuccessBeforeMarkHealthy (cfg_KnownState c) ∧
     1 <= ks_OutageThresholdConsecutiveFailures (cfg_KnownState c)) ∧
  NoDup (map tc_ID (cfg_Targets c)) ∧
  Forall (λ t, tc_ID t ≠ "") (cfg_Targets c) ∧
  Forall (λ t, positive_duration (cc_Interval (tc_Check t)) ∧ positive_duration (cc_Timeout (tc_Check t)) ∧
               0 <= cc_Retries (tc_Check t) <= 100) (EnabledTargets c).

Lemma valid_promises ParseRoots c : Config_Validate ParseRoots c = [] → load_promises c.
Proof.
  intros (Hs & Hr & Ha & Hk & Ht)%valid_parts. unfold load_promises.
  unfold validate_service in Hs. rewrite !app_nil_iff, !problem_nil in Hs. destruct Hs as (_ & _ & _ & Hp & Ho & Hw).
  unfold validate_runtime in Hr. rewrite !app_nil_iff, !problem_nil in Hr. destruct Hr as [Hg Hh].
  unfold validate_alerts in Ha. cbv zeta in Ha. rewrite !app_nil_iff, !problem_nil in Ha. destruct Ha as (Hd & Hc & _).
  apply target_problems_nil in Ht as (Hnd & Hids & Hen). split_and!; [|lia..| |done| |].
  - rewrite !Forall_cons, Forall_nil. split_and!; first [done|by apply good_duration].
  - intros He. unfold validate_known_state in Hk. rewrite He in Hk. cbn in Hk.
    rewrite !app_nil_iff, !problem_nil in Hk. lia.
  - apply Forall_forall. intros t Hin. by apply Hids.
  - apply Forall_forall. intros t [He Hin]%list_elem_of_filter.
    destruct (Hen t Hin He) as [prefix Hp']. unfold enabled_target_problems in Hp'. rewrite !app_nil_iff in Hp'.
    destruct Hp' as (_ & _ & _ & _ & Hck & _). unfold check_problems in Hck.
    rewrite !app_nil_iff, !problem_nil in Hck. destruct Hck as (H1 & H2 & H3 & _).
    split_and!; [by apply good_duration..|lia|lia].
Qed.

(** ** What loading promises *)

(** C21: a configuration that loads can be used as it is. It is the decoded one
    with the defaults filled in, no problem is found in it, and filling in the
    defaults again changes nothing. Every duration the service, the runtime, the
    alerts and the enabled targets are driven by parses and is positive, the
    number of workers, the history and the thresholds are in range, and the IDs of
    the targets are distinct and not empty. *)
Theorem LoadBytes_sound (ParseRoots : gmap string string → bool) (decode : string → Config + string)
    (data : string) (c : Config) (Hload : LoadBytes ParseRoots decode data = inl c) :
  (∃ raw, decode data = inl raw ∧ c = ApplyDefaults raw) ∧
  Config_Validate ParseRoots c = [] ∧ ApplyDefaults c = c ∧ load_promises c.
Proof.
  unfold LoadBytes in Hload. destruct (decode data) as [raw|]; [|done]. cbv zeta in Hload.
  destruct (Config_Validate _ _) eqn:Hv; [|done]. injection Hload as <-.
  split; [by exists raw|]. split; [done|]. split; [apply ApplyDefaults_idem|]. by eapply valid_promises.
Qed.

Definition sample_target (id endpoint transport : string) : TargetConfig :=
  {| zeroTargetConfig with tc_ID := id; tc_Enabled := true; tc_Endpoint := endpoint; tc_Transport := transport; tc_Protocol := "mcp" |}.
Definition sample_config (ts : list TargetConfig) : Config := {| zeroConfig with cfg_Version := "1"; cfg_Targets := ts |}.
Definition no_roots : gmap string string → bool := λ _, true.

Lemma LoadBytes_sound_witness :
  let raw := sample_config [sample_target "a" "http://h/" "http"; sample_target "b" "HTTP://h/sse" "SSE"] in
  ApplyDefaults (ApplyDefaults raw) = ApplyDefaults raw ∧ load_promises (ApplyDefaults raw).
Proof.
  intros raw. apply (LoadBytes_sound no_roots (λ _, inl raw) "file"). vm_compute. reflexivity.
Defined.

(** C20: a valid configuration starts the engine, up to the three points on which
    the target's own validation asks for more. Either every enabled target
    compiles, in the order of the configuration and under its own distinct ID; or
    some enabled target has a blank ID, a URL with a fragment, or uses SSE over
    something else than HTTP. *)
Theorem valid_config_starts (ParseRoots : gmap string string → bool) (c : Config)
    (Hvalid : Config_Validate ParseRoots c = []) :
  match compileTargets c with
  | inl ts => map tgt_ID ts = map tc_ID (EnabledTargets c) ∧ NoDup (map tgt_ID ts)
  | inr _ => Exists (λ t, startable t = false) (EnabledTargets c)
  end.
Proof.
  apply valid_parts in Hvalid as (_ & _ & _ & _ & (Hnd & _ & Hen)%target_problems_nil).
  pose proof (compile_all_or_gap _ Hen) as H. unfold compileTargets. destruct (compile_targets _) as [ts|]; [|done].
  split; [done|]. rewrite H. eapply sublist_NoDup; [exact Hnd|]. apply fmap_sublist, sublist_filter.
Qed.

Lemma valid_config_starts_witness :
  let c := ApplyDefaults (sample_config [sample_target "a" "http://h/" "http"; sample_target "b" "https://h/sse" "SSE"]) in
  (∃ ts, compileTargets c = inl ts ∧ map tgt_ID ts = ["a"; "b"]) ∧
  match compileTargets c with
  | inl ts => map tgt_ID ts = map tc_ID (EnabledTargets c) ∧ NoDup (map tgt_ID ts)
  | inr _ => Exists (λ t, startable t = false) (EnabledTargets c)
  end.
Proof.
  intros c. split; [vm_compute; eauto|]. apply (valid_config_starts no_roots). vm_compute. reflexivity.
Defined.

(** The three gaps are real. *)
Example valid_but_not_startable :
  map (λ t, let c := ApplyDefaults (sample_config [t]) in
            (Config_Validate no_roots c, match compileTargets c with inr (BadTarget _ e) => Some e | _ => None end))
    [sample_target " " "http://h/" "http"; sample_target "a" "http://h#x" "http"; sample_target "a" "ws://h/" "sse"] =
  [([], Some ErrID); ([], Some ErrEndpointInvalid); ([], Some ErrSSEScheme)].
Proof. vm_compute. reflexivity. Qed.

(** A base port near the top of the range gets a default maximum above it, which
    the validation refuses. *)
Example default_max_port_overflows :
  let fd := {| (cfg_Federation zeroConfig) with fd_Enabled := true; fd_BasePort := 65534 |} in
  Config_Validate no_roots (ApplyDefaults {| (sample_config []) with cfg_Federation := fd |}) =
    ["federation.max_port must be >= base_port and <= 65535"].
Proof. vm_compute. reflexivity. Qed.
