(* ===== verification/SelfRefs.v ===== *)
(** * Self references ([internal/config/selfrefs.go])

    A target that names one of this process's own listeners follows the port the
    listener bound. The map of moved listeners is a list of its entries, in the
    order the loop meets them. The code rewrites the targets in the slice it shares
    with its caller, which replaces its configuration by the result. *)

From Stdlib Require Import ZArith NArith Lia Ascii.
From stdpp Require Import base tactics strings gmap.
From stdpp Require Import list.
From S2P Require Import Prelude Bytes Net Url UrlText Targets Config.

Open Scope Z_scope.
Open Scope go_scope.

Fixpoint rewrite_moved (raw : string) (u : URL) (moved : list (string * string)) : string :=
  match moved with
  | [] => raw
  | (configured, bound) :: moved =>
      if negb (SameListenerAddr (url_Host u) configured) then rewrite_moved raw u moved
      else
        match SplitHostPort bound with
        | None => raw
        | Some (_, boundPort) => URL_String {| u with url_Host := JoinHostPort (Hostname u) boundPort |}
        end
  end.

Definition rewriteSelfEndpoint (raw : string) (moved : list (string * string)) : string :=
  let trimmed := TrimSpace raw in
  if trimmed =s "" then raw
  else
    match Parse trimmed with
    | None => raw
    | Some u => if url_Host u =s "" then raw else rewrite_moved raw u moved
    end.

Definition rewrite_target (moved : list (string * string)) (t : TargetConfig) : TargetConfig :=
  {| t with
     tc_Endpoint := rewriteSelfEndpoint (tc_Endpoint t) moved;
     tc_URL := rewriteSelfEndpoint (tc_URL t) moved;
     tc_Auth := {| (tc_Auth t) with auth_RedirectURL := rewriteSelfEndpoint (auth_RedirectURL (tc_Auth t)) moved |};
     tc_Check := {| (tc_Check t) with cc_HURLTests :=
       map (λ ht, {| ht with ht_Endpoint := rewriteSelfEndpoint (ht_Endpoint ht) moved |}) (cc_HURLTests (tc_Check t)) |} |}.

Definition RewriteSelfReferences (cfg : Config) (moved : list (string * string)) : Config :=
  match moved with
  | [] => cfg
  | _ => {| cfg with cfg_Targets := map (rewrite_target moved) (cfg_Targets cfg) |}
  end.

(** ** Hosts with a port *)

Lemma SplitHostPort_inv h host port : SplitHostPort h = Some (host, port) → has_byte ":" port = false ∧
  ((h = host +:+ ":" +:+ port ∧ has_byte ":" host = false ∧ has_byte "[" h = false) ∨
   (h = "[" +:+ host +:+ "]:" +:+ port ∧ has_byte "[" host = false ∧ has_byte "]" host = false)).
Proof.
  unfold SplitHostPort, LastIndexByte. destruct (last_byte_cut ":" h) as [Hn|(a & b & -> & Hb)].
  { by rewrite last_index_none. }
  rewrite last_index_app by done. cbn [plus mbind option_bind]. rewrite sdrop_app_S, stake_app.
  destruct (HasPrefix (a +:+ String ":" b) "[") eqn:Hp.
  - apply HasPrefix_spec in Hp as [r Hr].
    destruct (IndexByte (a +:+ String ":" b) "]") as [e|] eqn:He; [|done]. cbn [mbind option_bind].
    destruct (S e =? String.length a)%nat eqn:Hlen; [|done]. cbn [negb]. apply Nat.eqb_eq in Hlen.
    destruct (has_byte "[" (sdrop 1 _)) eqn:Hl; [done|]. destruct (has_byte "]" _) eqn:Hrb; [done|].
    intros [= <- <-]. split; [done|]. right.
    (* the first closing bracket is the byte before the colon *)
    destruct (cut_byte "]" (a +:+ String ":" b)) as [H|(x & y & Hxy & Hx)]; [by rewrite index_byte_none in He|].
    rewrite Hxy, index_byte_app in He by done. injection He as <-.
    assert (a = x +:+ "]") as ->.
    { assert (a +:+ String ":" b = (x +:+ "]") +:+ y) as E by (rewrite Hxy, sapp_assoc; done).
      apply sapp_inj_length in E as [-> _]; [done|]. rewrite slength_app, <- Hlen. cbn. lia. }
    destruct x as [|c x].
    { change ("" +:+ "]") with "]" in *. change ("]" +:+ String ":" b) with (String "]" (String ":" b)) in Hr. by injection Hr. }
    assert (c = "["%char) as -> by (by injection Hr).
    cbn [String.length] in *. change (sdrop 1 _) with ((x +:+ "]") +:+ String ":" b) in Hl |- *.
    rewrite sapp_assoc in Hl |- *. replace (S (String.length x) - 1)%nat with (String.length x) by lia.
    rewrite has_byte_app in Hl. apply orb_false_iff in Hl as [Hl _].
    change (match String "[" x +:+ _ with "" => "" | String _ r0 => r0 end) with (x +:+ "]" +:+ String ":" b).
    rewrite stake_app. split; [done|]. split; [done|]. cbn in Hx. by apply orb_false_iff in Hx as [_ ?].
  - destruct (has_byte ":" a) eqn:Ha; [done|]. destruct (has_byte "[" _) eqn:Hl; [done|].
    destruct (has_byte "]" _); [done|]. intros [= <- <-]. split; [done|]. left. done.
Qed.

Lemma split_host_port_name host port : has_byte ":" port = false → has_byte "[" host = false → all_bytes is_dec port = true →
  split_host_port (host +:+ ":" +:+ port) = (host, port).
Proof.
  intros Hp Hl Hd. unfold split_host_port, LastIndexByte. change (":" +:+ port) with (String ":" port).
  rewrite last_index_app by done. cbn [plus]. rewrite sdrop_app, sdrop_app_S, stake_app. cbn [validOptionalPort]. rewrite Hd.
  destruct (HasPrefix host "[") eqn:Hh; [|done]. apply HasPrefix_spec in Hh as [t ->]. done.
Qed.

Lemma split_host_port_literal lit port : has_byte ":" port = false → all_bytes is_dec port = true →
  split_host_port ("[" +:+ lit +:+ "]:" +:+ port) = (lit, port).
Proof.
  intros Hp Hd. unfold split_host_port, LastIndexByte.
  assert ("[" +:+ lit +:+ "]:" +:+ port = ("[" +:+ lit +:+ "]") +:+ String ":" port) as -> by by rewrite !sapp_assoc.
  rewrite last_index_app by done. cbn [plus]. rewrite sdrop_app, sdrop_app_S, stake_app. cbn [validOptionalPort]. rewrite Hd.
  rewrite HasPrefix_app. assert (HasSuffix ("[" +:+ lit +:+ "]") "]" = true) as ->.
  { unfold HasSuffix. rewrite <- sapp_assoc, srev_app. apply (HasPrefix_app "]"). }
  cbn [andb]. change (sdrop 1 ("[" +:+ lit +:+ "]")) with (lit +:+ "]").
  rewrite !slength_app. cbn [String.length]. replace (1 + (String.length lit + 1) - 2)%nat with (String.length lit) by lia.
  by rewrite stake_app.
Qed.

(** The host of a parsed URL with its port replaced. *)
Lemma moved_host u text user configured port :
  parseAuthority text = Some (user, url_Host u) → has_byte "%" (url_Host u) = false →
  SameListenerAddr (url_Host u) configured = true → all_bytes is_dec port = true →
  let h := JoinHostPort (Hostname u) port in
  h ≠ "" ∧ host_ok h ∧ split_host_port h = (Hostname u, port).
Proof.
  intros Ha Hpc Hs Hd h. subst h. unfold SameListenerAddr in Hs.
  destruct (SplitHostPort (url_Host u)) as [[th tp]|] eqn:Hsplit; [|done]. clear Hs.
  assert (has_byte ":" port = false) as Hpp by (eapply all_bytes_no_byte; [|exact Hd]; done).
  destruct (parseAuthority_host _ _ _ Ha) as [t Ht].
  apply SplitHostPort_inv in Hsplit as (Htp & [(Hh & Hth & Hl)|(Hh & Hl & Hr)]);
    destruct (parseHost_cases _ _ Ht Hpc) as [(Hb & Hok)|(lit & l & p & Hlit & Hip & Hv)].
  - rewrite Hh in Hb, Hok. rewrite all_bytes_app in Hb. apply andb_true_iff in Hb as [Hb _].
    change (":" +:+ tp) with (String ":" tp) in Hok. unfold port_ok, LastIndexByte in Hok.
    rewrite last_index_app in Hok by done. cbn [plus] in Hok. rewrite sdrop_app_S in Hok.
    assert (has_byte "[" th = false) as Hlt by (eapply all_bytes_no_byte; [|exact Hb]; done).
    assert (Hostname u = th) as -> by (unfold Hostname; by rewrite Hh, split_host_port_name).
    unfold JoinHostPort. rewrite Hth. split; [by destruct th|]. split; [|by apply split_host_port_name].
    apply plain_host_ok.
    + rewrite all_bytes_app, Hb. cbn [andb]. change (":" +:+ port) with (String ":" port). cbn [all_bytes].
      change (plain_host_byte ":") with true. cbn [andb]. revert Hd. apply all_bytes_mono. intros c Hc.
      pose proof (ascii_all_spec (λ c, negb (is_dec c) || plain_host_byte c) eq_refl c) as H. cbv beta in H. by rewrite Hc in H.
    + unfold port_ok, LastIndexByte. change (":" +:+ port) with (String ":" port). rewrite last_index_app by done.
      cbn [plus]. by rewrite sdrop_app_S.
  - by rewrite Hlit in Hl.
  - exfalso. assert (has_byte "[" (url_Host u) = false) as H by (eapply all_bytes_no_byte; [|exact Hb]; done). by rewrite Hh in H.
  - rewrite Hh in Hlit. assert (has_byte "]" lit = false) as Hrl by (apply ip6_no_byte; [done|]; by eapply ParseIPv6_bytes).
    assert (th = lit ∧ p = ":" +:+ tp) as [-> ->].
    { injection Hlit as E. change ("]:" +:+ tp) with (String "]" (":" +:+ tp)) in E. change ("]" +:+ p) with (String "]" p) in E.
      by apply (sep_inj "]"%char) in E as [-> ->]. }
    change (validOptionalPort (String ":" tp) = true) in Hv. cbn in Hv.
    assert (Hostname u = lit) as -> by (unfold Hostname; by rewrite Hh, split_host_port_literal).
    unfold JoinHostPort. rewrite (ParseIPv6_colon _ _ Hip). split; [done|].
    split; [by eapply literal_host_ok|by apply split_host_port_literal].
Qed.

Lemma rewrite_moved_app raw u before configured bound after host port :
  Forall (λ m, SameListenerAddr (url_Host u) m.1 = false) before →
  SameListenerAddr (url_Host u) configured = true → SplitHostPort bound = Some (host, port) →
  rewrite_moved raw u (before ++ (configured, bound) :: after) = URL_String {| u with url_Host := JoinHostPort (Hostname u) port |}.
Proof.
  intros Hb Hc Hs. induction Hb as [|[c b] before Hcb _ IH]; cbn; [by rewrite Hc, Hs|].
  cbn in Hcb. by rewrite Hcb.
Qed.

(** A target that names a moved listener follows it and changes in nothing
    else. When the host of a URL is an address the listener is configured at, the
    rewritten text is again a URL, with the same host name, the port the listener
    bound, and the same scheme, user, path, query and fragment; a text that is no
    URL, has no host or names no moved listener is returned as it is. *)
Theorem rewriteSelfEndpoint_follows (raw : string) (moved : list (string * string)) :
  (∀ u before configured bound after host port,
     Parse (TrimSpace raw) = Some u → has_byte "%" (url_Host u) = false →
     moved = before ++ (configured, bound) :: after →
     Forall (λ m, SameListenerAddr (url_Host u) m.1 = false) before →
     SameListenerAddr (url_Host u) configured = true →
     SplitHostPort bound = Some (host, port) → all_bytes is_dec port = true →
     ∃ u', Parse (rewriteSelfEndpoint raw moved) = Some u' ∧ Hostname u' = Hostname u ∧ Port u' = port ∧
       normal {| u' with url_Host := url_Host u |} = normal u) ∧
  ((∀ u, Parse (TrimSpace raw) = Some u → url_Host u ≠ "" →
      Forall (λ m, SameListenerAddr (url_Host u) m.1 = false) moved) → rewriteSelfEndpoint raw moved = raw).
Proof.
  unfold rewriteSelfEndpoint. split.
  - intros u before configured bound after host port Hp Hpc -> Hb Hc Hs Hd. rewrite Hp.
    assert (url_Host u ≠ "") as Hh by (intros E; by rewrite E in Hc).
    assert (TrimSpace raw =s "" = false) as ->.
    { apply streq_false. intros E. rewrite E in Hp. vm_compute in Hp. injection Hp as <-. done. }
    rewrite (proj2 (streq_false _ _) Hh). rewrite (rewrite_moved_app raw u before configured bound after host port Hb Hc Hs).
    destruct (Parse_parts _ _ Hp Hh) as (Hwr & text & user & Ha).
    destruct (moved_host u text user configured port Ha Hpc Hc Hd) as (Hne & Hok & Hsp).
    set (v := {| u with url_Host := JoinHostPort (Hostname u) port |}).
    assert (writable v) as Hw by by apply Hwr.
    pose proof (Parse_String v Hw) as Hr. destruct (Parse (URL_String v)) as [u'|] eqn:Hu'; [|done].
    apply (inj Some) in Hr as Hn. exists u'. split; [done|].
    assert (url_Host u' = JoinHostPort (Hostname u) port) as Hu by (change (url_Host (normal u') = url_Host (normal v)); by rewrite Hn).
    unfold Hostname at 1, Port. rewrite Hu, Hsp. split; [done|]. split; [done|].
    exact (f_equal (λ x, {| x with url_Host := url_Host u |}) Hn).
  - intros H. destruct (_ =s ""); [done|]. destruct (Parse (TrimSpace raw)) as [u|]; [|done].
    destruct (url_Host u =s "") eqn:Hh; [done|]. apply streq_false in Hh. specialize (H u eq_refl Hh).
    induction H as [|[c b] moved Hc _ IH]; cbn; [done|]. cbn in Hc. by rewrite Hc.
Qed.

Lemma rewriteSelfEndpoint_follows_witness :
  let raw := " http://me:pw@[::1]:8091/mcp?x=1#f " in
  let moved := [("localhost:9000", "localhost:9001"); ("127.0.0.1:8091", "127.0.0.1:8093")] in
  (∃ u', Parse (rewriteSelfEndpoint raw moved) = Some u' ∧ Hostname u' = "::1" ∧ Port u' = "8093") ∧
  rewriteSelfEndpoint "http://10.0.0.5:8091/mcp" moved = "http://10.0.0.5:8091/mcp".
Proof.
  intros raw moved. split.
  - destruct (rewriteSelfEndpoint_follows raw moved) as [H _].
    destruct (Parse (TrimSpace raw)) as [u|] eqn:Hu; [|vm_compute in Hu; discriminate].
    assert (url_Host u = "[::1]:8091") as Hh by (vm_compute in Hu; by injection Hu as <-).
    destruct (H u [("localhost:9000", "localhost:9001")] "127.0.0.1:8091" "127.0.0.1:8093" [] "127.0.0.1" "8093" eq_refl)
      as (u' & Hp & Hn & Hport & _); rewrite ?Hh; try (vm_compute; reflexivity); [by repeat constructor|].
    exists u'. split; [done|]. split; [|done]. rewrite Hn. unfold Hostname. rewrite Hh. vm_compute. reflexivity.
  - apply (rewriteSelfEndpoint_follows "http://10.0.0.5:8091/mcp" moved). intros u Hu _. vm_compute in Hu.
    injection Hu as <-. repeat constructor.
Defined.

(** When two listeners that named the same port have moved, which of them a target
    follows depends on the order of the map. *)
Example which_listener_is_chance :
  let moved := [("localhost:8080", "localhost:8081"); ("127.0.0.1:8080", "127.0.0.1:8082")] in
  (rewriteSelfEndpoint "http://localhost:8080/healthz" moved, rewriteSelfEndpoint "http://localhost:8080/healthz" (reverse moved)) =
  ("http://localhost:8081/healthz", "http://localhost:8082/healthz").
Proof. vm_compute. reflexivity. Qed.

(** A target that leaves out the port of its scheme is not recognised. *)
Example default_port_not_followed :
  rewriteSelfEndpoint "http://localhost/healthz" [("localhost:80", "localhost:81")] = "http://localhost/healthz".
Proof. vm_compute. reflexivity. Qed.
