(* ===== verification/Discovery.v ===== *)
(** * Discovery ([internal/discovery/discovery.go])

    Targets worth watching, found in the configuration, in environment variables,
    by scanning local ports and in llms.txt documents. The environment, the dialer
    and the HTTP client are [Surroundings], asked at the instants of the program's
    run; a context is done or not at such an instant. A confidence is a rational.
    The text of an error is left out. *)

From Stdlib Require Import ZArith NArith QArith Lia Ascii.
From stdpp Require Import base tactics strings gmap sorting.
From stdpp Require Import list.
From S2P Require Import Prelude Bytes Durations Net Url Targets Config.

Open Scope Z_scope.
Open Scope go_scope.

(** ** Data *)

Record DiscoveryRecord := mkRecord {
  rec_Target : Target;
  rec_Source : string;
  rec_Confidence : Q;
  rec_Evidence : gmap string string;
}.

Inductive discovery_error :=
  | ErrDone
  | ErrEnvCandidate (envName candidate : string)
  | ErrScanPort (port : Z)
  | ErrProbe (host : string) (port : Z)
  | ErrFetch (uri : string)
  | ErrLLMSParse (uri : string).

Record DiscoveryResult := mkDiscoveryResult {
  dr_StartedAt : Time;
  dr_FinishedAt : Time;
  dr_Records : list DiscoveryRecord;
  dr_Errors : list discovery_error;
}.

(** The client is known by its timeout. *)
Record Discoverer := mkDiscoverer {
  DialTimeout : Duration;
  ProbeTimeout : Duration;
  httpClient : option Duration;
}.

Definition Millisecond : Duration := 1000000.

Definition WithDialTimeout (d : Duration) (ds : Discoverer) : Discoverer :=
  if 0 <? d then {| ds with DialTimeout := d |} else ds.
Definition WithProbeTimeout (d : Duration) (ds : Discoverer) : Discoverer :=
  if 0 <? d then {| ds with ProbeTimeout := d |} else ds.
Definition WithHTTPClient (c : option Duration) (ds : Discoverer) : Discoverer :=
  match c with Some _ => {| ds with httpClient := c |} | None => ds end.

Definition New (options : list (Discoverer → Discoverer)) : Discoverer :=
  let ds := foldl (λ ds opt, opt ds) (mkDiscoverer (250 * Millisecond) (900 * Millisecond) None) options in
  match httpClient ds with Some _ => ds | None => {| ds with httpClient := Some (ProbeTimeout ds) |} end.

(** The outside world at an instant: [getenv] is [os.LookupEnv], [tcp_open] whether
    a connection to an address succeeds, [http_get] the status and body a GET is
    answered with, [None] when it fails. *)
Record Surroundings := mkSurroundings {
  ctx_done : nat → bool;
  getenv : string → option string;
  tcp_open : nat → string → bool;
  http_get : nat → string → option (Z * string);
}.

(** ** Helpers *)

Definition mustDuration (raw : string) (fallback : Duration) : Duration :=
  match ParseDuration raw with
  | Some d => if d <=? 0 then fallback else d
  | None => fallback
  end.

Fixpoint filter_bytes (p : ascii → bool) (s : string) : string :=
  match s with
  | "" => ""
  | String c r => if p c then String c (filter_bytes p r) else filter_bytes p r
  end.

Definition id_byte (c : ascii) : bool :=
  ((97 <=? code c) && (code c <=? 122)) || is_dec c || bool_decide (c = "-"%char).

Definition dashes (v : string) : string :=
  fold_left (λ v old, ReplaceAll v old "-") [" "; "_"; "."; "/"; ":"] v.
Definition safeID (v : string) : string :=
  let out := Trim (filter_bytes id_byte (dashes (ToLower v))) ["-"%char] in
  if out =s "" then "discovered-target" else out.

Definition dedupeKey (t : Target) : string :=
  ToLower (tgt_Protocol t +:+ "|" +:+ tgt_Transport t +:+ "|" +:+ tgt_Endpoint t).

Definition inferProtoFromEndpoint (endpoint : string) : string * Q :=
  let e := ToLower endpoint in
  if Contains e "/acp" then (ProtocolACP, 82 # 100)
  else if Contains e "/mcp" then (ProtocolMCP, 85 # 100)
  else (ProtocolHTTP, 55 # 100).

Definition inferProtoFromEnvOrURL (envName raw : string) : string :=
  let en := ToLower envName in
  let ru := ToLower raw in
  if Contains en "acp" || Contains ru "/acp" then ProtocolACP
  else if Contains en "mcp" || Contains ru "/mcp" then ProtocolMCP
  else ProtocolHTTP.

Definition defaultStatusCodesForTransport (t : string) : list Z :=
  if t =s TransportWebSocket then [101] else [200].

Definition authNone : AuthConfig := mkAuthConfig AuthNone "" "" "" "" "" "" "" [] "".

(** What the three sources fill in of a target. *)
Definition discovered_target (id protocol name endpoint transport : string) (codes : list Z) (auth : AuthConfig)
    (interval timeout : Duration) (tags meta : gmap string string) : Target :=
  mkTarget id true protocol name endpoint transport "" (mkExpected codes [] 0 "") auth
    (mkStdio "" [] ∅ "") (mkCheckPolicy interval timeout 1 "" [] []) tags meta ∅.

(** ** The configuration *)

Definition mapHURLTestsFromConfig (tests : list HURLTest) : list HURLTest :=
  map (λ ht, mkHURLTest (ht_Name ht) (ht_File ht) (ht_Endpoint ht) (ht_Method ht) (ht_Headers ht) (ht_Body ht)) tests.

Definition toTargetFromConfig (t : TargetConfig) : Target :=
  let a := tc_Auth t in
  let c := tc_Check t in
  let e := tc_Expected t in
  mkTarget (tc_ID t) (tc_Enabled t) (ToLower (tc_Protocol t)) (tc_Name t) (tc_Endpoint t) (ToLower (tc_Transport t)) ""
    (mkExpected (HealthyStatusCodes e) (MinCapabilities e) (KnownAgentCountMin e) (ExpectedVersion e))
    (mkAuthConfig (ToLower (auth_Type a)) (auth_Header a) (auth_KeyName a) (auth_SecretRef a) (auth_ClientID a)
       (auth_TokenURL a) (auth_RedirectURL a) (auth_CallbackID a) (auth_Scopes a) "")
    (mkStdio (Command (tc_Stdio t)) (Args (tc_Stdio t)) (Env_ (tc_Stdio t)) (Cwd (tc_Stdio t)))
    (mkCheckPolicy (mustDuration (cc_Interval c) (15 * Second)) (mustDuration (cc_Timeout c) (5 * Second))
       (cc_Retries c) (cc_HandshakeProfile c) (cc_RequiredMethods c) (mapHURLTestsFromConfig (cc_HURLTests c)))
    ∅ ∅ ∅.

Definition static_record (t : TargetConfig) : DiscoveryRecord :=
  mkRecord (toTargetFromConfig t) "static_config" 1 {["target_id" := tc_ID t]}.
Definition static_records (cfg : Config) : list DiscoveryRecord :=
  map static_record (filter (λ t, tc_Enabled t = true) (cfg_Targets cfg)).

(** ** Findings of a source *)

Record Found := mkFound { found : list DiscoveryRecord; problems : list discovery_error }.
Definition nothing : Found := mkFound [] [].

Definition found_record (r : DiscoveryRecord) : M Found unit := modify (λ f, {| f with found := found f ++ [r] |}).
Definition problem_found (e : discovery_error) : M Found unit := modify (λ f, {| f with problems := problems f ++ [e] |}).

Section Sources.
Context (io : Surroundings).

(** The test of the context at the head of a loop: [true] leaves every loop. *)
Definition cancelled : M Found bool :=
  n ← moment;
  if ctx_done io n then _ ← problem_found ErrDone; mret true else mret false.

(** ** Environment variables *)

Definition env_separator (c : ascii) : bool :=
  one_of ",; " c || bool_decide (c = ascii_of_N 10) || bool_decide (c = ascii_of_N 9).

(** [strings.FieldsFunc] *)
Fixpoint fields_func (sep : ascii → bool) (cur : string) (s : string) : list string :=
  let flush := if cur =s "" then [] else [String.rev cur] in
  match s with
  | "" => flush
  | String c r => if sep c then flush ++ fields_func sep "" r else fields_func sep (String c cur) r
  end.

Definition splitEnvTargets (raw : string) : list string :=
  filter (λ p, p ≠ "") (map TrimSpace (fields_func env_separator "" raw)).

Definition envCandidateToTarget (envName raw : string) (idx : Z) : option Target :=
  let raw := if Contains raw "://" then raw else "http://" +:+ raw in
  if negb (existsb (HasPrefix raw) ["http://"; "https://"; "ws://"; "wss://"]) then None
  else
    let proto := inferProtoFromEnvOrURL envName raw in
    let transport := if existsb (HasPrefix raw) ["ws://"; "wss://"] then TransportWebSocket else TransportHTTP in
    let id := safeID ("env-" +:+ ToLower envName +:+ "-" +:+ Itoa idx) in
    Some (discovered_target id proto ("Env discovered " +:+ envName) raw transport
      (defaultStatusCodesForTransport transport) authNone (20 * Second) (5 * Second)
      (<["discovered" := "true"]> {["env_var" := envName]}) ∅).

Fixpoint env_candidates (envName : string) (idx : Z) (cs : list string) : M Found bool :=
  match cs with
  | [] => mret false
  | c :: cs =>
      stop ← cancelled;
      if stop : bool then mret true
      else
        _ ← match envCandidateToTarget envName c idx with
            | None => problem_found (ErrEnvCandidate envName c)
            | Some t => found_record (mkRecord t "env" (70 # 100) (<["env_var" := envName]> {["value" := c]}))
            end;
        env_candidates envName (idx + 1) cs
  end.

Fixpoint env_vars (names : list string) : M Found bool :=
  match names with
  | [] => mret false
  | name :: names =>
      if name =s "" then env_vars names
      else
        match getenv io name with
        | None => env_vars names
        | Some val =>
            if blank val then env_vars names
            else
              stop ← env_candidates name 0 (splitEnvTargets val);
              if stop : bool then mret true else env_vars names
        end
  end.

Definition discoverFromEnv (cfg : Config) : M Found Found :=
  _ ← modify (λ _, nothing);
  _ ← env_vars (dsc_IncludeEnvVars (cfg_Discovery cfg));
  get.

(** ** Local ports *)

(** A refused, unreachable or timed out connection is no error. *)
Definition isTCPPortOpen (host : string) (port : Z) : M Found (bool + unit) :=
  n ← moment; mret (inl (tcp_open io n (JoinHostPort host (Itoa port)))).

(** Whether there was an answer, and its status; [None] is the error. *)
Definition httpReachable (endpoint : string) : M Found (option (bool * Z)) :=
  n ← moment; mret ((λ a, (true, a.1)) <$> http_get io n endpoint).

Definition local_record (cfg : Config) (host : string) (port : Z) (endpoint : string) (status : Z) : DiscoveryRecord :=
  let '(proto, confidence) := inferProtoFromEndpoint endpoint in
  let p := Itoa port in
  let id := safeID ("discovered-" +:+ host +:+ "-" +:+ p +:+ "-" +:+ proto) in
  mkRecord
    (discovered_target id proto ("Discovered " +:+ ToUpper proto +:+ " " +:+ host +:+ ":" +:+ p) endpoint TransportHTTP
       [200; 204] authNone (mustDuration (svc_PollInterval (cfg_Service cfg)) (15 * Second))
       (mustDuration (svc_Timeout (cfg_Service cfg)) (5 * Second))
       (<["discovered" := "true"]> (<["host" := host]> {["port" := p]})) ∅)
    "local_proxy_scan" confidence (<["status_code" := Itoa status]> {["probe" := endpoint]}).

(** The first candidate that answers ends the loop. *)
Fixpoint probe_endpoints (cfg : Config) (host : string) (port : Z) (candidates : list string) : M Found unit :=
  match candidates with
  | [] => mret tt
  | endpoint :: candidates =>
      answer ← httpReachable endpoint;
      match answer with
      | Some (true, status) => found_record (local_record cfg host port endpoint status)
      | _ => probe_endpoints cfg host port candidates
      end
  end.

Definition candidate_endpoints (host : string) (port : Z) : list string :=
  map (λ path, "http://" +:+ host +:+ ":" +:+ Itoa port +:+ path) ["/mcp"; "/acp"; "/healthz"; "/"].

Fixpoint probe_ports (cfg : Config) (host : string) (ports : list Z) : M Found bool :=
  match ports with
  | [] => mret false
  | port :: ports =>
      stop ← cancelled;
      if stop : bool then mret true
      else if (port <? 1) || (65535 <? port) then
        _ ← problem_found (ErrScanPort port); probe_ports cfg host ports
      else
        r ← isTCPPortOpen host port;
        _ ← match r with
            | inr _ => problem_found (ErrProbe host port)
            | inl false => mret tt
            | inl true => probe_endpoints cfg host port (candidate_endpoints host port)
            end;
        probe_ports cfg host ports
  end.

Fixpoint probe_hosts (cfg : Config) (ports : list Z) (hosts : list string) : M Found bool :=
  match hosts with
  | [] => mret false
  | host :: hosts =>
      stop ← probe_ports cfg host ports;
      if stop : bool then mret true else probe_hosts cfg ports hosts
  end.

Definition discoverLocalProxies (cfg : Config) : M Found Found :=
  _ ← modify (λ _, nothing);
  let scan := dsc_LocalProxyScan (cfg_Discovery cfg) in
  _ ← (if negb (lps_Enabled scan) then mret false
       else
         let hosts := match lps_Hosts scan with [] => ["localhost"; "localhost"] | l => l end in
         let ports := match lps_Ports scan with [] => [3000; 4317; 4318; 8080; 9000] | l => l end in
         probe_hosts cfg ports hosts);
  get.

(** ** llms.txt *)

Record llmsCandidate := mkCandidate {
  cand_Name : string;
  cand_URL : string;
  cand_Section : string;
  cand_Notes : string;
  cand_Optional : bool;
}.

(** The class [\s] of [regexp]. *)
Definition re_space (c : ascii) : bool :=
  match N_of_ascii c with 9%N | 10%N | 12%N | 13%N | 32%N => true | _ => false end.
Fixpoint skip_spaces (s : string) : string :=
  match s with
  | String c r => if re_space c then skip_spaces r else s
  | "" => ""
  end.
Definition expect (p s : string) : option string :=
  if HasPrefix s p then Some (sdrop (String.length p) s) else None.
(** One byte or more up to [stop], which has to be there. *)
Definition until (stop : ascii) (s : string) : option (string * string) :=
  i ← IndexByte s stop; if (i =? 0)%nat then None else Some (stake i s, sdrop i s).

(** [llmsLinkPattern], on a line: a link [- \[name\](target)] with optional notes
    after a colon. No alternative of the pattern needs backtracking. *)
Definition llmsLinkPattern (line : string) : option (string * string * string) :=
  s ← expect "-" (skip_spaces line);
  s ← expect "[" (skip_spaces s);
  nr ← until "]" s;
  s ← expect "](" nr.2;
  lr ← until ")" s;
  let rest := sdrop 1 lr.2 in
  if HasPrefix rest ":" then Some (nr.1, lr.1, skip_spaces (sdrop 1 rest))
  else if skip_spaces rest =s "" then Some (nr.1, lr.1, "") else None.

Definition resolveLLMSLink (baseURI rawLink : string) : option string :=
  base ← Parse (TrimSpace baseURI);
  ref ← Parse (TrimSpace rawLink);
  let resolved := ResolveReference base ref in
  if (url_Scheme resolved =s "") || (url_Host resolved =s "") then None
  else if negb (mem (url_Scheme resolved) ["http"; "https"; "ws"; "wss"]) then None
  else Some (URL_String resolved).

Definition candidateLooksLikeMCPOrACP (name link notes section : string) : bool :=
  let s := ToLower (Join [name; link; notes; section] " ") in
  if Contains s "mcp" || Contains s "model context protocol" then true
  else Contains s "acp" || Contains s "agent client protocol".

Definition candidate_text (c : llmsCandidate) : string :=
  ToLower (Join [cand_Name c; cand_URL c; cand_Notes c; cand_Section c] " ").

Definition inferProtocolFromLLMSCandidate (c : llmsCandidate) : string * Q :=
  let text := candidate_text c in
  if Contains text "acp" || Contains text "agent client protocol" then (ProtocolACP, 84 # 100)
  else if Contains text "mcp" || Contains text "model context protocol" then (ProtocolMCP, 88 # 100)
  else inferProtoFromEndpoint (cand_URL c).

(** [bufio.Scanner] over the lines: a line that does not fit its buffer with its
    end is an error. *)
Definition MaxScanTokenSize : Z := 65536.
Definition drop_cr (line : string) : string := TrimSuffix line (byte_of 13).
Definition text_lines (content : string) : list string :=
  let lines := Split content (ascii_of_N 10) in
  match last lines with Some "" => removelast lines | _ => lines end.
Definition line_too_long (line : string) : bool := MaxScanTokenSize <=? Z.of_nat (String.length line).

(** The section the lines are in, and whether it is the optional one. *)
Definition parse_line (baseURI : string) (st : string * bool) (line : string) : string * bool * option llmsCandidate :=
  let line := TrimSpace line in
  if line =s "" then (st, None)
  else if HasPrefix line "## " then
    let section := TrimSpace (TrimPrefix line "## ") in
    (section, EqualFold section "Optional", None)
  else
    match llmsLinkPattern line with
    | None => (st, None)
    | Some (name, link, notes) =>
        let name := TrimSpace name in
        let notes := TrimSpace notes in
        match resolveLLMSLink baseURI (TrimSpace link) with
        | None => (st, None)
        | Some resolved =>
            if negb (candidateLooksLikeMCPOrACP name resolved notes st.1) then (st, None)
            else (st, Some (mkCandidate name resolved st.1 notes st.2))
        end
    end.

Fixpoint parse_lines (baseURI : string) (st : string * bool) (lines : list string) : list llmsCandidate :=
  match lines with
  | [] => []
  | line :: lines =>
      let '(st, c) := parse_line baseURI st (drop_cr line) in
      option_list c ++ parse_lines baseURI st lines
  end.

(** [None] is the scanner's error. *)
Definition parseLLMSTxtCandidates (baseURI content : string) : option (list llmsCandidate) :=
  let lines := text_lines content in
  if existsb line_too_long lines then None else Some (parse_lines baseURI ("", false) lines).

Definition candidateHintsOAuth (c : llmsCandidate) : bool :=
  existsb (Contains (candidate_text c)) ["oauth"; "oidc"; "openid"; "bearer"; "token"; "auth"].

Definition token_url (scheme host : string) : string := scheme +:+ "://" +:+ host +:+ "/oauth/token".
Definition inferOAuthTokenURL (endpoint fallbackBase : string) : string :=
  let fallback :=
    match Parse (TrimSpace fallbackBase) with
    | Some base =>
        if url_Host base =s "" then token_url "https" "example.com"
        else if EqualFold (url_Scheme base) "http" then token_url "http" (url_Host base)
        else token_url "https" (url_Host base)
    | None => token_url "https" "example.com"
    end in
  match Parse (TrimSpace endpoint) with
  | Some ep =>
      let scheme := ToLower (url_Scheme ep) in
      if url_Host ep =s "" then fallback
      else if mem scheme ["http"; "ws"] then token_url "http" (url_Host ep)
      else if mem scheme ["https"; "wss"] then token_url "https" (url_Host ep)
      else fallback
  | None => fallback
  end.

Definition defaultOAuthScopesForProtocol (proto : string) : list string :=
  if proto =s ProtocolACP then ["acp.read"; "acp.execute"]
  else if proto =s ProtocolMCP then ["mcp.read"; "mcp.execute"]
  else ["api.read"].

Definition authFromLLMSCandidate (remoteURI : string) (c : llmsCandidate) (proto : string) (autoOAuth : bool) : AuthConfig :=
  if negb autoOAuth || negb (candidateHintsOAuth c) then authNone
  else
    mkAuthConfig AuthOAuth "" "" ("keychain://ocd-smoke-alarm/" +:+ safeID (cand_Name c) +:+ "/client-secret")
      "ocd-smoke-alarm" (inferOAuthTokenURL (cand_URL c) remoteURI) "http://localhost:8877/oauth/callback"
      (safeID (cand_Name c) +:+ "-callback") (defaultOAuthScopesForProtocol proto) "".

Definition looksLikeSSEEndpoint (u : URL) : bool :=
  let full := ToLower (TrimSpace (url_Path u)) +:+ "?" +:+ ToLower (TrimSpace (url_RawQuery u)) in
  existsb (Contains full) ["sse"; "event-stream"; "/events"; "/stream"].

Definition transportFromURL (raw : string) : string :=
  match Parse raw with
  | None => TransportHTTP
  | Some u =>
      let scheme := ToLower (url_Scheme u) in
      if mem scheme ["ws"; "wss"] then TransportWebSocket
      else if mem scheme ["http"; "https"] then
        if looksLikeSSEEndpoint u then TransportSSE else TransportHTTP
      else TransportHTTP
  end.

Definition hostKey (raw : string) : string :=
  match Parse raw with
  | None => "llms"
  | Some u => let h := ToLower (TrimSpace (Hostname u)) in if h =s "" then "llms" else safeID h
  end.

(** What [io.LimitReader] lets through. *)
Definition maxLLMSTxtBytes : Z := 2097152.

Definition fetchLLMSTxt (uri : string) : M Found (option string) :=
  n ← moment;
  mret match http_get io n uri with
       | Some (status, body) =>
           if (status <? 200) || (300 <=? status) then None
           else Some (stake (Z.to_nat (Z.min maxLLMSTxtBytes (Z.of_nat (String.length body)))) body)
       | None => None
       end.

Definition llms_record (cfg : Config) (uri host : string) (i : Z) (c : llmsCandidate) : option DiscoveryRecord :=
  let '(proto, confidence) := inferProtocolFromLLMSCandidate c in
  if negb (proto =s ProtocolMCP) && negb (proto =s ProtocolACP) then None
  else if blank (cand_URL c) then None
  else
    let transport := transportFromURL (cand_URL c) in
    let name := TrimSpace (cand_Name c) in
    Some (mkRecord
      (discovered_target (safeID ("llms-" +:+ host +:+ "-" +:+ Itoa i +:+ "-" +:+ proto)) proto
         (if name =s "" then "LLMS discovered " +:+ ToUpper proto +:+ " target" else name) (cand_URL c) transport
         (defaultStatusCodesForTransport transport)
         (authFromLLMSCandidate uri c proto (llm_AutoRegisterOAuth (dsc_LLMSTxt (cfg_Discovery cfg))))
         (mustDuration (svc_PollInterval (cfg_Service cfg)) (15 * Second))
         (mustDuration (svc_Timeout (cfg_Service cfg)) (5 * Second))
         (list_to_map [("discovered", "true"); ("source", "llms_txt"); ("llms_section", cand_Section c);
                       ("llms_optional", if cand_Optional c then "true" else "false"); ("llms_remote_uri", uri)])
         {["llms_notes" := cand_Notes c]})
      "llms_txt" confidence
      (list_to_map [("remote_uri", uri); ("section", cand_Section c); ("link_name", cand_Name c); ("link_url", cand_URL c)])).

Fixpoint llms_records (cfg : Config) (uri host : string) (i : Z) (cs : list llmsCandidate) : list DiscoveryRecord :=
  match cs with
  | [] => []
  | c :: cs => option_list (llms_record cfg uri host i c) ++ llms_records cfg uri host (i + 1) cs
  end.

Fixpoint llms_uris (cfg : Config) (uris : list string) : M Found unit :=
  match uris with
  | [] => mret tt
  | rawURI :: uris =>
      let uri := TrimSpace rawURI in
      if uri =s "" then llms_uris cfg uris
      else
        content ← fetchLLMSTxt uri;
        _ ← match content with
            | None => problem_found (ErrFetch uri)
            | Some content =>
                match parseLLMSTxtCandidates uri content with
                | None => problem_found (ErrLLMSParse uri)
                | Some cs =>
                    if negb (llm_AutoRegisterAsTargets (dsc_LLMSTxt (cfg_Discovery cfg))) then mret tt
                    else modify (λ f, {| f with found := found f ++ llms_records cfg uri (hostKey uri) 0 cs |})
                end
            end;
        llms_uris cfg uris
  end.

Definition discoverFromLLMSTxt (cfg : Config) : M Found Found :=
  _ ← modify (λ _, nothing);
  let llms := dsc_LLMSTxt (cfg_Discovery cfg) in
  _ ← (if negb (llm_Enabled llms) then mret tt else llms_uris cfg (llm_RemoteURIs llms));
  get.

(** ** [Discover] *)

Definition keep_first (st : gset string * list DiscoveryRecord) (r : DiscoveryRecord) : gset string * list DiscoveryRecord :=
  let key := dedupeKey (rec_Target r) in
  if decide (key ∈ st.1) then st else ({[key]} ∪ st.1, st.2 ++ [r]).
Definition merge_records (st : gset string * list DiscoveryRecord) (rs : list DiscoveryRecord) :=
  foldl keep_first st rs.

(** [sort_records] is [sort.Slice] by the targets' IDs. *)
Definition Discover (sort_records : list DiscoveryRecord → list DiscoveryRecord) (cfg : Config) : M Found DiscoveryResult :=
  started ← clock;
  let out := merge_records (∅, []) (static_records cfg) in
  r ← (if negb (dsc_Enabled (cfg_Discovery cfg)) then mret (out, [])
       else
         envs ← discoverFromEnv cfg;
         let out := merge_records out (found envs) in
         lps ← discoverLocalProxies cfg;
         let out := merge_records out (found lps) in
         llms ← discoverFromLLMSTxt cfg;
         mret (merge_records out (found llms), problems envs ++ problems lps ++ problems llms));
  finished ← clock;
  mret (mkDiscoveryResult started finished (sort_records r.1.2) r.2).

End Sources.

(** ** Identifiers and durations *)

Lemma filter_bytes_all p s : all_bytes p (filter_bytes p s) = true.
Proof. induction s as [|c s IH]; [done|]. cbn. destruct (p c) eqn:Hp; cbn; by rewrite ?Hp. Qed.

Lemma all_bytes_Trim p s cutset : all_bytes p s = true → all_bytes p (Trim s cutset) = true.
Proof. intros H. unfold Trim. rewrite all_bytes_rev. apply all_bytes_trim_runes. rewrite all_bytes_rev. by apply all_bytes_trim_runes. Qed.

Lemma safeID_spec v : all_bytes id_byte (safeID v) = true ∧ safeID v ≠ "".
Proof.
  unfold safeID. destruct (_ =s "") eqn:He; [by vm_compute|]. apply streq_false in He.
  split; [|done]. apply all_bytes_Trim, filter_bytes_all.
Qed.

Lemma id_byte_not_space c : id_byte c = true → Forall (λ r, has_byte c r = false) space_runes.
Proof.
  intros Hl. enough (forallb (λ r, negb (has_byte c r)) space_runes = true) as H.
  { apply Forall_forall. intros r Hin. rewrite forallb_forall in H. apply negb_true_iff, H. by apply list_elem_of_In. }
  destruct c as [[] [] [] [] [] [] [] []]; solve [discriminate Hl | vm_compute; reflexivity].
Qed.

Lemma id_not_blank s : all_bytes id_byte s = true → s ≠ "" → blank s = false.
Proof.
  destruct s as [|c s]; [done|]. cbn. intros [Hc%id_byte_not_space _]%andb_true_iff _.
  apply (keeps_not_blank c); [done|]. cbn. by rewrite bool_decide_true.
Qed.

Lemma mustDuration_pos raw fallback : 0 < fallback → 0 < mustDuration raw fallback.
Proof. intros H. unfold mustDuration. destruct (ParseDuration raw); [|done]. destruct (_ <=? 0) eqn:E; go_bools; lia. Qed.

(** ** What a discovered target is worth *)

(** The one thing validation can find wrong with a discovered target. *)
Definition endpoint_verdict (t : Target) : option target_error :=
  if valid_uri (tgt_Endpoint t) then None else Some ErrEndpointInvalid.

Lemma discovered_target_valid id protocol name endpoint transport codes auth interval timeout tags meta :
  blank id = false → protocol ≠ "" → blank endpoint = false →
  transport ∈ [TransportHTTP; TransportWebSocket] ∨
    (transport = TransportSSE ∧ ∀ u, ParseRequestURI endpoint = Some u → url_Scheme u ∈ ["http"; "https"]) →
  0 < interval → 0 < timeout → validate_auth auth = None →
  let t := discovered_target id protocol name endpoint transport codes auth interval timeout tags meta in
  Validate t = endpoint_verdict t.
Proof.
  intros Hid Hp He Ht Hi Ho Ha t. unfold Validate, endpoint_verdict. cbn [tgt_ID tgt_Protocol t discovered_target tgt_Auth tgt_Check HURLTests first_error].
  rewrite Hid, Ha, (proj2 (streq_false _ _) Hp). cbn [guard_err orelse].
  assert (validate_check (mkCheckPolicy interval timeout 1 "" [] []) = None) as ->.
  { unfold validate_check. cbn [Timeout Interval Retries HandshakeProfile RequiredMethods].
    by rewrite !(proj2 (Z.leb_gt _ _)) by lia. }
  unfold validate_transport. cbn [tgt_Transport tgt_Endpoint t discovered_target].
  rewrite He. unfold valid_uri. destruct Ht as [Ht|[-> Hs]].
  - rewrite !elem_of_cons, elem_of_nil in Ht.
    destruct Ht as [-> | [-> | []]]; cbn; by destruct (ParseRequestURI endpoint).
  - cbn. destruct (ParseRequestURI endpoint) as [u|]; [|done]. specialize (Hs u eq_refl).
    rewrite !elem_of_cons, elem_of_nil in Hs. by destruct Hs as [-> | [-> | []]].
Qed.

Lemma transportFromURL_ok raw :
  transportFromURL raw ∈ [TransportHTTP; TransportWebSocket] ∨
    (transportFromURL raw = TransportSSE ∧ ∀ u, ParseRequestURI raw = Some u → url_Scheme u ∈ ["http"; "https"]).
Proof.
  unfold transportFromURL. destruct (Parse raw) as [u|] eqn:Hu; [|left; by left].
  destruct (mem _ ["ws"; "wss"]); [left; right; by left|]. destruct (mem _ ["http"; "https"]) eqn:Hm; [|left; by left].
  destruct (looksLikeSSEEndpoint u); [|left; by left]. right. split; [done|]. intros u' Hu'.
  rewrite (Parse_scheme_lower _ _ Hu) in Hm. apply mem_true in Hm.
  erewrite ParseRequestURI_scheme; [exact Hm|exact Hu| |exact Hu'].
  intros Hs. rewrite Hs in Hm. by apply mem_true in Hm.
Qed.

(** A record of a dynamic source: an identifier of plain bytes, a known protocol,
    less confidence than the configuration has, and a target that validates when
    its endpoint is a URI. *)
Definition discovered (source : string) (r : DiscoveryRecord) : Prop :=
  let t := rec_Target r in
  rec_Source r = source ∧ (rec_Confidence r < 1)%Q ∧
  all_bytes id_byte (tgt_ID t) = true ∧ tgt_ID t ≠ "" ∧
  tgt_Protocol t ∈ [ProtocolMCP; ProtocolACP; ProtocolHTTP] ∧ tgt_Enabled t = true ∧
  Validate t = endpoint_verdict t.

Lemma discovered_intro source id protocol name endpoint transport codes auth interval timeout tags meta confidence evidence :
  (confidence < 1)%Q → protocol ∈ [ProtocolMCP; ProtocolACP; ProtocolHTTP] → blank endpoint = false →
  transport ∈ [TransportHTTP; TransportWebSocket] ∨
    (transport = TransportSSE ∧ ∀ u, ParseRequestURI endpoint = Some u → url_Scheme u ∈ ["http"; "https"]) →
  0 < interval → 0 < timeout → validate_auth auth = None →
  discovered source (mkRecord (discovered_target (safeID id) protocol name endpoint transport codes auth interval timeout
    tags meta) source confidence evidence).
Proof.
  intros Hc Hp He Ht Hi Ho Ha. destruct (safeID_spec id) as [Hb Hn]. unfold discovered.
  cbn [rec_Source rec_Confidence rec_Target tgt_ID tgt_Protocol tgt_Enabled discovered_target].
  split_and!; try done. apply discovered_target_valid; try done.
  - by apply id_not_blank.
  - intros ->. by rewrite !elem_of_cons, elem_of_nil in Hp; naive_solver.
Qed.

(** The protocols the inference functions answer. *)
Ltac listed := solve [repeat first [by left | right]].
Ltac protocol_known := repeat case_match; listed.

Lemma env_protocol envName raw : inferProtoFromEnvOrURL envName raw ∈ [ProtocolMCP; ProtocolACP; ProtocolHTTP].
Proof. unfold inferProtoFromEnvOrURL. protocol_known. Qed.

Lemma endpoint_protocol endpoint :
  (inferProtoFromEndpoint endpoint).1 ∈ [ProtocolMCP; ProtocolACP; ProtocolHTTP] ∧ ((inferProtoFromEndpoint endpoint).2 < 1)%Q.
Proof. unfold inferProtoFromEndpoint. repeat case_match; (split; [listed|done]). Qed.

Lemma existsb_prefix s ps : existsb (HasPrefix s) ps = true → ∃ p t, p ∈ ps ∧ s = p +:+ t.
Proof.
  intros (p & Hin & [t Ht]%HasPrefix_spec)%existsb_exists. exists p, t. by split; [apply list_elem_of_In|].
Qed.

Lemma env_target_discovered envName raw idx t evidence :
  envCandidateToTarget envName raw idx = Some t → discovered "env" (mkRecord t "env" (70 # 100) evidence).
Proof.
  unfold envCandidateToTarget. destruct (negb _) eqn:Hs; [done|]. intros [= <-]. apply negb_false_iff in Hs.
  apply discovered_intro; try done.
  - apply env_protocol.
  - apply existsb_prefix in Hs as (p & r & Hp & Hr). rewrite Hr. apply starts_not_blank.
    rewrite !elem_of_cons, elem_of_nil in Hp. by destruct Hp as [-> | [-> | [-> | [-> | []]]]].
  - left. destruct (_ || _); listed.
Qed.

Lemma local_record_discovered cfg host port path status :
  path ≠ "" → discovered "local_proxy_scan" (local_record cfg host port ("http://" +:+ path) status).
Proof.
  intros Hp. unfold local_record. destruct (endpoint_protocol ("http://" +:+ path)) as [H1 H2].
  destruct (inferProtoFromEndpoint _) as [proto confidence]. apply discovered_intro; try done.
  - by apply starts_not_blank.
  - left. by left.
  - by apply mustDuration_pos.
  - by apply mustDuration_pos.
Qed.

Lemma token_url_found endpoint fallback : inferOAuthTokenURL endpoint fallback ≠ "".
Proof. unfold inferOAuthTokenURL, token_url. repeat case_match; done. Qed.

Lemma llms_auth_valid uri c proto auto : validate_auth (authFromLLMSCandidate uri c proto auto) = None.
Proof.
  unfold authFromLLMSCandidate. destruct (_ || _); [done|]. unfold validate_auth.
  cbn [auth_Type auth_ClientID auth_TokenURL].
  change (AuthOAuth =s "") with false. change (AuthOAuth =s AuthNone) with false. change (AuthOAuth =s AuthBearer) with false.
  change (AuthOAuth =s AuthAPIKey) with false. change (AuthOAuth =s AuthOAuth) with true.
  cbn [orb]. by rewrite (proj2 (streq_false _ _) (token_url_found _ _)).
Qed.

Lemma llms_record_discovered cfg uri host i c r : llms_record cfg uri host i c = Some r → discovered "llms_txt" r.
Proof.
  unfold llms_record. destruct (inferProtocolFromLLMSCandidate c) as [proto confidence] eqn:Hi.
  destruct (_ && _) eqn:Hp; [done|]. destruct (blank _) eqn:Hb; [done|]. intros [= <-]. apply discovered_intro; try done.
  - revert Hi. unfold inferProtocolFromLLMSCandidate. destruct (_ || _); [by intros [= _ <-]|].
    destruct (_ || _); [by intros [= _ <-]|]. pose proof (endpoint_protocol (cand_URL c)) as [_ H]. intros E. by rewrite E in H.
  - apply andb_false_iff in Hp as [Hp%negb_false_iff%streq_true|Hp%negb_false_iff%streq_true]; subst proto; listed.
  - apply transportFromURL_ok.
  - by apply mustDuration_pos.
  - by apply mustDuration_pos.
  - apply llms_auth_valid.
Qed.

(** ** What the sources find *)

Section Found_by.
Context (io : Surroundings) (cfg : Config) (source : string).

Definition all_discovered (f : Found) : Prop := Forall (discovered source) (found f).

Lemma problem_maintains e : maintains all_discovered (problem_found e).
Proof. by apply maintains_modify. Qed.
Lemma record_maintains r : discovered source r → maintains all_discovered (found_record r).
Proof. intros Hr. apply maintains_modify. intros f Hf. apply Forall_app. split; [done|]. by apply Forall_singleton. Qed.
Lemma cancelled_maintains : maintains all_discovered (cancelled io).
Proof. unfold cancelled. maintains_go; apply problem_maintains. Qed.
Lemma fetch_maintains uri : maintains all_discovered (fetchLLMSTxt io uri).
Proof. unfold fetchLLMSTxt. maintains_go. Qed.
Lemma reachable_maintains endpoint : maintains all_discovered (httpReachable io endpoint).
Proof. unfold httpReachable. maintains_go. Qed.
Lemma port_maintains host port : maintains all_discovered (isTCPPortOpen io host port).
Proof. unfold isTCPPortOpen. maintains_go. Qed.
#[local] Hint Resolve problem_maintains record_maintains cancelled_maintains fetch_maintains reachable_maintains
  port_maintains : go.

Lemma env_vars_maintain names : source = "env" → maintains all_discovered (env_vars io names).
Proof.
  intros Hs. assert (∀ name idx cs, maintains all_discovered (env_candidates io name idx cs)) as Hc.
  { intros name idx cs. revert idx. induction cs as [|c cs IH]; intros idx; cbn [env_candidates]; maintains_go.
    apply record_maintains. rewrite Hs. by eapply env_target_discovered. }
  induction names as [|name names IH]; cbn [env_vars]; maintains_go.
Qed.

Lemma probe_maintains host port cs :
  source = "local_proxy_scan" → Forall (λ c, ∃ p, p ≠ "" ∧ c = "http://" +:+ p) cs →
  maintains all_discovered (probe_endpoints io cfg host port cs).
Proof.
  intros Hs Hcs. induction Hcs as [|c cs (p & Hp & ->) _ IH]; cbn [probe_endpoints]; maintains_go.
  apply record_maintains. rewrite Hs. by apply local_record_discovered.
Qed.

Lemma candidates_http host port : Forall (λ c, ∃ p, p ≠ "" ∧ c = "http://" +:+ p) (candidate_endpoints host port).
Proof.
  unfold candidate_endpoints. apply Forall_fmap, Forall_forall. intros path _. cbn.
  eexists. split; [|reflexivity]. by destruct host.
Qed.

Lemma probe_hosts_maintain ports hosts : source = "local_proxy_scan" → maintains all_discovered (probe_hosts io cfg ports hosts).
Proof.
  intros Hs. assert (∀ host ps, maintains all_discovered (probe_ports io cfg host ps)) as Hp.
  { intros host ps. induction ps as [|p ps IH]; cbn [probe_ports]; [maintains_go|].
    pose proof (probe_maintains host p _ Hs (candidates_http host p)). maintains_go. }
  induction hosts as [|host hosts IH]; cbn [probe_hosts]; maintains_go.
Qed.

Lemma llms_records_discovered uri host i cs :
  source = "llms_txt" → Forall (discovered source) (llms_records cfg uri host i cs).
Proof.
  intros Hs. revert i. induction cs as [|c cs IH]; intros i; [done|]. cbn [llms_records].
  apply Forall_app. split; [|apply IH]. destruct (llms_record cfg uri host i c) as [r|] eqn:Hr; [|done].
  apply llms_record_discovered in Hr. rewrite Hs. by apply Forall_singleton.
Qed.

Lemma llms_uris_maintain uris : source = "llms_txt" → maintains all_discovered (llms_uris io cfg uris).
Proof.
  intros Hs. induction uris as [|uri uris IH]; cbn [llms_uris]; maintains_go.
  apply maintains_modify. intros f Hf. apply Forall_app. split; [done|]. by apply llms_records_discovered.
Qed.

Lemma source_found {A} (m : M Found A) env tick f :
  maintains all_discovered m →
  wp (_ ← modify (λ _, nothing); _ ← m; get) env tick f (λ r _ _, Forall (discovered source) (found r)).
Proof.
  intros Hm. wp_go. eapply wp_mono; [apply (maintains_wp all_discovered); [exact Hm|by apply Forall_nil]|].
  intros ? t s Hs. exact Hs.
Qed.
End Found_by.

(** ** One record for each endpoint *)

Definition key_of (r : DiscoveryRecord) : string := dedupeKey (rec_Target r).

(** The first of the records with its key. *)
Definition first_of (all : list DiscoveryRecord) (r : DiscoveryRecord) : Prop :=
  ∃ before after, all = before ++ r :: after ∧ key_of r ∉ map key_of before.

(** The keys seen are those of the records before, and the records kept the first
    of them. *)
Definition merged (all : list DiscoveryRecord) (st : gset string * list DiscoveryRecord) : Prop :=
  (∀ k, k ∈ st.1 ↔ k ∈ map key_of all) ∧ NoDup (map key_of st.2) ∧ ∀ r, r ∈ st.2 ↔ first_of all r.

Lemma first_of_snoc all r x : first_of (all ++ [x]) r ↔ first_of all r ∨ (r = x ∧ key_of x ∉ map key_of all).
Proof.
  split.
  - intros (b & a & Heq & Hk). destruct a as [|y a _] using rev_ind.
    + apply app_inj_tail in Heq as [-> ->]. by right.
    + rewrite app_comm_cons, app_assoc in Heq. apply app_inj_tail in Heq as [-> ->]. left. by exists b, a.
  - intros [(b & a & -> & Hk)|[-> Hk]]; [exists b, (a ++ [x]); by rewrite <- app_assoc|by exists all, []].
Qed.

Lemma keep_first_merged all st r : merged all st → merged (all ++ [r]) (keep_first st r).
Proof.
  intros (Hk & Hn & Hr). unfold keep_first. fold (key_of r). destruct (decide (key_of r ∈ st.1)) as [Hin|Hin].
  - split; [|split; [done|]].
    + intros k. rewrite map_app, elem_of_app, Hk. cbn. rewrite list_elem_of_singleton.
      apply Hk in Hin. naive_solver.
    + intros x. rewrite Hr, first_of_snoc. apply Hk in Hin. naive_solver.
  - split; [|split]; cbn [fst snd].
    + intros k. rewrite map_app, elem_of_app, elem_of_union, elem_of_singleton, Hk. cbn.
      rewrite list_elem_of_singleton. naive_solver.
    + rewrite map_app. apply NoDup_app. split; [done|]. split; [|apply NoDup_singleton].
      intros k Hk1 Hk2%list_elem_of_singleton. subst k. apply Hin, Hk.
      apply list_elem_of_fmap in Hk1 as (x & Hx & Hx1). apply Hr in Hx1 as (b & a & -> & _).
      rewrite Hx, map_app. apply elem_of_app. right. left.
    + intros x. rewrite elem_of_app, list_elem_of_singleton, Hr, first_of_snoc. rewrite Hk in Hin. naive_solver.
Qed.

Lemma merge_records_merged rs all st : merged all st → merged (all ++ rs) (merge_records st rs).
Proof.
  revert all st. induction rs as [|r rs IH]; intros all st H; [by rewrite app_nil_r|].
  cbn. change (r :: rs) with ([r] ++ rs). rewrite app_assoc. by apply IH, keep_first_merged.
Qed.

Lemma merged_nil : merged [] (∅, []).
Proof.
  split; [|split; [constructor|]]; intros x; [set_solver|]. split; [set_solver|].
  intros (b & a & H & _). by destruct b.
Qed.

(** ** The theorem *)

Definition by_id (a b : DiscoveryRecord) : Prop := String.le (tgt_ID (rec_Target a)) (tgt_ID (rec_Target b)).


#[global] Instance by_id_dec a b : Decision (by_id a b).
Proof. unfold by_id. apply _. Defined.
#[global] Instance by_id_total : Total by_id.
Proof. intros a b. apply (total String.le). Qed.
#[global] Instance by_id_trans : Transitive by_id.
Proof. intros a b c. apply (transitivity (R:=String.le)). Qed.

(** A configuration with one target, whose endpoint the environment names too. *)
Definition ex_target_config : TargetConfig :=
  {| zeroTargetConfig with tc_ID := "self"; tc_Enabled := true; tc_Protocol := "MCP"; tc_Transport := "http";
     tc_Endpoint := "http://localhost:9000/mcp" |}.
Definition ex_config : Config :=
  {| zeroConfig with cfg_Targets := [ex_target_config];
     cfg_Discovery := {| (cfg_Discovery zeroConfig) with dsc_Enabled := true; dsc_IncludeEnvVars := ["MCP_URLS"];
       dsc_LocalProxyScan := mkLocalProxyScanConfig true ["localhost"] [8080];
       dsc_LLMSTxt := mkLLMSTxtDiscoveryConfig true ["https://docs.example.com/llms.txt"] "" false true true |} |}.
(** Every web server answers, with 404 where it has no page. *)
Definition ex_surroundings : Surroundings :=
  mkSurroundings (λ _, false)
    (λ name, if name =s "MCP_URLS" then Some "localhost:9000/mcp, wss://x.example/acp" else None)
    (λ _ addr, addr =s "localhost:8080")
    (λ _ url, if HasPrefix url "http://localhost:8080/" then Some (404, "")
              else if url =s "https://docs.example.com/llms.txt"
              then Some (200, "## Servers" +:+ byte_of 10 +:+ "- [Tools MCP](/assets/mcp): bearer" +:+ byte_of 10) else None).
Definition ex_result : DiscoveryResult :=
  result (Discover ex_surroundings (merge_sort by_id) ex_config) (frozen 0 "") 0 nothing.


(** ** llms.txt *)

Lemma looks_like_agent name link notes section optional :
  candidateLooksLikeMCPOrACP name link notes section = true →
  (inferProtocolFromLLMSCandidate (mkCandidate name link section notes optional)).1 ∈ [ProtocolACP; ProtocolMCP].
Proof.
  unfold candidateLooksLikeMCPOrACP, inferProtocolFromLLMSCandidate, candidate_text. cbn [cand_Name cand_URL cand_Notes cand_Section].
  destruct (_ || Contains _ "agent client protocol"); [by left|]. destruct (_ || _); [by right; left|done].
Qed.

(** A link of a document, absolute and of a scheme the probers speak. *)
Definition resolved_link (baseURI link : string) : Prop :=
  ∃ u, link = URL_String u ∧ url_Scheme u ∈ ["http"; "https"; "ws"; "wss"] ∧ url_Host u ≠ "".

Lemma resolveLLMSLink_spec baseURI raw link : resolveLLMSLink baseURI raw = Some link → resolved_link baseURI link.
Proof.
  unfold resolveLLMSLink. destruct (Parse (TrimSpace baseURI)) as [base|]; [|done].
  destruct (Parse (TrimSpace raw)) as [ref|]; [|done]. cbn [mbind option_bind].
  destruct (_ || _) eqn:Hh; [done|]. destruct (negb _) eqn:Hm; [done|]. intros [= <-].
  apply orb_false_iff in Hh as [_ Hh%streq_false]. apply negb_false_iff, mem_true in Hm. by eexists.
Qed.

Lemma resolved_not_blank baseURI link : resolved_link baseURI link → blank link = false.
Proof.
  intros (u & -> & Hs & _). apply starts_not_blank. rewrite !elem_of_cons, elem_of_nil in Hs. unfold URL_String.
  destruct Hs as [-> | [-> | [-> | [-> | []]]]]; by destruct (negb (url_Opaque u =s "")).
Qed.

Definition agent_candidate (baseURI : string) (c : llmsCandidate) : Prop :=
  resolved_link baseURI (cand_URL c) ∧ (inferProtocolFromLLMSCandidate c).1 ∈ [ProtocolACP; ProtocolMCP].

Lemma parse_line_spec baseURI st line st' c : parse_line baseURI st line = (st', Some c) → agent_candidate baseURI c.
Proof.
  unfold parse_line. destruct (_ =s ""); [done|]. destruct (HasPrefix _ _); [done|].
  destruct (llmsLinkPattern _) as [[[name link] notes]|]; [|done].
  destruct (resolveLLMSLink _ _) as [resolved|] eqn:Hr; [|done]. destruct (negb _) eqn:Hl; [done|].
  intros [= <- <-]. apply negb_false_iff in Hl. split; [by eapply resolveLLMSLink_spec|by apply looks_like_agent].
Qed.

Lemma parse_lines_spec baseURI st lines : Forall (agent_candidate baseURI) (parse_lines baseURI st lines).
Proof.
  revert st. induction lines as [|line lines IH]; intros st; [done|]. cbn [parse_lines].
  destruct (parse_line baseURI st (drop_cr line)) as [st' [c|]] eqn:Hl; [|apply IH].
  constructor; [by eapply parse_line_spec|apply IH].
Qed.

(** Every link the parser of llms.txt keeps becomes a target. A candidate is an
    absolute http, https, ws or wss URL with a host, it is taken for MCP or ACP,
    never for plain HTTP, and registration drops none of them: the records of a
    document are as many as its candidates, each with the candidate's URL. *)
Theorem llms_candidates_registered (cfg : Config) (uri host content : string) (i : Z) (cs : list llmsCandidate)
    (Hparse : parseLLMSTxtCandidates uri content = Some cs) :
  Forall (agent_candidate uri) cs ∧
  map (λ r, tgt_Endpoint (rec_Target r)) (llms_records cfg uri host i cs) = map cand_URL cs.
Proof.
  unfold parseLLMSTxtCandidates in Hparse. destruct (existsb _ _); [done|]. injection Hparse as <-.
  generalize (parse_lines_spec uri ("", false) (text_lines content)). generalize (parse_lines uri ("", false) (text_lines content)).
  intros cs Hcs. split; [done|]. revert i. induction Hcs as [|c cs [Hl Hp] _ IH]; intros i; [done|]. cbn [llms_records].
  rewrite map_app, IH. unfold llms_record. destruct (inferProtocolFromLLMSCandidate c) as [proto confidence]. cbn [fst] in Hp.
  rewrite (resolved_not_blank _ _ Hl). rewrite !elem_of_cons, elem_of_nil in Hp.
  by destruct Hp as [-> | [-> | []]].
Qed.

Definition ex_document : string :=
  Join ["# Docs"; "## MCP servers"; "- [Tools](https://tools.example/sse): stream"; "- [Home](/index.html)"; "- [Notes](notes.md";
        "## Optional"; "- [Agent client protocol](../acp/agent)"] (byte_of 10).
Lemma llms_candidates_registered_witness :
  parseLLMSTxtCandidates "https://docs.example/a/llms.txt" ex_document = Some
    [mkCandidate "Tools" "https://tools.example/sse" "MCP servers" "stream" false;
     mkCandidate "Home" "https://docs.example/index.html" "MCP servers" "" false;
     mkCandidate "Agent client protocol" "https://docs.example/acp/agent" "Optional" "" true] ∧
  map (λ r, tgt_Endpoint (rec_Target r)) (llms_records zeroConfig "https://docs.example/a/llms.txt" "docs-example" 0
    (parse_lines "https://docs.example/a/llms.txt" ("", false) (text_lines ex_document))) =
    ["https://tools.example/sse"; "https://docs.example/index.html"; "https://docs.example/acp/agent"].
Proof.
  split; [vm_compute; reflexivity|].
  refine (eq_trans (proj2 (llms_candidates_registered zeroConfig _ _ ex_document 0 _ _)) _); vm_compute; reflexivity.
Defined.

(** ** Examples *)

(** A port is reported as an MCP server whatever its web server answers: a request
    that is answered ends the search, and the first path tried is [/mcp]. *)
Example any_web_server_is_mcp :
  map (λ r, (tgt_Protocol (rec_Target r), rec_Evidence r !! "status_code"))
    (filter (λ r, rec_Source r = "local_proxy_scan") (dr_Records ex_result)) = [("mcp", Some "404")].
Proof. vm_compute. reflexivity. Qed.

(** A path that holds the letters of [sse] is taken for an event stream, which the
    configuration takes for plain HTTP. *)
Example assets_are_streams :
  let url := "https://docs.example.com/assets/mcp" in
  (transportFromURL url, inferTransport url) = (TransportSSE, TransportHTTP).
Proof. vm_compute. reflexivity. Qed.

(** Endpoints that differ in the case of their path are one endpoint. *)
Example paths_are_folded :
  let target ep := {| ex_target_config with tc_ID := ep; tc_Endpoint := ep |} in
  let cfg := {| zeroConfig with cfg_Targets := [target "http://h/A"; target "http://h/a"] |} in
  map (λ r, tgt_ID (rec_Target r)) (dr_Records (result (Discover ex_surroundings (merge_sort by_id) cfg) (frozen 0 "") 0 nothing)) =
    ["http://h/A"].
Proof. vm_compute. reflexivity. Qed.

(** Two documents of a host give their first links the same ID. *)
Example documents_share_ids :
  let c url := mkCandidate "" url "" "mcp" false in
  let ids uri url := map (λ r, tgt_ID (rec_Target r)) (llms_records zeroConfig uri (hostKey uri) 0 [c url]) in
  (ids "https://h/llms.txt" "https://h/a", ids "https://h/docs/llms.txt" "https://h/b") = (["llms-h-0-mcp"], ["llms-h-0-mcp"]).
Proof. vm_compute. reflexivity. Qed.
