(* ===== verification/Meta.v ===== *)
(** * The meta-config generator ([internal/meta/generator.go], [gen-meta] of [main.go])

    Partial configuration entries made of targets or of what discovery found, their
    validation, and the files they are written to. What is written is a document
    under a format; the encoders of YAML and JSON are not modelled, but for the
    times [encoding/json] refuses. *)

From Stdlib Require Import ZArith QArith Lia Ascii.
From stdpp Require Import base tactics strings gmap sorting.
From stdpp Require Import list.
From S2P Require Import Prelude Bytes Durations Net Url Targets Config Discovery DurationText.

Open Scope Z_scope.
Open Scope go_scope.

(** ** Data *)

Record MetaAuth := mkMetaAuth {
  ma_Type : string;
  ma_Header : string;
  ma_KeyName : string;
  ma_Token : string;
  ma_ClientID : string;
  ma_TokenURL : string;
  ma_RedirectURL : string;
  ma_CallbackID : string;
  ma_Scopes : list string;
  ma_Audience : string;
  ma_SecretRef : string;
}.

Record MetaMonitoring := mkMonitoring {
  mm_Interval : string;
  mm_Timeout : string;
  mm_Retries : Z;
  mm_Enabled : bool;
}.

Record MetaEntry := mkMetaEntry {
  me_ID : string;
  me_Name : string;
  me_Protocol : string;
  me_Transport : string;
  me_Endpoint : string;
  me_Auth : MetaAuth;
  me_Expected : ExpectedBehavior;
  me_Monitoring : MetaMonitoring;
  me_Labels : gmap string string;
  me_Confidence : option Q;
  me_Provenance : string;
}.

Record Document := mkDocument {
  doc_Version : string;
  doc_GeneratedAt : Time;
  doc_Source : string;
  doc_Entries : list MetaEntry;
  doc_Notes : list string;
}.

(** ** Construction *)

Definition NewGenerator (cfg : MetaConfigConfig) : MetaConfigConfig :=
  let ph := mc_Placeholders cfg in
  {| cfg with
     mc_OutputDir := or_str (mc_OutputDir cfg) "./state/meta-config";
     mc_Formats := match mc_Formats cfg with [] => ["yaml"; "json"] | fs => fs end;
     mc_Placeholders := mkMetaPlaceholders (or_str (mp_Token ph) "${TOKEN}")
       (or_str (mp_ClientSecret ph) "${CLIENT_SECRET}") (or_str (mp_Endpoint ph) "${ENDPOINT}") |}.

(** ** Entries *)

Definition fallback (v alt : string) : string := if blank v then alt else v.
Definition interval_text (d : Duration) (fallback : string) : string := if d <=? 0 then fallback else Duration_String d.
Definition clampRetries (v : Z) : Z := if v <? 0 then 0 else if 10 <? v then 10 else v.

Section Generator.
Context (g : MetaConfigConfig).

Definition authFromTarget (a : AuthConfig) : MetaAuth :=
  let authType := ToLower (auth_Type a) in
  let authType := if authType =s "" then "none" else authType in
  let out := mkMetaAuth authType (auth_Header a) (auth_KeyName a) "" (auth_ClientID a) (auth_TokenURL a)
    (auth_RedirectURL a) (auth_CallbackID a) (auth_Scopes a) (auth_Audience a) (auth_SecretRef a) in
  let token t := if auth_SecretRef a =s "" then t else "" in
  let ph := mc_Placeholders g in
  if authType =s "none" then out
  else if authType =s "bearer" then
    {| out with ma_Header := or_str (auth_Header a) "Authorization"; ma_Token := token (mp_Token ph) |}
  else if authType =s "apikey" then
    {| out with ma_KeyName := or_str (auth_KeyName a) "x-api-key"; ma_Token := token (mp_Token ph) |}
  else if authType =s "oauth" then
    {| out with
       ma_ClientID := or_str (auth_ClientID a) "ocd-smoke-alarm";
       ma_TokenURL := or_str (auth_TokenURL a) "https://auth.example.com/oauth/token";
       ma_RedirectURL := or_str (auth_RedirectURL a) "http://localhost:8877/oauth/callback";
       ma_CallbackID := or_str (auth_CallbackID a) "generated-oauth-callback";
       ma_Token := token (mp_ClientSecret ph) |}
  else {| out with ma_Token := token (mp_Token ph) |}.

Definition entryFromTarget (t : Target) : MetaEntry :=
  let c := tgt_Check t in
  mkMetaEntry (fallback (tgt_ID t) "generated-target") (fallback (tgt_Name t) (tgt_ID t))
    (ToLower (tgt_Protocol t)) (ToLower (tgt_Transport t))
    (fallback (tgt_Endpoint t) (mp_Endpoint (mc_Placeholders g)))
    (authFromTarget (tgt_Auth t)) (tgt_Expected t)
    (mkMonitoring (interval_text (Interval c) "30s") (interval_text (Timeout c) "5s") (clampRetries (Retries c)) (tgt_Enabled t))
    {["generated_by" := "ocd-smoke-alarm"; "intent" := "mcp-add-partial"]} None "".

Definition annotate (r : DiscoveryRecord) (e : MetaEntry) : MetaEntry :=
  let e := if mc_IncludeConfidence g then {| e with me_Confidence := Some (rec_Confidence r) |} else e in
  if mc_IncludeProvenance g then {| e with me_Provenance := rec_Source r |} else e.
Definition entry_of (r : DiscoveryRecord) : MetaEntry := annotate r (entryFromTarget (rec_Target r)).

(** [sort_entries] is [sort.Slice] by ID. *)
Definition GenerateFromDiscovery (sort_entries : list MetaEntry → list MetaEntry) (records : list DiscoveryRecord)
  (now : Time) : Document :=
  mkDocument "1" now "discovery" (sort_entries (map entry_of records))
    ["Generated entries are partial but structurally valid.";
     "Replace placeholders with real values before production use.";
     "Validate each entry against target service expectations."].

Definition GenerateFromTargets (sort_entries : list MetaEntry → list MetaEntry) (ts : list Target) (now : Time) : Document :=
  mkDocument "1" now "targets" (sort_entries (map entryFromTarget ts))
    ["Generated entries are partial but structurally valid.";
     "Replace placeholders with real values before production use."].

End Generator.

(** ** Validation *)

Inductive entry_error :=
  | NoID | DuplicateID (id : string) | NoProtocol | NoTransport | NoEndpoint | NoInterval | NoTimeout | NegativeRetries
  | NoHeader | NoBearerToken | NoKeyName | NoKeyToken | NoClientID | NoTokenURL | UnsupportedAuth (type : string).
Inductive document_error :=
  | NoVersion
  | NoEntries
  | BadEntry (i : nat) (what : entry_error).

Definition auth_error_of (a : MetaAuth) : option entry_error :=
  let authType := ToLower (TrimSpace (ma_Type a)) in
  let no_secret := (ma_Token a =s "") && (ma_SecretRef a =s "") in
  if (authType =s "") || (authType =s "none") then None
  else if authType =s "bearer" then guard_err (ma_Header a =s "") NoHeader <||> guard_err no_secret NoBearerToken
  else if authType =s "apikey" then guard_err (ma_KeyName a =s "") NoKeyName <||> guard_err no_secret NoKeyToken
  else if authType =s "oauth" then guard_err (ma_ClientID a =s "") NoClientID <||> guard_err (ma_TokenURL a =s "") NoTokenURL
  else Some (UnsupportedAuth (ma_Type a)).

(** What is wrong with an entry by itself. *)
Definition entry_body_error (e : MetaEntry) : option entry_error :=
  let m := me_Monitoring e in
  guard_err (blank (me_Protocol e)) NoProtocol
  <||> guard_err (blank (me_Transport e)) NoTransport
  <||> guard_err (blank (me_Endpoint e)) NoEndpoint
  <||> guard_err (blank (mm_Interval m)) NoInterval
  <||> guard_err (blank (mm_Timeout m)) NoTimeout
  <||> guard_err (mm_Retries m <? 0) NegativeRetries
  <||> auth_error_of (me_Auth e).

Fixpoint check_entries (seen : gset string) (i : nat) (entries : list MetaEntry) : option document_error :=
  match entries with
  | [] => None
  | e :: entries =>
      match guard_err (blank (me_ID e)) NoID <||> guard_err (bool_decide (me_ID e ∈ seen)) (DuplicateID (me_ID e))
            <||> entry_body_error e with
      | Some what => Some (BadEntry i what)
      | None => check_entries ({[me_ID e]} ∪ seen) (S i) entries
      end
  end.

Definition ValidateDocument (doc : Document) : option document_error :=
  if doc_Version doc =s "" then Some NoVersion
  else match doc_Entries doc with [] => Some NoEntries | es => check_entries ∅ 0 es end.

(** ** Files *)

Inductive MetaFile :=
  | Rendered (format : string) (doc : Document)
  | Cut.
Inductive write_error :=
  | InvalidDocument (e : document_error)
  | ErrOutputDir
  | ErrCanceled
  | ErrRender (format : string)
  | ErrWriteFile (path : string).

(** What the system answers at an instant; a write that fails can leave the file
    truncated. *)
Record MetaOS := mkMetaOS {
  mo_mkdir_fails : nat → bool;
  mo_cancelled : nat → bool;
  mo_write : nat → option bool;
}.

Definition Render (format : string) (doc : Document) : option MetaFile :=
  let f := ToLower (TrimSpace format) in
  if mem f ["yaml"; "yml"] then Some (Rendered "yaml" doc)
  else if f =s "json" then (if rfc3339_time (doc_GeneratedAt doc) then Some (Rendered "json" doc) else None)
  else None.

Definition format_of (f : string) : option string :=
  let ff := ToLower (TrimSpace f) in
  let ff := if ff =s "yml" then "yaml" else ff in
  if mem ff ["yaml"; "json"] then Some ff else None.
Definition normalizedFormats (formats : list string) : list string :=
  match sort_strings (remove_dups (omap format_of formats)) with [] => ["yaml"; "json"] | out => out end.

Definition fileExt (format : string) : string :=
  let f := ToLower format in
  if mem f ["yaml"; "yml"] then ".yaml" else if f =s "json" then ".json" else ".txt".

Section Writing.
Context (io : MetaOS) (g : MetaConfigConfig) (doc : Document).

Definition path_for (base format : string) : string := PathJoin [mc_OutputDir g; base +:+ fileExt format].

(** The paths written, and the error that ended the loop. *)
Fixpoint write_formats (base : string) (formats out : list string) : M (gmap string MetaFile) (list string * option write_error) :=
  match formats with
  | [] => mret (out, None)
  | f :: formats =>
      n ← moment;
      if mo_cancelled io n then mret (out, Some ErrCanceled)
      else
        match Render f doc with
        | None => mret (out, Some (ErrRender f))
        | Some file =>
            let path := path_for base f in
            n ← moment;
            match mo_write io n with
            | Some truncated =>
                _ ← modify (λ fs, if truncated : bool then <[path := Cut]> fs else fs);
                mret (out, Some (ErrWriteFile path))
            | None => _ ← modify (<[path := file]>); write_formats base formats (out ++ [path])
            end
        end
  end.

Definition Write : M (gmap string MetaFile) (list string * option write_error) :=
  match ValidateDocument doc with
  | Some e => mret ([], Some (InvalidDocument e))
  | None =>
      n ← moment;
      if mo_mkdir_fails io n then mret ([], Some ErrOutputDir)
      else
        now ← clock;
        write_formats ("mcp-add-meta-" +:+ compact_time now) (normalizedFormats (mc_Formats g)) []
  end.

End Writing.

(** ** The command *)

Definition splitCSV (v : string) : list string := filter (λ p, p ≠ "") (map TrimSpace (Split v ",")).

(** [cmdGenMeta] on a configuration that loaded; a document that is not valid is
    refused once more before it is written. *)
Record GenRun := mkGenRun { gr_found : Found; gr_files : gmap string MetaFile }.

Definition override_meta (outDir formats : string) (c : MetaConfigConfig) : MetaConfigConfig :=
  let c := if outDir =s "" then c else {| c with mc_OutputDir := outDir |} in
  if blank formats then c else {| c with mc_Formats := splitCSV formats |}.

Definition cmdGenMeta (net : Surroundings) (io : MetaOS) (sort_records : list DiscoveryRecord → list DiscoveryRecord)
  (sort_entries : list MetaEntry → list MetaEntry) (outDir formats : string) (cfg : Config)
  : M GenRun (list string * option write_error) :=
  let cfg := {| cfg with cfg_MetaConfig := override_meta outDir formats (cfg_MetaConfig cfg) |} in
  res ← zoom gr_found (λ f r, {| r with gr_found := f |}) (Discover net sort_records cfg);
  let gen := NewGenerator (cfg_MetaConfig cfg) in
  now ← clock;
  let doc := GenerateFromDiscovery gen sort_entries (dr_Records res) now in
  match ValidateDocument doc with
  | Some e => mret ([], Some (InvalidDocument e))
  | None => zoom gr_files (λ fs r, {| r with gr_files := fs |}) (Write io gen doc)
  end.

(** ** Which documents are valid *)

Definition by_entry (a b : MetaEntry) : Prop := String.le (me_ID a) (me_ID b).

Lemma check_entries_None es : ∀ seen i, check_entries seen i es = None ↔
  Forall (λ e, blank (me_ID e) = false ∧ entry_body_error e = None) es ∧ NoDup (map me_ID es) ∧ ∀ e, e ∈ es → me_ID e ∉ seen.
Proof.
  induction es as [|e es IH]; intros seen i; cbn [check_entries map].
  { split; [|done]. intros _. split_and!; [constructor|constructor|by intros e ?%elem_of_nil]. }
  destruct (guard_err (blank (me_ID e)) NoID <||> _ <||> _) as [what|] eqn:He.
  - split; [done|]. intros ([[Hb Hbody] _]%Forall_cons & _ & Hs). rewrite Hb, Hbody in He.
    rewrite bool_decide_eq_false_2 in He by (apply Hs; by left). done.
  - rewrite !orelse_None, !guard_err_None, bool_decide_eq_false in He. destruct He as [[Hb Hs] Hbody].
    rewrite IH, Forall_cons, NoDup_cons. split.
    + intros (Hes & Hn & Hout). split_and!; try done.
      * intros (e' & Heq & Hin)%list_elem_of_fmap. apply (Hout e' Hin). set_solver.
      * intros e' [->|Hin]%elem_of_cons; [done|]. specialize (Hout e' Hin). set_solver.
    + intros ([_ Hes] & [Hni Hn] & Hout). split_and!; try done. intros e' Hin. rewrite not_elem_of_union, not_elem_of_singleton. split.
      * intros Heq. apply Hni. rewrite <- Heq. by apply list_elem_of_fmap_2.
      * apply Hout. by right.
Qed.

(** A target the generator can write: it validates, its protocol and transport are
    not blank, and its durations are [int64]s. *)
Definition usable (t : Target) : Prop :=
  Validate t = None ∧ blank (ToLower (tgt_Protocol t)) = false ∧ blank (ToLower (tgt_Transport t)) = false ∧
  Interval (tgt_Check t) <= two63 - 1 ∧ Timeout (tgt_Check t) <= two63 - 1.

Lemma usable_check t : usable t →
  blank (tgt_ID t) = false ∧ 0 < Interval (tgt_Check t) ∧ 0 < Timeout (tgt_Check t) ∧ 0 <= Retries (tgt_Check t) ∧
  validate_auth (tgt_Auth t) = None.
Proof.
  intros [Hv _]. unfold Validate, validate_check in Hv. rewrite !orelse_None, !guard_err_None in Hv.
  destruct Hv as ((((((Hid & _) & _) & _) & ((((Ht & Hi) & Hr) & _) & _)) & _) & Ha).
  apply Z.leb_gt in Ht, Hi. apply Z.ltb_ge in Hr. done.
Qed.

Section Valid.
Context (cfg : MetaConfigConfig) (Hph : mp_Endpoint (mc_Placeholders cfg) ≠ "" → blank (mp_Endpoint (mc_Placeholders cfg)) = false).
Abbreviation g := (NewGenerator cfg).

Lemma endpoint_placeholder : blank (mp_Endpoint (mc_Placeholders g)) = false.
Proof. cbn. unfold or_str. destruct (mp_Endpoint _ =s "") eqn:He; [done|]. apply Hph. by apply streq_false. Qed.

Lemma or_str_not_empty v d : d ≠ "" → (or_str v d =s "") = false.
Proof. intros Hd. unfold or_str. destruct (v =s "") eqn:Hv; [by apply streq_false|done]. Qed.

(** The authentication of each type that validates, and what is checked of it. *)
Lemma entry_auth_ok a : validate_auth a = None → auth_error_of (authFromTarget g a) = None.
Proof.
  destruct a as [ty h k sr ci tu ru cb sc au]. unfold validate_auth. cbn [auth_Type auth_Header auth_KeyName auth_SecretRef auth_ClientID auth_TokenURL].
  destruct (ty =s "") eqn:H0; [by apply streq_true in H0 as ->|].
  destruct (ty =s AuthNone) eqn:H1; [by apply streq_true in H1 as ->|]. cbn [orb].
  destruct (ty =s AuthBearer) eqn:H2.
  { apply streq_true in H2 as ->. rewrite guard_err_None. intros Hs.
    change (guard_err (or_str h "Authorization" =s "") NoHeader <||>
      guard_err (((if sr =s "" then mp_Token (mc_Placeholders g) else "") =s "") && (sr =s "")) NoBearerToken = None).
    by rewrite Hs, (or_str_not_empty h "Authorization"), andb_false_r. }
  destruct (ty =s AuthAPIKey) eqn:H3.
  { apply streq_true in H3 as ->. rewrite guard_err_None, orb_false_iff. intros [Hk Hs].
    change (guard_err (or_str k "x-api-key" =s "") NoKeyName <||>
      guard_err (((if sr =s "" then mp_Token (mc_Placeholders g) else "") =s "") && (sr =s "")) NoKeyToken = None).
    by rewrite Hs, (or_str_not_empty k "x-api-key"), andb_false_r. }
  destruct (ty =s AuthOAuth) eqn:H4; [|done].
  apply streq_true in H4 as ->. intros _.
  change (guard_err (or_str ci "ocd-smoke-alarm" =s "") NoClientID <||>
    guard_err (or_str tu "https://auth.example.com/oauth/token" =s "") NoTokenURL = None).
  by rewrite (or_str_not_empty ci "ocd-smoke-alarm"), (or_str_not_empty tu "https://auth.example.com/oauth/token").
Qed.

Lemma entry_ok t : usable t → me_ID (entryFromTarget g t) = tgt_ID t ∧
  blank (me_ID (entryFromTarget g t)) = false ∧ entry_body_error (entryFromTarget g t) = None.
Proof.
  intros Hu. destruct (usable_check t Hu) as (Hid & Hi & Ho & Hr & Ha). destruct Hu as (_ & Hp & Ht & _).
  cbn [entryFromTarget me_ID]. unfold fallback. rewrite Hid. split_and!; [done|done|].
  unfold entry_body_error. cbn [entryFromTarget me_Protocol me_Transport me_Endpoint me_Monitoring me_Auth mm_Interval mm_Timeout mm_Retries].
  unfold interval_text, fallback. rewrite Hp, Ht, !(proj2 (Z.leb_gt _ 0)) by done. rewrite !Duration_String_not_blank, (entry_auth_ok _ Ha).
  assert ((clampRetries (Retries (tgt_Check t)) <? 0) = false) as ->.
  { unfold clampRetries. repeat case_match; lia. }
  destruct (blank (tgt_Endpoint t)) eqn:He; [by rewrite endpoint_placeholder|by rewrite He].
Qed.

Lemma annotate_ok r : usable (rec_Target r) → me_ID (entry_of g r) = tgt_ID (rec_Target r) ∧
  blank (me_ID (entry_of g r)) = false ∧ entry_body_error (entry_of g r) = None.
Proof.
  intros Hu. pose proof (entry_ok _ Hu). unfold entry_of, annotate. by destruct (mc_IncludeConfidence g), (mc_IncludeProvenance g).
Qed.

(** A generated document is valid exactly when it says something once. From
    targets that validate, [gen-meta] makes a document that passes its own
    validation if and only if there is at least one record and no two targets share
    an ID; it has one entry for each record, in the order of their IDs. *)
Theorem generated_valid (sort : list MetaEntry → list MetaEntry) `{Hsort : !SliceSort by_entry sort}
    (records : list DiscoveryRecord) (now : Time) (Hr : Forall (λ r, usable (rec_Target r)) records) :
  let doc := GenerateFromDiscovery g sort records now in
  (ValidateDocument doc = None ↔ records ≠ [] ∧ NoDup (map (λ r, tgt_ID (rec_Target r)) records)) ∧
  doc_Entries doc ≡ₚ map (entry_of g) records ∧ StronglySorted by_entry (doc_Entries doc).
Proof.
  intros doc. assert (doc_Entries doc ≡ₚ map (entry_of g) records) as Hp by apply (slice_sort_perm (R:=by_entry) (sort:=sort)).
  split_and!; [|done|apply (slice_sort_sorted (R:=by_entry) (sort:=sort))].
  assert (map me_ID (map (entry_of g) records) = map (λ r, tgt_ID (rec_Target r)) records) as Hids.
  { rewrite map_map. apply map_ext_in. intros r Hin. apply annotate_ok. rewrite Forall_forall in Hr. by apply Hr, list_elem_of_In. }
  assert (ValidateDocument doc = None ↔ doc_Entries doc ≠ [] ∧ check_entries ∅ 0 (doc_Entries doc) = None) as ->.
  { unfold ValidateDocument. change (doc_Version doc =s "") with false. destruct (doc_Entries doc) as [|e es]; [by split; [|intros []]|].
    split; [by intros ?; split|by intros []]. }
  assert (map me_ID (doc_Entries doc) ≡ₚ map (λ r, tgt_ID (rec_Target r)) records) as Hpi by by rewrite <- Hids, Hp.
  rewrite check_entries_None. split.
  - intros (Hne & _ & Hn & _). split; [|by rewrite <- Hpi]. intros ->. apply Hne. by apply Permutation_nil.
  - intros [Hne Hn]. split_and!; [| |by rewrite Hpi|by intros e _ ?%elem_of_empty].
    + intros Hnil. rewrite Hnil in Hp. apply Permutation_nil, map_eq_nil in Hp. done.
    + apply Forall_forall. intros e He. rewrite Hp in He. apply list_elem_of_fmap in He as (r & -> & Hin).
      rewrite Forall_forall in Hr. by apply annotate_ok, Hr.
Qed.

End Valid.
(** ** What an entry keeps *)

(** An entry gives its target back. The identity, the expectations, the
    endpoint and the references to secrets are those of the target, the interval
    and the timeout parse back to its own durations, and retries are cut at ten; of
    secrets it holds a reference, or the placeholder of the configuration for an
    OAuth client that has none. *)
Theorem entry_restores (cfg : MetaConfigConfig) (t : Target) (Ht : usable t) :
  let g := NewGenerator cfg in let e := entryFromTarget g t in let m := me_Monitoring e in let a := me_Auth e in
  me_ID e = tgt_ID t ∧ me_Expected e = tgt_Expected t ∧ (blank (tgt_Endpoint t) = false → me_Endpoint e = tgt_Endpoint t) ∧
  ParseDuration (mm_Interval m) = Some (Interval (tgt_Check t)) ∧ ParseDuration (mm_Timeout m) = Some (Timeout (tgt_Check t)) ∧
  mm_Retries m = Retries (tgt_Check t) `min` 10 ∧ mm_Enabled m = tgt_Enabled t ∧
  ma_SecretRef a = auth_SecretRef (tgt_Auth t) ∧
  (ma_Token a = "" ∨ (auth_Type (tgt_Auth t) = AuthOAuth ∧ ma_SecretRef a = "" ∧ ma_Token a = mp_ClientSecret (mc_Placeholders g))).
Proof.
  intros g e m a. destruct (usable_check t Ht) as (Hid & Hi & Ho & Hr & Ha). destruct Ht as (_ & _ & _ & Hib & Hob).
  subst m a e. cbn [entryFromTarget me_ID me_Expected me_Endpoint me_Monitoring me_Auth mm_Interval mm_Timeout mm_Retries mm_Enabled].
  unfold fallback, interval_text, clampRetries. rewrite Hid, !(proj2 (Z.leb_gt _ 0)) by done. split_and!; try done.
  - by intros ->.
  - apply ParseDuration_String. lia.
  - apply ParseDuration_String. lia.
  - rewrite (proj2 (Z.ltb_ge _ 0)) by done. destruct (Z.ltb_spec 10 (Retries (tgt_Check t))); lia.
  - destruct (tgt_Auth t) as [ty h k sr ci tu ru cb sc au]. unfold authFromTarget. cbn. by repeat case_match.
  - destruct (tgt_Auth t) as [ty h k sr ci tu ru cb sc au]. unfold validate_auth in Ha. cbn [auth_Type auth_KeyName auth_SecretRef auth_ClientID auth_TokenURL] in *.
    destruct (ty =s "") eqn:H0; [apply streq_true in H0 as ->; by left|].
    destruct (ty =s AuthNone) eqn:H1; [apply streq_true in H1 as ->; by left|]. cbn [orb] in Ha.
    destruct (ty =s AuthBearer) eqn:H2.
    { apply streq_true in H2 as ->. apply guard_err_None in Ha. left. change ((if sr =s "" then mp_Token (mc_Placeholders g) else "") = ""). by rewrite Ha. }
    destruct (ty =s AuthAPIKey) eqn:H3.
    { apply streq_true in H3 as ->. apply guard_err_None, orb_false_iff in Ha as [_ Ha]. left.
      change ((if sr =s "" then mp_Token (mc_Placeholders g) else "") = ""). by rewrite Ha. }
    destruct (ty =s AuthOAuth) eqn:H4; [|done]. apply streq_true in H4 as ->.
    change ((if sr =s "" then mp_ClientSecret (mc_Placeholders g) else "") = "" ∨
      (AuthOAuth = AuthOAuth ∧ sr = "" ∧ (if sr =s "" then mp_ClientSecret (mc_Placeholders g) else "") = mp_ClientSecret (mc_Placeholders g))).
    destruct (sr =s "") eqn:Hs; [right|by left]. by apply streq_true in Hs.
Qed.

(** ** What is written *)

Lemma normalizedFormats_ok fs : NoDup (normalizedFormats fs) ∧ ∀ f, f ∈ normalizedFormats fs → f ∈ ["yaml"; "json"].
Proof.
  assert (NoDup ["yaml"; "json"]) as Hd by (by repeat constructor; rewrite ?elem_of_cons, ?elem_of_nil; naive_solver).
  unfold normalizedFormats. set (out := sort_strings _).
  assert (out ≡ₚ remove_dups (omap format_of fs)) as Hp by apply sort_strings_perm.
  assert (NoDup out ∧ ∀ f, f ∈ out → f ∈ ["yaml"; "json"]) as H.
  { split; [rewrite Hp; apply NoDup_remove_dups|]. intros f. rewrite Hp, elem_of_remove_dups, list_elem_of_omap.
    intros (x & _ & Hx). unfold format_of in Hx. destruct (mem _ _) eqn:Hm; [|done]. injection Hx as <-. by apply mem_true in Hm. }
  by destruct out.
Qed.

Section Written.
Context (io : MetaOS) (g : MetaConfigConfig) (doc : Document) (base : string).
Context (Hdir : mc_OutputDir g ≠ "") (Hbase : has_byte "/" base = false).

Lemma path_for_spec f : f ∈ ["yaml"; "json"] → path_for g base f = dir_prefix (mc_OutputDir g) +:+ base +:+ "." +:+ f.
Proof.
  intros Hf. assert (fileExt f = "." +:+ f ∧ has_byte "/" ("." +:+ f) = false ∧ (4 ≤ String.length ("." +:+ f))%nat) as (He & Hb & Hl).
  { rewrite !elem_of_cons, elem_of_nil in Hf. destruct Hf as [->|[->|[]]]; (split; [done|]; split; [done|vm_compute; lia]). }
  unfold path_for. rewrite He. assert (∀ s, (String.length s ≤ 3)%nat → base +:+ "." +:+ f ≠ s) as Hne.
  { intros s Hs H. apply (f_equal String.length) in H. rewrite slength_app in H. lia. }
  apply PathJoin_inside; [done| |apply Hne; cbn; lia..]. apply Split_plain. by rewrite has_byte_app, Hbase.
Qed.

Lemma path_for_inj f f' : f ∈ ["yaml"; "json"] → f' ∈ ["yaml"; "json"] → path_for g base f = path_for g base f' → f = f'.
Proof.
  intros Hf Hf' H. rewrite !path_for_spec, <- !sapp_assoc in H by done.
  by apply (inj (String.append _)) in H.
Qed.

(** The formats that were written, in order, and the first that was not. *)
Definition outcome_of (formats : list string) (fs fs' : gmap string MetaFile) (paths : list string) (err : option write_error) : Prop :=
  ∃ written rest, formats = written ++ rest ∧ paths = map (path_for g base) written ∧ (err = None ↔ rest = []) ∧
    (∀ f, f ∈ written → fs' !! path_for g base f = Some (Rendered f doc)) ∧
    (∀ p, p ∉ paths → fs' !! p = fs !! p ∨ (fs' !! p = Some Cut ∧ err = Some (ErrWriteFile p) ∧ p ∈ map (path_for g base) rest)).

Lemma wp_write_formats formats : NoDup formats → (∀ f, f ∈ formats → f ∈ ["yaml"; "json"]) → ∀ out env tick fs,
  wp (write_formats io g doc base formats out) env tick fs (λ r _ fs',
    ∃ paths, r.1 = out ++ paths ∧ outcome_of formats fs fs' paths r.2).
Proof.
  intros Hn Hk. induction formats as [|f formats IH]; intros out env tick fs; cbn [write_formats].
  { wp_go. exists []. rewrite app_nil_r. split; [done|]. exists [], []. split_and!; try done; [by intros f ?%elem_of_nil|by left]. }
  assert (∀ fs' err, err ≠ None → (∀ p, fs' !! p = fs !! p ∨ (fs' !! p = Some Cut ∧ err = Some (ErrWriteFile p) ∧ p = path_for g base f)) →
    ∃ paths, out = out ++ paths ∧ outcome_of (f :: formats) fs fs' paths err) as Hstop.
  { intros fs' err He Hp. exists []. rewrite app_nil_r. split; [done|]. exists [], (f :: formats).
    split_and!; try done; [by intros f' ?%elem_of_nil|]. intros p _. destruct (Hp p) as [?|(? & ? & ->)]; [by left|right].
    split_and!; [done..|by left]. }
  wp_go. destruct (mo_cancelled io tick); wp_go; [apply Hstop; [done|by left]|].
  destruct (Render f doc) as [file|] eqn:Hf; wp_go; [|apply Hstop; [done|by left]].
  destruct (mo_write io _) as [cut|]; wp_go.
  - apply Hstop; [done|]. intros p. destruct cut; [|by left]. destruct (decide (p = path_for g base f)) as [->|Hne].
    + right. by rewrite lookup_insert_eq.
    + left. by rewrite lookup_insert_ne.
  - apply NoDup_cons in Hn as [Hni Hn]. assert (file = Rendered f doc) as ->.
    { specialize (Hk f (list_elem_of_here _ _)). rewrite !elem_of_cons, elem_of_nil in Hk. destruct Hk as [->|[->|[]]].
      - change (Some (Rendered "yaml" doc) = Some file) in Hf. by injection Hf.
      - change ((if rfc3339_time (doc_GeneratedAt doc) then Some (Rendered "json" doc) else None) = Some file) in Hf.
        case_match; by simplify_eq. }
    eapply wp_mono; [apply IH; [done|intros f' Hf'; apply Hk; by right]|].
    intros r t fs' (paths & Hr & written & rest & -> & -> & He & Hw & Hp). exists (path_for g base f :: map (path_for g base) written).
    split; [by rewrite Hr, <- app_assoc|]. exists (f :: written), rest. split_and!; try done.
    + intros f' [->|Hf']%elem_of_cons; [|by apply Hw].
      destruct (Hp (path_for g base f)) as [->|(_ & _ & Hin)]; [|by rewrite lookup_insert_eq|].
      * intros (f' & Heq & Hin)%list_elem_of_fmap. apply path_for_inj in Heq as <-; [by apply Hni, elem_of_app; left|apply Hk; by left|].
        apply Hk. right. apply elem_of_app. by left.
      * apply list_elem_of_fmap in Hin as (f' & Heq & Hin). apply path_for_inj in Heq as <-; [by destruct Hni; apply elem_of_app; right|apply Hk; by left|].
        apply Hk. right. apply elem_of_app. by right.
    + intros p Hpn. apply not_elem_of_cons in Hpn as [Hne Hpn]. destruct (Hp p Hpn) as [->|?]; [left|by right].
      by rewrite lookup_insert_ne.
Qed.
End Written.

(** [Write] writes the document and nothing else. A document that does not
    validate touches no file and returns no path. Otherwise the paths returned are
    the files of the first formats, under the name of the moment; each holds the
    document in its format; the error is none exactly when that is every format;
    and no other file changes, save that the one whose write failed may be left
    cut. *)
Theorem Write_spec (io : MetaOS) (cfg : MetaConfigConfig) (doc : Document) (env : Env) (tick : nat) (fs : gmap string MetaFile) :
  let g := NewGenerator cfg in
  let '(paths, err) := result (Write io g doc) env tick fs in let fs' := state (Write io g doc) env tick fs in
  match ValidateDocument doc with
  | Some e => paths = [] ∧ err = Some (InvalidDocument e) ∧ fs' = fs
  | None => (paths = [] ∧ err = Some ErrOutputDir ∧ fs' = fs) ∨
      ∃ now, outcome_of g doc ("mcp-add-meta-" +:+ compact_time now) (normalizedFormats (mc_Formats g)) fs fs' paths err
  end.
Proof.
  intros g. enough (wp (Write io g doc) env tick fs (λ r _ fs', match ValidateDocument doc with
    | Some e => r.1 = [] ∧ r.2 = Some (InvalidDocument e) ∧ fs' = fs
    | None => (r.1 = [] ∧ r.2 = Some ErrOutputDir ∧ fs' = fs) ∨
        ∃ now, outcome_of g doc ("mcp-add-meta-" +:+ compact_time now) (normalizedFormats (mc_Formats g)) fs fs' r.1 r.2 end)) as Hw.
  { rewrite wp_run in Hw. by destruct (result (Write io g doc) env tick fs). }
  unfold Write. destruct (ValidateDocument doc); wp_go; [done|]. destruct (mo_mkdir_fails io tick); wp_go; [by left|].
  destruct (normalizedFormats_ok (mc_Formats g)) as [Hn Hk]. eapply wp_mono; [apply (wp_write_formats io g doc); [| |exact Hn|exact Hk]|].
  - cbn. unfold or_str. destruct (_ =s "") eqn:He; [done|by apply streq_false].
  - rewrite has_byte_app, compact_time_no_byte by done. done.
  - intros r t fs' (paths & -> & Ho). right. eexists. exact Ho.
Qed.

(** ** On concrete inputs *)

#[global] Instance by_entry_dec a b : Decision (by_entry a b).
Proof. unfold by_entry. apply _. Defined.
#[global] Instance by_entry_total : Total by_entry.
Proof. intros a b. apply (total String.le). Qed.
#[global] Instance by_entry_trans : Transitive by_entry.
Proof. intros a b c. apply (transitivity (R:=String.le)). Qed.

Definition ex_meta : MetaConfigConfig := mkMetaConfigConfig true "out" ["json"; "YML"; "toml"] true true (mkMetaPlaceholders "" "" "").
Definition ex_record (id auth : string) : DiscoveryRecord :=
  let t := discovered_target id "mcp" "" "http://h/mcp" "http" [200] (mkAuthConfig auth "" "" "" "c" "https://h/token" "" "" [] "")
    (90 * Second) 1500000000 ∅ ∅ in mkRecord t "env" (1 # 2) ∅.

Lemma ex_usable id auth : blank id = false → mem auth ["none"; "oauth"] = true → usable (rec_Target (ex_record id auth)).
Proof.
  intros Hid Ha. apply mem_true in Ha. unfold usable, Validate. cbn [ex_record rec_Target discovered_target tgt_ID]. rewrite Hid.
  rewrite !elem_of_cons, elem_of_nil in Ha. by destruct Ha as [->|[->|[]]].
Qed.

Lemma generated_valid_witness :
  let records := [ex_record "b" "oauth"; ex_record "a" "none"] in
  let doc := GenerateFromDiscovery (NewGenerator ex_meta) (merge_sort by_entry) records 0 in
  map me_ID (doc_Entries doc) = ["a"; "b"] ∧
  (ValidateDocument doc = None ↔ records ≠ [] ∧ NoDup (map (λ r, tgt_ID (rec_Target r)) records)) ∧
  doc_Entries doc ≡ₚ map (entry_of (NewGenerator ex_meta)) records ∧ StronglySorted by_entry (doc_Entries doc).
Proof.
  cbv zeta. split; [vm_compute; reflexivity|].
  apply (generated_valid ex_meta (λ H, match H eq_refl with end) (merge_sort by_entry) [ex_record "b" "oauth"; ex_record "a" "none"] 0).
  by repeat constructor; apply ex_usable.
Defined.

Lemma entry_restores_witness :
  let t := rec_Target (ex_record "b" "oauth") in let e := entryFromTarget (NewGenerator ex_meta) t in
  (mm_Interval (me_Monitoring e), mm_Timeout (me_Monitoring e), ma_Token (me_Auth e)) = ("1m30s", "1.5s", "${CLIENT_SECRET}") ∧
  ParseDuration (mm_Interval (me_Monitoring e)) = Some (Interval (tgt_Check t)).
Proof.
  cbv zeta. split; [vm_compute; reflexivity|].
  apply (entry_restores ex_meta (rec_Target (ex_record "b" "oauth"))). by apply ex_usable.
Defined.

(** Two llms.txt documents of a host give their links the same IDs, and then
    [gen-meta] writes nothing at all. *)
Example shared_ids_refuse_all :
  let records := llms_records zeroConfig "https://h/llms.txt" "h" 0 [mkCandidate "" "https://h/a" "" "mcp" false] ++
    llms_records zeroConfig "https://h/docs/llms.txt" "h" 0 [mkCandidate "" "https://h/b" "" "mcp" false] in
  ValidateDocument (GenerateFromDiscovery (NewGenerator ex_meta) (merge_sort by_entry) records 0) =
    Some (BadEntry 1 (DuplicateID "llms-h-0-mcp")).
Proof. vm_compute. reflexivity. Qed.

(** A format that is not known is dropped, and when none is known both are
    written. *)
Example unknown_formats_write_all : normalizedFormats ["toml"] = ["yaml"; "json"] ∧ normalizedFormats ["toml"; "JSON"] = ["json"].
Proof. vm_compute. auto. Qed.
