(* ===== verification/OneShot.v ===== *)
(** * The check command ([cmd/ocd-smoke-alarm/main.go])

    [check] and [ops self-check] probe every enabled target once, without the
    engine: compilation, safety scan, headers, probe, and a result for each way
    this can fail. The safety host, the secrets and the prober are parameters; the
    deadline of the command shows in what they answer. Error texts leave out the
    references and paths formatted into them. *)

From Stdlib Require Import ZArith Lia Ascii.
From stdpp Require Import base tactics strings gmap sorting.
From stdpp Require Import list.
From S2P Require Import Prelude Bytes Durations Net Url Targets Auth Hurl Safety Rpc Handshake Config ConfigValidate Engine Discovery.

Open Scope Z_scope.
Open Scope go_scope.

(** ** Compilation *)

Definition toTarget (t : TargetConfig) (cfg : Config) : Target + target_error :=
  let c := tc_Check t in
  let interval := mustDuration (cc_Interval c) (mustDuration (svc_PollInterval (cfg_Service cfg)) (15 * Second)) in
  let timeout := mustDuration (cc_Timeout c) (mustDuration (svc_Timeout (cfg_Service cfg)) (5 * Second)) in
  let target := mkTarget (tc_ID t) (tc_Enabled t) (ToLower (tc_Protocol t)) (tc_Name t)
    (tc_Endpoint t) (ToLower (tc_Transport t)) "" (tc_Expected t)
    {| (tc_Auth t) with auth_Type := ToLower (auth_Type (tc_Auth t)); auth_Audience := "" |} (tc_Stdio t)
    (mkCheckPolicy interval timeout (cc_Retries c) (cc_HandshakeProfile c) (cc_RequiredMethods c) (cc_HURLTests c))
    ∅ ∅ ∅ in
  match Validate target with
  | Some e => inr e
  | None => inl target
  end.

(** ** Failures *)

Definition failure (id : string) (proto : Protocol) (state : HealthState) (sev : Severity) (fc : FailureClass) (msg : string)
  (now : Time) : CheckResult :=
  {| zeroResult with cr_TargetID := id; cr_Protocol := proto; cr_State := state; cr_Severity := sev;
     cr_FailureClass := fc; cr_Message := msg; cr_CheckedAt := now |}.

Definition mapOneShotConfigFailure (t : TargetConfig) (now : Time) : CheckResult :=
  failure (tc_ID t) (ToLower (tc_Protocol t)) StateUnhealthy SeverityWarn FailureConfig "invalid target configuration" now.

(** The text of an error of a resolver, without its reference. *)
Fixpoint secret_text (e : auth_error) : string :=
  match e with
  | ErrSecretNotFound => "secret not found"
  | ErrSecretRefInvalid => "invalid secret reference"
  | ErrProviderUnsupported => "secret provider unsupported"
  | ErrJoined errs => Join (map secret_text errs) (byte_of 10)
  | ErrSecretIO => "read secret"
  | ErrBearerRef => "bearer auth requires secret_ref"
  | ErrAPIKeyRef => "apikey auth requires key_name and secret_ref"
  | ErrOAuthSettings => "oauth auth requires client_id, token_url, redirect_url, and callback_id"
  | ErrUnsupportedType => "unsupported auth type"
  | ErrOAuthValidation why => "oauth validation failed: " +:+ why
  end.
Definition auth_text (a : AuthConfig) (e : auth_error) : string :=
  match e with
  | ErrSecretNotFound | ErrSecretRefInvalid | ErrProviderUnsupported | ErrJoined _ | ErrSecretIO =>
      (if auth_Type a =s AuthBearer then "resolve bearer secret: "
       else if auth_Type a =s AuthAPIKey then "resolve api key secret: "
       else "resolve oauth client secret: ") +:+ secret_text e
  | _ => secret_text e
  end.

Definition mapOneShotAuthFailure (t : Target) (e : auth_error) (now : Time) : CheckResult :=
  let text := auth_text (tgt_Auth t) e in
  let msg := ToLower text in
  let '(state, fc) :=
    if contains_any msg ["secret provider unsupported"; "secret not found"; "invalid secret reference"; "client secret"]
    then (StateDegraded, FailureConfig) else (StateUnhealthy, FailureAuth) in
  failure (tgt_ID t) (tgt_Protocol t) state SeverityWarn fc ("auth validation failed: " +:+ text) now.

Definition mapOneShotProbeFailure (t : Target) (e : probe_error) (now : Time) : CheckResult :=
  let msg := ToLower (pe_text e) in
  let '(state, sev, fc) :=
    if pe_deadline e || Contains msg "timeout" || Contains msg "i/o timeout" then (StateDegraded, SeverityWarn, FailureTimeout)
    else if contains_any msg ["connection refused"; "no such host"; "network is unreachable"; "dial tcp"]
    then (StateOutage, SeverityCritical, FailureNetwork)
    else if contains_any msg ["tls"; "x509"] then (StateUnhealthy, SeverityCritical, FailureTLS)
    else (StateUnhealthy, SeverityWarn, FailureUnknown) in
  failure (tgt_ID t) (tgt_Protocol t) state sev fc ("probe failed: " +:+ pe_text e) now.

Definition mapOneShotSafetyFailure (t : Target) (rep : SafetyReport) (now : Time) : CheckResult :=
  let '(msg, fc) :=
    match find (λ r, bool_decide (sf_Outcome r = OutcomeFail)) (sr_Results rep) with
    | Some r =>
        (if blank (sf_Message r) then "pre-protocol HURL safety checks failed" else sf_Message r,
         if (sf_FailureClass r =s "") || (sf_FailureClass r =s FailureNone) then FailureProtocol else sf_FailureClass r)
    | None => ("pre-protocol HURL safety checks failed", FailureProtocol)
    end in
  failure (tgt_ID t) (tgt_Protocol t) StateUnhealthy SeverityWarn fc msg now.

(** ** The checks *)

(** What the command meets: hosts of the safety scan, secrets, and the prober with
    the headers it is given. *)
Record Surface := mkSurface {
  su_safety : SafetyHost;
  su_secrets : Secrets;
  su_probe : Auth.Headers → Target → M unit (CheckResult + probe_error);
}.

Section Checks.
Context (su : Surface).

Definition safety_stage (t : Target) : M Scanner (option SafetyReport) :=
  match HURLTests (tgt_Check t) with
  | [] => mret None
  | _ =>
      _ ← RegisterTarget t;
      rep ← RunTarget (su_safety su) t;
      mret (if sr_HasBlocking rep then Some rep else None)
  end.

Definition probe_once (headers : Auth.Headers) (t : Target) : M Scanner (CheckResult + probe_error) :=
  zoom (λ _, tt) (λ _ s, s) (su_probe su headers t).

Definition check_target (cfg : Config) (t : TargetConfig) : M Scanner CheckResult :=
  match toTarget t cfg with
  | inr _ => now ← clock; mret (mapOneShotConfigFailure t now)
  | inl compiled =>
      blocked ← safety_stage compiled;
      match blocked with
      | Some rep => now ← clock; mret (mapOneShotSafetyFailure compiled rep now)
      | None =>
          match BuildHeaders (su_secrets su) (tgt_Auth compiled) with
          | inr e => now ← clock; mret (mapOneShotAuthFailure compiled e now)
          | inl headers =>
              res ← probe_once headers compiled;
              match res with
              | inr e => now ← clock; mret (mapOneShotProbeFailure compiled e now)
              | inl r => mret r
              end
          end
      end
  end.

Fixpoint check_targets (cfg : Config) (ts : list TargetConfig) : M Scanner (list CheckResult) :=
  match ts with
  | [] => mret []
  | t :: ts => r ← check_target cfg t; rs ← check_targets cfg ts; mret (r :: rs)
  end.

(** [sort_results] is [sort.Slice] by target ID. *)
Definition runOneShotChecks (sort_results : list CheckResult → list CheckResult) (cfg : Config) : M Scanner (list CheckResult) :=
  rs ← check_targets cfg (EnabledTargets cfg);
  mret (sort_results rs).

End Checks.

(** ** The commands' exits *)

Definition failing (rs : list CheckResult) : list CheckResult := filter (λ r, CheckResult_IsFailure r = true) rs.

(** [None] is exit code 0. *)
Definition cmdCheck_exit (json : bool) (rs : list CheckResult) : option string :=
  if json then None
  else match length (failing rs) with
       | O => None
       | S _ => Some (Itoa (Z.of_nat (length (failing rs))) +:+ "/" +:+ Itoa (Z.of_nat (length rs)) +:+ " checks failing")
       end.
Definition cmdOpsSelfCheck_exit (json : bool) (rs : list CheckResult) : option string :=
  if json then None
  else match length (failing rs) with O => None | S _ => Some "self-check failed" end.
Definition regressions (rs : list CheckResult) : nat :=
  length (filter (λ r, (cr_State r =s StateRegression) || cr_Regression r = true) rs).

(** ** Compilation, against the engine's *)

(** A configuration without problems compiles as the engine compiles it, less the
    type and the headers of a target, which no probe of the command reads. *)
Definition one_shot_view (t : Target) : Target := {| t with tgt_Type := ""; tgt_Headers := ∅ |}.

Lemma toTarget_compiles (t : TargetConfig) (cfg : Config) :
  (∃ d, ParseDuration (cc_Interval (tc_Check t)) = Some d ∧ 0 < d) →
  (∃ d, ParseDuration (cc_Timeout (tc_Check t)) = Some d ∧ 0 < d) →
  match compile_target t with
  | inl full => toTarget t cfg = inl (one_shot_view full)
  | inr (BadTarget _ e) => toTarget t cfg = inr e
  | inr _ => False
  end.
Proof.
  intros (i & Hi & Hip) (o & Ho & Hop). unfold compile_target, toTarget, mustDuration. rewrite Hi, Ho. cbv zeta.
  apply Z.leb_gt in Hip, Hop. rewrite Hip, Hop. set (full := mkTarget _ _ _ _ _ _ (ToLower (tc_Type t)) _ _ _ _ _ _ _).
  change (mkTarget _ _ _ _ _ _ "" _ _ _ _ _ _ _) with (one_shot_view full).
  change (Validate (one_shot_view full)) with (Validate full). by destruct (Validate full).
Qed.

Lemma enabled_durations (prefix : string) (t : TargetConfig) : enabled_target_problems prefix t = [] →
  (∃ d, ParseDuration (cc_Interval (tc_Check t)) = Some d ∧ 0 < d) ∧
  (∃ d, ParseDuration (cc_Timeout (tc_Check t)) = Some d ∧ 0 < d).
Proof.
  unfold enabled_target_problems. rewrite !app_nil_iff. intros (_ & _ & _ & _ & Hc & _).
  unfold check_problems in Hc. rewrite !app_nil_iff in Hc. destruct Hc as (Hi%problem_nil & Ho%problem_nil & _).
  split; by apply good_duration.
Qed.

(** C15: the check command and the engine compile a target alike. For an enabled
    target of a configuration that validates, the command's compilation succeeds
    exactly when the engine's does and fails with the same error; the target is the
    same, less its type and headers, so both validate and probe the same
    surface. *)
Theorem toTarget_agrees (ParseRoots : gmap string string → bool) (cfg : Config) (t : TargetConfig)
    (Hvalid : Config_Validate ParseRoots cfg = []) (Ht : t ∈ EnabledTargets cfg) :
  match compile_target t with
  | inl full => toTarget t cfg = inl (one_shot_view full)
  | inr (BadTarget _ e) => toTarget t cfg = inr e
  | inr _ => False
  end.
Proof.
  apply valid_parts in Hvalid as (_ & _ & _ & _ & (_ & _ & Hen)%target_problems_nil).
  apply list_elem_of_filter in Ht as [He Ht]. destruct (Hen t Ht He) as [prefix [Hi Ho]%enabled_durations].
  by apply toTarget_compiles.
Qed.

Lemma toTarget_agrees_witness :
  let t0 := sample_target "a" "http://h/" "http" in
  let t := {| t0 with tc_Type := "remote" |} in
  let cfg := ApplyDefaults (sample_config [t; sample_target " " "http://h/" "http"]) in
  Forall (λ t, match compile_target t with
    | inl full => toTarget t cfg = inl (one_shot_view full)
    | inr (BadTarget _ e) => toTarget t cfg = inr e
    | inr _ => False end) (EnabledTargets cfg).
Proof.
  intros t0 t cfg. apply Forall_forall. intros t' Ht'. apply (toTarget_agrees no_roots cfg t'); [|done].
  vm_compute. reflexivity.
Defined.

(** ** What a check reports *)

Definition setup_error (a : AuthConfig) (e : auth_error) : bool :=
  contains_any (ToLower (auth_text a e))
    ["secret provider unsupported"; "secret not found"; "invalid secret reference"; "client secret"].
Definition timed_out (e : probe_error) : bool :=
  pe_deadline e || Contains (ToLower (pe_text e)) "timeout" || Contains (ToLower (pe_text e)) "i/o timeout".

Section Verdicts.
Context (su : Surface) (cfg : Config).

Definition answers (h : Auth.Headers) (t : Target) (x : CheckResult + probe_error) : Prop :=
  ∃ env tick, result (su_probe su h t) env tick tt = x.

(** The result of a target, and what it was made of. *)
Inductive verdict (t : TargetConfig) : CheckResult → Prop :=
  | not_compiled e now : toTarget t cfg = inr e → verdict t (mapOneShotConfigFailure t now)
  | unsafe c rep now : toTarget t cfg = inl c → HURLTests (tgt_Check c) ≠ [] → sr_HasBlocking rep = true →
      verdict t (mapOneShotSafetyFailure c rep now)
  | no_headers c e now : toTarget t cfg = inl c → BuildHeaders (su_secrets su) (tgt_Auth c) = inr e →
      verdict t (mapOneShotAuthFailure c e now)
  | probe_failed c h e now : toTarget t cfg = inl c → BuildHeaders (su_secrets su) (tgt_Auth c) = inl h →
      answers h c (inr e) → verdict t (mapOneShotProbeFailure c e now)
  | probed c h r : toTarget t cfg = inl c → BuildHeaders (su_secrets su) (tgt_Auth c) = inl h →
      answers h c (inl r) → verdict t r.

(** What the command lets pass: a probe that found no failure, and, more than the
    engine does, a secret that is not set up and a probe that timed out. *)
Definition tolerated (t : TargetConfig) : Prop :=
  ∃ c, toTarget t cfg = inl c ∧
    match BuildHeaders (su_secrets su) (tgt_Auth c) with
    | inr e => setup_error (tgt_Auth c) e = true
    | inl h => (∃ r, answers h c (inl r) ∧ CheckResult_IsFailure r = false) ∨ (∃ e, answers h c (inr e) ∧ timed_out e = true)
    end.

Lemma verdict_tolerated t r : verdict t r → CheckResult_IsFailure r = false → tolerated t.
Proof.
  intros H. destruct H as [e now Hc|c rep now Hc _ _|c e now Hc He|c h e now Hc Hh Ha|c h r Hc Hh Ha].
  - done.
  - unfold mapOneShotSafetyFailure. by destruct (find _ _).
  - intros Hf. exists c. split; [done|]. rewrite He. unfold mapOneShotAuthFailure in Hf. fold (setup_error (tgt_Auth c) e) in Hf.
    by destruct (setup_error (tgt_Auth c) e).
  - intros Hf. exists c. split; [done|]. rewrite Hh. right. exists e. split; [done|].
    unfold mapOneShotProbeFailure in Hf. fold (timed_out e) in Hf. destruct (timed_out e); [done|].
    destruct (contains_any _ _); [done|]. by destruct (contains_any _ _).
  - intros Hf. exists c. split; [done|]. rewrite Hh. left. by exists r.
Qed.

Lemma check_target_verdict t env tick s : wp (check_target su cfg t) env tick s (λ r _ _, verdict t r).
Proof.
  unfold check_target. destruct (toTarget t cfg) as [c|e] eqn:Hc; [|wp_go; by eapply not_compiled].
  wp_go. eapply (wp_mono _ _ _ _ _ (λ o _ _, ∀ rep, o = Some rep → HURLTests (tgt_Check c) ≠ [] ∧ sr_HasBlocking rep = true)).
  { unfold safety_stage. destruct (HURLTests (tgt_Check c)); [wp_go; done|]. wp_go. apply wp_intro. intros. wp_go.
    apply wp_intro. intros rep t1 s1. wp_go. intros rep' H. destruct (sr_HasBlocking rep) eqn:Hb; [|done]. by injection H as <-. }
  intros [rep|] t1 s1 Hrep.
  { destruct (Hrep _ eq_refl). wp_go. by eapply unsafe. }
  destruct (BuildHeaders _ _) as [h|e] eqn:Hh; [|wp_go; by eapply no_headers].
  wp_go. unfold probe_once. rewrite wp_zoom. apply wp_run.
  destruct (result (su_probe su h c) env t1 tt) as [r|e] eqn:Hr; wp_go.
  - eapply probed; [done..|]. by eexists _, _.
  - eapply probe_failed; [done..|]. by eexists _, _.
Qed.

Lemma check_targets_verdicts ts env tick s : wp (check_targets su cfg ts) env tick s (λ rs _ _, Forall2 verdict ts rs).
Proof.
  revert tick s. induction ts as [|t ts IH]; intros tick s; cbn [check_targets]; wp_go; [constructor|].
  eapply wp_mono; [apply check_target_verdict|]. intros r t1 s1 Hr. wp_go. eapply wp_mono; [apply IH|].
  intros rs t2 s2 Hrs. wp_go. by constructor.
Qed.
End Verdicts.

Definition by_result (a b : CheckResult) : Prop := String.le (cr_TargetID a) (cr_TargetID b).

Lemma cmdCheck_exit_None rs : cmdCheck_exit false rs = None → ∀ r, r ∈ rs → CheckResult_IsFailure r = false.
Proof.
  unfold cmdCheck_exit. destruct (length (failing rs)) eqn:Hl; [|done]. intros _ r Hr.
  destruct (CheckResult_IsFailure r) eqn:Hf; [|done]. apply nil_length_inv in Hl.
  assert (r ∈ failing rs) as Hin by (apply list_elem_of_filter; done). rewrite Hl in Hin. by apply elem_of_nil in Hin.
Qed.

Lemma exits_agree rs : cmdCheck_exit false rs = None ↔ cmdOpsSelfCheck_exit false rs = None.
Proof. unfold cmdCheck_exit, cmdOpsSelfCheck_exit. by destruct (length (failing rs)). Qed.

(** The check command gives every enabled target one verdict, of what happened
    to it: it did not compile, its safety scan blocked, its headers could not be
    built, its probe failed, or the probe's own result; sorted by target ID. When
    the command exits without an error, every enabled target compiled, and was
    probed without a failure, unless its secret is not set up or its probe timed
    out, which the command lets pass; the two commands agree on the exit. *)
Theorem runOneShotChecks_spec (su : Surface) (sort : list CheckResult → list CheckResult) `{Hsort : !SliceSort by_result sort}
    (cfg : Config) (env : Env) (tick : nat) (s : Scanner) :
  let res := result (runOneShotChecks su sort cfg) env tick s in
  (∃ rs, Forall2 (verdict su cfg) (EnabledTargets cfg) rs ∧ res ≡ₚ rs) ∧ StronglySorted by_result res ∧
  (cmdCheck_exit false res = None ↔ cmdOpsSelfCheck_exit false res = None) ∧
  (cmdCheck_exit false res = None → ∀ t, t ∈ EnabledTargets cfg → tolerated su cfg t).
Proof.
  intros res. assert (∃ rs, Forall2 (verdict su cfg) (EnabledTargets cfg) rs ∧ res = sort rs) as (rs & Hrs & Hres).
  { pose proof (check_targets_verdicts su cfg (EnabledTargets cfg) env tick s) as H. unfold res, runOneShotChecks, result, wp in *.
    unfold mbind, M_bind. destruct (check_targets _ _ _ _ _ _) as [[rs t] s']. by exists rs. }
  assert (res ≡ₚ rs) as Hp by (rewrite Hres; apply (slice_sort_perm (R:=by_result) (sort:=sort))).
  split_and!.
  - by exists rs.
  - rewrite Hres. apply slice_sort_sorted.
  - apply exits_agree.
  - intros Hx t Ht. apply list_elem_of_lookup in Ht as [i Ht]. destruct (Forall2_lookup_l _ _ _ _ _ Hrs Ht) as (r & Hr & Hv).
    apply (verdict_tolerated _ _ _ _ Hv). apply (cmdCheck_exit_None _ Hx). rewrite Hp. by eapply list_elem_of_lookup_2.
Qed.

(** ** Concrete checks *)

#[global] Instance by_result_dec a b : Decision (by_result a b).
Proof. unfold by_result. apply _. Defined.
#[global] Instance by_result_total : Total by_result.
Proof. intros a b. apply (total String.le). Qed.
#[global] Instance by_result_trans : Transitive by_result.
Proof. intros a b c. apply (transitivity (R:=String.le)). Qed.

(** A surface whose probes answer [x], on a host without secrets. *)
Definition ex_surface (x : Target → CheckResult + probe_error) : Surface :=
  mkSurface (mkSafetyHost (λ _, false) None (λ _ _ _ _, CallFailed "")) (mkSecrets ∅ (λ _, Absent) (λ _ _, None) true)
    (λ _ t, mret (x t)).
Definition ex_check (x : Target → CheckResult + probe_error) (cfg : Config) : list CheckResult :=
  result (runOneShotChecks (ex_surface x) (merge_sort by_result) cfg) (frozen 9 "") 0 NewScanner.
Definition ex_healthy (t : Target) : CheckResult + probe_error := inl (failure (tgt_ID t) (tgt_Protocol t) StateHealthy SeverityInfo FailureNone "" 9).
Definition ex_cfg : Config :=
  ApplyDefaults (sample_config [sample_target "b" "http://h/" "http"; sample_target "a" "https://h/" "http"; sample_target " " "http://h/" "http"]).

Lemma runOneShotChecks_spec_witness :
  let su := ex_surface ex_healthy in
  (∃ rs, Forall2 (verdict su ex_cfg) (EnabledTargets ex_cfg) rs ∧ ex_check ex_healthy ex_cfg ≡ₚ rs) ∧
  StronglySorted by_result (ex_check ex_healthy ex_cfg) ∧
  (cmdCheck_exit false (ex_check ex_healthy ex_cfg) = None ↔ cmdOpsSelfCheck_exit false (ex_check ex_healthy ex_cfg) = None) ∧
  (cmdCheck_exit false (ex_check ex_healthy ex_cfg) = None → ∀ t, t ∈ EnabledTargets ex_cfg → tolerated su ex_cfg t).
Proof. apply (runOneShotChecks_spec (ex_surface ex_healthy) (merge_sort by_result) ex_cfg (frozen 9 "") 0 NewScanner). Defined.

Example checks_of_three :
  (map (λ r, (cr_TargetID r, cr_State r)) (ex_check ex_healthy ex_cfg), cmdCheck_exit false (ex_check ex_healthy ex_cfg)) =
  ([(" ", StateUnhealthy); ("a", StateHealthy); ("b", StateHealthy)], Some "1/3 checks failing").
Proof. vm_compute. reflexivity. Qed.

(** ** Examples *)

(** A target that does not answer in time passes the check, which the engine takes
    for a failure. *)
Example silent_target_passes :
  let slow := λ _, inr (mkProbeError true false None "context deadline exceeded") in
  let cfg := ApplyDefaults (sample_config [sample_target "a" "http://h/" "http"]) in
  (map cr_State (ex_check slow cfg), cmdCheck_exit false (ex_check slow cfg), cmdOpsSelfCheck_exit false (ex_check slow cfg)) =
  ([StateDegraded], None, None).
Proof. vm_compute. reflexivity. Qed.

(** So does a target whose secret is missing, without a probe. *)
Example missing_secret_passes :
  let t0 := sample_target "a" "http://h/" "http" in
  let auth := tc_Auth t0 in
  let t := {| t0 with tc_Auth := {| auth with auth_Type := "bearer"; auth_Header := "Authorization"; auth_SecretRef := "env://TOKEN" |} |} in
  let cfg := ApplyDefaults (sample_config [t]) in
  (Config_Validate no_roots cfg, map cr_State (ex_check ex_healthy cfg), cmdCheck_exit false (ex_check ex_healthy cfg)) =
  ([], [StateDegraded], None).
Proof. vm_compute. reflexivity. Qed.

(** With JSON output the command succeeds whatever it found. *)
Example json_hides_failures :
  (cmdCheck_exit true (ex_check ex_healthy ex_cfg), cmdOpsSelfCheck_exit true (ex_check ex_healthy ex_cfg)) = (None, None).
Proof. done. Qed.
