(* ===== verification/DynamicConfig.v ===== *)
(** * Generated configurations ([internal/dynamicconfig/persistence.go])

    Discovery records written to disk, one file for each record and format. The
    disk is a map from paths to contents; the faults of the operating system and the
    context are asked at the instants of the run. A JSON file is the value it
    encodes, a confidence a rational in [0, 1]; the [Extra] field, which nothing
    sets, is left out. *)

From Stdlib Require Import ZArith NArith QArith Lia Ascii.
From stdpp Require Import base tactics strings gmap sorting.
From stdpp Require Import list.
From S2P Require Import Prelude Bytes Durations Digest Net Url Targets Config Discovery.

Open Scope Z_scope.
Open Scope go_scope.

(** ** Data *)

Definition FormatJSON : string := "json".
Definition FormatMarkdown : string := "markdown".

Record StoreOptions := mkStoreOptions {
  Directory : string;
  Formats : list string;
  ServeBaseURL : string;
  AllowOverwrite : bool;
  RequireUniqueIDs : bool;
}.

Record SavedArtifact := mkArtifact {
  art_ID : string;
  art_Format : string;
  art_Path : string;
  art_ServeURL : string;
  art_SavedAt : Time;
  art_TargetID : string;
  art_TargetName : string;
}.

Record PersistedTargetAuth := mkPersistedAuth {
  pa_Type : string;
  pa_Header : string;
  pa_KeyName : string;
  pa_SecretRef : string;
  pa_ClientID : string;
  pa_TokenURL : string;
  pa_RedirectURL : string;
  pa_CallbackID : string;
  pa_Scopes : list string;
  pa_Audience : string;
}.

Record PersistedTargetHURLTest := mkPersistedTest {
  ph_Name : string;
  ph_File : string;
  ph_Endpoint : string;
  ph_Method : string;
  ph_Headers : gmap string string;
  ph_Body : string;
}.

Record PersistedTargetCheck := mkPersistedCheck {
  pc_Interval : string;
  pc_Timeout : string;
  pc_Retries : Z;
  pc_HandshakeProfile : string;
  pc_RequiredMethods : list string;
  pc_HURLTests : list PersistedTargetHURLTest;
}.

Record PersistedTargetExpect := mkPersistedExpect {
  pe_HealthyStatusCodes : list Z;
  pe_MinCapabilities : list string;
  pe_KnownAgentCountMin : Z;
  pe_ExpectedVersion : string;
}.

Record PersistedTarget := mkPersistedTarget {
  pt_ID : string;
  pt_Name : string;
  pt_Enabled : bool;
  pt_Protocol : string;
  pt_Transport : string;
  pt_Endpoint : string;
  pt_Auth : PersistedTargetAuth;
  pt_Check : PersistedTargetCheck;
  pt_Expected : PersistedTargetExpect;
  pt_Tags : gmap string string;
  pt_Meta : gmap string string;
}.

Record PersistedConfig := mkPersisted {
  p_ID : string;
  p_Version : string;
  p_CreatedAt : Time;
  p_UpdatedAt : Time;
  p_Source : string;
  p_Confidence : Q;
  p_Evidence : gmap string string;
  p_Target : PersistedTarget;
}.

(** ** Construction *)

(** The formats seen so far are those in [out]. *)
Fixpoint known_formats (out : list string) (formats : list string) : list string :=
  match formats with
  | [] => out
  | f :: formats =>
      let f := ToLower (TrimSpace f) in
      let f := if f =s "md" then FormatMarkdown else f in
      if negb (mem f [FormatJSON; FormatMarkdown]) then known_formats out formats
      else if mem f out then known_formats out formats
      else known_formats (out ++ [f]) formats
  end.
Definition normalizeFormats (formats : list string) : list string :=
  match known_formats [] formats with
  | [] => [FormatJSON; FormatMarkdown]
  | out => sort_strings out
  end.

Definition NewStore (o : StoreOptions) : StoreOptions :=
  let base := if blank (ServeBaseURL o) then "/dynamic-config" else ServeBaseURL o in
  {| o with
     Directory := if blank (Directory o) then "./state/dynamic-config" else Directory o;
     Formats := normalizeFormats (Formats o);
     ServeBaseURL := if HasPrefix base "/" then base else "/" +:+ base |}.

Definition NewStoreFromConfig (dc : DynamicConfigConfig) : StoreOptions :=
  NewStore (mkStoreOptions (dy_Directory dc) (dy_Formats dc) (dy_ServeBaseURL dc) (dy_AllowOverwrite dc)
    (dy_RequireUniqueIDs dc)).

Inductive store_error := ErrDirectoryRequired | ErrFormatRequired | ErrServeURLRequired.
Definition Store_Validate (o : StoreOptions) : option store_error :=
  if blank (Directory o) then Some ErrDirectoryRequired
  else if bool_decide (Formats o = []) then Some ErrFormatRequired
  else if blank (ServeBaseURL o) then Some ErrServeURLRequired
  else None.

(** ** Identifiers *)

Definition alnum (c : ascii) : bool := ((97 <=? code c) && (code c <=? 122)) || is_dec c.

(** A run of other bytes becomes one dash. *)
Fixpoint dash_runs (prevDash : bool) (s : string) : string :=
  match s with
  | "" => ""
  | String c r =>
      if alnum c then String c (dash_runs false r)
      else if prevDash then dash_runs true r
      else String "-" (dash_runs true r)
  end.
Definition sanitizeID (v : string) : string :=
  let v := ToLower (TrimSpace v) in
  if v =s "" then "dynamic-config"
  else
    let out := Trim (dash_runs false v) ["-"%char] in
    if out =s "" then "dynamic-config" else out.

Definition makeStableTargetID (t : Target) : string :=
  "dynamic-" +:+ stake 12 (sha1_hex (tgt_Protocol t +:+ "-" +:+ tgt_Transport t +:+ "-" +:+ tgt_Endpoint t)).

Definition makeID (o : StoreOptions) (r : DiscoveryRecord) : string :=
  let t := rec_Target r in
  let base := TrimSpace (tgt_ID t) in
  let base := if base =s "" then makeStableTargetID t else base in
  let base := sanitizeID base in
  if negb (RequireUniqueIDs o) then base
  else
    let fingerprint := rec_Source r +:+ "|" +:+ tgt_Endpoint t +:+ "|" +:+ tgt_Protocol t in
    sanitizeID (base +:+ "-" +:+ stake 10 (sha1_hex fingerprint)).

(** [strings.TrimRight(s, "/")] *)
Definition TrimRight_slash (s : string) : string :=
  String.rev (trim_runes ["/"] (String.length s) (String.rev s)).

(** [filepath.Base] *)
Definition Base (path : string) : string :=
  if path =s "" then "."
  else
    let trimmed := TrimRight_slash path in
    if trimmed =s "" then "/"
    else match LastIndexByte trimmed "/" with Some i => sdrop (S i) trimmed | None => trimmed end.

Definition serveURLFor (o : StoreOptions) (path : string) : string :=
  TrimRight_slash (ServeBaseURL o) +:+ "/" +:+ Base path.

(** ** Payloads *)

Definition toPersistedHURLTests (tests : list HURLTest) : list PersistedTargetHURLTest :=
  map (λ ht, mkPersistedTest (ht_Name ht) (ht_File ht) (ht_Endpoint ht) (ht_Method ht) (ht_Headers ht) (ht_Body ht)) tests.

Definition toPersistedConfig (id : string) (r : DiscoveryRecord) (now : Time) : PersistedConfig :=
  let t := rec_Target r in
  let a := tgt_Auth t in
  let c := tgt_Check t in
  let e := tgt_Expected t in
  mkPersisted id "1" now now (rec_Source r) (rec_Confidence r) (rec_Evidence r)
    (mkPersistedTarget (tgt_ID t) (tgt_Name t) (tgt_Enabled t) (tgt_Protocol t) (tgt_Transport t) (tgt_Endpoint t)
       (mkPersistedAuth (auth_Type a) (auth_Header a) (auth_KeyName a) (auth_SecretRef a) (auth_ClientID a)
          (auth_TokenURL a) (auth_RedirectURL a) (auth_CallbackID a) (auth_Scopes a) (auth_Audience a))
       (mkPersistedCheck (Duration_String (Interval c)) (Duration_String (Timeout c)) (Retries c) (HandshakeProfile c)
          (RequiredMethods c) (toPersistedHURLTests (HURLTests c)))
       (mkPersistedExpect (HealthyStatusCodes e) (MinCapabilities e) (KnownAgentCountMin e) (ExpectedVersion e))
       (tgt_Tags t) (tgt_Meta t)).

(** [%.2f] of a number that is not negative. *)
Definition fixed2 (q : Q) : string :=
  let n := (200 * Qnum q + Zpos (Qden q)) / (2 * Zpos (Qden q)) in
  Itoa (n / 100) +:+ "." +:+ pad 2 (n mod 100).

Definition field_line (name value : string) : string := "- **" +:+ name +:+ ":** `" +:+ value +:+ "`" +:+ byte_of 10.

Definition RenderMarkdown (p : PersistedConfig) : string :=
  let nl := byte_of 10 in
  let t := p_Target p in
  "# Dynamic Config: " +:+ p_ID p +:+ nl +:+ nl
  +:+ field_line "Version" (p_Version p)
  +:+ field_line "Created" (RFC3339 (p_CreatedAt p))
  +:+ field_line "Source" (p_Source p)
  +:+ field_line "Confidence" (fixed2 (p_Confidence p))
  +:+ nl +:+ "## Target" +:+ nl +:+ nl
  +:+ field_line "ID" (pt_ID t)
  +:+ field_line "Name" (pt_Name t)
  +:+ field_line "Protocol" (pt_Protocol t)
  +:+ field_line "Transport" (pt_Transport t)
  +:+ field_line "Endpoint" (pt_Endpoint t)
  +:+ field_line "Auth Type" (pa_Type (pt_Auth t))
  +:+ field_line "Handshake Profile" (pc_HandshakeProfile (pt_Check t))
  +:+ match pc_RequiredMethods (pt_Check t) with
      | [] => ""
      | methods => field_line "Required Methods" (Join methods "`, `")
      end
  +:+ if decide (p_Evidence p = ∅) then ""
      else nl +:+ "## Evidence" +:+ nl +:+ nl
           +:+ Join (map (λ k, field_line k (default "" (p_Evidence p !! k))) (sort_strings (map fst (map_to_list (p_Evidence p))))) "".

(** ** The disk *)

(** [Other] is a file the store did not write, [Truncated] what a failed write
    leaves. *)
Inductive contents :=
  | JSONFile (p : PersistedConfig)
  | MarkdownFile (text : string)
  | Truncated
  | Other (text : string).

Abbreviation Disk := (gmap string contents).

Record OS := mkOS {
  ctx_err : nat → bool;
  mkdir_fails : nat → bool;
  stat_fails : nat → bool;
  write_fails : nat → bool;
  rename_fails : nat → bool;
  remove_fails : nat → bool;
}.

Inductive save_error :=
  | ErrContext
  | ErrMkdir
  | ErrSerialize (format : string)
  | ErrExists (path : string)
  | ErrWriteTemp
  | ErrCommit.

Section Saving.
Context (io : OS) (o : StoreOptions).

Definition faulty (fails : nat → bool) : M Disk bool := n ← moment; mret (fails n).

Definition writeFile (path : string) (body : contents) : M Disk (option save_error) :=
  stat ← faulty (stat_fails io);
  d ← get;
  if bool_decide (is_Some (d !! path)) && negb stat && negb (AllowOverwrite o) then mret (Some (ErrExists path))
  else
    let tmp := path +:+ ".tmp" in
    bad ← faulty (write_fails io);
    if bad : bool then _ ← modify (<[tmp := Truncated]>); mret (Some ErrWriteTemp)
    else
      _ ← modify (<[tmp := body]>);
      bad ← faulty (rename_fails io);
      if bad : bool then
        kept ← faulty (remove_fails io);
        _ ← modify (λ d, if kept : bool then d else delete tmp d);
        mret (Some ErrCommit)
      else
        _ ← modify (λ d, <[path := body]> (delete tmp d));
        mret None.

(** The file of a format, with its content; [None] is an error of the encoder. *)
Definition file_of (p : PersistedConfig) (f : string) : option (string * option contents) :=
  if f =s FormatJSON then
    Some (PathJoin [Directory o; p_ID p +:+ ".json"],
          if rfc3339_time (p_CreatedAt p) && rfc3339_time (p_UpdatedAt p) then Some (JSONFile p) else None)
  else if f =s FormatMarkdown then Some (PathJoin [Directory o; p_ID p +:+ ".md"], Some (MarkdownFile (RenderMarkdown p)))
  else None.

Fixpoint save_formats (p : PersistedConfig) (now : Time) (artifacts : list SavedArtifact) (formats : list string)
  : M Disk (list SavedArtifact * option save_error) :=
  match formats with
  | [] => mret (artifacts, None)
  | f :: formats =>
      done ← faulty (ctx_err io);
      if done : bool then mret (artifacts, Some ErrContext)
      else
        match file_of p f with
        | None => save_formats p now artifacts formats
        | Some (_, None) => mret (artifacts, Some (ErrSerialize f))
        | Some (path, Some body) =>
            err ← writeFile path body;
            match err with
            | Some e => mret (artifacts, Some e)
            | None =>
                save_formats p now
                  (artifacts ++ [mkArtifact (p_ID p) f path (serveURLFor o path) now (pt_ID (p_Target p)) (pt_Name (p_Target p))])
                  formats
            end
        end
  end.

Definition savePersistedConfigLocked (p : PersistedConfig) : M Disk (list SavedArtifact * option save_error) :=
  now ← clock;
  save_formats p now [] (Formats o).

Fixpoint save_records (out : list SavedArtifact) (records : list DiscoveryRecord)
  : M Disk (list SavedArtifact * option save_error) :=
  match records with
  | [] => mret (out, None)
  | r :: records =>
      done ← faulty (ctx_err io);
      if done : bool then mret (out, Some ErrContext)
      else
        now ← clock;
        res ← savePersistedConfigLocked (toPersistedConfig (makeID o r) r now);
        match res with
        | (_, Some e) => mret (out, Some e)
        | (artifacts, None) => save_records (out ++ artifacts) records
        end
  end.

(** [sort_artifacts] is [sort.Slice] by ID and format. *)
Definition SaveDiscoveryRecords (sort_artifacts : list SavedArtifact → list SavedArtifact) (records : list DiscoveryRecord)
  : M Disk (list SavedArtifact * option save_error) :=
  done ← faulty (ctx_err io);
  if done : bool then mret ([], Some ErrContext)
  else
    match records with
    | [] => mret ([], None)
    | _ =>
        bad ← faulty (mkdir_fails io);
        if bad : bool then mret ([], Some ErrMkdir)
        else
          res ← save_records [] records;
          match res with
          | (out, Some e) => mret (out, Some e)
          | (out, None) => mret (sort_artifacts out, None)
          end
    end.

Definition SaveDiscoveryRecord (sort_artifacts : list SavedArtifact → list SavedArtifact) (r : DiscoveryRecord)
  : M Disk (list SavedArtifact * option save_error) :=
  SaveDiscoveryRecords sort_artifacts [r].

End Saving.

(** ** Names of files *)

Lemma dash_runs_bytes b s : all_bytes id_byte (dash_runs b s) = true.
Proof.
  revert b. induction s as [|c s IH]; intros b; [done|]. cbn [dash_runs]. destruct (alnum c) eqn:Hc.
  - cbn [all_bytes]. rewrite IH, andb_true_r. unfold id_byte. unfold alnum in Hc. by rewrite Hc.
  - destruct b; [apply IH|]. cbn [all_bytes]. by rewrite IH.
Qed.

Lemma sanitizeID_spec v : all_bytes id_byte (sanitizeID v) = true ∧ sanitizeID v ≠ "".
Proof.
  unfold sanitizeID. destruct (_ =s ""); [by vm_compute|]. destruct (_ =s "") eqn:He; [by vm_compute|].
  apply streq_false in He. split; [|done]. apply all_bytes_Trim, dash_runs_bytes.
Qed.

Lemma makeID_spec o r : all_bytes id_byte (makeID o r) = true ∧ makeID o r ≠ "".
Proof. unfold makeID. destruct (negb _); apply sanitizeID_spec. Qed.

Definition ext (f : string) : string := if f =s FormatJSON then ".json" else ".md".

(** The file of a record in a format: a name of plain bytes in the directory. *)
Definition name_of (o : StoreOptions) (r : DiscoveryRecord) (f : string) : string := makeID o r +:+ ext f.
Definition path_of (o : StoreOptions) (r : DiscoveryRecord) (f : string) : string :=
  dir_prefix (Directory o) +:+ name_of o r f.

Lemma id_no_byte c s : id_byte c = false → all_bytes id_byte s = true → has_byte c s = false.
Proof. apply all_bytes_no_byte. Qed.

Lemma name_no_slash o r f : has_byte "/" (name_of o r f) = false.
Proof.
  unfold name_of, ext. rewrite has_byte_app, (id_no_byte "/" _ eq_refl (proj1 (makeID_spec o r))). by destruct (f =s _).
Qed.

Lemma name_join o r f : Directory o ≠ "" → PathJoin [Directory o; name_of o r f] = path_of o r f.
Proof.
  intros Hd. destruct (makeID_spec o r) as [Hb Hn].
  apply PathJoin_inside; [done|by apply Split_plain, name_no_slash|..]; unfold name_of, ext;
    (destruct (makeID o r) as [|c [|d s]]; [done|..]; destruct (f =s _); try done; by intros [= -> H]).
Qed.

(** The files of a store are told apart by ID and format, and are no temporary
    files. *)
Lemma name_inj o r r' f f' : f ∈ [FormatJSON; FormatMarkdown] → f' ∈ [FormatJSON; FormatMarkdown] →
  path_of o r f = path_of o r' f' → makeID o r = makeID o r' ∧ f = f'.
Proof.
  intros Hf Hf' H. unfold path_of in H. apply sapp_inj_length in H as [_ H]; [|done]. unfold name_of in H.
  rewrite !elem_of_cons, elem_of_nil in Hf, Hf'.
  destruct Hf as [-> | [-> | []]], Hf' as [-> | [-> | []]].
  - split; [|done]. by apply sapp_inj_r in H.
  - apply (f_equal last_byte) in H. rewrite !last_byte_app in H by done. done.
  - apply (f_equal last_byte) in H. rewrite !last_byte_app in H by done. done.
  - split; [|done]. by apply sapp_inj_r in H.
Qed.

Lemma not_temporary o r f r' f' : path_of o r f ≠ path_of o r' f' +:+ ".tmp".
Proof.
  unfold path_of, name_of, ext. intros H. apply (f_equal last_byte) in H. rewrite <- !sapp_assoc in H.
  rewrite !last_byte_app in H by (by destruct (_ =s FormatJSON)). by destruct (f =s FormatJSON).
Qed.

(** What the file of a record holds when it is written for the instant [t]. *)
Definition payload_of (o : StoreOptions) (r : DiscoveryRecord) (f : string) (t : Time) : contents :=
  let p := toPersistedConfig (makeID o r) r t in
  if f =s FormatJSON then JSONFile p else MarkdownFile (RenderMarkdown p).

Lemma file_of_spec o r t f path body : Directory o ≠ "" →
  file_of o (toPersistedConfig (makeID o r) r t) f = Some (path, Some body) →
  f ∈ [FormatJSON; FormatMarkdown] ∧ path = path_of o r f ∧ body = payload_of o r f t.
Proof.
  intros Hd. unfold file_of, payload_of. rewrite <- name_join by done. unfold name_of, ext.
  destruct (f =s FormatJSON) eqn:Hj.
  - apply streq_true in Hj. subst f. cbn [p_ID toPersistedConfig]. destruct (_ && _); [|done]. intros [= <- <-].
    split; [by left|done].
  - destruct (f =s FormatMarkdown) eqn:Hm; [|done]. apply streq_true in Hm. subst f. intros [= <- <-].
    split; [by right; left|done].
Qed.

(** ** Every change is one of the store's own files *)

Section Confinement.
Context (io : OS) (o : StoreOptions) (records : list DiscoveryRecord) (d0 : Disk).
Context (Hdir : Directory o ≠ "").

Definition temporary (path : string) : Prop := ∃ r f, r ∈ records ∧ path = path_of o r f +:+ ".tmp".
Definition protected : Prop := AllowOverwrite o = false ∧ ∀ n, stat_fails io n = false.
Definition complete (d : Disk) (path : string) : Prop :=
  ∃ r f t, r ∈ records ∧ f ∈ [FormatJSON; FormatMarkdown] ∧ path = path_of o r f ∧
    d !! path = Some (payload_of o r f t) ∧ (protected → d0 !! path = None).
Definition confined (d : Disk) : Prop := ∀ path, d !! path = d0 !! path ∨ temporary path ∨ complete d path.

Lemma complete_ext d d' path : d' !! path = d !! path → complete d path → complete d' path.
Proof. intros H (r & f & t & Hr & Hf & Hp & Hd & H0). exists r, f, t. by rewrite H. Qed.

(** A change of one path keeps the others as they were. *)
Lemma confined_change d d' path :
  confined d → (∀ q, q ≠ path → d' !! q = d !! q) → temporary path ∨ complete d' path → confined d'.
Proof.
  intros Hd Hq Hp q. destruct (decide (q = path)) as [->|Hne]; [by right|]. rewrite Hq by done.
  destruct (Hd q) as [H|[H|H]]; [by left|by right; left|right; right]. eapply complete_ext; [|exact H]. by apply Hq.
Qed.

Lemma writeFile_confined r f t : r ∈ records → f ∈ [FormatJSON; FormatMarkdown] →
  maintains confined (writeFile io o (path_of o r f) (payload_of o r f t)).
Proof.
  intros Hr Hf env tick d Hd. set (path := path_of o r f). set (body := payload_of o r f t).
  assert (temporary (path +:+ ".tmp")) as Htmp by (by exists r, f).
  assert (∀ c, confined (<[path +:+ ".tmp" := c]> d)) as Hi.
  { intros c. eapply confined_change; [exact Hd| |by left]. intros q Hq. by rewrite lookup_insert_ne. }
  enough (wp (writeFile io o path body) env tick d (λ _ _ d', confined d')) as H by by apply wp_run in H.
  unfold writeFile, faulty. wp_go. destruct (_ && negb (AllowOverwrite o)) eqn:Hex; wp_go; [exact Hd|].
  destruct (write_fails io _); wp_go; [apply Hi|]. destruct (rename_fails io _); wp_go.
  - destruct (remove_fails io _); [apply Hi|]. eapply confined_change; [apply (Hi body)| |by left].
    intros q Hq. by rewrite lookup_delete_ne.
  - eapply (confined_change (delete (path +:+ ".tmp") (<[path +:+ ".tmp" := body]> d)) _ path).
    + eapply confined_change; [apply (Hi body)| |by left]. intros q Hq. by rewrite lookup_delete_ne.
    + intros q Hq. by rewrite lookup_insert_ne.
    + right. exists r, f, t. split; [done|]. split; [done|]. split; [done|]. split; [apply lookup_insert_eq|].
      intros [Ha Hs]. rewrite Ha, Hs, andb_true_r, andb_true_r in Hex. apply bool_decide_eq_false in Hex.
      rewrite <- eq_None_not_Some in Hex. destruct (Hd path) as [H|[H|H]].
      * by rewrite H in Hex.
      * destruct H as (r' & f' & _ & H). by apply not_temporary in H.
      * destruct H as (r' & f' & t' & _ & _ & _ & H & _). by rewrite H in Hex.
Qed.

Lemma faulty_confined fails : maintains confined (faulty fails).
Proof. unfold faulty. maintains_go. Qed.
#[local] Hint Resolve faulty_confined : go.

Lemma save_formats_confined r t now artifacts formats : r ∈ records →
  maintains confined (save_formats io o (toPersistedConfig (makeID o r) r t) now artifacts formats).
Proof.
  intros Hr. revert artifacts. induction formats as [|f formats IH]; intros artifacts; cbn [save_formats]; [maintains_go|].
  apply maintains_bind; [maintains_go|]. intros []; [maintains_go|].
  destruct (file_of _ _ f) as [[path [body|]]|] eqn:Hf; [|maintains_go..].
  apply file_of_spec in Hf as (Hfm & -> & ->); [|done]. pose proof (writeFile_confined r f t Hr Hfm). maintains_go.
Qed.

Lemma save_records_confined rs out : (∀ r, r ∈ rs → r ∈ records) → maintains confined (save_records io o out rs).
Proof.
  revert out. induction rs as [|r rs IH]; intros out Hrs; cbn [save_records]; [maintains_go|].
  assert (∀ out, maintains confined (save_records io o out rs)) as Hrest by (intros; apply IH; intros; apply Hrs; by right).
  apply maintains_bind; [maintains_go|]. intros []; [maintains_go|]. apply maintains_bind; [maintains_go|]. intros t.
  apply maintains_bind; [|maintains_go]. unfold savePersistedConfigLocked. apply maintains_bind; [maintains_go|].
  intros now. apply save_formats_confined, Hrs. by left.
Qed.
End Confinement.

Lemma NewStore_directory opts : Directory (NewStore opts) ≠ "".
Proof. cbn. destruct (blank _) eqn:H; [done|]. intros E. by rewrite E in H. Qed.

Lemma SaveDiscoveryRecords_maintains io o sort records d0 : Directory o ≠ "" →
  maintains (confined io o records d0) (SaveDiscoveryRecords io o sort records).
Proof.
  intros Hd. unfold SaveDiscoveryRecords. apply maintains_bind; [apply faulty_confined|]. intros []; [apply maintains_ret|].
  destruct records as [|r records]; [apply maintains_ret|]. apply maintains_bind; [apply faulty_confined|].
  intros []; [apply maintains_ret|]. apply maintains_bind; [by apply save_records_confined|].
  intros [out [e|]]; apply maintains_ret.
Qed.

(** C28: saving discovery records touches nothing but the store's own files, and never
    leaves half of one. Whatever the records are called, whatever the operating
    system does and whenever the context ends, a file whose content changed is
    either a temporary file, or it holds the complete JSON or Markdown of one of
    the records, under a name of plain bytes in the configured directory; and when
    overwriting is off and files can be looked up, it was not there before. *)
Theorem SaveDiscoveryRecords_confined (io : OS) (opts : StoreOptions) (sort : list SavedArtifact → list SavedArtifact)
    (records : list DiscoveryRecord) (env : Env) (tick : nat) (d : Disk) :
  let o := NewStore opts in
  let d' := state (SaveDiscoveryRecords io o sort records) env tick d in
  ∀ path, d' !! path = d !! path ∨
    ∃ r f name, r ∈ records ∧ path = dir_prefix (Directory o) +:+ name ∧ has_byte "/" name = false ∧
      (name = name_of o r f +:+ ".tmp" ∨
       (name = name_of o r f ∧ (∃ t, d' !! path = Some (payload_of o r f t)) ∧
        (AllowOverwrite o = false → (∀ n, stat_fails io n = false) → d !! path = None))).
Proof.
  intros o d' path. assert (confined io o records d d') as H.
  { apply SaveDiscoveryRecords_maintains; [apply NewStore_directory|]. intros q. by left. }
  destruct (H path) as [Hp|[(r & f & Hr & Hp)|(r & f & t & Hr & Hf & Hp & Hd & H0)]]; [by left|right..].
  - exists r, f, (name_of o r f +:+ ".tmp"). split; [done|]. split; [rewrite Hp; unfold path_of; by rewrite sapp_assoc|].
    split; [|by left]. by rewrite has_byte_app, name_no_slash.
  - exists r, f, (name_of o r f). split; [done|]. split; [done|]. split; [apply name_no_slash|]. right.
    split; [done|]. split; [by exists t|]. intros Ha Hs. by apply H0.
Qed.

(** ** A save that nothing disturbs *)

Definition healthy (io : OS) : Prop :=
  ∀ n, ctx_err io n = false ∧ mkdir_fails io n = false ∧ stat_fails io n = false ∧ write_fails io n = false ∧
       rename_fails io n = false ∧ remove_fails io n = false.

(** The order of [SaveDiscoveryRecords]. *)
Definition by_artifact (a b : SavedArtifact) : Prop :=
  if decide (art_ID a = art_ID b) then String.le (art_Format a) (art_Format b) else String.le (art_ID a) (art_ID b).
#[global] Instance by_artifact_dec a b : Decision (by_artifact a b).
Proof. unfold by_artifact. destruct (decide _); apply _. Defined.
#[global] Instance by_artifact_total : Total by_artifact.
Proof.
  intros a b. unfold by_artifact. destruct (decide (art_ID a = art_ID b)) as [E|E].
  - rewrite decide_True by done. apply (total String.le).
  - rewrite decide_False by done. apply (total String.le).
Qed.
#[global] Instance by_artifact_trans : Transitive by_artifact.
Proof.
  intros a b c. unfold by_artifact. destruct (decide (art_ID a = art_ID b)) as [E|E].
  - rewrite E. case_decide; [|done]. apply (transitivity (R:=String.le)).
  - destruct (decide (art_ID b = art_ID c)) as [E'|E'].
    + rewrite <- E'. by rewrite decide_False by done.
    + intros Hab Hbc. rewrite decide_False; [by apply (transitivity Hab)|]. intros E''. rewrite <- E'' in Hbc.
      apply E. by apply (anti_symm String.le).
Qed.

(** What a caller learns of a file. *)
Definition entry (a : SavedArtifact) : string * string * string * string * string * string :=
  (art_ID a, art_Format a, art_Path a, art_ServeURL a, art_TargetID a, art_TargetName a).
Definition entry_of (o : StoreOptions) (r : DiscoveryRecord) (f : string) : string * string * string * string * string * string :=
  (makeID o r, f, path_of o r f, TrimRight_slash (ServeBaseURL o) +:+ "/" +:+ name_of o r f,
   tgt_ID (rec_Target r), tgt_Name (rec_Target r)).
Definition entries (o : StoreOptions) (rs : list DiscoveryRecord) := flat_map (λ r, map (entry_of o r) (Formats o)) rs.

(** The path of a file is the directory's prefix, a name of plain bytes after it. *)
Lemma Join_slash l : Join (l ++ [""]) "/" = "" ∨ ∃ a, Join (l ++ [""]) "/" = a +:+ "/".
Proof.
  induction l as [|x l IH]; [by left|]. right. destruct (l ++ [""]) as [|y r] eqn:E; [by destruct l|].
  change (Join ((x :: l) ++ [""]) "/") with (Join (x :: (l ++ [""])) "/"). rewrite E.
  change (Join (x :: y :: r) "/") with (x +:+ "/" +:+ Join (y :: r) "/").
  destruct IH as [->|[a ->]]; [by exists x|]. exists (x +:+ "/" +:+ a). by rewrite !sapp_assoc.
Qed.
Lemma dir_prefix_slash d : dir_prefix d = "" ∨ ∃ a, dir_prefix d = a +:+ "/".
Proof.
  unfold dir_prefix. destruct (Join_slash (rev (fold_left (clean_step (HasPrefix d "/")) (Split d "/") []))) as [H|[a H]];
    rewrite H; destruct (HasPrefix d "/"); cbv zeta iota.
  - right. by exists "".
  - by left.
  - right. exists ("/" +:+ a). by rewrite sapp_assoc.
  - right. by exists a.
Qed.

Lemma TrimRight_slash_path o r f : TrimRight_slash (path_of o r f) = path_of o r f.
Proof.
  assert (∀ s e, e ∈ [".json"; ".md"] → TrimRight_slash (s +:+ e) = s +:+ e) as H.
  { intros s e He. rewrite <- (srev_involutive (s +:+ e)) at 2. unfold TrimRight_slash. f_equal. rewrite srev_app.
    rewrite !elem_of_cons, elem_of_nil in He. destruct He as [->|[->|[]]]; rewrite slength_app, Nat.add_comm; done. }
  unfold path_of, name_of. rewrite <- sapp_assoc. apply H. unfold ext. destruct (f =s _); set_solver.
Qed.

Lemma Base_path o r f : Base (path_of o r f) = name_of o r f.
Proof.
  unfold Base. rewrite TrimRight_slash_path.
  assert (path_of o r f =s "" = false) as ->.
  { apply streq_false. unfold path_of, name_of, ext. intros H. apply (f_equal String.length) in H. rewrite !slength_app in H.
    destruct (f =s _); cbn in H; lia. }
  pose proof (name_no_slash o r f) as Hs. unfold LastIndexByte, path_of. destruct (dir_prefix_slash (Directory o)) as [->|[a ->]].
  - by rewrite last_index_none.
  - rewrite sapp_assoc. change ("/" +:+ name_of o r f) with (String "/" (name_of o r f)). rewrite last_index_app by done.
    by rewrite Nat.add_0_l, sdrop_app_S.
Qed.

Lemma entry_of_artifact o r f t now : entry (mkArtifact
  (p_ID (toPersistedConfig (makeID o r) r t)) f (path_of o r f) (serveURLFor o (path_of o r f)) now
  (pt_ID (p_Target (toPersistedConfig (makeID o r) r t))) (pt_Name (p_Target (toPersistedConfig (makeID o r) r t)))) = entry_of o r f.
Proof. unfold entry, entry_of, serveURLFor. by rewrite Base_path. Qed.

Section Success.
Context (io : OS) (o : StoreOptions) (env : Env).
Context (Hio : healthy io) (Hdir : Directory o ≠ "").
Context (Hfmts : ∀ f, f ∈ Formats o → f ∈ [FormatJSON; FormatMarkdown]).
Context (Hclock : ∀ n, rfc3339_time (env_clock env n) = true).

Definition put (r : DiscoveryRecord) (t : Time) (d : Disk) (f : string) : Disk :=
  <[path_of o r f := payload_of o r f t]> (delete (path_of o r f +:+ ".tmp") d).

(** The files of [rs] may be written in this order. *)
Definition writable (d : Disk) (rs : list DiscoveryRecord) : Prop :=
  AllowOverwrite o = true ∨
  (NoDup (map (makeID o) rs) ∧ NoDup (Formats o) ∧ ∀ r f, r ∈ rs → f ∈ Formats o → d !! path_of o r f = None).

(** What a file of the store holds after the records [rs] were written. *)
Definition saved (rs : list DiscoveryRecord) (d d' : Disk) : Prop :=
  (∀ before r after f, rs = before ++ r :: after → makeID o r ∉ map (makeID o) after → f ∈ Formats o →
     ∃ n, d' !! path_of o r f = Some (payload_of o r f (env_clock env n))) ∧
  (∀ r f, r ∈ rs → f ∈ Formats o → d' !! (path_of o r f +:+ ".tmp") = None) ∧
  (∀ path, (∀ r f, r ∈ rs → f ∈ Formats o → path ≠ path_of o r f ∧ path ≠ path_of o r f +:+ ".tmp") →
     d' !! path = d !! path).

Lemma faulty_false fails tick d Q : (∀ n, fails n = false) → Q false (1 + tick)%nat d → wp (faulty fails) env tick d Q.
Proof. intros Hf HQ. unfold faulty. wp_go. by rewrite Hf. Qed.

Lemma writeFile_writes r f t tick d (Q : option save_error → nat → Disk → Prop) :
  AllowOverwrite o = true ∨ d !! path_of o r f = None → (∀ tick', Q None tick' (put r t d f)) →
  wp (writeFile io o (path_of o r f) (payload_of o r f t)) env tick d Q.
Proof.
  intros Hw HQ. unfold writeFile, faulty. wp_go. destruct (Hio tick) as (_ & _ & -> & _). rewrite andb_true_r.
  assert (bool_decide (is_Some (d !! path_of o r f)) && negb (AllowOverwrite o) = false) as ->.
  { destruct Hw as [->|Hn]; [apply andb_false_r|]. by rewrite Hn. }
  wp_go. destruct (Hio (1 + tick)%nat) as (_ & _ & _ & -> & _). wp_go.
  destruct (Hio (1 + (1 + tick))%nat) as (_ & _ & _ & _ & -> & _). wp_go. rewrite delete_insert_eq. apply HQ.
Qed.

Lemma file_of_payload r f t : f ∈ Formats o → rfc3339_time t = true →
  file_of o (toPersistedConfig (makeID o r) r t) f = Some (path_of o r f, Some (payload_of o r f t)).
Proof.
  intros Hf%Hfmts Ht. unfold file_of, payload_of. rewrite <- name_join by done. unfold name_of, ext.
  cbn [toPersistedConfig p_CreatedAt p_UpdatedAt p_ID]. rewrite Ht. rewrite !elem_of_cons, elem_of_nil in Hf.
  by destruct Hf as [-> | [-> | []]].
Qed.

(** The formats [fs] of a record, one after the other. *)
Lemma save_formats_writes r n now fs tick d artifacts (Q : list SavedArtifact * option save_error → nat → Disk → Prop) :
  (∀ f, f ∈ fs → f ∈ Formats o) →
  AllowOverwrite o = true ∨ (NoDup fs ∧ ∀ f, f ∈ fs → d !! path_of o r f = None) →
  (∀ tick' new, map entry new = map (entry_of o r) fs →
     Q (artifacts ++ new, None) tick' (foldl (put r (env_clock env n)) d fs)) →
  wp (save_formats io o (toPersistedConfig (makeID o r) r (env_clock env n)) now artifacts fs) env tick d Q.
Proof.
  revert tick d artifacts. induction fs as [|f fs IH]; intros tick d artifacts Hfs Hw HQ; cbn [save_formats].
  { wp_go. rewrite <- (app_nil_r artifacts). by apply HQ. }
  wp_go. apply faulty_false; [apply Hio|]. rewrite file_of_payload by (done || apply Hfs; by left). wp_go.
  apply writeFile_writes; [destruct Hw as [?|[_ Hw]]; [by left|right; apply Hw; by left]|]. intros t1. apply IH.
  - intros f' Hf'. apply Hfs. by right.
  - destruct Hw as [?|[[Hnf Hnd]%NoDup_cons Hw]]; [by left|]. right. split; [done|]. intros f' Hf'. unfold put.
    rewrite lookup_insert_ne, lookup_delete_ne; [apply Hw; by right|intros E; by apply eq_sym, not_temporary in E|].
    intros E. apply name_inj in E as [_ ->]; [done|apply Hfmts, Hfs; by left|apply Hfmts, Hfs; by right].
  - intros t2 new Hnew. rewrite <- app_assoc. apply HQ. cbn [app map]. by rewrite entry_of_artifact, Hnew.
Qed.

(** Writing the formats of one record. *)
Lemma put_other r t fs d path :
  (∀ f, f ∈ fs → path ≠ path_of o r f ∧ path ≠ path_of o r f +:+ ".tmp") → foldl (put r t) d fs !! path = d !! path.
Proof.
  revert d. induction fs as [|f fs IH]; intros d H; [done|]. cbn [foldl]. rewrite IH by (intros; apply H; by right).
  destruct (H f) as [H1 H2]; [by left|]. unfold put. by rewrite lookup_insert_ne, lookup_delete_ne.
Qed.
Lemma put_file r t fs d f : f ∈ fs → (∀ f, f ∈ fs → f ∈ Formats o) →
  foldl (put r t) d fs !! path_of o r f = Some (payload_of o r f t).
Proof.
  revert d. induction fs as [|f' fs IH]; intros d Hf Hfs; [by apply elem_of_nil in Hf|]. cbn [foldl].
  destruct (decide (f ∈ fs)) as [Hin|Hin]; [apply IH; [done|]; intros; apply Hfs; by right|].
  apply elem_of_cons in Hf as [<-|Hf]; [|done]. rewrite put_other; [by apply lookup_insert_eq|].
  intros f' Hf'. split; [|apply not_temporary]. intros E.
  apply name_inj in E as [_ ->]; [done|apply Hfmts, Hfs; by left|apply Hfmts, Hfs; by right].
Qed.
Lemma put_tmp r t fs d f : f ∈ fs ∨ d !! (path_of o r f +:+ ".tmp") = None →
  foldl (put r t) d fs !! (path_of o r f +:+ ".tmp") = None.
Proof.
  revert d. induction fs as [|f' fs IH]; intros d [Hf|Hd]; [by apply elem_of_nil in Hf|done|..]; cbn [foldl]; apply IH.
  all: unfold put; rewrite lookup_insert_ne by (apply not_temporary).
  - apply elem_of_cons in Hf as [<-|Hf]; [|by left]. right. apply lookup_delete_eq.
  - right. apply lookup_delete_None. by right.
Qed.

Lemma saved_nil d : saved [] d d.
Proof. split_and!; [by intros []|by intros r f Hr%elem_of_nil|done]. Qed.

Lemma saved_cons r rs n d d' :
  saved rs (foldl (put r (env_clock env n)) d (Formats o)) d' → saved (r :: rs) d d'.
Proof.
  intros (Hlast & Htmp & Hother). assert (∀ f, f ∈ Formats o → makeID o r ∉ map (makeID o) rs →
    d' !! path_of o r f = Some (payload_of o r f (env_clock env n))) as Hr.
  { intros f Hf Hn. rewrite Hother; [by apply put_file|]. intros r' f' Hr' Hf'. split; [|apply not_temporary].
    intros E. apply name_inj in E as [E _]; [|by apply Hfmts..]. apply Hn. rewrite E. by apply list_elem_of_fmap_2. }
  split_and!.
  - intros [|r0 before] r' after f E Hn Hf; injection E as -> ->; [|by eapply Hlast]. exists n. by apply Hr.
  - intros r' f [-> | Hr']%elem_of_cons Hf; [|by apply Htmp].
    destruct (decide (makeID o r ∈ map (makeID o) rs)) as [(r1 & E & Hr1)%list_elem_of_fmap|Hn].
    + assert (path_of o r f = path_of o r1 f) as -> by (unfold path_of, name_of; by rewrite E). by apply Htmp.
    + rewrite Hother; [by apply put_tmp; left|]. intros r' f' Hr' Hf'. split; [apply not_eq_sym, not_temporary|].
      intros E%sapp_inj_r. apply name_inj in E as [E _]; [|by apply Hfmts..]. apply Hn. rewrite E. by apply list_elem_of_fmap_2.
  - intros path Hp. rewrite Hother; [apply put_other; intros; apply Hp; [by left|done]|].
    intros; apply Hp; [by right|done].
Qed.

Lemma writable_cons r rs n d : writable d (r :: rs) → writable (foldl (put r (env_clock env n)) d (Formats o)) rs.
Proof.
  intros [?|([Hn Hnd]%NoDup_cons & Hf & Hw)]; [by left|]. right. split_and!; [done|done|]. intros r' f' Hr' Hf'.
  rewrite put_other; [apply Hw; [by right|done]|]. intros f Hff. split; [|apply not_temporary].
  intros E. apply name_inj in E as [E _]; [|by apply Hfmts..]. apply Hn. rewrite <- E. by apply list_elem_of_fmap_2.
Qed.

Lemma save_records_writes rs out tick d : writable d rs →
  wp (save_records io o out rs) env tick d (λ res _ d', ∃ new, res = (out ++ new, None) ∧
    map entry new = entries o rs ∧ saved rs d d').
Proof.
  revert out tick d. induction rs as [|r rs IH]; intros out tick d Hw; cbn [save_records].
  { wp_go. exists []. rewrite app_nil_r. split_and!; [done|done|apply saved_nil]. }
  wp_go. apply faulty_false; [apply Hio|]. wp_go. unfold savePersistedConfigLocked. wp_go.
  apply save_formats_writes; [done| |].
  { destruct Hw as [?|(_ & ? & Hw)]; [by left|]. right. split; [done|]. intros f Hf. apply Hw; [by left|done]. }
  intros t1 new Hnew. cbn [app]. eapply wp_mono; [apply IH, writable_cons, Hw|].
  intros res t2 d' (new' & -> & Hnew' & Hs). exists (new ++ new'). split_and!; [by rewrite app_assoc| |by eapply saved_cons].
  rewrite map_app, Hnew, Hnew'. done.
Qed.
End Success.

Definition formats_ok (l : list string) : Prop := NoDup l ∧ ∀ f, f ∈ l → f ∈ [FormatJSON; FormatMarkdown].

Lemma known_formats_ok out formats : formats_ok out → formats_ok (known_formats out formats).
Proof.
  revert out. induction formats as [|f formats IH]; intros out H; [done|]. cbn [known_formats]. cbv zeta.
  generalize (if ToLower (TrimSpace f) =s "md" then FormatMarkdown else ToLower (TrimSpace f)). intros g. destruct (mem g _) eqn:Hk; [|by apply IH]. cbn [negb].
  destruct (mem g out) eqn:Ho; [by apply IH|]. apply IH. destruct H as [Hn Hf]. apply mem_true in Hk. split.
  - apply NoDup_app. split_and!; [done| |apply NoDup_singleton]. intros x Hx ->%list_elem_of_singleton.
    apply mem_true in Hx. by rewrite Hx in Ho.
  - intros x [Hx| ->%list_elem_of_singleton]%elem_of_app; [by apply Hf|done].
Qed.

Lemma normalizeFormats_ok formats : formats_ok (normalizeFormats formats).
Proof.
  unfold normalizeFormats. assert (formats_ok (known_formats [] formats)) as H.
  { apply known_formats_ok. split; [apply NoDup_nil_2|]. by intros f Hf%elem_of_nil. }
  destruct (known_formats [] formats) as [|f l]; [split; [by apply (bool_decide_unpack _)|done]|].
  unfold formats_ok, sort_strings. by setoid_rewrite (merge_sort_Permutation String.le).
Qed.

(** When nothing disturbs a save, every record reaches the disk. With a healthy
    operating system and a clock that JSON can write, and where overwriting is on
    or the names are free and distinct, [SaveDiscoveryRecords] fails nowhere; it
    returns one artifact for each record and format, with the path of its file and
    the address it is served at, ordered by ID and format; the file of the last
    record of an ID holds that record, complete; no temporary file is left, and no
    other file changes. *)
Theorem SaveDiscoveryRecords_saves (io : OS) (opts : StoreOptions) (sort : list SavedArtifact → list SavedArtifact)
    `{Hsort : !SliceSort by_artifact sort} (records : list DiscoveryRecord) (env : Env) (tick : nat) (d : Disk)
    (Hio : healthy io) (Hclock : ∀ n, rfc3339_time (env_clock env n) = true) (Hw : writable (NewStore opts) d records) :
  let o := NewStore opts in
  let res := result (SaveDiscoveryRecords io o sort records) env tick d in
  res.2 = None ∧ map entry res.1 ≡ₚ entries o records ∧ StronglySorted by_artifact res.1 ∧
  saved o env records d (state (SaveDiscoveryRecords io o sort records) env tick d).
Proof.
  intros o. enough (wp (SaveDiscoveryRecords io o sort records) env tick d (λ res _ d',
    res.2 = None ∧ map entry res.1 ≡ₚ entries o records ∧ StronglySorted by_artifact res.1 ∧ saved o env records d d')) as H
    by by apply wp_run in H.
  unfold SaveDiscoveryRecords. wp_go. apply faulty_false; [apply Hio|].
  destruct records as [|r rs]; [wp_go; split_and!; [done|done|constructor|apply saved_nil]|].
  wp_go. apply faulty_false; [apply Hio|]. wp_go. eapply wp_mono.
  { apply save_records_writes; [exact Hio|apply NewStore_directory|apply (normalizeFormats_ok (Formats opts))|done|exact Hw]. }
  intros res t d' (new & -> & Hnew & Hs). wp_go. cbn [app fst snd]. split_and!; [done| |apply slice_sort_sorted|done].
  by rewrite (slice_sort_perm (R:=by_artifact) (sort:=sort)), Hnew.
Qed.

(** ** A concrete store *)

Definition ex_os : OS := mkOS (λ _, false) (λ _, false) (λ _, false) (λ _, false) (λ _, false) (λ _, false).
Definition ex_store (overwrite unique : bool) : StoreOptions := mkStoreOptions "/srv/dc" ["md"; "json"] "dc/" overwrite unique.
Definition ex_save (o : StoreOptions) (records : list DiscoveryRecord) : M Disk (list SavedArtifact * option save_error) :=
  SaveDiscoveryRecords ex_os (NewStore o) (merge_sort by_artifact) records.

(** What discovery found, saved for the first time. *)
Lemma SaveDiscoveryRecords_saves_witness :
  let o := NewStore (ex_store false true) in
  let res := result (ex_save (ex_store false true) (dr_Records ex_result)) (frozen 0 "") 0 ∅ in
  res.2 = None ∧ map entry res.1 ≡ₚ entries o (dr_Records ex_result) ∧ StronglySorted by_artifact res.1 ∧
  saved o (frozen 0 "") (dr_Records ex_result) ∅ (state (ex_save (ex_store false true) (dr_Records ex_result)) (frozen 0 "") 0 ∅).
Proof.
  apply (SaveDiscoveryRecords_saves ex_os (ex_store false true) (merge_sort by_artifact) (dr_Records ex_result) (frozen 0 "") 0 ∅).
  - done.
  - done.
  - right. split_and!; [|apply (normalizeFormats_ok ["md"; "json"])|intros; apply lookup_empty].
    vm_compute. repeat (apply NoDup_cons_2; [set_solver|]). apply NoDup_nil_2.
Defined.

(** ** Examples *)

Example saved_paths :
  map art_Path (result (ex_save (ex_store false true) (dr_Records ex_result)) (frozen 0 "") 0 ∅).1 =
    ["/srv/dc/discovered-localhost-8080-mcp-9696928d9f.json"; "/srv/dc/discovered-localhost-8080-mcp-9696928d9f.md";
     "/srv/dc/env-mcp-urls-1-9d54a0d43e.json"; "/srv/dc/env-mcp-urls-1-9d54a0d43e.md";
     "/srv/dc/llms-docs-example-com-0-mcp-9b94506d38.json"; "/srv/dc/llms-docs-example-com-0-mcp-9b94506d38.md";
     "/srv/dc/self-8762e50a9b.json"; "/srv/dc/self-8762e50a9b.md"].
Proof. vm_compute. reflexivity. Qed.

(** With overwriting off a file that is there ends the batch: what was found since
    the last save is not written. *)
Example known_record_hides_new :
  let old := take 1 (dr_Records ex_result) in
  let d := state (ex_save (ex_store false true) old) (frozen 0 "") 0 ∅ in
  let '(res, _, d') := run (ex_save (ex_store false true) (dr_Records ex_result)) (frozen 1 "") 0 d in
  (res, length (map_to_list d')) = (([], Some (ErrExists "/srv/dc/discovered-localhost-8080-mcp-9696928d9f.json")), 2%nat).
Proof. vm_compute. reflexivity. Qed.

(** A record whose second format fails is left out of the artifacts, though its
    first file was written. *)
Example written_but_not_reported :
  let io := {| ex_os with rename_fails := λ n, Nat.leb 9 n |} in
  let '(res, _, d') := run (SaveDiscoveryRecords io (NewStore (ex_store false true)) id (take 1 (dr_Records ex_result))) (frozen 0 "") 0 ∅ in
  (res, map fst (map_to_list d')) = (([], Some ErrCommit), ["/srv/dc/discovered-localhost-8080-mcp-9696928d9f.json"]).
Proof. vm_compute. reflexivity. Qed.

(** IDs do not see the transport, nor where a source ends and an endpoint starts. *)
Example unique_ids_collide :
  let t := toTargetFromConfig ex_target_config in
  let record transport source endpoint :=
    mkRecord {| t with tgt_ID := "a"; tgt_Transport := transport; tgt_Endpoint := endpoint |} source 1 ∅ in
  let o := ex_store false true in
  (makeID o (record "http" "env" "http://h/a") =s makeID o (record "sse" "env" "http://h/a")) = true ∧
  (makeID o (record "http" "x" "y|z") =s makeID o (record "http" "x|y" "z")) = true.
Proof. vm_compute. split; reflexivity. Qed.
