(* ===== verification/Registry.v ===== *)
(** * The federation registry ([internal/federation/registry.go], [isotopes.go])

    The introducer and every follower keep a registry of peers: a map bounded by
    [MaxPeers], a version that counts changes and an observer that is told of each
    of them. The observer is modelled by what it has been told ([notified]); the
    program lets it re-enter the registry only after the lock is released. The
    [registryEntry] wrapper holds one field, the record. [SaveSnapshot] writes the
    snapshot to a file for observability and is not modelled. *)

From Stdlib Require Import ZArith Lia.
From stdpp Require Import base tactics strings gmap sorting.
From stdpp Require Import list.
From S2P Require Import Prelude.

Open Scope Z_scope.

(** ** Data *)

Definition RoleIntroducer : string := "introducer".
Definition RoleFollower : string := "follower".

Record Identity := mkIdentity {
  id_ID : string;
  id_ServiceName : string;
  id_Hostname : string;
  id_StateDir : string;
  id_Port : Z;
  id_Role : string;
  id_PID : Z;
  id_CreatedAt : Time;
}.

Definition EventAdded : string := "added".
Definition EventUpdated : string := "updated".
Definition EventRemoved : string := "removed".

Record InstanceRecord := mkInstance {
  ID : string;
  ServiceName : string;
  Hostname : string;
  Port : Z;
  Role : string;
  PID : Z;
  StartedAt : Time;
  AnnouncedAt : Time;
  LastSeenAt : Time;
  Introducer : string;
  Upstream : string;
  Downstream : list string;
  Meta : gmap string string;
  ClusterID : string;
}.

Record Event := mkEvent {
  ev_Type : string;
  ev_Record : InstanceRecord;
  ev_Reason : string;
  ev_At : Time;
  ev_Version : Z;
}.

Definition zeroInstance : InstanceRecord := mkInstance "" "" "" 0 "" 0 0 0 0 "" "" [] ∅ "".
Definition zeroEvent : Event := mkEvent "" zeroInstance "" 0 0.

Record Snapshot := mkSnapshot {
  Self : InstanceRecord;
  IntroducerID : string;
  Peers : list InstanceRecord;
  snap_Version : Z;
  GeneratedAt : Time;
}.

Record RegistryOptions := mkRegistryOptions {
  StateDir : string;
  AnnounceInterval : Duration;
  HeartbeatTimeout : Duration;
  MaxPeers : Z;
  OnChange : bool;  (* an observer is configured *)
  opt_ClusterID : string;
}.

Record Registry := mkRegistry {
  self : Identity;
  opts : RegistryOptions;
  version : Z;
  peers : gmap string InstanceRecord;
  notified : list Event;
}.

(** ** Operations *)

Definition NewRegistry (self : Identity) (opts : RegistryOptions) : option Registry :=
  if id_ID self =s "" then None
  else
    Some (mkRegistry self
      {| opts with
         AnnounceInterval := if AnnounceInterval opts <=? 0 then 10 * Second else AnnounceInterval opts;
         HeartbeatTimeout := if HeartbeatTimeout opts <=? 0 then 45 * Second else HeartbeatTimeout opts;
         MaxPeers := if MaxPeers opts <=? 0 then 256 else MaxPeers opts |}
      1 ∅ []).

Definition Registry_Self : M Registry InstanceRecord :=
  r ← get;
  announced ← clock;
  seen ← clock;
  let s := self r in
  mret (mkInstance (id_ID s) (id_ServiceName s) (id_Hostname s) (id_Port s) (id_Role s) (id_PID s)
    (id_CreatedAt s) announced seen (id_ID s) "" [] ∅ (opt_ClusterID (opts r))).

Definition upsertLocked (rec : InstanceRecord) (reason : string) : M Registry Event :=
  r ← get;
  if (ID rec =s "") || (ID rec =s id_ID (self r)) then mret zeroEvent
  else
    now ← clock;
    let rec := {| rec with
      LastSeenAt := now;
      AnnouncedAt := if IsZero (AnnouncedAt rec) then now else AnnouncedAt rec;
      StartedAt := if IsZero (StartedAt rec) then now else StartedAt rec |} in
    let exists_ := bool_decide (is_Some (peers r !! ID rec)) in
    if negb exists_ && (Z.of_nat (size (peers r)) >=? MaxPeers (opts r)) then mret zeroEvent
    else
      let version := wrap_u64 (version r + 1) in
      _ ← modify (λ r, {| r with version := version; peers := <[ID rec := rec]> (peers r) |});
      let eventType := if negb exists_ then EventAdded else EventUpdated in
      mret (mkEvent eventType rec reason now version).

Definition notify (event : Event) : M Registry unit :=
  r ← get;
  if (ev_Type event =s "") || negb (OnChange (opts r)) then mret tt
  else modify (λ r, {| r with notified := notified r ++ [event] |}).

Definition Upsert (rec : InstanceRecord) (reason : string) : M Registry Event :=
  event ← upsertLocked rec reason;
  _ ← notify event;
  mret event.

Definition Remove (peerID reason : string) : M Registry Event :=
  r ← get;
  if (peerID =s "") || (peerID =s id_ID (self r)) then mret zeroEvent
  else
    match peers r !! peerID with
    | None => mret zeroEvent
    | Some entry =>
        let version := wrap_u64 (version r + 1) in
        _ ← modify (λ r, {| r with version := version; peers := delete peerID (peers r) |});
        now ← clock;
        let event := mkEvent EventRemoved entry reason now version in
        _ ← notify event;
        mret event
    end.

(** One iteration of the loop of [AgeOut] over the map. *)
Definition age_out_peer (now : Time) (timeout : Duration) (st : Registry * list Event) (id : string)
  : Registry * list Event :=
  let '(r, events) := st in
  match peers r !! id with
  | None => st
  | Some entry =>
      if TimeSub now (LastSeenAt entry) <? timeout then st
      else
        let version := wrap_u64 (version r + 1) in
        ({| r with version := version; peers := delete id (peers r) |},
         events ++ [mkEvent EventRemoved entry "heartbeat_timeout" now version])
  end.

Fixpoint notify_all (events : list Event) : M Registry unit :=
  match events with
  | [] => mret tt
  | ev :: events => _ ← notify ev; notify_all events
  end.

(** [order] is the order in which Go iterates the map. *)
Definition AgeOut (order : list string) : M Registry (list Event) :=
  r ← get;
  let timeout := HeartbeatTimeout (opts r) in
  if timeout <=? 0 then mret []
  else
    now ← clock;
    r ← get;
    let '(r', events) := foldl (age_out_peer now timeout) (r, []) order in
    _ ← modify (λ _, r');
    _ ← notify_all events;
    mret events.

(** [slices.SortFunc] by ID; IDs are distinct, so the order is total. *)
Definition by_ID (a b : InstanceRecord) : Prop := String.le (ID a) (ID b).

#[global] Instance by_ID_dec : RelDecision by_ID.
Proof. unfold by_ID. intros a b. apply _. Defined.
#[global] Instance by_ID_trans : Transitive by_ID.
Proof. intros a b c. unfold by_ID. apply transitivity. Qed.
#[global] Instance by_ID_total : Total by_ID.
Proof. intros a b. unfold by_ID. apply (total String.le). Qed.

Definition sort_peers (l : list InstanceRecord) : list InstanceRecord := merge_sort by_ID l.

Definition TakeSnapshot (order : list string) : M Registry Snapshot :=
  r ← get;
  let sorted := sort_peers (omap (λ id, peers r !! id) order) in
  let introducerID :=
    match find (λ p, Role p =s RoleIntroducer) sorted with
    | Some p => ID p
    | None => id_ID (self r)
    end in
  s ← Registry_Self;
  now ← clock;
  mret (mkSnapshot s introducerID sorted (version r) now).

(** ** Mesh members ([isotopes.go])

    [isotope.Record] and the rung thresholds are another module's: the record is
    the fields this program sets, and [rung_thresholds] is the module's table of
    rungs and names. *)
Record Isotope := mkIsotope {
  iso_Name : string;
  iso_Role : string;
  iso_Endpoint : string;
  iso_Protocol : string;
  iso_TrustRung : Z;
  iso_RungName : string;
  iso_RegisteredAt : Time;
  iso_Evidence : list string;
  iso_AttestedBy : string;
}.

Definition MeshMemberRung : Z := 4.

Definition memberEndpoint (rec : InstanceRecord) : string :=
  if (Hostname rec =s "") || (Port rec =? 0) then ""
  else "http://" +:+ Hostname rec +:+ ":" +:+ Itoa (Port rec).

Definition rungName (rung_thresholds : list (Z * string)) (rung : Z) : string :=
  match find (λ rt, rt.1 =? rung) rung_thresholds with
  | Some rt => rt.2
  | None => ""
  end.

Definition IsotopeForMember (rung_thresholds : list (Z * string)) (rec : InstanceRecord) (now : Time)
  : option Isotope :=
  if ID rec =s "" then None
  else Some (mkIsotope (ID rec) "alarm" (memberEndpoint rec) "http" MeshMemberRung
    (rungName rung_thresholds MeshMemberRung) now [] "").

Definition SameCluster (self rec : InstanceRecord) : bool :=
  negb (ClusterID self =s "") && (ClusterID self =s ClusterID rec).

(** The sink of [MirrorMember]: isotopes by name. *)
Abbreviation IsotopeSink := (gmap string Isotope).

Definition MirrorMember (rung_thresholds : list (Z * string)) (self : InstanceRecord) (ev : Event)
  (now : Time) (sink : IsotopeSink) : IsotopeSink :=
  if (ev_Type ev =s EventAdded) || (ev_Type ev =s EventUpdated) then
    if negb (SameCluster self (ev_Record ev)) then sink
    else
      match IsotopeForMember rung_thresholds (ev_Record ev) now with
      | Some rec => <[iso_Name rec := rec]> sink
      | None => sink
      end
  else if ev_Type ev =s EventRemoved then delete (ID (ev_Record ev)) sink
  else sink.

(** ** Facts: what operations deliver *)

(** The membership an observer builds from the events it is told of. *)
Definition apply_event (m : gmap string InstanceRecord) (ev : Event) : gmap string InstanceRecord :=
  if ev_Type ev =s EventRemoved then delete (ID (ev_Record ev)) m
  else <[ID (ev_Record ev) := ev_Record ev]> m.

Definition replay : list Event → gmap string InstanceRecord := foldl apply_event ∅.

Definition numbered (v : Z) (evs : list Event) : Prop :=
  ∀ i ev, evs !! i = Some ev → ev_Version ev = wrap_u64 (v + 1 + Z.of_nat i).

Definition real_event (ev : Event) : Prop :=
  ev_Type ev = EventAdded ∨ ev_Type ev = EventUpdated ∨ ev_Type ev = EventRemoved.

(** [r'] is [r] after exactly the changes [evs], numbered in order. *)
Record delivers (r : Registry) (evs : list Event) (r' : Registry) : Prop := {
  dl_self : self r' = self r;
  dl_opts : opts r' = opts r;
  dl_peers : peers r' = foldl apply_event (peers r) evs;
  dl_version : version r' = wrap_u64 (version r + Z.of_nat (length evs)) ∨ (evs = [] ∧ version r' = version r);
  dl_numbered : numbered (version r) evs;
  dl_real : Forall real_event evs;
}.

Lemma wrap_u64_add a b : wrap_u64 (wrap_u64 a + b) = wrap_u64 (a + b).
Proof. unfold wrap_u64. by rewrite Z.add_mod_idemp_l. Qed.

Lemma delivers_refl r : delivers r [] r.
Proof. split; auto. intros i ev H. by rewrite lookup_nil in H. Qed.

Lemma delivers_trans r1 e1 r2 e2 r3 :
  delivers r1 e1 r2 → delivers r2 e2 r3 → delivers r1 (e1 ++ e2) r3.
Proof.
  intros [S1 O1 P1 V1 N1 R1] [S2 O2 P2 V2 N2 R2].
  destruct V1 as [V1|[-> V1]].
  - split; try congruence.
    + by rewrite foldl_app, <- P1.
    + left. rewrite length_app. destruct V2 as [->|[-> ->]].
      * rewrite V1, wrap_u64_add. f_equal. lia.
      * rewrite V1. f_equal. cbn. lia.
    + intros i ev. rewrite lookup_app_Some. intros [Hi|[Hl Hi]]; [by apply N1|].
      rewrite (N2 _ _ Hi), V1, <- Z.add_assoc, wrap_u64_add. f_equal. lia.
    + by apply Forall_app.
  - cbn in *. rewrite V1 in *. split; try congruence; done.
Qed.

(** One change. *)
Lemma delivers_one r ev m :
  ev_Version ev = wrap_u64 (version r + 1) → real_event ev → m = apply_event (peers r) ev →
  delivers r [ev] {| r with version := wrap_u64 (version r + 1); peers := m |}.
Proof.
  intros Hv Hr ->. split; try done.
  - by left.
  - intros [|i] e Hi; [|done]. injection Hi as <-. rewrite Hv. f_equal. cbn. lia.
  - by constructor.
Qed.

(** The observer is told of every change, once and in order. *)
Definition tells (r : Registry) (evs : list Event) (r' : Registry) : Prop :=
  notified r' = notified r ++ (if OnChange (opts r) then evs else []).

Lemma wp_notify ev env tick r Q :
  real_event ev →
  wp (notify ev) env tick r Q =
  Q tt tick {| r with notified := notified r ++ if OnChange (opts r) then [ev] else [] |}.
Proof.
  intros Hev. unfold notify. wp_go. rewrite (proj2 (streq_false (ev_Type ev) ""))
    by (destruct Hev as [->|[->| ->]]; done).
  cbn [orb]. destruct (OnChange (opts r)); cbn [negb]; wp_go; [done|].
  rewrite app_nil_r. by destruct r.
Qed.

Lemma wp_notify_all evs env tick r Q :
  Forall real_event evs →
  wp (notify_all evs) env tick r Q =
  Q tt tick {| r with notified := notified r ++ if OnChange (opts r) then evs else [] |}.
Proof.
  intros H. revert r. induction H as [|ev evs Hev _ IH]; intros r; cbn [notify_all].
  - wp_go. destruct (OnChange (opts r)); rewrite app_nil_r; by destruct r.
  - wp_go. rewrite wp_notify, IH by done. cbn. f_equal.
    destruct (OnChange (opts r)); rewrite <- app_assoc; cbn; done.
Qed.

(** The peers a registry holds are those it may hold. *)
Record peers_ok (r : Registry) : Prop := {
  po_cap : Z.of_nat (size (peers r)) ≤ MaxPeers (opts r);
  po_keys : map_Forall (λ id rec, ID rec = id ∧ id ≠ "" ∧ id ≠ id_ID (self r)) (peers r);
}.

Lemma peers_ok_delete r id v :
  peers_ok r → peers_ok {| r with version := v; peers := delete id (peers r) |}.
Proof.
  intros [Hc Hk]. split; cbn [peers opts self].
  - rewrite map_size_delete. destruct (peers r !! id); [|done].
    pose proof (Nat.le_pred_l (size (peers r))). etrans; [|exact Hc]. by apply Nat2Z.inj_le.
  - by apply map_Forall_delete.
Qed.

(** The record that is stored: what the caller sent, its times filled in. *)
Definition stamp (rec : InstanceRecord) (now : Time) : InstanceRecord :=
  {| rec with
     LastSeenAt := now;
     AnnouncedAt := if IsZero (AnnouncedAt rec) then now else AnnouncedAt rec;
     StartedAt := if IsZero (StartedAt rec) then now else StartedAt rec |}.

Definition addressable (r : Registry) (id : string) : bool :=
  negb (id =s "") && negb (id =s id_ID (self r)).

(** [Upsert], branch by branch. *)
Lemma wp_Upsert rec reason env tick r (Q : Event → nat → Registry → Prop) :
  let now := env_clock env tick in
  let full := Z.of_nat (size (peers r)) >=? MaxPeers (opts r) in
  let v := wrap_u64 (version r + 1) in
  wp (Upsert rec reason) env tick r Q =
  if negb (addressable r (ID rec)) then Q zeroEvent tick r
  else if negb (bool_decide (is_Some (peers r !! ID rec))) && full then Q zeroEvent (S tick) r
  else
    let ev := mkEvent (if bool_decide (is_Some (peers r !! ID rec)) then EventUpdated else EventAdded)
      (stamp rec now) reason now v in
    Q ev (S tick) {| r with version := v; peers := <[ID rec := stamp rec now]> (peers r);
      notified := notified r ++ if OnChange (opts r) then [ev] else [] |}.
Proof.
  cbv zeta. unfold Upsert, upsertLocked, addressable. wp_go.
  rewrite <- negb_orb, negb_involutive.
  destruct (_ || _).
  { wp_go. unfold notify. wp_go. done. }
  wp_go. destruct (bool_decide _); cbn [negb andb].
  - wp_go. rewrite wp_notify by (right; by left). wp_go. done.
  - destruct (_ >=? _); wp_go.
    + unfold notify. wp_go. done.
    + rewrite wp_notify by by left. wp_go. done.
Qed.

(** [Remove], branch by branch. *)
Lemma wp_Remove id reason env tick r (Q : Event → nat → Registry → Prop) :
  let v := wrap_u64 (version r + 1) in
  wp (Remove id reason) env tick r Q =
  match (if addressable r id then peers r !! id else None) with
  | None => Q zeroEvent tick r
  | Some entry =>
      let ev := mkEvent EventRemoved entry reason (env_clock env tick) v in
      Q ev (S tick) {| r with version := v; peers := delete id (peers r);
        notified := notified r ++ if OnChange (opts r) then [ev] else [] |}
  end.
Proof.
  cbv zeta. unfold Remove, addressable. wp_go. rewrite <- negb_orb.
  destruct (_ || _); cbn [negb]; [by wp_go|].
  destruct (peers r !! id); wp_go; [|done].
  rewrite wp_notify by (right; by right). by wp_go.
Qed.

(** ** Facts: ageing *)

(** The peer has been silent for the whole timeout. *)
Definition stale (now : Time) (timeout : Duration) (rec : InstanceRecord) : bool :=
  timeout <=? TimeSub now (LastSeenAt rec).

Lemma stale_ltb now timeout rec : (TimeSub now (LastSeenAt rec) <? timeout) = negb (stale now timeout rec).
Proof. unfold stale. by rewrite Z.leb_antisym, negb_involutive. Qed.

(** The peers a sweep over [order] removes. *)
Definition swept (now : Time) (timeout : Duration) (r : Registry) (order : list string) (id : string) : bool :=
  mem id order && match peers r !! id with Some rec => stale now timeout rec | None => false end.

Lemma mem_snoc x l y : mem x (l ++ [y]) = mem x l || streq x y.
Proof. unfold mem. rewrite existsb_app. cbn. by rewrite orb_false_r. Qed.

Lemma swept_snoc now timeout r order y id :
  swept now timeout r (order ++ [y]) id =
  swept now timeout r order id || (streq id y && swept now timeout r [y] y).
Proof.
  unfold swept. rewrite mem_snoc. cbn. rewrite streq_refl. cbn.
  destruct (streq id y) eqn:E; go_bools; subst; [|by rewrite !orb_false_r].
  destruct (mem _ order), (peers r !! _); cbn; rewrite ?orb_false_r; try done.
  by destruct (stale _ _ _).
Qed.

Lemma age_out_fold now timeout r0 order :
  peers_ok r0 →
  let '(r, evs) := foldl (age_out_peer now timeout) (r0, []) order in
  delivers r0 evs r ∧ peers_ok r ∧ notified r = notified r0 ∧
  (∀ id, peers r !! id = if swept now timeout r0 order id then None else peers r0 !! id) ∧
  (∀ ev, ev ∈ evs → ev_Type ev = EventRemoved ∧ ev_Reason ev = "heartbeat_timeout" ∧ ev_At ev = now ∧
     peers r0 !! ID (ev_Record ev) = Some (ev_Record ev)) ∧
  (∀ id, length (filter (λ ev, ID (ev_Record ev) = id) evs) =
     if swept now timeout r0 order id then 1%nat else 0%nat).
Proof.
  intros Hok. induction order as [|id order IH] using rev_ind.
  { cbn. split_and!; try done.
    - apply delivers_refl.
    - intros ev Hev. by apply elem_of_nil in Hev. }
  rewrite foldl_app. cbn [foldl]. destruct (foldl _ _ order) as [r evs].
  destruct IH as (Hd & Hok' & Hn & Hp & He & Hc).
  pose proof (swept_snoc now timeout r0 order id) as Hsw.
  unfold age_out_peer. pose proof (Hp id) as Hpid.
  destruct (peers r !! id) as [rec|] eqn:Hr.
  - destruct (swept now timeout r0 order id) eqn:Hno; [done|]. symmetry in Hpid.
    rewrite stale_ltb. destruct (stale now timeout rec) eqn:Hst; cbn [negb].
    + assert (swept now timeout r0 [id] id = true) as Hone.
      { unfold swept. cbn. by rewrite streq_refl, Hpid. }
      assert (ID rec = id) as Hid by by apply (po_keys _ Hok id rec).
      rewrite Hone in Hsw. split_and!.
      * eapply delivers_trans; [exact Hd|]. apply delivers_one; [done|by right; right|].
        unfold apply_event. cbn. by rewrite Hid.
      * by apply peers_ok_delete.
      * done.
      * intros x. cbn [peers]. rewrite Hsw. destruct (streq x id) eqn:E; go_bools.
        -- subst x. rewrite lookup_delete_eq, orb_true_r. done.
        -- rewrite lookup_delete_ne, Hp, orb_false_r by done. done.
      * intros ev. rewrite elem_of_app, list_elem_of_singleton. intros [Hev| ->]; [by apply He|].
        cbn. by rewrite Hid.
      * intros x. rewrite filter_app, length_app, Hc, Hsw.
        destruct (streq x id) eqn:E; go_bools.
        -- subst x. rewrite Hno, filter_cons_True by done. done.
        -- rewrite orb_false_r, filter_cons_False by (cbn; congruence). cbn. lia.
    + assert (swept now timeout r0 [id] id = false) as Hone.
      { unfold swept. cbn. by rewrite streq_refl, Hpid. }
      rewrite Hone in Hsw. split_and!; try done; intros x; rewrite Hsw, andb_false_r, orb_false_r; auto.
  - assert (∀ x, swept now timeout r0 (order ++ [id]) x = swept now timeout r0 order x) as Hsame.
    { intros x. rewrite Hsw. destruct (streq x id) eqn:E; [|by rewrite orb_false_r].
      go_bools. subst x. destruct (swept now timeout r0 order id); [done|]. cbn.
      unfold swept. cbn. by rewrite <- Hpid, andb_false_r. }
    split_and!; try done; intros x; rewrite Hsame; auto.
Qed.

(** [AgeOut] as one delivery. *)
Lemma wp_AgeOut order env tick r (Q : list Event → nat → Registry → Prop) :
  peers_ok r →
  (HeartbeatTimeout (opts r) ≤ 0 → Q [] tick r) →
  (∀ evs r', 0 < HeartbeatTimeout (opts r) →
     delivers r evs r' → peers_ok r' → tells r evs r' →
     (peers r', evs) = (let '(r1, e) := foldl (age_out_peer (env_clock env tick) (HeartbeatTimeout (opts r))) (r, []) order in (peers r1, e)) →
     Q evs (S tick) r') →
  wp (AgeOut order) env tick r Q.
Proof.
  intros Hok H0 HQ. unfold AgeOut. wp_go. cbv zeta.
  destruct (Z.leb_spec (HeartbeatTimeout (opts r)) 0); wp_go; [by apply H0|].
  pose proof (age_out_fold (env_clock env tick) (HeartbeatTimeout (opts r)) r order Hok) as Hf.
  destruct (foldl _ _ order) as [r1 evs] eqn:Hfold.
  destruct Hf as (Hd & Hok1 & Hn & _). wp_go.
  rewrite wp_notify_all by apply (dl_real _ _ _ Hd). wp_go.
  apply HQ; [done|by destruct Hd|by destruct Hok1| |].
  - unfold tells. cbn. rewrite Hn. by rewrite (dl_opts _ _ _ Hd).
  - done.
Qed.

(** ** The registry as a transition system *)

Inductive registry_step (r : Registry) : Registry → Prop :=
  | step_Upsert rec reason env tick : registry_step r (state (Upsert rec reason) env tick r)
  | step_Remove id reason env tick : registry_step r (state (Remove id reason) env tick r)
  | step_AgeOut order env tick : registry_step r (state (AgeOut order) env tick r).

(** What a run of the registry establishes about [r], reached from [r0]. *)
Record run_ok (r0 r : Registry) : Prop := {
  run_peers : peers_ok r;
  run_delivers : ∃ evs, delivers r0 evs r ∧ (OnChange (opts r0) = true → notified r = notified r0 ++ evs);
}.

Lemma run_ok_extend r0 r evs r' :
  run_ok r0 r → delivers r evs r' → tells r evs r' → peers_ok r' → run_ok r0 r'.
Proof.
  intros [Hp (evs0 & Hd & Hn)] Hd' Ht Hp'. split; [done|].
  exists (evs0 ++ evs). split; [by eapply delivers_trans|].
  intros Ho. unfold tells in Ht. rewrite Ht, (Hn Ho), (dl_opts _ _ _ Hd), Ho. by rewrite app_assoc.
Qed.

Lemma wp_Upsert_delivers rec reason env tick r (Q : Event → nat → Registry → Prop) :
  peers_ok r →
  (∀ ev tick' r' evs, delivers r evs r' → tells r evs r' → peers_ok r' → Q ev tick' r') →
  wp (Upsert rec reason) env tick r Q.
Proof.
  intros Hok HQ. rewrite wp_Upsert. cbv zeta.
  assert (tells r [] r) as Ht0 by (unfold tells; destruct (OnChange _); by rewrite app_nil_r).
  destruct (addressable r (ID rec)) eqn:Ha; cbn [negb];
    [|eapply HQ; [apply delivers_refl|done|done]].
  destruct (negb _ && _) eqn:Hfull; [eapply HQ; [apply delivers_refl|done|done]|].
  set (ev := mkEvent _ _ _ _ _).
  assert (real_event ev) as Hreal by (subst ev; destruct (bool_decide _); [by right; left|by left]).
  eapply (HQ _ _ _ [ev]); [|done|].
  - assert (ev_Type ev =s EventRemoved = false) as Hnr by (subst ev; by destruct (bool_decide _)).
    destruct (delivers_one r ev (<[ID rec := stamp rec (env_clock env tick)]> (peers r))) as [];
      [done|done|unfold apply_event; rewrite Hnr; subst ev; done|]. split; done.
  - unfold addressable in Ha. go_bools. destruct Hok as [Hc Hk]. split; cbn [peers opts self].
    + rewrite map_size_insert. destruct (peers r !! ID rec) eqn:Hl; [done|].
      cbn in Hfull. rewrite Z.geb_leb in Hfull. go_bools. lia.
    + apply map_Forall_insert_2; done.
Qed.

Lemma registry_step_ok r0 r r' : run_ok r0 r → registry_step r r' → run_ok r0 r'.
Proof.
  intros Hrun Hstep. pose proof (run_peers _ _ Hrun) as Hok.
  destruct Hstep as [rec reason env tick|id reason env tick|order env tick].
  - enough (wp (Upsert rec reason) env tick r (λ _ _ r', run_ok r0 r')) as H by by rewrite wp_run in H.
    apply wp_Upsert_delivers; [done|]. intros ev t r' evs Hd Ht Hp. by eapply run_ok_extend.
  - enough (wp (Remove id reason) env tick r (λ _ _ r', run_ok r0 r')) as H by by rewrite wp_run in H.
    rewrite wp_Remove. cbv zeta. destruct (addressable r id); [|done].
    destruct (peers r !! id) as [entry|] eqn:Hl; [|done].
    set (ev := mkEvent _ _ _ _ _).
    assert (ID entry = id) as Hid by by apply (po_keys _ Hok id entry).
    eapply (run_ok_extend _ _ [ev]); [done| |done|].
    + destruct (delivers_one r ev (delete id (peers r))) as [];
        [done|by right; right|unfold apply_event; subst ev; cbn; by rewrite Hid|]. split; done.
    + destruct (peers_ok_delete r id (wrap_u64 (version r + 1)) Hok) as []. split; done.
  - enough (wp (AgeOut order) env tick r (λ _ _ r', run_ok r0 r')) as H by by rewrite wp_run in H.
    apply wp_AgeOut; [done|done|]. intros evs r' _ Hd Hp Ht _. by eapply run_ok_extend.
Qed.

Lemma NewRegistry_run self o r : NewRegistry self o = Some r → run_ok r r.
Proof.
  unfold NewRegistry. destruct (streq _ _); [done|]. intros [= <-]. split.
  - split; [|apply map_Forall_empty]. cbn [peers opts MaxPeers]. rewrite map_size_empty. destruct (Z.leb_spec (MaxPeers o) 0); lia.
  - exists []. split; [apply delivers_refl|]. by rewrite app_nil_r.
Qed.

(** ** Properties *)


Definition ex_identity : Identity := mkIdentity "me" "svc" "h" "./state" 19100 RoleIntroducer 1 0.
Definition ex_options : RegistryOptions := mkRegistryOptions "" 0 0 2 true "".
Definition ex_registry : Registry := mkRegistry ex_identity
  (mkRegistryOptions "" (10 * Second) (45 * Second) 2 true "") 1 ∅ [].
Definition ex_peer (id : string) : InstanceRecord :=
  mkInstance id "svc" "h" 19101 RoleFollower 2 0 0 0 "" "" [] ∅ "".


(** Membership is bounded and never includes the node itself. In every
    reachable registry there are at most [MaxPeers] peers, each under its own
    non-empty ID, and none is the registry's own identity. *)
Theorem Registry_bounded (me : Identity) (o : RegistryOptions) (r0 r : Registry) :
  NewRegistry me o = Some r0 → rtc registry_step r0 r →
  Z.of_nat (size (peers r)) ≤ (if MaxPeers o <=? 0 then 256 else MaxPeers o) ∧
  map_Forall (λ id rec, ID rec = id ∧ id ≠ "" ∧ id ≠ id_ID me) (peers r).
Proof.
  intros Hnew Hr.
  assert (run_ok r0 r) as [[Hc Hk] (evs & Hd & _)].
  { eapply rtc_invariant; [|exact Hr|by eapply NewRegistry_run]. intros. by eapply registry_step_ok. }
  unfold NewRegistry in Hnew. destruct (streq _ _); [done|]. injection Hnew as <-.
  rewrite (dl_opts _ _ _ Hd) in Hc. rewrite (dl_self _ _ _ Hd) in Hk. done.
Qed.

Lemma Registry_bounded_witness :
  let r := state (Upsert (ex_peer "a") "introduction") (frozen 7 "") 0 ex_registry in
  Z.of_nat (size (peers r)) ≤ 2.
Proof.
  apply (Registry_bounded ex_identity ex_options ex_registry
    (state (Upsert (ex_peer "a") "introduction") (frozen 7 "") 0 ex_registry)
    eq_refl (rtc_once _ _ (step_Upsert _ (ex_peer "a") "introduction" (frozen 7 "") 0))).
Defined.

(** A sweep removes exactly the silent peers. For the peers taken in any map
    order, [AgeOut] leaves exactly the peers heard from within the timeout, and
    returns one removal event for each of the others and none for those left. *)
Theorem AgeOut_exact (r : Registry) (order : list string) (env : Env) (tick : nat) :
  peers_ok r → 0 < HeartbeatTimeout (opts r) → (∀ id, is_Some (peers r !! id) → id ∈ order) →
  let now := env_clock env tick in
  let silent rec := stale now (HeartbeatTimeout (opts r)) rec in
  let evs := result (AgeOut order) env tick r in
  let r' := state (AgeOut order) env tick r in
  peers r' = filter (λ p, silent p.2 = false) (peers r) ∧
  (∀ id, length (filter (λ ev, ID (ev_Record ev) = id) evs) =
     match peers r !! id with Some rec => if silent rec then 1%nat else 0%nat | None => 0%nat end) ∧
  (∀ ev, ev ∈ evs → ev_Type ev = EventRemoved ∧ peers r !! ID (ev_Record ev) = Some (ev_Record ev)).
Proof.
  intros Hok Ht Hall. cbv zeta.
  pose proof (age_out_fold (env_clock env tick) (HeartbeatTimeout (opts r)) r order Hok) as Hf.
  enough (wp (AgeOut order) env tick r (λ evs _ r',
    (peers r', evs) = (let '(r1, e) := foldl (age_out_peer (env_clock env tick)
       (HeartbeatTimeout (opts r))) (r, []) order in (peers r1, e)))) as H.
  { rewrite wp_run in H. destruct (foldl _ _ order) as [r1 evs1].
    injection H as -> ->. destruct Hf as (_ & _ & _ & Hp & He & Hc).
    assert (∀ id, swept (env_clock env tick) (HeartbeatTimeout (opts r)) r order id =
      match peers r !! id with Some rec => stale (env_clock env tick) (HeartbeatTimeout (opts r)) rec | None => false end) as Hsw.
    { intros id. unfold swept. destruct (peers r !! id) as [rec|] eqn:E; [|apply andb_false_r].
      by rewrite (proj2 (mem_true id order)) by (apply Hall; rewrite E; done). }
    split; [|split].
    - apply map_eq. intros id. rewrite Hp, Hsw. destruct (peers r !! id) as [rec|] eqn:E.
      + destruct (stale _ _ rec) eqn:Es; symmetry.
        * apply map_lookup_filter_None_2. right. intros x Hx. cbn. simplify_eq. by rewrite Es.
        * by apply map_lookup_filter_Some_2.
      + symmetry. apply map_lookup_filter_None_2. by left.
    - intros id. rewrite Hc, Hsw. by destruct (peers r !! id).
    - intros ev Hev. destruct (He ev Hev) as (? & _ & _ & ?). done. }
  apply wp_AgeOut; [done|lia|]. done.
Qed.

Lemma AgeOut_exact_witness :
  let r := {| ex_registry with peers := {["a" := ex_peer "a"]} |} in
  peers (state (AgeOut ["a"]) (frozen (60 * Second) "") 0 r) =
  filter (λ p, stale (60 * Second) (HeartbeatTimeout (opts r)) p.2 = false) (peers r).
Proof.
  apply (AgeOut_exact {| ex_registry with peers := {["a" := ex_peer "a"]} |} ["a"]
    (frozen (60 * Second) "") 0).
  - split; [vm_compute; discriminate|].
    apply map_Forall_singleton. cbn. done.
  - reflexivity.
  - intros id [x Hx]. cbn [peers] in Hx. apply lookup_singleton_Some in Hx as [<- _]. by left.
Defined.

(** What an upsert does is decided by the ID, the membership and the cap. It
    ignores an empty ID and the node's own, it refuses a new peer when the
    registry is full and changes nothing then; otherwise it stores the record
    with its times filled in and reports it as added or updated. *)
Theorem Upsert_spec (rec : InstanceRecord) (reason : string) (env : Env) (tick : nat) (r : Registry) :
  let ev := result (Upsert rec reason) env tick r in
  let r' := state (Upsert rec reason) env tick r in
  let known := bool_decide (is_Some (peers r !! ID rec)) in
  let accepted := addressable r (ID rec) &&
    (known || (Z.of_nat (size (peers r)) <? MaxPeers (opts r))) in
  if accepted then
    peers r' = <[ID rec := ev_Record ev]> (peers r) ∧
    ev = mkEvent (if known then EventUpdated else EventAdded) (stamp rec (env_clock env tick)) reason
      (env_clock env tick) (wrap_u64 (version r + 1)) ∧
    version r' = ev_Version ev
  else ev = zeroEvent ∧ r' = r.
Proof.
  cbv zeta.
  enough (wp (Upsert rec reason) env tick r (λ ev _ r',
    if addressable r (ID rec) && (bool_decide (is_Some (peers r !! ID rec)) ||
        (Z.of_nat (size (peers r)) <? MaxPeers (opts r))) then
      peers r' = <[ID rec := ev_Record ev]> (peers r) ∧
      ev = mkEvent (if bool_decide (is_Some (peers r !! ID rec)) then EventUpdated else EventAdded)
        (stamp rec (env_clock env tick)) reason (env_clock env tick) (wrap_u64 (version r + 1)) ∧
      version r' = ev_Version ev
    else ev = zeroEvent ∧ r' = r)) as H by by rewrite wp_run in H.
  rewrite wp_Upsert. cbv zeta. rewrite Z.geb_leb, Z.leb_antisym.
  destruct (addressable r (ID rec)); [|done]. destruct (bool_decide _); [done|].
  by destruct (_ <? _).
Qed.

Lemma sort_peers_perm l : sort_peers l ≡ₚ l.
Proof. apply merge_sort_Permutation. Qed.

Lemma omap_lookup_keys (m : gmap string InstanceRecord) :
  omap (λ id, m !! id) (map_to_list m).*1 = (map_to_list m).*2.
Proof.
  assert (∀ l, (∀ p, p ∈ l → m !! p.1 = Some p.2) → omap (λ id, m !! id) l.*1 = l.*2) as H.
  { induction l as [|[k x] l IH]; intros Hl; [done|]. cbn.
    pose proof (Hl (k, x) ltac:(by left)) as Hk. cbn in Hk. rewrite Hk. f_equal.
    apply IH. intros p Hp. apply Hl. by right. }
  apply H. intros [k x]. apply elem_of_map_to_list.
Qed.

(** A snapshot is the whole membership in one order. For any order of the
    map, the peers are those of the registry, each once, sorted by ID, and the
    same for every order; the introducer is the first peer with that role, or
    the node itself. *)
Theorem Snapshot_spec (r : Registry) (order : list string) (env : Env) (tick : nat) :
  peers_ok r → order ≡ₚ (map_to_list (peers r)).*1 →
  let s := result (TakeSnapshot order) env tick r in
  Peers s ≡ₚ (map_to_list (peers r)).*2 ∧
  StronglySorted by_ID (Peers s) ∧
  Peers s = Peers (result (TakeSnapshot (map_to_list (peers r)).*1) env tick r) ∧
  snap_Version s = version r ∧ state (TakeSnapshot order) env tick r = r ∧
  IntroducerID s = default (id_ID (self r)) (ID <$> find (λ p, Role p =s RoleIntroducer) (Peers s)).
Proof.
  intros Hok Hp. cbv zeta.
  assert (∀ o, Peers (result (TakeSnapshot o) env tick r) = sort_peers (omap (λ id, peers r !! id) o)) as HP
    by done.
  assert (∀ l, l ≡ₚ (map_to_list (peers r)).*1 → omap (λ id, peers r !! id) l ≡ₚ (map_to_list (peers r)).*2) as Ho.
  { intros l Hl. by rewrite Hl, omap_lookup_keys. }
  assert (∀ l, StronglySorted by_ID (sort_peers l)) as Hsort.
  { intros l. apply StronglySorted_merge_sort; apply _. }
  split_and!; [|apply Hsort| |done|done|].
  - rewrite HP, sort_peers_perm. by apply Ho.
  - rewrite !HP. apply (StronglySorted_unique_strong by_ID); [|apply Hsort..|].
    + intros a b Ha Hb Hab Hba. rewrite sort_peers_perm, Ho in Ha, Hb by done.
      assert (ID a = ID b) as Hid by by apply (anti_symm String.le).
      apply list_elem_of_fmap in Ha as ([ka xa] & -> & Ha), Hb as ([kb xb] & -> & Hb).
      apply elem_of_map_to_list in Ha, Hb. cbn in *.
      destruct (po_keys _ Hok _ _ Ha) as [Ea _], (po_keys _ Hok _ _ Hb) as [Eb _].
      assert (ka = kb) as -> by congruence. congruence.
    + by rewrite !sort_peers_perm, !Ho.
  - unfold result, TakeSnapshot, get, Registry_Self, mbind, M_bind, mret, M_ret, clock. cbn.
    by destruct (find _ _).
Qed.

Lemma Snapshot_spec_witness :
  let r := {| ex_registry with peers := {["a" := ex_peer "a"]} |} in
  Peers (result (TakeSnapshot ["a"]) (frozen 7 "") 0 r) ≡ₚ (map_to_list (peers r)).*2.
Proof.
  apply (Snapshot_spec {| ex_registry with peers := {["a" := ex_peer "a"]} |} ["a"] (frozen 7 "") 0).
  - split; [vm_compute; discriminate|].
    apply map_Forall_singleton. cbn. done.
  - cbn [peers]. by rewrite map_to_list_singleton.
Defined.
