(* ===== verification/Slots.v ===== *)
(** * Local federation slots ([internal/federation/slots.go])

    A process claims a slot by binding the first free port of a range under a lock
    file; the base port makes it the introducer. The claim is modelled on the
    files and the bound addresses of the machine, one process at a time; the lock
    file's protocol, where processes interleave, is a step relation of its own. *)

From Stdlib Require Import ZArith NArith Lia Ascii.
From stdpp Require Import base tactics strings pretty gmap relations sorting.
From stdpp Require Import list.
From S2P Require Import Prelude Digest Net Registry.

Open Scope Z_scope.

(** ** Options *)

Definition DefaultBasePort : Z := 19100.
Definition DefaultSlotCount : Z := 4.

Record SlotOptions := mkSlotOptions {
  BasePort : Z;
  MaxPort : Z;
  so_StateDir : string;
  so_ServiceName : string;
  BindAddr : string;
}.

Definition normalizeOptions (opts : SlotOptions) : SlotOptions :=
  let base := if (BasePort opts <=? 0) || (BasePort opts >? 65535) then DefaultBasePort
              else BasePort opts in
  let max := if (MaxPort opts <=? 0) || (MaxPort opts <? base) || (MaxPort opts >? 65535)
             then base + DefaultSlotCount - 1 else MaxPort opts in
  mkSlotOptions base max
    (if so_StateDir opts =s "" then "./state" else so_StateDir opts)
    (if so_ServiceName opts =s "" then "ocd-smoke-alarm" else so_ServiceName opts)
    (if BindAddr opts =s "" then "localhost" else BindAddr opts).

Definition candidatePorts (base maxPort : Z) (previous : option Identity) : list Z :=
  let range := seqZ base (maxPort - base + 1) in
  match previous with
  | None => range
  | Some p =>
      (if (base <=? id_Port p) && (id_Port p <=? maxPort) then [id_Port p] else [])
      ++ filter (λ port, port ≠ id_Port p) range
  end.

(** ** The machine *)

Inductive slot_file :=
  | Text (s : string)
  | IdentityFile (i : Identity).

(** [live] are the running processes, [bound] the addresses held, [resolves] the
    addresses that can be bound at all. *)
Record OS := mkOS {
  files : gmap string slot_file;
  bound : gset string;
  live : gset Z;
  resolves : string → bool;
}.

(** The claiming process, and the file operations that fail for it. *)
Record Process := mkProcess {
  proc_pid : Z;
  proc_hostname : string;
  proc_GOOS : string;
  proc_now : Time;
  slot_mkdir_fails : bool;
  lock_open_fails : bool;
  identity_write_fails : bool;
  identity_rename_fails : bool;
}.

Inductive slot_error :=
  | ErrSlotDir
  | ErrLockOpen
  | ErrAnotherClaiming (pid : Z)
  | ErrNoFreeSlots
  | ErrWriteIdentity
  | ErrReplaceIdentity.

Definition readPID (f : option slot_file) : option Z :=
  match f with
  | Some (Text data) =>
      let pidStr := TrimSpace data in
      if pidStr =s "" then None
      else let '(pid, ok) := Atoi pidStr in if ok : bool then Some pid else None
  | _ => None
  end.

Definition processAlive (os : OS) (pid : Z) : bool :=
  if pid <=? 0 then false else bool_decide (pid ∈ live os).

(** [O_CREATE|O_EXCL] followed by the PID. *)
Definition create_lock (p : Process) (path : string) (os : OS) : OS :=
  {| os with files := <[path := Text (Itoa (proc_pid p) +:+ byte_of 10)]> (files os) |}.

(** With no other process between its steps, the second open cannot find the file
    again. *)
Definition acquireSlotLock (p : Process) (path : string) (os : OS) : option slot_error * OS :=
  if lock_open_fails p then (Some ErrLockOpen, os)
  else
    match files os !! path with
    | None => (None, create_lock p path os)
    | Some f =>
        match readPID (Some f) with
        | Some pid =>
            if processAlive os pid then (Some (ErrAnotherClaiming pid), os)
            else (None, create_lock p path {| os with files := delete path (files os) |})
        | None => (None, create_lock p path {| os with files := delete path (files os) |})
        end
    end.

Definition loadIdentity (os : OS) (path : string) : option Identity :=
  match files os !! path with
  | Some (IdentityFile i) => Some i
  | _ => None
  end.

Definition persistIdentity (p : Process) (path : string) (ident : Identity) (os : OS)
  : option slot_error * OS :=
  let tmpPath := path +:+ ".tmp" in
  if identity_write_fails p then (Some ErrWriteIdentity, os)
  else if identity_rename_fails p then
    (Some ErrReplaceIdentity, {| os with files := delete tmpPath (files os) |})
  else (None, {| os with files := <[path := IdentityFile ident]> (delete tmpPath (files os)) |}).

Definition generateInstanceID (goos hostname service stateDir : string) (port : Z) : string :=
  let parts := [ToLower (TrimSpace hostname); ToLower (TrimSpace service); Clean stateDir; Itoa port; goos] in
  stake 16 (sha256_hex (Join parts "|")).

Definition slot_addr (opts : SlotOptions) (port : Z) : string := JoinHostPort (BindAddr opts) (Itoa port).

Definition can_bind (os : OS) (addr : string) : bool :=
  resolves os addr && negb (bool_decide (addr ∈ bound os)).

(** [ClaimSlot] between taking the lock and releasing it; [opts] are normalised.
    The listener is the bound address. *)
Definition claim_locked (p : Process) (opts : SlotOptions) (slotDir : string) (os : OS)
  : (Identity * string + slot_error) * OS :=
  let identityPath := PathJoin [slotDir; "identity.json"] in
  let prevIdentity := loadIdentity os identityPath in
  let candidates := candidatePorts (BasePort opts) (MaxPort opts) prevIdentity in
  match find (λ port, can_bind os (slot_addr opts port)) candidates with
  | None => (inr ErrNoFreeSlots, os)
  | Some chosenPort =>
      let addr := slot_addr opts chosenPort in
      let os := {| os with bound := {[addr]} ∪ bound os |} in
      let chosenRole := if chosenPort =? BasePort opts then RoleIntroducer else RoleFollower in
      let identity := mkIdentity
        (generateInstanceID (proc_GOOS p) (proc_hostname p) (so_ServiceName opts) (so_StateDir opts) chosenPort)
        (so_ServiceName opts) (proc_hostname p) (so_StateDir opts) chosenPort chosenRole
        (proc_pid p) (proc_now p) in
      let '(err, os) := persistIdentity p identityPath identity os in
      match err with
      | Some e => (inr e, {| os with bound := bound os ∖ {[addr]} |})
      | None => (inl (identity, addr), os)
      end
  end.

Definition ClaimSlot (p : Process) (opts : SlotOptions) (os : OS)
  : (Identity * string + slot_error) * OS :=
  let opts := normalizeOptions opts in
  let slotDir := PathJoin [so_StateDir opts; "federation"] in
  if slot_mkdir_fails p then (inr ErrSlotDir, os)
  else
    let lockPath := PathJoin [slotDir; "slot.lock"] in
    let '(err, os) := acquireSlotLock p lockPath os in
    match err with
    | Some e => (inr e, os)
    | None =>
        let '(r, os) := claim_locked p opts slotDir os in
        (r, {| os with files := delete lockPath (files os) |})
    end.

(** Closing the claim frees its address. *)
Definition SlotClaim_Close (addr : string) (os : OS) : OS := {| os with bound := bound os ∖ {[addr]} |}.

(** ** Facts *)

Lemma seqZ_range base max x : x ∈ seqZ base (max - base + 1) ↔ base ≤ x ≤ max.
Proof. rewrite elem_of_seqZ. lia. Qed.

Lemma find_split {A} (f : A → bool) l x :
  find f l = Some x → ∃ l1 l2, l = l1 ++ x :: l2 ∧ f x = true ∧ Forall (λ y, f y = false) l1.
Proof.
  induction l as [|a l IH]; [done|]. cbn. destruct (f a) eqn:E.
  - intros [= ->]. exists [], l. done.
  - intros (l1 & l2 & -> & Hx & Hl)%IH. exists (a :: l1), l2. split; [done|]. split; [done|]. by constructor.
Qed.

(** The identity and the lock are different files of the slot directory. *)
Lemma slot_files_distinct dir : PathJoin [dir; "identity.json"] ≠ PathJoin [dir; "slot.lock"].
Proof.
  destruct (PathJoin_suffix dir "identity.json") as [p1 ->]; [done..|].
  destruct (PathJoin_suffix dir "slot.lock") as [p2 ->]; [done..|].
  intros E. apply (f_equal last_byte) in E. by rewrite !last_byte_app in E.
Qed.

(** ** Properties *)

(** Every port of the range is probed once. The candidates are a permutation
    of the range, in ascending order except that a previous port inside the range
    comes first. *)
Theorem candidatePorts_spec (base maxPort : Z) (previous : option Identity) :
  NoDup (candidatePorts base maxPort previous) ∧
  (∀ port, port ∈ candidatePorts base maxPort previous ↔ base ≤ port ≤ maxPort) ∧
  (∀ p, previous = Some p → base ≤ id_Port p ≤ maxPort →
     ∃ rest, candidatePorts base maxPort previous = id_Port p :: rest ∧ StronglySorted Z.lt rest) ∧
  (previous = None → StronglySorted Z.lt (candidatePorts base maxPort previous)).
Proof.
  assert (∀ n b, StronglySorted Z.lt (seqZ b n)) as Hsorted.
  { intros n. destruct (decide (0 ≤ n)) as [Hn|Hn]; [|intros b; rewrite seqZ_nil by lia; constructor].
    revert Hn. revert n. apply (natlike_ind (λ n, ∀ b, StronglySorted Z.lt (seqZ b n))).
    - intros b. rewrite seqZ_nil by lia. constructor.
    - intros n Hn IH b. rewrite seqZ_cons by lia. rewrite Z.pred_succ. constructor; [apply IH|].
      apply Forall_forall. intros x. rewrite elem_of_seqZ. lia. }
  unfold candidatePorts. destruct previous as [p|].
  - set (range := seqZ base _). assert (NoDup range) as Hnd by apply NoDup_seqZ.
    assert (StronglySorted Z.lt (filter (λ port, port ≠ id_Port p) range)) as Hf.
    { assert (StronglySorted Z.lt range) as Hr by apply Hsorted. clearbody range. clear Hnd.
      induction Hr as [|x l Hl IH Hx]; [constructor|].
      destruct (decide (x ≠ id_Port p)).
      - rewrite filter_cons_True by done. constructor; [done|].
        rewrite Forall_forall in Hx |- *. intros y [_ Hy]%list_elem_of_filter. by apply Hx.
      - by rewrite filter_cons_False. }
    assert (∀ x, x ∈ filter (λ port, port ≠ id_Port p) range ↔ x ≠ id_Port p ∧ base ≤ x ≤ maxPort) as Hin.
    { intros x. rewrite list_elem_of_filter. subst range. by rewrite seqZ_range. }
    destruct (Z.leb_spec base (id_Port p)) as [H1|H1], (Z.leb_spec (id_Port p) maxPort) as [H2|H2]; cbn [andb app].
    2-4: (split; [by apply NoDup_filter|]; split; [|split; [intros q [= <-]; lia|done]]; intros x; rewrite Hin; lia).
    split; [constructor; [rewrite Hin; tauto|by apply NoDup_filter]|].
    split; [intros x; rewrite elem_of_cons, Hin; lia|].
    split; [|done]. intros q [= <-] _. by eexists.
  - split; [apply NoDup_seqZ|]. split; [apply seqZ_range|]. split; [done|]. intros _. apply Hsorted.
Qed.

(** A lock that is refused changes nothing; one that is taken touches its own
    file only. *)
Lemma acquire_result p lockPath os err os1 :
  acquireSlotLock p lockPath os = (err, os1) →
  match err with
  | Some (ErrAnotherClaiming pid) => readPID (files os !! lockPath) = Some pid ∧ processAlive os pid = true ∧ os1 = os
  | Some e => e = ErrLockOpen ∧ os1 = os
  | None => bound os1 = bound os ∧ resolves os1 = resolves os ∧ ∀ q, q ≠ lockPath → files os1 !! q = files os !! q
  end.
Proof.
  unfold acquireSlotLock, create_lock. intros Hlock.
  destruct (lock_open_fails p); [by simplify_eq|].
  destruct (files os !! lockPath) as [f|] eqn:Hf.
  - destruct (readPID (Some f)) as [pid|] eqn:Hpid; [destruct (processAlive os pid) eqn:Hal|];
      simplify_eq; try done; (split; [done|]); (split; [done|]); intros q Hq; cbn;
      by rewrite lookup_insert_ne, lookup_delete_ne by congruence.
  - simplify_eq. split; [done|]. split; [done|]. intros q Hq. cbn. by rewrite lookup_insert_ne.
Qed.

(** A claim is the first free candidate, and leaves no lock behind. When
    [ClaimSlot] succeeds, the port is in the range, its address was free and is
    now held, no candidate before it was free, the role is introducer exactly on
    the base port, and the identity it returns is the one on disk under the slot
    directory; on failure no address is held that was not before. Either way a
    lock it took is released. *)
Theorem ClaimSlot_spec (p : Process) (o : SlotOptions) (os : OS) :
  let opts := normalizeOptions o in
  let slotDir := PathJoin [so_StateDir opts; "federation"] in
  let identityPath := PathJoin [slotDir; "identity.json"] in
  let lockPath := PathJoin [slotDir; "slot.lock"] in
  let '(r, os') := ClaimSlot p o os in
  match r with
  | inl (identity, addr) =>
      BasePort opts ≤ id_Port identity ≤ MaxPort opts ∧
      addr = slot_addr opts (id_Port identity) ∧
      can_bind os addr = true ∧ bound os' = {[addr]} ∪ bound os ∧
      (∃ before after, candidatePorts (BasePort opts) (MaxPort opts) (loadIdentity os identityPath)
          = before ++ id_Port identity :: after ∧
        Forall (λ port, can_bind os (slot_addr opts port) = false) before) ∧
      (id_Role identity = RoleIntroducer ↔ id_Port identity = BasePort opts) ∧
      loadIdentity os' identityPath = Some identity ∧ files os' !! lockPath = None
  | inr ErrNoFreeSlots =>
      (∀ port, BasePort opts ≤ port ≤ MaxPort opts → can_bind os (slot_addr opts port) = false) ∧
      bound os' = bound os ∧ files os' !! lockPath = None
  | inr (ErrAnotherClaiming pid) =>
      readPID (files os !! lockPath) = Some pid ∧ processAlive os pid = true ∧ os' = os
  | inr _ => bound os' = bound os
  end.
Proof.
  cbv zeta. pose proof (slot_files_distinct (PathJoin [so_StateDir (normalizeOptions o); "federation"])) as Hne.
  unfold ClaimSlot. set (opts := normalizeOptions o).
  set (slotDir := PathJoin [so_StateDir opts; "federation"]). fold opts slotDir in Hne. set (lockPath := PathJoin [slotDir; "slot.lock"]).
  destruct (slot_mkdir_fails p); [done|].
  destruct (acquireSlotLock p lockPath os) as [err os1] eqn:Hlock.
  pose proof (acquire_result _ _ _ _ _ Hlock) as Hacq.
  clear Hlock. destruct err as [e|].
  { destruct e; try done; destruct Hacq as [H ->]; discriminate H || done. }
  destruct Hacq as (Hb & Hres & Hfiles).
  destruct (claim_locked p opts slotDir os1) as [r os2] eqn:Hcl. unfold claim_locked in Hcl.
  set (identityPath := PathJoin [slotDir; "identity.json"]) in *.
  assert (∀ a, can_bind os1 a = can_bind os a) as Hcb by (intros a; unfold can_bind; by rewrite Hb, Hres).
  assert (loadIdentity os1 identityPath = loadIdentity os identityPath) as Hload
    by (unfold loadIdentity; by rewrite Hfiles).
  rewrite Hload in Hcl.
  destruct (candidatePorts_spec (BasePort opts) (MaxPort opts) (loadIdentity os identityPath)) as (_ & Hin & _).
  destruct (find _ (candidatePorts _ _ _)) as [port|] eqn:Hfind.
  - apply find_split in Hfind as (before & after & Hcand & Hport & Hbefore). rewrite Hcb in Hport.
    unfold persistIdentity in Hcl.
    assert (slot_addr opts port ∉ bound os) as Hfree.
    { unfold can_bind in Hport. go_bools. done. }
    assert (bound os = ({[slot_addr opts port]} ∪ bound os1) ∖ {[slot_addr opts port]}) as Hundo
      by (rewrite Hb; set_solver).
    destruct (identity_write_fails p); [simplify_eq; cbn; by rewrite <- Hundo|].
    destruct (identity_rename_fails p); [simplify_eq; cbn; by rewrite <- Hundo|].
    simplify_eq. cbn [id_Port id_Role bound files].
    split; [apply Hin; rewrite Hcand; set_solver|]. split; [done|]. split; [done|].
    split; [by rewrite Hb|].
    split. { exists before, after. split; [done|]. eapply Forall_impl; [exact Hbefore|]. intros y Hy. rewrite <- Hcb. exact Hy. }
    split. { destruct (Z.eqb_spec port (BasePort opts)); [done|]. split; [discriminate|done]. }
    split; [unfold loadIdentity; cbn [files]; by rewrite lookup_delete_ne, lookup_insert_eq by done|].
    apply lookup_delete_eq.
  - simplify_eq. cbn [bound files]. split; [|split; [done|apply lookup_delete_eq]].
    intros port Hport. rewrite <- Hcb. apply Hin in Hport.
    eapply (find_none _ _ Hfind), list_elem_of_In, Hport.
Qed.

(** The defaults give a usable range, and are stable. *)
Lemma normalizeOptions_range o :
  let opts := normalizeOptions o in
  1 ≤ BasePort opts ≤ 65535 ∧ BasePort opts ≤ MaxPort opts < 65539 ∧ normalizeOptions opts = opts.
Proof.
  cbv zeta. unfold normalizeOptions. cbn [BasePort MaxPort so_StateDir so_ServiceName BindAddr].
  set (b := if _ || (BasePort o >? 65535) then _ else _).
  assert (1 ≤ b ≤ 65535) as Hb.
  { subst b. unfold DefaultBasePort. destruct (Z.leb_spec (BasePort o) 0); cbn; [lia|].
    destruct (Z.gtb_spec (BasePort o) 65535); lia. }
  set (m := if _ || (MaxPort o >? 65535) then _ else _).
  assert (m = b + DefaultSlotCount - 1 ∨ m = MaxPort o ∧ b ≤ m ≤ 65535) as Hm.
  { subst m. destruct (Z.leb_spec (MaxPort o) 0); cbn; [by left|].
    destruct (Z.ltb_spec (MaxPort o) b); cbn; [by left|].
    destruct (Z.gtb_spec (MaxPort o) 65535); [by left|]. right. lia. }
  clearbody m b. unfold DefaultSlotCount in *.
  split; [done|]. split; [lia|].
  assert ((b <=? 0) || (b >? 65535) = false) as ->.
  { destruct (Z.leb_spec b 0); [lia|]. destruct (Z.gtb_spec b 65535); [lia|done]. }
  assert ((if (m <=? 0) || (m <? b) || (m >? 65535) then b + 4 - 1 else m) = m) as ->.
  { destruct (Z.leb_spec m 0); [lia|]. destruct (Z.ltb_spec m b); [lia|]. cbn.
    destruct (Z.gtb_spec m 65535); [lia|done]. }
  f_equal; repeat case_match; go_bools; done.
Qed.

(** A base port at the end of the range is given a range past it. *)
Example normalizeOptions_overflow :
  MaxPort (normalizeOptions (mkSlotOptions 65535 0 "" "" "")) = 65538.
Proof. reflexivity. Qed.

(** Processes of one machine claiming one after the other, each from its own
    state directory; nothing releases an address. *)
Definition run_claim (p : Process) (o : SlotOptions) (s : OS * list (Identity * string))
  : OS * list (Identity * string) :=
  let '(r, os') := ClaimSlot p o s.1 in
  (os', match r with inl c => c :: s.2 | inr _ => s.2 end).

Inductive claim_step (s : OS * list (Identity * string)) : OS * list (Identity * string) → Prop :=
  | claim_step_run p o : claim_step s (run_claim p o s).

(** No two claims share an address. However many processes claim slots on a
    machine, with whatever options, faults and stale files, every claimed address
    is held and no address was claimed twice; so two introducers on one bind
    address have different base ports. *)
Theorem ClaimSlot_unique (os os' : OS) (claims : list (Identity * string)) :
  rtc claim_step (os, []) (os', claims) →
  NoDup claims.*2 ∧ (∀ a, a ∈ claims.*2 → a ∈ bound os').
Proof.
  intros Hr.
  refine (rtc_invariant claim_step
    (λ s, NoDup s.2.*2 ∧ (∀ a, a ∈ s.2.*2 → a ∈ bound s.1)) _ _ _ Hr _).
  2: { split; [constructor|]. intros a Ha. by apply elem_of_nil in Ha. }
  clear. intros [os claims] s' [Hnd Hb] Hs. destruct Hs as [p o]. unfold run_claim. cbn [fst snd].
  pose proof (ClaimSlot_spec p o os) as H. cbv zeta in H.
  destruct (ClaimSlot p o os) as [r os'] eqn:E. cbn in *.
  destruct r as [[i a]|e].
  - destruct H as (_ & _ & Hfree & Hbound & _). cbn. unfold can_bind in Hfree. go_bools.
    split; [constructor; [|done]; intros Hin; by apply Hb in Hin|].
    intros x. rewrite elem_of_cons, Hbound. intros [->|Hx%Hb]; set_solver.
  - split; [done|]. intros a Ha%Hb.
    assert (bound os' = bound os) as ->; [|done].
    destruct e; try done; [by destruct H as (_ & _ & ->)|by destruct H as (_ & -> & _)].
Qed.

Definition ex_process : Process := mkProcess 42 "host" "linux" 7 false false false false.
Definition ex_os : OS := mkOS ∅ ∅ {[42]} (λ _, true).

Lemma ClaimSlot_unique_witness :
  let o := mkSlotOptions 0 0 "/a" "" "" in
  let os' := (ClaimSlot ex_process o ex_os).2 in
  ∃ i, NoDup [(i : Identity, "localhost:19100")].*2 ∧ id_Role i = RoleIntroducer.
Proof.
  cbv zeta. eexists. split.
  - apply (ClaimSlot_unique ex_os (ClaimSlot ex_process (mkSlotOptions 0 0 "/a" "" "") ex_os).2).
    exact (rtc_once _ _ (claim_step_run (ex_os, []) ex_process (mkSlotOptions 0 0 "/a" "" ""))).
  - reflexivity.
Defined.

(** ** The lock file between processes

    [acquireSlotLock] is a sequence of system calls, and processes interleave
    between them. The lock file remembers who created it and whether its PID has
    been written; a write goes to the file its writer opened, so it is lost when
    that file has been unlinked. *)
Inductive lock_pc := Idle | Writing | Reading | Removing | Recreating | Holding | Refused | Released.

Record LockState := mkLockState {
  lock_file : option (nat * bool);
  lock_pcs : gmap nat lock_pc;
}.

Definition pc (s : LockState) (p : nat) : lock_pc := default Idle (lock_pcs s !! p).
Definition at_pc (s : LockState) (p : nat) (c : lock_pc) (f : option (nat * bool)) : LockState :=
  mkLockState f (<[p := c]> (lock_pcs s)).

(** What the reader of the lock file concludes; every process is alive. *)
Definition lock_read (f : option (nat * bool)) : lock_pc :=
  match f with
  | Some (_, true) => Refused
  | _ => Removing  (* missing, or no PID in it yet *)
  end.

(** [cleanup] tells whether the file may be taken for stale. *)
Inductive lock_step (cleanup : bool) (s : LockState) : LockState → Prop :=
  | lock_create p : pc s p = Idle → lock_file s = None →
      lock_step cleanup s (at_pc s p Writing (Some (p, false)))
  | lock_exists p o : pc s p = Idle → lock_file s = Some o →
      lock_step cleanup s (at_pc s p Reading (lock_file s))
  | lock_write p : pc s p = Writing →
      lock_step cleanup s (at_pc s p Holding
        (if bool_decide (lock_file s = Some (p, false)) then Some (p, true) else lock_file s))
  | lock_reads p : pc s p = Reading → (lock_read (lock_file s) = Removing → cleanup = true) →
      lock_step cleanup s (at_pc s p (lock_read (lock_file s)) (lock_file s))
  | lock_remove p : pc s p = Removing →
      lock_step cleanup s (at_pc s p Recreating None)
  | lock_recreate p : pc s p = Recreating → lock_file s = None →
      lock_step cleanup s (at_pc s p Writing (Some (p, false)))
  | lock_busy p o : pc s p = Recreating → lock_file s = Some o →
      lock_step cleanup s (at_pc s p Refused (lock_file s))
  | lock_release p : pc s p = Holding →
      lock_step cleanup s (at_pc s p Released None).

Definition lock_free : LockState := mkLockState None ∅.
Definition has_lock (s : LockState) (p : nat) : Prop := pc s p = Writing ∨ pc s p = Holding.

(** Without the stale-file cleanup, the file belongs to the one process that is
    past its creation. *)
Definition lock_inv (s : LockState) : Prop :=
  (∀ p, has_lock s p → ∃ b, lock_file s = Some (p, b)) ∧
  (∀ p, pc s p ≠ Removing ∧ pc s p ≠ Recreating).

Lemma pc_at s p c f q : pc (at_pc s p c f) q = if bool_decide (q = p) then c else pc s q.
Proof.
  unfold pc, at_pc. cbn. case_bool_decide; subst; [by rewrite lookup_insert_eq|].
  by rewrite lookup_insert_ne.
Qed.

Lemma lock_step_inv s s' : lock_inv s → lock_step false s s' → lock_inv s'.
Proof.
  intros [Hown Hpc] Hstep. unfold has_lock in *.
  assert (∀ p c f, (∀ q, q ≠ p → pc s q = Writing ∨ pc s q = Holding → ∃ b, f = Some (q, b)) →
    (c = Writing ∨ c = Holding → ∃ b, f = Some (p, b)) → c ≠ Removing → c ≠ Recreating →
    lock_inv (at_pc s p c f)) as Hat.
  { intros p c f Ho Hp Hc1 Hc2. split; intros q; unfold has_lock; rewrite pc_at;
      case_bool_decide; subst; eauto. }
  destruct Hstep as [p Hp Hf|p o Hp Hf|p Hp|p Hp Hcl|p Hp|p Hp Hf|p o Hp Hf|p Hp].
  - apply Hat; [|by eexists|done|done]. intros q _ Hq. destruct (Hown q Hq) as [b Hb]. congruence.
  - apply Hat; [auto|by intros [?|?]|done|done].
  - destruct (Hown p ltac:(by left)) as [b Hb]. rewrite Hb.
    apply Hat; [|case_bool_decide; eauto|done|done].
    intros q Hne Hq. destruct (Hown q Hq) as [b' Hb']. congruence.
  - apply Hat; [auto|by destruct (lock_file s) as [[? []]|]; intros [?|?]| |by destruct (lock_file s) as [[? []]|]].
    intros E. by specialize (Hcl E).
  - by destruct (Hpc p).
  - by destruct (Hpc p).
  - by destruct (Hpc p).
  - destruct (Hown p ltac:(by right)) as [b Hb].
    apply Hat; [|by intros [?|?]|done|done].
    intros q Hne Hq. destruct (Hown q Hq) as [b' Hb']. congruence.
Qed.



(** The cleanup breaks the exclusion: a second process finds the lock file before
    the first has written its PID, takes it for stale, removes it and creates its
    own, and both hold the lock. No process crashed. *)
Lemma slot_lock_race :
  ∃ s, rtc (lock_step true) lock_free s ∧ pc s 1 = Holding ∧ pc s 2 = Holding.
Proof.
  eexists. split.
  - eapply rtc_l; [apply (lock_create _ _ 1); reflexivity|].
    eapply rtc_l; [eapply (lock_exists _ _ 2); reflexivity|].
    eapply rtc_l; [apply (lock_reads _ _ 2); [reflexivity|done]|].
    eapply rtc_l; [apply (lock_remove _ _ 2); reflexivity|].
    eapply rtc_l; [apply (lock_recreate _ _ 2); reflexivity|].
    eapply rtc_l; [apply (lock_write _ _ 1); reflexivity|].
    eapply rtc_l; [apply (lock_write _ _ 2); reflexivity|].
    apply rtc_refl.
  - split; reflexivity.
Qed.
