(* ===== verification/Health.v ===== *)
(** * The health server ([internal/health/server.go], [listeners.go])

    The server keeps the component and target views behind [/status], the isotope
    registry and the certified features. A handler is modelled from the request's
    method and decoded body ([None] when the JSON does not decode) to the response
    code and body; the multiplexer, [http.Server] and the self-description factory
    are not modelled.

    The isotope module is not part of the repository. What the server asks of it
    is a parameter: whether a receipt verifies against the launch configuration
    ([VerifyWith]), whether the pinned roots parse ([ParseRoots]), the verdict on a
    registration ([VerifyRegistration]) and the table of rung names. *)

From Stdlib Require Import ZArith NArith Lia Ascii.
From stdpp Require Import base tactics strings gmap sorting.
From stdpp Require Import list.
From S2P Require Import Prelude Durations Net Registry.

Open Scope Z_scope.

(** ** Data *)

Record ComponentStatus := mkComponent {
  c_Name : string;
  c_Healthy : bool;
  c_Detail : string;
  c_UpdatedAt : Time;
}.

Record TargetStatus := mkTargetStatus {
  t_ID : string;
  t_Protocol : string;
  t_Endpoint : string;
  t_State : string;
  t_Severity : string;
  t_Message : string;
  t_Regression : bool;
  t_CheckedAt : Time;
  t_LatencyMS : Z;
}.

Record StatusSummary := mkSummary {
  sum_Total : Z;
  Healthy : Z;
  Degraded : Z;
  Unhealthy : Z;
  Outage : Z;
  Regression : Z;
  Unknown : Z;
}.

Record StatusResponse := mkStatusResponse {
  sr_Service : string;
  sr_Version : string;
  sr_Now : Time;
  sr_StartedAt : Time;
  sr_UptimeSec : Z;
  sr_Live : bool;
  sr_Ready : bool;
  sr_ReadyError : string;
  sr_Summary : StatusSummary;
  sr_Components : list ComponentStatus;
  sr_Targets : list TargetStatus;
  sr_Listeners : gmap string string;
}.

Record Feature := mkFeature {
  f_ID : string;
  f_Name : string;
  f_FilePath : string;
  f_Tags : list string;
  f_Scenarios : Z;
  f_Status : string;
  f_CertifiedAt : Time;
  f_FailedAt : Time;
}.

Record IsotopeDependency := mkDependency { dep_ProjectRoute : string; dep_Contract : string }.

(** A zero [ent_expiresAt] is a durable record. *)
Record isotopeEntry := mkEntry {
  ent_record : Isotope;
  ent_lastSeen : Time;
  ent_expiresAt : Time;
  ent_projectRoute : string;
  ent_contract : string;
  ent_dependsOn : list IsotopeDependency;
}.

Definition IsotopeStatusLive : string := "live".
Definition IsotopeStatusRegistered : string := "registered".

Record IsotopeView := mkView {
  v_Record : Isotope;
  v_LastSeen : Time;
  v_ExpiresAt : option Time;
  v_ProjectRoute : string;
  v_Contract : string;
  v_DependsOn : list IsotopeDependency;
  v_Status : string;
}.

Record HealthOptions := mkHealthOptions {
  ho_ServiceName : string;
  ho_Version : string;
  ho_ListenAddr : string;
  ho_HealthzPath : string;
  ho_ReadyzPath : string;
  ho_StatusPath : string;
  ho_SelfDescriptionPath : string;
  ho_ShutdownTimeout : Duration;
  ho_IsotopeTTL : Duration;
}.

Record Server := mkServer {
  hs_opts : HealthOptions;
  startedAt : Time;
  live : bool;
  ready : bool;
  readyError : string;
  components : gmap string ComponentStatus;
  targets : gmap string TargetStatus;
  isotopes : gmap string isotopeEntry;
  features : gmap string Feature;
  listeners : gmap string string;
}.

Definition DefaultIsotopeTTL : Duration := 5 * Minute.

Definition or_default (s d : string) : string := if blank s then d else s.

Definition NewServer (opts : HealthOptions) (now : Time) : Server :=
  mkServer
    (mkHealthOptions
       (or_default (ho_ServiceName opts) "ocd-smoke-alarm") (ho_Version opts)
       (or_default (ho_ListenAddr opts) "localhost:8088")
       (or_default (ho_HealthzPath opts) "/healthz") (or_default (ho_ReadyzPath opts) "/readyz")
       (or_default (ho_StatusPath opts) "/status")
       (or_default (ho_SelfDescriptionPath opts) "/.well-known/smoke-alarm.json")
       (if ho_ShutdownTimeout opts <=? 0 then 10 * Second else ho_ShutdownTimeout opts)
       (if ho_IsotopeTTL opts <=? 0 then DefaultIsotopeTTL else ho_IsotopeTTL opts))
    now true false "" ∅ ∅ ∅ ∅ ∅.

(** ** The status view *)

Definition SetReady (ready_ : bool) (reason : string) : M Server unit :=
  modify (λ s, {| s with ready := ready_; readyError := if ready_ then "" else TrimSpace reason |}).

Definition SetLive (live_ : bool) : M Server unit := modify (λ s, {| s with live := live_ |}).

Definition SetComponent (name : string) (healthy : bool) (detail : string) : M Server unit :=
  let name := TrimSpace name in
  if name =s "" then mret tt
  else
    now ← clock;
    modify (λ s, {| s with components :=
      <[name := mkComponent name healthy (TrimSpace detail) now]> (components s) |}).

Definition RemoveComponent (name : string) : M Server unit :=
  modify (λ s, {| s with components := delete name (components s) |}).

Definition UpsertTargetStatus (st : TargetStatus) : M Server unit :=
  if blank (t_ID st) then mret tt
  else
    checked ← (if IsZero (t_CheckedAt st) then clock else mret (t_CheckedAt st));
    let state := ToLower (TrimSpace (t_State st)) in
    let st := {| st with t_CheckedAt := checked; t_State := if state =s "" then "unknown" else state |} in
    modify (λ s, {| s with targets := <[t_ID st := st]> (targets s) |}).

Definition RemoveTarget (targetID : string) : M Server unit :=
  modify (λ s, {| s with targets := delete targetID (targets s) |}).

Definition SetListener (name addr : string) : M Server unit :=
  let name := TrimSpace name in
  let addr := TrimSpace addr in
  if (name =s "") || (addr =s "") then mret tt
  else modify (λ s, {| s with listeners := <[name := addr]> (listeners s) |}).

Definition ListenerAddr (s : Server) (name : string) : string :=
  default "" (listeners s !! TrimSpace name).

(** [bind] is the outcome of the listener's [BindWithRetry]. *)
Definition ClaimListener (name : string) (bind : string + string) : M Server (string + string) :=
  match bind with
  | inr err => _ ← SetComponent name false err; mret (inr err)
  | inl addr =>
      _ ← SetListener name addr;
      _ ← SetComponent name true ("listening on " +:+ addr);
      mret (inl addr)
  end.

Definition allComponentsHealthy (cs : list ComponentStatus) : bool := forallb c_Healthy cs.

Definition count_target (out : StatusSummary) (t : TargetStatus) : StatusSummary :=
  let st := ToLower (TrimSpace (t_State t)) in
  if st =s "healthy" then {| out with Healthy := Healthy out + 1 |}
  else if st =s "degraded" then {| out with Degraded := Degraded out + 1 |}
  else if (st =s "unhealthy") || (st =s "failed") then {| out with Unhealthy := Unhealthy out + 1 |}
  else if st =s "outage" then {| out with Outage := Outage out + 1 |}
  else if st =s "regression" then {| out with Regression := Regression out + 1 |}
  else {| out with Unknown := Unknown out + 1 |}.

Definition summarizeTargets (ts : list TargetStatus) : StatusSummary :=
  foldl count_target (mkSummary (Z.of_nat (length ts)) 0 0 0 0 0 0) ts.

Definition by_Name (a b : ComponentStatus) : Prop := String.le (c_Name a) (c_Name b).
Definition by_target_ID (a b : TargetStatus) : Prop := String.le (t_ID a) (t_ID b).
#[global] Instance by_Name_dec : RelDecision by_Name.
Proof. unfold by_Name. intros a b. apply _. Defined.
#[global] Instance by_target_ID_dec : RelDecision by_target_ID.
Proof. unfold by_target_ID. intros a b. apply _. Defined.

(** The maps are iterated and sorted; keys are the names, so the order Go happens
    to iterate in does not show ([map_to_list] is one such order). *)
Definition Server_Snapshot : M Server StatusResponse :=
  now ← clock;
  s ← get;
  let cs := merge_sort by_Name (map_to_list (components s)).*2 in
  let ts := merge_sort by_target_ID (map_to_list (targets s)).*2 in
  let ready_ := ready s && allComponentsHealthy cs in
  let readyErr := if negb ready_ && (readyError s =s "") && negb (allComponentsHealthy cs)
                  then "one or more components are unhealthy" else readyError s in
  mret (mkStatusResponse (ho_ServiceName (hs_opts s)) (ho_Version (hs_opts s)) now (startedAt s)
    (Z.quot (TimeSub now (startedAt s)) Second) (live s) ready_ readyErr (summarizeTargets ts) cs ts
    (listeners s)).

(** ** Responses *)

Inductive Body :=
  | Refusal (error : string)
  | Status (r : StatusResponse)
  | View (v : IsotopeView)
  | Views (vs : list IsotopeView)
  | Features (fs : list Feature)
  | Done.

Record Response := mkResponse { code : Z; body : Body }.

Definition methodNotAllowed : Response := mkResponse 405 (Refusal "method not allowed").
Definition badRequest (e : string) : Response := mkResponse 400 (Refusal e).
Definition notFound (e : string) : Response := mkResponse 404 (Refusal e).

Definition handleHealthz : M Server Response :=
  s ← get;
  if negb (live s) then mret (mkResponse 503 (Refusal "service not live")) else mret (mkResponse 200 Done).

Definition handleReadyz : M Server Response :=
  snap ← Server_Snapshot;
  if negb (sr_Ready snap) then mret (mkResponse 503 (Refusal (sr_ReadyError snap)))
  else mret (mkResponse 200 Done).

Definition handleStatus : M Server Response :=
  snap ← Server_Snapshot; mret (mkResponse 200 (Status snap)).

Definition isFederationNamespaced (name : string) : bool :=
  (name =s "federation") || HasPrefix name "federation/".

Fixpoint each {A} (f : A → M Server unit) (l : list A) : M Server unit :=
  match l with
  | [] => mret tt
  | x :: l => _ ← f x; each f l
  end.

Definition adopt_component (c : ComponentStatus) : M Server unit :=
  if isFederationNamespaced (c_Name c) then mret tt
  else SetComponent (c_Name c) (c_Healthy c) (c_Detail c).

Definition handleFederationReport (method : string) (incoming : option StatusResponse) : M Server Response :=
  if negb (method =s "POST") then mret methodNotAllowed
  else
    match incoming with
    | None => mret (badRequest "invalid JSON")
    | Some incoming =>
        _ ← each UpsertTargetStatus (sr_Targets incoming);
        _ ← each adopt_component (sr_Components incoming);
        _ ← SetComponent "federation" true
              ("received " +:+ Itoa (Z.of_nat (length (sr_Targets incoming))) +:+ " targets from upstream");
        mret (mkResponse 200 Done)
    end.

(** ** Features *)

Definition RegisterFeature (f : Feature) : M Server unit :=
  let f := if f_Status f =s "" then {| f with f_Status := "unclaimed" |} else f in
  s ← get;
  match features s !! f_ID f with
  | Some existing =>
      if f_Status existing =s "certified" then mret tt
      else modify (λ s, {| s with features := <[f_ID f := f]> (features s) |})
  | None => modify (λ s, {| s with features := <[f_ID f := f]> (features s) |})
  end.

Definition CertifyFeature (id : string) : M Server unit :=
  s ← get;
  match features s !! id with
  | None => mret tt
  | Some f =>
      now ← clock;
      modify (λ s, {| s with features :=
        <[id := {| f with f_Status := "certified"; f_CertifiedAt := now |}]> (features s) |})
  end.

Definition FailFeature (id : string) : M Server unit :=
  s ← get;
  match features s !! id with
  | None => mret tt
  | Some f =>
      now ← clock;
      modify (λ s, {| s with features :=
        <[id := {| f with f_Status := "failed"; f_FailedAt := now |}]> (features s) |})
  end.

Definition by_feature_ID (a b : Feature) : Prop := String.le (f_ID a) (f_ID b).
#[global] Instance by_feature_ID_dec : RelDecision by_feature_ID.
Proof. unfold by_feature_ID. intros a b. apply _. Defined.

Definition handleFeaturesList (method : string) : M Server Response :=
  if negb (method =s "GET") then mret methodNotAllowed
  else
    s ← get;
    mret (mkResponse 200 (Features (merge_sort by_feature_ID (map_to_list (features s)).*2))).

(** ** The isotope registry *)

Record Attestation := mkAttestation { att_Cluster : string; att_Receipt : string }.

Record Registration := mkRegistration {
  reg_Name : string;
  reg_Role : string;
  reg_Endpoint : string;
  reg_Protocol : string;
  reg_Attestation : option Attestation;
}.

Record TrustVerdict := mkVerdict { verdict_Rung : Z; verdict_Reasons : list string }.

Record isotopeRegistration := mkIsotopeRegistration {
  ir_Registration : Registration;
  ir_TTL : string;
  ir_ProjectRoute : string;
  ir_Contract : string;
  ir_DependsOn : list IsotopeDependency;
}.

Definition rungHarnessTools : Z := 2.
Definition isotopeCertificationRung : Z := 6.

Definition viewOf (entry : isotopeEntry) : IsotopeView :=
  let durable := IsZero (ent_expiresAt entry) in
  mkView (ent_record entry) (ent_lastSeen entry)
    (if durable then None else Some (ent_expiresAt entry))
    (ent_projectRoute entry) (ent_contract entry) (ent_dependsOn entry)
    (if durable then IsotopeStatusRegistered else IsotopeStatusLive).

Definition normalizeDependencies (deps : list IsotopeDependency) : list IsotopeDependency :=
  omap (λ dep,
    let route := TrimSpace (dep_ProjectRoute dep) in
    if route =s "" then None
    else Some (mkDependency route (TrimSpace (dep_Contract dep)))) deps.

(** [^[A-Za-z0-9_.-]+$] *)
Definition route_byte (c : ascii) : bool :=
  let n := Z.of_N (N_of_ascii c) in
  ((65 <=? n) && (n <=? 90)) || ((97 <=? n) && (n <=? 122)) || ((48 <=? n) && (n <=? 57))
  || (n =? 95) || (n =? 46) || (n =? 45).
Definition isoRoutePattern (s : string) : bool :=
  negb (s =s "") && forallb route_byte (String.list_ascii_of_string s).

Definition isotopeTTL (s : Server) (raw : string) : option Duration :=
  let raw := TrimSpace raw in
  if raw =s "" then Some (ho_IsotopeTTL (hs_opts s))
  else
    match ParseDuration raw with
    | Some ttl => if ttl <=? 0 then None else Some ttl
    | None => None
    end.

Definition expired (now : Time) (entry : isotopeEntry) : bool :=
  negb (IsZero (ent_expiresAt entry)) && negb (Before now (ent_expiresAt entry)).

Definition sweepIsotopesLocked (now : Time) (s : Server) : Server :=
  {| s with isotopes := filter (λ p, expired now p.2 = false) (isotopes s) |}.

Definition by_view_Name (a b : IsotopeView) : Prop :=
  String.le (iso_Name (v_Record a)) (iso_Name (v_Record b)).
#[global] Instance by_view_Name_dec : RelDecision by_view_Name.
Proof. unfold by_view_Name. intros a b. apply _. Defined.

Definition liveIsotopeViews (match_ : isotopeEntry → bool) : M Server (list IsotopeView) :=
  now ← clock;
  _ ← modify (sweepIsotopesLocked now);
  s ← get;
  mret (merge_sort by_view_Name
    (map viewOf (filter (λ e, match_ e = true) (map_to_list (isotopes s)).*2))).

Definition handleIsotopeList (method : string) : M Server Response :=
  if negb (method =s "GET") then mret methodNotAllowed
  else views ← liveIsotopeViews (λ _, true); mret (mkResponse 200 (Views views)).

Definition handleIsotopeGet (name : string) : M Server Response :=
  if name =s "" then mret (badRequest "name is required")
  else
    now ← clock;
    _ ← modify (sweepIsotopesLocked now);
    s ← get;
    match isotopes s !! name with
    | None => mret (notFound "isotope not found")
    | Some entry => mret (mkResponse 200 (View (viewOf entry)))
    end.

Definition handleIsotopeDelete (name : string) : M Server Response :=
  if name =s "" then mret (badRequest "name is required")
  else
    s ← get;
    _ ← modify (λ s, {| s with isotopes := delete name (isotopes s) |});
    match isotopes s !! name with
    | None => mret (notFound "isotope not found")
    | Some _ => mret (mkResponse 204 Done)
    end.

Definition handleIsotopeByRoute (method route : string) : M Server Response :=
  if negb (method =s "GET") then mret methodNotAllowed
  else
    let route := TrimSpace route in
    if route =s "" then mret (badRequest "project route is required")
    else
      views ← liveIsotopeViews (λ e, ent_projectRoute e =s route);
      match views with
      | [] => mret (notFound "no isotope registered for that project route")
      | _ => mret (mkResponse 200 (Views views))
      end.

Definition offers_contract (contract : string) (e : isotopeEntry) : bool :=
  (ent_contract e =s contract) || existsb (λ d, dep_Contract d =s contract) (ent_dependsOn e).

Definition handleIsotopeByContract (method contract : string) : M Server Response :=
  if negb (method =s "GET") then mret methodNotAllowed
  else
    let contract := TrimSpace contract in
    if contract =s "" then mret (badRequest "contract is required")
    else
      views ← liveIsotopeViews (offers_contract contract);
      match views with
      | [] => mret (notFound "no isotope registered for that contract")
      | _ => mret (mkResponse 200 (Views views))
      end.

Definition UpsertIsotope (rec : Isotope) : M Server unit :=
  if blank (iso_Name rec) then mret tt
  else
    now ← clock;
    modify (λ s,
      let found := isotopes s !! iso_Name rec in
      let at_ := match found with
        | Some entry => if IsZero (iso_RegisteredAt rec) then iso_RegisteredAt (ent_record entry)
                        else iso_RegisteredAt rec
        | None => iso_RegisteredAt rec
        end in
      let rec := {| rec with iso_RegisteredAt := if IsZero at_ then now else at_ |} in
      let entry := match found with
        | None => mkEntry rec now zeroTime "" "" []
        | Some entry => {| entry with
            ent_record := rec;
            ent_lastSeen := if IsZero (ent_expiresAt entry) then now else ent_lastSeen entry |}
        end in
      {| s with isotopes := <[iso_Name rec := entry]> (isotopes s) |}).

Definition RemoveIsotope (name : string) : M Server unit :=
  if blank name then mret tt
  else modify (λ s, {| s with isotopes := delete name (isotopes s) |}).

Section Trust.
(** The launch configuration, as the isotope module reads it: whether its roots
    parse, whether it holds secrets or roots at all, whether a receipt verifies
    for an endpoint at an instant, and the names of the rungs. *)
Context (roots_parse has_secrets has_roots : bool).
Context (VerifyWith : Attestation → string → Time → bool).
Context (rung_thresholds : list (Z * string)).

Definition renewalAttests (reg : Registration) (existing : isotopeEntry) : M Server bool :=
  let att := reg_Attestation reg in
  let attestedBy := iso_AttestedBy (ent_record existing) in
  if attestedBy =s "" then mret (match att with None => true | Some _ => false end)
  else
    match att with
    | None => mret false
    | Some att =>
        if negb (att_Cluster att =s attestedBy) then mret false
        else if negb roots_parse then mret false
        else now ← clock; mret (VerifyWith att (reg_Endpoint reg) now)
    end.

(** The rung of a registration: inherited by a renewal that attests, or the
    verdict, [verify], of a full verification. *)
Definition resolve_rung (verify : Registration → TrustVerdict) (reg : Registration)
  (found : option isotopeEntry) : M Server (Z * string * list string * string) :=
  let full :=
    let verdict := verify reg in
    let rung := verdict_Rung verdict in
    (rung, rungName rung_thresholds rung, verdict_Reasons verdict,
     match reg_Attestation reg with
     | Some att => if rung >? rungHarnessTools then att_Cluster att else ""
     | None => ""
     end) in
  match found with
  | Some existing =>
      if iso_Endpoint (ent_record existing) =s reg_Endpoint reg then
        inherits ← renewalAttests reg existing;
        let rec := ent_record existing in
        if inherits : bool then
          mret (iso_TrustRung rec, iso_RungName rec, iso_Evidence rec, iso_AttestedBy rec)
        else mret full
      else mret full
  | None => mret full
  end.

(** The end of [handleIsotopeRegister]: the record is built and stored. *)
Definition file_isotope (found : option isotopeEntry) (body : isotopeRegistration) (reg : Registration)
  (now : Time) (ttl : Duration) (r : Z * string * list string * string) : M Server Response :=
  let '(rung, rungName, evidence, attestedBy) := r in
  let registeredAt := match found with
    | Some existing => iso_RegisteredAt (ent_record existing)
    | None => now
    end in
  let entry := mkEntry
    (mkIsotope (reg_Name reg) (reg_Role reg) (reg_Endpoint reg) (reg_Protocol reg) rung
       rungName registeredAt evidence attestedBy)
    now (TimeAdd now ttl) (TrimSpace (ir_ProjectRoute body)) (TrimSpace (ir_Contract body))
    (normalizeDependencies (ir_DependsOn body)) in
  if negb (ent_projectRoute entry =s "") && negb (isoRoutePattern (ent_projectRoute entry)) then
    mret (badRequest "project_route must use letters, digits, _ . -")
  else
    let entry := match found with
      | None => entry
      | Some existing => {| entry with
          ent_projectRoute := if ent_projectRoute entry =s "" then ent_projectRoute existing else ent_projectRoute entry;
          ent_contract := if ent_contract entry =s "" then ent_contract existing else ent_contract entry;
          ent_dependsOn := match ent_dependsOn entry with [] => ent_dependsOn existing | d => d end |}
      end in
    _ ← modify (λ s, {| s with isotopes := <[reg_Name reg := entry]> (isotopes s) |});
    mret (mkResponse 200 (View (viewOf entry))).

Definition handleIsotopeRegister (verify : Registration → TrustVerdict) (method : string)
  (body : option isotopeRegistration) : M Server Response :=
  if negb (method =s "POST") then mret methodNotAllowed
  else
    match body with
    | None => mret (badRequest "invalid JSON")
    | Some body =>
        let reg := ir_Registration body in
        let reg := {| reg with reg_Name := TrimSpace (reg_Name reg); reg_Endpoint := TrimSpace (reg_Endpoint reg) |} in
        if (reg_Name reg =s "") || (reg_Endpoint reg =s "") then
          mret (badRequest "name and endpoint are required")
        else
          s ← get;
          match isotopeTTL s (ir_TTL body) with
          | None => mret (badRequest "ttl must be a positive duration")
          | Some ttl =>
              now ← clock;
              let found := isotopes s !! reg_Name reg in
              r ← resolve_rung verify reg found;
              file_isotope found body reg now ttl r
          end
    end.

(** Why a certification is refused, or [""]. *)
Definition refuseUnattestedCertification (name endpoint : string) (att : option Attestation)
  : M Server string :=
  if negb has_secrets && negb has_roots then mret ""
  else
    match att with
    | None => mret "certification requires name, endpoint and attestation"
    | Some att =>
        if (name =s "") || (endpoint =s "") then
          mret "certification requires name, endpoint and attestation"
        else if negb roots_parse then mret "trust configuration is unusable"
        else
          now ← clock;
          if negb (VerifyWith att endpoint now) then mret "attestation rejected"
          else
            s ← get;
            match isotopes s !! name with
            | None => mret "not registered with this alarm"
            | Some entry =>
                if negb (iso_Endpoint (ent_record entry) =s endpoint) then mret "registered for another endpoint"
                else if iso_TrustRung (ent_record entry) <? isotopeCertificationRung then
                  mret "certification requires a higher rung"
                else mret ""
            end
    end.

Record certifyRequest := mkCertify {
  cert_ID : string;
  cert_Status : string;
  cert_Name : string;
  cert_Endpoint : string;
  cert_Attestation : option Attestation;
}.

Definition handleFeatureCertify (method : string) (body : option certifyRequest) : M Server Response :=
  if negb (method =s "POST") then mret methodNotAllowed
  else
    match body with
    | None => mret (badRequest "id required")
    | Some body =>
        if cert_ID body =s "" then mret (badRequest "id required")
        else
          refusal ← refuseUnattestedCertification (cert_Name body) (cert_Endpoint body) (cert_Attestation body);
          if negb (refusal =s "") then mret (mkResponse 403 (Refusal refusal))
          else
            _ ← (if cert_Status body =s "failed" then FailFeature (cert_ID body)
                 else CertifyFeature (cert_ID body));
            mret (mkResponse 200 Done)
    end.

(** [url.PathUnescape], [None] on a bad escape. *)
Fixpoint PathUnescape (s : string) : option string :=
  match s with
  | "" => Some ""
  | String "%" (String a (String b r)) =>
      x ← hex_digit a; y ← hex_digit b; r ← PathUnescape r;
      Some (byte_of (Z.to_N (16 * x + y)) +:+ r)
  | String "%" _ => None
  | String c r => r ← PathUnescape r; Some (String c r)
  end.

Definition handleIsotopeRoute (verify : Registration → TrustVerdict) (method path : string)
  (body : option isotopeRegistration) : M Server Response :=
  let item := TrimPrefix path "/isotope/" in
  let item := default item (PathUnescape item) in
  if item =s "register" then handleIsotopeRegister verify method body
  else if item =s "list" then handleIsotopeList method
  else if item =s "" then mret (notFound "isotope not found")
  else if HasPrefix item "by-route/" then handleIsotopeByRoute method (TrimPrefix item "by-route/")
  else if HasPrefix item "by-contract/" then handleIsotopeByContract method (TrimPrefix item "by-contract/")
  else
    let name := TrimSpace item in
    if method =s "GET" then handleIsotopeGet name
    else if method =s "DELETE" then handleIsotopeDelete name
    else mret methodNotAllowed.
End Trust.

(** ** Facts *)

#[global] Instance by_Name_trans : Transitive by_Name.
Proof. intros a b c. unfold by_Name. apply transitivity. Qed.
#[global] Instance by_Name_total : Total by_Name.
Proof. intros a b. unfold by_Name. apply (total String.le). Qed.
#[global] Instance by_target_ID_trans : Transitive by_target_ID.
Proof. intros a b c. unfold by_target_ID. apply transitivity. Qed.
#[global] Instance by_target_ID_total : Total by_target_ID.
Proof. intros a b. unfold by_target_ID. apply (total String.le). Qed.

Definition bucket_sum (k : StatusSummary) : Z :=
  Healthy k + Degraded k + Unhealthy k + Outage k + Regression k + Unknown k.

Lemma summarize_fold ts : ∀ k,
  bucket_sum (foldl count_target k ts) = bucket_sum k + Z.of_nat (length ts) ∧
  sum_Total (foldl count_target k ts) = sum_Total k.
Proof.
  induction ts as [|t ts IH]; intros k; cbn [foldl length]; [split; [lia|done]|].
  destruct (IH (count_target k t)) as [-> ->]. unfold count_target, bucket_sum. cbv zeta.
  repeat case_match; cbn; split; try done; lia.
Qed.

Lemma forallb_healthy l : allComponentsHealthy l = true ↔ Forall (λ c, c_Healthy c = true) l.
Proof. unfold allComponentsHealthy. rewrite forallb_forall, Forall_forall. by setoid_rewrite list_elem_of_In. Qed.

Lemma lookup_swept now s name :
  isotopes (sweepIsotopesLocked now s) !! name =
  match isotopes s !! name with
  | Some e => if expired now e then None else Some e
  | None => None
  end.
Proof.
  unfold sweepIsotopesLocked. cbn [isotopes].
  destruct (isotopes s !! name) as [e|] eqn:E.
  - destruct (expired now e) eqn:X.
    + apply map_lookup_filter_None_2. right. intros y Hy. cbn. simplify_eq. by rewrite X.
    + by apply map_lookup_filter_Some_2.
  - apply map_lookup_filter_None_2. by left.
Qed.

(** ** Properties *)

(** Readiness is what the components say. The snapshot is ready exactly when
    the flag is set and no component is unhealthy; it lists every component and
    every target once, in order of name and ID, and its summary puts every target
    in exactly one bucket. *)
Theorem Snapshot_ready (s : Server) (env : Env) (tick : nat) :
  let r := result Server_Snapshot env tick s in
  (sr_Ready r = true ↔ ready s = true ∧ map_Forall (λ _ c, c_Healthy c = true) (components s)) ∧
  (sr_Ready r = false → readyError s = "" → ready s = true →
     sr_ReadyError r = "one or more components are unhealthy") ∧
  sr_Components r ≡ₚ (map_to_list (components s)).*2 ∧ StronglySorted by_Name (sr_Components r) ∧
  sr_Targets r ≡ₚ (map_to_list (targets s)).*2 ∧ StronglySorted by_target_ID (sr_Targets r) ∧
  sum_Total (sr_Summary r) = Z.of_nat (size (targets s)) ∧ bucket_sum (sr_Summary r) = sum_Total (sr_Summary r).
Proof.
  cbv zeta. unfold result, Server_Snapshot, clock, get, mbind, M_bind, mret, M_ret.
  cbn [fst snd sr_Ready sr_Components sr_Targets sr_Summary sr_ReadyError].
  assert (allComponentsHealthy (merge_sort by_Name (map_to_list (components s)).*2) = true ↔
    map_Forall (λ _ c, c_Healthy c = true) (components s)) as Hall.
  { rewrite forallb_healthy, merge_sort_Permutation, map_Forall_to_list, Forall_fmap.
    apply Forall_proper; [|done]. by intros [k c]. }
  split_and!.
  - rewrite andb_true_iff, Hall. done.
  - intros Hf -> Hr. rewrite Hr in Hf |- *. cbn [andb negb] in *. rewrite Hf. done.
  - apply merge_sort_Permutation.
  - apply StronglySorted_merge_sort; apply _.
  - apply merge_sort_Permutation.
  - apply StronglySorted_merge_sort; apply _.
  - unfold summarizeTargets. rewrite (proj2 (summarize_fold _ _)). cbn [sum_Total].
    rewrite merge_sort_Permutation, length_fmap, length_map_to_list. done.
  - unfold summarizeTargets. rewrite (proj1 (summarize_fold _ _)), (proj2 (summarize_fold _ _)). unfold bucket_sum. cbn [Healthy Degraded Unhealthy Outage Regression Unknown sum_Total]. lia.
Qed.

(** The registry hands out live names only. A name resolves exactly when it
    is registered and its record is durable or the instant is before its expiry;
    what is handed out says which of the two it is, and a durable record is never
    swept. *)
Theorem handleIsotopeGet_live (s : Server) (name : string) (env : Env) (tick : nat) :
  name ≠ "" →
  let now := env_clock env tick in
  let r := result (handleIsotopeGet name) env tick s in
  let s' := state (handleIsotopeGet name) env tick s in
  (∀ v, r = mkResponse 200 (View v) ↔
     ∃ e, isotopes s !! name = Some e ∧ v = viewOf e ∧ (ent_expiresAt e = zeroTime ∨ now < ent_expiresAt e)) ∧
  (∀ n e, isotopes s !! n = Some e → ent_expiresAt e = zeroTime → isotopes s' !! n = Some e) ∧
  (∀ n e, isotopes s' !! n = Some e → isotopes s !! n = Some e ∧ expired now e = false).
Proof.
  intros Hn. cbv zeta.
  enough (wp (handleIsotopeGet name) env tick s (λ r _ s',
    s' = sweepIsotopesLocked (env_clock env tick) s ∧
    r = match isotopes s' !! name with
        | None => notFound "isotope not found" | Some e => mkResponse 200 (View (viewOf e)) end)) as H.
  { rewrite wp_run in H. destruct H as [Hs Hr]. rewrite Hs in Hr. rewrite Hs, Hr, lookup_swept. clear Hs Hr.
    assert (∀ e, expired (env_clock env tick) e = false ↔
      ent_expiresAt e = zeroTime ∨ env_clock env tick < ent_expiresAt e) as Hexp.
    { intros e. unfold expired, IsZero, Before, zeroTime.
      destruct (Z.eqb_spec (ent_expiresAt e) 0), (Z.ltb_spec (env_clock env tick) (ent_expiresAt e));
        cbn; split; intros; try done; try tauto; lia. }
    split; [|split].
    - intros v. destruct (isotopes s !! name) as [e|] eqn:E.
      + destruct (expired (env_clock env tick) e) eqn:X; split.
        * done.
        * intros (e' & [= <-] & _ & Hl). apply Hexp in Hl. congruence.
        * intros [= <-]. exists e. by rewrite <- Hexp.
        * by intros (e' & [= <-] & -> & _).
      + split; [done|]. by intros (e & ? & _).
    - intros n e He Hz. rewrite lookup_swept, He. assert (expired (env_clock env tick) e = false) as ->; [|done].
      apply Hexp. by left.
    - intros n e. rewrite lookup_swept. destruct (isotopes s !! n) as [x|]; [|done].
      destruct (expired _ x) eqn:X; [done|]. intros [= <-]. done. }
  unfold handleIsotopeGet. rewrite (proj2 (streq_false _ _) Hn). wp_go.
  destruct (isotopes (sweepIsotopesLocked _ s) !! name) as [e|] eqn:E; wp_go; by rewrite E.
Qed.

Definition ex_health : Server := NewServer (mkHealthOptions "" "" "" "" "" "" "" 0 0) 5.
Definition ex_isotope : Isotope := mkIsotope "n" "alarm" "http://h" "http" 6 "six" 5 [] "c".

Lemma handleIsotopeGet_live_witness :
  let s := {| ex_health with isotopes := {["n" := mkEntry ex_isotope 5 10 "" "" []]} |} in
  let r := result (handleIsotopeGet "n") (frozen 20 "") 0 s in
  r = notFound "isotope not found" ∧
  (∀ v, r = mkResponse 200 (View v) ↔
     ∃ e, isotopes s !! "n" = Some e ∧ v = viewOf e ∧ (ent_expiresAt e = zeroTime ∨ 20 < ent_expiresAt e)).
Proof.
  cbv zeta. split; [vm_compute; reflexivity|].
  apply (handleIsotopeGet_live {| ex_health with isotopes := {["n" := mkEntry ex_isotope 5 10 "" "" []]} |}
    "n" (frozen 20 "") 0).
  discriminate.
Defined.

Section TrustProperties.
Context (roots_parse has_secrets has_roots : bool).
Context (VerifyWith : Attestation → string → Time → bool).
Context (rung_thresholds : list (Z * string)).

(** The registration as the handler reads it. *)
Definition trimmed (reg : Registration) : Registration :=
  {| reg with reg_Name := TrimSpace (reg_Name reg); reg_Endpoint := TrimSpace (reg_Endpoint reg) |}.

(** A registration may inherit the rung on file: the endpoint is the same, and
    either nothing was attested and nothing is, or a receipt for the attested
    cluster verifies for the endpoint at an instant the handler reads. *)
Definition may_inherit (env : Env) (reg : Registration) (e : isotopeEntry) : Prop :=
  iso_Endpoint (ent_record e) = reg_Endpoint reg ∧
  ((iso_AttestedBy (ent_record e) = "" ∧ reg_Attestation reg = None) ∨
   ∃ att i, reg_Attestation reg = Some att ∧ att_Cluster att = iso_AttestedBy (ent_record e) ∧
     roots_parse = true ∧ VerifyWith att (reg_Endpoint reg) (env_clock env i) = true).

Lemma wp_resolve_rung verify reg found env tick s (Q : _ → nat → Server → Prop) :
  (∀ att tick', Q (verdict_Rung (verify reg), rungName rung_thresholds (verdict_Rung (verify reg)),
     verdict_Reasons (verify reg), att) tick' s) →
  (∀ e tick', found = Some e → may_inherit env reg e →
     Q (iso_TrustRung (ent_record e), iso_RungName (ent_record e), iso_Evidence (ent_record e),
        iso_AttestedBy (ent_record e)) tick' s) →
  wp (resolve_rung roots_parse VerifyWith rung_thresholds verify reg found) env tick s Q.
Proof.
  intros Hfull Hinh. unfold resolve_rung. cbv zeta.
  destruct found as [e|]; [|by wp_go; apply Hfull].
  destruct (streq _ _) eqn:Hep; [|by wp_go; apply Hfull]. apply streq_true in Hep.
  unfold renewalAttests. cbv zeta.
  destruct (streq (iso_AttestedBy (ent_record e)) "") eqn:Hatt; go_bools.
  - wp_go. destruct (reg_Attestation reg) eqn:Hreg; wp_go; [by apply Hfull|].
    apply Hinh; [done|]. split; [done|]. by left.
  - destruct (reg_Attestation reg) as [att|] eqn:Hreg; wp_go; [|by apply Hfull].
    destruct (streq (att_Cluster att) _) eqn:Hcl; cbn [negb]; [|by wp_go; apply Hfull].
    destruct roots_parse eqn:Hroots; cbn [negb]; [|by wp_go; apply Hfull].
    wp_go. destruct (VerifyWith att (reg_Endpoint reg) (env_clock env tick)) eqn:Hv; wp_go; [|by apply Hfull].
    apply Hinh; [done|]. split; [done|]. right. apply streq_true in Hcl. exists att, tick. done.
Qed.

(** What an accepted registration files, and answers. *)
Definition filed (verify : Registration → TrustVerdict) (env : Env) (now : Time)
  (b : isotopeRegistration) (s s' : Server) (r : Response) : Prop :=
  let reg := trimmed (ir_Registration b) in
  ∃ e, isotopes s' = <[reg_Name reg := e]> (isotopes s) ∧ r = mkResponse 200 (View (viewOf e)) ∧
    iso_Name (ent_record e) = reg_Name reg ∧ iso_Endpoint (ent_record e) = reg_Endpoint reg ∧
    reg_Name reg ≠ "" ∧ reg_Endpoint reg ≠ "" ∧
    ent_lastSeen e = now ∧ now < ent_expiresAt e ∧
    (iso_TrustRung (ent_record e) = verdict_Rung (verify reg) ∨
     ∃ e0, isotopes s !! reg_Name reg = Some e0 ∧ may_inherit env reg e0 ∧
       iso_TrustRung (ent_record e) = iso_TrustRung (ent_record e0)).

Lemma wp_file_isotope verify b rung rn ev ab ttl now env tick s (Q : Response → nat → Server → Prop) :
  let reg := trimmed (ir_Registration b) in
  reg_Name reg ≠ "" → reg_Endpoint reg ≠ "" → 0 < ttl →
  (rung = verdict_Rung (verify reg) ∨
   ∃ e0, isotopes s !! reg_Name reg = Some e0 ∧ may_inherit env reg e0 ∧ rung = iso_TrustRung (ent_record e0)) →
  (∀ r, code r ≠ 200 → Q r tick s) →
  (∀ r s', code r = 200 → filed verify env now b s s' r → Q r tick s') →
  wp (file_isotope (isotopes s !! reg_Name reg) b reg now ttl (rung, rn, ev, ab)) env tick s Q.
Proof.
  cbv zeta. set (reg := trimmed _). intros Hn He Httl Hrung Hno Hyes. unfold file_isotope. cbv zeta.
  destruct (_ && _); wp_go; [by apply Hno|]. apply Hyes; [done|].
  unfold filed. fold reg. eexists. split; [done|]. split; [done|].
  destruct (isotopes s !! reg_Name reg); cbn; unfold TimeAdd; split_and!; try done; lia.
Qed.

(** C11: no rung without proof. A registration the registry accepts is filed
    under its trimmed name and endpoint, expires a positive time after the
    request, and its rung is either the verdict of a full verification of this
    registration or the rung on file for the same name and endpoint, inherited
    by proving what the original proved. Other names are not touched, and a
    refused request changes nothing. *)
Theorem handleIsotopeRegister_rung (verify : Registration → TrustVerdict) (method : string)
  (body : option isotopeRegistration) (env : Env) (tick : nat) (s : Server) :
  0 < ho_IsotopeTTL (hs_opts s) →
  let m := handleIsotopeRegister roots_parse VerifyWith rung_thresholds verify method body in
  let r := result m env tick s in
  let s' := state m env tick s in
  (code r = 200 → ∃ b, body = Some b ∧ filed verify env (env_clock env tick) b s s' r) ∧
  (code r ≠ 200 → s' = s).
Proof.
  intros Httl. cbv zeta.
  enough (wp (handleIsotopeRegister roots_parse VerifyWith rung_thresholds verify method body) env tick s
    (λ r _ s', (code r = 200 → ∃ b, body = Some b ∧ filed verify env (env_clock env tick) b s s' r) ∧
      (code r ≠ 200 → s' = s))) as H by by rewrite wp_run in H.
  unfold handleIsotopeRegister.
  destruct (negb _); [by wp_go|]. destruct body as [b|]; [|by wp_go].
  fold (trimmed (ir_Registration b)). cbv zeta.
  destruct (_ || _) eqn:Hne; [by wp_go|]. apply orb_false_iff in Hne as [Hn He]. go_bools.
  wp_go. destruct (isotopeTTL s (ir_TTL b)) as [ttl|] eqn:Ettl; [|by wp_go].
  assert (0 < ttl) as Hpos.
  { unfold isotopeTTL in Ettl. destruct (streq _ _); [by simplify_eq|].
    destruct (ParseDuration _) as [d|]; [|done]. destruct (Z.leb_spec d 0); by simplify_eq. }
  wp_go. apply wp_resolve_rung; [intros att t|intros e t Hf Hinh];
    (eapply wp_file_isotope; [done|done|done| |by intros r Hc; split|]);
    [by left|by intros r s' Hc Hfd; split; [exists b|]|right; by exists e|by intros r s' Hc Hfd; split; [exists b|]].
Qed.

Ltac refused :=
  wp_go; match goal with |- context [streq ?a ""] => change (streq a "") with false end;
  cbn [negb]; wp_go.

(** C12: only a certified isotope certifies. When the alarm holds evidence, a
    request changes a feature only if its receipt verifies for its endpoint and
    its name is registered for that endpoint at rung 6 or above. *)
Theorem handleFeatureCertify_gated (method : string) (body : option certifyRequest)
  (env : Env) (tick : nat) (s : Server) :
  has_secrets || has_roots = true →
  let m := handleFeatureCertify roots_parse has_secrets has_roots VerifyWith method body in
  features (state m env tick s) ≠ features s →
  ∃ b att e i, body = Some b ∧ cert_Attestation b = Some att ∧
    VerifyWith att (cert_Endpoint b) (env_clock env i) = true ∧
    isotopes s !! cert_Name b = Some e ∧ iso_Endpoint (ent_record e) = cert_Endpoint b ∧
    isotopeCertificationRung ≤ iso_TrustRung (ent_record e).
Proof.
  intros Hev. cbv zeta.
  enough (wp (handleFeatureCertify roots_parse has_secrets has_roots VerifyWith method body) env tick s
    (λ _ _ s', features s' ≠ features s →
    ∃ b att e i, body = Some b ∧ cert_Attestation b = Some att ∧
    VerifyWith att (cert_Endpoint b) (env_clock env i) = true ∧
    isotopes s !! cert_Name b = Some e ∧ iso_Endpoint (ent_record e) = cert_Endpoint b ∧
    isotopeCertificationRung ≤ iso_TrustRung (ent_record e))) as H by by rewrite wp_run in H.
  unfold handleFeatureCertify. destruct (negb _); [by wp_go|]. destruct body as [b|]; [|by wp_go].
  destruct (streq (cert_ID b) ""); [by wp_go|]. unfold refuseUnattestedCertification.
  assert (negb has_secrets && negb has_roots = false) as -> by (by destruct has_secrets, has_roots).
  destruct (cert_Attestation b) as [att|] eqn:Hatt; [|by refused].
  destruct ((cert_Name b =s "") || (cert_Endpoint b =s "")); [by refused|]. destruct (negb roots_parse); [by refused|]. wp_go.
  destruct (VerifyWith att (cert_Endpoint b) (env_clock env tick)) eqn:Hv; cbn [negb]; [|by refused]. wp_go.
  destruct (isotopes s !! cert_Name b) as [e|] eqn:He; [|by refused].
  destruct (streq (iso_Endpoint (ent_record e)) _) eqn:Hep; cbn [negb]; [|by refused].
  destruct (Z.ltb_spec (iso_TrustRung (ent_record e)) isotopeCertificationRung) as [Hr|Hr]; [by refused|].
  apply streq_true in Hep. wp_go. change (streq "" "") with true. cbn [negb]. apply wp_run. intros _. exists b, att, e, tick. done.
Qed.
End TrustProperties.

Definition ex_receipt : Attestation := mkAttestation "c" "good".
Definition ex_VerifyWith (att : Attestation) (_ : string) (_ : Time) : bool := att_Receipt att =s "good".
Definition ex_verify (_ : Registration) : TrustVerdict := mkVerdict 2 [].
Definition ex_registered : Server := {| ex_health with isotopes := {["n" := mkEntry ex_isotope 5 10 "" "" []]} |}.
Definition ex_renewal : isotopeRegistration :=
  mkIsotopeRegistration (mkRegistration "n" "alarm" " http://h " "http" (Some ex_receipt)) "90s" "" "" [].

Lemma handleIsotopeRegister_rung_witness :
  let m := handleIsotopeRegister true ex_VerifyWith [] ex_verify "POST" (Some ex_renewal) in
  let r := result m (frozen 7 "") 0 ex_registered in
  code r = 200 ∧ ∃ b, Some ex_renewal = Some b ∧
    filed true ex_VerifyWith ex_verify (frozen 7 "") 7 b ex_registered (state m (frozen 7 "") 0 ex_registered) r.
Proof.
  cbv zeta. split; [vm_compute; reflexivity|].
  apply (handleIsotopeRegister_rung true ex_VerifyWith [] ex_verify "POST" (Some ex_renewal)
    (frozen 7 "") 0 ex_registered); vm_compute; reflexivity.
Defined.

Definition ex_featured : Server :=
  {| ex_registered with features := {["f" := mkFeature "f" "F" "" [] 1 "unclaimed" 0 0]} |}.
Definition ex_certify : certifyRequest := mkCertify "f" "" "n" "http://h" (Some ex_receipt).

Lemma handleFeatureCertify_gated_witness :
  ∃ b att e i, Some ex_certify = Some b ∧ cert_Attestation b = Some att ∧
    ex_VerifyWith att (cert_Endpoint b) (env_clock (frozen 7 "") i) = true ∧
    isotopes ex_featured !! cert_Name b = Some e ∧ iso_Endpoint (ent_record e) = cert_Endpoint b ∧
    isotopeCertificationRung ≤ iso_TrustRung (ent_record e).
Proof.
  apply (handleFeatureCertify_gated true true false ex_VerifyWith "POST" (Some ex_certify) (frozen 7 "") 0 ex_featured).
  - reflexivity.
  - intros H. apply (f_equal (λ m, f_Status <$> m !! "f")) in H. vm_compute in H. discriminate H.
Defined.

(** An expired registration no longer resolves but, until a read sweeps it, it
    still authorises a certification and a renewal still inherits its rung. *)
Example expired_registration_still_trusted :
  expired 99 (mkEntry ex_isotope 5 10 "" "" []) = true ∧
  f_Status <$> features (state (handleFeatureCertify true true false ex_VerifyWith "POST" (Some ex_certify))
    (frozen 99 "") 0 ex_featured) !! "f" = Some "certified" ∧
  iso_TrustRung <$> (ent_record <$> isotopes (state (handleIsotopeRegister true ex_VerifyWith [] ex_verify
    "POST" (Some ex_renewal)) (frozen 99 "") 0 ex_registered) !! "n") = Some 6.
Proof. vm_compute. done. Qed.

(** A durable record mirrored from the membership becomes an expiring one when
    anyone registers its name and endpoint, and is then swept. *)
Example durable_record_made_to_expire :
  let mirrored := mkIsotope "n" "alarm" "http://h" "http" 4 "mesh" 5 [] "" in
  let s := {| ex_health with isotopes := {["n" := mkEntry mirrored 5 0 "" "" []]} |} in
  let anyone := mkIsotopeRegistration (mkRegistration "n" "" "http://h" "" None) "1ns" "" "" [] in
  let s := state (handleIsotopeRegister true ex_VerifyWith [] ex_verify "POST" (Some anyone)) (frozen 7 "") 0 s in
  result (handleIsotopeGet "n") (frozen 8 "") 0 s = notFound "isotope not found".
Proof. vm_compute. reflexivity. Qed.
