(* ===== verification/Serve.v ===== *)
(** * The server process ([cmd/ocd-smoke-alarm/main.go], [listeners.go])

    How [serve] puts the parts together: loading with the flags' overrides, the
    runtime lock, claiming the listeners' ports and following them, reloading on
    SIGHUP, and the loop that mirrors the engine's view into the health server. The
    goroutines around these are steps that interleave; printing and the servers'
    loops are left out. *)

From Stdlib Require Import ZArith Lia Ascii.
From stdpp Require Import base tactics strings gmap sorting relations.
From stdpp Require Import list.
From S2P Require Import Prelude Bytes Durations KnownState Net Url Targets Config ConfigValidate SelfRefs Handshake Engine Health.

Open Scope Z_scope.
Open Scope go_scope.

(** ** Loading *)

(** The flags of the command line; an empty string is a flag that is not given. *)
Record Flags := mkFlags {
  fl_mode : string;
  fl_health_addr : string;
  fl_telemetry : string;
  fl_federation : string;
  fl_state_dir : string;
  fl_lock_file : string;
  fl_name : string;
  fl_demo : bool;
  fl_demo_foreground : bool;
}.

(** [strings.SplitN(part, ":", 2)] when it has two parts. *)
Definition cut_colon (part : string) : option (string * string) :=
  i ← IndexByte part ":";
  Some (stake i part, sdrop (S i) part).

Definition federation_part (fd : FederationConfig) (part : string) : FederationConfig :=
  match cut_colon part with
  | Some (k, v) => if mem k ["upstream"; "introducer"] then {| fd with fd_Introducer := v; fd_Upstream := v |} else fd
  | None => fd
  end.
Definition parseFederationFlag (flagVal : string) (cfg : Config) : Config :=
  let fd := foldl federation_part (cfg_Federation cfg) (Split flagVal ",") in
  {| cfg with cfg_Federation := {| fd with fd_Enabled := true; fd_Rank := DetectRank (hc_ListenAddr (cfg_Health cfg)) |} |}.

(** The overrides of the flags, in the order of the code. *)
Definition set_flag (given : string) (f : string → Config → Config) (cfg : Config) : Config :=
  if given =s "" then cfg else f given cfg.

Definition set_mode (v : string) (c : Config) : Config := {| c with cfg_Service := {| (cfg_Service c) with svc_Mode := v |} |}.
Definition set_health_addr (v : string) (c : Config) : Config :=
  {| c with cfg_Health := {| (cfg_Health c) with hc_ListenAddr := v |} |}.
Definition set_telemetry (v : string) (c : Config) : Config :=
  {| c with cfg_Telemetry := {| (cfg_Telemetry c) with tm_Enabled := true; tm_Endpoint := v |} |}.
Definition set_name (v : string) (c : Config) : Config := {| c with cfg_Service := {| (cfg_Service c) with svc_Name := v |} |}.
Definition set_state_dir (v : string) (c : Config) : Config :=
  {| c with cfg_Runtime := {| (cfg_Runtime c) with run_StateDir := v |} |}.
Definition set_lock_file (v : string) (c : Config) : Config :=
  {| c with cfg_Runtime := {| (cfg_Runtime c) with run_LockFile := v |} |}.

Definition apply_flags (fl : Flags) (cfg : Config) : Config :=
  let cfg := set_flag (fl_mode fl) set_mode cfg in
  let cfg := set_flag (fl_health_addr fl) set_health_addr cfg in
  let cfg := set_flag (fl_telemetry fl) set_telemetry cfg in
  let cfg := set_flag (fl_federation fl) parseFederationFlag cfg in
  let cfg := set_flag (fl_name fl) set_name cfg in
  let cfg := set_flag (fl_state_dir fl) set_state_dir cfg in
  set_flag (fl_lock_file fl) set_lock_file cfg.

Definition fallbackStr (v d : string) : string := if blank v then d else v.
Definition hasStringFold (items : list string) (needle : string) : bool :=
  let needle := TrimSpace (ToLower needle) in
  if needle =s "" then false else existsb (λ item, EqualFold (TrimSpace item) needle) items.
Definition ensureStringFoldContains (items : list string) (value : string) : list string :=
  if hasStringFold items value then items else items ++ [value].

Definition applyDemoOverrides (fl : Flags) (cfg : Config) : Config :=
  if negb (fl_demo fl) then cfg
  else
    let cfg := if fl_demo_foreground fl then set_mode ModeForeground cfg else cfg in
    let h := cfg_Hosted cfg in
    let mr := go_MockRedirect (ga_OAuth (cfg_Auth cfg)) in
    let mr := mkOAuthMockRedirectConfig true (fallbackStr (mr_ListenAddr mr) "localhost:8877")
      (fallbackStr (mr_Path mr) "/oauth/callback") (fallbackStr (mr_Mode mr) "allow") in
    {| cfg with
       cfg_Hosted := {| h with hs_Enabled := true; hs_ListenAddr := fallbackStr (hs_ListenAddr h) "localhost:18091";
         hs_Transports := ensureStringFoldContains (ensureStringFoldContains (hs_Transports h) "http") "sse";
         hs_Protocols := ensureStringFoldContains (ensureStringFoldContains (hs_Protocols h) "mcp") "acp" |};
       cfg_Discovery := {| (cfg_Discovery cfg) with dsc_Enabled := true |};
       cfg_DynamicConfig := {| (cfg_DynamicConfig cfg) with dy_Enabled := true |};
       cfg_Auth := {| (cfg_Auth cfg) with ga_OAuth := {| (ga_OAuth (cfg_Auth cfg)) with go_MockRedirect := mr |} |} |}.

(** An entry of the working directory: its name, and whether it is a directory. *)
Definition docker_entry (e : string * bool) : bool :=
  let lower := ToLower e.1 in
  EqualFold e.1 "Dockerfile" || HasPrefix lower "dockerfile" || HasPrefix lower "docker-compose"
  || HasSuffix lower ".dockerfile" || (e.2 && ((lower =s "docker") || HasPrefix lower "docker-")).

Definition dockerLLMSTxt : string := "https://docs.docker.com/llms.txt".

(** [entries] is the working directory, when it can be read. *)
Definition ensureDockerLLMSTxt (entries : option (list (string * bool))) (cfg : Config) : Config :=
  match entries with
  | None => cfg
  | Some entries =>
      if negb (existsb docker_entry entries) then cfg
      else
        let d := cfg_Discovery cfg in
        let llms := dsc_LLMSTxt d in
        let uris := llm_RemoteURIs llms in
        let uris := if existsb (λ u, EqualFold u dockerLLMSTxt) uris then uris else uris ++ [dockerLLMSTxt] in
        {| cfg with cfg_Discovery := {| d with dsc_Enabled := true;
           dsc_LLMSTxt := {| llms with llm_Enabled := true; llm_RequireHTTPS := true; llm_RemoteURIs := uris |} |} |}
  end.

Definition withSelfCheckTarget (cfg : Config) : Config :=
  let h := cfg_Health cfg in
  if negb (hc_Enabled h) || negb (hc_SelfCheck h) then cfg
  else
    {| cfg with cfg_Targets := cfg_Targets cfg ++
       [{| zeroTargetConfig with tc_ID := "self-health-check"; tc_Name := "Self Health Check"; tc_Enabled := true;
           tc_Protocol := ProtocolHTTP; tc_Transport := TransportHTTP;
           tc_Endpoint := "http://" +:+ hc_ListenAddr h +:+ hr_Status (hc_Endpoints h);
           tc_Check := mkTargetCheckConfig "30s" "5s" 3 "" [] [] |}] |}.

(** [loadConfig]: [loaded] is what [config.Load] returned. *)
Definition load_config (ParseRoots : gmap string string → bool) (fl : Flags) (entries : option (list (string * bool)))
  (loaded : Config + load_error) : Config + load_error :=
  match loaded with
  | inr e => inr e
  | inl cfg =>
      let cfg := ensureDockerLLMSTxt entries (applyDemoOverrides fl (ApplyDefaults (apply_flags fl cfg))) in
      match Config_Validate ParseRoots cfg with
      | [] => inl (withSelfCheckTarget cfg)
      | problems => inr (Invalid problems)
      end
  end.

(** ** The runtime lock *)

(** The files, and the processes that run. *)
Record Machine := mkMachine {
  mc_files : gmap string string;
  mc_alive : gset Z;
}.
Definition set_mc_files (f : gmap string string → gmap string string) (m : Machine) : Machine :=
  {| m with mc_files := f (mc_files m) |}.

Inductive lock_error :=
  | ErrLockPathRequired
  | ErrLockDir
  | ErrLockCreate
  | ErrLockOwnerUnknown
  | ErrLockHeld (pid : Z)
  | ErrLockStale.

(** What the operating system refuses the process. *)
Record LockFaults := mkLockFaults {
  lf_mkdir : bool;
  lf_create : bool;
  lf_remove : bool;
}.

Definition readPID (m : Machine) (path : string) : option Z :=
  v ← mc_files m !! path;
  let '(pid, ok) := Atoi (TrimSpace v) in
  if negb ok || (pid <=? 0) then None else Some pid.

Definition isProcessRunning (m : Machine) (pid : Z) : bool := bool_decide (pid ∈ mc_alive m).

Definition acquireLock (io : LockFaults) (self : Z) (path : string) (m : Machine) : option lock_error * Machine :=
  let create := set_mc_files (<[path := Itoa self]>) in
  if blank path then (Some ErrLockPathRequired, m)
  else if lf_mkdir io then (Some ErrLockDir, m)
  else
    match mc_files m !! path with
    | None => if lf_create io then (Some ErrLockCreate, m) else (None, create m)
    | Some _ =>
        match readPID m path with
        | None => (Some ErrLockOwnerUnknown, m)
        | Some pid =>
            if isProcessRunning m pid then (Some (ErrLockHeld pid), m)
            else if lf_remove io then (Some ErrLockStale, m)
            else
              let m := set_mc_files (delete path) m in
              if lf_create io then (Some ErrLockStale, m) else (None, create m)
        end
    end.

Definition releaseLock (path : string) (m : Machine) : Machine := set_mc_files (delete path) m.

(** ** The listeners *)

Definition ListenerHealth : string := "health".
Definition ListenerHosted : string := "hosted".
Definition ListenerOAuthRedirect : string := "oauth_redirect_mock".
Definition listenerRetries : Z := 10.

(** What the system answers to the binding of a listener by name. *)
Abbreviation Binder := (string → string → string + string).

Section Listeners.
Context (bind : Binder).

(** A claim, and the addresses that moved: the later of two listeners configured
    alike wins. *)
Definition claim (name configured : string) (moved : gmap string string) : M Server (bool * gmap string string) :=
  r ← ClaimListener name (bind name configured);
  mret (match r with
        | inl addr => (true, if addr =s configured then moved else <[configured := addr]> moved)
        | inr _ => (false, moved)
        end).

Definition claim_if (enabled : bool) (name configured : string) (moved : gmap string string) : M Server (bool * gmap string string) :=
  if enabled then claim name configured moved else mret (false, moved).

(** Which listeners are bound, and what moved; [None] is the health listener that
    could not be bound, which ends the process. With the health server disabled
    there is no server to report to, but the ports are claimed all the same. *)
Definition claim_listeners (cfg : Config) : M Server (option (bool * bool * gmap string string)) :=
  let h := cfg_Health cfg in
  let mr := go_MockRedirect (ga_OAuth (cfg_Auth cfg)) in
  health ← claim_if (hc_Enabled h) ListenerHealth (hc_ListenAddr h) ∅;
  if hc_Enabled h && negb health.1 then mret None
  else
    hosted ← claim_if (hs_Enabled (cfg_Hosted cfg)) ListenerHosted (hs_ListenAddr (cfg_Hosted cfg)) health.2;
    oauth ← claim_if (mr_Enabled mr) ListenerOAuthRedirect (mr_ListenAddr mr) hosted.2;
    mret (Some (hosted.1, oauth.1, oauth.2)).

End Listeners.

Definition boundListenerSummary (s : Server) : string :=
  Join (map (λ name, name +:+ "=" +:+ default "" (listeners s !! name))
    (sort_strings (map fst (map_to_list (listeners s))))) " ".

(** ** Mirroring the engine *)

Definition shown (st : TargetRuntimeStatus) : TargetStatus :=
  mkTargetStatus (rs_TargetID st) (rs_Protocol st) (rs_Endpoint st) (rs_State st) (rs_Severity st) (rs_Message st)
    (rs_Regression st) (rs_LastCheckedAt st) (Z.quot (rs_Latency st) 1000000).

Fixpoint upsert_all (sts : list TargetRuntimeStatus) : M Server unit :=
  match sts with
  | [] => mret tt
  | st :: sts => _ ← UpsertTargetStatus (shown st); upsert_all sts
  end.
Fixpoint remove_targets (ids : list string) : M Server unit :=
  match ids with
  | [] => mret tt
  | id :: ids => _ ← RemoveTarget id; remove_targets ids
  end.

(** One tick of [syncHealthLoop]: [owned] are the ids it has published, in any
    order. *)
Definition sync_tick (e : Engine) (owned : gset string) : M Server (gset string) :=
  let sts := SnapshotStatuses e in
  let current : gset string := list_to_set (TargetIDs e ++ map rs_TargetID sts) in
  _ ← upsert_all sts;
  _ ← remove_targets (filter (λ id, id ∉ current) (elements owned));
  _ ← (if IsReady e then _ ← SetComponent "engine" true "checks active"; SetReady true ""
       else _ ← SetComponent "engine" false "waiting for initial target checks"; SetReady false "engine not ready");
  mret current.

(** The reload on SIGHUP: the ids the engine drops, which are withdrawn from the
    health view. A configuration that does not load or compile leaves everything as
    it was. *)
Definition reload (moved : list (string * string)) (loaded : Config + load_error) : M Engine (list string) :=
  match loaded with
  | inr _ => mret []
  | inl cfg =>
      r ← ReloadConfig (RewriteSelfReferences cfg moved);
      mret (match r with inr _ => [] | inl removed => removed end)
  end.

(** ** The process *)

(** The engine with its history, the health server, what the loop owns, and the
    targets other instances ever reported. *)
Record Monitor := mkMonitor {
  mon_engine : Engine;
  mon_trace : Trace;
  mon_health : Server;
  mon_owned : gset string;
  mon_reported : gset string;
}.

Definition reported_ids (incoming : option StatusResponse) : gset string :=
  match incoming with Some sr => list_to_set (map t_ID (sr_Targets sr)) | None => ∅ end.

(** Checks, reloads, ticks of the loop and reports of other instances, in any order;
    between them anything else the process does to the health server, which never
    touches its targets. *)
Inductive monitor_step : Monitor → Monitor → Prop :=
  | on_check e tr e' tr' h owned rep : engine_step (e, tr) (e', tr') →
      monitor_step (mkMonitor e tr h owned rep) (mkMonitor e' tr' h owned rep)
  | on_reload e tr tr' h owned rep moved loaded env tick env' tick' :
      rtc engine_step (e, tr) (state (reload moved loaded) env tick e, tr') →
      monitor_step (mkMonitor e tr h owned rep)
        (mkMonitor (state (reload moved loaded) env tick e) tr'
           (state (remove_targets (result (reload moved loaded) env tick e)) env' tick' h) owned rep)
  | on_tick e tr h owned rep env tick :
      monitor_step (mkMonitor e tr h owned rep)
        (mkMonitor e tr (state (sync_tick e owned) env tick h) (result (sync_tick e owned) env tick h) rep)
  | on_report e tr h owned rep method incoming env tick :
      monitor_step (mkMonitor e tr h owned rep)
        (mkMonitor e tr (state (handleFederationReport method incoming) env tick h) owned (reported_ids incoming ∪ rep))
  | on_other e tr h owned rep A (m : M Server A) env tick : keeps Health.targets m →
      monitor_step (mkMonitor e tr h owned rep) (mkMonitor e tr (state m env tick h) owned rep).

Definition started (x : Monitor) : Prop :=
  ∃ cfg store scanner opts now, NewEngine cfg store scanner = inl (mon_engine x) ∧
    mon_trace x = mkTrace ∅ (event_cap cfg) (event_cap cfg) ∧ mon_health x = Health.NewServer opts now ∧
    mon_owned x = ∅ ∧ mon_reported x = ∅.
Definition running (x : Monitor) : Prop := ∃ x0, started x0 ∧ rtc monitor_step x0 x.

(** ** What a tick does *)

(** A row shows a status, with a time of its own when the status has none. *)
Definition shows (row : TargetStatus) (st : TargetRuntimeStatus) : Prop :=
  ∃ checked state, row = {| (shown st) with t_CheckedAt := checked; t_State := state |} ∧
    (IsZero (rs_LastCheckedAt st) = false → checked = rs_LastCheckedAt st) ∧
    state = (let s := ToLower (TrimSpace (rs_State st)) in if s =s "" then "unknown" else s).

Lemma wp_upsert st env tick s : wp (UpsertTargetStatus (shown st)) env tick s (λ _ _ s',
  if blank (rs_TargetID st) then s' = s
  else ∃ row, shows row st ∧ Health.targets s' = <[rs_TargetID st := row]> (Health.targets s)).
Proof.
  unfold UpsertTargetStatus. change (t_ID (shown st)) with (rs_TargetID st). destruct (blank _); wp_go; [done|].
  change (t_CheckedAt (shown st)) with (rs_LastCheckedAt st). destruct (IsZero (rs_LastCheckedAt st)) eqn:Hz; wp_go; cbn [Health.targets].
  - eexists. split; [|reflexivity]. eexists _, _. split; [reflexivity|]. by rewrite Hz.
  - eexists. split; [|reflexivity]. eexists _, _. split; [reflexivity|]. done.
Qed.

Lemma wp_upsert_statuses sts env tick s : NoDup (map rs_TargetID sts) → wp (upsert_all sts) env tick s (λ _ _ s',
  (∀ id, id ∉ map rs_TargetID sts → Health.targets s' !! id = Health.targets s !! id) ∧
  (∀ st, st ∈ sts → blank (rs_TargetID st) = false → ∃ row, shows row st ∧ Health.targets s' !! rs_TargetID st = Some row)).
Proof.
  revert tick s. induction sts as [|st sts IH]; intros tick s Hn; cbn [upsert_all]; wp_go.
  { split; [done|]. by intros st Hst%elem_of_nil. }
  cbn [map] in Hn. apply NoDup_cons in Hn as [Hni Hn]. eapply wp_mono; [apply wp_upsert|]. intros [] t1 s1 H1.
  eapply wp_mono; [by apply IH|]. intros [] t2 s2 [Hkeep Hrows]. cbn [map]. split.
  - intros id [Hid Hids]%not_elem_of_cons. rewrite Hkeep by done. destruct (blank _); [by rewrite H1|].
    destruct H1 as (row & _ & ->). by rewrite lookup_insert_ne.
  - intros st' [->|Hst']%elem_of_cons Hb; [|by apply Hrows]. rewrite Hkeep by done. rewrite Hb in H1.
    destruct H1 as (row & Hrow & ->). exists row. split; [done|]. apply lookup_insert_eq.
Qed.

Lemma wp_remove_targets ids env tick s : wp (remove_targets ids) env tick s (λ _ _ s',
  ∀ id, Health.targets s' !! id = if decide (id ∈ ids) then None else Health.targets s !! id).
Proof.
  revert tick s. induction ids as [|i ids IH]; intros tick s; cbn [remove_targets]; wp_go.
  { intros id. by rewrite decide_False by apply not_elem_of_nil. }
  unfold RemoveTarget. wp_go. eapply wp_mono; [apply IH|]. cbn [Health.targets]. intros [] t s' H id. rewrite H.
  destruct (decide (id ∈ ids)); [by rewrite decide_True by by right|]. destruct (decide (id = i)) as [->|Hne].
  - rewrite lookup_delete_eq. by rewrite decide_True by by left.
  - rewrite lookup_delete_ne by done. rewrite decide_False; [done|]. by intros [?|?]%elem_of_cons.
Qed.

(** The engine's readiness, as a component and as the server's. *)
Lemma wp_report_engine up detail why env tick s :
  wp (_ ← SetComponent "engine" up detail; SetReady up why) env tick s (λ _ _ s',
    Health.targets s' = Health.targets s ∧ ready s' = up ∧ c_Healthy <$> components s' !! "engine" = Some up).
Proof.
  unfold SetComponent, SetReady. change (TrimSpace "engine" =s "") with false. cbv iota zeta. wp_go. cbn [Health.targets ready components].
  change (TrimSpace "engine") with "engine". by rewrite lookup_insert_eq.
Qed.

Lemma wp_sync_tick e owned env tick s : (∀ id st, en_statuses e !! id = Some st → rs_TargetID st = id) →
  wp (sync_tick e owned) env tick s (λ current _ s',
    (∀ id, id ∈ current ↔ id ∈ TargetIDs e ∨ is_Some (en_statuses e !! id)) ∧
    (∀ id, id ∉ current → Health.targets s' !! id = if decide (id ∈ owned) then None else Health.targets s !! id) ∧
    (∀ id st, en_statuses e !! id = Some st → blank id = false → ∃ row, shows row st ∧ Health.targets s' !! id = Some row) ∧
    ready s' = IsReady e ∧ c_Healthy <$> components s' !! "engine" = Some (IsReady e)).
Proof.
  intros Hk. assert (∀ id, id ∈ map rs_TargetID (SnapshotStatuses e) ↔ is_Some (en_statuses e !! id)) as Hids.
  { intros id. rewrite (status_ids e Hk), elem_of_elements, elem_of_dom. done. }
  assert (NoDup (map rs_TargetID (SnapshotStatuses e))) as Hnd by (rewrite (status_ids e Hk); apply NoDup_elements).
  unfold sync_tick. set (current := list_to_set _ : gset string).
  assert (∀ id, id ∈ current ↔ id ∈ TargetIDs e ∨ is_Some (en_statuses e !! id)) as Hcur.
  { intros id. unfold current. by rewrite elem_of_list_to_set, elem_of_app, Hids. }
  wp_go. eapply wp_mono; [by apply wp_upsert_statuses|]. intros [] t1 s1 [Hkeep Hrows]. wp_go.
  eapply wp_mono; [apply wp_remove_targets|]. intros [] t2 s2 Hrm. wp_go.
  eapply (wp_mono _ _ _ _ _ (λ _ _ s', Health.targets s' = Health.targets s2 ∧ ready s' = IsReady e ∧
    c_Healthy <$> components s' !! "engine" = Some (IsReady e))).
  { destruct (IsReady e); apply wp_report_engine. }
  intros [] t3 s3 (Ht & Hr & Hc). wp_go. split_and!; try done.
  - intros id Hid. rewrite Ht, Hrm, Hkeep by (intros Hin; apply Hid, Hcur; right; by apply Hids).
    destruct (decide (id ∈ owned)) as [Ho|Ho].
    + rewrite decide_True; [done|]. apply list_elem_of_filter. split; [done|]. by apply elem_of_elements.
    + rewrite decide_False; [done|]. by intros [_ ?%elem_of_elements]%list_elem_of_filter.
  - intros id st Hst Hb. rewrite Ht, Hrm, decide_False.
    + rewrite <- (Hk _ _ Hst). apply Hrows; [|by rewrite (Hk _ _ Hst)].
      unfold SnapshotStatuses. rewrite merge_sort_Permutation. apply list_elem_of_fmap. exists (id, st).
      split; [done|]. by apply elem_of_map_to_list.
    + intros [Hn _]%list_elem_of_filter. apply Hn, Hcur. right. by eexists.
Qed.

(** ** What holds of the process *)

Definition monitor_ok (x : Monitor) : Prop :=
  engine_ok (mon_engine x) (mon_trace x) ∧ dom (Health.targets (mon_health x)) ⊆ mon_owned x ∪ mon_reported x.

Lemma started_ok x : started x → monitor_ok x.
Proof.
  intros (cfg & store & scanner & opts & now & Hnew & Htr & Hh & _). split.
  - rewrite Htr. apply (reached_ok (mon_engine x, mkTrace ∅ (event_cap cfg) (event_cap cfg))).
    exists cfg, store, scanner, (mon_engine x). split; [done|]. apply rtc_refl.
  - rewrite Hh. cbn. rewrite dom_empty_L. set_solver.
Qed.

Lemma engine_steps_ok x y : rtc engine_step x y → engine_ok x.1 x.2 → engine_ok y.1 y.2.
Proof. intros H. induction H as [|[] [] z Hxy _ IH]; [done|]. intros Hx. apply IH. by eapply engine_step_ok. Qed.

(** What a report may add to the targets. *)
Lemma wp_each_upsert ts env tick s : wp (each UpsertTargetStatus ts) env tick s (λ _ _ s',
  dom (Health.targets s') ⊆ list_to_set (map t_ID ts) ∪ dom (Health.targets s)).
Proof.
  revert tick s. induction ts as [|t ts IH]; intros tick s; cbn [each]; wp_go; [set_solver|].
  eapply (wp_mono _ _ _ _ _ (λ _ _ s', dom (Health.targets s') ⊆ {[t_ID t]} ∪ dom (Health.targets s))).
  { unfold UpsertTargetStatus. case_match; wp_go; [set_solver|]. destruct (IsZero _); wp_go; cbn [Health.targets]; rewrite dom_insert; set_solver. }
  intros [] t1 s1 H1. eapply wp_mono; [apply IH|]. intros [] t2 s2 H2. cbn [map list_to_set]. set_solver.
Qed.

Lemma adopt_keeps cs : keeps Health.targets (each adopt_component cs).
Proof. induction cs as [|c cs IH]; cbn [each]; unfold adopt_component, SetComponent; keeps_go. Qed.

Lemma report_targets method incoming env tick s :
  dom (Health.targets (state (handleFederationReport method incoming) env tick s)) ⊆ reported_ids incoming ∪ dom (Health.targets s).
Proof.
  pose (Q := λ (_ : Health.Response) (_ : nat) s', dom (Health.targets s') ⊆ reported_ids incoming ∪ dom (Health.targets s)).
  enough (wp (handleFederationReport method incoming) env tick s Q) as Hw by (rewrite wp_run in Hw; apply Hw).
  unfold handleFederationReport, Q. case_match; wp_go; [set_solver|]. destruct incoming as [sr|]; wp_go; [|set_solver].
  eapply wp_mono; [apply wp_each_upsert|]. intros [] t1 s1 H1. wp_go.
  apply (keeps_wp Health.targets); [apply adopt_keeps|]. intros [] t2 s2 H2. wp_go.
  apply (keeps_wp Health.targets); [unfold SetComponent; keeps_go|]. intros [] t3 s3 H3. wp_go. by rewrite H3, H2.
Qed.

Lemma monitor_step_ok x y : monitor_step x y → monitor_ok x → monitor_ok y.
Proof.
  intros H [He Hd]. destruct H as [e tr e' tr' h owned rep H|e tr tr' h owned rep moved loaded env tick env' tick' H|e tr h owned rep env tick|
    e tr h owned rep method incoming env tick|e tr h owned rep A m env tick Hm];
    unfold monitor_ok in *; cbn [mon_engine mon_trace mon_health mon_owned mon_reported] in *.
  - split; [by eapply engine_step_ok|done].
  - split; [by apply (engine_steps_ok _ _ H)|]. intros id Hid. apply Hd. apply elem_of_dom in Hid. apply elem_of_dom.
    pose proof (wp_remove_targets (result (reload moved loaded) env tick e) env' tick' h) as Hw. rewrite wp_run in Hw.
    rewrite Hw in Hid. case_decide; [by destruct Hid|done].
  - split; [done|]. pose proof (wp_sync_tick e owned env tick h (eo_keyed _ _ He)) as Hw. rewrite wp_run in Hw.
    destruct Hw as (_ & Hout & _). intros id Hid. destruct (decide (id ∈ result (sync_tick e owned) env tick h)) as [|Hn]; [set_solver|].
    apply elem_of_dom in Hid. rewrite Hout in Hid by done. case_decide as Ho; [by destruct Hid|]. apply elem_of_dom, Hd in Hid. set_solver.
  - split; [done|]. pose proof (report_targets method incoming env tick h). set_solver.
  - split; [done|]. by rewrite Hm.
Qed.

Lemma running_ok x : running x → monitor_ok x.
Proof. intros (x0 & H0 & Hrun). apply (rtc_invariant monitor_step monitor_ok) with x0; [|done|by apply started_ok].
  intros s s' Hs H. by eapply monitor_step_ok. Qed.

(** After a tick, the targets shown are the engine's and those reported. *)
Lemma tick_targets x env tick id : monitor_ok x →
  is_Some (Health.targets (state (sync_tick (mon_engine x) (mon_owned x)) env tick (mon_health x)) !! id) →
  id ∈ TargetIDs (mon_engine x) ∨ id ∈ mon_reported x.
Proof.
  intros [He Hd] Hid.
  pose proof (wp_sync_tick (mon_engine x) (mon_owned x) env tick (mon_health x) (eo_keyed _ _ He)) as Hw. rewrite wp_run in Hw.
  destruct Hw as (Hcur & Hout & _). destruct (decide (id ∈ result (sync_tick (mon_engine x) (mon_owned x)) env tick (mon_health x))) as [Hin|Hn].
  - left. apply Hcur in Hin as [?|Hst]; [done|]. apply elem_of_dom in Hst. rewrite (eo_statuses _ _ He) in Hst.
    apply (eo_current _ _ He) in Hst. by apply elem_of_list_to_set in Hst.
  - rewrite Hout in Hid by done. case_decide as Ho; [by destruct Hid|]. apply elem_of_dom, Hd in Hid. set_solver.
Qed.


(** Every reload is a step: the engine takes the new configuration or none. *)
Lemma reload_steps moved loaded env tick e tr : ∃ tr', rtc engine_step (e, tr) (state (reload moved loaded) env tick e, tr').
Proof.
  destruct loaded as [cfg|err]; [|by exists tr]. eexists.
  assert (state (reload moved (inl cfg)) env tick e = state (ReloadConfig (RewriteSelfReferences cfg moved)) env tick e) as ->.
  { unfold reload, state, mbind, M_bind. by destruct (ReloadConfig _ _ _ _) as [[r t] e']. }
  apply rtc_once, step_reload.
Qed.

(** ** The lock *)

Lemma readPID_Itoa m path pid : mc_files m !! path = Some (Itoa pid) → 0 < pid < two63 → readPID m path = Some pid.
Proof.
  intros Hf Hr. unfold readPID. rewrite Hf. cbn [mbind option_bind]. rewrite TrimSpace_Itoa, Atoi_Itoa by lia.
  by rewrite (proj2 (Z.leb_gt pid 0)) by lia.
Qed.

(** The runtime lock is taken when it is free or stale, and only then. Without
    faults [acquireLock] succeeds exactly when the path is not blank and either no
    file is there or the file names a process that no longer runs; it then writes
    its own PID and changes no other file; a lock whose owner runs or cannot be
    read is left as it is. So a lock written by a process that runs stops every
    later attempt. *)
Theorem acquireLock_spec (self : Z) (path : string) (m : Machine) :
  let '(err, m') := acquireLock (mkLockFaults false false false) self path m in
  (err = None ↔ blank path = false ∧
     (mc_files m !! path = None ∨ ∃ pid, readPID m path = Some pid ∧ pid ∉ mc_alive m)) ∧
  (err = None → mc_files m' = <[path := Itoa self]> (mc_files m)) ∧
  (err ≠ None → m' = m) ∧
  (∀ pid, mc_files m !! path = Some (Itoa pid) → 0 < pid < two63 → pid ∈ mc_alive m → blank path = false → err = Some (ErrLockHeld pid)).
Proof.
  unfold acquireLock. cbn [lf_mkdir lf_create lf_remove]. destruct (blank path) eqn:Hb; [naive_solver|].
  destruct (mc_files m !! path) as [v|] eqn:Hf; [|naive_solver].
  destruct (readPID m path) as [pid|] eqn:Hp.
  - unfold isProcessRunning. case_bool_decide as Ha.
    + split_and!; try done; [naive_solver|]. intros pid' [= ->] Hr Ha' _. rewrite (readPID_Itoa m path pid') in Hp by done. naive_solver.
    + split_and!; [naive_solver| |done|].
      * intros _. cbn. by rewrite insert_delete_eq.
      * intros pid' [= ->] Hr Ha' _. rewrite (readPID_Itoa m path pid') in Hp by done. naive_solver.
  - split_and!; try done; [naive_solver|]. intros pid' [= ->] Hr _ _. by rewrite (readPID_Itoa m path pid') in Hp.
Qed.

(** ** On concrete inputs *)

Definition ex_server : Server := Health.NewServer (mkHealthOptions "" "" "" "" "" "" "" 0 0) 5.

Definition ex_started_monitor : Monitor := mkMonitor Engine.ex_started (mkTrace ∅ 3 3) ex_server ∅ ∅.
Definition ex_running : Monitor := mkMonitor (Engine.ex_run Engine.ex_healthy no_faults) Engine.ex_trace ex_server ∅ ∅.

Lemma ex_is_running : running ex_running.
Proof.
  exists ex_started_monitor. split.
  - exists ex_monitor, (Some (ex_baseline true)), None, (mkHealthOptions "" "" "" "" "" "" "" 0 0), 5. by repeat split.
  - apply rtc_once, on_check. apply (step_check Engine.ex_started (mkTrace ∅ 3 3) Handshake.ex_target (Engine.ex_visit Engine.ex_healthy no_faults)).
    apply list_elem_of_here.
Qed.


(** Two surfaces configured alike: the health listener gets the address, the hosted
    one moves up, and the targets that name the health listener, its self-check
    among them, are rewritten to the hosted server. *)
Definition next_port (name configured : string) : string + string :=
  if name =s ListenerHealth then inl configured else inl "localhost:18089".
Definition ex_shared : Config :=
  {| ex_monitor with
     cfg_Health := {| (cfg_Health ex_monitor) with hc_Enabled := true; hc_SelfCheck := true; hc_ListenAddr := "localhost:18088" |};
     cfg_Hosted := {| (cfg_Hosted ex_monitor) with hs_Enabled := true; hs_ListenAddr := "localhost:18088" |} |}.

Example shared_address_misdirects :
  let '(claimed, _, s) := run (claim_listeners next_port ex_shared) (frozen 9 "") 0 ex_server in
  listeners s !! ListenerHealth = Some "localhost:18088" ∧
  match claimed with
  | Some (_, _, moved) =>
      last (map tc_Endpoint (cfg_Targets (RewriteSelfReferences (withSelfCheckTarget ex_shared) (map_to_list moved))))
      = Some ("http://localhost:18089" +:+ hr_Status (hc_Endpoints (cfg_Health ex_shared)))
  | None => False
  end.
Proof. vm_compute. auto. Qed.

(** The usage text of [--federation] offers [downstream:], which is dropped without
    a word; federation is enabled all the same. *)
Example downstream_is_ignored :
  let fd := cfg_Federation (parseFederationFlag "downstream:localhost:8081" ex_monitor) in
  fd_Enabled fd = true ∧ fd_Introducer fd = fd_Introducer (cfg_Federation ex_monitor) ∧
  fd_Upstream fd = fd_Upstream (cfg_Federation ex_monitor).
Proof. vm_compute. auto. Qed.
