(* ===== verification/SelfDescription.v ===== *)
(** * The self-description ([internal/health/selfdescription.go], [features_loader.go])

    The document served at /.well-known/smoke-alarm.json, built from the
    configuration and the health server's state at the time of the request, and the
    Gherkin features a process registers of itself. *)

From Stdlib Require Import ZArith Lia Ascii.
From stdpp Require Import base tactics strings gmap sorting relations.
From stdpp Require Import list.
From S2P Require Import Prelude Bytes Durations KnownState Net Url Targets Config SelfRefs Discovery Engine DynamicConfig Health Serve.

Open Scope Z_scope.
Open Scope go_scope.

(** ** The document *)

Record SDService := mkSDService {
  sds_Name : string;
  sds_Version : string;
  sds_Mode : string;
  sds_Environment : string;
  sds_StartedAt : string;
}.
Record SDEndpoints := mkSDEndpoints {
  sde_Healthz : string;
  sde_Readyz : string;
  sde_Status : string;
  sde_SelfDescription : string;
}.
Record SDHealth := mkSDHealth { sdh_ListenAddr : string; sdh_Endpoints : SDEndpoints }.

Record SDMonitoring := mkSDMonitoring {
  sdm_Protocols : list string;
  sdm_Transports : list string;
  sdm_HandshakeProfiles : list string;
  sdm_RegressionDetect : bool;
  sdm_SafetyChecks : bool;
}.
Record SDDiscovery := mkSDDiscovery { sdd_Enabled : bool; sdd_Sources : list string; sdd_LLMSTxtURIs : list string }.
Record SDHosted := mkSDHosted {
  sdo_Enabled : bool;
  sdo_ListenAddr : string;
  sdo_Endpoints : gmap string string;
  sdo_Transports : list string;
  sdo_Protocols : list string;
}.
(** [SDOAuth] has this one field; the [$schema] of the document is always empty. *)
Record SDOAuthMockRedirect := mkSDOAuthMockRedirect {
  sdr_Enabled : bool;
  sdr_ListenAddr : string;
  sdr_Path : string;
  sdr_Mode : string;
}.
Record SDDynamicConfig := mkSDDynamicConfig { sdy_Enabled : bool; sdy_Formats : list string; sdy_ServeBaseURL : string }.
Record SDMetaConfig := mkSDMetaConfig { sdx_Enabled : bool; sdx_Formats : list string }.
Record SDFederation := mkSDFederation { sdf_Enabled : bool; sdf_Role : string }.
Record SDCapabilities := mkSDCapabilities {
  sdc_Monitoring : SDMonitoring;
  sdc_Discovery : SDDiscovery;
  sdc_Hosted : SDHosted;
  sdc_OAuth : SDOAuthMockRedirect;
  sdc_DynamicConfig : SDDynamicConfig;
  sdc_MetaConfig : SDMetaConfig;
  sdc_Federation : SDFederation;
}.

Record SDFilesystem := mkSDFilesystem { sdfs_Read : list string; sdfs_Write : list string }.
Record SDNetwork := mkSDNetwork { sdn_Probe : string; sdn_Listen : list string; sdn_OutboundDomains : list string }.
Record SDSecrets := mkSDSecrets { sdk_Keystore : bool; sdk_EnvRefs : list string; sdk_Redaction : bool }.
Record SDPermissions := mkSDPermissions {
  sdp_Filesystem : SDFilesystem;
  sdp_Network : SDNetwork;
  sdp_Secrets : SDSecrets;
}.

Record SDTarget := mkSDTarget {
  sdt_ID : string;
  sdt_Name : string;
  sdt_Protocol : string;
  sdt_Transport : string;
  sdt_Type : string;
  sdt_Endpoint : string;
  sdt_State : string;
  sdt_AuthType : string;
  sdt_HandshakeProfile : string;
  sdt_Enabled : bool;
}.

(** The map [mcp] is always empty. *)
Record SelfDescription := mkSelfDescription {
  sd_Version : string;
  sd_Service : SDService;
  sd_Health : SDHealth;
  sd_Capabilities : SDCapabilities;
  sd_Permissions : SDPermissions;
  sd_Targets : list SDTarget;
}.

(** ** Building it *)

(** [None] is no server. *)
Definition listenerAddrOr (srv : option Server) (name configured : string) : string :=
  match srv with
  | Some s => let addr := ListenerAddr s name in if addr =s "" then configured else addr
  | None => configured
  end.

Fixpoint dedup_go (seen : gset string) (ss : list string) : list string :=
  match ss with
  | [] => []
  | s :: ss => if decide (s ∈ seen) then dedup_go seen ss else s :: dedup_go ({[s]} ∪ seen) ss
  end.
Definition dedup (ss : list string) : list string := dedup_go ∅ ss.

(** The part before the separator, when it is not at the start. *)
Definition before (s : string) (c : ascii) : string :=
  match IndexByte s c with Some (S i) => stake (S i) s | _ => s end.
Definition domainFromURI (uri : string) : string :=
  let u := if HasPrefix uri "https://" then TrimPrefix uri "https://" else TrimPrefix uri "http://" in
  before (before u "/") ":".

Definition put_endpoint (name path : string) (m : gmap string string) : gmap string string :=
  if path =s "" then m else <[name := path]> m.

Definition discovery_sources (d : DiscoveryConfig) : list string :=
  if negb (dsc_Enabled d) then []
  else ["static"] ++ (match dsc_IncludeEnvVars d with [] => [] | _ => ["environment"] end)
    ++ (if lps_Enabled (dsc_LocalProxyScan d) then ["local_proxy"] else [])
    ++ (if cat_Enabled (dsc_CloudCatalog d) then ["cloud_catalog"] else [])
    ++ (if llm_Enabled (dsc_LLMSTxt d) then ["llms_txt"] else []).

Section Build.
Context (cfg : Config) (srv : option Server).

Definition oauth_mock : OAuthMockRedirectConfig := go_MockRedirect (ga_OAuth (cfg_Auth cfg)).
Definition health_addr : string := listenerAddrOr srv ListenerHealth (hc_ListenAddr (cfg_Health cfg)).
Definition hosted_addr : string := listenerAddrOr srv ListenerHosted (hs_ListenAddr (cfg_Hosted cfg)).
Definition oauth_addr : string := listenerAddrOr srv ListenerOAuthRedirect (mr_ListenAddr oauth_mock).

Definition buildCapabilities : SDCapabilities :=
  let h := cfg_Hosted cfg in
  let he := hs_Endpoints h in
  let endpoints := if hs_Enabled h then put_endpoint "a2a" (he_A2A he) (put_endpoint "acp" (he_ACP he) (put_endpoint "mcp" (he_MCP he) ∅)) else ∅ in
  let d := cfg_Discovery cfg in
  mkSDCapabilities
    (mkSDMonitoring ["mcp"; "acp"; "http"] ["http"; "https"; "sse"; "websocket"; "stdio"] ["none"; "base"; "strict"]
       (ks_Enabled (cfg_KnownState cfg))
       (existsb (λ t, match cc_HURLTests (tc_Check t) with [] => false | _ => true end) (cfg_Targets cfg)))
    (mkSDDiscovery (dsc_Enabled d) (discovery_sources d) (llm_RemoteURIs (dsc_LLMSTxt d)))
    (mkSDHosted (hs_Enabled h) hosted_addr endpoints (hs_Transports h) (hs_Protocols h))
    (mkSDOAuthMockRedirect (mr_Enabled oauth_mock) oauth_addr (mr_Path oauth_mock) (mr_Mode oauth_mock))
    (mkSDDynamicConfig (dy_Enabled (cfg_DynamicConfig cfg)) (dy_Formats (cfg_DynamicConfig cfg)) (dy_ServeBaseURL (cfg_DynamicConfig cfg)))
    (mkSDMetaConfig (mc_Enabled (cfg_MetaConfig cfg)) (mc_Formats (cfg_MetaConfig cfg)))
    (mkSDFederation (fd_Enabled (cfg_Federation cfg)) "standalone").

Definition listed (s : string) : list string := if s =s "" then [] else [s].

Definition env_refs_of (t : TargetConfig) : list string :=
  filter (λ r, HasPrefix r "env://" = true)
    (auth_SecretRef (tc_Auth t) :: match tc_OAuth t with Some o => [to_ClientSecretRef o] | None => [] end).

Definition buildPermissions : SDPermissions :=
  let r := cfg_Runtime cfg in
  let dy := cfg_DynamicConfig cfg in
  mkSDPermissions
    (mkSDFilesystem (["./configs/"] ++ listed (run_BaselineFile r) ++ dsc_IncludeLocalPath (cfg_Discovery cfg))
       ([run_StateDir r] ++ (if dy_Enabled dy then listed (dy_Directory dy) else []) ++ listed (run_LockFile r)))
    (mkSDNetwork "configured_targets_only"
       (dedup ([health_addr] ++ (if hs_Enabled (cfg_Hosted cfg) then listed hosted_addr else [])
               ++ (if mr_Enabled oauth_mock then listed oauth_addr else [])))
       (filter (λ d, d ≠ "") (map domainFromURI (llm_RemoteURIs (dsc_LLMSTxt (cfg_Discovery cfg))))))
    (mkSDSecrets (gk_Enabled (ga_Keystore (cfg_Auth cfg))) (dedup (concat (map env_refs_of (cfg_Targets cfg))))
       (rd_Enabled (ga_Redaction (cfg_Auth cfg)))).

Definition described_target (t : TargetConfig) : SDTarget :=
  let state := match srv with Some s => default "" (t_State <$> Health.targets s !! tc_ID t) | None => "" end in
  mkSDTarget (tc_ID t) (tc_Name t) (tc_Protocol t) (tc_Transport t) (tc_Type t) (tc_Endpoint t) state
    (auth_Type (tc_Auth t)) (cc_HandshakeProfile (tc_Check t)) (tc_Enabled t).
Definition buildTargets : list SDTarget := map described_target (filter (λ t, tc_Enabled t = true) (cfg_Targets cfg)).

Definition buildSelfDescription (appVersion : string) (startedAt : Time) : SelfDescription :=
  let s := cfg_Service cfg in
  let e := hc_Endpoints (cfg_Health cfg) in
  mkSelfDescription "1"
    (mkSDService (svc_Name s) appVersion (svc_Mode s) (svc_Environment s) (RFC3339 startedAt))
    (mkSDHealth health_addr (mkSDEndpoints (hr_Healthz e) (hr_Readyz e) (hr_Status e) "/.well-known/smoke-alarm.json"))
    buildCapabilities buildPermissions buildTargets.

End Build.

(** The handler's answer: the configuration is the one the factory was made with,
    the server the one of the request. *)
Definition serve_self_description (cfg : Config) (appVersion : string) (startedAt : Time) : M Server SelfDescription :=
  s ← get; mret (buildSelfDescription cfg (Some s) appVersion startedAt).

(** ** Features *)

(** [strings.Fields] *)
Definition Fields (s : string) : list string :=
  filter (λ f, f ≠ "") (Split (foldl (λ s r, ReplaceAll s r " ") s space_runes) " ").

Record FeatureText := mkFeatureText { ft_Tags : list string; ft_Name : string; ft_Scenarios : Z }.

Definition feature_line (f : FeatureText) (line : string) : FeatureText :=
  let line := TrimSpace line in
  if (line =s "") || HasPrefix line "#" then f
  else if HasPrefix line "@" then {| f with ft_Tags := ft_Tags f ++ Fields line |}
  else if HasPrefix line "Feature:" then {| f with ft_Name := TrimSpace (TrimPrefix line "Feature:") |}
  else if HasPrefix line "Scenario:" || HasPrefix line "Scenario Outline:" then {| f with ft_Scenarios := ft_Scenarios f + 1 |}
  else f.

Definition feature_id (path : string) : string :=
  "ocd/" +:+ TrimPrefix (TrimSuffix (TrimPrefix path "features/") ".feature") "step_definitions/".

(** [None] is a file that cannot be opened, or the scanner's error. *)
Definition parseFeatureFile (path : string) (content : option string) : option Feature :=
  content ← content;
  let lines := text_lines content in
  if existsb line_too_long lines then None
  else
    let f := foldl feature_line (mkFeatureText [] "" 0) lines in
    Some (mkFeature (feature_id path) (if ft_Name f =s "" then TrimSuffix (Base path) ".feature" else ft_Name f) path
      (ft_Tags f) (ft_Scenarios f) "unclaimed" 0 0).

(** What the walk of the directory visits, in order; an error ends it. *)
Record WalkEntry := mkWalkEntry { we_Path : string; we_Err : bool; we_IsDir : bool; we_Content : option string }.

Fixpoint RegisterFeaturesFromDir (walk : list WalkEntry) : M Server unit :=
  match walk with
  | [] => mret tt
  | w :: walk =>
      if we_Err w then mret tt
      else if we_IsDir w || negb (HasSuffix (we_Path w) ".feature") then RegisterFeaturesFromDir walk
      else
        _ ← match parseFeatureFile (we_Path w) (we_Content w) with Some f => RegisterFeature f | None => mret tt end;
        RegisterFeaturesFromDir walk
  end.

(** ** Where the process serves *)

Lemma dedup_go_spec ss : ∀ seen, NoDup (dedup_go seen ss) ∧ ∀ s, s ∈ dedup_go seen ss ↔ s ∈ ss ∧ s ∉ seen.
Proof.
  induction ss as [|s ss IH]; intros seen; cbn [dedup_go].
  { split; [constructor|]. intros s. split; [by intros ?%elem_of_nil|by intros [?%elem_of_nil _]]. }
  destruct (decide (s ∈ seen)) as [Hs|Hs].
  - destruct (IH seen) as [Hn Hi]. split; [done|]. intros s'. rewrite Hi, elem_of_cons. naive_solver.
  - destruct (IH ({[s]} ∪ seen)) as [Hn Hi]. split.
    + apply NoDup_cons. split; [|done]. rewrite Hi. set_solver.
    + intros s'. rewrite !elem_of_cons, Hi. destruct (decide (s' = s)) as [->|Hne]; [naive_solver|]. set_solver.
Qed.

Lemma dedup_spec ss : NoDup (dedup ss) ∧ ∀ s, s ∈ dedup ss ↔ s ∈ ss.
Proof. destruct (dedup_go_spec ss ∅) as [Hn Hi]. split; [done|]. intros s. unfold dedup. rewrite Hi. set_solver. Qed.

Section Claimed.
Context (bind : Binder).
Context (Hclean : ∀ name configured addr, bind name configured = inl addr → TrimSpace addr = addr ∧ addr ≠ "").

(** What a claim is given. *)
Definition claimed (enabled : bool) (name configured : string) : option string :=
  if enabled then match bind name configured with inl addr => Some addr | inr _ => None end else None.

(** The address of a listener: the bound one, or the configured one for a surface
    that is disabled or lost its port. *)
Definition served_at (enabled : bool) (name configured : string) : string := default configured (claimed enabled name configured).

Lemma wp_claim_if enabled name configured moved env tick s : TrimSpace name = name → name ≠ "" → listeners s !! name = None →
  wp (claim_if bind enabled name configured moved) env tick s (λ r _ s',
    r.1 = bool_decide (is_Some (claimed enabled name configured)) ∧ listeners s' !! name = claimed enabled name configured ∧
    ∀ n, n ≠ name → listeners s' !! n = listeners s !! n).
Proof.
  intros Ht Hn Hs. apply streq_false in Hn. unfold claim_if, claim, claimed, ClaimListener, SetListener, SetComponent. rewrite Ht, Hn.
  destruct enabled; [|by wp_go]. destruct (bind name configured) as [addr|err] eqn:Hb; [|by wp_go].
  destruct (Hclean _ _ _ Hb) as [-> Ha]. rewrite (proj2 (streq_false _ _) Ha). cbn [orb]. wp_go. cbn [listeners]. split_and!; [done| |].
  - by rewrite lookup_insert_eq.
  - intros n Hne. by rewrite lookup_insert_ne.
Qed.

Lemma listenerAddrOr_claimed s enabled name configured : TrimSpace name = name → listeners s !! name = claimed enabled name configured →
  listenerAddrOr (Some s) name configured = served_at enabled name configured.
Proof.
  intros Ht Hs. unfold listenerAddrOr, ListenerAddr, served_at. rewrite Ht, Hs. unfold claimed.
  destruct enabled; [|done]. destruct (bind name configured) as [addr|err] eqn:Hb; [|done]. apply Hclean in Hb as [_ Ha].
  cbn. by apply streq_false in Ha as ->.
Qed.

Context (cfg : Config).
Abbreviation hosted_enabled := (hs_Enabled (cfg_Hosted cfg)).
Abbreviation oauth_enabled := (mr_Enabled (oauth_mock cfg)).

(** Which surfaces a start claimed, with their addresses in the document. *)
Definition claims_described (s : Server) (hosted oauth : bool) : Prop :=
  health_addr cfg (Some s) = served_at (hc_Enabled (cfg_Health cfg)) ListenerHealth (hc_ListenAddr (cfg_Health cfg)) ∧
  hosted_addr cfg (Some s) = served_at hosted_enabled ListenerHosted (hs_ListenAddr (cfg_Hosted cfg)) ∧
  oauth_addr cfg (Some s) = served_at oauth_enabled ListenerOAuthRedirect (mr_ListenAddr (oauth_mock cfg)) ∧
  (hc_Enabled (cfg_Health cfg) = true → is_Some (claimed true ListenerHealth (hc_ListenAddr (cfg_Health cfg)))) ∧
  hosted = bool_decide (is_Some (claimed hosted_enabled ListenerHosted (hs_ListenAddr (cfg_Hosted cfg)))) ∧
  oauth = bool_decide (is_Some (claimed oauth_enabled ListenerOAuthRedirect (mr_ListenAddr (oauth_mock cfg)))).

Lemma wp_claim_listeners env tick s : listeners s = ∅ → wp (claim_listeners bind cfg) env tick s (λ r _ s',
  ∀ hosted oauth moved, r = Some (hosted, oauth, moved) → claims_described s' hosted oauth).
Proof.
  intros Hs. unfold claim_listeners. wp_go. eapply wp_mono; [apply wp_claim_if; by rewrite ?Hs|]. intros [hb m1] t1 s1 (Hb1 & Hl1 & Ho1). cbn [fst] in *.
  destruct (hc_Enabled (cfg_Health cfg) && negb hb) eqn:Hlost; wp_go; [done|].
  eapply wp_mono; [apply wp_claim_if; [done..|by rewrite Ho1, Hs]|]. intros [ob m2] t2 s2 (Hb2 & Hl2 & Ho2). wp_go.
  eapply wp_mono; [apply wp_claim_if; [done..|by rewrite Ho2, Ho1, Hs]|]. intros [mb m3] t3 s3 (Hb3 & Hl3 & Ho3). wp_go.
  intros hosted oauth moved [= <- <- <-]. cbn [fst] in *. unfold claims_described. split_and!; try done.
  - apply listenerAddrOr_claimed; [done|]. by rewrite Ho3, Ho2.
  - apply listenerAddrOr_claimed; [done|]. by rewrite Ho3.
  - by apply listenerAddrOr_claimed.
  - intros Hh. rewrite Hh in Hlost, Hb1. cbn [andb] in Hlost. apply negb_false_iff in Hlost. rewrite Hlost in Hb1. symmetry in Hb1. by apply bool_decide_eq_true in Hb1.
Qed.

Lemma described_claim enabled name configured : is_Some (claimed enabled name configured) →
  bind name configured = inl (served_at enabled name configured).
Proof. unfold served_at, claimed. destruct enabled; [|by intros []]. destruct (bind name configured); [done|by intros []]. Qed.

(** C29: the document names the ports that are served. After a start that claimed
    its listeners, whatever moved, the self-description gives the health listener,
    and the hosted and the OAuth surface when they have their ports, at the
    addresses that were bound; the permissions list the addresses of the enabled
    listeners, each once. *)
Theorem described_where_bound (opts : HealthOptions) (now : Time) (env : Env) (tick : nat) (version : string) (startedAt : Time)
    (hosted oauth : bool) (moved : gmap string string) (order : list (string * string))
    (Hrun : result (claim_listeners bind cfg) env tick (Health.NewServer opts now) = Some (hosted, oauth, moved)) :
  let s := state (claim_listeners bind cfg) env tick (Health.NewServer opts now) in
  let doc := buildSelfDescription (RewriteSelfReferences cfg order) (Some s) version startedAt in
  let cap := sd_Capabilities doc in
  let listen := sdn_Listen (sdp_Network (sd_Permissions doc)) in
  (hc_Enabled (cfg_Health cfg) = true → bind ListenerHealth (hc_ListenAddr (cfg_Health cfg)) = inl (sdh_ListenAddr (sd_Health doc))) ∧
  (hosted = true → bind ListenerHosted (hs_ListenAddr (cfg_Hosted cfg)) = inl (sdo_ListenAddr (sdc_Hosted cap))) ∧
  (oauth = true → bind ListenerOAuthRedirect (mr_ListenAddr (oauth_mock cfg)) = inl (sdr_ListenAddr (sdc_OAuth cap))) ∧
  NoDup listen ∧
  ∀ a, a ∈ listen ↔ a = sdh_ListenAddr (sd_Health doc) ∨ (sdo_Enabled (sdc_Hosted cap) = true ∧ a = sdo_ListenAddr (sdc_Hosted cap) ∧ a ≠ "") ∨
    (sdr_Enabled (sdc_OAuth cap) = true ∧ a = sdr_ListenAddr (sdc_OAuth cap) ∧ a ≠ "").
Proof.
  intros s doc cap listen. pose proof (wp_claim_listeners env tick (Health.NewServer opts now) eq_refl) as Hw. rewrite wp_run in Hw.
  destruct (Hw _ _ _ Hrun) as (Hh & Ho & Hm & Hhs & Hhb & Hmb).
  assert (health_addr (RewriteSelfReferences cfg order) (Some s) = health_addr cfg (Some s) ∧
    hosted_addr (RewriteSelfReferences cfg order) (Some s) = hosted_addr cfg (Some s) ∧
    oauth_addr (RewriteSelfReferences cfg order) (Some s) = oauth_addr cfg (Some s) ∧
    hs_Enabled (cfg_Hosted (RewriteSelfReferences cfg order)) = hosted_enabled ∧
    mr_Enabled (oauth_mock (RewriteSelfReferences cfg order)) = oauth_enabled) as (E1 & E2 & E3 & E4 & E5) by by destruct order.
  subst listen cap doc. cbn [buildSelfDescription sd_Health sd_Capabilities sd_Permissions buildPermissions buildCapabilities sdh_ListenAddr sdc_Hosted
    sdc_OAuth sdo_ListenAddr sdo_Enabled sdr_ListenAddr sdr_Enabled sdp_Network sdn_Listen]. rewrite E1, E2, E3, E4, E5. fold s in Hh, Ho, Hm.
  split_and!.
  - intros He. rewrite Hh, He. by apply described_claim, Hhs.
  - intros ->. rewrite Ho. symmetry in Hhb. apply bool_decide_eq_true in Hhb. by apply described_claim.
  - intros ->. rewrite Hm. symmetry in Hmb. apply bool_decide_eq_true in Hmb. by apply described_claim.
  - apply dedup_spec.
  - intros a. rewrite (proj2 (dedup_spec _)). assert (∀ v, a ∈ listed v ↔ a = v ∧ a ≠ "") as Hl.
    { intros v. unfold listed. destruct (v =s "") eqn:Hv; [apply streq_true in Hv as ->|apply streq_false in Hv];
        rewrite ?list_elem_of_singleton, ?elem_of_nil; naive_solver. }
    rewrite !elem_of_app, list_elem_of_singleton. destruct hosted_enabled, oauth_enabled; rewrite ?Hl, ?elem_of_nil; intuition congruence.
Qed.
End Claimed.

(** ** What the targets are said to be *)

(** The document follows the engine. After a tick of the loop, whatever came
    before it, the self-description lists the enabled targets of its configuration
    in their order; a target the engine has checked since the last reload is in the
    state of that check, and one that neither the engine has nor another instance
    reported is in none. *)
Theorem described_states (x : Monitor) (env : Env) (tick : nat) (cfg : Config) (version : string) (startedAt : Time) (Hx : running x) :
  let e := mon_engine x in
  let h' := state (sync_tick e (mon_owned x)) env tick (mon_health x) in
  let doc := buildSelfDescription cfg (Some h') version startedAt in
  map sdt_ID (sd_Targets doc) = map tc_ID (EnabledTargets cfg) ∧
  ∀ row, row ∈ sd_Targets doc →
    (∀ st, en_statuses e !! sdt_ID row = Some st → blank (sdt_ID row) = false →
       sdt_State row = (let s := ToLower (TrimSpace (rs_State st)) in if s =s "" then "unknown" else s)) ∧
    (sdt_ID row ∉ TargetIDs e → sdt_ID row ∉ mon_reported x → sdt_State row = "").
Proof.
  intros e h' doc. destruct (running_ok _ Hx) as [He Hd].
  pose proof (wp_sync_tick e (mon_owned x) env tick (mon_health x) (eo_keyed _ _ He)) as Hw. rewrite wp_run in Hw. fold h' in Hw.
  destruct Hw as (Hcur & Hout & Hrows & _). subst doc. cbn [buildSelfDescription sd_Targets]. unfold buildTargets. split.
  { rewrite map_map. unfold EnabledTargets. by apply map_ext. }
  intros row (t & -> & Ht)%list_elem_of_fmap. cbn [described_target sdt_ID sdt_State]. split.
  - intros st Hst Hb. destruct (Hrows _ _ Hst Hb) as (row & (checked & state & -> & _ & Hs) & ->). cbn. done.
  - intros Hid Hrep. destruct (Health.targets h' !! tc_ID t) eqn:Hr; [|done].
    destruct (tick_targets x env tick (tc_ID t) (running_ok _ Hx)); [by eexists|done..].
Qed.

(** ** On concrete inputs *)

(** The health listener moves up a port, the hosted surface finds none. *)
Definition crowded (name configured : string) : string + string :=
  if name =s ListenerHealth then inl "localhost:18089" else inr "address already in use".

Lemma crowded_clean name configured addr : crowded name configured = inl addr → TrimSpace addr = addr ∧ addr ≠ "".
Proof. unfold crowded. case_match; [|done]. by intros [= <-]. Qed.

Definition ex_document : SelfDescription :=
  buildSelfDescription ex_shared (Some (state (claim_listeners crowded ex_shared) (frozen 9 "") 0 ex_server)) "1.0" 0.

Lemma described_where_bound_witness :
  let cap := sd_Capabilities ex_document in
  let listen := sdn_Listen (sdp_Network (sd_Permissions ex_document)) in
  listen = ["localhost:18089"; "localhost:18088"] ∧
  (hc_Enabled (cfg_Health ex_shared) = true →
     crowded ListenerHealth (hc_ListenAddr (cfg_Health ex_shared)) = inl (sdh_ListenAddr (sd_Health ex_document))) ∧
  (false = true → crowded ListenerHosted (hs_ListenAddr (cfg_Hosted ex_shared)) = inl (sdo_ListenAddr (sdc_Hosted cap))).
Proof.
  split; [vm_compute; reflexivity|].
  destruct (described_where_bound crowded crowded_clean ex_shared (mkHealthOptions "" "" "" "" "" "" "" 0 0) 5 (frozen 9 "") 0 "1.0" 0
    false false {["localhost:18088" := "localhost:18089"]} []) as (H1 & H2 & _); [vm_compute; reflexivity|].
  split; [exact H1|exact H2].
Defined.

Lemma described_states_witness :
  let e := mon_engine ex_running in
  let h' := state (sync_tick e (mon_owned ex_running)) (frozen 10 "") 0 (mon_health ex_running) in
  let doc := buildSelfDescription ex_monitor (Some h') "1.0" 0 in
  map (λ t, (sdt_ID t, sdt_State t)) (sd_Targets doc) = [("t", "healthy")] ∧
  map sdt_ID (sd_Targets doc) = map tc_ID (EnabledTargets ex_monitor).
Proof.
  split; [vm_compute; reflexivity|].
  exact (proj1 (described_states ex_running (frozen 10 "") 0 ex_monitor "1.0" 0 ex_is_running)).
Defined.

(** A surface that lost its port is described as if it served at the address it
    asked for, where another process listens. *)
Example lost_surface_described :
  let hosted := sdc_Hosted (sd_Capabilities ex_document) in
  (sdo_Enabled hosted, sdo_ListenAddr hosted) = (true, "localhost:18088") ∧
  c_Healthy <$> components (state (claim_listeners crowded ex_shared) (frozen 9 "") 0 ex_server) !! ListenerHosted = Some false.
Proof. vm_compute. auto. Qed.

(** A reload changes the engine's targets and not the configuration the document
    is made from. *)
Example reload_not_described :
  let e := state (reload [] (inl {| ex_monitor with cfg_Targets := [] |})) (frozen 9 "") 0 (mon_engine ex_running) in
  TargetIDs e = [] ∧ map sdt_ID (sd_Targets (buildSelfDescription ex_monitor (Some ex_server) "1.0" 0)) = ["t"].
Proof. vm_compute. auto. Qed.

(** The domain of a URI with a user, an IPv6 host, or a query behind the host. *)
Example domains_misread :
  map domainFromURI ["https://h.example:8443/llms.txt"; "https://me:pw@h.example/llms.txt"; "https://[::1]/llms.txt"; "https://h.example?v=2"] =
  ["h.example"; "me"; "["; "h.example?v=2"].
Proof. vm_compute. reflexivity. Qed.

(** A member of a federation calls itself standalone, and the baseline, which the
    known-state store writes, is listed as read only. *)
Example federation_and_baseline_misdescribed :
  let cfg := {| ex_monitor with
    cfg_Federation := {| (cfg_Federation ex_monitor) with fd_Enabled := true |};
    cfg_Runtime := {| (cfg_Runtime ex_monitor) with run_BaselineFile := "known.json"; run_StateDir := "state" |} |} in
  let doc := buildSelfDescription cfg None "1.0" 0 in
  sdc_Federation (sd_Capabilities doc) = mkSDFederation true "standalone" ∧
  sdp_Filesystem (sd_Permissions doc) = mkSDFilesystem ["./configs/"; "known.json"] ["state"].
Proof. vm_compute. auto. Qed.

Definition ex_feature : string :=
  Join ["# about"; "@a  @b"; "Feature: Sum"; "  text"; "  Scenario: one"; "  Scenario Template: two"; "  Example: three"] (byte_of 10).

(** Of the keywords that open a scenario two are counted; a file of the step
    definitions shares its ID with the one above it. *)
Example feature_parsing :
  match parseFeatureFile "features/sum.feature" (Some ex_feature) with
  | Some f => (f_ID f, f_Name f, f_Tags f, f_Scenarios f, f_Status f) = ("ocd/sum", "Sum", ["@a"; "@b"], 1, "unclaimed")
  | None => False
  end ∧ feature_id "features/step_definitions/sum.feature" = feature_id "features/sum.feature".
Proof. vm_compute. auto. Qed.
