(* ===== verification/Facade.v ===== *)
(** * The embeddable facade ([pkg/smokealarm/smokealarm.go])

    An instance of the engine and its health server inside another process. Its
    operations are programs on the instance; [Start] returns once the goroutines of
    the engine and the server are launched, whose own steps are those of [Runs] and
    [Serve]. Binding a port is a parameter, as is the success of the mDNS advertiser;
    the telemetry exporter and the trust configuration are left out. *)

From Stdlib Require Import ZArith Lia Ascii.
From stdpp Require Import base tactics strings gmap sorting.
From stdpp Require Import list.
From S2P Require Import Prelude Bytes Durations KnownState Net Url UrlText Targets Config SelfRefs Safety Engine Alerts Health Serve SelfDescription.

Open Scope Z_scope.
Open Scope go_scope.

(** ** Data *)

Record FacadeOptions := mkFacadeOptions {
  fo_Version : string;
  fo_HealthSyncInterval : Duration;
  fo_FeaturesDir : string;
  fo_Strict : bool;
}.

(** What the mDNS advertiser is given. *)
Record Advert := mkAdvert { ad_ServiceName : string; ad_ServiceType : string; ad_Port : Z }.

Record Instance := mkInstance {
  in_cfg : Config;
  in_opts : FacadeOptions;
  in_eng : Engine;
  in_notifier : option (list Sink);
  in_hs : option Server;
  in_unsupported : list string;
  in_started : bool;
  in_addr : string;
  in_advertiser : option Advert;
  in_launched : nat;              (* the calls of the engine's Start *)
}.

Inductive facade_error :=
  | ErrUnsupported (what : list string)
  | ErrBuild (e : compile_error)
  | ErrStarted
  | ErrBind (e : listen_error).

(** ** Construction *)

Definition default_facade_options (o : FacadeOptions) : FacadeOptions :=
  mkFacadeOptions (if fo_Version o =s "" then "dev" else fo_Version o)
    (if fo_HealthSyncInterval o <=? 0 then Second else fo_HealthSyncInterval o) (fo_FeaturesDir o) (fo_Strict o).

Definition facade_duration (raw : string) (def : Duration) : Duration :=
  if raw =s "" then def
  else match ParseDuration raw with Some d => if d <=? 0 then def else d | None => def end.

(** The subsystems the facade does not run, and whether the configuration enables
    them. *)
Definition not_run (cfg : Config) : list (bool * string) :=
  [(hs_Enabled (cfg_Hosted cfg), "hosted validation server (hosted.enabled)");
   (dsc_Enabled (cfg_Discovery cfg), "discovery (discovery.enabled)");
   (dy_Enabled (cfg_DynamicConfig cfg), "dynamic config persistence (dynamic_config.enabled)");
   (fd_Enabled (cfg_Federation cfg), "federation (federation.enabled)");
   (mr_Enabled (go_MockRedirect (ga_OAuth (cfg_Auth cfg))), "oauth mock redirect server (auth.oauth.mock_redirect.enabled)");
   (ra_ManagedUpdates (cfg_RemoteAgent cfg), "remote agent managed updates (remote_agent.managed_updates)");
   (EqualFold (TrimSpace (svc_Mode (cfg_Service cfg))) ModeForeground, "foreground TUI (service.mode)")].
Definition unsupportedEnabled (cfg : Config) : list string :=
  sort_strings (map snd (filter (λ p, p.1 = true) (not_run cfg))).

(** Line for line the command's own. *)
Definition withSelfCheck (cfg : Config) : Config := withSelfCheckTarget cfg.

(** The store of [engineOptions], on the files of the host. *)
Definition facade_store (cfg : Config) (files : Disk) : option World :=
  let k := cfg_KnownState cfg in
  if ks_Enabled k then
    Some (mkWorld (NewStore (run_BaselineFile (cfg_Runtime cfg))
      [WithAutoPersist (ks_Persist k); WithSustainSuccess (ks_SustainSuccessBeforeMarkHealthy k)]) files)
  else None.

Definition facade_health (cfg : Config) (o : FacadeOptions) : HealthOptions :=
  let h := cfg_Health cfg in
  let e := hc_Endpoints h in
  mkHealthOptions (svc_Name (cfg_Service cfg)) (fo_Version o) (hc_ListenAddr h) (hr_Healthz e) (hr_Readyz e) (hr_Status e) ""
    (facade_duration (run_GracefulShutdownTimeout (cfg_Runtime cfg)) (10 * Second))
    (facade_duration (hc_IsotopeTTL h) DefaultIsotopeTTL).

(** The server as [New] leaves it. *)
Definition facade_server (cfg : Config) (o : FacadeOptions) (features : list WalkEntry) (now : Time) : M Server unit :=
  _ ← (if fo_FeaturesDir o =s "" then mret tt else RegisterFeaturesFromDir features);
  _ ← SetComponent "engine" false "waiting for initial target checks";
  SetReady false "engine not ready".

Definition New (cfg : Config) (o : FacadeOptions) (files : Disk) (scanner : option Scanner) (features : list WalkEntry)
  (env : Env) (tick : nat) : Instance + facade_error :=
  let o := default_facade_options o in
  let cfg := withSelfCheck (ApplyDefaults cfg) in
  let unsupported := unsupportedEnabled cfg in
  if fo_Strict o && negb (bool_decide (unsupported = [])) then inr (ErrUnsupported unsupported)
  else
    match NewEngine cfg (facade_store cfg files) scanner with
    | inr e => inr (ErrBuild e)
    | inl eng =>
        let hs := if hc_Enabled (cfg_Health cfg)
                  then Some (state (facade_server cfg o features (env_clock env tick)) env (S tick)
                               (Health.NewServer (facade_health cfg o) (env_clock env tick)))
                  else None in
        inl (mkInstance cfg o eng (NotifierFromConfig cfg true) hs unsupported false "" None 0)
    end.

(** ** Operations *)

Definition on_engine {A} (m : M Engine A) : M Instance A := zoom in_eng (λ e i, {| i with in_eng := e |}) m.
(** Nothing happens to a server that is not there. *)
Definition on_health (m : M Server unit) : M Instance unit :=
  i ← get;
  match in_hs i with
  | Some hs => zoom (λ i, default hs (in_hs i)) (λ s i, {| i with in_hs := Some s |}) m
  | None => mret tt
  end.

(** The self references follow the health port when it moved; a configuration the
    engine refuses leaves them. *)
Definition follow_port (bound : string) : M Instance unit :=
  i ← get;
  let configured := hc_ListenAddr (cfg_Health (in_cfg i)) in
  if bound =s configured then mret tt
  else
    let rewritten := RewriteSelfReferences (in_cfg i) [(configured, bound)] in
    r ← on_engine (ReloadConfig rewritten);
    match r with
    | inr _ => mret tt
    | inl _ => modify (λ i, {| i with in_cfg := rewritten |})
    end.

Definition advertise (mdns : bool) (bound : string) : M Instance unit :=
  i ← get;
  let t := cfg_Tuner (in_cfg i) in
  if tn_Advertise t && mdns then
    modify (λ i, {| i with in_advertiser := Some (mkAdvert (svc_Name (cfg_Service (in_cfg i))) (tn_ServiceType t) (ParsePort bound)) |})
  else mret tt.

Definition launch : M Instance unit := modify (λ i, {| i with in_launched := S (in_launched i) |}).

Definition Start (try : string → bind_result) (mdns : bool) : M Instance (option facade_error) :=
  i ← get;
  if in_started i then mret (Some ErrStarted)
  else
    _ ← modify (λ i, {| i with in_started := true |});
    match in_hs i with
    | None => _ ← launch; mret None
    | Some hs =>
        match Listen try (ho_ListenAddr (hs_opts hs)) 10 with
        | inr e => mret (Some (ErrBind e))
        | inl bound =>
            _ ← on_health (SetListener ListenerHealth bound);
            _ ← modify (λ i, {| i with in_addr := bound |});
            _ ← follow_port bound;
            _ ← advertise mdns bound;
            _ ← launch;
            mret None
        end
    end.

(** Whether anything was stopped; the wait for the engine is that of [Runs]. *)
Definition Shutdown : M Instance bool :=
  i ← get;
  if negb (in_started i) then mret false
  else
    _ ← modify (λ i, {| i with in_started := false |});
    _ ← on_health (SetLive false);
    mret true.

Definition Reload (cfg : Config) : M Instance (option compile_error) :=
  let cfg := withSelfCheck (ApplyDefaults cfg) in
  r ← on_engine (ReloadConfig cfg);
  match r with
  | inr e => mret (Some e)
  | inl removed =>
      _ ← modify (λ i, {| i with in_cfg := cfg |});
      _ ← on_health (remove_targets removed);
      mret None
  end.

Definition Unsupported (i : Instance) : list string := in_unsupported i.
Definition Addr (i : Instance) : string := in_addr i.
Definition StatusURL (i : Instance) : string :=
  if in_addr i =s "" then ""
  else
    let path := hr_Status (hc_Endpoints (cfg_Health (in_cfg i))) in
    "http://" +:+ in_addr i +:+ (if path =s "" then "/status" else path).

(** One tick of [syncHealthLoop], which is the command's. *)
Definition facade_sync (owned : gset string) : M Instance (gset string) :=
  i ← get;
  match in_hs i with
  | Some hs => zoom (λ i, default hs (in_hs i)) (λ s i, {| i with in_hs := Some s |}) (sync_tick (in_eng i) owned)
  | None => mret owned
  end.

(** ** Moving a port in a text *)

Definition name_byte (c : ascii) : bool := is_letter c || is_dec c || one_of "-._" c.
Definition path_plain (c : ascii) : bool := negb (shouldEscape encodePath c) && path_byte c.

(** A host that is a name, with a port. *)
Record host_port (host port : string) : Prop := {
  hp_name : all_bytes name_byte host = true;
  hp_host : host ≠ "";
  hp_port : all_bytes is_dec port = true;
}.
Record plain_path (path : string) : Prop := {
  pp_bytes : all_bytes path_plain path = true;
  pp_root : HasPrefix path "/" = true;
}.

Definition listener_url (host port path : string) : URL :=
  mkURL "http" "" None (host +:+ ":" +:+ port) path "" false false "" "" "".

Lemma name_no_byte c s : name_byte c = false → all_bytes name_byte s = true → has_byte c s = false.
Proof. intros Hc Hs. by eapply all_bytes_no_byte. Qed.

Lemma is_dec_all c s : is_dec c = false → all_bytes is_dec s = true → has_byte c s = false.
Proof. intros Hc Hs. by eapply all_bytes_no_byte. Qed.

Lemma name_plain_host c : name_byte c || is_dec c || bool_decide (c = ":"%char) = true → plain_host_byte c = true ∧ negb (shouldEscape encodeHost c) = true.
Proof.
  intros H. pose proof (ascii_all_spec (λ c, negb (name_byte c || is_dec c || bool_decide (c = ":"%char)) ||
    (plain_host_byte c && negb (shouldEscape encodeHost c))) eq_refl c) as Hall. cbv beta in Hall. rewrite H in Hall. by apply andb_true_iff in Hall.
Qed.

Lemma host_port_bytes host port : host_port host port →
  all_bytes (λ c, name_byte c || is_dec c || bool_decide (c = ":"%char)) (host +:+ ":" +:+ port) = true.
Proof.
  intros [Hn _ Hp]. rewrite !all_bytes_app, !andb_true_iff. split_and!; [|done|].
  - revert Hn. apply all_bytes_mono. by intros c ->.
  - revert Hp. apply all_bytes_mono. intros c ->. by rewrite orb_true_r.
Qed.

Lemma host_port_ok host port : host_port host port →
  host_ok (host +:+ ":" +:+ port) ∧ escape encodeHost (host +:+ ":" +:+ port) = host +:+ ":" +:+ port.
Proof.
  intros H. pose proof (host_port_bytes _ _ H) as Hb. split.
  - apply plain_host_ok; [revert Hb; apply all_bytes_mono; intros c Hc; by apply name_plain_host|].
    destruct H as [_ _ Hp]. unfold port_ok, LastIndexByte. change (":" +:+ port) with (String ":" port).
    rewrite last_index_app by by apply is_dec_all. cbn [plus]. by rewrite sdrop_app_S.
  - apply escape_id. revert Hb. apply all_bytes_mono. intros c Hc. by apply name_plain_host.
Qed.

Lemma plain_path_escape path : plain_path path → escape encodePath path = path.
Proof. intros [Hb _]. apply escape_id. revert Hb. apply all_bytes_mono. by intros c [? _]%andb_true_iff. Qed.

Lemma listener_url_path host port path : plain_path path → EscapedPath (listener_url host port path) = path.
Proof.
  intros Hp. unfold EscapedPath. cbn [url_RawPath url_Path listener_url]. unfold raw_usable. cbn [streq].
  change ("" =s "") with true. cbn [negb andb]. rewrite (plain_path_escape _ Hp).
  destruct (path =s "*") eqn:E; [by apply streq_true in E|done].
Qed.

Lemma listener_url_writable host port path : host_port host port → plain_path path → writable (listener_url host port path).
Proof.
  intros Hh Hp. split; cbn [url_Scheme url_Opaque url_Host url_OmitHost url_RawQuery url_ForceQuery listener_url]; try done.
  - by right.
  - destruct Hh as [_ Hne _]. by destruct host.
  - by apply host_port_ok.
  - rewrite listener_url_path by done. right. by destruct Hp.
Qed.

Lemma listener_url_text host port path : host_port host port → plain_path path →
  URL_String (listener_url host port path) = "http://" +:+ (host +:+ ":" +:+ port) +:+ path.
Proof.
  intros Hh Hp. rewrite URL_String_writable by by apply listener_url_writable.
  unfold scheme_text, hierarchy_text, query_text, fragment_text, authority_text.
  cbn [url_Scheme url_User url_Host url_RawQuery url_ForceQuery url_Fragment listener_url].
  rewrite listener_url_path by done. rewrite (proj2 (host_port_ok _ _ Hh)). cbn [streq orb]. change ("" =s "") with true. cbn [negb].
  change (("http" =s "")) with false. cbv iota. rewrite !sapp_nil_r. by rewrite !sapp_assoc.
Qed.

Lemma listener_text_parses host port path : host_port host port → plain_path path →
  Parse ("http://" +:+ (host +:+ ":" +:+ port) +:+ path) = Some (listener_url host port path).
Proof.
  intros Hh Hp. rewrite <- listener_url_text by done. pose proof (listener_url_writable _ _ _ Hh Hp) as Hw.
  rewrite URL_String_writable by done. unfold Parse. set (main := scheme_text _ +:+ hierarchy_text _ +:+ query_text _).
  change (fragment_text (listener_url host port path)) with "". rewrite sapp_nil_r.
  rewrite cut_at_none by (eapply all_bytes_no_byte; [|by apply main_bytes]; done). change ("" =s "") with true. cbv iota.
  subst main. rewrite parse_main by done. cbn [mbind option_bind]. unfold written_path, raw_of.
  rewrite listener_url_path by done. cbn [url_Path listener_url]. rewrite (plain_path_escape _ Hp), streq_refl. done.
Qed.

Lemma host_port_space c : name_byte c || is_dec c || bool_decide (c = ":"%char) = true →
  Forall (λ r, has_byte c r = false) space_runes ∧ has_byte c "/" = false.
Proof.
  intros Hc. pose proof (ascii_all_spec (λ c, negb (name_byte c || is_dec c || bool_decide (c = ":"%char)) ||
    (forallb (λ r, negb (has_byte c r)) space_runes && negb (has_byte c "/"))) eq_refl c) as Hall. cbv beta in Hall. rewrite Hc in Hall.
  cbn [negb orb] in Hall. apply andb_true_iff in Hall as [Hall Hs%negb_true_iff]. split; [|done].
  apply Forall_forall. intros r Hr. apply list_elem_of_In in Hr. rewrite forallb_forall in Hall. by apply negb_true_iff, Hall.
Qed.

Lemma listener_trimmed host port path : host_port host port → plain_path path →
  TrimSpace ("http://" +:+ (host +:+ ":" +:+ port) +:+ path) = "http://" +:+ (host +:+ ":" +:+ port) +:+ path.
Proof.
  intros Hh Hp. apply (TrimSpace_id (λ c, (name_byte c || is_dec c || bool_decide (c = ":"%char)) || path_plain c)).
  - intros c Hc. pose proof (ascii_all_spec (λ c, negb ((name_byte c || is_dec c || bool_decide (c = ":"%char)) || path_plain c) ||
      forallb (λ r, negb (has_byte c r)) space_runes) eq_refl c) as Hall. cbv beta in Hall. rewrite Hc in Hall. cbn [negb orb] in Hall.
    apply Forall_forall. intros r Hr. apply list_elem_of_In in Hr. rewrite forallb_forall in Hall. by apply negb_true_iff, Hall.
  - rewrite (all_bytes_app _ "http://"), (all_bytes_app _ (host +:+ _)), !andb_true_iff. split; [done|]. split.
    + pose proof (host_port_bytes _ _ Hh) as Hb. revert Hb. apply all_bytes_mono. by intros c ->.
    + destruct Hp as [Hb _]. revert Hb. apply all_bytes_mono. intros c ->. by rewrite orb_true_r.
Qed.

Lemma split_listener host port : host_port host port → SplitHostPort (host +:+ ":" +:+ port) = Some (host, port).
Proof.
  intros [Hn Hne Hp]. unfold SplitHostPort, LastIndexByte. change (":" +:+ port) with (String ":" port).
  rewrite last_index_app by by apply is_dec_all. cbn [plus mbind option_bind]. rewrite sdrop_app_S, stake_app.
  destruct (HasPrefix (host +:+ String ":" port) "[") eqn:Hb.
  - exfalso. apply HasPrefix_spec in Hb as [t Ht]. destruct host as [|c host]; [done|]. cbn in Hn. apply andb_true_iff in Hn as [Hn _].
    injection Ht as -> _. done.
  - rewrite (name_no_byte ":" host) by done. rewrite !has_byte_app. cbn [has_byte].
    rewrite !(name_no_byte _ host) by done. rewrite !bool_decide_false by done. cbn [orb]. by rewrite !is_dec_all.
Qed.

(** The text of a listener's own endpoint follows the listener's port. *)
Lemma rewrite_listener_text host port port' path : host_port host port → host_port host port' → plain_path path →
  rewriteSelfEndpoint ("http://" +:+ (host +:+ ":" +:+ port) +:+ path) [(host +:+ ":" +:+ port, host +:+ ":" +:+ port')] =
    "http://" +:+ (host +:+ ":" +:+ port') +:+ path.
Proof.
  intros Hh Hh' Hp. unfold rewriteSelfEndpoint. rewrite listener_trimmed, listener_text_parses by done.
  assert ("http://" +:+ (host +:+ ":" +:+ port) +:+ path =s "" = false) as -> by done.
  cbn [url_Host listener_url]. assert (host +:+ ":" +:+ port =s "" = false) as ->.
  { apply streq_false. destruct Hh as [_ Hne _]. by destruct host. }
  cbn [rewrite_moved url_Host listener_url]. unfold SameListenerAddr. rewrite split_listener, split_listener by done.
  rewrite streq_refl. cbn [negb]. assert (EqualFold host host = true) as -> by (unfold EqualFold; by apply bool_decide_eq_true). cbn [orb negb].
  unfold Hostname. cbn [url_Host listener_url]. destruct Hh as [Hn Hne Hd].
  rewrite split_host_port_name; [|by apply is_dec_all|by apply name_no_byte|done].
  cbn [fst]. assert (JoinHostPort host port' = host +:+ ":" +:+ port') as -> by (unfold JoinHostPort; by rewrite name_no_byte).
  change (URL_String (listener_url host port' path) = "http://" +:+ (host +:+ ":" +:+ port') +:+ path). by apply listener_url_text.
Qed.

(** ** Starting *)

Lemma scan_ports_bound try host n : ∀ port bound, 0 <= port → port + Z.of_nat n < two63 →
  scan_ports try host port n = inl bound → ∃ q, 0 <= q ∧ bound = JoinHostPort host (Itoa q).
Proof.
  induction n as [|n IH]; intros port bound H0 Hn; [done|]. cbn [scan_ports]. rewrite wrap_i64_id by (unfold in_i64; lia).
  destruct (try _); [intros [= <-]; by exists port| |done]. apply IH; lia.
Qed.

Lemma Listen_bound try host port n bound p : host_port host port → Atoi port = (p, true) → 0 < p < 65536 → 0 <= n < 65536 →
  Listen try (host +:+ ":" +:+ port) n = inl bound → ∃ port', bound = host +:+ ":" +:+ port' ∧ host_port host port'.
Proof.
  intros Hh Hp Hr Hn. unfold Listen. rewrite split_listener by done. rewrite Hp. cbn [negb].
  rewrite (proj2 (Z.ltb_ge n 0)) by lia. rewrite (proj2 (Z.eqb_neq p 0)) by lia.
  intros (q & Hq & ->)%scan_ports_bound; [|lia|unfold two63; lia]. exists (Itoa q). destruct Hh as [H1 H2 H3].
  destruct (Itoa_digits q Hq) as (Hd & _ & _).
  assert (all_bytes is_dec (Itoa q) = true) as Hd'.
  { revert Hd. apply all_bytes_mono. intros c Hc. pose proof (ascii_all_spec (λ c, negb (Net.is_digit c) || is_dec c) eq_refl c) as H.
    cbv beta in H. by rewrite Hc in H. }
  split; [|done]. unfold JoinHostPort. by rewrite name_no_byte.
Qed.

Lemma wp_on_health m env tick i Q : (∀ k hs, Q tt k {| i with in_hs := hs |}) → wp (on_health m) env tick i Q.
Proof.
  intros HQ. unfold on_health. wp_go. destruct (in_hs i) as [hs|] eqn:E.
  - rewrite wp_zoom, wp_run. destruct (result m _ _ _). apply HQ.
  - wp_go. specialize (HQ tick (in_hs i)). by destruct i.
Qed.

(** The target that checks the instance itself, before and after a move. *)
Definition self_check (cfg : Config) : TargetConfig :=
  {| zeroTargetConfig with tc_ID := "self-health-check"; tc_Name := "Self Health Check"; tc_Enabled := true;
     tc_Protocol := ProtocolHTTP; tc_Transport := TransportHTTP;
     tc_Endpoint := "http://" +:+ hc_ListenAddr (cfg_Health cfg) +:+ hr_Status (hc_Endpoints (cfg_Health cfg));
     tc_Check := mkTargetCheckConfig "30s" "5s" 3 "" [] [] |}.

Lemma compiles_self cfg ts tc : compileTargets cfg = inl ts → tc ∈ cfg_Targets cfg → tc_Enabled tc = true →
  ∃ t, t ∈ ts ∧ tgt_ID t = tc_ID tc ∧ tgt_Endpoint t = tc_Endpoint tc.
Proof.
  intros Hc Hin He. pose proof (compileTargets_spec cfg) as H. cbv zeta in H. rewrite Hc in H.
  assert (tc ∈ filter (λ tc, tc_Enabled tc = true) (cfg_Targets cfg)) as Hf by by apply list_elem_of_filter.
  apply list_elem_of_lookup in Hf as [k Hk]. eapply Forall2_lookup_l in H as (t & Ht & Hx); [|exact Hk].
  exists t. split; [by eapply list_elem_of_lookup_2|]. destruct Hx as (Hct & Hid & _). split; [done|].
  unfold compile_target in Hct. destruct (ParseDuration (cc_Interval _)); [|done]. destruct (ParseDuration (cc_Timeout _)); [|done].
  cbv zeta in Hct. destruct (Validate _); [done|]. by injection Hct as <-.
Qed.

Lemma self_check_listed cfg : hc_Enabled (cfg_Health cfg) = true → hc_SelfCheck (cfg_Health cfg) = true →
  cfg_Health (withSelfCheck cfg) = cfg_Health cfg ∧ self_check cfg ∈ cfg_Targets (withSelfCheck cfg).
Proof.
  intros He Hs. unfold withSelfCheck, withSelfCheckTarget. rewrite He, Hs. cbn [negb orb]. split; [done|].
  cbn [cfg_Targets]. apply elem_of_app. right. by apply list_elem_of_here.
Qed.

Lemma facade_server_keeps cfg o features now : keeps hs_opts (facade_server cfg o features now).
Proof.
  assert (keeps hs_opts (RegisterFeaturesFromDir features)) as Hf.
  { induction features as [|w ws IH]; cbn [RegisterFeaturesFromDir]; [keeps_go|]. destruct (we_Err w); [keeps_go|].
    destruct (_ || _); [done|]. apply keeps_bind; [|intros; exact IH]. destruct (parseFeatureFile _ _); [|keeps_go].
    unfold RegisterFeature. keeps_go. }
  unfold facade_server, SetComponent, SetReady. destruct (fo_FeaturesDir o =s ""); [keeps_go|]. apply keeps_bind; [exact Hf|]. intros. keeps_go.
Qed.

(** What [New] sets up. *)
Record fresh (i : Instance) : Prop := {
  fr_compiled : compileTargets (in_cfg i) = inl (en_targets (in_eng i));
  fr_hs : hc_Enabled (cfg_Health (in_cfg i)) = true →
    ∃ hs, in_hs i = Some hs ∧ ho_ListenAddr (hs_opts hs) = Health.or_default (hc_ListenAddr (cfg_Health (in_cfg i))) "localhost:8088";
  fr_stopped : in_started i = false;
  fr_self : hc_Enabled (cfg_Health (in_cfg i)) = true → hc_SelfCheck (cfg_Health (in_cfg i)) = true →
    self_check (in_cfg i) ∈ cfg_Targets (in_cfg i);
}.

Lemma New_fresh cfg o files scanner features env tick i : New cfg o files scanner features env tick = inl i → fresh i.
Proof.
  unfold New. destruct (_ && _); [done|]. set (c := withSelfCheck (ApplyDefaults cfg)).
  destruct (NewEngine c _ scanner) as [eng|] eqn:Heng; [|done]. intros [= <-].
  split; cbn [in_cfg in_eng in_hs in_started]; [| |done|].
  - unfold NewEngine in Heng. destruct (compileTargets c) as [ts|] eqn:Hc; [|done]. by injection Heng as <-.
  - intros ->. eexists. split; [done|]. by rewrite facade_server_keeps.
  - subst c. unfold withSelfCheck, withSelfCheckTarget. intros He Hs.
    destruct (negb (hc_Enabled (cfg_Health (ApplyDefaults cfg))) || negb (hc_SelfCheck (cfg_Health (ApplyDefaults cfg)))) eqn:E.
    + rewrite He, Hs in E. done.
    + cbn [cfg_Targets cfg_Health]. apply elem_of_app. right. apply list_elem_of_here.
Qed.

Lemma wp_advertise mdns bound env tick i Q : (∀ ad, Q tt tick {| i with in_advertiser := ad |}) → wp (advertise mdns bound) env tick i Q.
Proof.
  intros HQ. unfold advertise. wp_go. destruct (_ && _); wp_go; [apply HQ|]. specialize (HQ (in_advertiser i)). by destruct i.
Qed.

(** The self references after [Start]: where the configuration and the engine end
    up. *)
Lemma wp_follow_port bound ts env tick i (Q : () → nat → Instance → Prop) :
  compileTargets (in_cfg i) = inl (en_targets (in_eng i)) →
  compileTargets (RewriteSelfReferences (in_cfg i) [(hc_ListenAddr (cfg_Health (in_cfg i)), bound)]) = inl ts →
  (∀ k cfg eng, cfg = (if bound =s hc_ListenAddr (cfg_Health (in_cfg i)) then in_cfg i
                       else RewriteSelfReferences (in_cfg i) [(hc_ListenAddr (cfg_Health (in_cfg i)), bound)]) →
     compileTargets cfg = inl (en_targets eng) → Q tt k {| i with in_cfg := cfg; in_eng := eng |}) →
  wp (follow_port bound) env tick i Q.
Proof.
  intros Hi Hc HQ. unfold follow_port. wp_go. set (rewritten := RewriteSelfReferences _ _) in *. destruct (bound =s _).
  - wp_go. specialize (HQ tick (in_cfg i) (in_eng i) eq_refl Hi). by destruct i.
  - wp_go. unfold on_engine. rewrite wp_zoom. unfold ReloadConfig. rewrite Hc. wp_go. apply HQ; [done|]. exact Hc.
Qed.


(** A reload takes a configuration as a whole or not at all. One the engine
    cannot compile leaves the instance as it was; any other is in force as [New]
    would have it, with its self check, and of the targets the health server shows
    exactly those the engine dropped are gone. The port is not touched. *)
Theorem Reload_spec (cfg : Config) (env : Env) (tick : nat) (i : Instance) :
  let i' := state (Reload cfg) env tick i in
  let cfg' := withSelfCheck (ApplyDefaults cfg) in
  match result (Reload cfg) env tick i with
  | Some e => i' = i ∧ compileTargets cfg' = inr e
  | None => in_cfg i' = cfg' ∧ compileTargets cfg' = inl (en_targets (in_eng i')) ∧ Addr i' = Addr i ∧ in_started i' = in_started i ∧
      ∀ hs, in_hs i = Some hs → ∃ hs', in_hs i' = Some hs' ∧ ∀ id,
        Health.targets hs' !! id =
          if decide (id ∈ removedTargetIDs (en_targets (in_eng i)) (en_targets (in_eng i'))) then None else Health.targets hs !! id
  end.
Proof.
  intros i' cfg'.
  enough (wp (Reload cfg) env tick i (λ r _ i', match r with
    | Some e => i' = i ∧ compileTargets cfg' = inr e
    | None => in_cfg i' = cfg' ∧ compileTargets cfg' = inl (en_targets (in_eng i')) ∧ Addr i' = Addr i ∧ in_started i' = in_started i ∧
        ∀ hs, in_hs i = Some hs → ∃ hs', in_hs i' = Some hs' ∧ ∀ id,
          Health.targets hs' !! id =
            if decide (id ∈ removedTargetIDs (en_targets (in_eng i)) (en_targets (in_eng i'))) then None else Health.targets hs !! id
    end)) as Hw by (by rewrite wp_run in Hw).
  unfold Reload. fold cfg'. wp_go. unfold on_engine. rewrite wp_zoom. unfold ReloadConfig. destruct (compileTargets cfg') as [ts|e] eqn:Hc; wp_go.
  - unfold on_health. wp_go. cbn [in_hs]. destruct (in_hs i) as [hs|]; wp_go; [|by split_and!].
    rewrite wp_zoom. eapply wp_mono; [apply wp_remove_targets|]. intros [] k hs' Hrm. wp_go. split_and!; try done.
    intros hs0 [= <-]. by exists hs'.
  - split; [|done]. by destruct i.
Qed.

(** ** On concrete inputs *)

Definition wit_cfg : Config :=
  {| Engine.ex_monitor with
     cfg_Health := {| (cfg_Health Engine.ex_monitor) with hc_Enabled := true; hc_SelfCheck := true; hc_ListenAddr := "localhost:18088" |} |}.
Definition wit_options : FacadeOptions := mkFacadeOptions "" 0 "" false.
Definition wit_instance : Instance :=
  match New wit_cfg wit_options ∅ None [] (frozen 9 "") 0 with
  | inl i => i
  | inr _ => mkInstance wit_cfg wit_options Engine.ex_started None None [] false "" None 0
  end.
(** Only the port after the configured one is free. *)
Definition wit_try (addr : string) : bind_result := if addr =s "localhost:18089" then Bound addr else InUse.
Definition wit_moved : list Target :=
  match compileTargets (RewriteSelfReferences (in_cfg wit_instance) [("localhost:18088", "localhost:18089")]) with inl ts => ts | inr _ => [] end.
Definition wit_up : Instance := state (Start wit_try false) (frozen 9 "") 0 wit_instance.

Lemma wit_host_port : host_port "localhost" "18088".
Proof. by split; vm_compute. Qed.
Lemma wit_path : plain_path (hr_Status (hc_Endpoints (cfg_Health (in_cfg wit_instance)))).
Proof. by split; vm_compute. Qed.


(** A reload of the same configuration makes the self check name the configured
    port again, where the instance does not serve. *)
Example reload_forgets_the_moved_port :
  let i := state (Reload wit_cfg) (frozen 9 "") 0 wit_up in
  (StatusURL i, map tgt_Endpoint (filter (λ t, tgt_ID t = "self-health-check") (en_targets (in_eng i)))) =
  ("http://localhost:18089/status", ["http://localhost:18088/status"]).
Proof. vm_compute. reflexivity. Qed.

(** A start that finds no port leaves the instance started; after a shutdown it can
    be started again, and so can one that ran, although its engine is spent. *)
Example failed_start_needs_a_shutdown :
  let busy (_ : string) := InUse in
  let i := state (Start busy false) (frozen 9 "") 0 wit_instance in
  result (Start busy false) (frozen 9 "") 0 wit_instance = Some (ErrBind ErrNoFreePort) ∧
  result (Start wit_try false) (frozen 9 "") 0 i = Some ErrStarted ∧
  result (Start wit_try false) (frozen 9 "") 0 (state Shutdown (frozen 9 "") 0 i) = None ∧
  in_launched (state (Start wit_try false) (frozen 9 "") 0 (state Shutdown (frozen 9 "") 0 wit_up)) = 2%nat.
Proof. vm_compute. auto. Qed.

(** Without a health server nothing is advertised, whatever the tuner's section
    says. *)
Example advertises_with_health_only :
  let cfg := {| Engine.ex_monitor with
    cfg_Health := {| (cfg_Health Engine.ex_monitor) with hc_Enabled := false; hc_ListenAddr := "localhost:1" |};
    cfg_Tuner := {| (cfg_Tuner Engine.ex_monitor) with tn_Advertise := true |} |} in
  match New cfg wit_options ∅ None [] (frozen 9 "") 0 with
  | inl i => let i' := state (Start wit_try true) (frozen 9 "") 0 i in (in_launched i', in_advertiser i', StatusURL i') = (1%nat, None, "")
  | inr _ => False
  end.
Proof. vm_compute. reflexivity. Qed.
