(* ===== verification/Reseed.v ===== *)
(** * The cache reseeder ([cmd/synapse-cache-reseed/main.go], [mcp.go])

    A command that derives summaries and queries from feature files, or from the
    documents written about them, finds the chunks they belong to through an MCP
    server, and stores both. Files are their contents and the server is a function
    of the requests sent so far; the readers of YAML and of JSON texts are
    parameters. Flags, printing and the directory walk are left out, and the context
    is the background one, which is never done. *)

From Stdlib Require Import ZArith Lia Ascii.
From stdpp Require Import base tactics strings gmap relations.
From stdpp Require Import list.
From S2P Require Import Prelude Bytes Net Url Rpc Discovery DynamicConfig SelfDescription.

Open Scope Z_scope.
Open Scope go_scope.

(** ** Documents and features *)

(** The other fields are read and never used. *)
Record frontmatter := mkFrontmatter {
  fm_Title : string;
  fm_Description : string;
  fm_Source : string;
  fm_GherkinTags : list string;
}.
Record doc := mkDoc { d_path : string; d_fm : frontmatter }.
Record docSet := mkDocSet { ds_catalogs : list doc; ds_subsystems : list doc }.
Record featureDoc := mkFeatureDoc {
  fd_path : string;
  fd_name : string;
  fd_description : string;
  fd_tags : list string;
}.

(** The two [summary] methods. *)
Definition title_line (title description : string) : string :=
  let title := TrimSpace title in
  let description := TrimSpace description in
  if title =s "" then description
  else if description =s "" then title
  else title +:+ " — " +:+ description.
Definition doc_summary (d : doc) : string := title_line (fm_Title (d_fm d)) (fm_Description (d_fm d)).
Definition feature_summary (f : featureDoc) : string := title_line (fd_name f) (fd_description f).

Definition LF : string := String (ascii_of_N 10) "".
Definition CRLF : string := String (ascii_of_N 13) LF.

Inductive front_error := NoFrontmatter | UnterminatedFrontmatter | BadFrontmatter.
(** [yaml] is the reader of the block. *)
Definition parseFrontmatter (yaml : string → option frontmatter) (data : string) : frontmatter + front_error :=
  let text := ReplaceAll data CRLF LF in
  if negb (HasPrefix text ("---" +:+ LF)) then inr NoFrontmatter
  else
    let rest := TrimPrefix text ("---" +:+ LF) in
    match index_of 0 (LF +:+ "---") rest with
    | None => inr UnterminatedFrontmatter
    | Some e => match yaml (stake e rest) with Some fm => inl fm | None => inr BadFrontmatter end
    end.

Inductive source_error := NoSource | NotAFeature (source : string).
Definition featurePathFor (repoID source : string) : string + source_error :=
  let source := TrimSpace source in
  if source =s "" then inr NoSource
  else
    let path := TrimPrefix (TrimPrefix source (repoID +:+ "/")) "./" in
    if negb (HasSuffix path ".feature") then inr (NotAFeature source) else inl path.

(** [content] is [None] for a file that cannot be opened. The scanner gives up at a
    line that is too long, unless the heading came first. *)
Fixpoint heading_in (lines : list string) : option string :=
  match lines with
  | [] => None
  | l :: lines =>
      if line_too_long l then None
      else if HasPrefix (TrimSpace l) "Feature:" then Some (TrimSpace (TrimPrefix (TrimSpace l) "Feature:"))
      else heading_in lines
  end.
Definition featureHeading (content : option string) : option string := c ← content; heading_in (text_lines c).

(** [filepath.Ext] *)
Definition Ext (path : string) : string :=
  match LastIndexByte path "." with
  | Some i => let e := sdrop i path in if has_byte "/" e then "" else e
  | None => ""
  end.
Definition aliasFor (path : string) : string :=
  ReplaceAll (ReplaceAll (TrimSuffix (Base path) (Ext path)) "-" " ") "_" " ".

Definition tag_name (tag : string) : string := TrimPrefix (TrimSpace tag) "@".

(** The count of one list: a tag is counted once per list. *)
Definition count_tag (st : gset string * gmap string Z) (tag : string) : gset string * gmap string Z :=
  let name := tag_name tag in
  if (name =s "") || bool_decide (name ∈ st.1) then st
  else ({[name]} ∪ st.1, <[name := default 0 (st.2 !! name) + 1]> st.2).
Definition count_tags (frequency : gmap string Z) (tags : list string) : gmap string Z := (foldl count_tag (∅, frequency) tags).2.
Definition tagFrequency (tagLists : list (list string)) : gmap string Z := foldl count_tags ∅ tagLists.

Definition tag_queries (frequency : gmap string Z) (tags : list string) : list string :=
  filter (λ name, name ≠ "" ∧ default 0 (frequency !! name) = 1) (map tag_name tags).
Definition catalogQueries (d : doc) (heading : string) (frequency : gmap string Z) : list string :=
  [fm_Title (d_fm d); heading; aliasFor (d_path d)] ++ tag_queries frequency (fm_GherkinTags (d_fm d)).
Definition subsystemQueries (d : doc) : list string := [fm_Title (d_fm d); aliasFor (d_path d)].
Definition featureQueries (f : featureDoc) (frequency : gmap string Z) : list string :=
  [fd_name f; aliasFor (fd_path f)] ++ tag_queries frequency (fd_tags f).

Definition isGherkinKeyword (line : string) : bool :=
  existsb (HasPrefix line) ["Background:"; "Scenario:"; "Scenario Outline:"; "Scenario Template:"; "Rule:"; "Example:"; "Examples:"].

(** The lines of the description, up to the first block. *)
Fixpoint description_lines (lines : list string) : list string :=
  match lines with
  | [] => []
  | l :: lines =>
      let line := TrimSpace l in
      if isGherkinKeyword line || HasPrefix line "@" then []
      else if (line =s "") || HasPrefix line "#" then description_lines lines
      else line :: description_lines lines
  end.
Fixpoint parse_header (f : featureDoc) (lines : list string) : featureDoc :=
  match lines with
  | [] => f
  | l :: lines =>
      let line := TrimSpace l in
      if HasPrefix line "@" then parse_header {| f with fd_tags := fd_tags f ++ Fields line |} lines
      else if HasPrefix line "Feature:" then
        {| f with fd_name := TrimSpace (TrimPrefix line "Feature:"); fd_description := Join (description_lines lines) " " |}
      else parse_header f lines
  end.
(** [parseFeatureFile] of a file that is read. *)
Definition parse_feature (rel data : string) : featureDoc :=
  parse_header (mkFeatureDoc rel "" "" []) (Split data (ascii_of_N 10)).

Example parse_feature_ex :
  parse_feature "features/a-b.feature" ("@x @y" +:+ LF +:+ "Feature: A  b " +:+ LF +:+ LF +:+ "  As a" +:+ LF +:+ "# no" +:+ LF +:+ " user"
    +:+ LF +:+ "Rule: r" +:+ LF +:+ "more") = mkFeatureDoc "features/a-b.feature" "A  b" "As a user" ["@x"; "@y"] ∧
  aliasFor "features/a-b_c.feature" = "a b c" ∧
  featurePathFor "repo" " repo/features/x.feature" = inl "features/x.feature".
Proof. vm_compute. auto. Qed.

(** ** The client *)

Record request := mkRequest {
  rq_ID : option Z;              (* a notification has none *)
  rq_RPC : string;
  rq_Params : option json;
  rq_Session : string;           (* the header, when it is not blank *)
}.

(** A line of an event stream: not data, or data with what it holds, when that is
    JSON. *)
Inductive sse_line := NotData | Data (payload : option json).
Inductive body :=
  | Plain (content : option json)                          (* [None] is no JSON *)
  | Unreadable (transient : bool)
  | EventStream (lines : list sse_line) (broken : option bool). (* why the scan ended early *)
Inductive reply :=
  | NotSent
  | Answered (status : Z) (session : string) (b : body).

Record client_error := mkClientError { ce_text : string; ce_transient : bool }.

(** The requests that were sent, the waits between them, in milliseconds, and the
    session the server gave. *)
Record mcpClient := mkClient {
  cl_session : string;
  cl_nextID : Z;
  cl_sent : list request;
  cl_waits : list Z;
}.
Definition newMCPClient : mcpClient := mkClient "" 0 [] [].

Definition failed {A} (text : string) (transient : bool) : A + client_error := inr (mkClientError text transient).

(** Decoding into the fields of a struct; [None] is a type error, null clears. *)
Definition into_string (v : json) (old : string) : option string :=
  match v with JNull => Some old | JString s => Some s | _ => None end.
Definition into_int (v : json) (old : Z) : option Z :=
  match v with JNull => Some old | JNumber t => let '(n, ok) := Atoi t in if ok : bool then Some n else None | _ => None end.
Definition into_bool (v : json) (old : bool) : option bool :=
  match v with JNull => Some old | JBool b => Some b | _ => None end.
(** A key that names no field is skipped. *)
Definition into_struct {A} (set : A → string → json → option A) (zero : A) (v : json) : option A :=
  match v with
  | JNull => Some zero
  | JObject fs => foldl (λ acc kv, a ← acc; set a kv.1 kv.2) (Some zero) fs
  | _ => None
  end.
Definition into_slice {A} (elem : json → option A) (v : json) : option (list A) :=
  match v with JNull => Some [] | JArray l => mapM elem l | _ => None end.

Definition rpcError : Type := Z * string.
Record clientResponse := mkClientResponse {
  cr_Version : string;
  cr_ID : Z;
  cr_Result : option json;       (* [None] is absent *)
  cr_Error : option rpcError;
}.
Definition set_rpcError (e : rpcError) (key : string) (v : json) : option rpcError :=
  if names_field key "code" then c ← into_int v e.1; Some (c, e.2)
  else if names_field key "message" then m ← into_string v e.2; Some (e.1, m)
  else Some e.
Definition set_response (r : clientResponse) (key : string) (v : json) : option clientResponse :=
  if names_field key "jsonrpc" then t ← into_string v (cr_Version r); Some {| r with cr_Version := t |}
  else if names_field key "id" then i ← into_int v (cr_ID r); Some {| r with cr_ID := i |}
  else if names_field key "result" then Some {| r with cr_Result := Some v |}
  else if names_field key "error" then
    match v with
    | JNull => Some {| r with cr_Error := None |}
    | _ => e ← into_struct set_rpcError (default (0, "") (cr_Error r)) v; Some {| r with cr_Error := Some e |}
    end
  else Some r.
Definition decode_response (v : json) : option clientResponse := into_struct set_response (mkClientResponse "" 0 None None) v.

(** [readSSEResult] *)
Fixpoint read_events (lines : list sse_line) (broken : option bool) : option json + client_error :=
  match lines with
  | [] => match broken with
          | Some transient => failed "read event stream" transient
          | None => failed "no JSON-RPC result in event stream" false
          end
  | l :: lines =>
      match (match l with Data (Some v) => decode_response v | _ => None end) with
      | None => read_events lines broken
      | Some r =>
          match cr_Error r, cr_Result r with
          | Some e, _ => failed ("rpc error " +:+ Itoa e.1 +:+ ": " +:+ e.2) false
          | None, Some v => inl (Some v)
          | None, None => read_events lines broken
          end
      end
  end.

Section Client.
(** The server answers by what it was sent. *)
Context (server : list request → reply).

(** [callOnce]. Every error of [http.Client.Do] is a [*url.Error], which is a
    [net.Error]. *)
Definition callOnce (method : string) (params : option json) (notify : bool) : M mcpClient (option json + client_error) :=
  _ ← (if notify then mret tt else modify (λ c, {| c with cl_nextID := cl_nextID c + 1 |}));
  c ← get;
  let rq := mkRequest (if notify then None else Some (cl_nextID c)) method params (cl_session c) in
  _ ← modify (λ c, {| c with cl_sent := cl_sent c ++ [rq] |});
  match server (cl_sent c ++ [rq]) with
  | NotSent => mret (failed ("send " +:+ method) true)
  | Answered status session b =>
      _ ← (if session =s "" then mret tt else modify (λ c, {| c with cl_session := session |}));
      mret (if notify then
              if 400 <=? status then failed (method +:+ ": unexpected status") false else inl None
            else
              match b with
              | EventStream lines broken => read_events lines broken
              | Unreadable transient => failed ("read " +:+ method) transient
              | Plain content =>
                  if 400 <=? status then failed (method +:+ ": unexpected status") false
                  else
                    match v ← content; decode_response v with
                    | None => failed ("decode " +:+ method) false
                    | Some r =>
                        match cr_Error r with
                        | Some e => failed (method +:+ ": rpc error " +:+ Itoa e.1 +:+ ": " +:+ e.2) false
                        | None => inl (cr_Result r)
                        end
                    end
              end)
  end.

Definition maxAttempts : nat := 3.

(** [more] attempts are left after this one. *)
Fixpoint call_from (attempt : Z) (more : nat) (method : string) (params : option json) (notify : bool)
  : M mcpClient (option json + client_error) :=
  r ← callOnce method params notify;
  match r, more with
  | inl v, _ => mret (inl v)
  | inr e, O => mret (inr e)
  | inr e, S more =>
      if negb (ce_transient e) then mret (inr e)
      else
        _ ← modify (λ c, {| c with cl_waits := cl_waits c ++ [attempt * 250] |});
        call_from (attempt + 1) more method params notify
  end.
Definition call (method : string) (params : option json) (notify : bool) : M mcpClient (option json + client_error) :=
  call_from 1 (maxAttempts - 1) method params notify.

Definition initialize_params : json :=
  JObject [("capabilities", JObject []);
           ("clientInfo", JObject [("name", JString "synapse-cache-reseed"); ("version", JString "dev")]);
           ("protocolVersion", JString "2024-11-05")].
Definition initialize : M mcpClient (option client_error) :=
  r ← call "initialize" (Some initialize_params) false;
  match r with
  | inr e => mret (Some (mkClientError ("initialize: " +:+ ce_text e) (ce_transient e)))
  | inl _ =>
      r ← call "notifications/initialized" None true;
      mret (match r with inr e => Some (mkClientError ("initialized notification: " +:+ ce_text e) (ce_transient e)) | inl _ => None end)
  end.

(** ** Tools *)

Record content_item := mkContentItem { ci_Type : string; ci_Text : string }.
Record toolEnvelope := mkEnvelope { te_Content : list content_item; te_Structured : option json; te_IsError : bool }.
Definition set_item (i : content_item) (key : string) (v : json) : option content_item :=
  if names_field key "type" then t ← into_string v (ci_Type i); Some (mkContentItem t (ci_Text i))
  else if names_field key "text" then t ← into_string v (ci_Text i); Some (mkContentItem (ci_Type i) t)
  else Some i.
Definition set_envelope (e : toolEnvelope) (key : string) (v : json) : option toolEnvelope :=
  if names_field key "content" then l ← into_slice (into_struct set_item (mkContentItem "" "")) v; Some {| e with te_Content := l |}
  else if names_field key "structuredContent" then Some {| e with te_Structured := Some v |}
  else if names_field key "isError" then b ← into_bool v (te_IsError e); Some {| e with te_IsError := b |}
  else Some e.

Definition firstContentText (e : toolEnvelope) : string :=
  match find (λ i, (ci_Type i =s "text") && negb (ci_Text i =s "")) (te_Content e) with Some i => ci_Text i | None => "" end.

(** The reader of JSON texts. *)
Context (parse_json : string → option json).

Definition decodeTextPayload (text : string) : json := default (JString text) (parse_json text).

Definition decodeToolResult (name : string) (raw : option json) : json + client_error :=
  match raw with
  | None => inl JNull
  | Some raw =>
      match into_struct set_envelope (mkEnvelope [] None false) raw with
      | None => failed ("decode " +:+ name) false
      | Some env =>
          if te_IsError env then failed (name +:+ " returned an error: " +:+ firstContentText env) false
          else
            match te_Structured env with
            | Some JNull | None =>
                let text := firstContentText env in if text =s "" then inl JNull else inl (decodeTextPayload text)
            | Some v => inl v
            end
      end
  end.

Definition callTool (name : string) (args : json) : M mcpClient (json + client_error) :=
  r ← call "tools/call" (Some (JObject [("arguments", args); ("name", JString name)])) false;
  mret (match r with inr e => inr e | inl raw => decodeToolResult name raw end).

Definition callToolInto {A} (decode : json → option A) (name : string) (args : json) : M mcpClient (A + client_error) :=
  r ← callTool name args;
  mret (match r with
        | inr e => inr e
        | inl v => match decode v with Some a => inl a | None => failed ("decode " +:+ name) false end
        end).
Definition callToolNoResult (name : string) (args : json) : M mcpClient (option client_error) :=
  r ← callTool name args; mret (match r with inr e => Some e | inl _ => None end).

End Client.

(** ** Chunks *)

Record chunkRef := mkChunk { ch_ID : string; ch_File : string; ch_Symbol : string; ch_Line : Z }.
Definition set_chunk (c : chunkRef) (key : string) (v : json) : option chunkRef :=
  if names_field key "chunk_id" then s ← into_string v (ch_ID c); Some {| c with ch_ID := s |}
  else if names_field key "file_path" then s ← into_string v (ch_File c); Some {| c with ch_File := s |}
  else if names_field key "symbol" then s ← into_string v (ch_Symbol c); Some {| c with ch_Symbol := s |}
  else if names_field key "start_line" then n ← into_int v (ch_Line c); Some {| c with ch_Line := n |}
  else Some c.
Definition set_results (l : list chunkRef) (key : string) (v : json) : option (list chunkRef) :=
  if names_field key "results" then into_slice (into_struct set_chunk (mkChunk "" "" "" 0)) v else Some l.
Definition decode_chunks (v : json) : option (list chunkRef) := into_struct set_results [] v.

(** What a save answers for each summary. *)
Record saved_item := mkSaved { sv_ID : string; sv_Result : string; sv_Error : string }.
Definition set_saved (i : saved_item) (key : string) (v : json) : option saved_item :=
  if names_field key "chunk_id" then s ← into_string v (sv_ID i); Some {| i with sv_ID := s |}
  else if names_field key "result" then s ← into_string v (sv_Result i); Some {| i with sv_Result := s |}
  else if names_field key "error" then s ← into_string v (sv_Error i); Some {| i with sv_Error := s |}
  else Some i.
Definition set_saves (l : list saved_item) (key : string) (v : json) : option (list saved_item) :=
  if names_field key "results" then into_slice (into_struct set_saved (mkSaved "" "" "")) v else Some l.
Definition decode_saves (v : json) : option (list saved_item) := into_struct set_saves [] v.

(** ** The plan *)

Record summaryItem := mkSummary { su_ChunkID : string; su_Summary : string }.
Record learnItem := mkLearn { le_query : string; le_chunkID : string }.
Inductive item_error := SourceError (e : source_error) | CallError (e : client_error) | NoChunk (path : string) | NoHeading.
Inductive plan_warning := QueryTaken (query : string) | HeadingMissing (path : string).

Record plan := mkPlan {
  pl_summaries : list summaryItem;
  pl_learns : list learnItem;
  pl_failures : list (string * item_error);
  pl_warnings : list plan_warning;
  pl_learnIndex : gmap string string;
}.
Definition new_plan : plan := mkPlan [] [] [] [] ∅.

Definition addFailure (path : string) (e : item_error) (p : plan) : plan := {| p with pl_failures := pl_failures p ++ [(path, e)] |}.
Definition addSummary (id summary : string) (p : plan) : plan := {| p with pl_summaries := pl_summaries p ++ [mkSummary id summary] |}.
Definition addWarning (w : plan_warning) (p : plan) : plan := {| p with pl_warnings := pl_warnings p ++ [w] |}.

Definition addLearn (chunkID : string) (p : plan) (query : string) : plan :=
  let query := TrimSpace query in
  if query =s "" then p
  else
    match pl_learnIndex p !! query with
    | Some existing => if existing =s chunkID then p else addWarning (QueryTaken query) p
    | None => {| p with pl_learns := pl_learns p ++ [mkLearn query chunkID]; pl_learnIndex := <[query := chunkID]> (pl_learnIndex p) |}
    end.
Definition addLearns (chunkID : string) (queries : list string) (p : plan) : plan := foldl (addLearn chunkID) p queries.

Section Plan.
Context (server : list request → reply) (parse_json : string → option json).

Abbreviation call_into := (callToolInto server parse_json).
Abbreviation call_none := (callToolNoResult server parse_json).

Definition search_args (repoID path query : string) : json :=
  JObject [("action", JString "regex"); ("compress_payload", JBool false); ("limit", JNumber "50"); ("path", JString path);
           ("query", JString query); ("repo_id", JString repoID)].
Definition searchChunks (repoID path query : string) : M mcpClient (list chunkRef + client_error) :=
  call_into decode_chunks "synapse_search_codebase" (search_args repoID path query).

(** The first chunk a search finds that suits. *)
Definition resolve (suits : chunkRef → bool) (repoID path query : string) : M mcpClient (chunkRef + item_error) :=
  r ← searchChunks repoID path query;
  mret (match r with
        | inr e => inr (CallError e)
        | inl refs => match find suits refs with Some ref => inl ref | None => inr (NoChunk path) end
        end).
Definition resolveFeatureChunk (repoID featurePath : string) : M mcpClient (chunkRef + item_error) :=
  resolve (λ r, HasPrefix (ch_Symbol r) "feature_") repoID featurePath "^Feature:".
Definition resolveDocChunk (repoID docPath : string) : M mcpClient (chunkRef + item_error) :=
  resolve (λ r, (ch_File r =s docPath) && negb (ch_Symbol r =s "")) repoID docPath "^# ".

(** What is planned for an item whose chunk is asked for. *)
Definition plan_item (path : string) (chunk : M mcpClient (chunkRef + item_error)) (summary : string) (offers : plan → plan * list string)
  (p : plan) : M mcpClient plan :=
  r ← chunk;
  mret (match r with
        | inr e => addFailure path e p
        | inl ref => let '(p, queries) := offers (addSummary (ch_ID ref) summary p) in addLearns (ch_ID ref) queries p
        end).

Section Docs.
(** The files of the repository. *)
Context (repoID : string) (files : string → option string).

Definition plan_catalog (frequency : gmap string Z) (d : doc) (p : plan) : M mcpClient plan :=
  match featurePathFor repoID (fm_Source (d_fm d)) with
  | inr e => mret (addFailure (d_path d) (SourceError e) p)
  | inl featurePath =>
      plan_item (d_path d) (resolveFeatureChunk repoID featurePath) (doc_summary d)
        (λ p, match featureHeading (files featurePath) with
              | Some heading => (p, catalogQueries d heading frequency)
              | None => (addWarning (HeadingMissing (d_path d)) p, catalogQueries d "" frequency)
              end) p
  end.
Definition plan_subsystem (d : doc) (p : plan) : M mcpClient plan :=
  plan_item (d_path d) (resolveDocChunk repoID (d_path d)) (doc_summary d) (λ p, (p, subsystemQueries d)) p.
Definition plan_feature (frequency : gmap string Z) (f : featureDoc) (p : plan) : M mcpClient plan :=
  plan_item (fd_path f) (resolveFeatureChunk repoID (fd_path f)) (feature_summary f) (λ p, (p, featureQueries f frequency)) p.

Fixpoint plan_all {A} (item : A → plan → M mcpClient plan) (l : list A) (p : plan) : M mcpClient plan :=
  match l with
  | [] => mret p
  | x :: l => p ← item x p; plan_all item l p
  end.

Definition buildDocsPlan (set : docSet) : M mcpClient plan :=
  let frequency := tagFrequency (map (λ d, fm_GherkinTags (d_fm d)) (ds_catalogs set)) in
  p ← plan_all (plan_catalog frequency) (ds_catalogs set) new_plan;
  plan_all plan_subsystem (ds_subsystems set) p.
Definition buildFeaturePlan (features : list featureDoc) : M mcpClient plan :=
  plan_all (plan_feature (tagFrequency (map fd_tags features))) features new_plan.

End Docs.

(** ** Applying it *)

Definition summary_json (s : summaryItem) : json :=
  JObject [("chunk_id", JString (su_ChunkID s)); ("summary", JString (su_Summary s)); ("summary_type", JString "user")].
Definition save_args (items : list summaryItem) : json :=
  JObject [("action", JString "save_summary"); ("compress_payload", JBool false); ("summaries", JArray (map summary_json items))].
Definition learn_args (weight : string) (l : learnItem) : json :=
  JObject [("action", JString "learn"); ("chunk_id", JString (le_chunkID l)); ("compress_payload", JBool false);
           ("query", JString (le_query l)); ("weight", JNumber weight)].

Definition save_error (i : saved_item) : option string :=
  if negb (sv_Error i =s "") then Some (sv_Error i)
  else if negb (sv_Result i =s "") && negb (sv_Result i =s "ok") then Some (sv_Result i) else None.
Fixpoint first_save_error (l : list saved_item) : option client_error :=
  match l with
  | [] => None
  | i :: l => match save_error i with Some e => Some (mkClientError ("save_summary " +:+ sv_ID i +:+ ": " +:+ e) false) | None => first_save_error l end
  end.

Definition saveSummaries (items : list summaryItem) : M mcpClient (option client_error) :=
  match items with
  | [] => mret None
  | _ =>
      r ← call_into decode_saves "synapse_knowledge_cache" (save_args items);
      mret (match r with inr e => Some e | inl saved => first_save_error saved end)
  end.

Fixpoint learn_all (weight : string) (l : list learnItem) : M mcpClient (option client_error) :=
  match l with
  | [] => mret None
  | i :: l =>
      r ← call_none "synapse_knowledge_cache" (learn_args weight i);
      match r with
      | Some e => mret (Some (mkClientError ("learn " +:+ le_query i +:+ ": " +:+ ce_text e) (ce_transient e)))
      | None => learn_all weight l
      end
  end.

Definition applyPlan (apply : bool) (weight : string) (p : plan) : M mcpClient (option client_error) :=
  if negb apply then mret None
  else
    r ← saveSummaries (pl_summaries p);
    match r with
    | Some e => mret (Some e)
    | None => learn_all weight (pl_learns p)
    end.

(** [run], from the inputs that were read: documents or features. *)
Inductive run_error := NoInput | NotConnected (e : client_error) | ApplyFailed (e : client_error) | Unresolved (n : nat).
Record reseed_options := mkReseedOptions { ro_repoID : string; ro_apply : bool; ro_weight : string }.

Definition no_input (input : docSet + list featureDoc) : bool :=
  match input with inl set => bool_decide (ds_catalogs set = [] ∧ ds_subsystems set = []) | inr fs => bool_decide (fs = []) end.
Definition build_plan (repoID : string) (files : string → option string) (input : docSet + list featureDoc) : M mcpClient plan :=
  match input with
  | inl set => buildDocsPlan repoID files set
  | inr features => buildFeaturePlan repoID features
  end.

Definition reseed_run (o : reseed_options) (files : string → option string) (input : docSet + list featureDoc)
  : M mcpClient (option run_error) :=
  if no_input input then mret (Some NoInput)
  else
    e ← initialize server;
    match e with
    | Some e => mret (Some (NotConnected e))
    | None =>
        p ← build_plan (ro_repoID o) files input;
        e ← applyPlan (ro_apply o) (ro_weight o) p;
        mret (match e with
              | Some e => Some (ApplyFailed e)
              | None => match pl_failures p with [] => None | fs => Some (Unresolved (length fs)) end
              end)
    end.

End Plan.

(** ** What a run sends *)

(** Whatever a program sends satisfies [P]. *)
Definition sends (P : request → Prop) {A} (m : M mcpClient A) : Prop :=
  ∀ env tick c, Forall P (cl_sent c) → Forall P (cl_sent (state m env tick c)).

Section Sends.
Context (server : list request → reply) (parse_json : string → option json) (P : request → Prop).

Lemma sends_ret {A} (a : A) : sends P (mret a : M mcpClient A).
Proof. by intros env tick c. Qed.
Lemma sends_bind {A B} (m : M mcpClient A) (f : A → M mcpClient B) : sends P m → (∀ a, sends P (f a)) → sends P (a ← m; f a).
Proof.
  intros Hm Hf env tick c Hc. specialize (Hm env tick c Hc). unfold state, mbind, M_bind in *.
  destruct (m env tick c) as [[a t] c']. apply Hf, Hm.
Qed.
Lemma sends_quiet f : (∀ c, cl_sent (f c) = cl_sent c) → sends P (modify f).
Proof. intros Hf env tick c Hc. unfold state, modify. cbn. by rewrite Hf. Qed.

(** A call sends its own method and parameters only. *)
Definition own (method : string) (params : option json) : Prop :=
  ∀ id session, P (mkRequest id method params session).

Lemma callOnce_sends method params notify : own method params → sends P (callOnce server method params notify).
Proof.
  intros Ho. unfold callOnce. apply sends_bind; [destruct notify; [apply sends_ret|by apply sends_quiet]|]. intros _.
  intros env tick c Hc. unfold state, mbind, M_bind, get, modify. cbn.
  assert (∀ c', cl_sent c' = cl_sent c ++ [mkRequest (if notify then None else Some (cl_nextID c)) method params (cl_session c)] →
    Forall P (cl_sent c')) as Hsent by (intros c' ->; apply Forall_app; split; [done|]; apply Forall_singleton, Ho).
  destruct (server _) as [|status session b]; [by apply Hsent|]. destruct (session =s ""); by apply Hsent.
Qed.

Lemma call_sends method params notify : own method params → sends P (call server method params notify).
Proof.
  intros Ho. unfold call. generalize 1, (maxAttempts - 1)%nat. intros attempt more. revert attempt.
  induction more as [|more IH]; intros attempt; cbn [call_from]; (apply sends_bind; [by apply callOnce_sends|]); intros [v|e]; try apply sends_ret.
  destruct (negb _); [apply sends_ret|]. apply sends_bind; [by apply sends_quiet|]. intros _. apply IH.
Qed.

Lemma initialize_sends : own "initialize" (Some initialize_params) → own "notifications/initialized" None → sends P (initialize server).
Proof.
  intros H1 H2. unfold initialize. apply sends_bind; [by apply call_sends|]. intros [v|e]; [|apply sends_ret].
  apply sends_bind; [by apply call_sends|]. intros r. apply sends_ret.
Qed.

Definition tool_params (name : string) (args : json) : json := JObject [("arguments", args); ("name", JString name)].

Lemma callToolInto_sends {A} (decode : json → option A) name args : own "tools/call" (Some (tool_params name args)) →
  sends P (callToolInto server parse_json decode name args).
Proof.
  intros Ho. unfold callToolInto, callTool. apply sends_bind; [|intros r; apply sends_ret].
  apply sends_bind; [by apply call_sends|]. intros r. apply sends_ret.
Qed.
Lemma callToolNoResult_sends name args : own "tools/call" (Some (tool_params name args)) → sends P (callToolNoResult server parse_json name args).
Proof.
  intros Ho. unfold callToolNoResult, callTool. apply sends_bind; [|intros r; apply sends_ret].
  apply sends_bind; [by apply call_sends|]. intros r. apply sends_ret.
Qed.

Context (Hsearch : ∀ args, own "tools/call" (Some (tool_params "synapse_search_codebase" args))).

Lemma plan_item_sends path suits repoID file query summary offers p :
  sends P (plan_item path (resolve server parse_json suits repoID file query) summary offers p).
Proof.
  unfold plan_item, resolve, searchChunks. apply sends_bind; [|intros r; apply sends_ret].
  apply sends_bind; [by apply callToolInto_sends|]. intros r. apply sends_ret.
Qed.

Lemma plan_all_sends {A} (item : A → plan → M mcpClient plan) l : (∀ x p, sends P (item x p)) → ∀ p, sends P (plan_all item l p).
Proof. intros Hi. induction l as [|x l IH]; intros p; cbn [plan_all]; [apply sends_ret|]. apply sends_bind; [apply Hi|]. done. Qed.

Lemma build_sends repoID files input : sends P (build_plan server parse_json repoID files input).
Proof.
  unfold build_plan. destruct input as [set|features].
  - unfold buildDocsPlan. apply sends_bind; [|intros p; apply plan_all_sends; intros x q; apply plan_item_sends].
    apply plan_all_sends. intros d p. unfold plan_catalog. destruct (featurePathFor _ _); [apply plan_item_sends|apply sends_ret].
  - unfold buildFeaturePlan. apply plan_all_sends. intros x p. apply plan_item_sends.
Qed.

Lemma applyPlan_sends apply weight p :
  (apply = true → own "tools/call" (Some (tool_params "synapse_knowledge_cache" (save_args (pl_summaries p)))) ∧
     ∀ l, l ∈ pl_learns p → own "tools/call" (Some (tool_params "synapse_knowledge_cache" (learn_args weight l)))) →
  sends P (applyPlan server parse_json apply weight p).
Proof.
  intros Ha. unfold applyPlan. destruct apply; cbn [negb]; [|apply sends_ret]. destruct (Ha eq_refl) as [Hs Hl]. apply sends_bind.
  - unfold saveSummaries. destruct (pl_summaries p); [apply sends_ret|]. apply sends_bind; [by apply callToolInto_sends|]. intros r. apply sends_ret.
  - intros [e|]; [apply sends_ret|]. induction (pl_learns p) as [|l ls IH]; cbn [learn_all]; [apply sends_ret|].
    apply sends_bind; [apply callToolNoResult_sends, Hl, list_elem_of_here|]. intros [e|]; [apply sends_ret|].
    apply IH; [|intros l' Hl'; by apply Hl, list_elem_of_further]. intros _. split; [done|]. intros l' Hl'. by apply Hl, list_elem_of_further.
Qed.

End Sends.

(** A request that asks and changes nothing. *)
Definition asks (rq : request) : Prop :=
  rq_RPC rq ∈ ["initialize"; "notifications/initialized"] ∨
  rq_RPC rq = "tools/call" ∧ ∃ args, rq_Params rq = Some (tool_params "synapse_search_codebase" args).
(** A request that stores what a plan holds. *)
Definition stores (weight : string) (p : plan) (rq : request) : Prop :=
  rq_RPC rq = "tools/call" ∧
  (rq_Params rq = Some (tool_params "synapse_knowledge_cache" (save_args (pl_summaries p))) ∨
   ∃ l, l ∈ pl_learns p ∧ rq_Params rq = Some (tool_params "synapse_knowledge_cache" (learn_args weight l))).

(** The plan a run makes. *)
Definition planned (server : list request → reply) (parse_json : string → option json) (o : reseed_options)
  (files : string → option string) (input : docSet + list featureDoc) (env : Env) (tick : nat) : plan :=
  let c := state (initialize server) env tick newMCPClient in
  let t := ticks (initialize server) env tick newMCPClient in
  result (build_plan server parse_json (ro_repoID o) files input) env t c.

(** C32: a dry run writes nothing. Whatever the server answers, a run without
    [--apply] sends nothing but the handshake and searches, retries among them; and
    with it the only other requests store the summaries, all at once, and the learned
    queries of the plan it made. *)
Theorem reseed_writes_its_plan (server : list request → reply) (parse_json : string → option json) (o : reseed_options)
    (files : string → option string) (input : docSet + list featureDoc) (env : Env) (tick : nat) :
  Forall (λ rq, asks rq ∨ ro_apply o = true ∧ stores (ro_weight o) (planned server parse_json o files input env tick) rq)
    (cl_sent (state (reseed_run server parse_json o files input) env tick newMCPClient)).
Proof.
  set (p := planned _ _ _ _ _ _ _). set (P := λ rq, asks rq ∨ ro_apply o = true ∧ stores (ro_weight o) p rq).
  assert (∀ args, own P "tools/call" (Some (tool_params "synapse_search_codebase" args))) as Hsearch
    by (intros args id session; left; right; split; [done|]; by exists args).
  assert (sends P (initialize server)) as Hinit.
  { apply initialize_sends; intros id session; left; left; rewrite !elem_of_cons; auto. }
  unfold reseed_run. destruct (no_input input); [by apply Forall_nil|].
  specialize (Hinit env tick newMCPClient (Forall_nil_2 P)). subst p. unfold planned in P. unfold state, ticks, result, mbind, M_bind in *.
  destruct (initialize server env tick newMCPClient) as [[[e|] t1] c1]; [exact Hinit|]. cbn [fst snd] in *.
  pose proof (build_sends server parse_json P Hsearch (ro_repoID o) files input env t1 c1 Hinit) as Hbuild. unfold state in Hbuild. revert Hbuild.
  subst P. destruct (build_plan server parse_json (ro_repoID o) files input env t1 c1) as [[p t2] c2]. cbn [fst snd]. intros Hbuild.
  pose proof (applyPlan_sends server parse_json (λ rq, asks rq ∨ ro_apply o = true ∧ stores (ro_weight o) p rq) (ro_apply o) (ro_weight o) p) as Happly.
  unfold sends, state in Happly. specialize (Happly) with (env := env) (tick := t2) (c := c2).
  destruct (applyPlan server parse_json (ro_apply o) (ro_weight o) p env t2 c2) as [[e t3] c3]. cbn in Happly |- *. apply Happly; [|done].
  intros Ha. split; [|intros l Hl]; intros id session; right; (split; [done|]); (split; [done|]); [by left|right; by exists l].
Qed.

(** ** What a plan holds *)

Lemma count_tag_spec tags : ∀ seen freq name, name ≠ "" →
  default 0 ((foldl count_tag (seen, freq) tags).2 !! name) =
    default 0 (freq !! name) + if bool_decide (name ∉ seen ∧ name ∈ map tag_name tags) then 1 else 0.
Proof.
  induction tags as [|t tags IH]; intros seen freq name Hn; cbn [foldl map].
  { rewrite bool_decide_eq_false_2 by by intros [_ ?%not_elem_of_nil]. cbn [snd]. lia. }
  unfold count_tag at 2. cbn [fst snd]. destruct (tag_name t =s "") eqn:He.
  { cbn [orb]. apply streq_true in He. rewrite IH by done. f_equal. rewrite He.
    erewrite bool_decide_ext; [reflexivity|]. rewrite elem_of_cons. naive_solver. }
  cbn [orb]. case_bool_decide as Hs; rewrite IH by done.
  - f_equal. erewrite bool_decide_ext; [reflexivity|]. rewrite elem_of_cons. naive_solver.
  - destruct (decide (name = tag_name t)) as [->|Hne].
    + rewrite lookup_insert_eq. cbn [default]. rewrite bool_decide_eq_false_2 by set_solver.
      rewrite bool_decide_eq_true_2 by (split; [done|by left]). unfold id. lia.
    + rewrite lookup_insert_ne by done. f_equal. erewrite bool_decide_ext; [reflexivity|].
      rewrite elem_of_cons. set_solver.
Qed.

(** The frequency of a tag is the number of lists that have it. *)
Lemma tagFrequency_counts lists name : name ≠ "" →
  default 0 (tagFrequency lists !! name) = Z.of_nat (length (filter (λ l, name ∈ map tag_name l) lists)).
Proof.
  intros Hn. unfold tagFrequency.
  assert (∀ freq, default 0 (foldl count_tags freq lists !! name) =
    default 0 (freq !! name) + Z.of_nat (length (filter (λ l, name ∈ map tag_name l) lists))) as H; [|by rewrite H, lookup_empty].
  induction lists as [|l lists IH]; intros freq; cbn [foldl]; [cbn; lia|]. rewrite IH. unfold count_tags at 1.
  rewrite (count_tag_spec l ∅ freq name Hn). rewrite filter_cons. case_decide as Hd.
  - rewrite bool_decide_eq_true_2 by set_solver. cbn [length]. lia.
  - rewrite bool_decide_eq_false_2 by naive_solver. lia.
Qed.

(** A tag that is learned belongs to one item. *)
Lemma learned_tag_unique {A} (tags : A → list string) (l : list A) x y name :
  name ∈ tag_queries (tagFrequency (map tags l)) (tags x) → x ∈ l → y ∈ l → name ∈ map tag_name (tags y) → tags y = tags x.
Proof.
  unfold tag_queries. rewrite list_elem_of_filter. intros [[Hn Hf] Hx'] Hx Hy Hy'. rewrite tagFrequency_counts in Hf by done.
  assert (∀ z, z ∈ l → name ∈ map tag_name (tags z) → tags z ∈ filter (λ l, name ∈ map tag_name l) (map tags l)) as Hz.
  { intros z Hz Hz'. apply list_elem_of_filter. split; [done|]. apply list_elem_of_fmap. by exists z. }
  pose proof (Hz x Hx Hx') as H1. pose proof (Hz y Hy Hy') as H2.
  destruct (filter _ _) as [|a [|b r]]; cbn in Hf; try lia. apply list_elem_of_singleton in H1, H2. congruence.
Qed.

Record plan_ok (n : nat) (p : plan) : Prop := {
  po_index : ∀ q id, pl_learnIndex p !! q = Some id ↔ mkLearn q id ∈ pl_learns p;
  po_once : NoDup (map le_query (pl_learns p));
  po_learns : ∀ l, l ∈ pl_learns p → le_query l ≠ "" ∧ TrimSpace (le_query l) = le_query l ∧ le_chunkID l ∈ map su_ChunkID (pl_summaries p);
  po_items : (length (pl_summaries p) + length (pl_failures p))%nat = n;
}.

Lemma new_plan_ok : plan_ok 0 new_plan.
Proof.
  split; cbn; try done; [|constructor|by intros l ?%not_elem_of_nil].
  intros q id. rewrite lookup_empty. split; [done|by intros ?%not_elem_of_nil].
Qed.

Lemma addFailure_ok n path e p : plan_ok n p → plan_ok (S n) (addFailure path e p).
Proof. intros []. split; cbn; try done. rewrite length_app. cbn. lia. Qed.

Lemma addSummary_ok n id text p : plan_ok n p → plan_ok (S n) (addSummary id text p).
Proof.
  intros []. split; cbn; try done; [|rewrite length_app; cbn; lia]. intros l Hl. destruct (po_learns0 l Hl) as (? & ? & ?). split_and!; try done.
  rewrite map_app. apply elem_of_app. by left.
Qed.

Lemma addWarning_ok n w p : plan_ok n p → plan_ok n (addWarning w p).
Proof. intros []. by split. Qed.

Lemma addLearn_ok n id p query : plan_ok n p → id ∈ map su_ChunkID (pl_summaries p) → plan_ok n (addLearn id p query).
Proof.
  intros Hok Hid. unfold addLearn. destruct (TrimSpace query =s "") eqn:Hq; [done|]. apply streq_false in Hq.
  destruct (pl_learnIndex p !! TrimSpace query) as [existing|] eqn:He; [destruct (_ =s _); [done|by apply addWarning_ok]|].
  assert (TrimSpace query ∉ map le_query (pl_learns p)) as Hnew.
  { intros ([q i] & Heq & Hl)%list_elem_of_fmap. cbn in Heq. subst q. apply (po_index n p Hok) in Hl. by rewrite He in Hl. }
  destruct Hok. split; cbn; try done.
  - intros q i. rewrite elem_of_app, list_elem_of_singleton. destruct (decide (q = TrimSpace query)) as [->|Hne].
    + rewrite lookup_insert_eq. split; [intros [= ->]; by right|]. intros [Hl|[= ->]]; [|done].
      exfalso. apply Hnew, list_elem_of_fmap. by exists (mkLearn (TrimSpace query) i).
    + rewrite lookup_insert_ne by done. rewrite po_index0. split; [by left|]. by intros [?|[= -> _]].
  - rewrite map_app. apply NoDup_app. split; [done|]. split; [by intros q Hq' ->%list_elem_of_singleton|apply NoDup_singleton].
  - intros l [Hl| ->%list_elem_of_singleton]%elem_of_app; [by apply po_learns0|]. cbn. split_and!; try done. apply TrimSpace_idem.
Qed.

Lemma addLearn_summaries id p query : pl_summaries (addLearn id p query) = pl_summaries p.
Proof. unfold addLearn. destruct (_ =s ""); [done|]. destruct (_ !! _); [by destruct (_ =s _)|done]. Qed.

Lemma addLearns_ok n id queries : ∀ p, plan_ok n p → id ∈ map su_ChunkID (pl_summaries p) → plan_ok n (addLearns id queries p).
Proof.
  unfold addLearns. induction queries as [|q qs IH]; intros p Hok Hid; cbn [foldl]; [done|].
  apply IH; [by apply addLearn_ok|]. by rewrite addLearn_summaries.
Qed.

Section Build.
Context (server : list request → reply) (parse_json : string → option json).

(** An item is summarised or reported, whatever the server answers. *)
Definition item_ok (m : plan → M mcpClient plan) : Prop :=
  ∀ n p env tick c, plan_ok n p → plan_ok (S n) (result (m p) env tick c).

Lemma plan_item_ok path chunk summary offers :
  (∀ p, (offers p).1 = p ∨ ∃ w, (offers p).1 = addWarning w p) → item_ok (plan_item path chunk summary offers).
Proof.
  intros Ho n p env tick c Hok. unfold plan_item, result, mbind, M_bind, mret, M_ret.
  destruct (chunk env tick c) as [[[ref|e] t] c']; cbn [fst]; [|by apply addFailure_ok].
  pose proof (Ho (addSummary (ch_ID ref) summary p)) as H. destruct (offers _) as [p' queries]. cbn [fst] in H.
  pose proof (addSummary_ok n (ch_ID ref) summary p Hok) as Hs.
  assert (ch_ID ref ∈ map su_ChunkID (pl_summaries (addSummary (ch_ID ref) summary p))) as Hid.
  { cbn. rewrite map_app. apply elem_of_app. right. apply list_elem_of_here. }
  destruct H as [-> |[w ->]]; apply addLearns_ok; try done. by apply addWarning_ok.
Qed.

Lemma plan_all_ok {A} (item : A → plan → M mcpClient plan) l : (∀ x, item_ok (item x)) →
  ∀ n p env tick c, plan_ok n p → plan_ok (length l + n) (result (plan_all item l p) env tick c).
Proof.
  intros Hi. induction l as [|x l IH]; intros n p env tick c Hok; cbn [plan_all length]; [done|].
  specialize (Hi x n p env tick c Hok). unfold result, mbind, M_bind in *. destruct (item x p env tick c) as [[p' t] c']. cbn [fst] in *.
  replace (S (length l) + n)%nat with (length l + S n)%nat by lia. by apply IH.
Qed.

Definition input_size (input : docSet + list featureDoc) : nat :=
  match input with inl set => length (ds_catalogs set) + length (ds_subsystems set) | inr fs => length fs end.

(** Every input is accounted for and every learned query is unambiguous. A plan
    holds one summary or one failure for each document or feature, whatever the server
    answers; no query is learned twice, none is blank or padded, and each leads to a
    chunk that is summarised. A tag becomes a query only for the feature that alone
    carries it. *)
Theorem plan_accounts (repoID : string) (files : string → option string) (input : docSet + list featureDoc)
    (env : Env) (tick : nat) (c : mcpClient) :
  plan_ok (input_size input) (result (build_plan server parse_json repoID files input) env tick c) ∧
  (∀ fs f g name, name ∈ tag_queries (tagFrequency (map fd_tags fs)) (fd_tags f) → f ∈ fs → g ∈ fs →
     name ∈ map tag_name (fd_tags g) → fd_tags g = fd_tags f).
Proof.
  split; [|intros fs f g name; apply learned_tag_unique]. unfold build_plan. destruct input as [set|fs]; cbn [input_size].
  - unfold buildDocsPlan, result, mbind, M_bind.
    pose proof (plan_all_ok (plan_catalog server parse_json repoID files (tagFrequency (map (λ d, fm_GherkinTags (d_fm d)) (ds_catalogs set))))
      (ds_catalogs set)) as Hc. specialize (Hc) with (n := 0%nat) (p := new_plan) (env := env) (tick := tick) (c := c).
    unfold result in Hc. destruct (plan_all _ (ds_catalogs set) new_plan env tick c) as [[p t] c']. cbn [fst] in Hc.
    replace (length (ds_catalogs set) + length (ds_subsystems set))%nat with (length (ds_subsystems set) + (length (ds_catalogs set) + 0))%nat by lia.
    apply (plan_all_ok (plan_subsystem server parse_json repoID)); [intros d; apply plan_item_ok; by left|].
    apply Hc; [|apply new_plan_ok]. intros d n q env' tick' c'' Hok. unfold plan_catalog.
    destruct (featurePathFor _ _); [|by apply addFailure_ok]. apply plan_item_ok; [|done].
    intros q'. destruct (featureHeading _); [by left|right; by eexists].
  - rewrite <- (Nat.add_0_r (length fs)). apply plan_all_ok; [|apply new_plan_ok]. intros f. apply plan_item_ok. by left.
Qed.

End Build.

(** ** Retrying *)

Definition own_message (method : string) (params : option json) (rq : request) : Prop := rq_RPC rq = method ∧ rq_Params rq = params.

Lemma callOnce_sent server method params env tick c :
  let c' := state (callOnce server method params false) env tick c in
  ∃ session, cl_sent c' = cl_sent c ++ [mkRequest (Some (cl_nextID c + 1)) method params session] ∧
    cl_nextID c' = cl_nextID c + 1 ∧ cl_waits c' = cl_waits c.
Proof.
  exists (cl_session c). unfold callOnce, state, mbind, M_bind, get, modify. cbn.
  destruct (server _) as [|status session b]; [done|]. by destruct (session =s "").
Qed.

(** What [call_from] did between two states of the client. *)
Definition attempted (method : string) (params : option json) (more : nat) (attempt : Z) (c c' : mcpClient)
  (r : option json + client_error) : Prop :=
  ∃ new, cl_sent c' = cl_sent c ++ new ∧ (1 <= length new <= S more)%nat ∧
    map rq_ID new = map (λ k, Some (cl_nextID c + Z.of_nat (S k))) (seq 0 (length new)) ∧
    Forall (own_message method params) new ∧
    cl_waits c' = cl_waits c ++ map (λ k, (attempt + Z.of_nat k) * 250) (seq 0 (length new - 1)) ∧
    match r with inl _ => True | inr e => (length new < S more)%nat → ce_transient e = false end.

Section Attempts.
Context (method : string) (params : option json) (session : string) (c c1 : mcpClient).
Context (Hs : cl_sent c1 = cl_sent c ++ [mkRequest (Some (cl_nextID c + 1)) method params session]).
Context (Hn : cl_nextID c1 = cl_nextID c + 1) (Hw : cl_waits c1 = cl_waits c).

Lemma attempted_once more attempt r : match r with inl _ => True | inr e => (1 < S more)%nat → ce_transient e = false end →
  attempted method params more attempt c c1 r.
Proof.
  intros Hr. exists [mkRequest (Some (cl_nextID c + 1)) method params session]. cbn [length map seq]. split_and!; try done; try lia.
  - by apply Forall_singleton.
  - by rewrite app_nil_r.
Qed.

Lemma attempted_again more attempt c' r :
  attempted method params more (attempt + 1) {| c1 with cl_waits := cl_waits c1 ++ [attempt * 250] |} c' r →
  attempted method params (S more) attempt c c' r.
Proof.
  intros (new & H1 & H2 & H3 & H4 & H5 & H6). cbn [cl_sent cl_nextID cl_waits] in H1, H3, H5.
  exists (mkRequest (Some (cl_nextID c + 1)) method params session :: new). split; [by rewrite H1, Hs, <- app_assoc|].
  split; [cbn [length]; lia|]. split; [|split; [|split]].
  - cbn [map length seq rq_ID]. f_equal. rewrite H3, Hn, <- seq_shift, map_map. apply map_ext. intros k. f_equal. lia.
  - by apply Forall_cons.
  - rewrite H5, Hw, <- app_assoc. f_equal. destruct new as [|x new]; [cbn in H2; lia|]. cbn [length].
    replace (S (S (length new)) - 1)%nat with (S (S (length new) - 1)) by lia. cbn [seq map app]. f_equal; [lia|].
    rewrite <- seq_shift, map_map. apply map_ext. intros k. lia.
  - destruct r; [done|]. cbn [length]. intros. apply H6. lia.
Qed.
End Attempts.

Lemma call_from_attempts server method params more : ∀ attempt env tick c,
  attempted method params more attempt c (state (call_from server attempt more method params false) env tick c)
    (result (call_from server attempt more method params false) env tick c).
Proof.
  induction more as [|more IH]; intros attempt env tick c; cbn [call_from]; unfold result, state, mbind, M_bind;
    destruct (callOnce_sent server method params env tick c) as (session & Hs & Hn & Hw); unfold state in Hs, Hn, Hw;
    destruct (callOnce server method params false env tick c) as [[[v|e] t] c1]; cbn [snd] in Hs, Hn, Hw; unfold mret, M_ret; cbn [fst snd];
    try (eapply (attempted_once _ _ session); [exact Hs|exact Hw|first [exact I|intros; lia]]).
  destruct (ce_transient e) eqn:He; cbn [negb].
  - eapply (attempted_again _ _ session); [exact Hs|exact Hn|exact Hw|apply IH].
  - eapply (attempted_once _ _ session); [exact Hs|exact Hw|by intros _].
Qed.

(** A call that gives up has tried at most three times. It sends its message
    once for each attempt, under a new number each time, waits a quarter of a second
    longer each time, and stops at the first answer, or at the first error that is no
    failure of the connection. *)
Theorem call_attempts (server : list request → reply) (method : string) (params : option json) (env : Env) (tick : nat) (c : mcpClient) :
  let r := result (call server method params false) env tick c in
  let c' := state (call server method params false) env tick c in
  ∃ new, cl_sent c' = cl_sent c ++ new ∧ (1 <= length new <= 3)%nat ∧
    map rq_ID new = map (λ k, Some (cl_nextID c + Z.of_nat (S k))) (seq 0 (length new)) ∧
    Forall (λ rq, rq_RPC rq = method ∧ rq_Params rq = params) new ∧
    cl_waits c' = cl_waits c ++ take (length new - 1) [250; 500] ∧
    match r with inl _ => True | inr e => (length new < 3)%nat → ce_transient e = false end.
Proof.
  intros r c'. destruct (call_from_attempts server method params 2 1 env tick c) as (new & Hs & Hn & Hids & Hown & Hw & Hr).
  exists new. split_and!; try done; try lia. etransitivity; [exact Hw|]. f_equal.
  destruct new as [|? [|? [|? [|]]]]; cbn in Hn; try lia; reflexivity.
Qed.

(** A send that failed for any reason is tried again. *)
Example every_failed_send_is_retried (env : Env) :
  let c := state (call (λ _, NotSent) "initialize" None false) env 0 newMCPClient in
  map rq_ID (cl_sent c) = [Some 1; Some 2; Some 3] ∧ cl_waits c = [250; 500].
Proof. by vm_compute. Qed.

(** A write that the server carried out, but whose answer was cut off, is sent
    again. *)
Example cut_answer_repeats_the_write (env : Env) :
  let c := state (call (λ _, Answered 200 "" (Unreadable true)) "tools/call" None false) env 0 newMCPClient in
  map rq_RPC (cl_sent c) = ["tools/call"; "tools/call"; "tools/call"].
Proof. by vm_compute. Qed.
