(* ===== verification/Skills.v ===== *)
(** * Skill files ([internal/skills/skills.go])

    Finding the SKILL.md files of a project, checking their metadata, and the report
    made of them. The file system and the YAML reader are parameters; Go ranges over
    the map of project files in an order of its own, which is an argument. *)

From Stdlib Require Import ZArith Lia Ascii.
From stdpp Require Import base tactics strings gmap.
From stdpp Require Import list.
From S2P Require Import Prelude Bytes Net Url UrlText DynamicConfig.

Open Scope Z_scope.
Open Scope go_scope.

(** ** Data *)

Record SkillMetadata := mkSkillMetadata {
  sm_Name : string;
  sm_Description : string;
  sm_License : string;
  sm_Compatibility : string;
  sm_Metadata : gmap string string;
}.

Record ValidationResult := mkValidationResult {
  vr_Path : string;
  vr_Metadata : option SkillMetadata;
  vr_Valid : bool;
  vr_Validations : list string;
  vr_Errors : list string;
}.

Inductive skill_error :=
  | SkillUnreadable (text : string)
  | ErrInvalidFrontmatter
  | ErrMissingName
  | ErrMissingDescription
  | ErrNameMismatch.

(** The errors of [os.ReadDir]. *)
Inductive dir_error := DirMissing | DirUnreadable (text : string).
Record dir_entry := mkDirEntry { de_Name : string; de_IsDir : bool }.

(** What the package asks of the file system; an error is its text. *)
Record SkillFiles := mkSkillFiles {
  read_dir : string → list dir_entry + dir_error;
  stat : string → bool;
  read_file : string → string + string;
}.

(** ** The metadata block *)

Definition newline : string := byte_of 10.

Definition extractFrontmatter (data : string) : string :=
  let trimmed := trim_runes [" "; byte_of 9] (String.length data) data in
  if negb (HasPrefix trimmed "---") then data
  else
    match index_of 0 newline data with
    | None => data
    | Some start =>
        let rest := sdrop (start + 1) data in
        match index_of 0 (newline +:+ "---") rest with
        | None => rest
        | Some e => stake e rest
        end
    end.

(** [filepath.Dir] *)
Definition Dir (path : string) : string :=
  Clean (match LastIndexByte path "/" with Some i => stake (S i) path | None => "" end).

(** ** Checking a file *)

Definition err_text (e : skill_error) : string :=
  match e with
  | SkillUnreadable text => text
  | ErrInvalidFrontmatter => "invalid skill frontmatter"
  | ErrMissingName => "skill missing required 'name' field"
  | ErrMissingDescription => "skill missing required 'description' field"
  | ErrNameMismatch => "skill name does not match directory name"
  end.

Section Skills.
(** The reader of the block: the metadata, or the text of its error. *)
Context (yaml : string → SkillMetadata + string) (fs : SkillFiles).

Definition passed (text : string) (r : ValidationResult) : ValidationResult :=
  {| r with vr_Validations := vr_Validations r ++ [text] |}.
Definition failed_with (text : string) (r : ValidationResult) : ValidationResult :=
  {| r with vr_Errors := vr_Errors r ++ [text] |}.

Definition ValidateSkillFile (path : string) : ValidationResult * option skill_error :=
  let r := mkValidationResult path None false [] [] in
  match read_file fs path with
  | inr text => (failed_with ("failed to read file: " +:+ text) r, Some (SkillUnreadable text))
  | inl data =>
      match yaml (extractFrontmatter data) with
      | inr text => (failed_with ("failed to parse YAML frontmatter: " +:+ text) r, Some ErrInvalidFrontmatter)
      | inl metadata =>
          let r := passed "YAML frontmatter parsed successfully" {| r with vr_Metadata := Some metadata |} in
          if sm_Name metadata =s "" then (failed_with (err_text ErrMissingName) r, Some ErrMissingName)
          else
            let r := passed "name field present" r in
            if sm_Description metadata =s "" then (failed_with (err_text ErrMissingDescription) r, Some ErrMissingDescription)
            else
              let r := passed "description field present" r in
              let dir := Base (Dir path) in
              if negb (sm_Name metadata =s dir) then
                (failed_with (err_text ErrNameMismatch +:+ " (expected " +:+ dir +:+ ", got " +:+ sm_Name metadata +:+ ")") r,
                 Some ErrNameMismatch)
              else
                let r := passed "name matches directory" r in
                let r := if 200 <? Z.of_nat (String.length (sm_Description metadata)) then passed "description is concise" r else r in
                ({| r with vr_Valid := bool_decide (vr_Errors r = []) |}, None)
      end
  end.

(** ** Finding the files *)

Definition skillDirs : list string := [".opencode/skills"; ".claude/skills"; ".claude/agents"].

Definition skillPath (fullPath name : string) : string := PathJoin [fullPath; name; "SKILL.md"].

(** The loop over the entries of one directory. *)
Fixpoint skills_in (fullPath : string) (entries : list dir_entry) : list ValidationResult :=
  match entries with
  | [] => []
  | e :: entries =>
      if negb (de_IsDir e) then skills_in fullPath entries
      else
        let path := skillPath fullPath (de_Name e) in
        if negb (stat fs path) then skills_in fullPath entries
        else (ValidateSkillFile path).1 :: skills_in fullPath entries
  end.

Fixpoint find_in (rootDir : string) (dirs : list string) (results : list ValidationResult) : list ValidationResult + string :=
  match dirs with
  | [] => inl results
  | dir :: dirs =>
      let fullPath := PathJoin [rootDir; dir] in
      match read_dir fs fullPath with
      | inr DirMissing => find_in rootDir dirs results
      | inr (DirUnreadable text) => inr text
      | inl entries => find_in rootDir dirs (results ++ skills_in fullPath entries)
      end
  end.
Definition FindSkills (rootDir : string) : list ValidationResult + string := find_in rootDir skillDirs [].

(** ** The report *)

Definition projectFiles : list string := ["AGENTS.md"; "Makefile"; ".golangci.yml"; ".claude.md"].

Record ProjectStatus := mkProjectStatus {
  ps_files : gmap string bool;
  ps_count : Z;
  ps_details : list ValidationResult;
}.

Definition ValidateProjectConfig (rootDir : string) : ProjectStatus :=
  let skills := match FindSkills rootDir with inl l => l | inr _ => [] end in
  mkProjectStatus (list_to_map (map (λ f, (f, stat fs (PathJoin [rootDir; f]))) projectFiles))
    (Z.of_nat (length skills)) skills.

(** [string(rune(r))]: the UTF-8 encoding, that of U+FFFD for what is no rune. *)
Definition utf8 (r : Z) : string :=
  let b n := byte_of (Z.to_N n) in
  let cont n := b (128 + n mod 64) in
  if (r <? 0) || (1114111 <? r) || ((55296 <=? r) && (r <=? 57343)) then b 239 +:+ b 191 +:+ b 189
  else if r <? 128 then b r
  else if r <? 2048 then b (192 + r / 64) +:+ cont r
  else if r <? 65536 then b (224 + r / 4096) +:+ cont (r / 64) +:+ cont r
  else b (240 + r / 262144) +:+ cont (r / 4096) +:+ cont (r / 64) +:+ cont r.
(** [rune(n)] for an [int]. *)
Definition to_rune (n : Z) : Z := (n + 2147483648) mod 4294967296 - 2147483648.

Definition file_row (st : ProjectStatus) (file : string) : string :=
  "| " +:+ file +:+ " | " +:+ (if default false (ps_files st !! file) then "✅" else "❌") +:+ " |" +:+ newline.
Definition skill_row (m : SkillMetadata) : string :=
  "| " +:+ sm_Name m +:+ " | " +:+ sm_Description m +:+ " |" +:+ newline.
Definition count_row (count : Z) : string :=
  "| OpenCode Skills | ✅ " +:+ utf8 (to_rune (48 + count)) +:+ " loaded |" +:+ newline.

(** [None] is a panic: the metadata of a file that could not be read is nil. *)
Definition skill_rows (details : list ValidationResult) : option string :=
  rows ← mapM (λ s, skill_row <$> vr_Metadata s) details; Some (Join rows "").

Definition GenerateStartHereReport (order : list string) (rootDir : string) : option string :=
  let st := ValidateProjectConfig rootDir in
  rows ← skill_rows (ps_details st);
  Some (Join [
    "# Start Here - OpenCode Configuration" +:+ newline +:+ newline;
    "✅ **Connected**: OpenCode client is operational" +:+ newline +:+ newline;
    "## Configuration Status" +:+ newline +:+ newline;
    "| Component | Status |" +:+ newline;
    "|-----------|--------|" +:+ newline;
    Join (map (file_row st) order) "";
    count_row (ps_count st);
    newline +:+ "## Available Skills" +:+ newline +:+ newline;
    "| Skill | Purpose |" +:+ newline;
    "|-------|---------|" +:+ newline;
    rows;
    newline +:+ "## Quick Start" +:+ newline +:+ newline;
    "```bash" +:+ newline;
    "# Run full quality gate" +:+ newline;
    "make ci" +:+ newline +:+ newline;
    "# Validate configuration" +:+ newline;
    "go run ./cmd/ocd-smoke-alarm validate --config=configs/sample.yaml" +:+ newline;
    "```" +:+ newline] "").

End Skills.

(** ** Paths *)

Definition plain_name (x : string) : Prop := has_byte "/" x = false ∧ x ≠ "" ∧ x ≠ "." ∧ x ≠ "..".
Definition is_prefix (pre : string) : Prop := pre = "" ∨ ∃ a, pre = a +:+ "/".

Lemma Split_app sep a b : Split (a +:+ String sep b) sep = Split a sep ++ Split b sep.
Proof. apply (split_go_app sep a b ""). Qed.

Lemma TrimRight_slash_plain pre x : x ≠ "" → has_byte "/" x = false → TrimRight_slash (pre +:+ x) = pre +:+ x.
Proof.
  intros Hx Hs. unfold TrimRight_slash. rewrite trim_runes_stop; [apply srev_involutive|].
  rewrite srev_app. rewrite <- has_byte_rev in Hs. destruct (String.rev x) as [|c r] eqn:E.
  - by rewrite <- (srev_involutive x), E in Hx.
  - cbn [has_byte] in Hs. apply orb_false_iff in Hs as [Hc%bool_decide_eq_false _].
    cbn [find]. destruct (HasPrefix _ "/") eqn:Hp; [|done]. apply HasPrefix_spec in Hp as [u Hu].
    by injection Hu as ->.
Qed.

Lemma Base_plain pre x : is_prefix pre → x ≠ "" → has_byte "/" x = false → Base (pre +:+ x) = x.
Proof.
  intros Hpre Hx Hs. unfold Base. rewrite TrimRight_slash_plain by done.
  assert (pre +:+ x =s "" = false) as ->.
  { apply streq_false. intros H. apply (f_equal String.length) in H. rewrite slength_app in H. destruct x; [done|cbn in H; lia]. }
  unfold LastIndexByte. destruct Hpre as [->|[a ->]].
  - change ("" +:+ x) with x. by rewrite last_index_none.
  - rewrite sapp_assoc. change ("/" +:+ x) with (String "/" x). rewrite last_index_app by done. rewrite Nat.add_0_l. apply sdrop_app_S.
Qed.

(** A path that ends in a plain name and a slash is cleaned to one that ends in the
    name. *)
Lemma Clean_dir pre x : is_prefix pre → plain_name x → ∃ q, is_prefix q ∧ Clean (pre +:+ x +:+ "/") = q +:+ x.
Proof.
  intros Hpre (Hs & Hx & Hd & Hdd). unfold Clean.
  assert (∃ l, Split (pre +:+ x +:+ "/") "/" = l ++ [x; ""]) as [l Hl].
  { destruct Hpre as [->|[a ->]].
    - exists []. change ("" +:+ x +:+ "/") with (x +:+ String "/" ""). by rewrite Split_app, (Split_plain _ _ Hs).
    - exists (Split a "/"). rewrite sapp_assoc. change ("/" +:+ x +:+ "/") with (String "/" (x +:+ String "/" "")).
      by rewrite !Split_app, (Split_plain _ _ Hs). }
  assert (pre +:+ x +:+ "/" =s "" = false) as ->.
  { apply streq_false. intros H. apply (f_equal String.length) in H. rewrite !slength_app in H. cbn in H. lia. }
  cbv zeta. rewrite Hl, fold_left_app. set (rooted := HasPrefix _ "/"). cbn [fold_left]. set (st := fold_left _ l []).
  assert (clean_step rooted st x = x :: st) as -> by (unfold clean_step; by rewrite !(proj2 (streq_false _ _))).
  change (clean_step rooted (x :: st) "") with (x :: st). change (rev (x :: st)) with (rev st ++ [x]).
  rewrite Join_last. assert (is_prefix (Join (rev st ++ [""]) "/")) as Hj.
  { destruct (Join_slash (rev st)) as [->|[a ->]]; [by left|right; by exists a]. }
  destruct rooted.
  - exists ("/" +:+ Join (rev st ++ [""]) "/"). split; [|by rewrite sapp_assoc].
    right. destruct Hj as [->|[a ->]]; [by exists ""|]. exists ("/" +:+ a). by rewrite sapp_assoc.
  - exists (Join (rev st ++ [""]) "/"). split; [done|]. destruct (rev st ++ [x]) eqn:E; [by destruct (rev st)|done].
Qed.

Lemma skill_dir_name full name : full ≠ "" → plain_name name → Base (Dir (skillPath full name)) = name.
Proof.
  intros Hf Hn. pose proof Hn as (Hs & He & Hd & Hdd).
  assert (skillPath full name = PathJoin [full +:+ "/" +:+ name; "SKILL.md"]) as ->.
  { unfold skillPath, PathJoin. rewrite !filter_cons_True by (done || by destruct full). cbn [filter list_filter Join]. by rewrite !sapp_assoc. }
  rewrite PathJoin_inside by (done || by destruct full).
  assert (∃ pre, is_prefix pre ∧ dir_prefix (full +:+ "/" +:+ name) = pre +:+ name +:+ "/") as (pre & Hpre & ->).
  { unfold dir_prefix. change (full +:+ "/" +:+ name) with (full +:+ String "/" name).
    assert (Split (full +:+ String "/" name) "/" = Split full "/" ++ [name]) as -> by (by rewrite Split_app, (Split_plain _ _ Hs)).
    cbv zeta. rewrite fold_left_app. set (rooted := HasPrefix _ "/"). cbn [fold_left]. set (st := fold_left _ (Split full "/") []).
    assert (clean_step rooted st name = name :: st) as -> by (unfold clean_step; by rewrite !(proj2 (streq_false _ _))).
    exists ((if rooted then "/" else "") +:+ Join (rev st ++ [""]) "/"). split.
    - destruct (Join_slash (rev st)) as [->|[a ->]]; destruct rooted; [right; by exists ""|by left|right; exists ("/" +:+ a); by rewrite sapp_assoc|right; by exists a].
    - rewrite sapp_assoc. f_equal. change (rev (name :: st)) with (rev st ++ [name]). rewrite <- app_assoc. cbn [app].
      clear. induction (rev st) as [|y l IH]; [done|]. destruct (l ++ [name; ""]) as [|z r] eqn:E; [by destruct l|].
      destruct (l ++ [""]) as [|z' r'] eqn:E'; [by destruct l|]. change (Join ((y :: l) ++ [name; ""]) "/") with (Join (y :: (l ++ [name; ""])) "/").
      change (Join ((y :: l) ++ [""]) "/") with (Join (y :: (l ++ [""])) "/"). rewrite E, E'. cbn [Join] in *. rewrite IH. by rewrite !sapp_assoc. }
  unfold Dir, LastIndexByte. change ("/" +:+ "SKILL.md") with (String "/" "SKILL.md").
  replace ((pre +:+ name +:+ "/") +:+ "SKILL.md") with ((pre +:+ name) +:+ String "/" "SKILL.md") by by rewrite !sapp_assoc.
  rewrite last_index_app by done. rewrite Nat.add_0_l. 
  replace (stake (S (String.length (pre +:+ name))) ((pre +:+ name) +:+ String "/" "SKILL.md")) with (pre +:+ name +:+ "/").
  - destruct (Clean_dir pre name Hpre Hn) as (q & Hq & ->). by apply Base_plain.
  - rewrite stake_app_ge by lia. replace (S (String.length (pre +:+ name)) - String.length (pre +:+ name))%nat with 1%nat by lia.
    cbn. by rewrite sapp_assoc.
Qed.

Lemma Clean_not_empty p : Clean p ≠ "".
Proof.
  unfold Clean. destruct (p =s ""); [done|]. cbv zeta. destruct (HasPrefix p "/"); [done|].
  set (st := fold_left _ _ []). assert (Forall (λ x, x ≠ "") st) as Hst.
  { unfold st. generalize (Split p "/"). assert (Forall (λ x, x ≠ "") []) as H by done. revert H. generalize (@nil string).
    intros st0 H0 l. revert st0 H0. induction l as [|x l IH]; intros st0 H0; [done|]. cbn [fold_left]. apply IH.
    unfold clean_step. destruct (x =s "") eqn:Ex; [done|]. apply streq_false in Ex. destruct (x =s "."); [done|]. cbn [orb].
    destruct (x =s ".."); [|by constructor]. destruct st0 as [|top rest]; [by repeat constructor|].
    destruct (top =s ".."); [by constructor|]. by apply Forall_cons in H0 as [_ ?]. }
  apply Forall_rev in Hst. destruct (rev st) as [|x l]; [done|]. apply Forall_cons in Hst as [Hx _].
  cbn [Join]. destruct l; [done|]. by destruct x.
Qed.

(** ** What is found *)

Section Found.
Context (yaml : string → SkillMetadata + string) (fs : SkillFiles).

(** The directories of [rootDir] that hold a SKILL.md, each as the directory it is
    in and its name. *)
Definition sites_in (fullPath : string) : list (string * string) :=
  match read_dir fs fullPath with
  | inl entries => map (λ e, (fullPath, de_Name e)) (filter (λ e, de_IsDir e = true ∧ stat fs (skillPath fullPath (de_Name e)) = true) entries)
  | inr _ => []
  end.
Definition skill_sites (rootDir : string) : list (string * string) :=
  flat_map (λ dir, sites_in (PathJoin [rootDir; dir])) skillDirs.

(** What makes the file of a skill valid. *)
Definition good_skill (full name : string) : Prop :=
  ∃ data m, read_file fs (skillPath full name) = inl data ∧ yaml (extractFrontmatter data) = inl m ∧
    sm_Name m = name ∧ sm_Description m ≠ "".

Lemma ValidateSkillFile_spec path :
  let '(r, err) := ValidateSkillFile yaml fs path in
  vr_Path r = path ∧ (vr_Valid r = true ↔ err = None) ∧ (vr_Errors r = [] ↔ err = None) ∧
  vr_Metadata r = (match read_file fs path with
                   | inl data => match yaml (extractFrontmatter data) with inl m => Some m | inr _ => None end
                   | inr _ => None
                   end) ∧
  (err = None ↔ ∃ m, vr_Metadata r = Some m ∧ sm_Name m ≠ "" ∧ sm_Description m ≠ "" ∧ sm_Name m = Base (Dir path)).
Proof.
  unfold ValidateSkillFile. destruct (read_file fs path) as [data|text]; [|by split_and!; try done; split; [|intros (m & ? & _)]].
  destruct (yaml _) as [m|text]; [|by split_and!; try done; split; [|intros (m & ? & _)]].
  destruct (sm_Name m =s "") eqn:Hn.
  { apply streq_true in Hn. split_and!; try done. split; [done|]. by intros (? & [= <-] & ? & _). }
  destruct (sm_Description m =s "") eqn:Hd.
  { apply streq_true in Hd. split_and!; try done. split; [done|]. by intros (? & [= <-] & _ & ? & _). }
  apply streq_false in Hn, Hd. destruct (sm_Name m =s Base (Dir path)) eqn:Hb; cbn [negb].
  - apply streq_true in Hb. destruct (200 <? _); split_and!; try done; (split; [intros _; by exists m|done]).
  - apply streq_false in Hb. split_and!; try done. split; [done|]. by intros (? & [= <-] & _ & _ & ?).
Qed.

Lemma skills_in_sites full entries :
  skills_in yaml fs full entries =
  map (λ e, (ValidateSkillFile yaml fs (skillPath full (de_Name e))).1)
    (filter (λ e, de_IsDir e = true ∧ stat fs (skillPath full (de_Name e)) = true) entries).
Proof.
  induction entries as [|e entries IH]; [done|]. cbn [skills_in]. rewrite IH, filter_cons.
  destruct (de_IsDir e) eqn:E1; cbn [negb]; [|by rewrite decide_False by naive_solver].
  destruct (stat fs _) eqn:E2; cbn [negb]; [by rewrite decide_True by done|by rewrite decide_False by naive_solver].
Qed.

Lemma find_in_spec rootDir dirs : ∀ results,
  match find_in yaml fs rootDir dirs results with
  | inl found => found = results ++ map (λ p, (ValidateSkillFile yaml fs (skillPath p.1 p.2)).1) (flat_map (λ dir, sites_in (PathJoin [rootDir; dir])) dirs) ∧
      ∀ dir text, dir ∈ dirs → read_dir fs (PathJoin [rootDir; dir]) ≠ inr (DirUnreadable text)
  | inr text => ∃ dir, dir ∈ dirs ∧ read_dir fs (PathJoin [rootDir; dir]) = inr (DirUnreadable text)
  end.
Proof.
  induction dirs as [|dir dirs IH]; intros results; cbn [find_in flat_map].
  { split; [by rewrite app_nil_r|]. by intros ?? ?%elem_of_nil. }
  unfold sites_in at 1. destruct (read_dir fs (PathJoin [rootDir; dir])) as [entries|[|text]] eqn:Hr.
  - specialize (IH (results ++ skills_in yaml fs (PathJoin [rootDir; dir]) entries)). destruct (find_in _ _ _ _ _) as [found|text].
    + destruct IH as [-> Hall]. split.
      * rewrite map_app, map_map, skills_in_sites, <- app_assoc. done.
      * intros d text [->|?]%elem_of_cons; [by rewrite Hr|by apply Hall].
    + destruct IH as (d & Hd & ?). exists d. split; [by right|done].
  - specialize (IH results). destruct (find_in _ _ _ _ _) as [found|text].
    + destruct IH as [-> Hall]. split; [done|]. intros d text [->|?]%elem_of_cons; [by rewrite Hr|by apply Hall].
    + destruct IH as (d & Hd & ?). exists d. split; [by right|done].
  - exists dir. split; [by left|done].
Qed.

Lemma PathJoin_not_empty root dir : dir ≠ "" → PathJoin [root; dir] ≠ "".
Proof.
  intros Hd. unfold PathJoin. destruct (decide (root = "")) as [->|Hr].
  - rewrite filter_cons_False, filter_cons_True by (try done; tauto). apply Clean_not_empty.
  - rewrite !filter_cons_True by done. apply Clean_not_empty.
Qed.

Lemma site_plain (Hnames : ∀ dir entries e, read_dir fs dir = inl entries → e ∈ entries → plain_name (de_Name e)) root p :
  p ∈ skill_sites root → p.1 ≠ "" ∧ plain_name p.2.
Proof.
  unfold skill_sites. rewrite list_elem_of_In, in_flat_map. intros (dir & Hdir & Hp).
  assert (PathJoin [root; dir] ≠ "") as Hne.
  { apply PathJoin_not_empty. unfold skillDirs in Hdir. cbn in Hdir. by destruct Hdir as [<-|[<-|[<-|[]]]]. }
  unfold sites_in in Hp. destruct (read_dir fs _) as [entries|] eqn:Hr; [|done].
  apply in_map_iff in Hp as (e & <- & He%list_elem_of_In). apply list_elem_of_filter in He as [_ He]. split; [done|]. by eapply Hnames.
Qed.

(** The skills of a project are the directories that hold a SKILL.md. Unless a
    skill directory that exists cannot be listed, every such directory is reported
    once, in the order they are listed, whatever its file holds; and its skill is
    valid exactly when the file can be read, its metadata parses, names the very
    directory, and describes it. *)
Theorem found_skills (rootDir : string)
    (Hnames : ∀ dir entries e, read_dir fs dir = inl entries → e ∈ entries → plain_name (de_Name e)) :
  match FindSkills yaml fs rootDir with
  | inr text => ∃ dir, dir ∈ skillDirs ∧ read_dir fs (PathJoin [rootDir; dir]) = inr (DirUnreadable text)
  | inl found => Forall2 (λ p r, vr_Path r = skillPath p.1 p.2 ∧ (vr_Valid r = true ↔ good_skill p.1 p.2)) (skill_sites rootDir) found
  end.
Proof.
  pose proof (find_in_spec rootDir skillDirs []) as H. unfold FindSkills. destruct (find_in _ _ _ _ _) as [found|text]; [|done].
  destruct H as [-> _]. cbn [app]. fold (skill_sites rootDir). apply Forall2_fmap_r, Forall_Forall2_diag.
  apply Forall_forall. intros [full name] Hp. destruct (site_plain Hnames _ _ Hp) as [Hfull Hname]. unfold compose. cbn [fst snd] in *.
  pose proof (ValidateSkillFile_spec (skillPath full name)) as Hv. destruct (ValidateSkillFile _ _ _) as [r err]. cbn [fst].
  destruct Hv as (Hpath & Hvalid & _ & Hmeta & Herr). split; [done|]. rewrite Hvalid, Herr, skill_dir_name by done. unfold good_skill.
  rewrite Hmeta. split.
  - intros (m & Hm & _ & Hd & Hn). destruct (read_file fs _) as [data|] eqn:Hr; [|done]. exists data.
    destruct (yaml _) as [m'|]; [|done]. injection Hm as ->. by exists m.
  - intros (data & m & -> & Hy & <- & Hd). rewrite Hy. exists m. split_and!; try done. by destruct Hname as (_ & ? & _).
Qed.

(** ** The report *)

Lemma skill_rows_spec details :
  match skill_rows details with
  | None => ∃ s, s ∈ details ∧ vr_Metadata s = None
  | Some rows => ∀ s, s ∈ details → ∃ m, vr_Metadata s = Some m ∧ Contains rows (skill_row m) = true
  end.
Proof.
  unfold skill_rows. destruct (mapM _ details) as [rows|] eqn:Hm; cbn.
  - apply mapM_Some in Hm. intros s Hs. apply list_elem_of_lookup in Hs as [i Hi]. eapply Forall2_lookup_l in Hm as (row & Hrow & Hs); [|exact Hi].
    destruct (vr_Metadata s) as [m|]; [|done]. exists m. split; [done|]. injection Hs as <-. apply Join_occurs. by eapply list_elem_of_lookup_2.
  - apply mapM_None, Exists_exists in Hm as (s & Hs & Hx). exists s. split; [done|]. by destruct (vr_Metadata s).
Qed.

(** The report is given exactly when every skill found has metadata, and names
    every one of them with its purpose, and every project file with whether it is
    there. *)
Theorem report_complete (order : list string) (rootDir : string) :
  let st := ValidateProjectConfig yaml fs rootDir in
  match GenerateStartHereReport yaml fs order rootDir with
  | None => ∃ s, s ∈ ps_details st ∧ vr_Metadata s = None
  | Some text =>
      (∀ s, s ∈ ps_details st → ∃ m, vr_Metadata s = Some m ∧ Contains text (skill_row m) = true) ∧
      (∀ f, f ∈ order → f ∈ projectFiles →
         Contains text ("| " +:+ f +:+ " | " +:+ (if stat fs (PathJoin [rootDir; f]) then "✅" else "❌") +:+ " |" +:+ newline) = true)
  end.
Proof.
  intros st. unfold GenerateStartHereReport. fold st. pose proof (skill_rows_spec (ps_details st)) as H.
  destruct (skill_rows _) as [rows|]; cbn [mbind option_bind]; [|done]. split.
  - intros s Hs. destruct (H s Hs) as (m & ? & Hc). exists m. split; [done|]. eapply Contains_trans; [|exact Hc].
    apply Join_occurs. rewrite !elem_of_cons. tauto.
  - intros f Hf Hp. apply (Contains_trans _ (Join (map (file_row st) order) "")); [apply Join_occurs; rewrite !elem_of_cons; tauto|].
    apply Join_occurs, list_elem_of_fmap. exists f. split; [|done]. unfold file_row. do 4 f_equal.
    unfold st, ValidateProjectConfig, ps_files, projectFiles. unfold projectFiles in Hp. rewrite !elem_of_cons, elem_of_nil in Hp.
    by destruct Hp as [->|[->|[->|[->|[]]]]].
Qed.
End Found.

(** ** The block of metadata *)

Lemma index_first_byte c a b : ∀ i, has_byte c a = false → index_of i (String c "") (a +:+ String c b) = Some (i + String.length a)%nat.
Proof.
  induction a as [|d a IH]; intros i H.
  - change ("" +:+ String c b) with (String c b). cbn [index_of].
    assert (HasPrefix (String c b) (String c "") = true) as -> by apply (HasPrefix_app (String c "") b). f_equal. cbn. lia.
  - cbn [has_byte] in H. apply orb_false_iff in H as [Hd%bool_decide_eq_false Ha].
    change (String d a +:+ String c b) with (String d (a +:+ String c b)). cbn [index_of].
    destruct (HasPrefix _ _) eqn:Hp; [apply HasPrefix_spec in Hp as [u Hu]; by injection Hu|].
    rewrite IH by done. f_equal. cbn. lia.
Qed.

(** The closing marker cannot overlap a block that does not hold it. *)
Lemma index_marker block rest : ∀ i, index_of i (newline +:+ "---") block = None →
  index_of i (newline +:+ "---") (block +:+ newline +:+ "---" +:+ rest) = Some (i + String.length block)%nat.
Proof.
  induction block as [|d s IH]; intros i H.
  - change ("" +:+ newline +:+ "---" +:+ rest) with (String "010" ("---" +:+ rest)). cbn [index_of].
    assert (HasPrefix (String "010" ("---" +:+ rest)) (newline +:+ "---") = true) as -> by apply (HasPrefix_app (newline +:+ "---") rest).
    f_equal. cbn. lia.
  - cbn [index_of] in H. destruct (HasPrefix (String d s) (newline +:+ "---")) eqn:Hp; [done|].
    change (String d s +:+ ?x) with (String d (s +:+ x)). cbn [index_of].
    destruct (HasPrefix (String d (s +:+ _)) (newline +:+ "---")) eqn:Hq.
    + exfalso. apply HasPrefix_spec in Hq as [u Hu]. change ((newline +:+ "---") +:+ u) with (String "010" (String "-" (String "-" (String "-" u)))) in Hu.
      injection Hu as -> Hu. destruct s as [|c1 s]; [discriminate Hu|]. injection Hu as -> Hu.
      destruct s as [|c2 s]; [discriminate Hu|]. injection Hu as -> Hu. destruct s as [|c3 s]; [discriminate Hu|]. injection Hu as -> Hu.
      change (HasPrefix ((newline +:+ "---") +:+ s) (newline +:+ "---") = false) in Hp. by rewrite HasPrefix_app in Hp.
    + rewrite IH by done. f_equal. cbn. lia.
Qed.

(** What is written between the markers is what the YAML reader gets. A file that
    opens with a line of dashes, whatever follows the dashes on that line, gives
    exactly the text up to the next line that starts with three dashes, whatever
    comes after it. *)
Theorem extractFrontmatter_block (head block rest : string) :
  has_byte "010" head = false → index_of 0 (newline +:+ "---") block = None →
  extractFrontmatter ("---" +:+ head +:+ newline +:+ block +:+ newline +:+ "---" +:+ rest) = block.
Proof.
  intros Hh Hb. unfold extractFrontmatter.
  set (body := block +:+ newline +:+ "---" +:+ rest). set (data := "---" +:+ head +:+ newline +:+ body).
  assert (trim_runes [" "; byte_of 9] (String.length data) data = data) as ->.
  { apply trim_runes_stop. done. }
  assert (HasPrefix data "---" = true) as -> by apply HasPrefix_app. cbn [negb].
  assert (index_of 0 newline data = Some (String.length ("---" +:+ head))) as ->.
  { unfold data. replace ("---" +:+ head +:+ newline +:+ body) with (("---" +:+ head) +:+ String "010" body) by (by rewrite sapp_assoc).
    change newline with (String "010" ""). rewrite index_first_byte; [done|]. by rewrite has_byte_app, Hh. }
  replace (sdrop (String.length ("---" +:+ head) + 1) data) with body.
  - unfold body. rewrite index_marker by done. rewrite Nat.add_0_l. by rewrite stake_app.
  - unfold data. replace ("---" +:+ head +:+ newline +:+ body) with (("---" +:+ head) +:+ String "010" body) by (by rewrite sapp_assoc).
    rewrite Nat.add_1_r. by rewrite sdrop_app_S.
Qed.

(** ** On concrete inputs *)

Definition lines (l : list string) : string := Join l newline.

Lemma extractFrontmatter_block_witness :
  has_byte "010" " # skill" = false ∧
  extractFrontmatter ("---" +:+ " # skill" +:+ newline +:+ "name: a" +:+ newline +:+ "---" +:+ lines [""; "# Text"; "---"]) = "name: a".
Proof. split; [reflexivity|]. apply (extractFrontmatter_block " # skill" "name: a" (lines [""; "# Text"; "---"])); reflexivity. Defined.

(** A reader of the one form the examples use. *)
Definition ex_yaml (block : string) : SkillMetadata + string :=
  match Split block "010" with
  | [n; d] => inl (mkSkillMetadata (TrimPrefix n "name: ") (TrimPrefix d "description: ") "" "" ∅)
  | _ => inr "yaml: mapping expected"
  end.
Definition ex_skill (name : string) : string := lines ["---"; "name: " +:+ name; "description: does it"; "---"; ""; "# Text"].

(** One good skill, one whose name is not its directory's, and what is no skill. *)
Definition ex_dir : string := "p/.claude/skills".
Definition ex_fs : SkillFiles := mkSkillFiles
  (λ d, if d =s ex_dir then inl [mkDirEntry "README.md" false; mkDirEntry "good" true; mkDirEntry "other" true; mkDirEntry "empty" true] else inr DirMissing)
  (λ p, mem p [ex_dir +:+ "/good/SKILL.md"; ex_dir +:+ "/other/SKILL.md"])
  (λ p, if p =s ex_dir +:+ "/other/SKILL.md" then inl (ex_skill "another") else inl (ex_skill "good")).

Lemma found_skills_witness :
  skill_sites ex_fs "p" = [(ex_dir, "good"); (ex_dir, "other")] ∧
  match FindSkills ex_yaml ex_fs "p" with
  | inr text => ∃ dir, dir ∈ skillDirs ∧ read_dir ex_fs (PathJoin ["p"; dir]) = inr (DirUnreadable text)
  | inl found => Forall2 (λ p r, vr_Path r = skillPath p.1 p.2 ∧ (vr_Valid r = true ↔ good_skill ex_yaml ex_fs p.1 p.2)) (skill_sites ex_fs "p") found
  end.
Proof.
  split; [vm_compute; reflexivity|]. apply (found_skills ex_yaml ex_fs "p").
  intros dir entries e. unfold ex_fs. cbn [read_dir]. destruct (dir =s ex_dir); [|discriminate]. intros [= <-].
  rewrite !elem_of_cons, elem_of_nil. intros [->|[->|[->|[->|[]]]]]; (split; [vm_compute; reflexivity|split_and!; discriminate]).
Defined.

Example ex_found : match FindSkills ex_yaml ex_fs "p" with inl l => map vr_Valid l = [true; false] | inr _ => False end.
Proof. vm_compute. reflexivity. Qed.

(** A SKILL.md that cannot be parsed makes the report panic: what it prints of a skill
    is read from metadata that is not there. *)
Example unparsed_skill_panics :
  GenerateStartHereReport (λ _, inr "yaml: bad") ex_fs projectFiles "p" = None.
Proof. vm_compute. reflexivity. Qed.

(** From ten skills on the count is shown as another character, and a directory that
    cannot be listed is reported as no skill at all. *)
Example ten_skills_are_a_colon : utf8 (to_rune (48 + 10)) = ":".
Proof. reflexivity. Qed.
Example unlisted_is_none :
  ps_count (ValidateProjectConfig ex_yaml (mkSkillFiles (λ d, if d =s "p/.claude/agents" then inr (DirUnreadable "permission denied") else read_dir ex_fs d) (stat ex_fs) (read_file ex_fs)) "p") = 0.
Proof. vm_compute. reflexivity. Qed.

(** An empty block is not seen to end, and the text after it is read as metadata. *)
Example empty_block_reads_on : extractFrontmatter (lines ["---"; "---"; "# Text"]) = lines ["---"; "# Text"].
Proof. vm_compute. reflexivity. Qed.

(** Only a long description is called concise. *)
Example long_is_concise :
  let fs d := mkSkillFiles (read_dir ex_fs) (stat ex_fs) (λ _, inl (lines ["---"; "name: good"; "description: " +:+ d; "---"])) in
  let concise d := mem "description is concise" (vr_Validations (ValidateSkillFile ex_yaml (fs d) (ex_dir +:+ "/good/SKILL.md")).1) in
  concise "short" = false ∧ concise (Join (repeat "long" 51) "") = true.
Proof. vm_compute. split; reflexivity. Qed.
