(* ===== verification/Commands.v ===== *)
(** * The other commands ([cmd/ocd-smoke-alarm/main.go])

    [validate], which checks a configuration; [discover] and [dynamic-config], which
    put discovery and the dynamic store together; and the [ops] commands, which act
    on a running instance through its pid file. A flag is the value it was given,
    what is printed is what is returned, and the quoting of an ID in a message leaves
    out Go's escapes. The processes, signals and shell are parameters. *)

From Stdlib Require Import ZArith Lia Ascii.
From stdpp Require Import base tactics strings gmap sorting relations.
From stdpp Require Import list.
From S2P Require Import Prelude Bytes Durations Net Url Targets Config ConfigValidate Discovery DynamicConfig Serve.

Open Scope Z_scope.
Open Scope go_scope.

(** ** [validate] *)

Record ValidationIssue := mkIssue { vi_Code : string; vi_Message : string; vi_Field : string }.

Definition quoted (s : string) : string := byte_of 34 +:+ s +:+ byte_of 34.
Definition issue_if (bad : bool) (i : ValidationIssue) : list ValidationIssue := if bad then [i] else [].

Definition target_issues (i : nat) (t : TargetConfig) : list ValidationIssue :=
  let field name := "targets" +:+ index i +:+ name in
  if negb (tc_Enabled t) then []
  else
    issue_if ((tc_Endpoint t =s "") && (Command (tc_Stdio t) =s ""))
      (mkIssue "TARGET_MISSING_ENDPOINT" ("target " +:+ quoted (tc_ID t) +:+ " has neither endpoint nor command") (field ".endpoint/stdio.command"))
    ++ (if auth_Type (tc_Auth t) =s "oauth" then
          issue_if (auth_ClientID (tc_Auth t) =s "")
            (mkIssue "OAUTH_MISSING_CLIENT_ID" ("target " +:+ quoted (tc_ID t) +:+ " oauth missing client_id") (field ".auth.client_id"))
          ++ issue_if (auth_TokenURL (tc_Auth t) =s "")
               (mkIssue "OAUTH_MISSING_TOKEN_URL" ("target " +:+ quoted (tc_ID t) +:+ " oauth missing token_url") (field ".auth.token_url"))
        else []).

Definition validateConfigIssues (cfg : Config) : list ValidationIssue :=
  concat (imap target_issues (cfg_Targets cfg))
  ++ issue_if (hc_Enabled (cfg_Health cfg) && (hc_ListenAddr (cfg_Health cfg) =s ""))
       (mkIssue "HEALTH_MISSING_ADDR" "health enabled but listen_addr not set" "health.listen_addr").

(** What the command prints, and the error it returns. *)
Inductive validate_report :=
  | LoadFailure (e : load_error)
  | IssuesFound (issues : list ValidationIssue)
  | FoundValid (service mode : string) (enabled total : nat).
Definition cmdValidate (machine : bool) (loaded : Config + load_error) : option validate_report * option load_error :=
  match loaded with
  | inr e => (if machine then Some (LoadFailure e) else None, Some e)
  | inl cfg =>
      match validateConfigIssues cfg with
      | [] => (Some (FoundValid (svc_Name (cfg_Service cfg)) (svc_Mode (cfg_Service cfg))
                       (length (EnabledTargets cfg)) (length (cfg_Targets cfg))), None)
      | issues => (Some (IssuesFound issues), None)
      end
  end.

(** ** [discover] and [dynamic-config] *)

Inductive command_error :=
  | NotLoaded (e : load_error)
  | DynamicDisabled
  | NotPersisted (e : save_error)
  | IDRequired
  | DirectoryRequired
  | DirectoryUnreadable
  | FileUnreadable
  | IndexNotWritten.

(** What a discovery run has found, and the disk. *)
Record Desk := mkDesk { dk_found : Found; dk_disk : gmap string contents }.
Definition on_found {A} (m : M Found A) : M Desk A := zoom dk_found (λ f k, mkDesk f (dk_disk k)) m.
Definition on_disk {A} (m : M (gmap string contents) A) : M Desk A := zoom dk_disk (λ d k, mkDesk (dk_found k) d) m.

Section Discovering.
Context (world : Surroundings) (io : OS).
Context (sort_records : list DiscoveryRecord → list DiscoveryRecord) (sort_artifacts : list SavedArtifact → list SavedArtifact).

Definition persist (cfg : Config) (records : list DiscoveryRecord) : M Desk (list SavedArtifact * option save_error) :=
  on_disk (SaveDiscoveryRecords io (NewStoreFromConfig (cfg_DynamicConfig cfg)) sort_artifacts records).

Definition cmdDiscover (loaded : Config + load_error) : M Desk (DiscoveryResult * list SavedArtifact + command_error) :=
  match loaded with
  | inr e => mret (inr (NotLoaded e))
  | inl cfg =>
      res ← on_found (Discover world sort_records cfg);
      if dy_Enabled (cfg_DynamicConfig cfg) && negb (bool_decide (dr_Records res = [])) then
        saved ← persist cfg (dr_Records res);
        match saved with
        | (_, Some e) => mret (inr (NotPersisted e))
        | (artifacts, None) => mret (inl (res, artifacts))
        end
      else mret (inl (res, []))
  end.

Definition dynamic_persist (loaded : Config + load_error) : M Desk (DiscoveryResult * list SavedArtifact + command_error) :=
  match loaded with
  | inr e => mret (inr (NotLoaded e))
  | inl cfg =>
      if negb (dy_Enabled (cfg_DynamicConfig cfg)) then mret (inr DynamicDisabled)
      else
        res ← on_found (Discover world sort_records cfg);
        saved ← persist cfg (dr_Records res);
        match saved with
        | (_, Some e) => mret (inr (NotPersisted e))
        | (artifacts, None) => mret (inl (res, artifacts))
        end
  end.
End Discovering.

(** The names of the files in a directory, in byte order. *)
Definition name_in (dir path : string) : option string :=
  if HasPrefix path (dir_prefix dir) then
    let name := sdrop (String.length (dir_prefix dir)) path in
    if (name =s "") || has_byte "/" name then None else Some name
  else None.
(** [os.ReadDir]: [readable] is whether the directory is there and may be read. *)
Definition read_names (readable : bool) (dir : string) (d : gmap string contents) : option (list string) :=
  if negb readable || (dir =s "") then None else Some (omap (λ p, name_in dir p) (map fst (map_to_list d))).

Definition config_file (name : string) : bool := HasSuffix (ToLower name) ".json" || HasSuffix (ToLower name) ".md".
Definition config_files (readable : bool) (dir : string) (d : gmap string contents) : option (list string) :=
  names ← read_names readable dir d; Some (sort_strings (filter (λ n, config_file n = true) names)).

(** The directory of [--dir], or that of the configuration, which is loaded for it. *)
Definition target_dir (loaded : Config + load_error) (dir : string) : string + load_error :=
  if blank dir then match loaded with inl cfg => inl (dy_Directory (cfg_DynamicConfig cfg)) | inr e => inr e end
  else inl (TrimSpace dir).

Definition dynamic_list (loaded : Config + load_error) (dir : string) (readable : bool) (d : gmap string contents)
  : list string + command_error :=
  match target_dir loaded dir with
  | inr e => inr (NotLoaded e)
  | inl targetDir =>
      match config_files readable targetDir d with
      | None => inr DirectoryUnreadable
      | Some names => inl (map (λ n, PathJoin [targetDir; n]) names)
      end
  end.

Definition show_ext (format : string) : string :=
  if EqualFold (TrimSpace format) "markdown" || EqualFold (TrimSpace format) "md" then ".md" else ".json".
Definition dynamic_show (loaded : Config + load_error) (dir id format : string) (d : gmap string contents) : contents + command_error :=
  if blank id then inr IDRequired
  else
    match target_dir loaded dir with
    | inr e => inr (NotLoaded e)
    | inl targetDir =>
        match d !! PathJoin [targetDir; TrimSpace id +:+ show_ext format] with
        | None => inr FileUnreadable
        | Some body => inl body
        end
    end.

Definition index_line (baseURL name : string) : string := "- [" +:+ name +:+ "](" +:+ baseURL +:+ "/" +:+ name +:+ ")" +:+ byte_of 10.
Definition index_text (now : Time) (targetDir baseURL : string) (names : list string) : string :=
  let nl := byte_of 10 in
  "# Dynamic Config Index" +:+ nl +:+ nl
  +:+ "- Generated at: `" +:+ RFC3339 now +:+ "`" +:+ nl
  +:+ "- Directory: `" +:+ targetDir +:+ "`" +:+ nl
  +:+ "- Serve Base URL: `" +:+ baseURL +:+ "`" +:+ nl +:+ nl
  +:+ Join (map (index_line baseURL) names) "".

(** The text that was written, and where. *)
Definition dynamic_index (loaded : Config + load_error) (dir out : string) (readable writable : bool)
  : M (gmap string contents) (string * string + command_error) :=
  match loaded with
  | inr e => mret (inr (NotLoaded e))
  | inl cfg =>
      let targetDir := if blank dir then dy_Directory (cfg_DynamicConfig cfg) else TrimSpace dir in
      if blank targetDir then mret (inr DirectoryRequired)
      else
        d ← get;
        match config_files readable targetDir d with
        | None => mret (inr DirectoryUnreadable)
        | Some names =>
            let base := TrimRight_slash (dy_ServeBaseURL (cfg_DynamicConfig cfg)) in
            let base := if base =s "" then "/dynamic-config" else base in
            now ← clock;
            let text := index_text now targetDir base names in
            let outPath := if blank out then PathJoin [targetDir; "index.md"] else TrimSpace out in
            if negb writable then mret (inr IndexNotWritten)
            else
              _ ← modify (<[Clean outPath := Other text]>);
              mret (inl (outPath, text))
        end
  end.

(** ** A second validation *)

Lemma no_target_issues prefix i t : enabled_target_problems prefix t = [] → target_issues i t = [].
Proof.
  unfold enabled_target_problems, target_issues. rewrite !app_nil_iff. intros (_ & _ & _ & Hep & _ & _ & _ & Ha).
  destruct (negb (tc_Enabled t)); [done|]. apply app_nil_iff. split.
  - unfold endpoint_of_target_problems in Hep. destruct (EqualFold _ _).
    + apply app_nil_iff in Hep as [Hc _]. apply problem_nil in Hc. destruct (Command (tc_Stdio t) =s "") eqn:E; [|by rewrite andb_false_r].
      apply streq_true in E. by rewrite E in Hc.
    + by destruct (tc_Endpoint t =s "").
  - destruct (auth_Type (tc_Auth t) =s "oauth") eqn:Ho; [|done]. apply streq_true in Ho. unfold auth_problems in Ha. rewrite Ho in Ha.
    change (ToLower "oauth") with AuthOAuth in Ha. cbn in Ha. destruct (auth_ClientID (tc_Auth t) =s ""); [done|].
    by destruct (auth_TokenURL (tc_Auth t) =s "").
Qed.

(** A configuration that loads has no issues. Everything [validate] looks for
    after loading a file, loading has refused already, so the command either returns
    the error of loading or reports the configuration valid; what it would print of
    issues, and that it would exit without an error then, never comes about. *)
Theorem loaded_has_no_issues (ParseRoots : gmap string string → bool) (decode : string → Config + string)
    (read_file : string → string + string) (path : string) (machine : bool) :
  let loaded := Load ParseRoots decode read_file path in
  match loaded with
  | inl cfg => validateConfigIssues cfg = [] ∧ ∃ service mode enabled total,
      cmdValidate machine loaded = (Some (FoundValid service mode enabled total), None) ∧ (enabled <= total)%nat
  | inr e => (cmdValidate machine loaded).2 = Some e
  end.
Proof.
  intros loaded. destruct loaded as [cfg|e] eqn:Hl; [|by destruct machine].
  assert (Config_Validate ParseRoots cfg = []) as Hv.
  { unfold loaded, Load, LoadBytes in Hl. destruct (read_file _) as [raw|]; [|done]. destruct (decode raw) as [c|]; [|done].
    destruct (Config_Validate ParseRoots (ApplyDefaults c)) eqn:E; [|done]. by injection Hl as <-. }
  assert (validateConfigIssues cfg = []) as Hi.
  { unfold Config_Validate in Hv. rewrite !app_nil_iff in Hv. destruct Hv as (_ & _ & Hh & _ & _ & _ & _ & _ & _ & _ & _ & _ & _ & _ & Ht).
    unfold validateConfigIssues. apply app_nil_iff. split.
    - destruct (target_problems_nil _ _ _ Ht) as (_ & _ & Hp). revert Hp. clear.
      assert (∀ f : nat → TargetConfig → list ValidationIssue, (∀ i t, t ∈ cfg_Targets cfg → f i t = []) → concat (imap f (cfg_Targets cfg)) = []) as H.
      { induction (cfg_Targets cfg) as [|t ts IH]; intros f Hf; [done|]. cbn [imap concat]. apply app_nil_iff. split; [apply Hf; by left|].
        apply IH. intros i t' Ht'. apply (Hf (S i)). by right. }
      intros Hp. apply H. intros i t Hin. destruct (tc_Enabled t) eqn:He; [|unfold target_issues; by rewrite He].
      destruct (Hp t Hin He) as [prefix Hj]. by eapply no_target_issues.
    - unfold validate_health in Hh. destruct (hc_Enabled (cfg_Health cfg)); [|done]. cbn [negb andb] in *.
      by destruct (hc_ListenAddr (cfg_Health cfg) =s ""). }
  split; [done|]. unfold cmdValidate. rewrite Hi. do 4 eexists. split; [done|]. apply length_filter.
Qed.

(** ** What was persisted is shown *)

Lemma last_of {A B} `{EqDecision B} (key : A → B) k l : k ∈ map key l →
  ∃ before y after, l = before ++ y :: after ∧ key y = k ∧ k ∉ map key after.
Proof.
  induction l as [|z l IH]; cbn [map]; [by intros ?%elem_of_nil|]. intros Hk. destruct (decide (k ∈ map key l)) as [Hin|Hout].
  - destruct (IH Hin) as (before & y & after & -> & Hy & Ha). by exists (z :: before), y, after.
  - apply elem_of_cons in Hk as [->|?]; [|done]. by exists [], z, l.
Qed.

Lemma HasSuffix_app s t : HasSuffix (s +:+ t) t = true.
Proof. unfold HasSuffix. rewrite srev_app. apply HasPrefix_app. Qed.

Lemma name_of_file o r f : f ∈ [FormatJSON; FormatMarkdown] → config_file (name_of o r f) = true.
Proof.
  unfold config_file, name_of, ext. rewrite ToLower_app, !elem_of_cons, elem_of_nil. intros [->|[->|[]]].
  - change (ToLower (if FormatJSON =s FormatJSON then ".json" else ".md")) with ".json". by rewrite HasSuffix_app.
  - change (ToLower (if FormatMarkdown =s FormatJSON then ".json" else ".md")) with ".md". by rewrite HasSuffix_app, orb_true_r.
Qed.

Lemma name_in_path o r f : name_in (Directory o) (path_of o r f) = Some (name_of o r f).
Proof.
  unfold name_in, path_of. rewrite HasPrefix_app, sdrop_app, name_no_slash, orb_false_r.
  destruct (name_of o r f =s "") eqn:E; [|done]. apply streq_true in E. exfalso. revert E. unfold name_of, ext.
  destruct (makeID_spec o r) as [_ Hn]. destruct (makeID o r); [done|]. by destruct (f =s _).
Qed.

Lemma listed_name o r f d names : f ∈ [FormatJSON; FormatMarkdown] → is_Some (d !! path_of o r f) →
  config_files true (Directory o) d = Some names → name_of o r f ∈ names.
Proof.
  intros Hf [body Hd]. unfold config_files, read_names. cbn [negb orb]. destruct (Directory o =s ""); [done|]. cbn. intros [= <-].
  rewrite (sort_strings_perm _). apply list_elem_of_filter. split; [by apply name_of_file|].
  apply list_elem_of_omap. exists (path_of o r f). split; [|apply name_in_path].
  apply list_elem_of_fmap. exists (path_of o r f, body). split; [done|]. by apply elem_of_map_to_list.
Qed.

Lemma id_trim o r : TrimSpace (makeID o r) = makeID o r.
Proof. destruct (makeID_spec o r) as [Hb _]. apply (TrimSpace_id id_byte); [apply id_byte_not_space|done]. Qed.

Lemma valid_store ParseRoots cfg : Config_Validate ParseRoots cfg = [] → dy_Enabled (cfg_DynamicConfig cfg) = true →
  let dc := cfg_DynamicConfig cfg in let o := NewStoreFromConfig dc in
  Directory o = dy_Directory dc ∧ ServeBaseURL o = dy_ServeBaseURL dc ∧ blank (dy_Directory dc) = false.
Proof.
  unfold Config_Validate. rewrite !app_nil_iff. intros (_ & _ & _ & _ & _ & _ & _ & _ & _ & _ & _ & _ & Hd & _) He.
  unfold validate_dynamic in Hd. rewrite He in Hd. cbn [negb] in Hd. rewrite !app_nil_iff in Hd. destruct Hd as (Hdir & Hurl & _).
  apply problem_nil in Hdir. unfold NewStoreFromConfig, NewStore. cbn. rewrite Hdir.
  destruct (blank (dy_ServeBaseURL _)); [done|]. apply problem_nil, negb_false_iff in Hurl. unfold rooted in Hurl. by rewrite Hurl.
Qed.

Lemma wp_on_disk {A} (m : M (gmap string contents) A) env tick k Q :
  wp (on_disk m) env tick k Q = wp m env tick (dk_disk k) (λ a t d, Q a t (mkDesk (dk_found k) d)).
Proof. apply wp_zoom. Qed.

Lemma show_ext_of f : f ∈ [FormatJSON; FormatMarkdown] → show_ext f = ext f.
Proof. rewrite !elem_of_cons, elem_of_nil. by intros [->|[->|[]]]. Qed.

Section Persisted.
Context (ParseRoots : gmap string string → bool) (cfg : Config) (world : Surroundings) (io : OS).
Context (sort_records : list DiscoveryRecord → list DiscoveryRecord) (sort_artifacts : list SavedArtifact → list SavedArtifact).
Context `{Hsort : !SliceSort by_artifact sort_artifacts}.
Context (Hvalid : Config_Validate ParseRoots cfg = []) (Hon : dy_Enabled (cfg_DynamicConfig cfg) = true).

Abbreviation o := (NewStoreFromConfig (cfg_DynamicConfig cfg)).
Abbreviation dir := (dy_Directory (cfg_DynamicConfig cfg)).
Abbreviation url := (dy_ServeBaseURL (cfg_DynamicConfig cfg)).

Lemma store_saves records env tick d : healthy io → (∀ n, rfc3339_time (env_clock env n) = true) →
  dy_AllowOverwrite (cfg_DynamicConfig cfg) = true →
  wp (SaveDiscoveryRecords io o sort_artifacts records) env tick d (λ r _ d',
    r.2 = None ∧ map entry r.1 ≡ₚ entries o records ∧ saved o env records d d').
Proof.
  intros Hio Hclock Hover. apply wp_run.
  destruct (SaveDiscoveryRecords_saves io (mkStoreOptions dir (dy_Formats (cfg_DynamicConfig cfg)) url
    (dy_AllowOverwrite (cfg_DynamicConfig cfg)) (dy_RequireUniqueIDs (cfg_DynamicConfig cfg))) sort_artifacts records env tick d Hio Hclock)
    as (H1 & H2 & _ & H3); [by left|]. done.
Qed.

Lemma dynamic_persist_saves env tick k : healthy io → (∀ n, rfc3339_time (env_clock env n) = true) →
  dy_AllowOverwrite (cfg_DynamicConfig cfg) = true →
  wp (dynamic_persist world io sort_records sort_artifacts (inl cfg)) env tick k (λ r _ k',
    ∃ res artifacts, r = inl (res, artifacts) ∧ map entry artifacts ≡ₚ entries o (dr_Records res) ∧
      saved o env (dr_Records res) (dk_disk k) (dk_disk k')).
Proof.
  intros Hio Hclock Hover. unfold dynamic_persist. rewrite Hon. cbn [negb]. wp_go. unfold on_found. rewrite wp_zoom.
  apply wp_intro. intros res t1 f1. wp_go. unfold persist. rewrite wp_on_disk. cbn [dk_disk].
  eapply wp_mono; [by apply store_saves|]. intros [artifacts err] t2 d' (Herr & Hent & Hs). cbn [fst snd] in *. subst err. wp_go.
  by exists res, artifacts.
Qed.

End Persisted.

(** ** [ops] *)

Inductive signal := SIGTERM | SIGKILL | SIGHUP.
#[global] Instance signal_eq_dec : EqDecision signal.
Proof. solve_decision. Defined.

(** The files, the signals that were sent and the commands that were run. *)
Record OpsState := mkOpsState {
  os_files : gmap string string;
  os_sent : list (Z * signal);
  os_ran : list string;
}.

(** What the operating system answers: whether a process runs after the signals sent
    so far, whether it refuses a signal, and whether a command succeeds. *)
Record Processes := mkProcesses {
  pr_runs : nat → list (Z * signal) → Z → bool;
  pr_refuses : nat → Z → signal → bool;
  pr_shell : nat → string → bool;
}.

Inductive ops_error :=
  | NoPID
  | NotRunning (pid : Z)
  | SignalFailed (s : signal) (pid : Z)
  | StopFailed (pid : Z)
  | StepFailed (step : string)
  | ConfigError (e : load_error).

Definition appName : string := "ocd-smoke-alarm".
(** [filepath.Join(stateDir, appName+".pid")] *)
Definition pid_path (stateDir : string) : string := PathJoin [stateDir; appName +:+ ".pid"].

(** [writePIDFile], when the file can be written. *)
Definition writePIDFile (self : Z) (path : string) (files : gmap string string) : gmap string string := <[Clean path := Itoa self]> files.

Section Ops.
Context (os : Processes).

Definition pid_in (path : string) : M OpsState (option Z) :=
  s ← get; mret (readPID (mkMachine (os_files s) ∅) (Clean path)).
Definition process_runs (pid : Z) : M OpsState bool :=
  n ← moment; s ← get; mret (pr_runs os n (os_sent s) pid).
(** [Process.Signal]; the answer is whether it was delivered. *)
Definition send (pid : Z) (s : signal) : M OpsState bool :=
  n ← moment;
  if pr_refuses os n pid s then mret false
  else _ ← modify (λ st, {| st with os_sent := os_sent st ++ [(pid, s)] |}); mret true.
Definition remove_file (path : string) : M OpsState unit := modify (λ st, {| st with os_files := delete (Clean path) (os_files st) |}).

(** The loop of [cmdOpsStop] until the deadline: whether the process was seen to
    stop. [None] is a loop that has not ended. *)
Fixpoint await_stop (fuel : nat) (deadline : Time) (pid : Z) : M OpsState (option bool) :=
  match fuel with
  | O => mret None
  | S fuel =>
      now ← clock;
      if negb (Before now deadline) then mret (Some false)
      else
        running ← process_runs pid;
        if running : bool then await_stop fuel deadline pid else mret (Some true)
  end.

(** What [ops stop] reports: the pid, and whether it was forced. *)
Definition cmdOpsStop (fuel : nat) (pidFile : string) (wait : Duration) : M OpsState (option (Z * bool + ops_error)) :=
  pid ← pid_in pidFile;
  match pid with
  | None => mret (Some (inr NoPID))
  | Some pid =>
      sent ← send pid SIGTERM;
      if negb sent then mret (Some (inr (SignalFailed SIGTERM pid)))
      else
        now ← clock;
        seen ← await_stop fuel (TimeAdd now wait) pid;
        match seen with
        | None => mret None
        | Some true => _ ← remove_file pidFile; mret (Some (inl (pid, false)))
        | Some false =>
            _ ← send pid SIGKILL;
            running ← process_runs pid;
            if running : bool then mret (Some (inr (StopFailed pid)))
            else _ ← remove_file pidFile; mret (Some (inl (pid, true)))
        end
  end.

(** [ops status]: [health] is the status code of the health URL, when it answers. *)
Inductive ops_status := Stopped | Known (pid : Z) (running : bool) (health : option Z).
Definition cmdOpsStatus (pidFile : string) (health : option Z) : M OpsState ops_status :=
  pid ← pid_in pidFile;
  match pid with
  | None => mret Stopped
  | Some pid => running ← process_runs pid; mret (Known pid running health)
  end.

Definition runShell (command : string) : M OpsState bool :=
  n ← moment; _ ← modify (λ st, {| st with os_ran := os_ran st ++ [command] |}); mret (pr_shell os n command).
Fixpoint run_update_steps (steps : list (string * string)) : M OpsState (option ops_error) :=
  match steps with
  | [] => mret None
  | (name, command) :: steps =>
      if blank command then run_update_steps steps
      else
        ok ← runShell command;
        if ok : bool then run_update_steps steps else mret (Some (StepFailed name))
  end.
Definition update_steps (cfg : Config) : list (string * string) :=
  let u := ra_Update (cfg_RemoteAgent cfg) in
  [("stop", ru_StopCommand u); ("start", ru_StartCommand u); ("verify", ru_VerifyCommand u)].
Definition runManagedUpdate (cfg : Config) : M OpsState (option ops_error) := run_update_steps (update_steps cfg).

Definition signalReload (pidFile : string) : M OpsState (option ops_error) :=
  pid ← pid_in pidFile;
  match pid with
  | None => mret (Some NoPID)
  | Some pid =>
      running ← process_runs pid;
      if negb running then mret (Some (NotRunning pid))
      else
        sent ← send pid SIGHUP;
        mret (if sent : bool then None else Some (SignalFailed SIGHUP pid))
  end.

(** [--config] and [--pid-file], the latter when it is given. *)
Definition cmdOpsReload (config : string) (loaded : Config + load_error) (pidFile : option string) : M OpsState (option ops_error) :=
  let signal_default dflt := signalReload (match pidFile with Some p => TrimSpace p | None => dflt end) in
  if blank config then signal_default (pid_path "state")
  else
    match loaded with
    | inr e => mret (Some (ConfigError e))
    | inl cfg =>
        if ra_ManagedUpdates (cfg_RemoteAgent cfg) then runManagedUpdate cfg
        else signal_default (pid_path (run_StateDir (cfg_Runtime cfg)))
    end.

End Ops.

(** ** Stopping *)

Section Stopping.
Context (os : Processes).

Lemma await_stop_spec pid deadline env n : (∀ m, (n <= m)%nat → deadline <= env_clock env m) → ∀ fuel tick s,
  wp (await_stop os fuel deadline pid) env tick s (λ r _ s', s' = s ∧ ((0 < fuel)%nat → (n < tick + fuel)%nat → r ≠ None) ∧
    (r = Some true → ∃ k, pr_runs os k (os_sent s) pid = false)).
Proof.
  intros Hn fuel. induction fuel as [|fuel IH]; intros tick s; cbn [await_stop]; wp_go; [split_and!; [done|lia|done]|].
  destruct (Before (env_clock env tick) deadline) eqn:Hb; cbn [negb]; [|wp_go; by split_and!].
  unfold process_runs. wp_go. destruct (pr_runs os (1 + tick) (os_sent s) pid) eqn:Hr.
  - eapply wp_mono; [apply IH|]. intros r t s' (-> & Hret & Hk). split_and!; try done. intros _ Hlt. apply Hret; [|lia].
    destruct fuel; [|lia]. exfalso. unfold Before in Hb. specialize (Hn tick). lia.
  - wp_go. split_and!; try done. intros _. by eexists.
Qed.

(** What [ops stop] made of the files and the signals. *)
Definition stop_done (pidFile : string) (s s' : OpsState) (r : Z * bool + ops_error) : Prop :=
  let file := readPID (mkMachine (os_files s) ∅) (Clean pidFile) in
  match r with
  | inl (pid, forced) => file = Some pid ∧ os_files s' = delete (Clean pidFile) (os_files s) ∧
      (os_sent s' = os_sent s ++ [(pid, SIGTERM)] ∨ forced = true ∧ os_sent s' = os_sent s ++ [(pid, SIGTERM); (pid, SIGKILL)]) ∧
      ∃ k, pr_runs os k (os_sent s') pid = false
  | inr NoPID => file = None ∧ s' = s
  | inr (SignalFailed SIGTERM pid) => file = Some pid ∧ s' = s
  | inr (StopFailed pid) => file = Some pid ∧ os_files s' = os_files s ∧ ∃ k, pr_runs os k (os_sent s') pid = true
  | inr _ => False
  end.

(** [ops stop] ends, and says what it did. As long as time passes, some number of
    rounds is enough for it to return. When it reports a process stopped, that is the
    process of the pid file, it was asked to end before it was killed, it was seen not
    to run, and its pid file is gone, no other file with it; in every other case the
    files are as they were. *)
Theorem cmdOpsStop_ends (pidFile : string) (wait : Duration) (env : Env) (tick : nat) (s : OpsState)
    (Htime : ∀ t, ∃ n, ∀ m, (n <= m)%nat → t <= env_clock env m) :
  ∃ enough, ∀ fuel, (enough <= fuel)%nat → ∃ r,
    result (cmdOpsStop os fuel pidFile wait) env tick s = Some r ∧
    stop_done pidFile s (state (cmdOpsStop os fuel pidFile wait) env tick s) r.
Proof.
  destruct (Htime (TimeAdd (env_clock env (1 + tick)) wait)) as [n Hn]. exists (S n). intros fuel Hfuel.
  enough (wp (cmdOpsStop os fuel pidFile wait) env tick s (λ r _ s', ∃ r', r = Some r' ∧ stop_done pidFile s s' r')) as H by (by apply wp_run in H).
  unfold cmdOpsStop, pid_in, stop_done. wp_go. destruct (readPID _ _) as [pid|] eqn:Hpid; wp_go; [|by eexists].
  unfold send at 1. wp_go. destruct (pr_refuses os tick pid SIGTERM); cbn [negb]; wp_go; [by eexists|].
  cbn [negb]. wp_go. eapply wp_mono; [apply (await_stop_spec pid _ env n Hn)|]. intros seen t s' (-> & Hret & Hseen). cbn [os_sent] in Hseen.
  destruct seen as [[]|]; [| |exfalso; apply Hret; [lia|lia|done]].
  - unfold remove_file. wp_go. eexists. split; [done|]. cbn [os_files os_sent]. split_and!; try done; [by left|by apply Hseen].
  - unfold send. wp_go. destruct (pr_refuses os t pid SIGKILL); wp_go; unfold process_runs; wp_go; cbn [os_sent].
    + destruct (pr_runs os _ _ pid) eqn:Hr; wp_go; [eexists; split; [done|]; split_and!; try done; by eexists|].
      unfold remove_file. wp_go. eexists. split; [done|]. cbn [os_files os_sent]. split_and!; try done; [by left|by eexists].
    + destruct (pr_runs os _ _ pid) eqn:Hr; wp_go; [eexists; split; [done|]; split_and!; try done; by eexists|].
      unfold remove_file. wp_go. eexists. split; [done|]. cbn [os_files os_sent]. split_and!; try done; [|by eexists].
      right. split; [done|]. by rewrite <- app_assoc.
Qed.
End Stopping.

(** ** Reloading *)

Section Reloading.
Context (os : Processes).

(** The commands of an update that are not blank. *)
Definition commands (steps : list (string * string)) : list (string * string) := filter (λ x, blank x.2 = false) steps.

Lemma run_update_steps_spec steps : ∀ env tick s,
  wp (run_update_steps os steps) env tick s (λ r _ s', os_files s' = os_files s ∧ os_sent s' = os_sent s ∧
    match r with
    | None => os_ran s' = os_ran s ++ map snd (commands steps)
    | Some e => ∃ before step after, commands steps = before ++ step :: after ∧ e = StepFailed step.1 ∧
        os_ran s' = os_ran s ++ map snd before ++ [step.2]
    end).
Proof.
  unfold commands. induction steps as [|[name command] steps IH]; intros env tick s; cbn [run_update_steps].
  { wp_go. by rewrite app_nil_r. }
  rewrite filter_cons. cbn [snd]. destruct (blank command); [by rewrite decide_False by done|]. rewrite decide_True by done.
  wp_go. unfold runShell. wp_go. destruct (pr_shell os tick command).
  - eapply wp_mono; [apply IH|]. cbn [os_files os_sent os_ran]. intros r t s' (Hf & Hs & Hr). split_and!; try done.
    destruct r as [e|]; [|by rewrite Hr, <- app_assoc]. destruct Hr as (before & step & after & -> & -> & ->).
    exists ((name, command) :: before), step, after. by rewrite <- app_assoc.
  - wp_go. split_and!; try done. by exists [], (name, command), (filter (λ x, blank x.2 = false) steps).
Qed.

(** A managed update runs the commands it has, in order, until one fails. Without
    [remote_agent.managed_updates] no command is run, and with it no signal is sent. *)
Theorem cmdOpsReload_spec (config : string) (loaded : Config + load_error) (pidFile : option string) (env : Env) (tick : nat) (s : OpsState) :
  let r := result (cmdOpsReload os config loaded pidFile) env tick s in
  let s' := state (cmdOpsReload os config loaded pidFile) env tick s in
  let managed := negb (blank config) && match loaded with inl cfg => ra_ManagedUpdates (cfg_RemoteAgent cfg) | inr _ => false end in
  os_files s' = os_files s ∧
  if managed then
    os_sent s' = os_sent s ∧ ∀ cfg, loaded = inl cfg → ∃ ran rest,
      commands (update_steps cfg) = ran ++ rest ∧ os_ran s' = os_ran s ++ map snd ran ∧
      (r = None → rest = []) ∧ (∀ e, r = Some e → ∃ step, last ran = Some step ∧ e = StepFailed step.1)
  else
    os_ran s' = os_ran s ∧ ∃ signals, os_sent s' = os_sent s ++ signals ∧
      if bool_decide (r = None) then ∃ pid, signals = [(pid, SIGHUP)] else signals = [].
Proof.
  intros r s' managed. enough (wp (cmdOpsReload os config loaded pidFile) env tick s (λ r _ s', os_files s' = os_files s ∧
    if managed then
      os_sent s' = os_sent s ∧ ∀ cfg, loaded = inl cfg → ∃ ran rest,
        commands (update_steps cfg) = ran ++ rest ∧ os_ran s' = os_ran s ++ map snd ran ∧
        (r = None → rest = []) ∧ (∀ e, r = Some e → ∃ step, last ran = Some step ∧ e = StepFailed step.1)
    else
      os_ran s' = os_ran s ∧ ∃ signals, os_sent s' = os_sent s ++ signals ∧
        if bool_decide (r = None) then ∃ pid, signals = [(pid, SIGHUP)] else signals = [])) as H by (by apply wp_run in H).
  assert (∀ path, wp (signalReload os path) env tick s (λ r _ s', os_files s' = os_files s ∧ os_ran s' = os_ran s ∧
    ∃ signals, os_sent s' = os_sent s ++ signals ∧ if bool_decide (r = None) then ∃ pid, signals = [(pid, SIGHUP)] else signals = [])) as Hsignal.
  { intros path. unfold signalReload, pid_in. wp_go. destruct (readPID _ _) as [pid|]; wp_go; [|by split_and!; try done; exists []; rewrite app_nil_r].
    unfold process_runs. wp_go. destruct (pr_runs os tick _ pid); cbn [negb]; wp_go; [|by split_and!; try done; exists []; rewrite app_nil_r].
    unfold send. wp_go. destruct (pr_refuses os _ pid SIGHUP); wp_go; [by split_and!; try done; exists []; rewrite app_nil_r|].
    split_and!; try done. exists [(pid, SIGHUP)]. split; [done|]. by exists pid. }
  subst managed. unfold cmdOpsReload. destruct (blank config); cbn [negb andb]; [apply Hsignal|].
  destruct loaded as [cfg|e]; cbn [andb]; [|wp_go; by split_and!; try done; exists []; rewrite app_nil_r].
  destruct (ra_ManagedUpdates _); [|apply Hsignal]. unfold runManagedUpdate.
  eapply wp_mono; [apply run_update_steps_spec|]. intros r0 t s0 (Hf & Hs & Hr). split; [done|]. split; [done|]. intros cfg' [= <-].
  destruct r0 as [e|].
  - destruct Hr as (before & step & after & Hc & -> & Hran). exists (before ++ [step]), after. rewrite Hc, Hran, map_app, <- app_assoc.
    split_and!; try done. intros e' [= <-]. exists step. by rewrite last_snoc.
  - exists (commands (update_steps cfg)), []. by rewrite app_nil_r.
Qed.

(** ** From the pid file to the process *)

Lemma docker_runtime entries cfg : cfg_Runtime (ensureDockerLLMSTxt entries cfg) = cfg_Runtime cfg.
Proof. unfold ensureDockerLLMSTxt. destruct entries as [es|]; [|done]. by destruct (existsb _ es). Qed.
Lemma demo_runtime fl cfg : cfg_Runtime (applyDemoOverrides fl cfg) = cfg_Runtime cfg.
Proof. unfold applyDemoOverrides. destruct (fl_demo fl); [|done]. by destruct (fl_demo_foreground fl). Qed.
Lemma self_runtime cfg : cfg_Runtime (withSelfCheckTarget cfg) = cfg_Runtime cfg.
Proof. unfold withSelfCheckTarget. by destruct (_ || _). Qed.
Lemma flags_state_dir fl cfg : fl_state_dir fl = "" → run_StateDir (cfg_Runtime (apply_flags fl cfg)) = run_StateDir (cfg_Runtime cfg).
Proof.
  intros H. unfold apply_flags. rewrite H. cbn [set_flag]. unfold set_flag.
  destruct (fl_lock_file fl =s ""), (fl_name fl =s ""), (fl_federation fl =s ""), (fl_telemetry fl =s ""), (fl_health_addr fl =s ""), (fl_mode fl =s ""); reflexivity.
Qed.
Lemma default_state_dir c : run_StateDir (cfg_Runtime (ApplyDefaults c)) = or_str (run_StateDir (cfg_Runtime c)) "./state".
Proof. reflexivity. Qed.

(** The state directory [serve] uses is the file's, unless [--state-dir] names another. *)
Lemma served_state_dir ParseRoots decode read_file path fl entries cfg served :
  Load ParseRoots decode read_file path = inl cfg → fl_state_dir fl = "" → load_config ParseRoots fl entries (inl cfg) = inl served →
  run_StateDir (cfg_Runtime served) = run_StateDir (cfg_Runtime cfg).
Proof.
  intros Hload Hfl Hserve. unfold load_config in Hserve. destruct (Config_Validate _ _) in Hserve; [|done]. injection Hserve as <-.
  rewrite self_runtime, docker_runtime, demo_runtime, default_state_dir, flags_state_dir by done.
  unfold Load, LoadBytes in Hload. destruct (read_file _); [|done]. destruct (decode _) as [c|]; [|done]. destruct (Config_Validate _ _) in Hload; [|done].
  injection Hload as <-. rewrite default_state_dir. unfold or_str. destruct (run_StateDir (cfg_Runtime c) =s "") eqn:E; [done|by rewrite E].
Qed.

End Reloading.

(** ** On concrete inputs *)

Definition ex_file (base : string) : Config :=
  {| (sample_config [sample_target "a" "http://h/mcp" "http"; sample_target "b" "http://h/sse" "sse"]) with
     cfg_DynamicConfig := mkDynamicConfigConfig true "./state/dc" ["json"; "markdown"] base true true |}.
Definition ex_cfg : Config := ApplyDefaults (ex_file "/dc/").
Definition ex_world : Surroundings := mkSurroundings (λ _, false) (λ _, None) (λ _ _, false) (λ _ _, None).
Definition ex_desk : Desk := mkDesk nothing ∅.
Definition ex_persist (cfg : Config) : M Desk (DiscoveryResult * list SavedArtifact + command_error) :=
  dynamic_persist ex_world ex_os (merge_sort by_id) (merge_sort by_artifact) (inl cfg).


(** A store served at the root: the artifacts name /<file>, the index the default
    address. *)
Example root_is_indexed_elsewhere :
  let cfg := ApplyDefaults (ex_file "/") in
  let k := state (ex_persist cfg) (frozen 0 "") 0 ex_desk in
  Config_Validate no_roots cfg = [] ∧
  match result (ex_persist cfg) (frozen 0 "") 0 ex_desk, result (dynamic_index (inl cfg) "" "" true true) (frozen 0 "") 0 (dk_disk k) with
  | inl (_, a :: _), inl (_, text) => art_ServeURL a = "/" +:+ Base (art_Path a) ∧ Contains text ("](" +:+ art_ServeURL a +:+ ")") = false
  | _, _ => False
  end.
Proof. vm_compute. repeat split. Qed.

(** The index of an index lists the index. *)
Example index_lists_itself :
  let d := state (dynamic_index (inl ex_cfg) "" "" true true) (frozen 0 "") 0 ∅ in
  dynamic_list (inl ex_cfg) "" true d = inl ["state/dc/index.md"].
Proof. vm_compute. reflexivity. Qed.

(** [show] leaves the directory when the ID does. *)
Example show_reads_elsewhere :
  dynamic_show (inl ex_cfg) "" "../../secrets/keys" "json" {["secrets/keys.json" := Other "k"]} = inl (Other "k").
Proof. vm_compute. reflexivity. Qed.

(** A process that ends when it is killed. *)
Definition ex_processes : Processes :=
  mkProcesses (λ _ sent pid, (pid =? 7) && negb (bool_decide ((7, SIGKILL) ∈ sent))) (λ _ _ _, false) (λ _ c, negb (c =s "false")).
Definition ex_ops : OpsState := mkOpsState {["state/ocd-smoke-alarm.pid" := "7"; "other" := "x"]} [] [].
Definition ticking : Env := mkEnv (λ n, Z.of_nat n * Second) (λ _, "").

Lemma cmdOpsStop_ends_witness :
  result (cmdOpsStop ex_processes 20 "./state/ocd-smoke-alarm.pid" (15 * Second)) ticking 0 ex_ops = Some (inl (7, true)) ∧
  ∃ enough, ∀ fuel, (enough <= fuel)%nat → ∃ r,
    result (cmdOpsStop ex_processes fuel "./state/ocd-smoke-alarm.pid" (15 * Second)) ticking 0 ex_ops = Some r ∧
    stop_done ex_processes "./state/ocd-smoke-alarm.pid" ex_ops (state (cmdOpsStop ex_processes fuel "./state/ocd-smoke-alarm.pid" (15 * Second)) ticking 0 ex_ops) r.
Proof.
  split; [vm_compute; reflexivity|]. apply (cmdOpsStop_ends ex_processes "./state/ocd-smoke-alarm.pid" (15 * Second) ticking 0 ex_ops).
  intros t. exists (Z.to_nat t). intros m Hm. unfold ticking, Second. cbn [env_clock]. lia.
Defined.


(** A verification that fails leaves the new runtime running: nothing is rolled back. *)
Example failed_verify_is_not_rolled_back :
  let cfg := {| ex_cfg with cfg_RemoteAgent := mkRemoteAgentConfig true "" (mkRemoteUpdateConfig "" "stop-it" "start-it" "false" true "") (mkRemoteSafetyConfig true "") |} in
  let m := cmdOpsReload ex_processes "f" (inl cfg) None in
  result m ticking 0 ex_ops = Some (StepFailed "verify") ∧ os_ran (state m ticking 0 ex_ops) = ["stop-it"; "start-it"; "false"].
Proof. vm_compute. split; reflexivity. Qed.
