(* ===== verification/Status.v ===== *)
(** * Peer status ([internal/federation/status.go])

    A peer's reported status is rendered as components of the local health view,
    under names the [PeerStatusSink] owns so that they can be withdrawn. What the
    rendering asks of the view is the class [StatusSink]; the health server is an
    instance, and the theorems are proved against the class. The locking between
    the steps of [ApplyAll] is not modelled: the calls run one at a time. *)

From Stdlib Require Import ZArith Lia Ascii.
From stdpp Require Import base tactics strings gmap.
From stdpp Require Import list.
From S2P Require Import Prelude Durations Health.

Open Scope Z_scope.

(** ** The interface *)

(** A view of named components. Names without surrounding space are kept as they
    are; the clock and everything else the view holds do not matter. *)
Class StatusSink (S : Type) := {
  set_component : string → bool → string → M S unit;
  remove_component : string → M S unit;
  view : S → gmap string bool;
  view_set name healthy detail env tick s :
    TrimSpace name = name → name ≠ "" →
    view (state (set_component name healthy detail) env tick s) = <[name := healthy]> (view s);
  view_remove name env tick s :
    view (state (remove_component name) env tick s) = delete name (view s);
}.

#[global] Program Instance HealthSink : StatusSink Server := {|
  set_component := SetComponent;
  remove_component := RemoveComponent;
  view s := c_Healthy <$> components s;
|}.
Next Obligation.
  intros name healthy detail env tick s Ht Hn. unfold SetComponent. rewrite Ht.
  rewrite (proj2 (streq_false _ _) Hn).
  enough (wp (now ← clock; modify (λ s, {| s with components :=
      <[name := mkComponent name healthy (TrimSpace detail) now]> (components s) |})) env tick s
    (λ _ _ s', c_Healthy <$> components s' = <[name := healthy]> (c_Healthy <$> components s))) as H
    by by rewrite wp_run in H.
  wp_go. cbn [components]. by rewrite fmap_insert.
Qed.
Next Obligation.
  intros name env tick s. unfold RemoveComponent, state, modify. cbn [snd components].
  by rewrite fmap_delete.
Qed.

(** ** Data *)

Definition peerPrefix : string := "federation".
Definition maxPeerComponents : nat := 64.
Definition stateHealthy : string := "healthy".

Record StatusReport := mkReport {
  InstanceID : string;
  rep_ServiceName : string;
  ReportedAt : Time;
  rep_Status : StatusResponse;
}.

Abbreviation PeerStatuses := (gmap string StatusResponse).

Record PeerStatusSink (S : Type) := mkPeerSink {
  sink : S;
  owned : gmap string (list string);
}.
Arguments mkPeerSink {S} _ _.
Arguments sink {S} _.
Arguments owned {S} _.

(** ** Rendering *)

Definition unhealthyFirst {T} (healthy : T → bool) (l : list T) : list T :=
  filter (λ e, healthy e = false) l ++ filter (λ e, healthy e = true) l.

Definition formatTarget (t : TargetStatus) : string :=
  let parts := [t_State t] in
  let parts := if negb (t_Severity t =s "") then parts ++ [t_Severity t] else parts in
  let parts := if negb (t_Message t =s "") then parts ++ [t_Message t] else parts in
  Join parts (" " +:+ byte_of 194 +:+ byte_of 183 +:+ " ").

Definition format_bool (b : bool) : string := if b then "true" else "false".

(** One call of [set]: a name, its health and its detail. *)
Definition entry : Type := string * bool * string.

(** Entries are appended while fewer than [maxPeerComponents] names were set. *)
Definition trim_entries (already : nat) (l : list entry) : list entry :=
  take (maxPeerComponents - already) l.

Definition rollup_healthy (st : StatusResponse) : bool :=
  (Unhealthy (sr_Summary st) =? 0) && (Outage (sr_Summary st) =? 0).

Definition peer_prefix (peerID : string) : string := peerPrefix +:+ "/" +:+ peerID.

Definition rollup_entry (peerID : string) (st : StatusResponse) : entry :=
  let sum := sr_Summary st in
  (peer_prefix peerID, rollup_healthy st,
   "targets " +:+ Itoa (Healthy sum) +:+ "/" +:+ Itoa (sum_Total sum) +:+ " healthy, degraded="
     +:+ Itoa (Degraded sum) +:+ " unhealthy=" +:+ Itoa (Unhealthy sum) +:+ " outage="
     +:+ Itoa (Outage sum) +:+ ", ready=" +:+ format_bool (sr_Ready st)).

Definition component_entry (peerID : string) (c : ComponentStatus) : entry :=
  (peer_prefix peerID +:+ "/" +:+ c_Name c, c_Healthy c, c_Detail c).

Definition target_healthy (t : TargetStatus) : bool := t_State t =s stateHealthy.

Definition target_entry (peerID : string) (t : TargetStatus) : entry :=
  (peer_prefix peerID +:+ "/target/" +:+ t_ID t, target_healthy t, formatTarget t).

Definition is_stale (st : StatusResponse) (now : Time) (timeout : Duration) : bool :=
  (timeout >? 0) && negb (IsZero (sr_Now st)) && (TimeSub now (sr_Now st) >? timeout).

Definition render_entries (peerID : string) (st : StatusResponse) (now : Time) (timeout : Duration)
  : list entry :=
  let es := [rollup_entry peerID st] in
  let es := es ++ trim_entries (length es)
    (map (component_entry peerID) (unhealthyFirst c_Healthy (sr_Components st))) in
  let es := es ++ trim_entries (length es)
    (map (target_entry peerID) (unhealthyFirst target_healthy (sr_Targets st))) in
  if is_stale st now timeout then
    es ++ [(peer_prefix peerID, false,
      "no status report for " +:+ Duration_String (Truncate (TimeSub now (sr_Now st)) Second)
        +:+ " (last " +:+ RFC3339 (sr_Now st) +:+ ")")]
  else es.

Definition entry_name (e : entry) : string := e.1.1.

Section Sink.
Context {S : Type} {SS : StatusSink S}.

(** Run a program on the view. *)
Definition on_sink {A} (m : M S A) : M (PeerStatusSink S) A := λ env tick p,
  let '(a, tick, s) := m env tick (sink p) in (a, tick, {| p with sink := s |}).

Fixpoint set_all (es : list entry) : M S unit :=
  match es with
  | [] => mret tt
  | (name, healthy, detail) :: es => _ ← set_component name healthy detail; set_all es
  end.

Fixpoint remove_all (names : list string) : M S unit :=
  match names with
  | [] => mret tt
  | n :: names => _ ← remove_component n; remove_all names
  end.

Definition render (peerID : string) (st : StatusResponse) (now : Time) (timeout : Duration)
  : M (PeerStatusSink S) unit :=
  let es := render_entries peerID st now timeout in
  _ ← on_sink (set_all es);
  modify (λ p, {| p with owned := <[peerID := map entry_name es]> (owned p) |}).

Definition withdraw (names : list string) : M (PeerStatusSink S) unit := on_sink (remove_all names).

Fixpoint withdraw_absent (statuses : PeerStatuses) (previous : gmap string (list string)) (ids : list string)
  : M (PeerStatusSink S) unit :=
  match ids with
  | [] => mret tt
  | id :: ids =>
      _ ← (match statuses !! id with
           | Some _ => mret tt
           | None => withdraw (default [] (previous !! id))
           end);
      withdraw_absent statuses previous ids
  end.

Fixpoint render_all (statuses : PeerStatuses) (now : Time) (timeout : Duration) (ids : list string)
  : M (PeerStatusSink S) unit :=
  match ids with
  | [] => mret tt
  | id :: ids =>
      _ ← (match statuses !! id with
           | Some st => render id st now timeout
           | None => mret tt
           end);
      render_all statuses now timeout ids
  end.

(** [order] and [order'] are the orders in which Go iterates the two maps. *)
Definition ApplyAll (statuses : PeerStatuses) (now : Time) (timeout : Duration) (order order' : list string)
  : M (PeerStatusSink S) unit :=
  p ← get;
  let previous := owned p in
  _ ← modify (λ p, {| p with owned := ∅ |});
  _ ← withdraw_absent statuses previous order;
  render_all statuses now timeout order'.

Definition Remove (peerID : string) : M (PeerStatusSink S) unit :=
  p ← get;
  _ ← modify (λ p, {| p with owned := delete peerID (owned p) |});
  match owned p !! peerID with
  | Some names => withdraw names
  | None => mret tt
  end.
End Sink.

(** ** Facts *)

Lemma unhealthyFirst_perm {T} (healthy : T → bool) l : unhealthyFirst healthy l ≡ₚ l.
Proof.
  unfold unhealthyFirst. induction l as [|x l IH]; [done|]. rewrite !filter_cons.
  destruct (healthy x); repeat case_decide; try done; cbn.
  - rewrite <- Permutation_middle. by constructor.
  - by constructor.
Qed.

(** Entries after the first [k] are dropped only when no healthy entry is kept. *)
Lemma unhealthyFirst_take {T} (healthy : T → bool) l k x y :
  x ∈ take k (unhealthyFirst healthy l) → healthy x = true →
  y ∈ l → healthy y = false → y ∈ take k (unhealthyFirst healthy l).
Proof.
  unfold unhealthyFirst. set (bad := filter (λ e, healthy e = false) l).
  set (good := filter (λ e, healthy e = true) l). intros Hx Hhx Hy Hhy.
  rewrite take_app in Hx |- *.
  assert (∀ (m : list T) j z, z ∈ take j m → z ∈ m) as Htake.
  { intros m j z (i & Hi & _)%elem_of_take. by eapply list_elem_of_lookup_2. }
  apply elem_of_app in Hx as [Hx%Htake|Hx].
  { subst bad. apply list_elem_of_filter in Hx as [? _]. congruence. }
  apply elem_of_app. left. rewrite take_ge.
  - subst bad. by apply list_elem_of_filter.
  - destruct (decide (length bad ≤ k)%nat); [done|].
    replace (k - length bad)%nat with 0%nat in Hx by lia. by apply elem_of_nil in Hx.
Qed.

(** Names a sink keeps as they are. *)
Definition clean_name (n : string) : Prop := TrimSpace n = n ∧ n ≠ "".

Lemma render_entries_bounded peerID st now timeout :
  (length (render_entries peerID st now timeout) ≤ maxPeerComponents + 1)%nat.
Proof.
  unfold render_entries, trim_entries, maxPeerComponents.
  repeat (rewrite length_app || rewrite length_take || rewrite length_map || cbn [length]).
  case_match; rewrite ?length_app, ?length_take, ?length_map; cbn [length]; lia.
Qed.

(** Only the roll-up has the peer's own name. *)
Lemma peer_prefix_neq peerID s : peer_prefix peerID +:+ "/" +:+ s ≠ peer_prefix peerID.
Proof. intros E. apply (f_equal String.length) in E. rewrite !slength_app in E. cbn in E. lia. Qed.

Section Properties.
Context {S : Type} {SS : StatusSink S}.

(** The view after a list of entries. *)
Definition overlay (es : list entry) (m : gmap string bool) : gmap string bool :=
  foldl (λ m e, <[entry_name e := e.1.2]> m) m es.

Lemma wp_set_all es env tick (s : S) (Q : unit → nat → S → Prop) :
  Forall (λ e, clean_name (entry_name e)) es →
  (∀ tick' s', view s' = overlay es (view s) → Q tt tick' s') →
  wp (set_all es) env tick s Q.
Proof.
  intros Hc. revert tick s. induction Hc as [|[[name h] d] es [Ht Hn] Hc IH]; intros tick s HQ.
  { apply wp_run. by apply HQ. }
  cbn [set_all]. rewrite wp_bind, wp_run. apply IH. intros t s' Hv. apply HQ.
  rewrite Hv, view_set by done. done.
Qed.

Lemma wp_remove_all names env tick (s : S) (Q : unit → nat → S → Prop) :
  (∀ tick' s', (∀ n, view s' !! n = if mem n names then None else view s !! n) → Q tt tick' s') →
  wp (remove_all names) env tick s Q.
Proof.
  revert tick s. induction names as [|x names IH]; intros tick s HQ.
  { apply wp_run. by apply HQ. }
  cbn [remove_all]. rewrite wp_bind, wp_run. apply IH. intros t s' Hv. apply HQ. intros n.
  rewrite Hv, view_remove. unfold mem. cbn [existsb]. fold (mem n names).
  destruct (mem n names); [by rewrite orb_true_r|]. rewrite orb_false_r.
  destruct (streq n x) eqn:E; go_bools; subst; [apply lookup_delete_eq|by rewrite lookup_delete_ne].
Qed.

Lemma wp_on_sink {A} (m : M S A) env tick (p : PeerStatusSink S) Q :
  wp (on_sink m) env tick p Q =
  wp m env tick (sink p) (λ a t s, Q a t {| p with sink := s |}).
Proof. unfold wp, on_sink. by destruct (m env tick (sink p)) as [[a t] s]. Qed.

Lemma overlay_lookup es : ∀ m n,
  overlay es m !! n =
  match last (filter (λ e, entry_name e = n) es) with Some e => Some e.1.2 | None => m !! n end.
Proof.
  unfold overlay. induction es as [|e es IH] using rev_ind; intros m n; [done|].
  rewrite foldl_app, filter_app. cbn [foldl]. destruct (decide (entry_name e = n)) as [Hn|Hn].
  - rewrite (filter_cons_True _ e []) by done. cbn [filter list_filter].
    rewrite last_snoc, <- Hn. apply lookup_insert_eq.
  - rewrite (filter_cons_False _ e []) by done. cbn [filter list_filter]. rewrite app_nil_r.
    rewrite lookup_insert_ne by done. apply IH.
Qed.

Lemma filter_rollup peerID l :
  Forall (λ e, ∃ s, entry_name e = peer_prefix peerID +:+ "/" +:+ s) l →
  filter (λ e, entry_name e = peer_prefix peerID) l = [].
Proof.
  intros H. induction H as [|e l [s Hs] _ IH]; [done|].
  rewrite filter_cons_False; [done|]. rewrite Hs. apply peer_prefix_neq.
Qed.

(** A silent peer never looks healthy. After a peer is rendered, its
    roll-up is shown as healthy exactly when the report has no unhealthy target
    and no outage and is not stale; exactly the names that were set are recorded
    as the peer's, at most 65 of them, and each shows the health set last. *)
Theorem render_spec (peerID : string) (st : StatusResponse) (now : Time) (timeout : Duration)
  (env : Env) (tick : nat) (p : PeerStatusSink S) :
  let es := render_entries peerID st now timeout in
  Forall (λ e, clean_name (entry_name e)) es →
  let p' := state (render peerID st now timeout) env tick p in
  view (sink p') !! peer_prefix peerID = Some (rollup_healthy st && negb (is_stale st now timeout)) ∧
  owned p' = <[peerID := map entry_name es]> (owned p) ∧ (length es ≤ 65)%nat ∧
  (∀ n, view (sink p') !! n =
     match last (filter (λ e, entry_name e = n) es) with
     | Some e => Some e.1.2
     | None => view (sink p) !! n
     end).
Proof.
  cbv zeta. intros Hc.
  enough (wp (render peerID st now timeout) env tick p (λ _ _ p',
    view (sink p') = overlay (render_entries peerID st now timeout) (view (sink p)) ∧
    owned p' = <[peerID := map entry_name (render_entries peerID st now timeout)]> (owned p))) as Hwp.
  { rewrite wp_run in Hwp. destruct Hwp as [Hv Ho]. rewrite Hv. clear Hv.
    split; [|split; [done|split; [apply render_entries_bounded|intros n; apply overlay_lookup]]].
    rewrite overlay_lookup. clear Hc. unfold render_entries.
    set (cs := trim_entries _ (map (component_entry peerID) _)).
    set (ts := trim_entries _ (map (target_entry peerID) _)).
    assert (∀ k l, Forall (λ e, ∃ s, entry_name e = peer_prefix peerID +:+ "/" +:+ s) (l : list entry) →
      Forall (λ e, ∃ s, entry_name e = peer_prefix peerID +:+ "/" +:+ s) (trim_entries k l)) as Htrim.
    { intros k l Hl. by apply Forall_take. }
    assert (filter (λ e, entry_name e = peer_prefix peerID) cs = []) as Hcs.
    { apply filter_rollup, Htrim, Forall_map, Forall_true. intros c. by exists (c_Name c). }
    assert (filter (λ e, entry_name e = peer_prefix peerID) ts = []) as Hts.
    { apply filter_rollup, Htrim, Forall_map, Forall_true. intros c. by exists ("target/" +:+ t_ID c). }
    destruct (is_stale st now timeout); rewrite !filter_app, Hcs, Hts.
    - rewrite !filter_cons_True by done. cbn. by rewrite andb_false_r.
    - rewrite !filter_cons_True by done. cbn. by rewrite andb_true_r. }
  unfold render. wp_go. rewrite wp_on_sink. apply wp_set_all; [done|]. intros t s' Hv. wp_go. done.
Qed.

(** What a peer was rendered under is withdrawn with it. Removing a peer
    takes exactly the names recorded as its own out of the view, leaves every
    other name and every other peer alone, and is harmless for an unknown peer. *)
Theorem Remove_spec (peerID : string) (env : Env) (tick : nat) (p : PeerStatusSink S) :
  let p' := state (Remove peerID) env tick p in
  (∀ n, view (sink p') !! n =
     if mem n (default [] (owned p !! peerID)) then None else view (sink p) !! n) ∧
  owned p' = delete peerID (owned p).
Proof.
  cbv zeta.
  enough (wp (Remove peerID) env tick p (λ _ _ p',
    (∀ n, view (sink p') !! n =
       if mem n (default [] (owned p !! peerID)) then None else view (sink p) !! n) ∧
    owned p' = delete peerID (owned p))) as Hwp by by rewrite wp_run in Hwp.
  unfold Remove. wp_go. destruct (owned p !! peerID) as [names|]; cbn [default]; [|by wp_go].
  unfold withdraw. rewrite wp_on_sink. by apply wp_remove_all.
Qed.
End Properties.

Definition ex_status (cs : list ComponentStatus) (ts : list TargetStatus) (now : Time) : StatusResponse :=
  mkStatusResponse "svc" "" now 0 0 true true "" (summarizeTargets ts) cs ts ∅.
Definition ex_sink : PeerStatusSink Server := mkPeerSink ex_health ∅.

Lemma render_spec_witness :
  let st := ex_status [mkComponent "db" true "" 0] [] 5 in
  let p' := state (render "a" st (100 * Second) Second) (frozen 9 "") 0 ex_sink in
  view (sink p') !! "federation/a/db" = Some true ∧
  view (sink p') !! peer_prefix "a" = Some (rollup_healthy st && negb (is_stale st (100 * Second) Second)).
Proof.
  cbv zeta. split; [vm_compute; reflexivity|].
  apply (render_spec (S := Server) "a" (ex_status [mkComponent "db" true "" 0] [] 5) (100 * Second) Second
    (frozen 9 "") 0 ex_sink).
  repeat constructor; vm_compute; discriminate || reflexivity.
Defined.

(** Trimming never keeps a healthy row in place of an alert. Among the
    components of a report, and among its targets, an entry that is not healthy
    is dropped only if no healthy one is kept. *)
Theorem trim_keeps_alerts (st : StatusResponse) (k : nat) :
  (∀ x y, x ∈ take k (unhealthyFirst c_Healthy (sr_Components st)) → c_Healthy x = true →
     y ∈ sr_Components st → c_Healthy y = false →
     y ∈ take k (unhealthyFirst c_Healthy (sr_Components st))) ∧
  (∀ x y, x ∈ take k (unhealthyFirst target_healthy (sr_Targets st)) → target_healthy x = true →
     y ∈ sr_Targets st → target_healthy y = false →
     y ∈ take k (unhealthyFirst target_healthy (sr_Targets st))).
Proof. split; intros x y Hx Hhx; by eapply unhealthyFirst_take. Qed.

(** Between the two it does: healthy components fill the cap, and the target that
    is in outage is not shown. *)
Example healthy_components_hide_outage :
  let cs := map (λ i, mkComponent (Itoa i) true "" 0) (seqZ 0 63) in
  let ts := [mkTargetStatus "t" "" "" "outage" "" "" false 0 0] in
  existsb (λ e, entry_name e =s "federation/a/target/t") (render_entries "a" (ex_status cs ts 5) 6 0) = false ∧
  existsb (λ e, entry_name e =s "federation/a/5") (render_entries "a" (ex_status cs ts 5) 6 0) = true.
Proof. vm_compute. split; reflexivity. Qed.

(** A component that a peer stops reporting stays in the view, even after the
    peer itself has gone: the second report forgets who owned its name. *)
Example dropped_component_lingers :
  let first : PeerStatuses := {["a" := ex_status [mkComponent "db" false "" 0] [] 5]} in
  let second : PeerStatuses := {["a" := ex_status [] [] 6]} in
  let p := state (_ ← ApplyAll first 5 0 [] ["a"];
                  _ ← ApplyAll second 6 0 ["a"] ["a"];
                  ApplyAll ∅ 7 0 ["a"] []) (frozen 9 "") 0 ex_sink in
  owned p !! "a" = None ∧ view (sink p) !! "federation/a/db" = Some false.
Proof. vm_compute. split; reflexivity. Qed.

(** The view trims names and the withdrawal does not, so a peer whose ID ends in
    a space is never withdrawn. *)
Example untrimmed_peer_lingers :
  let p := state (_ ← render "a " (ex_status [] [] 5) 5 0; Remove "a ") (frozen 9 "") 0 ex_sink in
  owned p !! "a " = None ∧ view (sink p) !! "federation/a" = Some true.
Proof. vm_compute. split; reflexivity. Qed.

(** A target in the state [regression] does not make the roll-up unhealthy. *)
Example regression_rolls_up_healthy :
  rollup_healthy (ex_status [] [mkTargetStatus "t" "" "" "regression" "" "" true 0 0] 5) = true.
Proof. vm_compute. reflexivity. Qed.
