(* ===== verification/Federation.v ===== *)
(** * The introducer and its followers ([internal/federation/server.go], [client.go])

    The introducer's handlers fold introductions, heartbeats and status reports
    into its registry and its table of reported statuses; a follower folds the
    membership response into its own registry. A handler is modelled from the
    request's method, its [X-Federation-Token] header and its decoded body
    ([None] when the JSON does not decode). The status observer is modelled by
    what it has been told. The follower's requests and loops are in [FedCluster];
    the HTTP client and server, the logger and the snapshot files are not
    modelled. *)

From Stdlib Require Import ZArith Lia.
From stdpp Require Import base tactics strings gmap sorting.
From stdpp Require Import list.
From S2P Require Import Prelude Durations Net Registry Health Status.

Open Scope Z_scope.

(** ** The introducer *)

Record FedOptions := mkFedOptions {
  AgeOutInterval : Duration;
  SharedSecret : string;
  PeerStatusTimeout : Duration;
  OnStatus : bool;  (* an observer is configured *)
}.

Record FedServer := mkFedServer {
  fs_opts : FedOptions;
  registry : Registry;
  statuses : PeerStatuses;
  told : list PeerStatuses;
}.

Record membershipResponse := mkMembership {
  m_Self : InstanceRecord;
  m_IntroducerID : string;
  m_Peers : list InstanceRecord;
  m_Version : Z;
  m_GeneratedAt : Time;
  m_Statuses : PeerStatuses;
}.

Inductive fed_body :=
  | Membership (m : membershipResponse)
  | Accepted
  | FedError (e : string).

Record fed_response := mkFedResponse { fed_code : Z; fed_body_of : fed_body }.

(** [None] when the listener is reachable and has no secret; [listenAddr] is the
    listener's own address. *)
Definition NewFedServer (opts : FedOptions) (listenAddr : string) (r : Registry) : option FedServer :=
  let opts := {| opts with AgeOutInterval := if AgeOutInterval opts <=? 0 then 5 * Second else AgeOutInterval opts |} in
  if negb (RequireSharedSecret listenAddr (SharedSecret opts)) then None
  else Some (mkFedServer opts r ∅ []).

(** Run a registry method on the server's registry. *)
Definition on_registry {A} (m : M Registry A) : M FedServer A := λ env tick s,
  let '(a, tick, r) := m env tick (registry s) in (a, tick, {| s with registry := r |}).

Definition peerStatuses (s : FedServer) : PeerStatuses := statuses s.

(** [selfStatus] is what the [SelfStatus] callback returns; [None] when it is not
    set. *)
Definition aggregateStatuses (selfStatus : option StatusResponse) : M FedServer PeerStatuses :=
  s ← get;
  let out := peerStatuses s in
  match selfStatus with
  | None => mret out
  | Some st =>
      me ← on_registry Registry_Self;
      mret (if ID me =s "" then out else <[ID me := st]> out)
  end.

(** [order] is the order in which Go iterates the peers. *)
Definition snapshotResponse (selfStatus : option StatusResponse) (order : list string)
  : M FedServer membershipResponse :=
  snap ← on_registry (TakeSnapshot order);
  sts ← aggregateStatuses selfStatus;
  mret (mkMembership (Self snap) (IntroducerID snap) (Peers snap) (snap_Version snap) (GeneratedAt snap) sts).

Definition notifyStatus : M FedServer unit :=
  modify (λ s, if OnStatus (fs_opts s) then {| s with told := told s ++ [peerStatuses s] |} else s).

Definition forgetStatuses (ids : list string) : M FedServer unit :=
  match ids with
  | [] => mret tt
  | _ =>
      _ ← modify (λ s, {| s with statuses := foldl (λ m id, delete id m) (statuses s) ids |});
      notifyStatus
  end.

Definition fed_error (code : Z) (e : string) : fed_response := mkFedResponse code (FedError e).

(** What a handler does first: the method, then the secret. *)
Definition admit_request (want method got : string) (s : FedServer) : option fed_response :=
  if negb (method =s want) then Some (fed_error 405 "method not allowed")
  else if negb (CheckSharedSecret got (SharedSecret (fs_opts s))) then Some (fed_error 401 "unauthorized")
  else None.

Section Handlers.
Context (selfStatus : option StatusResponse) (order : list string).

Definition respond : M FedServer fed_response :=
  m ← snapshotResponse selfStatus order;
  mret (mkFedResponse 200 (Membership m)).

Definition handleIntroduction (method got : string) (body : option InstanceRecord)
  : M FedServer fed_response :=
  s ← get;
  match admit_request "POST" method got s with
  | Some refusal => mret refusal
  | None =>
      match body with
      | None => mret (fed_error 400 "invalid JSON")
      | Some rec =>
          if blank (ID rec) then mret (fed_error 400 "record.id is required")
          else
            let rec := {| rec with Role := if Role rec =s "" then RoleFollower else Role rec |} in
            me ← on_registry Registry_Self;
            now ← clock;
            let rec := {| rec with Introducer := ID me; AnnouncedAt := now |} in
            _ ← on_registry (Upsert rec "introduction");
            respond
      end
  end.

Definition handleHeartbeat (method got : string) (body : option InstanceRecord)
  : M FedServer fed_response :=
  s ← get;
  match admit_request "POST" method got s with
  | Some refusal => mret refusal
  | None =>
      match body with
      | None => mret (fed_error 400 "invalid JSON")
      | Some rec =>
          if blank (ID rec) then mret (fed_error 400 "record.id is required")
          else
            _ ← on_registry (Upsert rec "heartbeat");
            respond
      end
  end.

Definition handleReport (method got : string) (body : option StatusReport) : M FedServer fed_response :=
  s ← get;
  match admit_request "POST" method got s with
  | Some refusal => mret refusal
  | None =>
      match body with
      | None => mret (fed_error 400 "invalid JSON")
      | Some report =>
          if blank (InstanceID report) then mret (fed_error 400 "instance_id is required")
          else
            _ ← modify (λ s, {| s with statuses := <[InstanceID report := rep_Status report]> (statuses s) |});
            _ ← notifyStatus;
            mret (mkFedResponse 200 Accepted)
      end
  end.

Definition handleMembership (method got : string) : M FedServer fed_response :=
  s ← get;
  match admit_request "GET" method got s with
  | Some refusal => mret refusal
  | None => respond
  end.
End Handlers.

(** One tick of [ageOutLoop]. *)
Definition ageOut_tick (order : list string) : M FedServer unit :=
  events ← on_registry (AgeOut order);
  forgetStatuses (map (λ ev, ID (ev_Record ev)) events).

(** ** Followers *)

Record Client (S : Type) := mkClient {
  cl_registry : Registry;
  lastVersion : Z;
  introduced : bool;
  StatusSinkOf : option (PeerStatusSink S);
  cl_PeerStatusTimeout : Duration;
}.
Arguments mkClient {S} _ _ _ _ _.
Arguments cl_registry {S} _.
Arguments lastVersion {S} _.
Arguments introduced {S} _.
Arguments StatusSinkOf {S} _.
Arguments cl_PeerStatusTimeout {S} _.

Inductive client_error := ErrIntroducerURL | ErrNoSharedSecret.

Definition NewClient {S} (introducerURL sharedSecret : string) (r : Registry) (timeout : Duration)
  (sink : option (PeerStatusSink S)) : Client S + client_error :=
  if blank introducerURL then inr ErrIntroducerURL
  else if (sharedSecret =s "") && negb (IsLoopbackAddr introducerURL) then inr ErrNoSharedSecret
  else inl (mkClient r 0 false sink timeout).

Definition joinURL (base path : string) : string :=
  let base := TrimSuffix base "/" in
  let path := if negb (HasPrefix path "/") then "/" +:+ path else path in
  base +:+ path.

Section Follower.
Context {S : Type} {SS : StatusSink S}.

Definition on_client_registry {A} (m : M Registry A) : M (Client S) A := λ env tick c,
  let '(a, tick, r) := m env tick (cl_registry c) in (a, tick, {| c with cl_registry := r |}).

Fixpoint upsert_all (recs : list InstanceRecord) : M Registry unit :=
  match recs with
  | [] => mret tt
  | rec :: recs => _ ← Upsert rec "membership"; upsert_all recs
  end.

Definition on_client_sink (m : M (PeerStatusSink S) unit) : M (Client S) unit := λ env tick c,
  match StatusSinkOf c with
  | None => (tt, tick, c)
  | Some p =>
      let '(_, tick, p) := m env tick p in (tt, tick, {| c with StatusSinkOf := Some p |})
  end.

Definition apply_statuses (sts : PeerStatuses) (order order' : list string) : M (Client S) unit :=
  c ← get;
  match StatusSinkOf c with
  | None => mret tt
  | Some _ =>
      now ← clock;
      on_client_sink (ApplyAll sts now (cl_PeerStatusTimeout c) order order')
  end.

Definition applyMembership (m : membershipResponse) (order order' : list string) : M (Client S) unit :=
  _ ← modify (λ c, if lastVersion c <? m_Version m then {| c with lastVersion := m_Version m |} else c);
  _ ← on_client_registry (_ ← Upsert (m_Self m) "membership"; upsert_all (m_Peers m));
  apply_statuses (m_Statuses m) order order'.
End Follower.

(** ** Facts *)

Lemma wp_on_registry {A} (m : M Registry A) env tick s Q :
  wp (on_registry m) env tick s Q =
  wp m env tick (registry s) (λ a t r, Q a t {| s with registry := r |}).
Proof. unfold wp, on_registry. by destruct (m env tick (registry s)) as [[a t] r]. Qed.

Lemma wp_respond selfStatus order env tick s (Q : fed_response → nat → FedServer → Prop) :
  (∀ m tick', (∀ id, m_Statuses m !! id =
       match selfStatus with
       | Some st => if id =s id_ID (self (registry s)) then
                      (if id_ID (self (registry s)) =s "" then statuses s !! id else Some st)
                    else statuses s !! id
       | None => statuses s !! id
       end) →
     ID (m_Self m) = id_ID (self (registry s)) →
     (∀ rec, rec ∈ m_Peers m → ∃ id, peers (registry s) !! id = Some rec) →
     Q (mkFedResponse 200 (Membership m)) tick' s) →
  wp (respond selfStatus order) env tick s Q.
Proof.
  intros HQ. unfold respond, snapshotResponse, aggregateStatuses. wp_go.
  rewrite wp_on_registry. unfold TakeSnapshot, Registry_Self. wp_go. cbv zeta. wp_go.
  assert (∀ rec, rec ∈ sort_peers (omap (λ id, peers (registry s) !! id) order) →
    ∃ id, peers (registry s) !! id = Some rec) as Hp.
  { intros rec. unfold sort_peers. rewrite merge_sort_Permutation.
    intros (id & _ & Hid)%list_elem_of_omap. by exists id. }
  destruct selfStatus as [st|]; wp_go.
  - rewrite wp_on_registry. wp_go. cbn [registry]. destruct (id_ID (self (registry s)) =s "") eqn:E;
      cbn [ID]; rewrite E; destruct s; (apply HQ; [|done|exact Hp]); intros id; cbn [m_Statuses statuses];
      destruct (streq id _) eqn:E2; go_bools; subst; try done.
    + apply lookup_insert_eq.
    + by apply lookup_insert_ne.
  - destruct s. by apply HQ.
Qed.

(** ** Properties *)

(** Nothing happens without the secret. When a secret is configured, a
    request that does not carry it is refused and changes neither the membership
    nor the statuses, whatever it asks for. *)
Theorem unauthorized_changes_nothing (selfStatus : option StatusResponse) (order : list string)
  (method got : string) (rec : option InstanceRecord) (rep : option StatusReport)
  (env : Env) (tick : nat) (s : FedServer) :
  SharedSecret (fs_opts s) ≠ "" → got ≠ SharedSecret (fs_opts s) →
  ∀ m, m ∈ [handleIntroduction selfStatus order method got rec;
            handleHeartbeat selfStatus order method got rec;
            handleReport method got rep; handleMembership selfStatus order method got] →
  state m env tick s = s ∧
  (fed_code (result m env tick s) = 401 ∨ fed_code (result m env tick s) = 405).
Proof.
  intros Hs Hg m Hm.
  assert (∀ want, ∃ r, admit_request want method got s = Some r ∧ (fed_code r = 401 ∨ fed_code r = 405)) as Hadm.
  { intros want. unfold admit_request, CheckSharedSecret.
    rewrite (proj2 (streq_false _ _) Hs), (proj2 (streq_false _ _) Hg).
    destruct (negb _); eexists; (split; [done|]); cbn; auto. }
  enough (wp m env tick s (λ r _ s', s' = s ∧ (fed_code r = 401 ∨ fed_code r = 405))) as H
    by by rewrite wp_run in H.
  rewrite !elem_of_cons in Hm.
  destruct Hm as [->|[->|[->|[->|Hm]]]]; [..|by apply elem_of_nil in Hm];
    unfold handleIntroduction, handleHeartbeat, handleReport, handleMembership; wp_go;
    [destruct (Hadm "POST") as (r & -> & Hr)..|destruct (Hadm "GET") as (r & -> & Hr)]; by wp_go.
Qed.

Definition ex_fed (secret : string) : FedServer :=
  mkFedServer (mkFedOptions (5 * Second) secret (45 * Second) true) ex_registry ∅ [].

Lemma unauthorized_changes_nothing_witness :
  fed_code (result (handleReport "POST" "wrong" None) (frozen 7 "") 0 (ex_fed "secret")) = 401 ∧
  state (handleReport "POST" "wrong" None) (frozen 7 "") 0 (ex_fed "secret") = ex_fed "secret".
Proof.
  split; [vm_compute; reflexivity|].
  apply (unauthorized_changes_nothing None [] "POST" "wrong" None None (frozen 7 "") 0 (ex_fed "secret")).
  - discriminate.
  - discriminate.
  - right. right. left.
Defined.

Lemma foldl_delete ids (m : PeerStatuses) id :
  foldl (λ m id, delete id m) m ids !! id = if mem id ids then None else m !! id.
Proof.
  revert m. induction ids as [|x ids IH]; intros m; [done|]. cbn [foldl]. rewrite IH. unfold mem. cbn [existsb].
  fold (mem id ids). destruct (mem id ids); [by rewrite orb_true_r|]. rewrite orb_false_r.
  destruct (streq id x) eqn:E; go_bools; subst; [apply lookup_delete_eq|by apply lookup_delete_ne].
Qed.

(** A peer that ages out stops contributing. After a tick of the sweep over
    all peers, no silent peer is left in the registry, none of them has a status,
    and every other status is kept; the observer is told the new set when anyone
    left. *)
Theorem ageOut_tick_forgets (order : list string) (env : Env) (tick : nat) (s : FedServer) :
  peers_ok (registry s) → 0 < HeartbeatTimeout (opts (registry s)) →
  (∀ id, is_Some (peers (registry s) !! id) → id ∈ order) →
  let silent id := match peers (registry s) !! id with
    | Some rec => stale (env_clock env tick) (HeartbeatTimeout (opts (registry s))) rec
    | None => false end in
  let s' := state (ageOut_tick order) env tick s in
  (∀ id, statuses s' !! id = if silent id then None else statuses s !! id) ∧
  (∀ id, peers (registry s') !! id = if silent id then None else peers (registry s) !! id) ∧
  ((∃ id, silent id = true) → OnStatus (fs_opts s) = true → last (told s') = Some (statuses s')).
Proof.
  intros Hok Ht Hall. cbv zeta.
  set (now := env_clock env tick). set (timeout := HeartbeatTimeout (opts (registry s))).
  set (silent := λ id, match peers (registry s) !! id with Some rec => stale now timeout rec | None => false end).
  pose proof (age_out_fold now timeout (registry s) order Hok) as Hf.
  assert (∀ id, swept now timeout (registry s) order id = silent id) as Hsw.
  { intros id. unfold swept, silent. destruct (peers (registry s) !! id) as [rec|] eqn:E; [|apply andb_false_r].
    by rewrite (proj2 (mem_true id order)) by (apply Hall; rewrite E; done). }
  enough (wp (ageOut_tick order) env tick s (λ _ _ s',
    (∀ id, statuses s' !! id = if silent id then None else statuses s !! id) ∧
    (∀ id, peers (registry s') !! id = if silent id then None else peers (registry s) !! id) ∧
    ((∃ id, silent id = true) → OnStatus (fs_opts s) = true → last (told s') = Some (statuses s'))))
    as H by (rewrite wp_run in H; exact H).
  unfold ageOut_tick. wp_go. rewrite wp_on_registry.
  apply wp_AgeOut; [done|fold timeout; lia|]. intros evs r' _ _ _ _ Heq. fold now timeout in Heq.
  destruct (foldl _ _ order) as [r1 evs1]. injection Heq as Hpeers ->.
  destruct Hf as (_ & _ & _ & Hp & He & Hc).
  assert (∀ id, mem id (map (λ ev, ID (ev_Record ev)) evs1) = silent id) as Hmem.
  { intros id. specialize (Hc id). rewrite Hsw in Hc. apply eq_true_iff_eq. rewrite mem_true. split.
    - intros (ev & -> & Hin)%list_elem_of_fmap. destruct (silent (ID (ev_Record ev))); [done|]. exfalso.
      apply length_zero_iff_nil in Hc. eapply not_elem_of_nil. rewrite <- Hc.
      by apply list_elem_of_filter.
    - intros Hs. rewrite Hs in Hc. destruct (filter _ evs1) as [|ev l] eqn:E; [done|].
      assert (ev ∈ filter (λ ev, ID (ev_Record ev) = id) evs1) as Hin by (rewrite E; by left).
      apply list_elem_of_filter in Hin as [<- Hin]. apply list_elem_of_fmap. by exists ev. }
  assert (∀ id, peers r' !! id = if silent id then None else peers (registry s) !! id) as Hreg.
  { intros id. by rewrite Hpeers, Hp, Hsw. }
  unfold forgetStatuses. destruct (map _ evs1) as [|x ids] eqn:Hids.
  - wp_go. cbn [statuses registry told].
    assert (∀ id, silent id = false) as Hno by (intros id; by rewrite <- Hmem).
    split; [intros id; by rewrite Hno|]. split; [done|]. intros [id Hid]. by rewrite Hno in Hid.
  - wp_go. unfold notifyStatus. wp_go. cbn [fs_opts statuses registry].
    destruct (OnStatus (fs_opts s)) eqn:Ho; cbn [statuses registry told peerStatuses];
      (split; [intros id; by rewrite foldl_delete, Hmem|]); (split; [done|]); intros _ Hobs; [|done].
    apply last_snoc.
Qed.

Definition ex_peers : FedServer :=
  {| (ex_fed "") with
     registry := {| ex_registry with peers := {["a" := ex_peer "a"]} |};
     statuses := {["a" := ex_status [] [] 5]} |}.

Lemma ageOut_tick_forgets_witness :
  let s' := state (ageOut_tick ["a"]) (frozen (60 * Second) "") 0 ex_peers in
  statuses s' !! "a" = None ∧
  (∀ id, statuses s' !! id =
     if (match peers (registry ex_peers) !! id with
         | Some rec => stale (60 * Second) (HeartbeatTimeout (opts (registry ex_peers))) rec
         | None => false end)
     then None else statuses ex_peers !! id).
Proof.
  cbv zeta. split; [vm_compute; reflexivity|].
  apply (ageOut_tick_forgets ["a"] (frozen (60 * Second) "") 0 ex_peers).
  - split; [vm_compute; discriminate|]. apply map_Forall_singleton. cbn. done.
  - reflexivity.
  - intros id [x Hx]. change (peers (registry ex_peers)) with ({["a" := ex_peer "a"]} : gmap string InstanceRecord) in Hx.
    apply lookup_singleton_Some in Hx as [<- _]. by left.
Defined.

(** A report that arrives after its sender aged out, or from a node that never
    introduced itself, is kept, and no later sweep removes it. *)
Example late_report_stays :
  let late := mkReport "a" "svc" 0 (ex_status [mkComponent "db" false "" 0] [] 5) in
  let s := state (_ ← ageOut_tick ["a"]; _ ← handleReport "POST" "" (Some late); ageOut_tick [])
    (frozen (60 * Second) "") 0 ex_peers in
  peers (registry s) !! "a" = None ∧ sr_Components <$> statuses s !! "a" = Some [mkComponent "db" false "" 0].
Proof. vm_compute. split; reflexivity. Qed.

Section FollowerProperties.
Context {S : Type} {SS : StatusSink S}.

Lemma wp_on_client_registry {A} (m : M Registry A) env tick (c : Client S) Q :
  wp (on_client_registry m) env tick c Q =
  wp m env tick (cl_registry c) (λ a t r, Q a t {| c with cl_registry := r |}).
Proof. unfold wp, on_client_registry. by destruct (m env tick (cl_registry c)) as [[a t] r]. Qed.

(** What upserts with room for all of them do to the membership. *)
Definition learns (recs : list InstanceRecord) (r r' : Registry) : Prop :=
  self r' = self r ∧ opts r' = opts r ∧
  (∀ id, is_Some (peers r !! id) → is_Some (peers r' !! id)) ∧
  (∀ rec, rec ∈ recs → addressable r (ID rec) = true → is_Some (peers r' !! ID rec)) ∧
  (size (peers r') ≤ size (peers r) + length recs)%nat.

Lemma wp_Upsert_learns rec reason env tick r (Q : Event → nat → Registry → Prop) :
  Z.of_nat (size (peers r)) < MaxPeers (opts r) →
  (∀ ev tick' r', learns [rec] r r' → Q ev tick' r') →
  wp (Upsert rec reason) env tick r Q.
Proof.
  intros Hroom HQ. rewrite wp_Upsert. cbv zeta.
  assert (addressable r (ID rec) = false → learns [rec] r r) as Hsame.
  { intros Ha. split_and!; try done; [|lia]. intros x ->%list_elem_of_singleton. congruence. }
  destruct (addressable r (ID rec)) eqn:Ha; cbn [negb]; [|by apply HQ, Hsame].
  rewrite Z.geb_leb, (proj2 (Z.leb_gt _ _) Hroom), andb_false_r.
  apply HQ. split_and!; cbn [self opts peers]; try done.
  - intros id Hid. destruct (decide (id = ID rec)) as [->|Hne]; [by rewrite lookup_insert_eq|].
    by rewrite lookup_insert_ne.
  - intros x ->%list_elem_of_singleton _. by rewrite lookup_insert_eq.
  - rewrite map_size_insert. cbn [length]. destruct (peers r !! ID rec); [apply Nat.le_add_r|]. by rewrite Nat.add_1_r.
Qed.

Lemma learns_trans r1 r2 r3 recs rec :
  learns [rec] r1 r2 → learns recs r2 r3 → learns (rec :: recs) r1 r3.
Proof.
  intros (S1 & O1 & K1 & N1 & Z1) (S2 & O2 & K2 & N2 & Z2). split_and!; try congruence; auto.
  - intros x [->|Hx]%elem_of_cons Ha; [apply K2, N1; [by left|done]|].
    apply N2; [done|]. unfold addressable in *. by rewrite S1.
  - cbn [length] in *. lia.
Qed.

Lemma wp_upsert_all recs env tick r (Q : unit → nat → Registry → Prop) :
  Z.of_nat (size (peers r) + length recs) ≤ MaxPeers (opts r) →
  (∀ tick' r', learns recs r r' → Q tt tick' r') →
  wp (upsert_all recs) env tick r Q.
Proof.
  revert tick r Q. induction recs as [|rec recs IH]; intros tick r Q Hroom HQ; cbn [upsert_all].
  { wp_go. apply HQ. split_and!; try done; [|lia]. intros x Hx. by apply elem_of_nil in Hx. }
  wp_go. cbn [length] in Hroom. apply wp_Upsert_learns; [lia|]. intros ev t r' Hl.
  pose proof Hl as (_ & Ho & _ & _ & Hs). cbn [length] in Hs.
  apply IH; [rewrite Ho; lia|]. intros t' r'' Hl'. apply HQ. by eapply learns_trans.
Qed.

Lemma apply_statuses_registry sts order order' env tick (c : Client S) :
  let c' := state (apply_statuses sts order order') env tick c in
  cl_registry c' = cl_registry c ∧ lastVersion c' = lastVersion c.
Proof.
  cbv zeta. unfold apply_statuses, on_client_sink, state, get, clock, mbind, M_bind, mret, M_ret. cbn.
  destruct (StatusSinkOf c) as [p|] eqn:E; [|done]. rewrite E.
  by destruct (ApplyAll _ _ _ _ _ _ _ _) as [[? ?] ?].
Qed.

(** A follower learns the whole membership and forgets nobody. Applying a
    response leaves every record of it that can be a peer, the introducer's own
    included, in the follower's registry, provided the registry has room, keeps
    every peer it had, and never lowers the version it has seen. *)
Theorem applyMembership_learns (m : membershipResponse) (order order' : list string)
  (env : Env) (tick : nat) (c : Client S) :
  Z.of_nat (size (peers (cl_registry c)) + 1 + length (m_Peers m)) ≤ MaxPeers (opts (cl_registry c)) →
  let c' := state (applyMembership m order order') env tick c in
  (∀ rec, rec ∈ m_Self m :: m_Peers m → addressable (cl_registry c) (ID rec) = true →
     is_Some (peers (cl_registry c') !! ID rec)) ∧
  (∀ id, is_Some (peers (cl_registry c) !! id) → is_Some (peers (cl_registry c') !! id)) ∧
  lastVersion c' = Z.max (lastVersion c) (m_Version m).
Proof.
  intros Hroom. cbv zeta.
  enough (wp (applyMembership m order order') env tick c (λ _ _ c',
    learns (m_Self m :: m_Peers m) (cl_registry c) (cl_registry c') ∧
    lastVersion c' = Z.max (lastVersion c) (m_Version m))) as H.
  { rewrite wp_run in H. by destruct H as [(_ & _ & HK & HN & _) HV]. }
  unfold applyMembership. wp_go. set (c1 := if lastVersion c <? m_Version m then _ else _).
  assert (cl_registry c1 = cl_registry c ∧ lastVersion c1 = Z.max (lastVersion c) (m_Version m)) as [Hr Hv].
  { subst c1. destruct (Z.ltb_spec (lastVersion c) (m_Version m)); cbn; (split; [done|]); lia. }
  clearbody c1. rewrite wp_on_client_registry, Hr. wp_go. apply wp_Upsert_learns; [lia|].
  intros ev t r1 Hl. pose proof Hl as (_ & Ho & _ & _ & Hs). cbn [length] in Hs.
  apply wp_upsert_all; [rewrite Ho; lia|]. intros t' r2 Hl2. rewrite wp_run.
  destruct (apply_statuses_registry (m_Statuses m) order order' env t' {| c1 with cl_registry := r2 |}) as [-> ->].
  split; [by eapply learns_trans|done].
Qed.
End FollowerProperties.

Definition ex_client : Client Server :=
  mkClient {| ex_registry with self := mkIdentity "f" "svc" "h" "./state" 19101 RoleFollower 2 0 |} 0 true
    (Some ex_sink) (45 * Second).
Definition ex_membership : membershipResponse := mkMembership (ex_peer "me") "me" [ex_peer "f"] 3 7 ∅.

Lemma applyMembership_learns_witness :
  let c' := state (applyMembership ex_membership [] []) (frozen 7 "") 0 ex_client in
  lastVersion c' = 3 ∧ is_Some (peers (cl_registry c') !! "me").
Proof.
  cbv zeta.
  destruct (applyMembership_learns ex_membership [] [] (frozen 7 "") 0 ex_client ltac:(vm_compute; discriminate))
    as (H1 & _ & H3).
  split; [exact H3|]. apply (H1 (ex_peer "me")); [by left|reflexivity].
Defined.

(** The process wires [StatusFunc] to the whole health view, mirrored entries
    included, so what a follower mirrored comes back one level deeper with every
    report: after two rounds its view holds its own name nested in itself. *)
Example reports_nest :
  let report s := sr_Components (result Server_Snapshot (frozen 7 "") 0 s) in
  let round (p : PeerStatusSink Server) :=
    state (ApplyAll {["f" := ex_status (report (sink p)) [] 7]} 7 0 ["f"] ["f"]) (frozen 7 "") 0 p in
  map c_Name (report (sink (round (round ex_sink)))) = ["federation/f"; "federation/f/federation/f"].
Proof. vm_compute. reflexivity. Qed.
