(* ===== verification/FedCluster.v ===== *)
(** * A cluster: the follower's requests against the introducer
    ([internal/federation/client.go], [server.go])

    The follower's introduction, heartbeat and status report composed with the
    introducer's handlers: the state is the introducer and the nodes, and a step
    is one turn of one of the loops. A request is lost on its way, or the
    introducer handles it and its answer is lost, or the answer arrives. JSON
    carries records and statuses unchanged; the requests are handled one at a
    time. Waiting for the tickers is not modelled: turns come in any order. *)

From Stdlib Require Import ZArith NArith Lia Ascii.
From stdpp Require Import base tactics strings gmap.
From stdpp Require Import list.
From S2P Require Import Prelude Bytes Durations Net Registry Health Status Federation.

Open Scope Z_scope.

(** ** The request *)

(** [textproto.TrimString], which [net/http] applies to every header value it
    writes. *)
Definition header_spaces : list string := map byte_of [9; 10; 13; 32]%N.
Definition TrimString (s : string) : string :=
  let s := trim_runes header_spaces (String.length s) s in
  String.rev (trim_runes header_spaces (String.length s) (String.rev s)).

(** [httpguts.ValidHeaderFieldValue]: no control byte but a tab. *)
Definition ValidHeaderFieldValue (s : string) : bool :=
  all_bytes (λ c, let n := N_of_ascii c in N.eqb n 9 || negb (N.ltb n 32 || N.eqb n 127)) s.

(** The token the introducer reads; [None] when [net/http] refuses to send the
    request. *)
Definition sent_token (secret : string) : option string :=
  if secret =s "" then Some ""
  else if ValidHeaderFieldValue secret then Some (TrimString secret) else None.

(** What becomes of a request. *)
Inductive fate := NotSent | AnswerLost | Answered.

Record Node (S : Type) := mkNode { nd_client : Client S; nd_secret : string }.
Arguments mkNode {S} _ _.
Arguments nd_client {S} _.
Arguments nd_secret {S} _.

(** The two ends of a request. *)
Abbreviation Link S := (FedServer * Node S)%type.

(** What the outside world decides during a request: its fate, what the
    introducer's [SelfStatus] returns ([None] when it is not set), and the orders
    in which Go iterates the introducer's peers, the names the follower's sink
    owns and the statuses of the answer. *)
Record delivery := mkDelivery {
  dv_fate : fate;
  dv_self : option StatusResponse;
  dv_peers : list string;
  dv_owned : list string;
  dv_statuses : list string;
}.

Section Requests.
Context {S : Type} {SS : StatusSink S}.

Definition on_server {A} (m : M FedServer A) : M (Link S) A := zoom fst (λ s l, (s, l.2)) m.
Definition on_client {A} (m : M (Client S) A) : M (Link S) A :=
  zoom (λ l, nd_client l.2) (λ c l, (l.1, mkNode c (nd_secret l.2))) m.

(** [handler] is the introducer's handler for the path, given the token. *)
Definition postJSON (d : delivery) (handler : string → M FedServer fed_response)
  : M (Link S) (option fed_response) :=
  l ← get;
  match sent_token (nd_secret l.2) with
  | None => mret None
  | Some got =>
      match dv_fate d with
      | NotSent => mret None
      | AnswerLost => _ ← on_server (handler got); mret None
      | Answered => r ← on_server (handler got); mret (Some r)
      end
  end.

(** A response other than 200, or whose body is not a membership, is an error. *)
Definition decode_membership (resp : option fed_response) : option membershipResponse :=
  match resp with
  | None => None
  | Some r =>
      if negb (fed_code r =? 200) then None
      else match fed_body_of r with Membership m => Some m | _ => None end
  end.

Definition apply_answer (d : delivery) (resp : option fed_response) : M (Link S) bool :=
  match decode_membership resp with
  | None => mret false
  | Some m => _ ← on_client (applyMembership m (dv_owned d) (dv_statuses d)); mret true
  end.

(** The requests; [true] is a nil error. *)
Definition sendIntroduction (d : delivery) : M (Link S) bool :=
  record ← on_client (on_client_registry Registry_Self);
  now ← clock;
  let record := {| record with Role := RoleFollower; AnnouncedAt := now |} in
  resp ← postJSON d (λ got, handleIntroduction (dv_self d) (dv_peers d) "POST" got (Some record));
  apply_answer d resp.

Definition sendHeartbeat (d : delivery) : M (Link S) bool :=
  record ← on_client (on_client_registry Registry_Self);
  now ← clock;
  let record := {| record with LastSeenAt := now |} in
  resp ← postJSON d (λ got, handleHeartbeat (dv_self d) (dv_peers d) "POST" got (Some record));
  apply_answer d resp.

(** [st] is what [StatusFunc] returns. *)
Definition sendStatusReport (d : delivery) (st : StatusResponse) : M (Link S) bool :=
  a ← on_client (on_client_registry Registry_Self);
  b ← on_client (on_client_registry Registry_Self);
  now ← clock;
  let report := mkReport (ID a) (ServiceName b) now st in
  resp ← postJSON d (λ got, handleReport "POST" got (Some report));
  mret (match resp with Some r => fed_code r =? 200 | None => false end).

(** ** The loops

    One turn of [runAnnouncements], [runHeartbeats] and [runReports]; the last
    runs only when [StatusFunc] is set. *)
Definition announce_turn (d : delivery) : M (Link S) unit :=
  ok ← sendIntroduction d;
  if (ok : bool) then on_client (modify (λ c, {| c with introduced := true |})) else mret tt.

Definition heartbeat_turn (d : delivery) : M (Link S) unit :=
  l ← get;
  if negb (introduced (nd_client l.2)) then mret tt
  else _ ← sendHeartbeat d; mret tt.

Definition report_turn (d : delivery) (st : StatusResponse) : M (Link S) unit :=
  l ← get;
  if introduced (nd_client l.2) then _ ← sendStatusReport d st; mret tt
  else mret tt.

Inductive turn := Announce | Beat | Report (st : StatusResponse).

Definition node_turn (t : turn) (d : delivery) : M (Link S) unit :=
  match t with
  | Announce => announce_turn d
  | Beat => heartbeat_turn d
  | Report st => report_turn d st
  end.
End Requests.

(** The cadences [NewClient] settles on, in the order announce, heartbeat,
    report. *)
Definition client_intervals (announce heartbeat report : Duration) : Duration * Duration * Duration :=
  let announce := if announce <=? 0 then 10 * Second else announce in
  let heartbeat := if heartbeat <=? 0 then 15 * Second else heartbeat in
  let report := if report <=? 0 then heartbeat else report in
  (announce, heartbeat, report).

(** ** The cluster *)

Record Cluster (S : Type) := mkCluster { introducer : FedServer; members : gmap string (Node S) }.
Arguments mkCluster {S} _ _.
Arguments introducer {S} _.
Arguments members {S} _.

(** Anything that can be asked of the introducer. *)
Inductive request :=
  | Introduce (body : option InstanceRecord)
  | Heartbeat (body : option InstanceRecord)
  | ReportStatus (body : option StatusReport)
  | AskMembership.

Definition serve_request (selfStatus : option StatusResponse) (order : list string)
  (method got : string) (q : request) : M FedServer fed_response :=
  match q with
  | Introduce body => handleIntroduction selfStatus order method got body
  | Heartbeat body => handleHeartbeat selfStatus order method got body
  | ReportStatus body => handleReport method got body
  | AskMembership => handleMembership selfStatus order method got
  end.

(** A turn of a member's loop, of the introducer's sweep, or a request from
    someone else, who does not know the secret. *)
Inductive cluster_step {S : Type} `{!StatusSink S} : Cluster S → Cluster S → Prop :=
  | step_turn name nd t d env tick c :
      members c !! name = Some nd →
      let l := state (node_turn t d) env tick (introducer c, nd) in
      cluster_step c (mkCluster l.1 (<[name := l.2]> (members c)))
  | step_sweep order env tick c :
      cluster_step c (mkCluster (state (ageOut_tick order) env tick (introducer c)) (members c))
  | step_stranger selfStatus order method got q env tick c :
      got ≠ SharedSecret (fs_opts (introducer c)) →
      cluster_step c (mkCluster (state (serve_request selfStatus order method got q) env tick (introducer c))
        (members c)).

(** ** Facts: the introducer *)

Definition request_id (q : request) : option string :=
  match q with
  | Introduce body | Heartbeat body => ID <$> body
  | ReportStatus body => InstanceID <$> body
  | AskMembership => None
  end.

(** Everyone the registry or the statuses name satisfies [T]. *)
Definition names_only (T : string → Prop) (r : Registry) : Prop :=
  map_Forall (λ id rec, ID rec = id ∧ T id) (peers r).
Definition server_ok (T : string → Prop) (s : FedServer) : Prop :=
  names_only T (registry s) ∧ map_Forall (λ id _, T id) (statuses s).

(** What stays the same at the introducer. *)
Definition same_server (s s' : FedServer) : Prop :=
  fs_opts s' = fs_opts s ∧ self (registry s') = self (registry s).

(** An answer that names only those who satisfy [T]. *)
Definition answer_ok (T : string → Prop) (m : membershipResponse) : Prop :=
  (∀ rec, rec ∈ m_Self m :: m_Peers m → T (ID rec)) ∧ map_Forall (λ id _, T id) (m_Statuses m).
Definition response_ok (T : string → Prop) (resp : option fed_response) : Prop :=
  ∀ m, decode_membership resp = Some m → answer_ok T m.

Lemma wp_Upsert_names T rec reason env tick r (Q : Event → nat → Registry → Prop) :
  names_only T r → T (ID rec) →
  (∀ ev tick' r', names_only T r' → self r' = self r → Q ev tick' r') →
  wp (Upsert rec reason) env tick r Q.
Proof.
  intros Hr HT HQ. rewrite wp_Upsert. cbv zeta.
  repeat case_match; (apply HQ; [|done]); try done; by apply map_Forall_insert_2.
Qed.

Lemma wp_respond_ok (T : string → Prop) selfStatus order env tick s (Q : fed_response → nat → FedServer → Prop) :
  server_ok T s →
  (∀ r tick', response_ok (λ id, T id ∨ id = id_ID (self (registry s))) (Some r) → Q r tick' s) →
  wp (respond selfStatus order) env tick s Q.
Proof.
  intros [Hr Hs] HQ. apply wp_respond. intros m tick' Hsts Hself Hpeers. apply HQ.
  intros m'. cbn. intros [= <-]. split.
  - intros rec [->|Hrec]%elem_of_cons; [by right|]. destruct (Hpeers _ Hrec) as [id Hid].
    destruct (Hr _ _ Hid) as [<- HT]. by left.
  - intros id st. rewrite Hsts. repeat case_match; intros Hid; go_bools; subst; try (by left; apply (Hs id st)).
    all: by right.
Qed.

(** A request is answered with nothing but what the introducer holds, and leaves
    nothing there but the sender's name. *)
Lemma wp_serve_request (T : string → Prop) selfStatus order method got q env tick s
  (Q : fed_response → nat → FedServer → Prop) :
  server_ok T s → (∀ id, request_id q = Some id → T id) →
  (∀ r tick' s', server_ok T s' → same_server s s' →
     response_ok (λ id, T id ∨ id = id_ID (self (registry s))) (Some r) → Q r tick' s') →
  wp (serve_request selfStatus order method got q) env tick s Q.
Proof.
  intros Hok Hid HQ.
  assert (∀ want r, admit_request want method got s = Some r →
    response_ok (λ id, T id ∨ id = id_ID (self (registry s))) (Some r)) as Hadmit.
  { intros want r. unfold admit_request. repeat case_match; intros [= <-]; by intros m. }
  assert (∀ e, response_ok (λ id, T id ∨ id = id_ID (self (registry s))) (Some (fed_error 400 e))) as H400
    by by intros e m.
  assert (same_server s s) as Hsame by done.
  destruct q as [[rec|]|[rec|]|[rep|]|]; cbn [serve_request request_id] in *;
    unfold handleIntroduction, handleHeartbeat, handleReport, handleMembership; wp_go;
    (destruct (admit_request _ method got s) as [r|] eqn:Ha; wp_go; [apply HQ; eauto|]);
    try (apply HQ; eauto; fail); try (destruct (blank _); wp_go; [by apply HQ|]).
  - rewrite wp_on_registry. unfold Registry_Self. wp_go. rewrite wp_on_registry.
    apply (wp_Upsert_names T); [apply Hok|by apply Hid|]. intros ev t r' Hr' Hself.
    apply (wp_respond_ok T); [by split; [|apply Hok]|]. cbn [registry]. rewrite Hself. intros r t' Hr.
    by apply HQ; [split; [|apply Hok]|..].
  - rewrite wp_on_registry. apply (wp_Upsert_names T); [apply Hok|by apply Hid|]. intros ev t r' Hr' Hself.
    apply (wp_respond_ok T); [by split; [|apply Hok]|]. cbn [registry]. rewrite Hself. intros r t' Hr.
    by apply HQ; [split; [|apply Hok]|..].
  - unfold notifyStatus. wp_go. cbn [fs_opts statuses].
    destruct (OnStatus _); (apply HQ; [split; [apply Hok|]|done|by intros m]); cbn [statuses];
      (apply map_Forall_insert_2; [by apply Hid|apply Hok]).
  - by apply (wp_respond_ok T); [|intros r t Hr; apply HQ].
Qed.

(** The sweep only forgets. *)
Lemma notify_all_keeps {A} (f : Registry → A) evs :
  (∀ r l, f {| r with notified := l |} = f r) → keeps f (notify_all evs).
Proof.
  intros Hf. induction evs as [|ev evs IH]; cbn [notify_all]; [apply keeps_ret|].
  apply keeps_bind; [|intros _; exact IH]. unfold notify. keeps_go. apply keeps_modify. intros r. apply Hf.
Qed.

Lemma age_out_fold_names T now timeout order : ∀ r evs,
  names_only T r → let r' := (foldl (age_out_peer now timeout) (r, evs) order).1 in
  names_only T r' ∧ self r' = self r.
Proof.
  cbv zeta. induction order as [|id order IH]; intros r evs Hr; [done|]. cbn [foldl].
  assert (names_only T (age_out_peer now timeout (r, evs) id).1 ∧ self (age_out_peer now timeout (r, evs) id).1 = self r)
    as [H1 H2].
  { unfold age_out_peer. repeat case_match; try done. split; [|done]. by apply map_Forall_delete. }
  destruct (age_out_peer now timeout (r, evs) id) as [r1 evs1]. cbn [fst] in H1, H2. rewrite <- H2. by apply IH.
Qed.

Lemma wp_ageOut_tick_names T order env tick s (Q : unit → nat → FedServer → Prop) :
  server_ok T s → (∀ u t s', server_ok T s' → same_server s s' → Q u t s') →
  wp (ageOut_tick order) env tick s Q.
Proof.
  intros [Hr Hs] HQ. unfold ageOut_tick. wp_go. rewrite wp_on_registry. unfold AgeOut. wp_go.
  assert (∀ evs t r', names_only T r' → self r' = self (registry s) →
    wp (forgetStatuses (map (λ ev, ID (ev_Record ev)) evs)) env t {| s with registry := r' |} Q) as Hforget.
  { intros evs t r' Hr' Hself. unfold forgetStatuses, notifyStatus. destruct (map _ evs) as [|x ids]; wp_go.
    { by apply HQ. }
    assert (map_Forall (λ id _, T id) (foldl (λ m id, delete id m) (statuses s) (x :: ids))) as Hd.
    { intros id st. rewrite foldl_delete. destruct (mem _ _); [done|]. apply Hs. }
    cbn [fs_opts statuses registry]. destruct (OnStatus _); (apply HQ; [split; [exact Hr'|exact Hd]|done]). }
  destruct (_ <=? 0); wp_go; [by apply (Hforget [])|].
  match goal with |- context [foldl (age_out_peer ?n ?t) (?r, []) order] =>
    pose proof (age_out_fold_names T n t order r [] Hr) as [Hn Hself];
    destruct (foldl (age_out_peer n t) (r, []) order) as [r1 evs] end.
  wp_go. cbn [fst] in Hn, Hself.
  apply (keeps_wp (λ r, (peers r, self r))); [by apply notify_all_keeps|].
  intros u t r' [= Hp Hs']. wp_go. apply Hforget; [unfold names_only; by rewrite Hp|congruence].
Qed.

(** ** Facts: a follower *)

Section Followers.
Context {S : Type} {SS : StatusSink S}.

(** Everyone a follower knows of, by its registry or by what its sink shows,
    satisfies [T]. *)
Definition sink_ok (T : string → Prop) (p : PeerStatusSink S) : Prop := map_Forall (λ id _, T id) (owned p).
Definition client_ok (T : string → Prop) (c : Client S) : Prop :=
  names_only T (cl_registry c) ∧ match StatusSinkOf c with Some p => sink_ok T p | None => True end.

Lemma on_sink_owned {A} (m : M S A) : keeps (owned (S := S)) (on_sink m).
Proof. intros env tick p. unfold on_sink, state. by destruct (m env tick (sink p)) as [[? ?] ?]. Qed.

Lemma withdraw_absent_owned sts previous ids : keeps (owned (S := S)) (withdraw_absent sts previous ids).
Proof.
  induction ids as [|id ids IH]; cbn [withdraw_absent]; [apply keeps_ret|].
  apply keeps_bind; [|intros _; exact IH]. destruct (sts !! id); [apply keeps_ret|apply on_sink_owned].
Qed.

Lemma maintains_render_all T sts now timeout ids :
  map_Forall (λ id _, T id) sts → maintains (sink_ok T) (render_all sts now timeout ids).
Proof.
  intros Hs. induction ids as [|id ids IH]; cbn [render_all]; [apply maintains_ret|].
  apply maintains_bind; [|intros _; exact IH]. destruct (sts !! id) as [st|] eqn:E; [|apply maintains_ret].
  unfold render. cbv zeta. apply maintains_bind.
  - intros env tick p Hp. unfold sink_ok. by rewrite on_sink_owned.
  - intros _. apply maintains_modify. intros p Hp. unfold sink_ok. cbn [owned].
    by apply map_Forall_insert_2; [apply (Hs _ _ E)|].
Qed.

Lemma maintains_ApplyAll T sts now timeout order order' env tick p :
  map_Forall (λ id _, T id) sts → sink_ok T (state (ApplyAll (S := S) sts now timeout order order') env tick p).
Proof.
  intros Hs. enough (wp (ApplyAll (S := S) sts now timeout order order') env tick p (λ _ _ p', sink_ok T p')) as H
    by by rewrite wp_run in H.
  unfold ApplyAll. wp_go. cbv zeta. wp_go. apply (keeps_wp owned); [apply withdraw_absent_owned|].
  intros _ t p' Ho. apply maintains_wp; [by apply maintains_render_all|].
  unfold sink_ok. rewrite Ho. apply map_Forall_empty.
Qed.

Lemma wp_applyMembership_ok T m order order' env tick (c : Client S) (Q : unit → nat → Client S → Prop) :
  client_ok T c → answer_ok T m →
  (∀ t c', client_ok T c' → self (cl_registry c') = self (cl_registry c) → Q tt t c') →
  wp (applyMembership m order order') env tick c Q.
Proof.
  intros [Hr Hs] [Hm Hst] HQ. unfold applyMembership. wp_go. set (c1 := if lastVersion c <? m_Version m then _ else _).
  assert (cl_registry c1 = cl_registry c ∧ StatusSinkOf c1 = StatusSinkOf c) as [Er Es]
    by (subst c1; by destruct (_ <? _)).
  clearbody c1. rewrite wp_on_client_registry, Er. wp_go.
  apply (wp_Upsert_names T); [done|apply Hm; by left|]. intros ev t r1 Hr1 Hself1.
  assert (∀ recs t r, (∀ rec, rec ∈ recs → T (ID rec)) → names_only T r → self r = self (cl_registry c) →
    wp (upsert_all recs) env t r (λ _ _ r', names_only T r' ∧ self r' = self (cl_registry c))) as Hall.
  { induction recs as [|rec recs IH]; intros t' r HT Hr' Hself'; cbn [upsert_all]; wp_go; [done|].
    apply (wp_Upsert_names T); [done|apply HT; by left|]. intros ev' t'' r' ? Hs'.
    apply IH; [intros rec' ?; apply HT; by right|done|congruence]. }
  eapply wp_mono; [apply Hall; [intros rec Hrec; apply Hm; by right|done|done]|]. intros [] t' r2 [Hr2 Hself2].
  unfold apply_statuses. wp_go. cbn [StatusSinkOf]. rewrite Es. destruct (StatusSinkOf c) as [p|] eqn:Ep; wp_go.
  - unfold wp, on_client_sink. cbn [StatusSinkOf cl_PeerStatusTimeout].
    pose proof (maintains_ApplyAll T (m_Statuses m) (env_clock env t') (cl_PeerStatusTimeout c1) order order' env
      (1 + t') p Hst) as Hp.
    unfold state in Hp. destruct (ApplyAll _ _ _ _ _ _ _ _) as [[? ?] p']. by apply HQ.
  - apply HQ; [|done]. by split.
Qed.

(** ** Facts: a request *)

Lemma wp_on_server {A} (m : M FedServer A) env tick (l : Link S) Q :
  wp (on_server m) env tick l Q = wp m env tick l.1 (λ a t s, Q a t (s, l.2)).
Proof. apply (wp_zoom (fst : Link S → FedServer)). Qed.
Lemma wp_on_client {A} (m : M (Client S) A) env tick (l : Link S) Q :
  wp (on_client m) env tick l Q =
  wp m env tick (nd_client l.2) (λ a t c, Q a t (l.1, mkNode c (nd_secret l.2))).
Proof. apply (wp_zoom (λ l : Link S, nd_client l.2)). Qed.

(** The node's own name. *)
Definition node_id (nd : Node S) : string := id_ID (self (cl_registry (nd_client nd))).

Lemma wp_own_record env tick (l : Link S) (Q : InstanceRecord → nat → Link S → Prop) :
  (∀ rec t, ID rec = node_id l.2 → Q rec t l) →
  wp (on_client (on_client_registry Registry_Self)) env tick l Q.
Proof.
  intros HQ. rewrite wp_on_client, wp_on_client_registry. unfold Registry_Self. wp_go. cbv zeta.
  destruct l as [s [c secret]]. cbn in *. by destruct c; apply HQ.
Qed.

(** A member that holds the secret: what it posts under its own name keeps the
    introducer as it should be, and so does what it is answered. *)
Lemma wp_postJSON (T : string → Prop) d selfStatus order method q env tick (l : Link S)
  (Q : option fed_response → nat → Link S → Prop) :
  server_ok T l.1 → (∀ id, request_id q = Some id → T id) →
  (∀ r t s', server_ok T s' → same_server l.1 s' →
     response_ok (λ id, T id ∨ id = id_ID (self (registry l.1))) r → Q r t (s', l.2)) →
  wp (postJSON d (λ got, serve_request selfStatus order method got q)) env tick l Q.
Proof.
  intros Hok Hid HQ. unfold postJSON. wp_go. destruct l as [s nd]. cbn [fst snd] in *.
  assert (∀ t, Q None t (s, nd)) as Hnone by (intros t; by apply HQ).
  destruct (sent_token (nd_secret nd)) as [got|]; [|by wp_go].
  destruct (dv_fate d); wp_go; [done|..]; rewrite wp_on_server; apply (wp_serve_request T); try done;
    intros r t s' ? ? ?; wp_go; by apply HQ.
Qed.

(** A caller without the secret changes nothing and is told nothing. *)
Lemma wp_stranger selfStatus order method got q env tick s (Q : fed_response → nat → FedServer → Prop) :
  SharedSecret (fs_opts s) ≠ "" → got ≠ SharedSecret (fs_opts s) →
  (∀ r t, fed_code r ≠ 200 → Q r t s) →
  wp (serve_request selfStatus order method got q) env tick s Q.
Proof.
  intros Hs Hg HQ.
  assert (∀ want, ∃ r, admit_request want method got s = Some r ∧ fed_code r ≠ 200) as Hadm.
  { intros want. unfold admit_request, CheckSharedSecret.
    rewrite (proj2 (streq_false _ _) Hs), (proj2 (streq_false _ _) Hg).
    destruct (negb _); eexists; (split; [done|]); discriminate. }
  destruct q; cbn [serve_request]; unfold handleIntroduction, handleHeartbeat, handleReport, handleMembership; wp_go;
    [destruct (Hadm "POST") as (r & -> & Hr)..|destruct (Hadm "GET") as (r & -> & Hr)]; wp_go; by apply HQ.
Qed.

Lemma wp_postJSON_stranger d selfStatus order method q env tick (l : Link S)
  (Q : option fed_response → nat → Link S → Prop) :
  SharedSecret (fs_opts l.1) ≠ "" → sent_token (nd_secret l.2) ≠ Some (SharedSecret (fs_opts l.1)) →
  (∀ r t, decode_membership r = None → Q r t l) →
  wp (postJSON d (λ got, serve_request selfStatus order method got q)) env tick l Q.
Proof.
  intros Hs Ht HQ. unfold postJSON. wp_go. destruct l as [s nd]. cbn [fst snd] in *.
  destruct (sent_token (nd_secret nd)) as [got|]; [|by wp_go; apply HQ].
  destruct (dv_fate d); wp_go; [by apply HQ|..]; rewrite wp_on_server;
    (apply wp_stranger; [exact Hs|intros ->; by apply Ht|]);
    intros r t Hr; wp_go; apply HQ; cbn; by rewrite ?(proj2 (Z.eqb_neq _ _) Hr).
Qed.

(** What a turn leaves of the two ends. *)
Record link_ok (T : string → Prop) (l0 l : Link S) : Prop := {
  lk_server : server_ok T l.1;
  lk_same : same_server l0.1 l.1;
  lk_client : client_ok (λ id, T id ∨ id = id_ID (self (registry l0.1))) (nd_client l.2);
  lk_self : self (cl_registry (nd_client l.2)) = self (cl_registry (nd_client l0.2));
  lk_secret : nd_secret l.2 = nd_secret l0.2;
}.

Lemma wp_apply_answer T d r env tick (l0 l : Link S) (Q : bool → nat → Link S → Prop) :
  link_ok T l0 l → response_ok (λ id, T id ∨ id = id_ID (self (registry l0.1))) r →
  (∀ b t l', link_ok T l0 l' → Q b t l') →
  wp (apply_answer d r) env tick l Q.
Proof.
  intros [Hs Hsame Hc Hself Hsec] Hr HQ. unfold apply_answer.
  destruct (decode_membership r) as [m|] eqn:E; wp_go; [|by apply HQ].
  rewrite wp_on_client. eapply wp_applyMembership_ok; [exact Hc|by apply Hr|]. intros t c' Hc' Hself'. wp_go.
  apply HQ. split; cbn [fst snd nd_client nd_secret]; try done. by rewrite Hself'.
Qed.

Lemma wp_node_turn T t d env tick (l : Link S) (Q : unit → nat → Link S → Prop) :
  link_ok T l l → T (node_id l.2) →
  (∀ u tk l', link_ok T l l' → Q u tk l') →
  wp (node_turn t d) env tick l Q.
Proof.
  intros Hl HT HQ.
  assert (∀ s', server_ok T s' → same_server l.1 s' → link_ok T l (s', l.2)) as Hpost.
  { intros s' Hs' Hsame. by destruct Hl; split. }
  destruct t as [| |st]; cbn [node_turn]; unfold announce_turn, heartbeat_turn, report_turn; wp_go.
  - unfold sendIntroduction. wp_go. apply wp_own_record. intros rec tk Hrec. wp_go.
    match goal with |- context [handleIntroduction ?a ?b _ _ (Some ?r)] =>
      apply (wp_postJSON T d a b "POST" (Introduce (Some r))) end; [apply Hl|by intros id [= <-]; rewrite Hrec|].
    intros r tk' s' Hs' Hsame Hr. eapply wp_apply_answer; [by apply Hpost|exact Hr|]. intros [] tk'' l' Hl'; wp_go.
    + rewrite wp_on_client. wp_go. apply HQ. by destruct Hl'; split.
    + by apply HQ.
  - destruct (negb _); wp_go; [by apply HQ|]. unfold sendHeartbeat. wp_go. apply wp_own_record.
    intros rec tk Hrec. wp_go.
    match goal with |- context [handleHeartbeat ?a ?b _ _ (Some ?r)] =>
      apply (wp_postJSON T d a b "POST" (Heartbeat (Some r))) end; [apply Hl|by intros id [= <-]; rewrite Hrec|].
    intros r tk' s' Hs' Hsame Hr. eapply wp_apply_answer; [by apply Hpost|exact Hr|]. intros b tk'' l' Hl'. wp_go.
    by apply HQ.
  - destruct (introduced _); wp_go; [|by apply HQ]. unfold sendStatusReport. wp_go. apply wp_own_record.
    intros rec tk Hrec. wp_go. apply wp_own_record. intros rec' tk' _. wp_go.
    match goal with |- context [handleReport _ _ (Some ?r)] =>
      apply (wp_postJSON T d None [] "POST" (ReportStatus (Some r))) end; [apply Hl|by intros id [= <-]; rewrite Hrec|].
    intros r tk'' s' Hs' Hsame _. wp_go. by apply HQ, Hpost.
Qed.

(** A node without the secret stays out and leaves no trace. *)
Lemma node_turn_stranger t d env tick (l : Link S) :
  SharedSecret (fs_opts l.1) ≠ "" → sent_token (nd_secret l.2) ≠ Some (SharedSecret (fs_opts l.1)) →
  introduced (nd_client l.2) = false →
  state (node_turn t d) env tick l = l.
Proof.
  intros Hs Ht Hi. enough (wp (node_turn t d) env tick l (λ _ _ l', l' = l)) as H by by rewrite wp_run in H.
  destruct t as [| |st]; cbn [node_turn]; unfold announce_turn, heartbeat_turn, report_turn; wp_go;
    [|by rewrite Hi; cbn [negb]; wp_go..].
  unfold sendIntroduction. wp_go. apply wp_own_record. intros rec tk Hrec. wp_go.
  match goal with |- context [handleIntroduction ?a ?b _ _ (Some ?r)] =>
    apply (wp_postJSON_stranger d a b "POST" (Introduce (Some r))) end; try done.
  intros r tk' Hr. unfold apply_answer. rewrite Hr. by wp_go.
Qed.
End Followers.

(** ** Facts: what a follower shows *)

Lemma Upsert_keeps_self rec reason : keeps self (Upsert rec reason).
Proof.
  intros env tick r. enough (wp (Upsert rec reason) env tick r (λ _ _ r', self r' = self r)) as H
    by by rewrite wp_run in H.
  rewrite wp_Upsert. cbv zeta. by repeat case_match.
Qed.

Section Shown.
Context {S : Type} {SS : StatusSink S}.

(** A peer whose entries' names the sink keeps and that cannot be taken for
    another peer's. *)
Definition plain_peer (id : string) (st : StatusResponse) : Prop :=
  has_byte "/" id = false ∧
  ∀ now timeout, Forall (λ e, clean_name (entry_name e)) (render_entries id st now timeout).

Lemma entry_names id st now timeout :
  Forall (λ e, entry_name e = peer_prefix id ∨ ∃ s, entry_name e = peer_prefix id +:+ "/" +:+ s)
    (render_entries id st now timeout).
Proof.
  unfold render_entries, trim_entries. set (P := λ e : entry, _ ∨ _).
  assert (P (rollup_entry id st)) as Hroll by by left.
  assert (∀ h k l, Forall P (take k (map (component_entry id) (unhealthyFirst h l)))) as Hc
    by (intros; apply Forall_take, Forall_map, Forall_true; intros c; right; by exists (c_Name c)).
  assert (∀ h k l, Forall P (take k (map (target_entry id) (unhealthyFirst h l)))) as Ht
    by (intros; apply Forall_take, Forall_map, Forall_true; intros t; right; by exists ("target/" +:+ t_ID t)).
  destruct (is_stale st now timeout); rewrite !Forall_app, ?Forall_singleton; split_and!; auto.
Qed.

(** No entry of one peer has another's name. *)
Lemma other_names id id' st now timeout :
  has_byte "/" id = false → id' ≠ id →
  filter (λ e, entry_name e = peer_prefix id) (render_entries id' st now timeout) = [].
Proof.
  intros Hid Hne. pose proof (entry_names id' st now timeout) as Hn. induction Hn as [|e l He _ IH]; [done|].
  rewrite filter_cons_False; [done|]. intros E. rewrite E in He. unfold peer_prefix in He.
  destruct He as [He|[s He]]; cbn in He; simplify_eq/=.
  change (id = id' +:+ "/" +:+ s) in He. rewrite He, !has_byte_app in Hid. cbn in Hid.
  by rewrite orb_true_r in Hid.
Qed.

Definition shows (id : string) (h : bool) (p : PeerStatusSink S) : Prop := view (sink p) !! peer_prefix id = Some h.

Lemma wp_render_all_shows id st sts now timeout ids : ∀ env tick p,
  has_byte "/" id = false → sts !! id = Some st → map_Forall plain_peer sts →
  let h := rollup_healthy st && negb (is_stale st now timeout) in
  id ∈ ids ∨ shows id h p →
  wp (render_all sts now timeout ids) env tick p (λ _ _ p', shows id h p').
Proof.
  cbv zeta. intros env tick p Hid Hst Hplain. revert tick p.
  induction ids as [|x ids IH]; intros tick p Hin; cbn [render_all]; wp_go.
  { destruct Hin as [Hin|Hin]; [by apply elem_of_nil in Hin|done]. }
  destruct (decide (x = id)) as [->|Hne].
  - rewrite Hst, wp_run. apply IH. right. by apply render_spec, (Hplain _ _ Hst).
  - assert (id ∈ ids ∨ shows id (rollup_healthy st && negb (is_stale st now timeout)) p) as Hin'.
    { by destruct Hin as [[->|?]%elem_of_cons|?]; [|left|right]. }
    destruct (sts !! x) as [stx|] eqn:Ex; [|by wp_go; apply IH]. rewrite wp_run. apply IH.
    destruct Hin' as [|Hs]; [by left|]. right. unfold shows.
    destruct (render_spec x stx now timeout env tick p) as (_ & _ & _ & Hv); [apply (Hplain _ _ Ex)|].
    by rewrite Hv, other_names.
Qed.

Lemma ApplyAll_shows id st sts now timeout order order' env tick (p : PeerStatusSink S) :
  sts !! id = Some st → map_Forall plain_peer sts → id ∈ order' →
  shows id (rollup_healthy st && negb (is_stale st now timeout))
    (state (ApplyAll sts now timeout order order') env tick p).
Proof.
  intros Hst Hplain Hin. destruct (Hplain _ _ Hst) as [Hid _].
  enough (wp (ApplyAll sts now timeout order order') env tick p (λ _ _ p',
    shows id (rollup_healthy st && negb (is_stale st now timeout)) p')) as H by by rewrite wp_run in H.
  unfold ApplyAll. wp_go. cbv zeta. wp_go. rewrite wp_run. apply wp_render_all_shows; try done. by left.
Qed.

(** A member's answer is on its sink at once. *)
Lemma applyMembership_shows m id st order order' env tick (c : Client S) p :
  StatusSinkOf c = Some p → m_Statuses m !! id = Some st → map_Forall plain_peer (m_Statuses m) → id ∈ order' →
  wp (applyMembership m order order') env tick c (λ _ _ c', ∃ p' k, StatusSinkOf c' = Some p' ∧
    shows id (rollup_healthy st && negb (is_stale st (env_clock env k) (cl_PeerStatusTimeout c))) p').
Proof.
  intros Hp Hst Hplain Hin. unfold applyMembership. wp_go.
  set (c1 := if lastVersion c <? m_Version m then _ else _).
  assert (StatusSinkOf c1 = Some p ∧ cl_PeerStatusTimeout c1 = cl_PeerStatusTimeout c) as [E1 E2]
    by (subst c1; by destruct (_ <? _)).
  clearbody c1. rewrite wp_on_client_registry, wp_run. unfold apply_statuses. wp_go. cbn [StatusSinkOf].
  rewrite E1. wp_go. unfold wp, on_client_sink. cbn [StatusSinkOf cl_PeerStatusTimeout].
  match goal with |- context [ApplyAll _ ?now ?tmo _ _ _ ?k p] =>
    pose proof (ApplyAll_shows id st (m_Statuses m) now tmo order order' env k p Hst Hplain Hin) as Hs end.
  unfold state in Hs. destruct (ApplyAll _ _ _ _ _ _ _ _) as [[? ?] p']. rewrite E2 in Hs. by eexists p', _.
Qed.

Lemma admit_holder method s : admit_request method method (SharedSecret (fs_opts s)) s = None.
Proof.
  unfold admit_request, CheckSharedSecret. rewrite streq_refl. cbn [negb].
  destruct (_ =s ""); [done|]. by rewrite streq_refl.
Qed.

(** A report that arrives is what the introducer holds. *)
Lemma wp_report_turn d st env tick (l : Link S) (Q : unit → nat → Link S → Prop) :
  introduced (nd_client l.2) = true → sent_token (nd_secret l.2) = Some (SharedSecret (fs_opts l.1)) →
  blank (node_id l.2) = false → dv_fate d ≠ NotSent →
  (∀ t s', fs_opts s' = fs_opts l.1 → registry s' = registry l.1 →
     statuses s' = <[node_id l.2 := st]> (statuses l.1) → Q tt t (s', l.2)) →
  wp (report_turn d st) env tick l Q.
Proof.
  intros Hi Ht Hb Hd HQ. unfold report_turn. wp_go. rewrite Hi. wp_go. unfold sendStatusReport. wp_go.
  apply wp_own_record. intros rec tk Hrec. wp_go. apply wp_own_record. intros rec' tk' _. wp_go.
  set (report := mkReport _ _ _ _).
  assert (∀ t (Q' : fed_response → nat → FedServer → Prop), (∀ r s', fs_opts s' = fs_opts l.1 →
    registry s' = registry l.1 → statuses s' = <[node_id l.2 := st]> (statuses l.1) → Q' r t s') →
    wp (handleReport "POST" (SharedSecret (fs_opts l.1)) (Some report)) env t l.1 Q') as Hreport.
  { intros t Q' HQ'. unfold handleReport. wp_go. rewrite admit_holder. cbn [InstanceID report]. rewrite Hrec, Hb.
    wp_go. unfold notifyStatus. wp_go. destruct (OnStatus _); by apply HQ'. }
  unfold postJSON. wp_go. rewrite Ht. destruct (dv_fate d); [done|..]; wp_go; rewrite wp_on_server;
    apply Hreport; intros r s' ? ? ?; wp_go; by apply HQ.
Qed.
End Shown.

(** ** Properties *)

Section ClusterProperties.
Context {S : Type} {SS : StatusSink S}.

(** The nodes configured with the introducer's secret. *)
Definition holder (c : Cluster S) (nd : Node S) : Prop :=
  sent_token (nd_secret nd) = Some (SharedSecret (fs_opts (introducer c))).

(** The names of those nodes. *)
Definition trusted (c : Cluster S) (id : string) : Prop :=
  ∃ name nd, members c !! name = Some nd ∧ holder c nd ∧ node_id nd = id.

(** Nobody has been heard from yet. *)
Definition fresh (c : Cluster S) : Prop :=
  peers (registry (introducer c)) = ∅ ∧ statuses (introducer c) = ∅ ∧
  map_Forall (λ _ nd, introduced (nd_client nd) = false ∧ peers (cl_registry (nd_client nd)) = ∅ ∧
    ∀ p, StatusSinkOf (nd_client nd) = Some p → owned p = ∅) (members c).

(** What a member has become since the cluster [c0] was set up. *)
Definition node_since (c0 : Cluster S) (nd0 nd : Node S) : Prop :=
  nd_secret nd = nd_secret nd0 ∧ self (cl_registry (nd_client nd)) = self (cl_registry (nd_client nd0)) ∧
  client_ok (λ id, trusted c0 id ∨ id = id_ID (self (registry (introducer c0)))) (nd_client nd) ∧
  (¬ holder c0 nd0 → nd = nd0).

Record since (c0 c : Cluster S) : Prop := {
  si_server : server_ok (trusted c0) (introducer c);
  si_same : same_server (introducer c0) (introducer c);
  si_before name nd : members c !! name = Some nd →
    ∃ nd0, members c0 !! name = Some nd0 ∧ node_since c0 nd0 nd;
  si_after name : is_Some (members c0 !! name) → is_Some (members c !! name);
}.

Lemma since_fresh c0 : fresh c0 → since c0 c0.
Proof.
  intros (Hp & Hs & Hm). split; [|done| |done].
  - split; [unfold names_only; rewrite Hp|rewrite Hs]; apply map_Forall_empty.
  - intros name nd Hnd. exists nd. split; [done|]. destruct (Hm _ _ Hnd) as (_ & Hpe & Hso).
    split_and!; try done. split; [unfold names_only; rewrite Hpe; apply map_Forall_empty|].
    destruct (StatusSinkOf _) as [p|]; [|done]. unfold sink_ok. rewrite (Hso p eq_refl). apply map_Forall_empty.
Qed.

Lemma since_step c0 c c' :
  SharedSecret (fs_opts (introducer c0)) ≠ "" → fresh c0 → since c0 c → cluster_step c c' → since c0 c'.
Proof.
  intros Hsecret (_ & _ & Hfresh) [Hserver [Ho Hself] Hbefore Hafter] Hstep.
  destruct Hstep as [name nd t d env tick c Hnd l|order env tick c|selfStatus order method got q env tick c Hg].
  - destruct (Hbefore _ _ Hnd) as (nd0 & Hnd0 & Hsec & Hid & Hclient & Hout).
    assert (link_ok (trusted c0) (introducer c, nd) l ∧ (¬ holder c0 nd0 → l.2 = nd)) as [Hl Hsame].
    { assert (link_ok (trusted c0) (introducer c, nd) (introducer c, nd)) as Hl0
        by (split; try done; cbn [fst snd]; by rewrite Hself).
      destruct (decide (sent_token (nd_secret nd0) = Some (SharedSecret (fs_opts (introducer c0))))) as [Hh|Hh].
      - split; [|by intros []].
        enough (wp (node_turn t d) env tick (introducer c, nd) (λ _ _ l, link_ok (trusted c0) (introducer c, nd) l))
          as H by by rewrite wp_run in H.
        apply (wp_node_turn (trusted c0)); [done| |by intros].
        exists name, nd0. split_and!; try done. unfold node_id. cbn [snd]. by rewrite Hid.
      - specialize (Hout Hh) as ->. destruct (Hfresh _ _ Hnd0) as (Hi & _).
        assert (l = (introducer c, nd0)) as ->; [|by split].
        by apply node_turn_stranger; cbn [fst snd]; rewrite ?Ho. }
    destruct Hl as [Hs [Ho' Hself'] Hc Hid' Hsec']. cbn [fst snd] in *. split; cbn [introducer members].
    + done.
    + split; congruence.
    + intros n x [[<- <-]|[Hne Hx]]%lookup_insert_Some; [|by apply Hbefore].
      exists nd0. split; [done|]. split_and!; [congruence..| |].
      * by rewrite <- Hself.
      * intros Hh. rewrite Hsame by done. by apply Hout.
    + intros n Hn. destruct (decide (n = name)) as [->|Hne]; [by rewrite lookup_insert_eq|].
      rewrite lookup_insert_ne by done. by apply Hafter.
  - enough (wp (ageOut_tick order) env tick (introducer c)
      (λ _ _ s', server_ok (trusted c0) s' ∧ same_server (introducer c) s')) as H.
    { rewrite wp_run in H. destruct H as [? [? ?]]. split; try done. split; cbn [introducer]; congruence. }
    by apply (wp_ageOut_tick_names (trusted c0)).
  - assert (state (serve_request selfStatus order method got q) env tick (introducer c) = introducer c) as Hsame.
    { enough (wp (serve_request selfStatus order method got q) env tick (introducer c)
        (λ _ _ s', s' = introducer c)) as H by by rewrite wp_run in H.
      by apply wp_stranger; [rewrite Ho|..]. }
    by split; cbn [introducer members]; rewrite ?Hsame.
Qed.

(** C38: only those who hold the secret are in the cluster. Start an introducer
    with a secret and nodes nobody has heard from, and let every loop turn in any
    order, requests and answers be lost, and anyone else send any request without
    the secret: the introducer knows, and holds a status of, none but nodes
    configured with its secret; every member knows, and shows, none but those and
    the introducer; and a node with another secret is exactly as it began. *)
Theorem only_holders_of_the_secret (c0 c : Cluster S) :
  SharedSecret (fs_opts (introducer c0)) ≠ "" → fresh c0 → rtc cluster_step c0 c →
  (∀ id, is_Some (peers (registry (introducer c)) !! id) ∨ is_Some (statuses (introducer c) !! id) →
     trusted c0 id) ∧
  (∀ name nd id, members c !! name = Some nd →
     is_Some (peers (cl_registry (nd_client nd)) !! id) ∨
     (∃ p, StatusSinkOf (nd_client nd) = Some p ∧ is_Some (owned p !! id)) →
     trusted c0 id ∨ id = id_ID (self (registry (introducer c0)))) ∧
  (∀ name nd0, members c0 !! name = Some nd0 → ¬ holder c0 nd0 → members c !! name = Some nd0).
Proof.
  intros Hs Hf Hr.
  assert (since c0 c) as [[Hp Hst] _ Hb Ha].
  { eapply rtc_invariant; [|exact Hr|by apply since_fresh]. intros. by eapply since_step. }
  split_and!.
  - intros id [[x Hx]|[x Hx]]; [apply (Hp _ _ Hx)|apply (Hst _ _ Hx)].
  - intros name nd id Hnd. destruct (Hb _ _ Hnd) as (nd0 & _ & _ & _ & [Hreg Hsink] & _).
    intros [[x Hx]|(p & E & x & Hx)]; [apply (Hreg _ _ Hx)|]. rewrite E in Hsink. apply (Hsink _ _ Hx).
  - intros name nd0 Hnd0 Hh. destruct (Ha name) as [nd Hnd]; [by exists nd0|].
    destruct (Hb _ _ Hnd) as (nd0' & Hnd0' & _ & _ & _ & Hout). simplify_eq. by rewrite Hout in Hnd.
Qed.

End ClusterProperties.

(** A node as the process builds it has heard from nobody. *)
Lemma built_node_fresh {S : Type} (me : Identity) (ro : RegistryOptions) (url secret : string) (timeout : Duration)
  (s : S) (r : Registry) (cl : Client S) :
  NewRegistry me ro = Some r → NewClient url secret r timeout (Some (mkPeerSink s ∅)) = inl cl →
  introduced cl = false ∧ peers (cl_registry cl) = ∅ ∧ ∀ p, StatusSinkOf cl = Some p → owned p = ∅.
Proof.
  unfold NewRegistry, NewClient. intros Hr Hc. destruct (_ =s "") in Hr; [done|]. injection Hr as <-.
  destruct (blank url); [done|]. destruct (_ && _); [done|]. injection Hc as <-. cbn.
  split_and!; try done. by intros p [= <-].
Qed.

(** The cadences are positive, as [time.NewTicker] requires. *)
Lemma client_intervals_positive a h r :
  let '(a', h', r') := client_intervals a h r in 0 < a' ∧ 0 < h' ∧ 0 < r'.
Proof.
  unfold client_intervals. destruct (Z.leb_spec a 0), (Z.leb_spec h 0), (Z.leb_spec r 0);
    change Second with 1000000000 in *; lia.
Qed.

(** ** Examples *)

Definition ex_node (id secret : string) : Node Server :=
  mkNode (mkClient {| ex_registry with self := mkIdentity id "svc" "h" "./state" 19101 RoleFollower 2 0 |} 0 false
    (Some ex_sink) (45 * Second)) secret.
Definition ex_joined (id secret : string) : Node Server :=
  {| (ex_node id secret) with nd_client := {| (nd_client (ex_node id secret)) with introduced := true |} |}.
Definition ex_cluster : Cluster Server :=
  mkCluster (ex_fed "s3cret") {["a" := ex_node "a" "s3cret"; "b" := ex_node "b" "other"]}.
Definition ex_delivery (f : fate) : delivery := mkDelivery f None ["a"; "b"] ["a"; "b"] ["a"; "b"].

Definition ex_after : Cluster Server :=
  let l := state (node_turn Announce (ex_delivery Answered)) (frozen 7 "") 0
    (introducer ex_cluster, ex_node "a" "s3cret") in
  mkCluster l.1 (<["a" := l.2]> (members ex_cluster)).

Lemma ex_cluster_fresh : fresh ex_cluster.
Proof.
  split; [done|]. split; [done|]. unfold ex_cluster. cbn [members].
  apply map_Forall_insert_2; [|apply map_Forall_singleton]; (split; [done|]; split; [done|]);
    by intros p [= <-].
Qed.

Lemma only_holders_of_the_secret_witness :
  is_Some (peers (registry (introducer ex_after)) !! "a") ∧
  (∀ id, is_Some (peers (registry (introducer ex_after)) !! id) ∨ is_Some (statuses (introducer ex_after) !! id) →
     trusted ex_cluster id) ∧
  members ex_after !! "b" = Some (ex_node "b" "other").
Proof.
  split; [vm_compute; eexists; reflexivity|].
  destruct (only_holders_of_the_secret ex_cluster ex_after) as (H1 & _ & H3).
  - discriminate.
  - exact ex_cluster_fresh.
  - apply rtc_once. unfold ex_after.
    exact (step_turn "a" (ex_node "a" "s3cret") Announce (ex_delivery Answered) (frozen 7 "") 0 ex_cluster eq_refl).
  - split; [exact H1|]. apply H3; [reflexivity|discriminate].
Defined.

Lemma plain_no_parts id now0 : has_byte "/" id = false → clean_name (peer_prefix id) →
  plain_peer id (ex_status [] [] now0).
Proof.
  intros Hs Hc. split; [done|]. intros now timeout. unfold render_entries.
  destruct (is_stale _ _ _); cbn; repeat constructor; apply Hc.
Qed.


(** A secret with outer blanks, the same at both ends, keeps every follower out:
    [net/http] trims the header, the introducer compares with the secret as
    configured. *)
Example padded_secret_never_joins :
  state (announce_turn (ex_delivery Answered)) (frozen 7 "") 0 (ex_fed "s3cret ", ex_node "a" "s3cret ")
  = (ex_fed "s3cret ", ex_node "a" "s3cret ").
Proof. vm_compute. reflexivity. Qed.

(** The introducer notes itself as the introducer of who announces itself; the
    next heartbeat carries the follower's own record, whose introducer is itself. *)
Example heartbeat_renames_the_introducer :
  let l1 := state (announce_turn (ex_delivery Answered)) (frozen 7 "") 0 (ex_fed "s3cret", ex_node "a" "s3cret") in
  let l2 := state (heartbeat_turn (ex_delivery Answered)) (frozen 9 "") 0 l1 in
  Introducer <$> peers (registry l1.1) !! "a" = Some "me" ∧
  Introducer <$> peers (registry l2.1) !! "a" = Some "a".
Proof. vm_compute. split; reflexivity. Qed.
