(* ===== verification/Ui.v ===== *)
(** * The terminal dashboard ([internal/ui/ui.go])

    The dashboard is a model that messages update and that is drawn from scratch;
    Bubble Tea runs the commands an update returns and feeds their messages back,
    in any order. It reads the monitor through the interface [SnapshotProvider].
    Lipgloss' styles are the parameter [paint]. [ToLower] is that of ASCII. *)

From Stdlib Require Import ZArith NArith Lia Ascii.
From stdpp Require Import base tactics strings gmap sorting relations.
From stdpp Require Import list.
From S2P Require Import Prelude Durations Targets Status Engine.

Open Scope Z_scope.

(** ** [fmt], [unicode/utf8], [time.Duration] *)

Definition byte_in (lo hi : N) (b : N) : bool := (N.leb lo b && N.leb b hi)%N.

(** The length of the rune a list of bytes begins with; an invalid one is one
    byte long. *)
Definition rune_size (bs : list N) : nat :=
  let cont := byte_in 128 191 in
  match bs with
  | b0 :: b1 :: b2 :: b3 :: _ =>
      if byte_in 194 223 b0 && cont b1 then 2
      else if byte_in 224 239 b0 && byte_in (if (b0 =? 224)%N then 160 else 128) (if (b0 =? 237)%N then 159 else 191) b1
              && cont b2 then 3
      else if byte_in 240 244 b0 && byte_in (if (b0 =? 240)%N then 144 else 128) (if (b0 =? 244)%N then 143 else 191) b1
              && cont b2 && cont b3 then 4
      else 1
  | _ => 1
  end%nat.

Fixpoint rune_count (fuel : nat) (bs : list N) : nat :=
  match fuel, bs with
  | S fuel, _ :: _ => S (rune_count fuel (drop (rune_size (bs ++ [0; 0; 0]%N)) bs))
  | _, _ => O
  end.

Definition bytes_of (s : string) : list N := map N_of_ascii (String.list_ascii_of_string s).

Definition RuneCountInString (s : string) : nat := rune_count (String.length s) (bytes_of s).

Fixpoint spaces (n : nat) : string := match n with O => "" | S n => String " " (spaces n) end.

(** [%-ws] *)
Definition left_pad (w : nat) (s : string) : string := s +:+ spaces (w - RuneCountInString s).

(** The nearest [float64] to the positive fraction [num/den]: mantissa and
    exponent. *)
Definition to_float64 (num den : Z) : Z * Z :=
  let e := Z.log2 num - Z.log2 den - 52 in
  let scaled e := if 0 <=? e then (num, den * 2 ^ e) else (num * 2 ^ (- e), den) in
  let e := if (scaled e).1 <? 2 ^ 52 * (scaled e).2 then e - 1 else e in
  let '(n, d) := scaled e in
  let q := n / d in
  let r := 2 * (n mod d) in
  ((if (d <? r) || ((d =? r) && Z.odd q) then q + 1 else q), e).

(** [int(d.Hours())] and the like for a non-negative [d]: the whole units and the
    rest as a fraction are added in floating point. *)
Definition whole_units (d unit : Duration) : Z :=
  let whole := d / unit in
  let rest := d mod unit in
  if rest =? 0 then whole
  else
    let '(m, e) := to_float64 rest unit in
    let '(m, e) := to_float64 (whole * 2 ^ (- e) + m) (2 ^ (- e)) in
    if 0 <=? e then m * 2 ^ e else m / 2 ^ (- e).

(** [t.Format("15:04:05")] *)
Definition clock_time (t : Time) : string :=
  let s := (t / Second) mod 86400 in
  pad 2 (s / 3600) +:+ ":" +:+ pad 2 (s / 60 mod 60) +:+ ":" +:+ pad 2 (s mod 60).

Definition newline : string := byte_of 10.

Example RuneCountInString_ex :
  map RuneCountInString ["abc"; "é…"; "➤ a"; byte_of 226 +:+ byte_of 128] = [3; 2; 3; 2]%nat.
Proof. vm_compute. reflexivity. Qed.

(** The sum rounds up where a [float64] is too coarse for the nanoseconds. *)
Example whole_units_ex :
  whole_units (59 * Second + 999999999) Second = 59 ∧
  whole_units (2 * 3600 * Second - 1) (3600 * Second) = 1 ∧
  whole_units (20001 * 3600 * Second - 1) (3600 * Second) = 20001.
Proof. vm_compute. auto. Qed.

(** ** Helpers *)

Definition fallback (v d : string) : string := if blank v then d else v.

Definition truncate (s : string) (n : Z) : string :=
  if n <=? 0 then ""
  else if Z.of_nat (String.length s) <=? n then s
  else if n <=? 1 then stake (Z.to_nat n) s
  else stake (Z.to_nat (n - 1)) s +:+ "…".

Definition prettyAgo (t now : Time) : string :=
  if IsZero t then "never"
  else
    let d := TimeSub now t in
    let d := if d <? 0 then 0 else d in
    if d <? Second then "just now"
    else if d <? 60 * Second then Itoa (whole_units d Second) +:+ "s ago"
    else if d <? 3600 * Second then Itoa (whole_units d (60 * Second)) +:+ "m ago"
    else Itoa (whole_units d (3600 * Second)) +:+ "h ago".

Definition maxInt (a b : Z) : Z := if a >? b then a else b.

Definition inferTransportFromEndpoint (endpoint : string) : string :=
  let ep := ToLower (TrimSpace endpoint) in
  if ep =s "" then "unknown"
  else if HasPrefix ep "stdio://" then "stdio"
  else if HasPrefix ep "wss://" || HasPrefix ep "ws://" then "websocket"
  else if HasPrefix ep "https://" || HasPrefix ep "http://" then
    if Contains ep "transport=sse" || Contains ep "accept=text/event-stream" || Contains ep "text/event-stream"
       || Contains ep "/sse" || Contains ep "/stream" || Contains ep "/events" then "sse"
    else "http"
  else "other".

(** ** Data *)

Class SnapshotProvider (P : Type) := {
  SnapshotStatuses : P → list TargetRuntimeStatus;
  SnapshotEvents : P → list AlertEvent;
  IsReady : P → bool;
}.
#[global] Instance EngineProvider : SnapshotProvider Engine := {|
  SnapshotStatuses := Engine.SnapshotStatuses;
  SnapshotEvents := Engine.SnapshotEvents;
  IsReady := Engine.IsReady;
|}.

Record Options := mkOptions {
  RefreshInterval : Duration;
  HeaderTitle : string;
  MaxEvents : Z;
  ShowHelp : bool;
  DemoMode : bool;
}.

Inductive style :=
  titleStyle | subtleStyle | healthyStyle | degradedStyle | unhealthyStyle | outageStyle | regressStyle
  | selectedStyle | borderStyle.

Record Dashboard := mkDashboard {
  db_opts : Options;
  width : Z;
  height : Z;
  selected : Z;
  showEvents : bool;
  quitting : bool;
  lastRefresh : Time;
  db_statuses : list TargetRuntimeStatus;
  db_events : list AlertEvent;
  db_ready : bool;
  errText : string;
}.

Record loadMsg := mkLoad {
  ld_at : Time;
  ld_ready : bool;
  ld_statuses : list TargetRuntimeStatus;
  ld_events : list AlertEvent;
  ld_err : option string;
}.

Inductive msg :=
  | WindowSizeMsg (w h : Z)
  | TickMsg
  | LoadMsg (l : loadMsg)
  | KeyMsg (key : string)
  | OtherMsg.

(** What Bubble Tea is asked to run. *)
Inductive cmd := loadCmd | tickCmd | Quit.

(** ** Operations *)

Definition NewDashboard (o : Options) : Dashboard :=
  let o := {| o with RefreshInterval := if RefreshInterval o <=? 0 then Second else RefreshInterval o |} in
  let o := {| o with HeaderTitle := if HeaderTitle o =s "" then "OCD Smoke Alarm" else HeaderTitle o |} in
  let o := {| o with MaxEvents := if MaxEvents o <=? 0 then 8 else MaxEvents o |} in
  mkDashboard o 0 0 0 true false 0 [] [] false "".

Definition Init : list cmd := [loadCmd; tickCmd].

Definition Update (m : msg) (d : Dashboard) : Dashboard * list cmd :=
  match m with
  | WindowSizeMsg w h => ({| d with width := w; height := h |}, [])
  | TickMsg => (d, [loadCmd; tickCmd])
  | LoadMsg l =>
      let d := {| d with lastRefresh := ld_at l; db_ready := ld_ready l; errText := "" |} in
      match ld_err l with
      | Some e => ({| d with errText := e |}, [])
      | None =>
          let n := Z.of_nat (length (ld_statuses l)) in
          let d := {| d with db_statuses := ld_statuses l; db_events := ld_events l |} in
          (if selected d >=? n then {| d with selected := Z.max 0 (n - 1) |} else d, [])
      end
  | KeyMsg key =>
      if mem key ["q"; "ctrl+c"; "esc"] then ({| d with quitting := true |}, [Quit])
      else if mem key ["up"; "k"] then
        (if selected d >? 0 then {| d with selected := selected d - 1 |} else d, [])
      else if mem key ["down"; "j"] then
        (if selected d <? Z.of_nat (length (db_statuses d)) - 1 then {| d with selected := selected d + 1 |} else d, [])
      else if key =s "tab" then ({| d with showEvents := negb (showEvents d) |}, [])
      else (d, [])
  | OtherMsg => (d, [])
  end.

(** Regressions and outages first, then by target. *)
Definition urgent (st : TargetRuntimeStatus) : bool :=
  rs_Regression st || (rs_State st =s "regression") || (rs_State st =s "outage").
Definition row_le (a b : TargetRuntimeStatus) : Prop :=
  if urgent a then (if urgent b then String.le (rs_TargetID a) (rs_TargetID b) else True)
  else (if urgent b then False else String.le (rs_TargetID a) (rs_TargetID b)).
#[global] Instance row_le_dec : RelDecision row_le.
Proof. intros a b. unfold row_le. destruct (urgent a), (urgent b); apply _. Defined.
#[global] Instance row_le_trans : Transitive row_le.
Proof.
  intros a b c. unfold row_le. destruct (urgent a), (urgent b), (urgent c); try done; apply (transitivity (R := String.le)).
Qed.
#[global] Instance row_le_total : Total row_le.
Proof.
  intros a b. unfold row_le. destruct (urgent a), (urgent b); try (by left); try (by right); apply (total String.le).
Qed.

Section Load.
Context {P : Type} {SP : SnapshotProvider P}.

(** [p1], [p2] and [p3] are the provider when its statuses, its events and its
    readiness are read; [sort] is [sort.Slice] by the order above. *)
Definition load (sort : list TargetRuntimeStatus → list TargetRuntimeStatus) (o : Options) (now : Time)
  (provider : option (P * P * P)) : loadMsg :=
  match provider with
  | None => mkLoad now false [] [] (Some "dashboard provider is nil")
  | Some (p1, p2, p3) =>
      let statuses := SnapshotStatuses p1 in
      let events := SnapshotEvents p2 in
      let ready := IsReady p3 in
      let statuses := sort statuses in
      let maxE := MaxEvents o in
      let events := if (maxE >? 0) && (Z.of_nat (length events) >? maxE)
                    then drop (length events - Z.to_nat maxE) events else events in
      mkLoad now ready statuses events None
  end.
End Load.

(** ** Drawing *)

(** [strings.ToLower(strings.TrimSpace(s))] *)
Definition plain (s : string) : string := ToLower (TrimSpace s).

Definition styleForState (s : string) : style :=
  let state := plain s in
  if state =s "healthy" then healthyStyle
  else if state =s "degraded" then degradedStyle
  else if mem state ["unhealthy"; "failed"] then unhealthyStyle
  else if state =s "outage" then outageStyle
  else if state =s "regression" then regressStyle
  else subtleStyle.

Definition renderCountMap (m : gmap string nat) : string :=
  match map_to_list m with
  | [] => "none"
  | _ => Join (map (λ k, k +:+ "=" +:+ Itoa (Z.of_nat (default 0%nat (m !! k)))) (sort_strings (map_to_list m).*1)) ", "
  end.

(** [m[k]++] *)
Definition bump {K} `{Countable K} (k : K) (m : gmap K nat) : gmap K nat := <[k := S (default 0%nat (m !! k))]> m.

(** Where a target stands: its protocol, transport and state. *)
Definition or_unknown (s : string) : string := if s =s "" then "unknown" else s.
Definition cell (st : TargetRuntimeStatus) : string * string * string :=
  (or_unknown (plain (rs_Protocol st)), inferTransportFromEndpoint (rs_Endpoint st), or_unknown (plain (rs_State st))).

Record topology := mkTopology {
  tp_counts : gmap (string * string * string) nat;
  tp_protocols : gmap string nat;
  tp_transports : gmap string nat;
}.
Definition count_cell (t : topology) (st : TargetRuntimeStatus) : topology :=
  let c := cell st in
  mkTopology (bump c (tp_counts t)) (bump c.1.1 (tp_protocols t)) (bump c.1.2 (tp_transports t)).
Definition count_cells (sts : list TargetRuntimeStatus) : topology := foldl count_cell (mkTopology ∅ ∅ ∅) sts.

(** The states of one protocol over one transport. *)
Definition stateCounts (t : topology) (p tr : string) : gmap string nat :=
  list_to_map (map (λ e : string * string * string * nat, (e.1.2, e.2))
    (filter (λ e : string * string * string * nat, e.1.1.1 = p ∧ e.1.1.2 = tr ∧ (0 < e.2)%nat) (map_to_list (tp_counts t)))).

(** The lines of the pane that list something, with what they list. *)
Definition topology_rows (t : topology) : list (string * string * gmap string nat) :=
  let protocols := sort_strings (map_to_list (tp_protocols t)).*1 in
  let transports := sort_strings (map_to_list (tp_transports t)).*1 in
  p ← protocols;
  tr ← transports;
  let m := stateCounts t p tr in
  if decide (m = ∅) then [] else [(p, tr, m)].

Record demo_counts := mkDemo {
  dm_healthy : nat; dm_degraded : nat; dm_unhealthy : nat; dm_outage : nat; dm_regression : nat; dm_unknown : nat;
}.
Definition demo_count (d : demo_counts) (st : TargetRuntimeStatus) : demo_counts :=
  let state := plain (rs_State st) in
  if state =s "healthy" then {| d with dm_healthy := S (dm_healthy d) |}
  else if state =s "degraded" then {| d with dm_degraded := S (dm_degraded d) |}
  else if mem state ["unhealthy"; "failed"] then {| d with dm_unhealthy := S (dm_unhealthy d) |}
  else if state =s "outage" then {| d with dm_outage := S (dm_outage d) |}
  else if state =s "regression" then {| d with dm_regression := S (dm_regression d) |}
  else {| d with dm_unknown := S (dm_unknown d) |}.
Definition demo_summary (sts : list TargetRuntimeStatus) : demo_counts := foldl demo_count (mkDemo 0 0 0 0 0 0) sts.

Section Drawing.
Context (paint : style → string → string).

Definition renderSelectedDetails (st : TargetRuntimeStatus) : string :=
  let lines :=
    ["selected: " +:+ rs_TargetID st;
     "name: " +:+ fallback (rs_Name st) "-";
     "endpoint: " +:+ fallback (rs_Endpoint st) "-";
     "protocol: " +:+ rs_Protocol st +:+ "  state: " +:+ rs_State st +:+ "  severity: " +:+ rs_Severity st;
     "last checked: " +:+ RFC3339 (rs_LastCheckedAt st) +:+ "  ever healthy: " +:+ format_bool (rs_EverHealthy st)
       +:+ "  regression: " +:+ format_bool (rs_Regression st)] in
  let lines := if negb (rs_Message st =s "") then lines ++ ["message: " +:+ rs_Message st] else lines in
  Join lines newline.

Definition status_row (d : Dashboard) (i : Z) (st : TargetRuntimeStatus) : string :=
  let msg := if rs_Message st =s "" then "-" else rs_Message st in
  let msg := truncate msg (maxInt 20 (width d - 70)) in
  let row := left_pad 22 (truncate (rs_TargetID st) 22) +:+ "  " +:+ left_pad 10 (rs_State st) +:+ " "
    +:+ left_pad 8 (rs_Severity st) +:+ " " +:+ left_pad 8 (Itoa (rs_ConsecutiveFailures st)) +:+ "  "
    +:+ left_pad 7 (Itoa (Z.quot (rs_Latency st) 1000000)) +:+ "  " +:+ msg in
  let row := paint (styleForState (rs_State st)) row in
  (if i =? selected d then paint selectedStyle ("➤ " +:+ row) else "  " +:+ row) +:+ newline.

(** [None]: the selection is not in the list, and indexing it panics. *)
Definition renderStatusTable (d : Dashboard) : option string :=
  let head := "TARGET                  STATE       SEV       FAILURES  LAT(ms)  MESSAGE" +:+ newline
    +:+ "----------------------------------------------------------------------" +:+ newline in
  let rows := String.concat "" (imap (λ i, status_row d (Z.of_nat i)) (db_statuses d)) in
  match db_statuses d with
  | [] => Some (head +:+ rows)
  | _ =>
      if selected d <? 0 then None
      else
        st ← db_statuses d !! Z.to_nat (selected d);
        Some (head +:+ rows +:+ newline +:+ renderSelectedDetails st)
  end.

Definition event_row (d : Dashboard) (e : AlertEvent) : string :=
  let line := clock_time (al_CheckedAt e) +:+ "  " +:+ left_pad 20 (truncate (al_TargetID e) 20) +:+ " "
    +:+ left_pad 11 (al_State e) +:+ " " +:+ left_pad 8 (al_Severity e) +:+ " "
    +:+ truncate (al_Message e) (maxInt 24 (width d - 64)) in
  paint (styleForState (al_State e)) line +:+ newline.

Definition renderEvents (d : Dashboard) : string :=
  let head := "RECENT EVENTS" +:+ newline +:+ "-------------" +:+ newline in
  match db_events d with
  | [] => head +:+ paint subtleStyle "No events yet." +:+ newline
  | es => head +:+ String.concat "" (map (event_row d) es)
  end.

Definition topology_line (r : string * string * gmap string nat) : string :=
  let '(p, tr, m) := r in
  "- " +:+ p +:+ " -> " +:+ tr +:+ " -> "
    +:+ Join (map (λ s, s +:+ "=" +:+ Itoa (Z.of_nat (default 0%nat (m !! s)))) (sort_strings (map_to_list m).*1)) ", "
    +:+ newline.

Definition renderTopologyPane (d : Dashboard) : string :=
  let t := count_cells (db_statuses d) in
  "TOPOLOGY & RELATIONSHIPS" +:+ newline +:+ "------------------------" +:+ newline
    +:+ "protocols:  " +:+ renderCountMap (tp_protocols t) +:+ newline
    +:+ "transports: " +:+ renderCountMap (tp_transports t) +:+ newline
    +:+ newline +:+ "protocol -> transport -> state" +:+ newline
    +:+ String.concat "" (map topology_line (topology_rows t))
    +:+ match db_statuses d with [] => paint subtleStyle "No relationship data yet." +:+ newline | _ => "" end.

Definition renderDemoStateMachine (d : Dashboard) : string :=
  let c := demo_summary (db_statuses d) in
  let n (k : nat) := Itoa (Z.of_nat k) in
  Join
    ["DEMO MODE: STATE MACHINE"; "------------------------";
     "healthy=" +:+ n (dm_healthy c) +:+ "  degraded=" +:+ n (dm_degraded c) +:+ "  unhealthy=" +:+ n (dm_unhealthy c)
       +:+ "  outage=" +:+ n (dm_outage c) +:+ "  regression=" +:+ n (dm_regression c) +:+ "  unknown=" +:+ n (dm_unknown c);
     ""; "          [DISCOVERED]"; "               |"; "               v"; "          [VALIDATING]";
     "          /    |    \"; "         v     v     v"; "   [HEALTHY] [DEGRADED] [UNHEALTHY]";
     "        |         |         |"; "        |         |         v"; "        |         |      [OUTAGE]";
     "        |         |         |"; "        \---------+---------/"; "                  v";
     "             [REGRESSION]"; ""; "Legend: transitions are driven by safety checks + handshake outcomes"]
    newline.

(** [None] when drawing panics; [now] is the time it is drawn at. *)
Definition View (now : Time) (d : Dashboard) : option string :=
  if quitting d then Some ("shutting down..." +:+ newline)
  else
    let header := HeaderTitle (db_opts d) +:+ "  ready=" +:+ format_bool (db_ready d) +:+ "  targets="
      +:+ Itoa (Z.of_nat (length (db_statuses d))) +:+ "  updated=" +:+ prettyAgo (lastRefresh d) now in
    let b := paint titleStyle header +:+ newline in
    let b := if negb (errText d =s "") then b +:+ paint outageStyle ("error: " +:+ errText d) +:+ newline +:+ newline else b in
    match db_statuses d with
    | [] => Some (b +:+ paint subtleStyle "No targets yet. Waiting for monitor data..." +:+ newline)
    | _ =>
        table ← renderStatusTable d;
        let b := b +:+ paint borderStyle table +:+ newline in
        let b := b +:+ newline +:+ paint borderStyle (renderTopologyPane d) in
        let b := if DemoMode (db_opts d) then b +:+ newline +:+ paint borderStyle (renderDemoStateMachine d) else b in
        let b := if showEvents d then b +:+ newline +:+ paint borderStyle (renderEvents d) else b in
        let b := if ShowHelp (db_opts d) then
            let help := "keys: ↑/k ↓/j select • tab toggle events • q quit" in
            let help := if DemoMode (db_opts d) then help +:+ " • demo-state-machine: enabled" else help in
            b +:+ newline +:+ paint subtleStyle help
          else b in
        Some (b +:+ newline)
    end.
End Drawing.

(** ** The program

    Bubble Tea's loop: a pending command may finish at any time and its message is
    handled; the terminal may send a key or a size. [Quit] ends the program. *)
Record Program := mkProgram { model : Dashboard; pending : list cmd; ended : bool }.

Definition handle (m : msg) (p : Program) : Program :=
  let '(d, cs) := Update m (model p) in {| p with model := d; pending := pending p ++ cs |}.

Definition from_terminal (m : msg) : Prop :=
  match m with KeyMsg _ | WindowSizeMsg _ _ | OtherMsg => True | _ => False end.

Definition start (o : Options) : Program := mkProgram (NewDashboard o) Init false.

Section Run.
Context {P : Type} {SP : SnapshotProvider P} (sort : list TargetRuntimeStatus → list TargetRuntimeStatus).

Inductive ui_step (p : Program) : Program → Prop :=
  | ui_load l1 l2 now provider :
      ended p = false → pending p = l1 ++ loadCmd :: l2 →
      ui_step p (handle (LoadMsg (load sort (db_opts (model p)) now provider)) {| p with pending := l1 ++ l2 |})
  | ui_tick l1 l2 :
      ended p = false → pending p = l1 ++ tickCmd :: l2 →
      ui_step p (handle TickMsg {| p with pending := l1 ++ l2 |})
  | ui_quit l1 l2 :
      ended p = false → pending p = l1 ++ Quit :: l2 →
      ui_step p {| p with pending := l1 ++ l2; ended := true |}
  | ui_input m :
      ended p = false → from_terminal m → ui_step p (handle m p).
End Run.

(** ** Facts: the cursor and the refresh loop *)

#[global] Instance cmd_eq_dec : EqDecision cmd.
Proof. solve_decision. Defined.

Definition cursor_ok (d : Dashboard) : Prop :=
  0 <= selected d ∧ (selected d < Z.of_nat (length (db_statuses d)) ∨ (db_statuses d = [] ∧ selected d = 0)).

Lemma Update_cursor m d : cursor_ok d → cursor_ok (Update m d).1.
Proof.
  unfold cursor_ok. intros [H0 H1]. destruct m as [w h| |[at_ rdy sts evs [e|]]|key|]; cbn; try done.
  - destruct (selected d >=? _) eqn:E; cbn; rewrite Z.geb_leb in E; go_bools; [|lia].
    destruct sts as [|st sts]; [split; [lia|by right]|]. cbn [length]. lia.
  - repeat case_match; cbn; rewrite ?Z.gtb_ltb in *; go_bools; try done; lia.
Qed.

Lemma Update_opts m d : db_opts (Update m d).1 = db_opts d.
Proof. destruct m as [w h| |[at_ rdy sts evs [e|]]|key|]; cbn; try done; by repeat case_match. Qed.

(** What an update asks for. *)
Lemma Update_cmds m d :
  (Update m d).2 = match m with TickMsg => [loadCmd; tickCmd]
                   | KeyMsg key => if mem key ["q"; "ctrl+c"; "esc"] then [Quit] else [] | _ => [] end.
Proof. destruct m as [w h| |[at_ rdy sts evs [e|]]|key|]; cbn; try done; by repeat case_match. Qed.

Lemma Update_quitting m d :
  quitting (Update m d).1 = match m with KeyMsg key => mem key ["q"; "ctrl+c"; "esc"] || quitting d | _ => quitting d end.
Proof. destruct m as [w h| |[at_ rdy sts evs [e|]]|key|]; cbn [Update fst quitting]; try done; by repeat case_match. Qed.

Lemma View_draws paint now d : cursor_ok d → is_Some (View paint now d).
Proof.
  intros [H0 H1]. unfold View. destruct (quitting d); [by eexists|]. cbv zeta.
  destruct (db_statuses d) as [|st sts] eqn:E; [by eexists|]. unfold renderStatusTable. rewrite E.
  rewrite (proj2 (Z.ltb_ge _ _) H0). destruct H1 as [H1|[H1 _]]; [|done].
  destruct (lookup_lt_is_Some_2 (st :: sts) (Z.to_nat (selected d))) as [x Hx]; [lia|].
  rewrite Hx. by eexists.
Qed.

Record program_ok (p : Program) : Prop := {
  po_cursor : cursor_ok (model p);
  po_events : 0 < MaxEvents (db_opts (model p));
  po_tick : ended p = false → count_occ cmd_eq_dec (pending p) tickCmd = 1%nat;
  po_quit : quitting (model p) = true ↔ ended p = true ∨ Quit ∈ pending p;
}.

Lemma start_ok o : program_ok (start o).
Proof.
  split; cbn.
  - split; cbn; [done|by right].
  - destruct (Z.leb_spec (MaxEvents o) 0); cbn; lia.
  - done.
  - split; [done|]. intros [?|Hin]; [done|]. repeat (apply elem_of_cons in Hin as [?|Hin]; [done|]). by apply elem_of_nil in Hin.
Qed.

Lemma handle_ok m p l :
  cursor_ok (model p) → 0 < MaxEvents (db_opts (model p)) → ended p = false →
  (quitting (model p) = true ↔ Quit ∈ l) →
  (count_occ cmd_eq_dec l tickCmd + match m with TickMsg => 1 | _ => 0 end = 1)%nat →
  program_ok (handle m {| p with pending := l |}).
Proof.
  intros Hc He Hr Hq Ht. unfold handle. cbn [model pending ended].
  pose proof (Update_cursor m (model p) Hc) as H1. pose proof (Update_opts m (model p)) as H2.
  pose proof (Update_cmds m (model p)) as H3. pose proof (Update_quitting m (model p)) as H4.
  destruct (Update m (model p)) as [d cs]. cbn [fst snd] in *. subst cs. split; cbn [model pending ended].
  - done.
  - by rewrite H2.
  - intros _. rewrite count_occ_app. destruct m; try destruct (mem _ _); cbn; cbn in Ht; lia.
  - rewrite H4, Hr, elem_of_app. destruct m as [| | |key|]; try destruct (mem key _); cbn [orb];
      rewrite ?Hq; set_solver.
Qed.

Lemma ui_step_ok {P} `{SP : !SnapshotProvider P} sort p p' : program_ok p → ui_step (P := P) sort p p' → program_ok p'.
Proof.
  intros [Hc He Ht Hq] Hstep.
  destruct Hstep as [l1 l2 now pr Hr Hp|l1 l2 Hr Hp|l1 l2 Hr Hp|m Hr Hm]; specialize (Ht Hr); rewrite Hr in Hq.
  - rewrite Hp, count_occ_app in Ht. rewrite Hp in Hq. apply handle_ok; try done; [|rewrite count_occ_app; cbn in *; lia].
    rewrite Hq. set_solver.
  - rewrite Hp, count_occ_app in Ht. rewrite Hp in Hq. apply handle_ok; try done; [|rewrite count_occ_app; cbn in *; lia].
    rewrite Hq. set_solver.
  - split; cbn [model pending ended]; try done. rewrite Hq, Hp. set_solver.
  - destruct p as [d l e]. cbn in *. apply (handle_ok m (mkProgram d l e) l); cbn; try done.
    + rewrite Hq. set_solver.
    + destruct m; try done; lia.
Qed.

(** ** Facts: counting *)

Lemma bump_lookup {K} `{Countable K} (k k' : K) m :
  default 0%nat (bump k m !! k') = (default 0%nat (m !! k') + if decide (k = k') then 1 else 0)%nat.
Proof.
  unfold bump. destruct (decide (k = k')) as [->|Hne]; [rewrite lookup_insert_eq; cbn; lia|].
  rewrite lookup_insert_ne by done. lia.
Qed.

Lemma bump_positive {K} `{Countable K} (k : K) (m : gmap K nat) :
  map_Forall (λ _ n, (0 < n)%nat) m → map_Forall (λ _ n, (0 < n)%nat) (bump k m).
Proof. intros Hm. apply map_Forall_insert_2; [lia|done]. Qed.

(** The counts are those of the list. *)
Lemma count_cells_spec sts :
  let t := count_cells sts in
  (∀ c, default 0%nat (tp_counts t !! c) = length (filter (λ st, cell st = c) sts)) ∧
  map_Forall (λ _ n, (0 < n)%nat) (tp_counts t) ∧
  (∀ st, st ∈ sts → is_Some (tp_protocols t !! (cell st).1.1) ∧ is_Some (tp_transports t !! (cell st).1.2)).
Proof.
  cbv zeta. unfold count_cells. induction sts as [|st sts IH] using rev_ind.
  { split_and!; [done|apply map_Forall_empty|]. intros st H. by apply elem_of_nil in H. }
  rewrite foldl_app. cbn [foldl]. destruct (foldl _ _ sts) as [c p t]. destruct IH as (H1 & H2 & H3).
  unfold count_cell. cbn [tp_counts tp_protocols tp_transports] in *. split_and!.
  - intros x. rewrite bump_lookup, filter_app, length_app, H1. cbn. by destruct (decide (cell st = x)).
  - by apply bump_positive.
  - intros x [Hx|Hx%list_elem_of_singleton]%elem_of_app; [destruct (H3 _ Hx)|subst x]; unfold bump.
    + split; apply lookup_insert_is_Some'; auto.
    + by rewrite !lookup_insert_eq.
Qed.

Lemma stateCounts_lookup t p tr s n :
  map_Forall (λ _ n, (0 < n)%nat) (tp_counts t) →
  stateCounts t p tr !! s = Some n ↔ tp_counts t !! (p, tr, s) = Some n.
Proof.
  intros Hpos. unfold stateCounts. set (l := filter _ _).
  assert (∀ e, e ∈ l ↔ tp_counts t !! e.1 = Some e.2 ∧ e.1.1.1 = p ∧ e.1.1.2 = tr) as Hl.
  { intros [[[p' tr'] s'] k]. subst l. rewrite list_elem_of_filter, elem_of_map_to_list. cbn.
    split; [tauto|]. intros (H & -> & ->). split_and!; try done. apply (Hpos _ _ H). }
  rewrite <- elem_of_list_to_map.
  - rewrite list_elem_of_fmap. split.
    + intros ([[[p' tr'] s'] k] & [= -> ->] & Hin). apply Hl in Hin as (H & Hp & Ht). cbn in *. by subst.
    + intros H. exists (p, tr, s, n). split; [done|]. by apply Hl.
  - rewrite <- list_fmap_compose. apply NoDup_fmap_2_strong.
    + intros [[[p1 t1] s1] k1] [[[p2 t2] s2] k2] H1 H2 [= ->]. apply Hl in H1 as (H1 & ? & ?), H2 as (H2 & ? & ?).
      cbn in *. by simplify_eq.
    + apply NoDup_filter, NoDup_map_to_list.
Qed.

Lemma sorted_keys (m : gmap string nat) k : k ∈ sort_strings (map_to_list m).*1 ↔ is_Some (m !! k).
Proof.
  rewrite sort_strings_perm, list_elem_of_fmap. split.
  - intros ([k' n] & -> & H%elem_of_map_to_list). by exists n.
  - intros [n H%elem_of_map_to_list]. by exists (k, n).
Qed.

Lemma sorted_keys_NoDup (m : gmap string nat) : NoDup (sort_strings (map_to_list m).*1).
Proof. rewrite sort_strings_perm. apply NoDup_fst_map_to_list. Qed.

(** ** Properties *)


(** A load shows the monitor as it was read. The rows are exactly the
    provider's statuses, regressions and outages before all others and each group
    in the order of its targets, so a target in trouble, if there is one, is on the
    first row; the events are the newest ones, at most [MaxEvents] of them, and an
    earlier error is gone. *)
Theorem load_shows {P} `{SP : !SnapshotProvider P} (sort : list TargetRuntimeStatus → list TargetRuntimeStatus)
  `{Hsort : !SliceSort row_le sort} (now : Time) (p1 p2 p3 : P) (d : Dashboard) :
  0 < MaxEvents (db_opts d) →
  let d' := (Update (LoadMsg (load sort (db_opts d) now (Some (p1, p2, p3)))) d).1 in
  db_statuses d' ≡ₚ SnapshotStatuses p1 ∧ StronglySorted row_le (db_statuses d') ∧
  (∀ st, st ∈ SnapshotStatuses p1 → urgent st = true → ∃ st', head (db_statuses d') = Some st' ∧ urgent st' = true) ∧
  (∃ older, SnapshotEvents p2 = older ++ db_events d' ∧
     (older = [] ∨ Z.of_nat (length (db_events d')) = MaxEvents (db_opts d))) ∧
  Z.of_nat (length (db_events d')) <= MaxEvents (db_opts d) ∧
  db_ready d' = IsReady p3 ∧ errText d' = "" ∧ lastRefresh d' = now.
Proof.
  intros Hmax. cbv zeta. unfold load. cbn [Update ld_err ld_statuses ld_events ld_ready ld_at].
  set (evs := if _ && _ then _ else _). set (sts := sort (SnapshotStatuses p1)).
  assert (sts ≡ₚ SnapshotStatuses p1 ∧ StronglySorted row_le sts) as [Hp Hs]
    by (subst sts; split; [apply slice_sort_perm|apply slice_sort_sorted]).
  assert ((∃ older, SnapshotEvents p2 = older ++ evs ∧ (older = [] ∨ Z.of_nat (length evs) = MaxEvents (db_opts d))) ∧
    Z.of_nat (length evs) <= MaxEvents (db_opts d)) as [He1 He2].
  { subst evs. rewrite Z.gtb_ltb, (proj2 (Z.ltb_lt _ _) Hmax), Z.gtb_ltb. cbn [andb].
    destruct (Z.ltb_spec (MaxEvents (db_opts d)) (Z.of_nat (length (SnapshotEvents p2)))).
    - rewrite length_drop. split; [|lia]. eexists. rewrite take_drop. split; [done|right; lia].
    - split; [|lia]. exists []. split; [done|by left]. }
  assert (∀ st, st ∈ SnapshotStatuses p1 → urgent st = true → ∃ st', head sts = Some st' ∧ urgent st' = true) as Hu.
  { intros st Hin Hst. rewrite <- Hp in Hin. destruct Hs as [|x l _ Hx]; [by apply elem_of_nil in Hin|].
    exists x. split; [done|]. apply elem_of_cons in Hin as [->|Hin]; [done|].
    rewrite Forall_forall in Hx. specialize (Hx _ Hin). unfold row_le in Hx. rewrite Hst in Hx.
    by destruct (urgent x). }
  clearbody evs sts. destruct (_ >=? _); cbn; auto 10.
Qed.

(** The topology pane counts every target once. Its lines are distinct pairs
    of a protocol and a transport, each number is that of the targets with this
    protocol, transport and state, and every target is counted on a line. *)
Theorem topology_counts (sts : list TargetRuntimeStatus) :
  let rows := topology_rows (count_cells sts) in
  (∀ p tr m s n, (p, tr, m) ∈ rows → m !! s = Some n →
     n = length (filter (λ st, cell st = (p, tr, s)) sts) ∧ (0 < n)%nat) ∧
  (∀ st, st ∈ sts → ∃ m, ((cell st).1.1, (cell st).1.2, m) ∈ rows ∧ is_Some (m !! (cell st).2)) ∧
  (∀ p tr m m', (p, tr, m) ∈ rows → (p, tr, m') ∈ rows → m = m').
Proof.
  cbv zeta. destruct (count_cells_spec sts) as (Hn & Hpos & Hdom). set (t := count_cells sts) in *.
  assert (∀ p tr m, (p, tr, m) ∈ topology_rows t ↔
    is_Some (tp_protocols t !! p) ∧ is_Some (tp_transports t !! tr) ∧ m = stateCounts t p tr ∧ m ≠ ∅) as Hrows.
  { intros p tr m. unfold topology_rows. rewrite list_elem_of_bind. setoid_rewrite list_elem_of_bind.
    setoid_rewrite sorted_keys. split.
    - intros (p' & (tr' & Hin & Htr) & Hp). destruct (decide _); [by apply elem_of_nil in Hin|].
      apply list_elem_of_singleton in Hin. by simplify_eq.
    - intros (Hp & Htr & -> & Hne). exists p. split; [|done]. exists tr. split; [|done].
      rewrite decide_False by done. by left. }
  split_and!.
  - intros p tr m s n (_ & _ & -> & _)%Hrows Hs%(stateCounts_lookup _ _ _ _ _ Hpos).
    specialize (Hn (p, tr, s)). rewrite Hs in Hn. cbn in Hn. split; [done|]. apply (Hpos _ _ Hs).
  - intros st Hst. destruct (Hdom _ Hst) as [Hp Htr].
    assert (is_Some (stateCounts t (cell st).1.1 (cell st).1.2 !! (cell st).2)) as Hsome.
    { assert (0 < default 0%nat (tp_counts t !! cell st))%nat as Hc.
      { rewrite Hn. destruct (filter _ sts) as [|x l] eqn:E; [|cbn; lia]. exfalso.
        apply (not_elem_of_nil st). rewrite <- E. by apply list_elem_of_filter. }
      destruct (tp_counts t !! cell st) as [n|] eqn:E; [|cbn in Hc; lia]. exists n.
      apply stateCounts_lookup; [done|]. by destruct (cell st) as [[? ?] ?]. }
    eexists. split; [|exact Hsome]. apply Hrows. split_and!; try done.
    intros E. rewrite E in Hsome. by destruct Hsome as [? ?].
  - intros p tr m m' (_ & _ & -> & _)%Hrows (_ & _ & -> & _)%Hrows. done.
Qed.

(** The demo pane counts every target once. *)
Lemma demo_total sts :
  let c := demo_summary sts in
  (dm_healthy c + dm_degraded c + dm_unhealthy c + dm_outage c + dm_regression c + dm_unknown c = length sts)%nat.
Proof.
  cbv zeta. unfold demo_summary. induction sts as [|st sts IH] using rev_ind; [done|].
  rewrite foldl_app, length_app. cbn [foldl length]. destruct (foldl demo_count _ sts) as [a b c d e f].
  unfold demo_count. cbn in IH. repeat case_match; cbn; lia.
Qed.

(** What is cut is no longer than the two bytes the ellipsis has more than the
    byte it stands for. *)
Lemma truncate_bounds s n :
  0 < n → Z.of_nat (String.length (truncate s n)) <= n + 2 ∧ (Z.of_nat (String.length s) <= n → truncate s n = s).
Proof.
  intros Hn. assert (∀ k s, (String.length (stake k s) ≤ k)%nat) as Hstake.
  { induction k as [|k IH]; intros [|c r]; cbn; try lia. specialize (IH r). lia. }
  unfold truncate. rewrite (proj2 (Z.leb_gt _ _) Hn).
  destruct (Z.leb_spec (Z.of_nat (String.length s)) n); [split; [lia|done]|]. split; [|lia].
  destruct (Z.leb_spec n 1).
  - specialize (Hstake (Z.to_nat n) s). lia.
  - rewrite slength_app. specialize (Hstake (Z.to_nat (n - 1)) s). cbn. lia.
Qed.

(** ** Examples *)

Definition ex_row (id state : string) (regression : bool) : TargetRuntimeStatus :=
  mkRuntimeStatus id id ("https://" +:+ id +:+ "/sse") "mcp" state "info" "" "" 5 (3 * 1000000) 200 0 true regression.
Definition ex_event (id : string) : AlertEvent := mkAlert id id "outage" "critical" false "down" "network" 5.

#[local] Instance ListProvider : SnapshotProvider (list TargetRuntimeStatus * list AlertEvent) := {|
  SnapshotStatuses p := p.1;
  SnapshotEvents p := p.2;
  IsReady p := bool_decide (p.1 ≠ []);
|}.
Definition ex_view : list TargetRuntimeStatus * list AlertEvent :=
  ([ex_row "a" "healthy" false; ex_row "b" "healthy" false], [ex_event "a"; ex_event "b"]).
Definition ex_worse : list TargetRuntimeStatus * list AlertEvent :=
  ([ex_row "a" "healthy" false; ex_row "b" "outage" false], [ex_event "a"; ex_event "b"]).
Definition ex_opts : Options := mkOptions 0 "" 1 true true.

Definition ex_run : Program :=
  handle (LoadMsg (load (merge_sort row_le) (db_opts (NewDashboard ex_opts)) 7 (Some (ex_view, ex_view, ex_view))))
    {| (start ex_opts) with pending := [tickCmd] |}.


Lemma load_shows_witness :
  let d := NewDashboard ex_opts in
  let d' := (Update (LoadMsg (load (merge_sort row_le) (db_opts d) 7 (Some (ex_worse, ex_worse, ex_worse)))) d).1 in
  (∃ st', head (db_statuses d') = Some st' ∧ urgent st' = true) ∧ length (db_events d') = 1%nat.
Proof.
  cbv zeta.
  destruct (load_shows (merge_sort row_le) 7 ex_worse ex_worse ex_worse (NewDashboard ex_opts) ltac:(reflexivity))
    as (_ & _ & H & _).
  split; [|vm_compute; reflexivity]. apply (H (ex_row "b" "outage" false)); [|reflexivity]. right. left.
Defined.

(** The cursor keeps its row, not its target: when the order changes, another
    target is selected. *)
Example selection_keeps_its_row :
  let loaded p := (Update (LoadMsg (load (merge_sort row_le) ex_opts 7 (Some (p, p, p))))) in
  let d1 := (Update (KeyMsg "down") (loaded ex_view (NewDashboard ex_opts)).1).1 in
  let d2 := (loaded ex_worse d1).1 in
  rs_TargetID <$> db_statuses d1 !! Z.to_nat (selected d1) = Some "b" ∧
  rs_TargetID <$> db_statuses d2 !! Z.to_nat (selected d2) = Some "a".
Proof. vm_compute. split; reflexivity. Qed.

(** Text is cut at a byte, which may be inside a rune. *)
Example truncate_splits_a_rune :
  truncate "héhéhé" 6 = "héh" +:+ byte_of 195 +:+ "…".
Proof. vm_compute. reflexivity. Qed.

Example drawn :
  renderTopologyPane (λ _ s, s) (model ex_run) =
  "TOPOLOGY & RELATIONSHIPS" +:+ newline +:+ "------------------------" +:+ newline
    +:+ "protocols:  mcp=2" +:+ newline +:+ "transports: sse=2" +:+ newline +:+ newline
    +:+ "protocol -> transport -> state" +:+ newline +:+ "- mcp -> sse -> healthy=2" +:+ newline.
Proof. vm_compute. reflexivity. Qed.
