(* ===== verification/ServeMesh.v ===== *)
(** * Federation in the server process ([cmd/ocd-smoke-alarm/main.go])

    What [serve] makes of the parts of a federation: the slot, the registry and
    its observer, the health view, and by the role of the slot an introducer or a
    follower. The observer mirrors members into the health server's isotopes and
    withdraws the status of those who leave; the introducer's [OnStatus] renders
    what was reported. One operation runs at a time, its events are observed
    before its statuses, and [iter] is the order in which Go iterates the keys of
    a map. The errors of a handler's response are those of [Federation]. *)

From Stdlib Require Import ZArith Lia Ascii.
From stdpp Require Import base tactics strings gmap relations.
From stdpp Require Import list.
From S2P Require Import Prelude Durations Net Registry Slots Health Status Config Discovery Federation FedCluster.

Open Scope Z_scope.

Section Mesh.
Context (rung_thresholds : list (Z * string)) (iter : nat → list string → list string).

(** ** The observer of the registry *)

Abbreviation View := (PeerStatusSink Server).

(** [MirrorMember] on the health server. *)
Definition mirror_member (me : InstanceRecord) (ev : Event) : M Server unit :=
  if (ev_Type ev =s EventAdded) || (ev_Type ev =s EventUpdated) then
    if negb (SameCluster me (ev_Record ev)) then mret tt
    else if ID (ev_Record ev) =s "" then mret tt
    else
      now ← clock;
      match IsotopeForMember rung_thresholds (ev_Record ev) now with
      | Some rec => UpsertIsotope rec
      | None => mret tt
      end
  else if ev_Type ev =s EventRemoved then RemoveIsotope (ID (ev_Record ev))
  else mret tt.

(** A registry and the view its observer keeps. *)
Abbreviation Watched := (Registry * View)%type.
Definition on_reg {A} (m : M Registry A) : M Watched A := zoom fst (λ r w, (r, w.2)) m.
Definition on_view {A} (m : M View A) : M Watched A := zoom snd (λ v w, (w.1, v)) m.

Definition member_count (role : string) (n : nat) : string :=
  "role=" +:+ role +:+ " peers=" +:+ Itoa (Z.of_nat n).

(** [OnChange]; of the snapshot only the number of peers is used. *)
Definition on_change (role : string) (ev : Event) : M Watched unit :=
  _ ← (if ev_Type ev =s EventRemoved then on_view (Status.Remove (ID (ev_Record ev))) else mret tt);
  w ← get;
  _ ← on_view (on_sink (SetComponent "federation" true (member_count role (size (peers w.1)))));
  me ← on_reg Registry_Self;
  on_view (on_sink (mirror_member me ev)).

Fixpoint observe_all (role : string) (evs : list Event) : M Watched unit :=
  match evs with
  | [] => mret tt
  | ev :: evs => _ ← on_change role ev; observe_all role evs
  end.

(** A method of the registry with its observer. *)
Definition notifying {A} (role : string) (m : M Registry A) : M Watched A :=
  w ← get;
  a ← on_reg m;
  w' ← get;
  _ ← observe_all role (drop (length (notified w.1)) (notified w'.1));
  mret a.

(** ** The introducer *)

Record IntroducerNode := mkIntroducer { in_server : FedServer; in_view : View }.

Definition in_watched (n : IntroducerNode) : Watched := (registry (in_server n), in_view n).
Definition put_watched (w : Watched) (n : IntroducerNode) : IntroducerNode :=
  mkIntroducer {| (in_server n) with registry := w.1 |} w.2.

(** [OnStatus], for each time it is called. *)
Fixpoint on_status (timeout : Duration) (sets : list PeerStatuses) : M View unit :=
  match sets with
  | [] => mret tt
  | sts :: sets =>
      now ← clock;
      v ← get;
      t ← moment;
      _ ← ApplyAll sts now timeout (iter t (map_to_list (owned v)).*1) (iter (S t) (map_to_list sts).*1);
      on_status timeout sets
  end.

(** An operation of the introducer with its callbacks. *)
Definition introducing {A} (op : M FedServer A) : M IntroducerNode A :=
  n ← get;
  a ← zoom in_server (λ s n, mkIntroducer s (in_view n)) op;
  n' ← get;
  _ ← zoom in_watched put_watched
        (observe_all RoleIntroducer (drop (length (notified (registry (in_server n)))) (notified (registry (in_server n')))));
  _ ← zoom in_view (λ v n, mkIntroducer (in_server n) v)
        (on_status (Federation.PeerStatusTimeout (fs_opts (in_server n))) (drop (length (told (in_server n))) (told (in_server n'))));
  mret a.

(** ** The follower *)

(** [applyMembership] with the observer; the view is the client's sink. *)
Definition follow (role : string) (m : membershipResponse) (order order' : list string) : M (Client Server) unit :=
  _ ← modify (λ c, if lastVersion c <? m_Version m then {| c with lastVersion := m_Version m |} else c);
  c ← get;
  let upserts := _ ← Upsert (m_Self m) "membership"; Federation.upsert_all (m_Peers m) in
  _ ← (match StatusSinkOf c with
       | None => on_client_registry upserts
       | Some v =>
           zoom (λ c, (cl_registry c, default v (StatusSinkOf c)))
             (λ w c, {| c with cl_registry := w.1; StatusSinkOf := Some w.2 |}) (notifying role upserts)
       end);
  apply_statuses (m_Statuses m) order order'.

(** ** Setting up *)

Inductive mesh_role :=
  | Introducing (s : FedServer)
  | Following (c : Client Server).

Inductive setup_error :=
  | ErrClaim (e : slot_error)
  | ErrNewRegistry
  | ErrNewServer
  | ErrNewClient (e : client_error).

Definition registry_options (cfg : Config) : RegistryOptions :=
  let fd := cfg_Federation cfg in
  mkRegistryOptions (run_StateDir (cfg_Runtime cfg)) (mustDuration (fd_AnnounceInterval fd) (10 * Second))
    (mustDuration (fd_HeartbeatTimeout fd) (45 * Second)) 0 true (fd_ClusterID fd).

Definition ListenerFederation : string := "federation".

(** The instance's own isotope. *)
Definition own_isotope (me : InstanceRecord) : M Server unit :=
  if ID me =s "" then mret tt
  else
    now ← clock;
    match IsotopeForMember rung_thresholds me now with
    | Some rec => UpsertIsotope rec
    | None => mret tt
    end.

(** What the health server is told of the slot. *)
Definition announce_slot (cfg : Config) (r : Registry) (me : InstanceRecord) : M Server unit :=
  let fd := cfg_Federation cfg in
  _ ← (if negb (fd_ClusterID fd =s "") then own_isotope me else mret tt);
  _ ← SetListener ListenerFederation (JoinHostPort (fd_BindAddr fd) (Itoa (id_Port (self r))));
  SetComponent "federation" true (member_count (id_Role (self r)) 0).

(** The introducer or the follower, by the role of the slot; [addr] is the
    listener's address. *)
Definition start_role (cfg : Config) (r : Registry) (addr : string) (hs : option Server) : mesh_role + setup_error :=
  let fd := cfg_Federation cfg in
  let statusTimeout := mustDuration (fd_HeartbeatTimeout fd) (45 * Second) in
  if id_Role (self r) =s RoleIntroducer then
    match NewFedServer (mkFedOptions 0 (fd_SharedSecret fd) statusTimeout (bool_decide (is_Some hs))) addr r with
    | None => inr ErrNewServer
    | Some s => inl (Introducing s)
    end
  else
    let url := if fd_Introducer fd =s "" then "http://localhost:" +:+ Itoa (fd_BasePort fd) else fd_Introducer fd in
    match NewClient url (fd_SharedSecret fd) r statusTimeout ((λ s, mkPeerSink s ∅) <$> hs) with
    | inr e => inr (ErrNewClient e)
    | inl c => inl (Following c)
    end.

(** [registry.Self()], the rest of the state apart. *)
Definition record_of {S} (r : Registry) : M S InstanceRecord := λ env tick s,
  let '(me, tick, _) := Registry_Self env tick r in (me, tick, s).

(** [serve] closes the slot when it returns, on an error at once. *)
Definition setup_federation (proc : Process) (cfg : Config) : M (OS * option Server) (mesh_role + setup_error) :=
  let fd := cfg_Federation cfg in
  w ← get;
  let '(claim, os) := ClaimSlot proc (mkSlotOptions (fd_BasePort fd) (fd_MaxPort fd)
    (run_StateDir (cfg_Runtime cfg)) (svc_Name (cfg_Service cfg)) (fd_BindAddr fd)) w.1 in
  _ ← modify (λ w, (os, w.2));
  match claim with
  | inr e => mret (inr (ErrClaim e))
  | inl (identity, addr) =>
      let close : M (OS * option Server) unit := modify (λ w, (SlotClaim_Close addr w.1, w.2)) in
      match NewRegistry identity (registry_options cfg) with
      | None => _ ← close; mret (inr ErrNewRegistry)
      | Some r =>
          _ ← (match w.2 with
               | None => mret tt
               | Some hs =>
                   me ← record_of r;
                   zoom (λ w, default hs w.2) (λ s w, (w.1, Some s)) (announce_slot cfg r me)
               end);
          w ← get;
          match start_role cfg r addr w.2 with
          | inr e => _ ← close; mret (inr e)
          | inl role => mret (inl role)
          end
      end
  end.

(** ** Facts: the observer *)

Definition in_cluster (r : Registry) (rec : InstanceRecord) : bool :=
  negb (opt_ClusterID (opts r) =s "") && (opt_ClusterID (opts r) =s ClusterID rec).

Definition removal (ev : Event) : bool := ev_Type ev =s EventRemoved.

(** What observing an event makes of the isotopes. *)
Definition mirrored (r : Registry) (ev : Event) (isos isos' : gmap string isotopeEntry) : Prop :=
  let id := ID (ev_Record ev) in
  if removal ev then isos' = delete id isos
  else if in_cluster r (ev_Record ev) then
    ∃ e, isos' = <[id := e]> isos ∧ iso_TrustRung (ent_record e) = MeshMemberRung ∧
      ent_expiresAt e = match isos !! id with Some e0 => ent_expiresAt e0 | None => zeroTime end
  else isos' = isos.

Lemma wp_UpsertIsotope rec env tick s (Q : unit → nat → Server → Prop) :
  blank (iso_Name rec) = false →
  (∀ t s' e, components s' = components s → isotopes s' = <[iso_Name rec := e]> (isotopes s) →
     iso_TrustRung (ent_record e) = iso_TrustRung rec →
     ent_expiresAt e = match isotopes s !! iso_Name rec with Some e0 => ent_expiresAt e0 | None => zeroTime end →
     Q tt t s') →
  wp (UpsertIsotope rec) env tick s Q.
Proof.
  intros Hb HQ. unfold UpsertIsotope. rewrite Hb. wp_go. destruct (isotopes s !! iso_Name rec) as [e|] eqn:E.
  all: eapply HQ; [done|cbn [isotopes]; reflexivity|done|by cbn].
Qed.

Lemma wp_mirror_member me r ev env tick s (Q : unit → nat → Server → Prop) :
  real_event ev → blank (ID (ev_Record ev)) = false → ClusterID me = opt_ClusterID (opts r) →
  (∀ t s', components s' = components s → mirrored r ev (isotopes s) (isotopes s') → Q tt t s') →
  wp (mirror_member me ev) env tick s Q.
Proof.
  intros Hev Hb Hme HQ. unfold mirror_member, mirrored, removal, in_cluster in *.
  assert (ID (ev_Record ev) ≠ "") as Hne by (intros E; by rewrite E in Hb).
  destruct (_ || _) eqn:Ht.
  - assert ((ev_Type ev =s EventRemoved) = false) as Hno by (destruct Hev as [E|[E|E]]; by rewrite E in *).
    rewrite Hno in HQ. unfold SameCluster. rewrite Hme.
    destruct (negb _ && _); cbn [negb]; wp_go; [|by apply HQ].
    rewrite (proj2 (streq_false _ _) Hne). wp_go. unfold IsotopeForMember. rewrite (proj2 (streq_false _ _) Hne).
    apply wp_UpsertIsotope; [done|]. intros t s' e Hc Hi Hr Hx. apply HQ; [done|]. by exists e.
  - assert ((ev_Type ev =s EventRemoved) = true) as Hyes by (destruct Hev as [E|[E|E]]; by rewrite E in *).
    rewrite Hyes in *. unfold RemoveIsotope. rewrite Hb. wp_go. by apply HQ.
Qed.

Lemma wp_on_reg {A} (m : M Registry A) env tick (w : Watched) Q :
  wp (on_reg m) env tick w Q = wp m env tick w.1 (λ a t r, Q a t (r, w.2)).
Proof. apply (wp_zoom (fst : Watched → Registry)). Qed.
Lemma wp_on_view {A} (m : M View A) env tick (w : Watched) Q :
  wp (on_view m) env tick w Q = wp m env tick w.2 (λ a t v, Q a t (w.1, v)).
Proof. apply (wp_zoom (snd : Watched → View)). Qed.

(** The operations of the sink leave the isotopes alone. *)
Lemma keeps_SetComponent name h d : keeps isotopes (SetComponent name h d).
Proof. unfold SetComponent. keeps_go. Qed.
Lemma keeps_set_all es : keeps isotopes (set_all (S := Server) es).
Proof.
  induction es as [|[[name h] d] es IH]; cbn [set_all]; [apply keeps_ret|].
  apply keeps_bind; [apply keeps_SetComponent|intros _; exact IH].
Qed.
Lemma keeps_remove_all names : keeps isotopes (remove_all (S := Server) names).
Proof.
  induction names as [|n names IH]; cbn [remove_all]; [apply keeps_ret|].
  apply keeps_bind; [by intros env tick s|intros _; exact IH].
Qed.
Lemma keeps_on_sink {A} (m : M Server A) : keeps isotopes m → keeps (λ v : View, isotopes (sink v)) (on_sink m).
Proof.
  intros Hm env tick v. specialize (Hm env tick (sink v)). unfold state, on_sink in *.
  by destruct (m env tick (sink v)) as [[? ?] ?].
Qed.
Lemma keeps_view_owned g : (∀ v : View, sink (g v) = sink v) → keeps (λ v : View, isotopes (sink v)) (modify g).
Proof. intros Hg env tick v. cbn. by rewrite Hg. Qed.
Lemma keeps_Remove id : keeps (λ v : View, isotopes (sink v)) (Status.Remove id).
Proof.
  unfold Status.Remove, withdraw. apply keeps_bind; [done|]. intros v. apply keeps_bind; [by apply keeps_view_owned|].
  intros _. destruct (owned v !! id); [apply keeps_on_sink, keeps_remove_all|apply keeps_ret].
Qed.
Lemma keeps_ApplyAll sts now timeout order order' :
  keeps (λ v : View, isotopes (sink v)) (ApplyAll sts now timeout order order').
Proof.
  unfold ApplyAll. apply keeps_bind; [done|]. intros v. cbv zeta. apply keeps_bind; [by apply keeps_view_owned|]. intros _.
  apply keeps_bind.
  - induction order as [|id order IH]; cbn [withdraw_absent]; [apply keeps_ret|].
    apply keeps_bind; [|intros _; exact IH].
    destruct (sts !! id); [apply keeps_ret|apply keeps_on_sink, keeps_remove_all].
  - intros _. induction order' as [|id order' IH]; cbn [render_all]; [apply keeps_ret|].
    apply keeps_bind; [|intros _; exact IH]. destruct (sts !! id) as [st|]; [|apply keeps_ret].
    unfold render. cbv zeta. apply keeps_bind; [apply keeps_on_sink, keeps_set_all|].
    intros _. by apply keeps_view_owned.
Qed.

(** What is shown of a peer under its own name was set for it, and is recorded as
    its own. *)
Definition accounted (v : View) : Prop :=
  ∀ id, has_byte "/" id = false → is_Some (view (sink v) !! peer_prefix id) →
  peer_prefix id ∈ default [] (owned v !! id).

Lemma peer_prefix_not_federation id : peer_prefix id ≠ "federation".
Proof. intros E. apply (f_equal String.length) in E. unfold peer_prefix, peerPrefix in E. rewrite !slength_app in E. cbn in E. lia. Qed.

Lemma wp_on_change role ev env tick (w : Watched) (Q : unit → nat → Watched → Prop) :
  real_event ev → blank (ID (ev_Record ev)) = false →
  (∀ t v', owned v' = (if removal ev then delete (ID (ev_Record ev)) (owned w.2) else owned w.2) →
     (∀ id, view (sink v') !! peer_prefix id =
        if removal ev && mem (peer_prefix id) (default [] (owned w.2 !! ID (ev_Record ev))) then None
        else view (sink w.2) !! peer_prefix id) →
     mirrored w.1 ev (isotopes (sink w.2)) (isotopes (sink v')) → Q tt t (w.1, v')) →
  wp (on_change role ev) env tick w Q.
Proof.
  intros Hev Hb HQ. unfold on_change. wp_go.
  assert (∀ t v1, owned v1 = (if removal ev then delete (ID (ev_Record ev)) (owned w.2) else owned w.2) →
    (∀ id, view (sink v1) !! peer_prefix id =
       if removal ev && mem (peer_prefix id) (default [] (owned w.2 !! ID (ev_Record ev))) then None
       else view (sink w.2) !! peer_prefix id) →
    isotopes (sink v1) = isotopes (sink w.2) →
    wp (_ ← on_view (on_sink (SetComponent "federation" true (member_count role (size (peers w.1)))));
        me ← on_reg Registry_Self; on_view (on_sink (mirror_member me ev))) env t (w.1, v1) Q) as Hrest.
  { intros t v1 Ho Hv Hi. wp_go. rewrite wp_on_view, wp_on_sink, wp_run. wp_go. rewrite wp_on_reg.
    unfold Registry_Self. wp_go. cbv zeta. wp_go. rewrite wp_on_view, wp_on_sink. cbn [fst snd sink].
    apply (wp_mirror_member _ w.1 ev); [done|done|done|]. intros t' s' Hc Hm. rewrite keeps_SetComponent, Hi in Hm.
    apply HQ; [done| |done]. intros id. cbn [sink view HealthSink]. rewrite Hc.
    change (c_Healthy <$> ?m) with (c_Healthy <$> m).
    pose proof (view_set "federation" true (member_count role (size (peers w.1))) env t (sink v1)
      ltac:(reflexivity) ltac:(done)) as Hset.
    cbn [view set_component HealthSink] in Hset. rewrite Hset, lookup_insert_ne; [apply Hv|].
    intros E. by apply (peer_prefix_not_federation id). }
  unfold removal in *. destruct (ev_Type ev =s EventRemoved).
  - rewrite wp_on_view, wp_run. pose proof (Remove_spec (S := Server) (ID (ev_Record ev)) env tick w.2) as [Hv Ho].
    pose proof (keeps_Remove (ID (ev_Record ev)) env tick w.2) as Hi.
    exact (Hrest (ticks (Status.Remove (ID (ev_Record ev))) env tick w.2) _ Ho (λ id, Hv (peer_prefix id)) Hi).
  - wp_go. destruct w as [r v]. apply (Hrest tick v); done.
Qed.

(** ** Facts: the statuses on the view *)

Lemma wp_withdraw_absent sts previous ids : ∀ env tick (v : View) (Q : unit → nat → View → Prop),
  (∀ t v', owned v' = owned v →
     (∀ n, is_Some (view (sink v') !! n) → is_Some (view (sink v) !! n) ∧
        ∀ id, id ∈ ids → sts !! id = None → n ∉ default [] (previous !! id)) → Q tt t v') →
  wp (withdraw_absent sts previous ids) env tick v Q.
Proof.
  induction ids as [|id ids IH]; intros env tick v Q HQ; cbn [withdraw_absent]; wp_go.
  { apply HQ; [done|]. intros n Hn. split; [done|]. intros id Hid. by apply elem_of_nil in Hid. }
  destruct (sts !! id) as [st|] eqn:E; wp_go.
  - apply IH. intros t v' Ho Hv. apply HQ; [done|]. intros n Hn. destruct (Hv n Hn) as [H1 H2].
    split; [done|]. intros x [->|Hx]%elem_of_cons; [congruence|by apply H2].
  - unfold withdraw. rewrite wp_on_sink. apply wp_remove_all. intros t s' Hs. apply IH. intros t' v' Ho Hv.
    cbn [owned sink] in *. apply HQ; [done|]. intros n Hn. destruct (Hv n Hn) as [H1 H2]. rewrite Hs in H1.
    destruct (mem n (default [] (previous !! id))) eqn:Em; [by destruct H1|]. split; [done|].
    intros x [->|Hx]%elem_of_cons; [|by apply H2]. intros _ Hin. apply mem_true in Hin. congruence.
Qed.

(** Rendering shows those it renders, and records their names. *)
Lemma wp_render_all_only sts now timeout ids : ∀ env tick (v : View),
  map_Forall plain_peer sts →
  wp (render_all sts now timeout ids) env tick v (λ _ _ v',
    (∀ id, owned v' !! id = match sts !! id with
       | Some st => if decide (id ∈ ids) then Some (map entry_name (render_entries id st now timeout)) else owned v !! id
       | None => owned v !! id end) ∧
    (∀ id, has_byte "/" id = false → is_Some (view (sink v') !! peer_prefix id) ↔
       is_Some (view (sink v) !! peer_prefix id) ∨ (id ∈ ids ∧ is_Some (sts !! id)))).
Proof.
  intros env tick v Hplain. revert tick v. induction ids as [|x ids IH]; intros tick v; cbn [render_all]; wp_go.
  { split; [intros id; by destruct (sts !! id)|]. intros id _. split; [by left|].
    intros [?|[Hin _]]; [done|by apply elem_of_nil in Hin]. }
  destruct (sts !! x) as [st|] eqn:E.
  - rewrite wp_run. eapply wp_mono; [apply IH|]. intros _ t v' [Ho Hv].
    destruct (render_spec x st now timeout env tick v) as (H1 & H2 & _ & H4); [apply (Hplain _ _ E)|].
    rewrite H2 in Ho. split.
    + intros id. rewrite Ho. destruct (decide (id = x)) as [->|Hne].
      * rewrite E, lookup_insert_eq. destruct (decide (x ∈ ids)), (decide (x ∈ x :: ids)); set_solver.
      * rewrite lookup_insert_ne by done. destruct (sts !! id); [|done].
        destruct (decide (id ∈ ids)), (decide (id ∈ x :: ids)); set_solver.
    + intros id Hid. rewrite Hv by done. destruct (decide (id = x)) as [->|Hne].
      * rewrite H1, E. split; [intros _; right; split; [by left|done]|intros _; by left].
      * rewrite H4, other_names by done. set_solver.
  - wp_go. eapply wp_mono; [apply IH|]. intros _ t v' [Ho Hv]. split.
    + intros id. rewrite Ho. destruct (sts !! id) eqn:E2; [|done].
      destruct (decide (id ∈ ids)), (decide (id ∈ x :: ids)); set_solver.
    + intros id Hid. rewrite Hv by done. split; [intros [?|[??]]; [by left|right; split; [by right|done]]|].
      intros [?|[[->|?]%elem_of_cons ?]]; [by left| |by right]. rewrite E in *. by destruct H.
Qed.

Lemma rollup_named id st now timeout : peer_prefix id ∈ map entry_name (render_entries id st now timeout).
Proof. unfold render_entries. cbv zeta. destruct (is_stale _ _ _); cbn; by left. Qed.

(** After the statuses were applied, exactly those who have one are shown. *)
Definition shows_exactly (sts : PeerStatuses) (v : View) : Prop :=
  accounted v ∧ (∀ id, is_Some (owned v !! id) → is_Some (sts !! id)) ∧
  ∀ id, has_byte "/" id = false → is_Some (view (sink v) !! peer_prefix id) ↔ is_Some (sts !! id).

Lemma wp_ApplyAll_exactly sts now timeout order order' env tick (v : View) :
  map_Forall plain_peer sts → accounted v →
  (∀ id, is_Some (owned v !! id) → id ∈ order) → (∀ id, is_Some (sts !! id) → id ∈ order') →
  wp (ApplyAll sts now timeout order order') env tick v (λ _ _ v', shows_exactly sts v').
Proof.
  intros Hplain Hacc Hord Hord'. unfold ApplyAll. wp_go. cbv zeta. wp_go. apply wp_withdraw_absent.
  cbn [owned sink]. intros t v1 Ho1 Hv1. eapply wp_mono; [by apply wp_render_all_only|]. intros _ t' v' [Ho Hv].
  assert (∀ id, has_byte "/" id = false → is_Some (view (sink v1) !! peer_prefix id) → is_Some (sts !! id)) as Hbefore.
  { intros id Hid Hs. destruct (Hv1 _ Hs) as [Hold Hgone]. specialize (Hacc id Hid Hold).
    destruct (sts !! id) as [st|] eqn:E; [done|]. exfalso. apply (Hgone id); [|done|done].
    apply Hord. destruct (owned v !! id); [done|by apply elem_of_nil in Hacc]. }
  assert (∀ id, has_byte "/" id = false → is_Some (view (sink v') !! peer_prefix id) ↔ is_Some (sts !! id)) as Hshown.
  { intros id Hid. rewrite Hv by done. split; [intros [?|[_ ?]]; [by apply Hbefore|done]|].
    intros Hs. right. split; [by apply Hord'|done]. }
  split_and!; [|intros id|exact Hshown].
  - intros id Hid Hs. apply Hshown in Hs; [|done]. rewrite Ho. destruct Hs as [st E]. rewrite E.
    rewrite decide_True by (apply Hord'; by rewrite E). apply rollup_named.
  - rewrite Ho, Ho1, lookup_empty. by destruct (sts !! id).
Qed.

(** ** Facts: the isotopes *)

(** The isotopes are the instance's own and its peers'; a peer of the cluster has
    one at the rung of the mesh; none expires. *)
Record isotopes_of (r : Registry) (m : gmap string InstanceRecord) (isos : gmap string isotopeEntry) : Prop := {
  io_known id : is_Some (isos !! id) → id = id_ID (self r) ∨ is_Some (m !! id);
  io_members id rec : m !! id = Some rec → in_cluster r rec = true →
    ∃ e, isos !! id = Some e ∧ iso_TrustRung (ent_record e) = MeshMemberRung;
  io_durable : map_Forall (λ _ e, ent_expiresAt e = zeroTime) isos;
}.

Lemma mirrored_isotopes r ev m isos isos' :
  real_event ev → isotopes_of r m isos → mirrored r ev isos isos' → isotopes_of r (apply_event m ev) isos'.
Proof.
  unfold mirrored, removal, apply_event. intros Hev [Hk Hm Hd] Hmir. set (id := ID (ev_Record ev)) in *.
  destruct (ev_Type ev =s EventRemoved).
  - subst isos'. split.
    + intros x [e Hx%lookup_delete_Some]. destruct Hx as [Hne Hx]. destruct (Hk x) as [?|?]; [by exists e|by left|].
      right. by rewrite lookup_delete_ne.
    + intros x rec [Hne Hx]%lookup_delete_Some Hc. destruct (Hm _ _ Hx Hc) as (e & He & Hr). exists e.
      by rewrite lookup_delete_ne.
    + by apply map_Forall_delete.
  - destruct (in_cluster r (ev_Record ev)) eqn:Hc.
    + destruct Hmir as (e & -> & Hr & Hx). split.
      * intros x [e' [[-> _]|[Hne Hx']]%lookup_insert_Some]; [right; by rewrite lookup_insert_eq|].
        destruct (Hk x) as [?|?]; [by exists e'|by left|right; by rewrite lookup_insert_ne].
      * intros x rec [[<- <-]|[Hne Hx']]%lookup_insert_Some Hcx; [exists e; by rewrite lookup_insert_eq|].
        destruct (Hm _ _ Hx' Hcx) as (e' & He' & Hr'). exists e'. by rewrite lookup_insert_ne.
      * apply map_Forall_insert_2; [|done]. rewrite Hx. destruct (isos !! id) as [e0|] eqn:E; [|done].
        apply (Hd _ _ E).
    + subst isos'. split; [| |done].
      * intros x Hx. destruct (Hk x Hx) as [?|?]; [by left|right].
        destruct (decide (x = id)) as [->|Hne]; [by rewrite lookup_insert_eq|by rewrite lookup_insert_ne].
      * intros x rec [[<- <-]|[Hne Hx']]%lookup_insert_Some Hcx; [congruence|by apply (Hm x rec)].
Qed.

(** Observing a run of events. *)
Lemma wp_observe_all role evs : ∀ env tick (w : Watched) m,
  Forall real_event evs → Forall (λ ev, blank (ID (ev_Record ev)) = false) evs →
  accounted w.2 → isotopes_of w.1 m (isotopes (sink w.2)) →
  wp (observe_all role evs) env tick w (λ _ _ w', w'.1 = w.1 ∧ accounted w'.2 ∧
    isotopes_of w.1 (foldl apply_event m evs) (isotopes (sink w'.2)) ∧
    (Forall (λ ev, removal ev = false) evs → owned w'.2 = owned w.2 ∧
       ∀ id, view (sink w'.2) !! peer_prefix id = view (sink w.2) !! peer_prefix id)).
Proof.
  induction evs as [|ev evs IH]; intros env tick [r v] m Hev Hb Hacc Hi; cbn [observe_all fst snd foldl] in *; wp_go; [done|].
  apply Forall_cons in Hev as [Hev Hevs], Hb as [Hb Hbs]. apply wp_on_change; [done|done|]. cbn [fst snd].
  intros t v1 Ho Hv Hm.
  assert (accounted v1) as Hacc1.
  { intros id Hid Hs. rewrite Hv in Hs. rewrite Ho. destruct (removal ev); cbn [andb] in Hs; [|by apply Hacc].
    destruct (mem _ _) eqn:Em; [by destruct Hs|]. specialize (Hacc id Hid Hs).
    destruct (decide (id = ID (ev_Record ev))) as [->|Hne].
    - apply mem_true in Hacc. congruence.
    - by rewrite lookup_delete_ne. }
  eapply wp_mono; [apply (IH env t (r, v1) (apply_event m ev)); try done; by eapply mirrored_isotopes|].
  cbn [fst snd]. intros _ t' w' (H1 & H2 & H3 & H4). split_and!; [done..|].
  intros [Hno Hnos]%Forall_cons. destruct (H4 Hnos) as [H5 H6]. rewrite Hno in *. cbn [andb] in Hv.
  split; [congruence|]. intros id. by rewrite H6, Hv.
Qed.

(** ** Facts: the introducer *)

Definition nameless (r : Registry) : Prop := map_Forall (λ id _, blank id = false) (peers r).

(** What an operation of the introducer leaves, and what it told. *)
Record effect (s : FedServer) (evs : list Event) (sets : list PeerStatuses) (s' : FedServer) : Prop := {
  ef_reg : delivers (registry s) evs (registry s');
  ef_ok : peers_ok (registry s');
  ef_names : nameless (registry s');
  ef_events : notified (registry s') = notified (registry s) ++ evs;
  ef_opts : fs_opts s' = fs_opts s;
  ef_sets : told s' = told s ++ sets;
  ef_told : (sets = [] ∧ statuses s' = statuses s ∧ Forall (λ ev, removal ev = false) evs) ∨ sets = [statuses s'];
  ef_ids : Forall (λ ev, blank (ID (ev_Record ev)) = false) evs;
}.

Lemma wp_Upsert_effect rec reason env tick r (Q : Event → nat → Registry → Prop) :
  peers_ok r → nameless r → OnChange (opts r) = true → blank (ID rec) = false →
  (∀ ev t r' evs, delivers r evs r' → peers_ok r' → nameless r' → notified r' = notified r ++ evs →
     Forall (λ ev, removal ev = false) evs → Forall (λ ev, blank (ID (ev_Record ev)) = false) evs → Q ev t r') →
  wp (Upsert rec reason) env tick r Q.
Proof.
  intros Hok Hn Ho Hb HQ. rewrite wp_Upsert. cbv zeta. set (b := bool_decide _).
  assert (∀ ev t, Q ev t r) as Hsame.
  { intros ev t. apply (HQ ev t r []); try done; [apply delivers_refl|by rewrite app_nil_r]. }
  destruct (addressable r (ID rec)) eqn:Ha; cbn [negb]; [|done].
  destruct (negb b && _) eqn:Hfull; [done|]. rewrite Ho. set (ev := mkEvent _ _ _ _ _).
  assert (real_event ev) as Hreal by (unfold ev, real_event; cbn; destruct b; auto).
  assert (removal ev = false) as Hrem by (unfold ev, removal; cbn; by destruct b).
  apply (HQ _ _ _ [ev]); cbn [peers notified].
  - pose proof (delivers_one r ev (apply_event (peers r) ev) eq_refl Hreal eq_refl) as [H1 H2 H3 H4 H5 H6].
    unfold apply_event in *. rewrite (proj2 (streq_false _ _)) in H3
      by (intros E; unfold removal in Hrem; by rewrite E, streq_refl in Hrem).
    by split.
  - split; cbn [peers opts self].
    + destruct Hok as [Hcap _]. rewrite map_size_insert. unfold b in Hfull.
      destruct (peers r !! ID rec) as [x|] eqn:E; cbn.
      * done.
      * rewrite bool_decide_eq_false_2 in Hfull by (by intros [? ?]). cbn in Hfull.
        rewrite Z.geb_leb in Hfull. go_bools. lia.
    + apply map_Forall_insert_2; [|apply Hok]. unfold addressable in Ha. go_bools. done.
  - unfold nameless. cbn [peers]. by apply map_Forall_insert_2.
  - done.
  - by constructor.
  - by constructor.
Qed.

(** The introducer as it is set up: it observes its registry and its statuses. *)
Record watched_server (s : FedServer) : Prop := {
  ws_ok : peers_ok (registry s);
  ws_names : nameless (registry s);
  ws_change : OnChange (opts (registry s)) = true;
  ws_status : OnStatus (fs_opts s) = true;
}.

Lemma effect_refl s : watched_server s → effect s [] [] s.
Proof. intros [? ? ? ?]. split; rewrite ?app_nil_r; auto using delivers_refl. Qed.

Lemma effect_registry s r' evs :
  watched_server s → delivers (registry s) evs r' → peers_ok r' → nameless r' →
  notified r' = notified (registry s) ++ evs → Forall (λ ev, removal ev = false) evs →
  Forall (λ ev, blank (ID (ev_Record ev)) = false) evs → effect s evs [] {| s with registry := r' |}.
Proof. intros ? ? ? ? ? ? ?. split; cbn [registry fs_opts told statuses]; rewrite ?app_nil_r; auto. Qed.

Lemma wp_respond_same selfStatus order env tick s (Q : fed_response → nat → FedServer → Prop) :
  (∀ r t, Q r t s) → wp (respond selfStatus order) env tick s Q.
Proof. intros HQ. apply wp_respond. intros. apply HQ. Qed.

(** Requests whose reports are of peers that can be shown. *)
Definition plain_request (q : request) : Prop :=
  match q with ReportStatus (Some rep) => plain_peer (InstanceID rep) (rep_Status rep) | _ => True end.

Lemma wp_serve_effect selfStatus order method got q env tick s (Q : fed_response → nat → FedServer → Prop) :
  watched_server s → plain_request q → map_Forall plain_peer (statuses s) →
  (∀ r t s' evs sets, effect s evs sets s' → map_Forall plain_peer (statuses s') → Q r t s') →
  wp (serve_request selfStatus order method got q) env tick s Q.
Proof.
  intros Hw Hplain Hst HQ.
  assert (∀ r t, Q r t s) as Hsame by (intros; by eapply HQ; [apply effect_refl|]).
  assert (∀ rec reason t, blank (ID rec) = false →
    wp (_ ← on_registry (Upsert rec reason); respond selfStatus order) env t s Q) as Hupsert.
  { intros rec reason t Hb. wp_go. rewrite wp_on_registry. apply wp_Upsert_effect; [apply Hw..|done|].
    intros ev t' r' evs ? ? ? ? ? ?. apply wp_respond_same. intros r t''. eapply HQ; [by apply effect_registry|done]. }
  destruct q as [[rec|]|[rec|]|[rep|]|]; cbn [serve_request plain_request] in *;
    unfold handleIntroduction, handleHeartbeat, handleReport, handleMembership; wp_go;
    (destruct (admit_request _ method got s) as [r|] eqn:Ha; wp_go; [done|]);
    try done; try (destruct (blank _) eqn:Hb; wp_go; [done|]).
  - rewrite wp_on_registry. unfold Registry_Self. wp_go. cbv zeta. wp_go. cbn [registry].
    specialize (Hupsert {| rec with Role := if Role rec =s "" then RoleFollower else Role rec;
      AnnouncedAt := env_clock env (1 + (1 + tick)); Introducer := id_ID (self (registry s)) |} "introduction"
      (1 + (1 + (1 + tick)))%nat Hb).
    revert Hupsert. wp_go. by destruct s.
  - specialize (Hupsert rec "heartbeat" tick Hb). revert Hupsert. by wp_go.
  - unfold notifyStatus. wp_go. cbn [fs_opts statuses]. rewrite (ws_status _ Hw).
    eapply (HQ _ _ _ [] [<[InstanceID rep := rep_Status rep]> (statuses s)]); cbn [statuses];
      [|by apply map_Forall_insert_2].
    destruct Hw. split; cbn [registry fs_opts told statuses peerStatuses]; rewrite ?app_nil_r; auto using delivers_refl.
  - by apply wp_respond_same.
Qed.

Lemma wp_sweep_effect order env tick s (Q : unit → nat → FedServer → Prop) :
  watched_server s → map_Forall plain_peer (statuses s) →
  (∀ t s' evs sets, effect s evs sets s' → map_Forall plain_peer (statuses s') → Q tt t s') →
  wp (ageOut_tick order) env tick s Q.
Proof.
  intros Hw Hst HQ. pose proof Hw as [Hok Hn Hc Ho]. unfold ageOut_tick. wp_go. rewrite wp_on_registry.
  pose proof (age_out_fold (env_clock env tick) (HeartbeatTimeout (opts (registry s))) (registry s) order Hok) as Hf.
  apply wp_AgeOut; [done| |].
  - intros _. cbn [map forgetStatuses]. wp_go.
    assert ({| s with registry := registry s |} = s) as -> by by destruct s.
    by eapply HQ; [apply effect_refl|].
  - intros evs r' _ Hd Hok' Ht Heq. destruct (foldl _ _ order) as [r1 evs1]. injection Heq as Hpeers ->.
    destruct Hf as (_ & _ & _ & Hp & He & _). unfold tells in Ht. rewrite Hc in Ht.
    assert (nameless r') as Hn'.
    { intros id rec. rewrite Hpeers, Hp. destruct (swept _ _ _ _ _); [done|]. apply Hn. }
    assert (Forall (λ ev, blank (ID (ev_Record ev)) = false) evs1) as Hids.
    { apply Forall_forall. intros ev Hin. destruct (He _ Hin) as (_ & _ & _ & Hrec). apply (Hn _ _ Hrec). }
    unfold forgetStatuses. destruct evs1 as [|ev evs1]; cbn [map].
    + wp_go. eapply HQ; [by apply effect_registry|done].
    + wp_go. unfold notifyStatus. wp_go. cbn [fs_opts statuses registry told peerStatuses]. rewrite Ho.
      set (sts := foldl _ _ _).
      eapply (HQ _ _ (ev :: evs1) [sts]); cbn [statuses].
      * split; cbn [registry fs_opts told statuses]; auto.
      * intros id st. subst sts. rewrite foldl_delete. destruct (mem _ _); [done|]. apply Hst.
Qed.

(** ** The process *)

(** A step of the introducer's process: a request, a sweep, or anything else that
    changes the health view but neither the isotopes nor the names of peers. *)
Inductive mesh_step (n : IntroducerNode) : IntroducerNode → Prop :=
  | mesh_request selfStatus order method got q env tick :
      plain_request q →
      mesh_step n (state (introducing (serve_request selfStatus order method got q)) env tick n)
  | mesh_sweep order env tick : mesh_step n (state (introducing (ageOut_tick order)) env tick n)
  | mesh_other s' :
      isotopes s' = isotopes (sink (in_view n)) →
      (∀ id, view s' !! peer_prefix id = view (sink (in_view n)) !! peer_prefix id) →
      mesh_step n (mkIntroducer (in_server n) (mkPeerSink s' (owned (in_view n)))).

(** Nothing was heard yet. *)
Record mesh_start (n : IntroducerNode) : Prop := {
  mt_peers : peers (registry (in_server n)) = ∅;
  mt_cap : 0 <= MaxPeers (opts (registry (in_server n)));
  mt_change : OnChange (opts (registry (in_server n))) = true;
  mt_status : OnStatus (fs_opts (in_server n)) = true;
  mt_statuses : statuses (in_server n) = ∅;
  mt_owned : owned (in_view n) = ∅;
  mt_view id : view (sink (in_view n)) !! peer_prefix id = None;
  mt_isotopes : isotopes_of (registry (in_server n)) ∅ (isotopes (sink (in_view n)));
}.

Record node_ok (n : IntroducerNode) : Prop := {
  no_watched : watched_server (in_server n);
  no_plain : map_Forall plain_peer (statuses (in_server n));
  no_shown : shows_exactly (statuses (in_server n)) (in_view n);
  no_isotopes : isotopes_of (registry (in_server n)) (peers (registry (in_server n))) (isotopes (sink (in_view n)));
}.

Lemma start_node_ok n : mesh_start n → node_ok n.
Proof.
  intros [Hp Hcap Hc Ho Hs Hown Hv Hi]. split.
  - split; [|unfold nameless; rewrite Hp; apply map_Forall_empty|done|done].
    split; rewrite Hp; [|apply map_Forall_empty]. rewrite map_size_empty. exact Hcap.
  - rewrite Hs. apply map_Forall_empty.
  - split_and!.
    + intros id _ Hid. rewrite Hv in Hid. by destruct Hid.
    + intros id. rewrite Hown, lookup_empty. by intros [? ?].
    + intros id _. rewrite Hv, Hs, lookup_empty. split; by intros [? ?].
  - by rewrite Hp.
Qed.

Lemma isotopes_of_same r r' m isos : self r' = self r → opts r' = opts r → isotopes_of r m isos → isotopes_of r' m isos.
Proof.
  intros Hs Ho [H1 H2 H3]. split; [by rewrite Hs| |done].
  intros id rec Hrec Hc. apply (H2 id rec Hrec). unfold in_cluster in *. by rewrite Ho in Hc.
Qed.

Section Observed.
Context (Hiter : ∀ t l, iter t l ≡ₚ l).

Lemma in_iter {A} t (m : gmap string A) id : is_Some (m !! id) → id ∈ iter t (map_to_list m).*1.
Proof. intros [x Hx]. rewrite Hiter, list_elem_of_fmap. exists (id, x). by rewrite elem_of_map_to_list. Qed.

Lemma introducing_ok {A} (op : M FedServer A) env tick n :
  node_ok n →
  (∀ Q : A → nat → FedServer → Prop, (∀ a t s' evs sets, effect (in_server n) evs sets s' →
     map_Forall plain_peer (statuses s') → Q a t s') → wp op env tick (in_server n) Q) →
  node_ok (state (introducing op) env tick n).
Proof.
  intros [Hw Hpl [Hacc [Hown Hshown]] Hi] Hop.
  enough (wp (introducing op) env tick n (λ _ _ n', node_ok n')) as H by by rewrite wp_run in H.
  unfold introducing. wp_go. rewrite wp_zoom. apply Hop. intros a t s' evs sets [Hd Hok Hn Hev Hopt Hset Htold Hids] Hpl'.
  wp_go. rewrite (wp_zoom in_watched put_watched). cbn [in_server in_view]. unfold in_watched at 1. cbn [in_server in_view].
  rewrite Hev, Hset, !drop_app_length.
  eapply wp_mono; [eapply (wp_observe_all RoleIntroducer evs env t (registry s', in_view n) (peers (registry (in_server n))))|].
  { exact (dl_real _ _ _ Hd). }
  { exact Hids. }
  { exact Hacc. }
  { cbn [fst snd]. eapply isotopes_of_same; [exact (dl_self _ _ _ Hd)|exact (dl_opts _ _ _ Hd)|exact Hi]. }
  cbn [fst snd]. intros _ t1 [r1 v1] (H1 & Hacc1 & Hi1 & Hsame). cbn [fst snd] in *. subst r1.
  rewrite <- (dl_peers _ _ _ Hd) in Hi1. wp_go. rewrite (wp_zoom in_view).
  assert (put_watched (registry s', v1) (mkIntroducer s' (in_view n)) = mkIntroducer s' v1) as -> by by destruct s'.
  cbn [in_view in_server].
  assert (watched_server s') as Hw'.
  { destruct Hw. split; [done|done|by rewrite (dl_opts _ _ _ Hd)|by rewrite Hopt]. }
  destruct Htold as [(-> & Hst & Hno)| ->]; cbn [on_status]; wp_go.
  - destruct (Hsame Hno) as [Ho1 Hv1]. split; cbn [in_server in_view]; try done. rewrite Hst. split_and!; [done|by rewrite Ho1|].
    intros id Hid. by rewrite Hv1, Hshown.
  - assert (∀ now tmo t2, wp (ApplyAll (statuses s') now tmo (iter t2 (map_to_list (owned v1)).*1)
        (iter (S t2) (map_to_list (statuses s')).*1)) env (S t2) v1
      (λ _ _ v', shows_exactly (statuses s') v' ∧ isotopes (sink v') = isotopes (sink v1))) as Happly.
    { intros now tmo t2. apply wp_run. split; [|apply keeps_ApplyAll].
      pose proof (wp_ApplyAll_exactly (statuses s') now tmo (iter t2 (map_to_list (owned v1)).*1)
        (iter (S t2) (map_to_list (statuses s')).*1) env (S t2) v1 Hpl' Hacc1 (in_iter t2 (owned v1))
        (in_iter (S t2) (statuses s'))) as H. by rewrite wp_run in H. }
    eapply wp_mono; [apply Happly|]. intros _ t3 v' [Hex Hiso]. wp_go. split; cbn [in_server in_view]; try done.
    by rewrite Hiso.
Qed.

Lemma mesh_step_ok n n' : node_ok n → mesh_step n n' → node_ok n'.
Proof.
  intros Hn [selfStatus order method got q env tick Hq|order env tick|s' Hiso Hview].
  - apply introducing_ok; [done|]. intros Q HQ. apply wp_serve_effect; [apply Hn|done|apply Hn|done].
  - apply introducing_ok; [done|]. intros Q HQ. apply wp_sweep_effect; [apply Hn..|]. intros t. apply HQ.
  - destruct Hn as [Hw Hp [Hacc [Hown Hs]] Hi]. split; cbn [in_server in_view sink owned]; try done; [|by rewrite Hiso].
    split_and!; [|done|].
    + intros id Hid Hid'. cbn [sink owned] in *. rewrite Hview in Hid'. by apply Hacc.
    + intros id Hid. cbn [sink]. rewrite Hview. by apply Hs.
Qed.

End Observed.

(** ** Facts: setting up *)

Lemma new_registry me cfg r : NewRegistry me (registry_options cfg) = Some r →
  self r = me ∧ peers r = ∅ ∧ 0 <= MaxPeers (opts r) ∧ OnChange (opts r) = true ∧
  opt_ClusterID (opts r) = fd_ClusterID (cfg_Federation cfg).
Proof. unfold NewRegistry, registry_options. destruct (_ =s ""); [done|]. intros [= <-]. cbn. split_and!; try done; lia. Qed.

Lemma wp_record_of {S} r env tick (s : S) (Q : InstanceRecord → nat → S → Prop) :
  (∀ me t, ID me = id_ID (self r) → Q me t s) → wp (record_of r) env tick s Q.
Proof. intros HQ. by apply HQ. Qed.

(** The health server after it was told of the slot: at most the own isotope is
    new, and no peer's name. *)
Lemma wp_announce_slot cfg r me env tick s (Q : unit → nat → Server → Prop) :
  ID me = id_ID (self r) → isotopes s = ∅ → (∀ id, view s !! peer_prefix id = None) →
  (∀ t s', isotopes_of r ∅ (isotopes s') → (∀ id, view s' !! peer_prefix id = None) → Q tt t s') →
  wp (announce_slot cfg r me) env tick s Q.
Proof.
  intros Hid Hi Hv HQ. unfold announce_slot. wp_go.
  assert (∀ s1 t, isotopes_of r ∅ (isotopes s1) → components s1 = components s →
    wp (SetListener ListenerFederation (JoinHostPort (fd_BindAddr (cfg_Federation cfg)) (Itoa (id_Port (self r))))) env t s1
      (λ _ t s, wp (SetComponent "federation" true (member_count (id_Role (self r)) 0)) env t s Q)) as Hrest.
  { intros s1 t Hi1 Hc1. unfold SetListener.
    assert (∀ s2 t2, isotopes s2 = isotopes s1 → components s2 = components s1 →
      wp (SetComponent "federation" true (member_count (id_Role (self r)) 0)) env t2 s2 Q) as Hset.
    { intros s2 t2 Hi2 Hc2. rewrite wp_run.
      pose proof (view_set "federation" true (member_count (id_Role (self r)) 0) env t2 s2 ltac:(reflexivity) ltac:(done)) as Hset.
      cbn [set_component HealthSink] in Hset. apply HQ; [by rewrite keeps_SetComponent, Hi2|]. intros id.
      rewrite Hset, lookup_insert_ne by (intros E; by apply (peer_prefix_not_federation id)).
      cbn [view HealthSink]. rewrite Hc2, Hc1. apply Hv. }
    destruct (_ || _); wp_go; by apply Hset. }
  assert (isotopes_of r ∅ (isotopes s)) as Hnone.
  { rewrite Hi. split; [intros id [? ?]|intros id rec Hx|apply map_Forall_empty]; done. }
  pose proof (λ t, Hrest s t Hnone eq_refl) as Hsame.
  destruct (negb (fd_ClusterID (cfg_Federation cfg) =s "")); [|wp_go; exact (Hsame tick)]. unfold own_isotope.
  destruct (ID me =s "") eqn:E; [wp_go; exact (Hsame tick)|wp_go]. unfold IsotopeForMember. rewrite E.
  destruct (blank (ID me)) eqn:Hb.
  { unfold UpsertIsotope. cbn [iso_Name]. rewrite Hb. wp_go. exact (Hsame _). }
  apply wp_UpsertIsotope; [exact Hb|]. cbn [iso_Name iso_TrustRung]. intros t s1 e Hc He _ Hx.
  wp_go. apply (Hrest s1); [|exact Hc]. rewrite He, Hi in *. rewrite lookup_empty in Hx. split.
  - intros id [x [[<- _]|[_ Hx']]%lookup_insert_Some]; [by left|done].
  - intros id rec Hx'. done.
  - by apply map_Forall_insert_2; [|apply map_Forall_empty].
Qed.

Lemma start_role_cases cfg r addr hs :
  match start_role cfg r addr hs with
  | inl (Introducing s) => id_Role (self r) = RoleIntroducer ∧ registry s = r ∧ statuses s = ∅ ∧
      OnStatus (fs_opts s) = bool_decide (is_Some hs) ∧ 0 < AgeOutInterval (fs_opts s) ∧
      SharedSecret (fs_opts s) = fd_SharedSecret (cfg_Federation cfg) ∧
      RequireSharedSecret addr (fd_SharedSecret (cfg_Federation cfg)) = true
  | inl (Following c) => id_Role (self r) ≠ RoleIntroducer ∧ cl_registry c = r ∧ introduced c = false
  | inr _ => True
  end.
Proof.
  unfold start_role. destruct (streq (id_Role (self r)) RoleIntroducer) eqn:E; go_bools.
  - unfold NewFedServer. cbn [AgeOutInterval SharedSecret]. destruct (RequireSharedSecret _ _) eqn:Hr; cbn [negb]; [|done].
    cbn. by split_and!.
  - unfold NewClient. set (url := if _ =s "" then _ else _). destruct (blank url); [done|]. destruct (_ && _); [done|]. done.
Qed.

(** What setting up leaves: [w] is the machine and the health server after it. *)
Definition setup_sound (os : OS) (hs : option Server) (r : mesh_role + setup_error) (w : OS * option Server) : Prop :=
  match r with
  | inr _ => bound w.1 = bound os
  | inl role =>
      ∃ addr, addr ∉ bound os ∧ bound w.1 = {[addr]} ∪ bound os ∧
      match role with
      | Introducing s =>
          (IsLoopbackAddr addr = false → blank (SharedSecret (fs_opts s)) = false) ∧ 0 < AgeOutInterval (fs_opts s) ∧
          ∀ h, hs = Some h → isotopes h = ∅ → (∀ id, view h !! peer_prefix id = None) →
            ∃ h', w.2 = Some h' ∧ mesh_start (mkIntroducer s (mkPeerSink h' ∅))
      | Following c => introduced c = false ∧ peers (cl_registry c) = ∅
      end
  end.

(** The role is started on what the health server shows by then. *)
Lemma start_role_sound cfg r me addr os os1 hs hs1 :
  NewRegistry me (registry_options cfg) = Some r → addr ∉ bound os → bound os1 = {[addr]} ∪ bound os →
  (hs1 = None ↔ hs = None) →
  (∀ h, hs = Some h → isotopes h = ∅ → (∀ id, view h !! peer_prefix id = None) →
     ∃ h', hs1 = Some h' ∧ isotopes_of r ∅ (isotopes h') ∧ (∀ id, view h' !! peer_prefix id = None)) →
  match start_role cfg r addr hs1 with
  | inl role => setup_sound os hs (inl role) (os1, hs1)
  | inr _ => True
  end.
Proof.
  intros Hr Hfree Hb Hnone Hh. destruct (new_registry _ _ _ Hr) as (_ & Hpeers & Hcap & Hch & _).
  pose proof (start_role_cases cfg r addr hs1) as Hrole. destruct (start_role cfg r addr hs1) as [[s|c]|e]; [..|done];
    exists addr; (split; [done|]); (split; [done|]).
  - destruct Hrole as (_ & Hreg & Hst & Hon & Hage & Hsec & Hreq). split_and!; [|done|].
    + intros Hl. unfold RequireSharedSecret in Hreq. rewrite Hl in Hreq. rewrite Hsec. by apply negb_true_iff in Hreq.
    + intros h E1 E2 E3. destruct (Hh h E1 E2 E3) as (h' & -> & Hio & Hv). exists h'. split; [done|].
      split; cbn [in_server in_view owned sink]; rewrite ?Hreg; done.
  - destruct Hrole as (_ & -> & Hi). done.
Qed.

(** C31: the federation starts closed. A set-up that fails holds no address
    it did not hold before. One that succeeds holds exactly one more, that of the
    slot; an introducer that other hosts can reach has a secret, sweeps, and,
    with a health server that shows no peer yet, starts as [mesh_start] requires; a
    follower starts with no peers and not introduced. *)
Theorem setup_federation_sound (proc : Slots.Process) (cfg : Config) (env : Env) (tick : nat) (os : OS) (hs : option Server) :
  let m := setup_federation proc cfg in
  setup_sound os hs (result m env tick (os, hs)) (state m env tick (os, hs)).
Proof.
  cbv zeta. enough (wp (setup_federation proc cfg) env tick (os, hs) (λ r _ w, setup_sound os hs r w)) as H
    by by rewrite wp_run in H.
  unfold setup_federation. wp_go. cbn [fst snd].
  match goal with |- context [ClaimSlot proc ?o os] =>
    pose proof (ClaimSlot_spec proc o os) as Hclaim; cbv zeta in Hclaim;
    destruct (ClaimSlot proc o os) as [[[me addr]|e] os1] end; cbn [fst snd].
  2: { wp_go. cbn. destruct e as [| |pid| | |]; try done; [by destruct Hclaim as (_ & _ & ->)|by destruct Hclaim as (_ & ? & _)]. }
  destruct Hclaim as (_ & _ & Hfree & Hb & _). unfold can_bind in Hfree. apply andb_true_iff in Hfree as [_ Hfree].
  apply negb_true_iff, bool_decide_eq_false in Hfree. wp_go. cbv zeta.
  assert (bound (SlotClaim_Close addr os1) = bound os) as Hclose by (cbn; rewrite Hb; set_solver).
  destruct (NewRegistry me (registry_options cfg)) as [r|] eqn:Er; wp_go; [|exact Hclose]. cbn [snd].
  destruct hs as [h|]; wp_go; cbn [snd].
  - apply wp_record_of. intros rec t0 Hrec. wp_go.
    rewrite (wp_zoom (λ w : OS * option Server, default h w.2)). cbn [default fst snd]. change (Datatypes.id h) with h.
    eapply (wp_mono _ _ _ _ _ (λ _ _ s', isotopes h = ∅ → (∀ id, view h !! peer_prefix id = None) →
      isotopes_of r ∅ (isotopes s') ∧ (∀ id, view s' !! peer_prefix id = None))).
    + apply wp_run. intros E1 E2.
      pose proof (wp_announce_slot cfg r rec env t0 h (λ _ _ s', isotopes_of r ∅ (isotopes s') ∧
        (∀ id, view s' !! peer_prefix id = None)) Hrec E1 E2 ltac:(done)) as H.
      by rewrite wp_run in H.
    + intros _ t h' Hh'. wp_go. cbn [snd].
      pose proof (start_role_sound cfg r me addr os os1 (Some h) (Some h') Er Hfree Hb ltac:(done)
        ltac:(intros ? [= <-] E1 E2; exists h'; split; [done|by apply Hh'])) as Hrole.
      destruct (start_role cfg r addr (Some h')); wp_go; [exact Hrole|exact Hclose].
  - pose proof (start_role_sound cfg r me addr os os1 None None Er Hfree Hb ltac:(done) ltac:(done)) as Hrole.
    destruct (start_role cfg r addr None); wp_go; [exact Hrole|exact Hclose].
Qed.
End Mesh.

(** ** Examples *)

Definition as_is (_ : nat) (l : list string) : list string := l.

Definition ex_mesh_registry : Registry := mkRegistry ex_identity
  (mkRegistryOptions "" (10 * Second) (45 * Second) 2 true "c") 1 ∅ [].
Definition ex_mesh_health : Server := Health.NewServer (mkHealthOptions "" "" "" "" "" "" "" 0 0) 5.
Definition ex_mesh : IntroducerNode :=
  mkIntroducer {| (ex_fed "") with registry := ex_mesh_registry |} (mkPeerSink ex_mesh_health ∅).
Definition ex_member (id : string) : InstanceRecord := {| (ex_peer id) with ClusterID := "c" |}.

Lemma ex_mesh_start : mesh_start ex_mesh.
Proof.
  split; [reflexivity|vm_compute; discriminate|reflexivity..| |].
  - intros id. cbn. by rewrite fmap_empty.
  - split; [by intros id [? ?]|done|apply map_Forall_empty].
Qed.

Definition ex_mesh_after : IntroducerNode :=
  state (introducing [(4, "mesh")] as_is (serve_request None [] "POST" "" (Introduce (Some (ex_member "a")))))
    (frozen 7 "") 0 ex_mesh.


(** A member that leaves loses its isotope at the introducer. *)
Example departed_member_is_dropped :
  let n := state (introducing [(4, "mesh")] as_is (ageOut_tick ["a"])) (frozen (60 * Second) "") 0 ex_mesh_after in
  is_Some (isotopes (sink (in_view ex_mesh_after)) !! "a") ∧ isotopes (sink (in_view n)) !! "a" = None.
Proof. vm_compute. split; [eexists|]; reflexivity. Qed.

(** A follower never drops one: it only adds what an answer names, so a member that
    has left stays among its peers, and its isotope at the rung of the mesh. *)
Example follower_trusts_the_departed :
  let me := mkIdentity "f" "svc" "h" "./state" 19101 RoleFollower 2 0 in
  let c := mkClient {| ex_mesh_registry with self := me |} 0 true (Some (mkPeerSink ex_mesh_health ∅)) (45 * Second) in
  let answer v ps := mkMembership (ex_member "me") "me" ps v 7 ∅ in
  let c := state (_ ← follow [(4, "mesh")] RoleFollower (answer 3 [ex_member "a"]) [] [];
                  follow [(4, "mesh")] RoleFollower (answer 4 []) [] []) (frozen 7 "") 0 c in
  lastVersion c = 4 ∧ is_Some (peers (cl_registry c) !! "a") ∧
  ((λ p : PeerStatusSink Server, iso_TrustRung ∘ ent_record <$> isotopes (sink p) !! "a") <$> StatusSinkOf c)
    = Some (Some MeshMemberRung).
Proof. vm_compute. split_and!; [|eexists|]; reflexivity. Qed.
