(* ===== verification/OpsRuntime.v ===== *)
(** * The runtime of [ops] ([internal/ops/runtime.go])

    [Runtime] starts the engine, the health server and the loop between them and
    waits for them, in the foreground behind the dashboard. Modelled are its lock,
    its start, a turn of its loop, and its goroutines as steps: each of them runs
    until it fails or its context is done. Discovery's result, the outcome of a
    bind and whether the advertiser starts are arguments; logging is left out. *)

From Stdlib Require Import ZArith Lia Ascii.
From stdpp Require Import base tactics strings gmap relations.
From stdpp Require Import list.
From S2P Require Import Prelude Durations KnownState Net Targets Config ConfigValidate Alerts Discovery Safety Engine Health Serve.

Open Scope Z_scope.

(** ** The lock *)

(** [syscall.Kill] succeeds or is not permitted: the process runs. *)
Definition processAlive (m : Machine) (pid : Z) : bool := if pid <=? 0 then false else isProcessRunning m pid.

Definition filepathDir (path : string) : string :=
  match LastIndexByte path "/" with
  | None | Some O => "."
  | Some i => stake i path
  end.

(** [None] when the file cannot be read as a number; an empty one is 0. *)
Definition readPID (m : Machine) (path : string) : option Z :=
  b ← mc_files m !! path;
  let v := TrimSpace b in
  if v =s "" then Some 0
  else let '(pid, ok) := Atoi v in if ok : bool then Some pid else None.

(** The new value of [lockFile]: whether the file was opened. *)
Definition acquireLock (io : LockFaults) (self : Z) (lockPath : string) (m : Machine) : option lock_error * bool * Machine :=
  let path := TrimSpace lockPath in
  let create := set_mc_files (<[path := Itoa self]>) in
  if path =s "" then (None, false, m)
  else if lf_mkdir io then (Some ErrLockDir, false, m)
  else
    match mc_files m !! path with
    | None => if lf_create io then (Some ErrLockCreate, false, m) else (None, true, create m)
    | Some _ =>
        match readPID m path with
        | None => (Some ErrLockOwnerUnknown, false, m)
        | Some pid =>
            if (pid >? 0) && processAlive m pid then (Some (ErrLockHeld pid), false, m)
            else if lf_remove io then (Some ErrLockStale, false, m)
            else
              let m := set_mc_files (delete path) m in
              if lf_create io then (Some ErrLockStale, false, m) else (None, true, create m)
        end
    end.

Definition releaseLock (lockPath : string) (m : Machine) : Machine :=
  if negb (TrimSpace lockPath =s "") then set_mc_files (delete lockPath) m else m.

(** ** Starting *)

Inductive log_level := LevelDebug | LevelInfo' | LevelWarn' | LevelError'.
Definition parseLogLevel (v : string) : log_level :=
  let v := ToLower (TrimSpace v) in
  if v =s "debug" then LevelDebug
  else if v =s "warn" then LevelWarn'
  else if v =s "error" then LevelError'
  else LevelInfo'.

(** [time.ParseDuration] with its error ignored. *)
Definition duration_or_zero (s : string) : Duration := default 0 (ParseDuration s).

Definition buildNotifier (cfg : Config) : list Sink :=
  let sinks := alr_Sinks (cfg_Alerts cfg) in
  let window := duration_or_zero (alr_DedupeWindow (cfg_Alerts cfg)) in
  let notifiers := if tog_Enabled (snk_Log sinks) then [LogSink (NewLogNotifier "info" window)] else [] in
  let notifiers := if osn_Enabled (snk_OSNotification sinks) then
      notifiers ++ [DesktopSink (NewDesktopNotifier (osn_TitlePrefix (snk_OSNotification sinks)) "warn" window)]
    else notifiers in
  let notifiers := match notifiers with [] => [LogSink (NewLogNotifier "info" 0)] | _ => notifiers end in
  NewNotifierGroup (map Some notifiers).

(** [advertising]: whether the mDNS advertiser runs. *)
Record Runtime := mkRuntime {
  rt_cfg : Config;
  rt_level : log_level;
  rt_monitor : option Engine;
  rt_notifiers : list Sink;
  rt_health : option Server;
  rt_lockPath : string;
  rt_startedAt : Time;
  advertising : bool;
}.

(** [ParseRoots] is the isotope module's reading of the trust roots. *)
Definition NewRuntime (ParseRoots : gmap string string → bool) (cfg : Config) (now : Time) : Runtime + list string :=
  match Config_Validate ParseRoots cfg with
  | [] => inl (mkRuntime cfg (parseLogLevel (svc_LogLevel (cfg_Service cfg))) None [] None
      (run_LockFile (cfg_Runtime cfg)) now false)
  | problems => inr problems
  end.

Definition runtime_health (cfg : Config) : HealthOptions :=
  let h := cfg_Health cfg in
  let ttl := duration_or_zero (hc_IsotopeTTL h) in
  mkHealthOptions (svc_Name (cfg_Service cfg)) "" (hc_ListenAddr h) (hr_Healthz (hc_Endpoints h))
    (hr_Readyz (hc_Endpoints h)) (hr_Status (hc_Endpoints h)) ""
    (duration_or_zero (run_GracefulShutdownTimeout (cfg_Runtime cfg))) (if ttl <=? 0 then DefaultIsotopeTTL else ttl).

Inductive boot_error := ErrEngine (e : compile_error) | ErrHealthBind (e : listen_error).

(** [BindWithRetry] of the health server, with [adoptListener]. *)
Definition health_BindWithRetry (try : string → bind_result) (maxRetries : Z) : M Server (string + listen_error) :=
  s ← get;
  match Listen try (ho_ListenAddr (hs_opts s)) maxRetries with
  | inr e => mret (inr e)
  | inl bound => _ ← SetListener ListenerHealth bound; mret (inl bound)
  end.

Definition on_health {A} (d : Server) (m : M Server A) : M Runtime A :=
  zoom (λ r, default d (rt_health r)) (λ s r, {| r with rt_health := Some s |}) m.

(** On the health server, if there is one. *)
Definition with_health (m : M Server unit) : M Runtime unit :=
  r ← get;
  match rt_health r with None => mret tt | Some s => on_health s m end.

(** [res] is what [Discover] returns. *)
Definition runStartupDiscovery (res : DiscoveryResult) : M Runtime unit :=
  r ← get;
  if negb (dsc_Enabled (cfg_Discovery (rt_cfg r))) then mret tt
  else with_health
    (if (0 <? length (dr_Errors res))%nat then SetComponent "discovery" false "startup discovery had errors"
     else SetComponent "discovery" true "startup discovery ok").

Section Boot.
Context (try : string → bind_result) (files : Disk) (advertiser_starts : bool) (res : DiscoveryResult).

(** The health server; [adv] is whether the advertiser was started. *)
Definition start_health : M Runtime (bool + listen_error) :=
  r ← get;
  let cfg := rt_cfg r in
  now ← clock;
  let hs := Health.NewServer (runtime_health cfg) now in
  _ ← modify (λ r, {| r with rt_health := Some hs |});
  bound ← on_health hs (health_BindWithRetry try 10);
  match bound with
  | inr e => mret (inr e)
  | inl _ =>
      let adv := tn_Advertise (cfg_Tuner cfg) && advertiser_starts in
      _ ← modify (λ r, {| r with advertising := adv |});
      _ ← with_health
            (_ ← SetComponent "engine" false "starting";
             _ ← SetComponent "discovery" true "idle";
             SetReady false "engine warming up");
      mret (inl adv)
  end.

(** [defer advertiser.Shutdown()] runs when [bootstrap] returns. *)
Definition bootstrap : M Runtime (option boot_error) :=
  r ← get;
  let cfg := rt_cfg r in
  let ks := cfg_KnownState cfg in
  _ ← modify (λ r, {| r with rt_notifiers := buildNotifier cfg |});
  let store := if ks_Enabled ks then
      Some (mkWorld (KnownState.NewStore (run_BaselineFile (cfg_Runtime cfg))
        [WithAutoPersist (ks_Persist ks); WithSustainSuccess (ks_SustainSuccessBeforeMarkHealthy ks)]) files)
    else None in
  match NewEngine cfg store (Some NewScanner) with
  | inr e => mret (Some (ErrEngine e))
  | inl eng =>
      _ ← modify (λ r, {| r with rt_monitor := Some eng |});
      started ← (if hc_Enabled (cfg_Health cfg) then start_health else mret (inl false));
      match started with
      | inr e => mret (Some (ErrHealthBind e))
      | inl adv =>
          _ ← runStartupDiscovery res;
          _ ← (if adv : bool then modify (λ r, {| r with advertising := false |}) else mret tt);
          mret None
      end
  end.
End Boot.

(** ** The loop *)

(** A tick of [syncHealthLoop]. *)
Definition sync_turn : M Runtime unit :=
  r ← get;
  match rt_monitor r with
  | None => mret tt
  | Some e =>
      with_health
        (_ ← (if IsReady e then _ ← SetComponent "engine" true "running"; SetReady true ""
              else _ ← SetComponent "engine" false "warming up"; SetReady false "engine warming up");
         Serve.upsert_all (SnapshotStatuses e))
  end.

(** Its end. *)
Definition sync_end : M Runtime unit :=
  r ← get;
  match rt_monitor r with
  | None => mret tt
  | Some _ => with_health (_ ← SetComponent "engine" false "stopped"; SetReady false "shutting down")
  end.

(** ** The goroutines *)

Inductive mode := Foreground | Background.

(** The goroutine that runs [Run]: the dashboard or the wait for an error, the wait
    for the others with the error it will return, and the end. *)
Inductive phase := Blocked | Joining (err : option string) | Returned (err : option string).

(** [sync_needs] is whether the loop has something to mirror to; without it the
    loop ends at once. *)
Record Threads := mkThreads {
  th_mode : mode;
  cancelled : bool;
  engine_runs : bool;
  health_runs : bool;
  sync_runs : bool;
  sync_needs : bool;
  errCh : list string;
  main : phase;
}.

Definition is_foreground (m : mode) : bool := match m with Foreground => true | Background => false end.

Definition launch (m : mode) (health : bool) : Threads := mkThreads m false true health true health [] Blocked.

(** A worker that fails sends its error; in the foreground it cancels the others. *)
Definition worker_failed (err : string) (s : Threads) : Threads :=
  {| s with errCh := errCh s ++ [err]; cancelled := cancelled s || is_foreground (th_mode s) |}.

Definition joined (s : Threads) : bool := negb (engine_runs s || health_runs s || sync_runs s).

Inductive thread_step (s : Threads) : Threads → Prop :=
  | outer_cancel : cancelled s = false → thread_step s {| s with cancelled := true |}
  | engine_fails e : engine_runs s = true →
      thread_step s (worker_failed ("engine failed: " +:+ e) {| s with engine_runs := false |})
  | engine_ends : engine_runs s = true → cancelled s = true → thread_step s {| s with engine_runs := false |}
  | health_fails e : health_runs s = true →
      thread_step s (worker_failed ("health server failed: " +:+ e) {| s with health_runs := false |})
  | health_ends : health_runs s = true → cancelled s = true → thread_step s {| s with health_runs := false |}
  | sync_ends : sync_runs s = true → cancelled s = true ∨ sync_needs s = false →
      thread_step s {| s with sync_runs := false |}
  | ui_ends err : th_mode s = Foreground → main s = Blocked →
      thread_step s {| s with cancelled := true; main := Joining ((λ e, "foreground UI failed: " +:+ e) <$> err) |}
  | context_done : th_mode s = Background → main s = Blocked → cancelled s = true →
      thread_step s {| s with main := Joining None |}
  | error_received e es : th_mode s = Background → main s = Blocked → errCh s = e :: es →
      thread_step s {| s with errCh := es; main := Joining (Some e) |}
  | join err : main s = Joining err → joined s = true →
      thread_step s {| s with main := Returned
        (match th_mode s, errCh s with Foreground, e :: _ => Some e | _, _ => err end) |}.

(** ** Facts: the goroutines *)

Definition running_workers (s : Threads) : nat :=
  Nat.b2n (engine_runs s) + Nat.b2n (health_runs s) + Nat.b2n (sync_runs s).
Definition remaining (s : Threads) : nat :=
  (running_workers s + Nat.b2n (negb (cancelled s))
   + match main s with Blocked => 2 | Joining _ => 1 | Returned _ => 0 end)%nat.

Lemma thread_step_remaining s s' : thread_step s s' → (remaining s' < remaining s)%nat.
Proof.
  unfold remaining, running_workers, joined. destruct s as [m c e h y n q p].
  intros H; inversion H; subst; cbn in *; subst; try done;
    repeat match goal with b : bool |- _ => destruct b end; cbn in *; try done; try lia; destruct m; cbn; lia.
Qed.

(** What is so in every run: the state of the main goroutine, and where errors go. *)
Record threads_ok (m : mode) (health : bool) (s : Threads) : Prop := {
  to_mode : th_mode s = m;
  to_needs : sync_needs s = health;
  to_joining err : main s = Joining err → cancelled s = true ∨ (m = Background ∧ is_Some err);
  to_done err : main s = Returned err → joined s = true ∧ ∃ ui, err = match m, errCh s with Foreground, e :: _ => Some e | _, _ => ui end;
  to_errors : (length (errCh s) + Nat.b2n (engine_runs s) + Nat.b2n (health_runs s) <= 2)%nat;
  to_failed : m = Foreground → errCh s ≠ [] → cancelled s = true;
  to_sync : cancelled s = false → health = true → sync_runs s = true;
}.

Lemma launched_ok m health : threads_ok m health (launch m health).
Proof. split; try done. cbn. destruct health; cbn; lia. Qed.

Lemma thread_step_ok m health s s' : threads_ok m health s → thread_step s s' → threads_ok m health s'.
Proof.
  intros [Hm Hn Hj Hd He Hf Hs] Hstep. destruct s as [m' c e h y n q p]. cbn in *. subst m' n.
  assert (∀ r, p = Returned r → e = false ∧ h = false ∧ y = false) as Hquiet.
  { intros r Hr. destruct (Hd r Hr) as [Hjn _]. unfold joined in Hjn. cbn in Hjn. by destruct e, h, y. }
  inversion Hstep; subst; cbn in *; subst; clear Hstep; split; cbn; rewrite ?length_app; cbn; try done;
    change (Nat.b2n true) with 1%nat in *; change (Nat.b2n false) with 0%nat in *; try lia;
    intros; simplify_eq; eauto using orb_true_r.
  all: try (destruct (Hj _ eq_refl) as [->|[-> ?]]; [by left|by right]).
  all: try (by destruct (Hquiet _ eq_refl) as (? & ? & ?)).
  all: try (cbn in He; lia).
  all: destruct c; cbn in *; naive_solver.
Qed.

Lemma threads_reachable m health s : rtc thread_step (launch m health) s → threads_ok m health s.
Proof. intros Hr. eapply rtc_invariant; [|exact Hr|apply launched_ok]. intros. by eapply thread_step_ok. Qed.

Lemma thread_runs_end s : Acc (flip thread_step) s.
Proof.
  induction s as [s IH] using (well_founded_induction (well_founded_ltof _ remaining)).
  constructor. intros s' Hs'. apply IH. by apply thread_step_remaining.
Qed.

Lemma thread_progress m health s : threads_ok m health s → (∀ r, main s ≠ Returned r) → ∃ s', thread_step s s'.
Proof.
  intros [Hm _ Hj _ _ _ _] Hmain. destruct (main s) as [|err|r] eqn:Ep; [| |by destruct (Hmain r)].
  - destruct m; [by eexists; apply (ui_ends s None)|].
    destruct (cancelled s) eqn:Ec; [by eexists; apply context_done|by eexists; apply outer_cancel].
  - destruct (joined s) eqn:Ej; [by eexists; eapply join|]. unfold joined in Ej.
    destruct (engine_runs s) eqn:E1; [by eexists; apply (engine_fails s "")|].
    destruct (health_runs s) eqn:E2; [by eexists; apply (health_fails s "")|].
    destruct (sync_runs s) eqn:E3; [|done].
    destruct (cancelled s) eqn:Ec; [eexists; apply sync_ends; auto|by eexists; apply outer_cancel].
Qed.

(** ** Properties *)

(** A run ends and says why. From every state of a run, every continuation is
    finite, and it stops only when [Run] has returned: then no goroutine of it is
    left, and in the foreground the error returned is the first a goroutine sent.
    The channel of errors never fills, and in the foreground a failure, or the end
    of the dashboard, stops everything else. *)
Theorem run_ends (m : mode) (health : bool) (s : Threads) :
  rtc thread_step (launch m health) s →
  Acc (flip thread_step) s ∧
  ((∀ s', ¬ thread_step s s') → ∃ r, main s = Returned r) ∧
  (∀ r, main s = Returned r → engine_runs s = false ∧ health_runs s = false ∧ sync_runs s = false ∧
     ∀ e es, m = Foreground → errCh s = e :: es → r = Some e) ∧
  (length (errCh s) <= 3)%nat ∧
  (m = Foreground → errCh s ≠ [] ∨ main s ≠ Blocked → cancelled s = true ∨ ∃ r, main s = Returned r).
Proof.
  intros Hr. pose proof (threads_reachable _ _ _ Hr) as Hok. split_and!.
  - apply thread_runs_end.
  - intros Hstuck. destruct (main s) as [|err|r] eqn:Ep; [| |by exists r];
      (destruct (thread_progress m health s Hok) as [s' Hs']; [by rewrite Ep|by destruct (Hstuck s')]).
  - intros r Ep. destruct (to_done _ _ _ Hok r Ep) as [Hjn [ui Hui]]. unfold joined in Hjn.
    destruct (engine_runs s), (health_runs s), (sync_runs s); try done. split_and!; try done.
    intros e es -> He. by rewrite He in Hui.
  - pose proof (to_errors _ _ _ Hok). lia.
  - intros Hm [He|Hb]; [left; by apply (to_failed _ _ _ Hok)|].
    destruct (main s) as [|err|r] eqn:Ep; [done| |by right; exists r].
    left. by destruct (to_joining _ _ _ Hok err Ep) as [?|[? _]]; [|congruence].
Qed.

Lemma run_ends_witness :
  let s := worker_failed ("engine failed: " +:+ "x") {| (launch Foreground true) with engine_runs := false |} in
  errCh s = ["engine failed: x"] ∧ Acc (flip thread_step) s ∧ (cancelled s = true ∨ ∃ r, main s = Returned r).
Proof.
  cbv zeta. split; [reflexivity|].
  destruct (run_ends Foreground true (worker_failed ("engine failed: " +:+ "x") {| (launch Foreground true) with engine_runs := false |}))
    as (H0 & _ & _ & _ & H4).
  - apply rtc_once. apply (engine_fails (launch Foreground true) "x"). reflexivity.
  - split; [exact H0|]. apply H4; [reflexivity|]. left. discriminate.
Defined.

(** In the background a failure stops nothing: with a health server, [Run] does not
    return before someone else cancels its context, whatever failed. *)
Theorem background_waits_for_cancel (s : Threads) :
  rtc thread_step (launch Background true) s → cancelled s = false → ∀ r, main s ≠ Returned r.
Proof.
  intros Hr Hc r Ep. pose proof (threads_reachable _ _ _ Hr) as Hok.
  destruct (to_done _ _ _ Hok r Ep) as [Hjn _]. unfold joined in Hjn.
  rewrite (to_sync _ _ _ Hok Hc eq_refl) in Hjn. by rewrite orb_true_r in Hjn.
Qed.

(** The engine has failed, the error is received, and the process stays. *)
Example failed_engine_keeps_the_process :
  ∃ s, rtc thread_step (launch Background true) s ∧ engine_runs s = false ∧ cancelled s = false ∧
    main s = Joining (Some "engine failed: x").
Proof.
  eexists. split.
  - eapply rtc_l; [by apply (engine_fails _ "x")|]. eapply rtc_l; [by eapply error_received|]. apply rtc_refl.
  - done.
Qed.

Lemma wp_with_health m env tick r s (Q : unit → nat → Runtime → Prop) :
  rt_health r = Some s →
  wp m env tick s (λ _ t s', Q tt t {| r with rt_health := Some s' |}) →
  wp (with_health m) env tick r Q.
Proof.
  intros Hs Hm. unfold with_health. wp_go. rewrite Hs. unfold on_health.
  rewrite (wp_zoom (λ r, default s (rt_health r))). rewrite Hs. change (default s (Some s)) with s.
  eapply wp_mono; [exact Hm|]. by intros [] t s'.
Qed.

(** A turn of the loop shows the engine: the server is ready exactly when the engine
    is, and every target with a name has the row of its status. *)
Theorem sync_turn_shows (env : Env) (tick : nat) (r : Runtime) (e : Engine) (s : Server) :
  rt_monitor r = Some e → rt_health r = Some s → NoDup (map rs_TargetID (SnapshotStatuses e)) →
  ∃ s', rt_health (state sync_turn env tick r) = Some s' ∧ ready s' = IsReady e ∧
    (∀ st, st ∈ SnapshotStatuses e → blank (rs_TargetID st) = false →
       ∃ row, shows row st ∧ Health.targets s' !! rs_TargetID st = Some row).
Proof.
  intros Hm Hh Hn.
  enough (wp sync_turn env tick r (λ _ _ r', ∃ s', rt_health r' = Some s' ∧ ready s' = IsReady e ∧
    (∀ st, st ∈ SnapshotStatuses e → blank (rs_TargetID st) = false →
       ∃ row, shows row st ∧ Health.targets s' !! rs_TargetID st = Some row))) as H by by rewrite wp_run in H.
  unfold sync_turn. wp_go. rewrite Hm. apply (wp_with_health _ _ _ _ s); [done|]. wp_go.
  set (report := if IsReady e then _ else _).
  assert (wp report env tick s (λ _ _ s', ready s' = IsReady e)) as Hreport.
  { subst report. destruct (IsReady e); wp_go; rewrite wp_run; wp_go; done. }
  eapply wp_mono; [exact Hreport|]. intros [] t s1 Hr1.
  assert (∀ sts, keeps ready (Serve.upsert_all sts)) as Hkeep.
  { induction sts as [|st sts IH]; cbn [Serve.upsert_all]; [apply keeps_ret|].
    apply keeps_bind; [unfold UpsertTargetStatus; keeps_go|intros _; exact IH]. }
  pose proof (wp_upsert_statuses (SnapshotStatuses e) env t s1 Hn) as Hrows. rewrite wp_run in Hrows |- *.
  eexists. split; [done|]. split; [by rewrite Hkeep|apply Hrows].
Qed.

(** ** Facts: starting *)

Definition not_ready (r : Runtime) : Prop := match rt_health r with Some s => ready s = false | None => True end.

Lemma keeps_ready_component name h d : keeps ready (SetComponent name h d).
Proof. unfold SetComponent. keeps_go. Qed.

(** What is set on the health server that leaves it not ready. *)
Lemma wp_with_health_not_ready m env tick r (Q : unit → nat → Runtime → Prop) :
  not_ready r → (∀ t s, ready s = false → ready (state m env t s) = false) →
  (∀ t r', not_ready r' → advertising r' = advertising r → Q tt t r') →
  wp (with_health m) env tick r Q.
Proof.
  intros Hr Hm HQ. unfold not_ready in Hr. destruct (rt_health r) as [s|] eqn:E.
  - apply (wp_with_health _ _ _ _ s); [done|]. apply wp_run, HQ; [|done]. by apply Hm.
  - unfold with_health. wp_go. rewrite E. wp_go. apply HQ; [|done]. unfold not_ready. by rewrite E.
Qed.

Lemma wp_runStartupDiscovery res env tick r (Q : unit → nat → Runtime → Prop) :
  not_ready r → (∀ t r', not_ready r' → advertising r' = advertising r → Q tt t r') →
  wp (runStartupDiscovery res) env tick r Q.
Proof.
  intros Hr HQ. unfold runStartupDiscovery. wp_go. destruct (negb _); wp_go; [by apply HQ|].
  apply wp_with_health_not_ready; [done| |done].
  intros t s Hs. destruct (_ <? _)%nat; by rewrite keeps_ready_component.
Qed.

Lemma wp_start_health try adv env tick r (Q : bool + listen_error → nat → Runtime → Prop) :
  (∀ x t r', not_ready r' → match x with inl a => advertising r' = a | inr _ => advertising r' = advertising r end →
     Q x t r') →
  wp (start_health try adv) env tick r Q.
Proof.
  intros HQ. unfold start_health. wp_go. unfold on_health. set (hs := Health.NewServer _ _).
  rewrite (wp_zoom (λ r0, default hs (rt_health r0))). cbn [rt_health]. change (default hs (Some hs)) with hs.
  assert (ready hs = false) as Hhs by done. clearbody hs. unfold health_BindWithRetry. wp_go.
  destruct (Listen _ _ _) as [b|e]; wp_go; [|by apply HQ].
  assert (keeps ready (SetListener ListenerHealth b)) as Hl by (unfold SetListener; keeps_go).
  rewrite wp_run. wp_go. apply wp_with_health_not_ready.
  - unfold not_ready. cbn [rt_health]. by rewrite Hl.
  - intros t s _.
    enough (wp (_ ← SetComponent "engine" false "starting"; _ ← SetComponent "discovery" true "idle";
      SetReady false "engine warming up") env t s (λ _ _ s', ready s' = false)) as H by by rewrite wp_run in H.
    wp_go. rewrite wp_run. rewrite wp_run. by wp_go.
  - intros t r' Hr' Ha. wp_go. apply HQ; [done|]. by rewrite Ha.
Qed.

(** A runtime that was started is not ready until a turn of its loop says so, and is
    not advertised: what [bootstrap] starts to advertise it stops when it returns. *)
Theorem bootstrap_leaves (try : string → bind_result) (files : Disk) (adv : bool) (res : DiscoveryResult)
  (env : Env) (tick : nat) (r : Runtime) :
  rt_health r = None → advertising r = false →
  let r' := state (bootstrap try files adv res) env tick r in
  not_ready r' ∧ advertising r' = false.
Proof.
  intros Hh Ha. cbv zeta.
  enough (wp (bootstrap try files adv res) env tick r (λ _ _ r', not_ready r' ∧ advertising r' = false)) as H
    by by rewrite wp_run in H.
  assert (not_ready r) as Hr by (unfold not_ready; by rewrite Hh).
  unfold bootstrap. wp_go. destruct (NewEngine _ _ _) as [e|err]; wp_go; [|done].
  destruct (hc_Enabled _); wp_go.
  - apply wp_start_health. intros [a|er] t r2 H1 H2; wp_go; [|split; [done|]; cbn in H2; congruence].
    apply wp_runStartupDiscovery; [done|]. intros t' r3 H3 H4. rewrite H2 in H4. destruct a; by wp_go.
  - apply wp_runStartupDiscovery; [done|]. intros t' r3 H3 H4. cbn [advertising] in H4. wp_go. by rewrite H4.
Qed.

(** ** Facts: the lock *)

Lemma readPID_own m path pid : mc_files m !! path = Some (Itoa pid) → 0 < pid < two63 → readPID m path = Some pid.
Proof.
  intros H Hp. pose proof (Serve.readPID_Itoa m path pid H Hp) as Hs. unfold Serve.readPID in Hs. unfold readPID.
  rewrite H in Hs |- *. cbn [mbind option_bind] in *. destruct (TrimSpace (Itoa pid) =s "") eqn:E.
  - apply streq_true in E. rewrite E in Hs. vm_compute in Hs. discriminate Hs.
  - destruct (Atoi (TrimSpace (Itoa pid))) as [p ok]. destruct ok; cbn [negb orb] in Hs; [|done].
    destruct (p <=? 0); [done|exact Hs].
Qed.

(** One process at a time. Nobody takes the lock of a process that runs; a lock that
    is taken names its owner, and the owner's release frees it, when the path has no
    outer blanks. *)
Theorem lock_excludes (io : LockFaults) (self : Z) (path : string) (m : Machine) :
  0 < self < two63 → TrimSpace path = path → path ≠ "" →
  let '(err, held, m') := acquireLock io self path m in
  (∀ pid, mc_files m !! path = Some (Itoa pid) → 0 < pid < two63 → isProcessRunning m pid = true →
     err = Some (ErrLockHeld pid) ∨ err = Some ErrLockDir) ∧
  (err = None → held = true ∧ readPID m' path = Some self ∧ mc_files (releaseLock path m') = delete path (mc_files m)) ∧
  (err ≠ None → held = false).
Proof.
  intros Hself Htrim Hne. unfold acquireLock. rewrite Htrim, (proj2 (streq_false _ _) Hne).
  set (create := set_mc_files (<[path:=Itoa self]>)).
  assert (∀ m0, delete path (mc_files m0) = delete path (mc_files m) →
    true = true ∧ readPID (create m0) path = Some self ∧
    mc_files (releaseLock path (create m0)) = delete path (mc_files m)) as Htake.
  { intros m0 Hd. split; [done|]. split; [apply readPID_own; [apply lookup_insert_eq|done]|].
    unfold releaseLock. rewrite Htrim, (proj2 (streq_false _ _) Hne). cbn. by rewrite delete_insert_eq. }
  destruct (lf_mkdir io); [split_and!; [by right|done|done]|].
  destruct (mc_files m !! path) as [b|] eqn:Eb; [|destruct (lf_create io); split_and!; try done; intros _; by apply Htake].
  assert (∀ pid, Some b = Some (Itoa pid) → 0 < pid < two63 → readPID m path = Some pid) as Hread
    by (intros pid [= ->] Hp; by apply readPID_own).
  destruct (readPID m path) as [pid|] eqn:Er.
  2: { split_and!; [|done|done]. intros pid Hp Hpos _. by specialize (Hread pid Hp Hpos). }
  destruct ((pid >? 0) && processAlive m pid) eqn:Ea.
  { split_and!; [|done|done]. intros pid' Hp Hpos _. specialize (Hread pid' Hp Hpos). simplify_eq. by left. }
  assert (∀ pid', Some b = Some (Itoa pid') → 0 < pid' < two63 → isProcessRunning m pid' = true → False) as Hdead.
  { intros pid' Hp Hpos Hrun. specialize (Hread pid' Hp Hpos). simplify_eq. unfold processAlive in Ea.
    rewrite Z.gtb_ltb, (proj2 (Z.ltb_lt _ _) (proj1 Hpos)) in Ea. cbn [andb] in Ea.
    rewrite (proj2 (Z.leb_gt _ _) (proj1 Hpos)) in Ea. congruence. }
  destruct (lf_remove io); [split_and!; [intros; exfalso; eauto|done|done]|].
  destruct (lf_create io); (split_and!; [intros; exfalso; eauto| |done]); [done|]. intros _. apply Htake. cbn.
  by rewrite delete_delete_eq.
Qed.

Definition ex_machine : Machine := mkMachine {["/l" := "41"]} {[41; 42]}.

Lemma lock_excludes_witness :
  (acquireLock (mkLockFaults false false false) 42 "/l" ex_machine).1.1 = Some (ErrLockHeld 41) ∧
  (acquireLock (mkLockFaults false false false) 42 "/l" ex_machine).1.2 = false.
Proof.
  split; [vm_compute; reflexivity|].
  pose proof (lock_excludes (mkLockFaults false false false) 42 "/l" ex_machine ltac:(vm_compute; split; reflexivity) eq_refl
    ltac:(discriminate)) as H.
  destruct (acquireLock _ _ _ _) as [[err held] m'] eqn:E. destruct H as (_ & _ & H). cbn. apply H.
  vm_compute in E. injection E as <- _ _. discriminate.
Defined.

(** The lock is created before its owner is written: one that finds it empty takes it
    over. *)
Example empty_lock_is_taken_over :
  (acquireLock (mkLockFaults false false false) 42 "/l" (mkMachine {["/l" := ""]} {[41; 42]})).1 = (None, true).
Proof. vm_compute. reflexivity. Qed.

(** The lock is taken at the trimmed path and released at the path as configured. *)
Example padded_lock_is_not_released :
  let '(err, held, m) := acquireLock (mkLockFaults false false false) 42 "/l " (mkMachine ∅ {[42]}) in
  held = true ∧ mc_files (releaseLock "/l " m) !! "/l" = Some "42".
Proof. vm_compute. split; reflexivity. Qed.
