(* ===== verification/Mdns.v ===== *)
(** * The mDNS advertiser ([internal/mdns/advertiser.go])

    What the advertiser registers and when it withdraws it. The zeroconf library is
    another module's: a registration is on the air from [RegisterProxy] until its
    server is shut down. [ParsePort] is in [Net]. *)

From Stdlib Require Import ZArith Lia.
From stdpp Require Import base tactics strings gmap relations.
From stdpp Require Import list.
From S2P Require Import Prelude Bytes Net.

Open Scope Z_scope.

(** ** Data *)

(** [TXT] as the entries of the map in the order Go iterates them. *)
Record Options := mkOptions {
  mdns_ServiceName : string;
  mdns_ServiceType : string;
  mdns_Domain : string;
  mdns_Port : Z;
  mdns_TXT : list (string * string);
}.

Record Registration := mkRegistration {
  rg_Instance : string;
  rg_Service : string;
  rg_Domain : string;
  rg_Port : Z;
  rg_Host : string;
  rg_IPs : list string;
  rg_Text : list string;
}.

(** An interface, its flags, and its addresses: the IPv4 ones as text, [None] for
    the others; [None] for all when they cannot be read. *)
Record Interface := mkInterface {
  if_loopback : bool;
  if_up : bool;
  if_multicast : bool;
  if_addrs : option (list (option string));
}.

(** Registrations and the contexts derived for them are numbered. [server] is the
    field, [cancel] the context it cancels; [on_air] are the registrations whose
    server runs, [watched] those a goroutine shuts down when its context ends, and
    [cancelled] the contexts that ended. *)
Record Advertiser := mkAdvertiser {
  ad_opts : Options;
  server : option nat;
  cancel : option nat;
  next : nat;
  on_air : gmap nat Registration;
  watched : gset nat;
  cancelled : gset nat;
}.

(** ** Operations *)

Definition NewAdvertiser (o : Options) : Advertiser :=
  let o := if mdns_Domain o =s "" then {| o with mdns_Domain := "local." |}
           else if negb (HasSuffix (mdns_Domain o) ".") then {| o with mdns_Domain := mdns_Domain o +:+ "." |}
           else o in
  mkAdvertiser o None None 0 ∅ ∅ ∅.

Definition formatTXT (m : list (string * string)) : list string := map (λ kv, kv.1 +:+ "=" +:+ kv.2) m.

Definition interface_ips (i : Interface) : list string :=
  if if_loopback i || negb (if_up i) then []
  else if negb (if_multicast i) then []
  else omap id (default [] (if_addrs i)).

(** [None]: the interfaces cannot be listed. *)
Definition getLocalIPs (ifaces : option (list Interface)) : option (list string) :=
  ifaces ← ifaces; Some (concat (map interface_ips ifaces)).

(** [hostname] is [os.Hostname], [registers] whether the library registers. [true]
    is a nil error. *)
Definition Start (hostname : option string) (ifaces : option (list Interface)) (registers : bool) : M Advertiser bool :=
  a ← get;
  let ctx := next a in
  _ ← modify (λ a, {| a with cancel := Some ctx; next := S ctx |});
  let hostname := default "localhost" hostname in
  let hostname := if negb (HasSuffix hostname ".") then hostname +:+ "." else hostname in
  let ips := default [] (getLocalIPs ifaces) in
  let o := ad_opts a in
  if negb registers then mret false
  else
    let r := mkRegistration (mdns_ServiceName o) (mdns_ServiceType o) (mdns_Domain o) (mdns_Port o) hostname ips
      (formatTXT (mdns_TXT o)) in
    _ ← modify (λ a, {| a with server := Some ctx; on_air := <[ctx := r]> (on_air a); watched := {[ctx]} ∪ watched a |});
    mret true.

Definition Shutdown : M Advertiser unit :=
  _ ← modify (λ a, match cancel a with Some c => {| a with cancelled := {[c]} ∪ cancelled a |} | None => a end);
  modify (λ a, match server a with
               | Some s => {| a with on_air := delete s (on_air a); server := None |}
               | None => a
               end).

Definition ServiceID (a : Advertiser) : string :=
  mdns_ServiceType (ad_opts a) +:+ "." +:+ mdns_Domain (ad_opts a) +:+ ":" +:+ Itoa (mdns_Port (ad_opts a)).

(** A step: a call, the end of the caller's context, which ends them all, and the
    goroutine of a registration whose context has ended. *)
Inductive advert_step (a : Advertiser) : Advertiser → Prop :=
  | advert_start hostname ifaces registers env tick :
      advert_step a (state (Start hostname ifaces registers) env tick a)
  | advert_shutdown env tick : advert_step a (state Shutdown env tick a)
  | advert_parent_done : advert_step a {| a with cancelled := watched a ∪ cancelled a |}
  | advert_withdraw n :
      n ∈ watched a → n ∈ cancelled a →
      advert_step a {| a with on_air := delete n (on_air a); watched := watched a ∖ {[n]} |}.

(** ** Facts *)

Definition registered (o : Options) (r : Registration) : Prop :=
  rg_Instance r = mdns_ServiceName o ∧ rg_Service r = mdns_ServiceType o ∧ rg_Port r = mdns_Port o ∧
  rg_Text r = formatTXT (mdns_TXT o) ∧ HasSuffix (rg_Domain r) "." = true ∧ HasSuffix (rg_Host r) "." = true.

Record advert_ok (o : Options) (a : Advertiser) : Prop := {
  av_opts : ad_opts a = ad_opts (NewAdvertiser o);
  av_fresh n : n ∈ watched a → (n < next a)%nat;
  av_watched n : is_Some (on_air a !! n) → n ∈ watched a;
  av_content n r : on_air a !! n = Some r → registered o r;
}.

Lemma dotted s : HasSuffix (if negb (HasSuffix s ".") then s +:+ "." else s) "." = true.
Proof.
  destruct (HasSuffix s ".") eqn:E; cbn [negb]; [done|]. unfold HasSuffix. rewrite srev_app. apply HasPrefix_app.
Qed.

Lemma NewAdvertiser_opts o :
  let o' := ad_opts (NewAdvertiser o) in
  mdns_ServiceName o' = mdns_ServiceName o ∧ mdns_ServiceType o' = mdns_ServiceType o ∧
  mdns_Port o' = mdns_Port o ∧ mdns_TXT o' = mdns_TXT o ∧ HasSuffix (mdns_Domain o') "." = true.
Proof.
  unfold NewAdvertiser. cbn [ad_opts]. pose proof (dotted (mdns_Domain o)) as Hd.
  destruct (mdns_Domain o =s ""); [repeat split|].
  by destruct (HasSuffix (mdns_Domain o) ".") eqn:E; cbn [negb] in *; repeat split.
Qed.

Lemma wp_Start hostname ifaces registers env tick o a :
  advert_ok o a →
  wp (Start hostname ifaces registers) env tick a (λ ok _ a',
    advert_ok o a' ∧ ok = registers ∧ cancelled a' = cancelled a ∧
    if registers then
      ∃ n r, on_air a' = <[n := r]> (on_air a) ∧ server a' = Some n ∧ cancel a' = Some n ∧
        n ∉ watched a ∧ watched a' = {[n]} ∪ watched a ∧ registered o r
    else on_air a' = on_air a ∧ watched a' = watched a ∧ server a' = server a).
Proof.
  intros [Ho Hf Hw Hc]. unfold Start. wp_go. destruct registers; cbn [negb]; wp_go.
  2: { split_and!; try done. split; cbn; try done. intros n Hn. pose proof (Hf n Hn). lia. }
  pose proof (NewAdvertiser_opts o) as (H1 & H2 & H3 & H4 & H5).
  destruct a as [opts s c n air w x]; cbn in *. set (reg := mkRegistration _ _ _ _ _ _ _).
  assert (registered o reg) as Hr.
  { unfold registered, reg. cbn. rewrite Ho, H1, H2, H3, H4. split_and!; try done. apply dotted. }
  split_and!; [|done|done|].
  - split; cbn; [done| | |].
    + intros m [->%elem_of_singleton|Hn]%elem_of_union; [lia|]. pose proof (Hf m Hn). lia.
    + intros m. rewrite lookup_insert_is_Some. intros [->|[_ Hn]]; [set_solver|]. pose proof (Hw m Hn). set_solver.
    + intros m r [[<- <-]|[_ Hn]]%lookup_insert_Some; [done|by eapply Hc].
  - exists n, reg. split_and!; try done. intros Hn. pose proof (Hf _ Hn). lia.
Qed.

Lemma wp_Shutdown env tick o a :
  advert_ok o a →
  wp Shutdown env tick a (λ _ _ a',
    advert_ok o a' ∧ server a' = None ∧ watched a' = watched a ∧
    on_air a' = match server a with Some s => delete s (on_air a) | None => on_air a end ∧
    cancelled a' = match cancel a with Some c => {[c]} ∪ cancelled a | None => cancelled a end).
Proof.
  intros [Ho Hf Hw Hc]. unfold Shutdown. wp_go.
  destruct a as [opts s c n air w x]; destruct s as [s|], c as [c|]; cbn in *; split_and!; try done; split; cbn; try done.
  all: intros m; rewrite ?lookup_delete_is_Some; try (intros [_ ?]; by apply Hw).
  all: intros r [_ ?]%lookup_delete_Some; by eapply Hc.
Qed.

Lemma advert_step_ok o a a' : advert_ok o a → advert_step a a' → advert_ok o a'.
Proof.
  intros Hok Hs. destruct Hs as [h i r env tick|env tick| |n Hn Hn'].
  - pose proof (wp_Start h i r env tick o a Hok) as H. rewrite wp_run in H. apply H.
  - pose proof (wp_Shutdown env tick o a Hok) as H. rewrite wp_run in H. apply H.
  - destruct Hok as [Ho Hf Hw Hc]. by split.
  - destruct Hok as [Ho Hf Hw Hc]. split; cbn; [done| | |].
    + intros m Hm. apply Hf. set_solver.
    + intros m [Hne Hm]%lookup_delete_is_Some. pose proof (Hw m Hm). set_solver.
    + intros m r [_ Hm]%lookup_delete_Some. by eapply Hc.
Qed.

Lemma NewAdvertiser_ok o : advert_ok o (NewAdvertiser o).
Proof. split; [done|set_solver| |]; intros n; [by intros [? ?]|done]. Qed.

(** Whatever is called and whenever, what is on the air is the configured service
    under a fully qualified domain and host, and a goroutine is there that will
    withdraw it. *)
Theorem advertised_ok (o : Options) (a : Advertiser) :
  rtc advert_step (NewAdvertiser o) a → advert_ok o a.
Proof.
  enough (∀ b, advert_ok o b → rtc advert_step b a → advert_ok o a) as H by eauto using NewAdvertiser_ok.
  intros b Hok. induction 1 as [|b c d Hs _ IH]; [done|]. by eauto using advert_step_ok.
Qed.

(** Once the caller's context ends the goroutines take everything off the air, even
    registrations a later [Start] made the advertiser forget. *)
Theorem context_end_withdraws (o : Options) (a : Advertiser) :
  rtc advert_step (NewAdvertiser o) a → ∃ a', rtc advert_step a a' ∧ on_air a' = ∅ ∧ watched a' = ∅.
Proof.
  intros Hok%advertised_ok.
  set (b := {| a with cancelled := watched a ∪ cancelled a |}).
  enough (∃ a', rtc advert_step b a' ∧ on_air a' = ∅ ∧ watched a' = ∅) as (a' & Hb & H).
  { exists a'. split; [|done]. eapply rtc_l; [apply advert_parent_done|exact Hb]. }
  assert (advert_ok o b) as Hb by (eapply advert_step_ok; [exact Hok|apply advert_parent_done]).
  assert (watched b ⊆ cancelled b) as Hc by set_solver. clearbody b. clear Hok a.
  remember (size (watched b)) as k eqn:Hk. revert b Hb Hc Hk. induction k as [|k IH]; intros b Hb Hc Hk.
  - exists b. split; [apply rtc_refl|].
    assert (watched b = ∅) as Hw by (apply leibniz_equiv, size_empty_inv; by symmetry). split; [|done].
    apply map_empty. intros n. destruct (on_air b !! n) eqn:E; [|done].
    pose proof (av_watched o b Hb n ltac:(by rewrite E)). set_solver.
  - destruct (set_choose_L (watched b)) as [n Hn].
    { intros E. rewrite E, size_empty in Hk. done. }
    assert (advert_step b {| b with on_air := delete n (on_air b); watched := watched b ∖ {[n]} |}) as Hs
      by (apply advert_withdraw; set_solver).
    edestruct (IH _ (advert_step_ok o _ _ Hb Hs)) as (a' & Ha' & H); cbn.
    + set_solver.
    + rewrite size_difference by set_solver. rewrite size_singleton. lia.
    + exists a'. split; [|done]. by eapply rtc_l.
Qed.

(** [Shutdown] undoes a [Start]: what was on the air before stays, what the call
    registered is gone. *)
Theorem shutdown_undoes_start (o : Options) (a : Advertiser) hostname ifaces env tick :
  rtc advert_step (NewAdvertiser o) a →
  on_air (state (_ ← Start hostname ifaces true; Shutdown) env tick a) = on_air a.
Proof.
  intros Hok%advertised_ok.
  enough (wp (_ ← Start hostname ifaces true; Shutdown) env tick a (λ _ _ a', on_air a' = on_air a)) as H
    by by rewrite wp_run in H.
  rewrite wp_bind. eapply wp_mono; [apply (wp_Start _ _ _ _ _ o a Hok)|].
  intros x t b (Hb & _ & _ & n & r & Hair & Hs & _ & Hn & _). eapply wp_mono; [apply (wp_Shutdown _ _ o b Hb)|].
  intros ? ? c (_ & _ & _ & Hc & _). rewrite Hc, Hs, Hair. apply delete_insert_id.
  destruct (on_air a !! n) eqn:E; [|done]. destruct Hn. apply (av_watched o a Hok). by rewrite E.
Qed.

(** ** Examples *)

Definition eth (ips : list (option string)) : Interface := mkInterface false true true (Some ips).
Definition tuner : Options := mkOptions "alarm" "_smoke-alarm._tcp" "local" 18088 [("version", "1")].

(** The name of the service has one dot at its end before the port, and the loopback
    address is not advertised. *)
Example advertises :
  ServiceID (NewAdvertiser tuner) = "_smoke-alarm._tcp.local.:18088" ∧
  getLocalIPs (Some [mkInterface true true true (Some [Some "127.0.0.1"]); eth [Some "10.0.0.5"; None]]) =
    Some ["10.0.0.5"].
Proof. vm_compute. split; reflexivity. Qed.

(** A second [Start] loses the first registration: [Shutdown] stops the second only,
    and the first stays on the air as long as the caller's context lives. *)
Example second_start_outlives_shutdown :
  let m := _ ← Start (Some "host") (Some []) true; _ ← Start (Some "host") (Some []) true; Shutdown in
  let a := state m (frozen 7 "") 0 (NewAdvertiser tuner) in
  on_air a !! 0%nat = Some (mkRegistration "alarm" "_smoke-alarm._tcp" "local." 18088 "host." [] ["version=1"]) ∧
  0%nat ∉ cancelled a ∧ server a = None.
Proof. vm_compute. split; [reflexivity|]. split; [|reflexivity]. intros H. by apply (bool_decide_eq_true_2 _) in H. Qed.
