(* ===== verification/Telemetry.v ===== *)
(** * Telemetry ([internal/telemetry/telemetry.go])

    What the exporter tells the OpenTelemetry meter. The meter is another module's:
    it is modelled by the increments it was given, in order, and [creates] says
    which instruments it makes. The value of a counter is the sum of its
    increments for a set of attributes, as documented. *)

From Stdlib Require Import ZArith Lia.
From stdpp Require Import base tactics strings.
From stdpp Require Import list.
From S2P Require Import Prelude.

Open Scope Z_scope.

(** ** Data *)

Definition two32 : Z := 4294967296.
Definition wrap_u32 (z : Z) : Z := z mod two32.

Record Increment := mkIncrement { inc_name : string; inc_value : Z; inc_attrs : list (string * string) }.

(** [runtime.MemStats]: the fields that are read, and [runtime.NumGoroutine()]. *)
Record MemStats := mkMemStats { ms_Alloc : Z; ms_TotalAlloc : Z; ms_NumGC : Z; ms_goroutines : Z }.

(** [metered] is a meter that is not nil, [reading] a reader; [gauges] are the
    observable gauges that were made, none of which has a callback. *)
Record Exporter := mkExporter {
  reading : bool;
  metered : bool;
  lastGC : Z;
  increments : list Increment;
  gauges : list string;
}.

Inductive telemetry_error := ErrEndpointRequired | ErrOTEL.

(** The value of a counter. *)
Definition total (name : string) (attrs : list (string * string)) (incs : list Increment) : Z :=
  foldr Z.add 0 (map inc_value (filter (λ i, inc_name i = name ∧ inc_attrs i = attrs) incs)).

Section Meter.
Context (creates : string → bool).

(** ** Operations *)

(** [exporter_fails] is [otlpmetrichttp.New] failing. *)
Definition NewExporter (endpoint : string) (exporter_fails : bool) (mem : MemStats) : Exporter + telemetry_error :=
  if endpoint =s "" then inr ErrEndpointRequired
  else if exporter_fails then inr ErrOTEL
  else inl (mkExporter true true (wrap_u32 (ms_NumGC mem)) [] []).

Definition add (name : string) (value : Z) (attrs : list (string * string)) : M Exporter unit :=
  modify (λ e, {| e with increments := increments e ++ [mkIncrement name value attrs] |}).

Definition RecordCheckLatency (targetID : string) (latencyMs : Z) : M Exporter unit :=
  e ← get;
  if negb (metered e) || negb (creates "smoke_alarm.check.latency_ms") then mret tt
  else add "smoke_alarm.check.latency_ms" latencyMs [("target_id", targetID)].

Definition failure_attrs (targetID failureClass : string) : list (string * string) :=
  [("target_id", targetID); ("failure_class", failureClass)].

Definition RecordCheckFailure (targetID failureClass : string) : M Exporter unit :=
  e ← get;
  if negb (metered e) || negb (creates "smoke_alarm.check.failures") then mret tt
  else add "smoke_alarm.check.failures" 1 (failure_attrs targetID failureClass).

(** The gauge is made and its state is not given to it. *)
Definition RecordTargetState (targetID st : string) : M Exporter unit :=
  e ← get;
  if negb (metered e) || negb (creates "smoke_alarm.target.state") then mret tt
  else modify (λ e, {| e with gauges := gauges e ++ ["smoke_alarm.target.state"] |}).

Definition stateToInt (st : string) : Z :=
  if st =s "healthy" then 0
  else if st =s "degraded" then 1
  else if st =s "unhealthy" then 2
  else if st =s "outage" then 3
  else if st =s "regression" then 4
  else -1.

(** An instrument that could not be made takes increments and drops them. *)
Definition add_to (name : string) (value : Z) (attrs : list (string * string)) : M Exporter unit :=
  if creates name then add name value attrs else mret tt.

Definition RecordSystemMetrics (mem : MemStats) : M Exporter unit :=
  e ← get;
  if negb (metered e) then mret tt
  else
    _ ← add_to "process.memory.alloc_bytes" (wrap_i64 (ms_Alloc mem)) [("type", "current")];
    _ ← add_to "process.memory.total_bytes" (wrap_i64 (ms_TotalAlloc mem)) [("type", "cumulative")];
    _ ← add_to "process.goroutines" (ms_goroutines mem) [("state", "active")];
    _ ← add_to "process.gc.count" (wrap_u32 (wrap_u32 (ms_NumGC mem) - lastGC e)) [("type", "delta")];
    modify (λ e, {| e with lastGC := wrap_u32 (ms_NumGC mem) |}).

(** Whether the reader is shut down. *)
Definition Close : M Exporter bool :=
  e ← get;
  mret (reading e).

(** ** Facts *)

Lemma total_app name attrs a b : total name attrs (a ++ b) = total name attrs a + total name attrs b.
Proof.
  unfold total. rewrite filter_app, map_app. induction (map inc_value _) as [|x l IH]; cbn; [done|].
  rewrite IH. lia.
Qed.

Lemma total_one name attrs i :
  total name attrs [i] = if decide (inc_name i = name ∧ inc_attrs i = attrs) then inc_value i else 0.
Proof. unfold total. rewrite filter_cons. destruct (decide _); cbn; lia. Qed.

Fixpoint record_failures (fs : list (string * string)) : M Exporter unit :=
  match fs with
  | [] => mret tt
  | (t, c) :: fs => _ ← RecordCheckFailure t c; record_failures fs
  end.

Fixpoint record_system (samples : list MemStats) : M Exporter unit :=
  match samples with
  | [] => mret tt
  | m :: samples => _ ← RecordSystemMetrics m; record_system samples
  end.

Context (Hall : ∀ name, creates name = true).

(** Failures are counted per target and class: however they come, the counter of a
    pair is the number of its failures. *)
Theorem failures_counted (fs : list (string * string)) (t c : string) (env : Env) (tick : nat) (e : Exporter) :
  metered e = true →
  let e' := state (record_failures fs) env tick e in
  total "smoke_alarm.check.failures" (failure_attrs t c) (increments e') =
  total "smoke_alarm.check.failures" (failure_attrs t c) (increments e) +
  Z.of_nat (length (filter (λ f, f = (t, c)) fs)).
Proof.
  cbv zeta. revert tick e. induction fs as [|[t' c'] fs IH]; intros tick e Hm; cbn [record_failures].
  { cbn. lia. }
  enough (wp (_ ← RecordCheckFailure t' c'; record_failures fs) env tick e (λ _ _ e',
    total "smoke_alarm.check.failures" (failure_attrs t c) (increments e') =
    total "smoke_alarm.check.failures" (failure_attrs t c) (increments e) +
    Z.of_nat (length (filter (λ f, f = (t, c)) ((t', c') :: fs))))) as H by by rewrite wp_run in H.
  unfold RecordCheckFailure, add. wp_go. rewrite Hm, Hall. cbn [negb orb]. wp_go. rewrite wp_run, IH by done.
  cbn [increments]. rewrite total_app, total_one, filter_cons. cbn [inc_name inc_attrs inc_value].
  destruct (decide ((t', c') = (t, c))) as [[= -> ->]|Hne].
  - rewrite decide_True by done. cbn [length]. lia.
  - rewrite decide_False; [lia|]. intros [_ [= -> ->]]. by apply Hne.
Qed.

(** The delta of the collections is right across the wrap of its 32 bits: as long as
    there are fewer than 2^32 collections between two samples, the counter is the
    number of collections since the exporter was made. *)
Theorem collections_counted (samples : list MemStats) (n : Z) (env : Env) (tick : nat) (e : Exporter) :
  metered e = true → lastGC e = wrap_u32 n →
  (∀ i a b, (n :: map ms_NumGC samples) !! i = Some a → map ms_NumGC samples !! i = Some b → a <= b < a + two32) →
  let e' := state (record_system samples) env tick e in
  total "process.gc.count" [("type", "delta")] (increments e') =
  total "process.gc.count" [("type", "delta")] (increments e) + (List.last (map ms_NumGC samples) n - n).
Proof.
  cbv zeta. revert n tick e. induction samples as [|m samples IH]; intros n tick e Hm Hl Hmono; cbn [record_system map].
  { cbn. lia. }
  pose proof (Hmono 0%nat n (ms_NumGC m) eq_refl eq_refl) as Hstep.
  enough (wp (_ ← RecordSystemMetrics m; record_system samples) env tick e (λ _ _ e',
    total "process.gc.count" [("type", "delta")] (increments e') =
    total "process.gc.count" [("type", "delta")] (increments e) +
    (List.last (ms_NumGC m :: map ms_NumGC samples) n - n))) as H by by rewrite wp_run in H.
  unfold RecordSystemMetrics, add_to, add. wp_go. rewrite Hm, !Hall. cbn [negb]. wp_go.
  rewrite wp_run, (IH (ms_NumGC m)); [|done|done|].
  2: { intros i a b Ha Hb. apply (Hmono (S i) a b); done. }
  cbn [increments]. rewrite !total_app, !total_one. cbn [inc_name inc_attrs inc_value].
  rewrite !decide_False by (intros [? ?]; done). rewrite decide_True by done.
  assert (wrap_u32 (wrap_u32 (ms_NumGC m) - lastGC e) = ms_NumGC m - n) as ->.
  { rewrite Hl. unfold wrap_u32. rewrite <- Zminus_mod. apply Z.mod_small. unfold two32 in *. lia. }
  assert (List.last (map ms_NumGC samples) (ms_NumGC m) = List.last (ms_NumGC m :: map ms_NumGC samples) n) as ->; [|lia].
  destruct (map ms_NumGC samples) as [|x l]; [done|]. cbn. clear. revert x. induction l as [|y l IH]; intros x; [done|].
  apply IH.
Qed.
End Meter.

(** ** Examples *)

(** The memory in use is added at each sample, so the up-down counter is the sum of
    all samples. *)
Example memory_accumulates :
  let sample n := RecordSystemMetrics (λ _, true) (mkMemStats n n 0 5) in
  let e := state (_ ← sample 100; sample 100) (frozen 7 "") 0 (mkExporter true true 0 [] []) in
  total "process.memory.alloc_bytes" [("type", "current")] (increments e) = 200 ∧
  total "process.goroutines" [("state", "active")] (increments e) = 10.
Proof. vm_compute. split; reflexivity. Qed.

(** The state of a target is never recorded. *)
Example target_state_is_dropped :
  increments (state (RecordTargetState (λ _, true) "a" "outage") (frozen 7 "") 0 (mkExporter true true 0 [] [])) = [].
Proof. vm_compute. reflexivity. Qed.

(** Latencies are summed. *)
Example latencies_are_summed :
  let r n := RecordCheckLatency (λ _, true) "a" n in
  let e := state (_ ← r 120; r 340) (frozen 7 "") 0 (mkExporter true true 0 [] []) in
  total "smoke_alarm.check.latency_ms" [("target_id", "a")] (increments e) = 460.
Proof. vm_compute. reflexivity. Qed.
